(* ===== verification/_CoqProject ===== *)
-Q . S2P
Prelude.v
JsString.v
Encoding.v
JsNumber.v
Json.v
JsonParse.v
JsonCanon.v
Schemas.v
StateMachines.v
SqlStates.v
ValueObjects.v
VotingConsent.v
Voting.v
ToolTable.v
Authz.v
Ruleset.v
GovernanceProfile.v
Decode.v
Signing.v
Codec.v
KeyLifecycle.v
EventIds.v
AuditEvent.v
Checkpoint.v
RecoveryCheckpoint.v
ExportAttestation.v
Certificate.v
OfflineCertificate.v
OfflineRows.v
OfflineAudit.v
OfflineAccepted.v
Consent.v
Feed.v
Cursor.v
DecisionPackage.v
Electorate.v
Citations.v
Minutes.v
Document.v
Transcript.v
ActionManifest.v
Question.v
Request.v
Database.v
AuditAppend.v
StagedAction.v
StagedMoves.v
StagedEffects.v
StagedHistory.v
Jobs.v
JobLeases.v
JobHistory.v
Ballots.v
BallotEffects.v
BallotHistory.v
CloseTally.v
BallotLifecycle.v
LifecycleEffects.v
LifecycleHistory.v
