(* ===== verification/Prelude.v ===== *)
(** * BoardAgent verification library

    BoardAgent is a governance server for boards: members vote, review minutes,
    ask management questions and read documents through tool calls; every
    governed act is staged, confirmed by its member, written to a hash-chained
    audit log and, for votes, certified by a signature that third parties check
    offline. This library models the parts of the program that decide, hash,
    sign and verify, and the database transactions every governed act passes
    through, and proves that they do what they promise. Paths below are under
    src/.

    ** How the files correspond to the program

    Runtime and text (what the language and its standard library do):
    - [Prelude] the errors of the program ([exn]), the error monad [result], list,
      option and integer lemmas and the tactics [inv_ok], [boolify] and friends;
    - [JsString], [JsNumber] strings as UTF-16 code units, UTF-8, decimal, hex and
      base64url text, binary64 numbers and their printing;
    - [Encoding] SHA-256, HMAC-SHA256 and hex, executable, with the digest helpers
      of lib/contracts/src/canonical.ts;
    - [Json], [JsonParse], [JsonCanon] canonical JSON and canonical text, the strict
      parser, and the theory of canonical forms (canonical.ts);
    - [Decode] the schema combinators the sources use; [Schemas] the scalar
      schemas (lib/contracts/src/schemas.ts); [Codec], [Signing] the two interfaces
      that payload formats implement: a payload carried as canonical text, and
      a signed one.

    Decisions (lib/domain, lib/authz, lib/ruleset; pure functions):
    - [StateMachines] every lifecycle table of state-machines.ts; [ValueObjects]
      weights, fractions, UUIDs and codes of value-objects.ts;
    - [VotingConsent], [Voting] the consent hashes and the tally of voting.ts;
    - [ToolTable], [Authz] the tool registry, authorize.ts and surface-policy.ts;
    - [Ruleset], [GovernanceProfile] schema.ts, evaluate.ts, governance-profile.ts;
    - [Consent], [Feed], [Minutes], [ActionManifest], [Question], [Document],
      [DecisionPackage], [Electorate] the files of lib/domain/src of those names
      ([Electorate] is the second part of decision-package.ts, [ActionManifest] of
      minutes.ts), with the schemas of lib/contracts/src/governance.ts,
      content.ts and document-schemas.ts that they parse with ([Citations] the
      shared one); [Transcript] lib/contracts/src/transcript.ts;
    - [Cursor] the list cursors of artifacts/server/src/cursor.ts.

    Evidence (lib/audit):
    - [EventIds], [AuditEvent] event.ts, the chain and its incremental verifier;
    - [KeyLifecycle], [Checkpoint], [RecoveryCheckpoint], [ExportAttestation],
      [Certificate] the signed formats of the files of those names;
    - [OfflineCertificate], [OfflineRows], [OfflineAudit], [OfflineAccepted] the two
      offline verifiers of offline.ts, and what their acceptance means.

    Transactions (lib/db):
    - [Request] context.ts: the request context, its session settings, the
      transaction monad [Tx] (session and database in, answer and database or an
      error out), one attempt, and the replay of conflicting attempts;
    - [Database], [AuditAppend] the tables of migrations 0002, 0005 and 0010 with
      their constraints, row security and triggers, appending to the audit log
      (transactions/audit.ts), and its chain invariant;
    - [StagedAction] transactions/consent.ts, staging and confirming an action,
      with the CHECK constraints of migration 0005 and the trigger of migration
      0024 on what it writes, and the SQL verifier of migration 0097;
      [StagedMoves], [StagedEffects],
      [StagedHistory] what each transaction does to the tables, the invariant,
      and histories of transactions as a step relation;
    - [SqlStates] the triggers that guard the states of the tables (migrations
      0011, 0014, 0028, 0029, 0058, 0086);
    - [Jobs] jobs.ts, the typed jobs and the SQL functions that enqueue, claim,
      extend, complete and reap them (migrations 0030, 0107, 0111, 0160);
      [JobLeases] the invariant of the job tables and the effect of each function,
      [JobHistory] each transaction and histories of them with the other writers
      of the tables;
    - [Ballots] transactions/ballots.ts, granting and revoking a proxy and casting
      a ballot, on the tables of votes (migrations 0002, 0004, 0005, 0009, 0010,
      0020, 0024, 0147); [BallotEffects] what each leaves, [BallotHistory] the
      invariant, histories, and who may cast; [CloseTally] the evidence and the
      tally of a closed vote (buildClosePayload of transactions/vote-close.ts);
    - [BallotLifecycle] transactions/ballot-lifecycle.ts, which composes the last
      two: preparing, staging, confirming and repeating a grant, a revocation and
      a ballot; [LifecycleEffects] what preparing and confirming do,
      [LifecycleHistory] histories over stages and votes together.

    The components meet where the code composes them: the offline verifier of a
    certificate recounts with [Voting.tallyVote]; the one of an export checks
    with [AuditEvent], [Checkpoint] and [RecoveryCheckpoint]; [StagedAction] and
    [Ballots] append with [Database.appendAuditEventsInTransaction], which hashes
    with [AuditEvent.eventHash]; a ballot is bound to its consent by
    [VotingConsent.ballotConsentHash], and the ballots that any history leaves are
    tallied by [Voting.tallyVote] in [CloseTally]; [BallotLifecycle] gives the callbacks of
    [StagedAction.confirmStagedActionInTransaction] a preparation and an act of
    [Ballots], and [LifecycleHistory] discharges for them what [StagedHistory]
    assumes of callbacks; [Authz] reads the policy of [ToolTable]; every digest is
    [Json.canonicalSha256].

    ** What the theorems show

    - Votes: [tallyVote] returns the specified tally exactly on valid input, in
      any order of seats and ballots, within bounds, and more support never
      hurts; certificates verify exactly when issued so, and the offline verifier
      accepts exactly the bundles whose recount, evidence and signature agree.
    - Evidence: the chain verifier accepts exactly the chains from genesis and
      locates the first break; a head fixes its history; an accepted export is a
      contiguous range vouched for by a checkpoint or an attestation, and its
      expectation fixes the events, up to explicit SHA-256 collisions. Digests
      bind what they are taken of, up to an explicit collision.
    - Transactions: any history of staging, confirming and other transactions
      keeps the invariant of the tables; a stage is confirmed at most once, and
      only by the member, client and token it was staged for, for the arguments,
      state and payload it was staged with; refusals come in the stated order
      and are recorded; appended evidence extends the chain without a gap; a
      request transaction is replayed at most a hundred times.
    - Jobs: any history keeps a job leased exactly while it has a lease, with one
      result for each ended lease and at most ten leases; a completion counts
      only under the lease it names; a claim hands out exactly the envelope that
      was enqueued, or refuses the job; states move as the domain says, and the
      state guards of the database are compared with the tables of the domain.
    - Ballots: any history of casts, grants, revocations and other transactions
      keeps one counting ballot per principal, backed by a grant and the frozen
      weight, no chain of proxies and nothing lost; a ballot is cast only by right
      and by consent to exactly it; an own ballot supersedes a proxy ballot when
      the policy says so, and nothing else; a retry is answered and not repeated;
      what was cast can be tallied when the vote closes; and through any history of
      staged and confirmed actions every ballot was confirmed by its caster, for
      exactly what it says and by a stage of its own.
    - Decisions: authorization, rule selection, matter evaluation, package
      changes, replacement plans, redlines, reviews, questions, documents,
      transcripts, cursors and feed pages behave on every branch as specified
      beside the definitions; every lifecycle can reach its end.

    ** Conventions

    A [string] of the program is a list of UTF-16 code units, a [number] a [jsnum],
    a [bigint] a [Z], a digest kept in the database its hexadecimal text, a
    timestamp microseconds. A function that throws returns [result].

    Fuel: SHA-256 takes the number of words of the padded message, the strict
    parser the length of its source plus one, Euclid's loop twice the bit length
    of its divisor plus three, the number printer the 17 digits a binary64 can
    need; [OutOfFuel] is proved unreachable for the parser
    ([JsonParse]) and the loop ([GovernanceProfile]). Replaying a transaction is
    a recursion on the attempts left, at most a hundred.

    ** What is assumed, and where

    Code outside the repository is a parameter: [Platform] (Unicode NFC and the
    canonicalize package, whose documented RFC 8785 output is the law [Rfc8785]),
    [NodeText] (decoding of a Buffer and JSON.parse, with the laws the code
    relies on), [IsoTime] (the ISO timestamps of the schema library),
    [Signatures] (Ed25519 of node:crypto, with its documented laws), [UrlParser],
    [PgClock] (printing a timestamp in PostgreSQL), [JsonbReading] (reading bytes as
    its jsonb), [JobText] (two formats of the
    schema library) and [SqlAuthority], [JobSubjects], [VoteAuthority] (SQL
    predicates over tables that are not modelled, and the reading of a timestamp). Each theorem with a
    hypothesis has a witness in which the parameters are concrete functions.
    Staging and confirming call back into the code of the action at hand; the
    histories assume of it only that it records no consent of its own, confirms
    no stage, leaves the attempts alone and appends to the audit log through
    [appendAuditEventsInTransaction] ([honest], [acts_honestly] of [StagedMoves]
    and [StagedEffects]). Of the transactions on votes that are not modelled the
    histories assume the contract [other_act] of [BallotHistory]: they keep the
    constraints of the schema, cast and grant nothing, and leave no counting
    ballot by or for a member they exclude.

    ** Not modelled

    The other SQL transactions of lib/db/src/transactions (votes.ts, recusals.ts
    and the rest of vote-close.ts among them), what the background jobs do once
    claimed and the schedulers that produce them, the table declarations for the
    query builder, the projections and tool wiring of artifacts/server, the
    identity protocols (OAuth, OIDC, WebAuthn, TOTP), process and network code,
    scripts and tests. The walker of canonical.ts is modelled on JSON trees only: its checks for shared, cyclic and exotic objects have no
    counterpart there. Concurrency of transactions is modelled as what
    PostgreSQL promises at the isolation level used: committed transactions run
    one after the other. *)

From stdpp Require Import base numbers sorting strings list.
From Stdlib Require Import Lia.

Local Open Scope Z_scope.

(** ** JavaScript strings and thrown errors *)

(** A JavaScript string is its sequence of UTF-16 code units. *)
Abbreviation jsstr := (list Z) (only parsing).

(** What a [throw] carries: the class of the error, the fixed part of its
    message and the interpolated strings. [ZodError] is what a schema's
    [parse] throws; it carries the schema's name, a [DatabaseError] its SQLSTATE. [OutOfFuel] is not an error
    of the code: it marks a fuel-bounded function whose fuel ran out, and is
    proved unreachable for the fuel the library uses. *)
Inductive exn : Type :=
  | JsError (msg : string) (args : list jsstr)
  | RangeError (msg : string) (args : list jsstr)
  | TypeError (msg : string) (args : list jsstr)
  | CanonicalizationError (msg : string) (args : list jsstr)
  | DocumentValidationError (code : string)
  | DatabaseError (code : string)
  | JobTransactionError (code msg : string)
  | BallotProxyTransactionError (code msg : string)
  | VoteCloseTransactionError (code msg : string)
  | BallotLifecycleTransactionError (code msg : string)
  | ZodError (schema : string)
  | OutOfFuel.

#[export] Instance exn_eq_dec : EqDecision exn.
Proof. solve_decision. Defined.

(** A column or member that is there, or not. *)
Definition is_some {A} (o : option A) : bool := match o with Some _ => true | None => false end.
Definition is_null {A} (o : option A) : bool := negb (is_some o).

(** ** The error monad of throwing code *)

Inductive result (A : Type) : Type :=
  | Ok (a : A)
  | Throw (e : exn).
Arguments Ok {A} _.
Arguments Throw {A} _.

#[export] Instance result_ret : MRet result := fun A a => Ok a.
#[export] Instance result_bind : MBind result := fun A B f r =>
  match r with Ok a => f a | Throw e => Throw e end.
#[export] Instance result_fmap : FMap result := fun A B f r =>
  match r with Ok a => Ok (f a) | Throw e => Throw e end.

Definition is_ok {A} (r : result A) : bool :=
  match r with Ok _ => true | Throw _ => false end.

(** [if (b) throw e;] *)
Definition throw_if (b : bool) (e : exn) : result unit :=
  if b then Throw e else Ok tt.

(** A [try { .. } catch { return d }] around code that yields a value. *)
Definition catch {A} (r : result A) (d : A) : A :=
  match r with Ok a => a | Throw _ => d end.

(** A [for .. of] loop whose body updates a state and may throw. *)
Fixpoint forM {S A} (body : S -> A -> result S) (s : S) (l : list A) : result S :=
  match l with
  | [] => Ok s
  | x :: l' => body s x ≫= fun s' => forM body s' l'
  end.

(** [list.map(f)] where [f] may throw. *)
Fixpoint mapR {A B} (f : A -> result B) (l : list A) : result (list B) :=
  match l with
  | [] => Ok []
  | x :: l' => y ← f x; ys ← mapR f l'; Ok (y :: ys)
  end.

(** ** Inversion of monadic code *)

Lemma bind_ok {A B} (m : result A) (f : A -> result B) b :
  m ≫= f = Ok b <-> exists a, m = Ok a /\ f a = Ok b.
Proof.
  destruct m as [a|e]; simpl; split; intros H; try discriminate.
  - by exists a.
  - by destruct H as (? & [= <-] & ?).
  - by destruct H as (? & ? & ?).
Qed.

Lemma fmap_ok {A B} (m : result A) (f : A -> B) b :
  f <$> m = Ok b <-> exists a, m = Ok a /\ b = f a.
Proof.
  destruct m as [a|e]; simpl; split; intros H; try discriminate.
  - injection H as <-. by exists a.
  - by destruct H as (? & [= <-] & ->).
  - by destruct H as (? & ? & ?).
Qed.

Lemma throw_if_ok b e u : throw_if b e = Ok u <-> b = false.
Proof. destruct b, u; simpl; split; done. Qed.

Lemma is_ok_true {A} (r : result A) : is_ok r = true <-> exists a, r = Ok a.
Proof. destruct r as [a|e]; simpl; split; [by exists a| |done|by intros []]; done. Qed.

Lemma forM_app {S A} (body : S -> A -> result S) s l1 l2 :
  forM body s (l1 ++ l2) = forM body s l1 ≫= fun s' => forM body s' l2.
Proof.
  revert s; induction l1 as [|x l1 IH]; intros s; [done|].
  simpl. destruct (body s x); simpl; [apply IH|done].
Qed.

(** Loop invariant rule: what every iteration that does not throw preserves
    holds at the end. The invariant sees the items already consumed. *)
Lemma forM_inv {S A} (P : list A -> S -> Prop) (body : S -> A -> result S) s l s' :
  P [] s ->
  (forall done x st st', P done st -> body st x = Ok st' -> P (done ++ [x]) st') ->
  forM body s l = Ok s' -> P l s'.
Proof.
  intros H0 Hstep.
  cut (forall done s, P done s -> forM body s l = Ok s' -> P (done ++ l) s').
  { intros H Hf. apply (H [] s); done. }
  induction l as [|x l IH]; intros done st HP; simpl; intros Hf.
  - injection Hf as <-. by rewrite app_nil_r.
  - apply bind_ok in Hf as (st' & Hb & Hf).
    rewrite cons_middle, app_assoc. eapply IH; eauto.
Qed.

Lemma mapR_ok {A B} (f : A -> result B) l k :
  mapR f l = Ok k <-> Forall2 (fun x y => f x = Ok y) l k.
Proof.
  revert k; induction l as [|x l IH]; intros k; simpl.
  - split; [intros [= <-]; constructor|by inversion 1].
  - split.
    + intros (y & Hy & (ys & Hys & [= <-])%bind_ok)%bind_ok.
      constructor; [done|by apply IH].
    + inversion 1 as [|? ? ? ys Hy Hys]; subst. rewrite Hy; simpl.
      by rewrite (proj2 (IH _) Hys).
Qed.

Lemma bool_decide_refl {A} `{EqDecision A} (x : A) : bool_decide (x = x) = true.
Proof. by apply bool_decide_eq_true. Qed.

(** ** Lists *)

(** Unlike [injection], this does not look into the items. *)
Lemma cons_inj {A} (x y : A) l k : x :: l = y :: k -> x = y /\ l = k.
Proof. by intros [= -> ->]. Qed.

Lemma forallb_perm {A} (f : A -> bool) l k : l ≡ₚ k -> forallb f l = forallb f k.
Proof.
  induction 1 as [|x l k _ IH|x y l|l k m _ IH1 _ IH2]; simpl; [done|by rewrite IH| |congruence].
  by destruct (f x), (f y).
Qed.

Lemma existsb_perm {A} (f : A -> bool) l k : l ≡ₚ k -> existsb f l = existsb f k.
Proof.
  induction 1 as [|x l k _ IH|x y l|l k m _ IH1 _ IH2]; simpl; [done|by rewrite IH| |congruence].
  by destruct (f x), (f y).
Qed.

Lemma forallb_map {A B} (f : B -> bool) (g : A -> B) l :
  forallb f (map g l) = forallb (fun x => f (g x)) l.
Proof. induction l as [|x l IH]; simpl; [done|by rewrite IH]. Qed.

Lemma existsb_map {A B} (f : B -> bool) (g : A -> B) l :
  existsb f (map g l) = existsb (fun x => f (g x)) l.
Proof. induction l as [|x l IH]; simpl; [done|by rewrite IH]. Qed.

(** The sum of a quantity over a list. *)
Definition sum_by {A} (f : A -> Z) (l : list A) : Z := foldr (fun x a => f x + a) 0 l.

Lemma sum_by_app {A} (f : A -> Z) l k : sum_by f (l ++ k) = sum_by f l + sum_by f k.
Proof. induction l as [|x l IH]; cbn; [done|]. unfold sum_by in *. rewrite IH. lia. Qed.

Lemma sum_by_perm {A} (f : A -> Z) l k : l ≡ₚ k -> sum_by f l = sum_by f k.
Proof.
  unfold sum_by. induction 1 as [|x l k _ IH|x y l|l k m _ IH1 _ IH2]; cbn; lia.
Qed.

Lemma sum_by_ext {A} (f g : A -> Z) l :
  (forall x, x ∈ l -> f x = g x) -> sum_by f l = sum_by g l.
Proof.
  induction l as [|x l IH]; cbn; intros H; [done|]. unfold sum_by in *.
  rewrite (H x) by left. rewrite IH; [done|]. intros y Hy. apply H. by right.
Qed.

Lemma sum_by_le {A} (f g : A -> Z) l :
  (forall x, x ∈ l -> f x <= g x) -> sum_by f l <= sum_by g l.
Proof.
  induction l as [|x l IH]; cbn; intros H; [done|]. unfold sum_by in *.
  pose proof (H x ltac:(left)). assert (foldr (fun x a => f x + a) 0 l <= foldr (fun x a => g x + a) 0 l).
  { apply IH. intros y Hy. apply H. by right. } lia.
Qed.

Lemma sum_by_add {A} (f g : A -> Z) l : sum_by (fun x => f x + g x) l = sum_by f l + sum_by g l.
Proof. induction l as [|x l IH]; cbn; [done|]. unfold sum_by in *. lia. Qed.

Lemma sum_by_zero {A} (l : list A) : sum_by (fun _ => 0) l = 0.
Proof. induction l as [|x l IH]; cbn; [done|]. unfold sum_by in *. lia. Qed.

Lemma sum_by_nonneg {A} (f : A -> Z) l : (forall x, x ∈ l -> 0 <= f x) -> 0 <= sum_by f l.
Proof. intros H. rewrite <- (sum_by_zero l). by apply sum_by_le. Qed.

Lemma sum_by_swap {A B} (f : A -> B -> Z) l k :
  sum_by (fun a => sum_by (f a) k) l = sum_by (fun b => sum_by (fun a => f a b) l) k.
Proof.
  induction l as [|a l IH]; cbn; [by rewrite sum_by_zero|].
  unfold sum_by at 1 in IH. rewrite IH. symmetry.
  exact (sum_by_add (f a) (fun b => sum_by (fun a => f a b) l) k).
Qed.

(** Summing over the items with a given key, when keys are distinct: at most
    one item counts. *)
Lemma sum_by_key {A K} `{EqDecision K} (key : A -> K) (k : K) (f : A -> Z) l :
  NoDup (map key l) ->
  (forall x, x ∈ l -> key x = k -> sum_by (fun y => if decide (key y = k) then f y else 0) l = f x) /\
  ((forall x, x ∈ l -> key x <> k) -> sum_by (fun y => if decide (key y = k) then f y else 0) l = 0).
Proof.
  induction l as [|y l IH]; cbn; intros Hd.
  { split; [by intros x ?%elem_of_nil|done]. }
  apply NoDup_cons in Hd as [Hy Hd]. destruct (IH Hd) as [IH1 IH2]. unfold sum_by in *. split.
  - intros x [->|Hx]%elem_of_cons <-.
    + rewrite decide_True by done. rewrite IH2; [lia|]. intros z Hz E. destruct Hy.
      rewrite <- E. apply list_elem_of_In, in_map, list_elem_of_In, Hz.
    + rewrite decide_False; [rewrite (IH1 x); done|]. intros E. destruct Hy. rewrite E.
      apply list_elem_of_In, in_map, list_elem_of_In, Hx.
  - intros Hn. rewrite decide_False by (apply Hn; left). rewrite IH2; [done|].
    intros x Hx. apply Hn. by right.
Qed.

(** ** Automation *)

Create HintDb jsdb discriminated.
Create Rewrite HintDb jsrw.

#[export] Hint Rewrite @bind_ok @fmap_ok @throw_if_ok : jsrw.

(** Splits a successful run of monadic code into its successful steps. *)
Ltac inv_ok :=
  repeat match goal with
  | H : _ ≫= _ = Ok _ |- _ => apply bind_ok in H as (? & ? & H)
  | H : _ <$> _ = Ok _ |- _ => apply fmap_ok in H as (? & ? & H)
  | H : throw_if _ _ = Ok _ |- _ => apply throw_if_ok in H
  | H : Ok _ = Ok _ |- _ => injection H as H
  | H : Throw _ = Ok _ |- _ => discriminate H
  | H : Ok _ = Throw _ |- _ => discriminate H
  | H : mret _ = Ok _ |- _ => injection H as H
  end.

(** Turns boolean tests of the code into propositions. *)
Ltac boolify :=
  repeat match goal with
  | H : _ && _ = true |- _ => apply andb_true_iff in H as [? ?]
  | H : _ || _ = false |- _ => apply orb_false_iff in H as [? ?]
  | H : negb _ = true |- _ => apply negb_true_iff in H
  | H : negb _ = false |- _ => apply negb_false_iff in H
  | H : bool_decide _ = true |- _ => apply bool_decide_eq_true in H
  | H : bool_decide _ = false |- _ => apply bool_decide_eq_false in H
  | H : (_ =? _)%Z = true |- _ => apply Z.eqb_eq in H
  | H : (_ =? _)%Z = false |- _ => apply Z.eqb_neq in H
  | H : (_ <=? _)%Z = true |- _ => apply Z.leb_le in H
  | H : (_ <=? _)%Z = false |- _ => apply Z.leb_gt in H
  | H : (_ <? _)%Z = true |- _ => apply Z.ltb_lt in H
  | H : (_ <? _)%Z = false |- _ => apply Z.ltb_ge in H
  end.

(** ** Insertion-ordered maps and sets ([Map], [Set]) *)

Section js_map.
Context {V : Type}.
Implicit Types (m : list (jsstr * V)) (k : jsstr) (v : V).

Fixpoint map_get m k : option V :=
  match m with
  | [] => None
  | (k', v) :: m' => if decide (k = k') then Some v else map_get m' k
  end.

Definition map_has m k : bool :=
  match map_get m k with Some _ => true | None => false end.

(** [Map.prototype.set]: an existing key keeps its place. *)
Fixpoint map_set m k v : list (jsstr * V) :=
  match m with
  | [] => [(k, v)]
  | (k', v') :: m' =>
      if decide (k = k') then (k, v) :: m' else (k', v') :: map_set m' k v
  end.

Lemma map_get_set m k k' v :
  map_get (map_set m k v) k' = if decide (k' = k) then Some v else map_get m k'.
Proof.
  induction m as [|[k1 v1] m IH]; simpl.
  - by destruct (decide (k' = k)).
  - destruct (decide (k = k1)) as [->|Hk]; simpl.
    + by destruct (decide (k' = k1)).
    + rewrite IH. by destruct (decide (k' = k1)), (decide (k' = k)); simplify_eq.
Qed.

Lemma map_get_in m k v : map_get m k = Some v -> (k, v) ∈ m.
Proof.
  induction m as [|[k1 v1] m IH]; simpl; [done|].
  case_decide; intros; simplify_eq; [left|right; auto].
Qed.

Lemma map_get_none m k : map_get m k = None <-> k ∉ m.*1.
Proof.
  induction m as [|[k1 v1] m IH]; simpl; [split; [intros _; apply not_elem_of_nil|done]|].
  rewrite not_elem_of_cons. case_decide; [naive_solver|].
  rewrite IH. naive_solver.
Qed.

Lemma map_get_nodup m k v : NoDup m.*1 -> (k, v) ∈ m -> map_get m k = Some v.
Proof.
  induction m as [|[k1 v1] m IH]; simpl; [by intros _ ?%elem_of_nil|].
  intros [Hn Hd]%NoDup_cons [[= <- <-]|Hin]%elem_of_cons; case_decide as Hk;
    try done; [|auto].
  subst k1. destruct Hn. apply list_elem_of_fmap. by exists (k, v).
Qed.

(** Setting a fresh key appends it. *)
Lemma map_set_fresh m k v : map_get m k = None -> map_set m k v = m ++ [(k, v)].
Proof.
  induction m as [|[k1 v1] m IH]; simpl; [done|].
  case_decide; [done|]. intros. by rewrite IH.
Qed.

Lemma elem_of_map_set m k v k' v' :
  (k', v') ∈ map_set m k v -> (k', v') ∈ m \/ (k' = k /\ v' = v).
Proof.
  induction m as [|[k1 v1] m IH]; simpl.
  - intros [= -> ->]%list_elem_of_singleton. by right.
  - case_decide as Hk; intros [[= -> ->]|H]%elem_of_cons; try by right.
    + left. by right.
    + left. by left.
    + destruct (IH H) as [?|?]; [left; by right|by right].
Qed.

Lemma map_has_false m k : map_has m k = false <-> map_get m k = None.
Proof. unfold map_has. by destruct (map_get m k). Qed.

Lemma map_has_true m k : map_has m k = true <-> k ∈ m.*1.
Proof.
  unfold map_has. destruct (map_get m k) as [v|] eqn:E.
  - split; [|done]. intros _. apply map_get_in in E.
    apply list_elem_of_fmap. by exists (k, v).
  - apply map_get_none in E. by split.
Qed.

(** [new Map(entries)] *)
Definition map_of (l : list (jsstr * V)) : list (jsstr * V) :=
  foldl (fun m kv => map_set m kv.1 kv.2) [] l.

Lemma map_of_nodup l : NoDup l.*1 -> map_of l = l.
Proof.
  unfold map_of. induction l as [|[k v] l IH] using rev_ind; [done|].
  rewrite fmap_app, foldl_app. intros (Hl & Hn & _)%NoDup_app. rewrite IH by done. cbn.
  apply map_set_fresh, map_get_none. intros Hk. apply (Hn k Hk). by left.
Qed.

(** Looking up a map of distinct keys. *)
Lemma map_of_get l k v : NoDup l.*1 -> map_get (map_of l) k = Some v <-> (k, v) ∈ l.
Proof.
  intros Hl. rewrite map_of_nodup by done. split; [apply map_get_in|by apply map_get_nodup].
Qed.
End js_map.

(** [set.has(k)] and [set.add(k)] on a [Set] of strings. *)
Definition set_has (s : list jsstr) (k : jsstr) : bool := bool_decide (k ∈ s).
Definition set_add (s : list jsstr) (k : jsstr) : list jsstr :=
  if set_has s k then s else s ++ [k].
(** [new Set(l)]: first occurrences, in order. *)
Definition set_of (l : list jsstr) : list jsstr := foldl set_add [] l.

Lemma elem_of_set_add s k x : x ∈ set_add s k <-> x ∈ s \/ x = k.
Proof.
  unfold set_add, set_has. case_bool_decide; [naive_solver|].
  rewrite elem_of_app, list_elem_of_singleton. done.
Qed.

Lemma NoDup_set_add s k : NoDup s -> NoDup (set_add s k).
Proof.
  intros Hs. unfold set_add, set_has. case_bool_decide as H; [done|].
  apply NoDup_app; split_and!; [done| |apply NoDup_singleton].
  intros x Hx ->%list_elem_of_singleton. done.
Qed.

Lemma set_of_spec l : NoDup (set_of l) /\ forall x, x ∈ set_of l <-> x ∈ l.
Proof.
  unfold set_of.
  cut (forall s, NoDup s -> NoDup (foldl set_add s l) /\
         forall x, x ∈ foldl set_add s l <-> x ∈ s \/ x ∈ l).
  { intros H. destruct (H [] (NoDup_nil_2)) as [? Hx]. split; [done|].
    intros x. rewrite Hx, elem_of_nil. naive_solver. }
  induction l as [|y l IH]; intros s Hs; simpl.
  { split; [done|]. intros x. rewrite elem_of_nil. naive_solver. }
  destruct (IH (set_add s y)) as [Hd Hx]; [by apply NoDup_set_add|].
  split; [done|]. intros x. rewrite Hx, elem_of_set_add, elem_of_cons. naive_solver.
Qed.

(** [new Set(l).size === l.length] *)
Definition all_distinct (l : list jsstr) : bool :=
  Nat.eqb (length (set_of l)) (length l).

Lemma all_distinct_spec l : all_distinct l = true <-> NoDup l.
Proof.
  unfold all_distinct. rewrite Nat.eqb_eq.
  destruct (set_of_spec l) as [Hd Hx]. split; intros H.
  - cut (set_of l ≡ₚ l); [by intros <-|].
    apply submseteq_length_Permutation; [|lia].
    apply NoDup_submseteq; [done|]. intros x. by rewrite Hx.
  - apply Permutation_length, NoDup_Permutation; [done..|]. intros x; apply Hx.
Qed.

(** ** Stable sorting with a comparator ([Array.prototype.toSorted]) *)

Section to_sorted.
Context {A : Type} (cmp : A -> A -> Z).

Fixpoint sort_insert (x : A) (l : list A) : list A :=
  match l with
  | [] => [x]
  | y :: l' => if cmp x y <=? 0 then x :: y :: l' else y :: sort_insert x l'
  end.

Fixpoint toSorted (l : list A) : list A :=
  match l with
  | [] => []
  | x :: l' => sort_insert x (toSorted l')
  end.

Definition cmp_le (x y : A) : Prop := cmp x y <= 0.

Lemma sort_insert_perm x l : sort_insert x l ≡ₚ x :: l.
Proof.
  induction l as [|y l IH]; simpl; [done|].
  case_match; [done|]. rewrite IH. constructor.
Qed.

Lemma toSorted_perm l : toSorted l ≡ₚ l.
Proof.
  induction l as [|x l IH]; simpl; [done|]. by rewrite sort_insert_perm, IH.
Qed.

(** Laws a comparator needs; [cmp_total] is what JavaScript calls a
    consistent comparator. *)
Context (cmp_total : forall x y, 0 < cmp x y -> cmp y x <= 0)
        (cmp_trans : forall x y z, cmp x y <= 0 -> cmp y z <= 0 -> cmp x z <= 0).

Lemma sort_insert_sorted x l :
  StronglySorted cmp_le l -> StronglySorted cmp_le (sort_insert x l).
Proof.
  induction l as [|y l IH]; simpl; intros Hs.
  - repeat constructor.
  - apply StronglySorted_inv in Hs as [Hs Hy].
    destruct (Z.leb_spec (cmp x y) 0) as [Hle|Hgt].
    + constructor; [by constructor|]. constructor; [done|].
      eapply Forall_impl; [done|]. intros z Hz. by eapply cmp_trans.
    + constructor; [auto|]. rewrite sort_insert_perm. constructor; [|done].
      apply cmp_total. lia.
Qed.

Lemma toSorted_sorted l : StronglySorted cmp_le (toSorted l).
Proof. induction l as [|x l IH]; simpl; [constructor|by apply sort_insert_sorted]. Qed.

Lemma toSorted_id l : StronglySorted cmp_le l -> toSorted l = l.
Proof.
  induction 1 as [|x l Hs IH Hx]; simpl; [done|]. rewrite IH.
  destruct Hx as [|y l Hy _]; simpl; [done|].
  destruct (Z.leb_spec (cmp x y) 0) as [|Hc]; [done|]. unfold cmp_le in Hy. lia.
Qed.
End to_sorted.

(** Two sorted permutations agree when the comparator separates their items. *)
Lemma sorted_perm_eq {A} (cmp : A -> A -> Z) (l1 l2 : list A) :
  (forall x y, x ∈ l1 -> y ∈ l1 -> cmp x y <= 0 -> cmp y x <= 0 -> x = y) ->
  StronglySorted (cmp_le cmp) l1 -> StronglySorted (cmp_le cmp) l2 ->
  l1 ≡ₚ l2 -> l1 = l2.
Proof.
  intros Hanti Hs1. revert l2.
  induction Hs1 as [|x l1 Hs1 IH Hx]; intros l2 Hs2 Hp.
  { by apply Permutation_nil_l in Hp. }
  destruct Hs2 as [|y l2 Hs2 Hy].
  { by apply Permutation_nil_r in Hp. }
  assert (x = y) as <-.
  { assert (x ∈ y :: l2) as Hxin by (rewrite <- Hp; left).
    assert (y ∈ x :: l1) as Hyin by (rewrite Hp; left).
    apply elem_of_cons in Hxin as [->|Hxin]; [done|].
    apply elem_of_cons in Hyin as [->|Hyin]; [done|].
    rewrite Forall_forall in Hx, Hy.
    apply Hanti; [left|by right| |]; [by apply Hx|by apply Hy]. }
  f_equal. apply IH; [|done|by eapply Permutation_cons_inv].
  intros a b Ha Hb. apply Hanti; by right.
Qed.
