(* ===== verification/JsString.v ===== *)
(** * JavaScript strings

    Code units and code points, the UTF-8 encoder and the fatal UTF-8 decoder
    of the runtime, [String.prototype.trim], the default code-unit order, and
    decimal, hexadecimal and base64url text. These are the parts of the
    language and its standard library that the sources use; the round trips
    proved here are what the hash and cursor theorems rest on. *)

From stdpp Require Import base numbers sorting strings list.
From Stdlib Require Import Lia.
From S2P Require Import Prelude.

Local Open Scope Z_scope.

(** An ASCII literal of the source. *)
Definition js (s : string) : jsstr :=
  map (fun c => Z.of_N (Ascii.N_of_ascii c)) (String.list_ascii_of_string s).

(** [s.length] *)
Definition js_length (s : jsstr) : Z := Z.of_nat (length s).

(** ** Code units, surrogates and code points *)

Definition in_range (lo hi c : Z) : bool := (lo <=? c) && (c <=? hi).

Definition is_unit (c : Z) : bool := in_range 0 65535 c.
Definition is_byte (c : Z) : bool := in_range 0 255 c.
Definition is_ascii (s : jsstr) : bool := forallb (in_range 0 127) s.
Definition is_high (c : Z) : bool := in_range 55296 56319 c.
Definition is_low (c : Z) : bool := in_range 56320 57343 c.
Definition is_scalar (c : Z) : bool := in_range 0 55295 c || in_range 57344 1114111 c.

Definition pair_point (h l : Z) : Z := 65536 + (h - 55296) * 1024 + (l - 56320).

(** Code points of a string; an unpaired surrogate stands for itself. *)
Fixpoint code_points (s : jsstr) : list Z :=
  match s with
  | [] => []
  | h :: t =>
      match t with
      | [] => [h]
      | l :: t' =>
          if is_high h && is_low l then pair_point h l :: code_points t'
          else h :: code_points t
      end
  end.

(** [s.isWellFormed()]. The first conjunct holds of every JavaScript string:
    its elements are 16-bit units. *)
Definition is_well_formed (s : jsstr) : bool :=
  forallb is_unit s && forallb is_scalar (code_points s).

Definition point_units (c : Z) : jsstr :=
  if c <? 65536 then [c]
  else [55296 + (c - 65536) / 1024; 56320 + (c - 65536) mod 1024].

(** ** UTF-8 *)

Definition encode_point (c : Z) : list Z :=
  if c <? 128 then [c]
  else if c <? 2048 then [192 + c / 64; 128 + c mod 64]
  else if c <? 65536 then [224 + c / 4096; 128 + c / 64 mod 64; 128 + c mod 64]
  else [240 + c / 262144; 128 + c / 4096 mod 64; 128 + c / 64 mod 64; 128 + c mod 64].

(** [Buffer.from(s)], [new TextEncoder().encode(s)], and the implicit encoding
    of [hash.update(s)]: an unpaired surrogate becomes U+FFFD. *)
Definition utf8_encode (s : jsstr) : list Z :=
  concat (map (fun c => encode_point (if is_scalar c then c else 65533)) (code_points s)).

Definition is_cont (b : Z) : bool := in_range 128 191 b.

(** [new TextDecoder("utf-8", { fatal: true, ignoreBOM: true })], by code
    points: overlong forms, surrogates and values above U+10FFFF are errors. *)
Fixpoint utf8_points (l : list Z) : option (list Z) :=
  match l with
  | [] => Some []
  | b0 :: r0 =>
      if in_range 0 127 b0 then cons b0 <$> utf8_points r0
      else match r0 with
      | [] => None
      | b1 :: r1 =>
          if in_range 194 223 b0 then
            if is_cont b1 then cons ((b0 - 192) * 64 + (b1 - 128)) <$> utf8_points r1
            else None
          else match r1 with
          | [] => None
          | b2 :: r2 =>
              if in_range 224 239 b0 then
                let c := (b0 - 224) * 4096 + (b1 - 128) * 64 + (b2 - 128) in
                if is_cont b1 && is_cont b2 && is_scalar c && (2048 <=? c)
                then cons c <$> utf8_points r2 else None
              else match r2 with
              | [] => None
              | b3 :: r3 =>
                  let c := (b0 - 240) * 262144 + (b1 - 128) * 4096
                           + (b2 - 128) * 64 + (b3 - 128) in
                  if in_range 240 244 b0 && is_cont b1 && is_cont b2 && is_cont b3
                     && in_range 65536 1114111 c
                  then cons c <$> utf8_points r3 else None
              end
          end
      end
  end.

Definition utf8_decode (l : list Z) : option jsstr :=
  (fun cs => concat (map point_units cs)) <$> utf8_points l.

Lemma in_range_spec lo hi c : in_range lo hi c = true <-> lo <= c <= hi.
Proof. unfold in_range. rewrite andb_true_iff, !Z.leb_le. lia. Qed.

Lemma in_range_false lo hi c : in_range lo hi c = false <-> c < lo \/ hi < c.
Proof. unfold in_range. rewrite andb_false_iff, !Z.leb_gt. lia. Qed.

Lemma is_scalar_spec c :
  is_scalar c = true <-> 0 <= c <= 55295 \/ 57344 <= c <= 1114111.
Proof. unfold is_scalar. rewrite orb_true_iff, !in_range_spec. done. Qed.

(** Case split on every range test of the goal, then arithmetic. *)
Ltac split_ranges :=
  repeat match goal with
  | |- context [in_range ?a ?b ?c] =>
      let H := fresh in
      destruct (in_range a b c) eqn:H;
      [apply in_range_spec in H | apply in_range_false in H]; simpl; try lia
  end.

Ltac zdm := Z.to_euclidean_division_equations; lia.

Lemma utf8_points_encode c l :
  is_scalar c = true ->
  utf8_points (encode_point c ++ l) = cons c <$> utf8_points l.
Proof.
  intros Hc. pose proof Hc as Hc'. apply is_scalar_spec in Hc. unfold encode_point.
  destruct (Z.ltb_spec c 128); [cbn -[in_range]; split_ranges; done|].
  destruct (Z.ltb_spec c 2048).
  { cbn -[in_range Z.mul Z.add Z.sub Z.div Z.modulo]. unfold is_cont.
    split_ranges; try zdm. do 2 f_equal. zdm. }
  destruct (Z.ltb_spec c 65536).
  { cbn -[in_range is_scalar is_cont Z.mul Z.add Z.sub Z.div Z.modulo].
    replace ((224 + c / 4096 - 224) * 4096 + (128 + c / 64 mod 64 - 128) * 64
             + (128 + c mod 64 - 128)) with c by zdm.
    unfold is_cont. rewrite Hc'. split_ranges; try zdm.
    destruct (Z.leb_spec 2048 c); [done|lia]. }
  cbn -[in_range is_cont Z.mul Z.add Z.sub Z.div Z.modulo].
  replace ((240 + c / 262144 - 240) * 262144 + (128 + c / 4096 mod 64 - 128) * 4096
           + (128 + c / 64 mod 64 - 128) * 64 + (128 + c mod 64 - 128)) with c by zdm.
  unfold is_cont. split_ranges; try zdm. done.
Qed.

Lemma utf8_points_encode_all cs :
  forallb is_scalar cs = true ->
  utf8_points (concat (map encode_point cs)) = Some cs.
Proof.
  induction cs as [|c cs IH]; simpl; [done|]. intros [Hc Hcs]%andb_true_iff.
  rewrite utf8_points_encode by done. by rewrite IH.
Qed.

Lemma point_units_pair h l :
  is_high h = true -> is_low l = true -> point_units (pair_point h l) = [h; l].
Proof.
  unfold is_high, is_low. rewrite !in_range_spec. intros Hh Hl.
  unfold point_units, pair_point. destruct (Z.ltb_spec (65536 + (h - 55296) * 1024 + (l - 56320)) 65536); [lia|].
  f_equal; [zdm|f_equal; zdm].
Qed.

Lemma utf16_roundtrip s :
  forallb is_unit s = true -> concat (map point_units (code_points s)) = s.
Proof.
  induction s as [s IH] using (induction_ltof1 _ (@length Z)). unfold ltof in IH.
  destruct s as [|h [|l t]]; intros Hu; [done| |].
  - simpl in *. rewrite andb_true_r in Hu. apply in_range_spec in Hu.
    unfold point_units. destruct (Z.ltb_spec h 65536); [done|lia].
  - change (code_points (h :: l :: t)) with
      (if is_high h && is_low l then pair_point h l :: code_points t
       else h :: code_points (l :: t)).
    simpl in Hu. apply andb_true_iff in Hu as [Hh Hu].
    destruct (is_high h && is_low l) eqn:E.
    + apply andb_true_iff in E as [E1 E2]. simpl. rewrite point_units_pair by done.
      simpl. do 2 f_equal. apply IH; [simpl; lia|].
      by apply andb_true_iff in Hu as [_ ?].
    + change (map point_units (h :: code_points (l :: t)))
        with (point_units h :: map point_units (code_points (l :: t))).
      change (concat (point_units h :: map point_units (code_points (l :: t))))
        with (point_units h ++ concat (map point_units (code_points (l :: t)))).
      rewrite (IH (l :: t)); [|simpl; lia|done].
      apply in_range_spec in Hh. unfold point_units.
      destruct (Z.ltb_spec h 65536); [done|lia].
Qed.

Lemma map_scalar_id cs :
  forallb is_scalar cs = true ->
  map (fun c => encode_point (if is_scalar c then c else 65533)) cs = map encode_point cs.
Proof.
  induction cs as [|c cs IH]; simpl; [done|]. intros [-> Hcs]%andb_true_iff.
  by rewrite IH.
Qed.

(** Decoding what the encoder wrote gives a well-formed string back. *)
Lemma utf8_decode_encode s : is_well_formed s = true -> utf8_decode (utf8_encode s) = Some s.
Proof.
  intros [Hu Hs]%andb_true_iff. unfold utf8_decode, utf8_encode.
  rewrite map_scalar_id, utf8_points_encode_all by done. simpl.
  by rewrite utf16_roundtrip.
Qed.

Lemma utf8_encode_inj s t :
  is_well_formed s = true -> is_well_formed t = true ->
  utf8_encode s = utf8_encode t -> s = t.
Proof.
  intros Hs Ht E. apply (f_equal utf8_decode) in E.
  rewrite !utf8_decode_encode in E by done. by injection E.
Qed.

(** What the encoder writes are bytes. *)
Lemma utf8_encode_bytes s : forallb is_byte (utf8_encode s) = true.
Proof.
  unfold utf8_encode. induction (code_points s) as [|c cs IH]; [done|]. cbn [map concat].
  rewrite forallb_app, IH, andb_true_r. clear IH.
  assert (is_scalar (if is_scalar c then c else 65533) = true) as Hc by (by destruct (is_scalar c) eqn:E).
  revert Hc. generalize (if is_scalar c then c else 65533). intros d Hd%is_scalar_spec.
  unfold encode_point, is_byte. repeat case_match; cbn [forallb]; rewrite ?andb_true_iff; boolify;
    split_and!; try done; apply in_range_spec; zdm.
Qed.

(** The strict decoder accepts nothing else: what it reads is well-formed and
    encodes back to the same bytes. *)
Lemma utf8_points_head b l cs : utf8_points (b :: l) = Some cs ->
  exists c cs' r, cs = c :: cs' /\ is_scalar c = true /\ b :: l = encode_point c ++ r /\
    utf8_points r = Some cs' /\ (length r <= length l)%nat.
Proof.
  cbn [utf8_points]. destruct (in_range 0 127 b) eqn:E0.
  { apply in_range_spec in E0. intros (cs' & E & ->)%fmap_Some. exists b, cs', l.
    split_and!; [reflexivity|apply is_scalar_spec; lia| |done|done].
    unfold encode_point. by rewrite (proj2 (Z.ltb_lt b 128)) by lia. }
  destruct l as [|b1 r1]; [done|]. destruct (in_range 194 223 b) eqn:E1.
  { apply in_range_spec in E1. destruct (is_cont b1) eqn:C1; [|done]. apply in_range_spec in C1.
    intros (cs' & E & ->)%fmap_Some. eexists _, cs', r1.
    split_and!; [reflexivity|apply is_scalar_spec; lia| |done|cbn; lia].
    unfold encode_point. rewrite (proj2 (Z.ltb_ge _ 128)), (proj2 (Z.ltb_lt _ 2048)) by lia.
    cbn [app]. f_equal; [zdm|f_equal; zdm]. }
  destruct r1 as [|b2 r2]; [done|]. destruct (in_range 224 239 b) eqn:E2.
  { apply in_range_spec in E2. destruct (_ && _ && _ && _) eqn:C; [|done]. boolify.
    unfold is_cont in *. repeat match goal with H : in_range _ _ _ = true |- _ => apply in_range_spec in H end.
    intros (cs' & E & ->)%fmap_Some. eexists _, cs', r2.
    split_and!; [reflexivity|done| |done|cbn; lia].
    unfold encode_point. rewrite (proj2 (Z.ltb_ge _ 128)), (proj2 (Z.ltb_ge _ 2048)),
      (proj2 (Z.ltb_lt _ 65536)) by lia.
    cbn [app]. f_equal; [zdm|f_equal; [zdm|f_equal; zdm]]. }
  destruct r2 as [|b3 r3]; [done|]. destruct (_ && _ && _ && _ && _) eqn:C; [|done]. boolify.
  unfold is_cont in *. repeat match goal with H : in_range _ _ _ = true |- _ => apply in_range_spec in H end.
  intros (cs' & E & ->)%fmap_Some. eexists _, cs', r3.
  split_and!; [reflexivity|apply is_scalar_spec; lia| |done|cbn; lia].
  unfold encode_point. rewrite (proj2 (Z.ltb_ge _ 128)), (proj2 (Z.ltb_ge _ 2048)),
    (proj2 (Z.ltb_ge _ 65536)) by lia.
  cbn [app]. f_equal; [zdm|f_equal; [zdm|f_equal; [zdm|f_equal; zdm]]].
Qed.

Lemma utf8_points_some l : forall cs, utf8_points l = Some cs ->
  concat (map encode_point cs) = l /\ forallb is_scalar cs = true.
Proof.
  induction l as [l IH] using (induction_ltof1 _ (@length Z)). unfold ltof in IH.
  intros cs E. destruct l as [|b l]; [by injection E as <-|].
  apply utf8_points_head in E as (c & cs' & r & -> & Hc & -> & E & Hl).
  destruct (IH r) with (cs := cs') as [E' Hs]; [cbn; lia|done|].
  cbn [map concat forallb]. by rewrite E', Hc, Hs.
Qed.

Lemma code_points_units cs : forallb is_scalar cs = true ->
  code_points (concat (map point_units cs)) = cs /\
  forallb is_unit (concat (map point_units cs)) = true.
Proof.
  induction cs as [|c cs IH]; [done|]. cbn [forallb map concat].
  intros [Hc Hs]%andb_true_iff. destruct (IH Hs) as [IH1 IH2]. pose proof Hc as Hc'.
  apply is_scalar_spec in Hc. unfold point_units at 1 3. destruct (Z.ltb_spec c 65536).
  - cbn [app forallb]. rewrite IH2, andb_true_r. split; [|apply in_range_spec; lia].
    replace (code_points (c :: concat (map point_units cs)))
      with (c :: code_points (concat (map point_units cs))); [by rewrite IH1|].
    destruct (concat (map point_units cs)) as [|l t]; [done|].
    change (code_points (c :: l :: t)) with
      (if is_high c && is_low l then pair_point c l :: code_points t else c :: code_points (l :: t)).
    replace (is_high c) with false by (symmetry; apply in_range_false; lia). done.
  - cbn [app forallb code_points].
    replace (is_high (55296 + (c - 65536) / 1024)) with true
      by (symmetry; apply in_range_spec; zdm).
    replace (is_low (56320 + (c - 65536) mod 1024)) with true
      by (symmetry; apply in_range_spec; zdm).
    cbn [andb]. rewrite IH1, IH2. split; [f_equal; unfold pair_point; zdm|].
    rewrite !andb_true_iff. split_and!; try done; apply in_range_spec; zdm.
Qed.

Lemma utf8_encode_decode l s : utf8_decode l = Some s ->
  is_well_formed s = true /\ utf8_encode s = l.
Proof.
  unfold utf8_decode. intros (cs & E & ->)%fmap_Some.
  apply utf8_points_some in E as [E Hs]. destruct (code_points_units cs Hs) as [E1 E2].
  unfold is_well_formed, utf8_encode. by rewrite E1, E2, Hs, map_scalar_id.
Qed.

Lemma is_ascii_well_formed s : is_ascii s = true -> is_well_formed s = true.
Proof.
  unfold is_ascii, is_well_formed. intros H.
  assert (forallb is_unit s = true /\ forallb is_scalar s = true) as [-> Hs].
  { rewrite !forallb_forall in *. split; intros c Hc; specialize (H c Hc);
      apply in_range_spec in H; [apply in_range_spec|apply is_scalar_spec]; lia. }
  simpl. induction s as [|h [|l t] IH]; [done|done|].
  simpl in H, Hs. apply andb_true_iff in H as [Hh H], Hs as [Hsh Hs].
  apply in_range_spec in Hh.
  change (code_points (h :: l :: t)) with
    (if is_high h && is_low l then pair_point h l :: code_points t
     else h :: code_points (l :: t)).
  replace (is_high h) with false
    by (symmetry; apply in_range_false; lia).
  simpl andb. cbn [forallb]. rewrite Hsh. by apply IH.
Qed.

(** ** The default order: lexicographic on code units

    This is the order of [Array.prototype.sort] without a comparator and of
    [<=] on strings. The sources also sort with [localeCompare], only on
    lowercase UUIDs, on decimal strings of one length, on timestamps of one
    format and on the grant keys [member:..] and [seat_role:..]; on those the
    root collation is this order. *)
Fixpoint cmp_units (s t : jsstr) : Z :=
  match s, t with
  | [], [] => 0
  | [], _ :: _ => -1
  | _ :: _, [] => 1
  | x :: s', y :: t' => if x <? y then -1 else if y <? x then 1 else cmp_units s' t'
  end.

Definition localeCompare : jsstr -> jsstr -> Z := cmp_units.

Lemma cmp_units_refl s : cmp_units s s = 0.
Proof. induction s as [|x s IH]; simpl; [done|]. by rewrite Z.ltb_irrefl. Qed.

Lemma cmp_units_eq s t : cmp_units s t = 0 -> s = t.
Proof.
  revert t; induction s as [|x s IH]; intros [|y t]; simpl; try done.
  destruct (Z.ltb_spec x y), (Z.ltb_spec y x); try lia.
  intros Hc. f_equal; [lia|by apply IH].
Qed.

Lemma cmp_units_swap s t : cmp_units t s = - cmp_units s t.
Proof.
  revert t; induction s as [|x s IH]; intros [|y t]; simpl; try done.
  destruct (Z.ltb_spec x y), (Z.ltb_spec y x); try lia. apply IH.
Qed.

Lemma cmp_units_total s t : 0 < cmp_units s t -> cmp_units t s <= 0.
Proof. rewrite (cmp_units_swap s t). lia. Qed.

Lemma cmp_units_antisym s t : cmp_units s t <= 0 -> cmp_units t s <= 0 -> s = t.
Proof. rewrite (cmp_units_swap s t). intros. apply cmp_units_eq. lia. Qed.

Lemma cmp_units_trans s t u :
  cmp_units s t <= 0 -> cmp_units t u <= 0 -> cmp_units s u <= 0.
Proof.
  revert t u; induction s as [|x s IH]; intros [|y t] [|z u]; simpl; try lia.
  destruct (Z.ltb_spec x y), (Z.ltb_spec y x), (Z.ltb_spec y z), (Z.ltb_spec z y),
    (Z.ltb_spec x z), (Z.ltb_spec z x); try lia. apply IH.
Qed.

#[export] Hint Resolve cmp_units_total cmp_units_trans cmp_units_antisym : jsdb.

(** Sorting strings by code units: [toSorted()]. *)
Lemma sort_units_sorted l : StronglySorted (cmp_le cmp_units) (toSorted cmp_units l).
Proof. apply toSorted_sorted; eauto with jsdb. Qed.

Lemma sort_units_perm l1 l2 :
  l1 ≡ₚ l2 -> toSorted cmp_units l1 = toSorted cmp_units l2.
Proof.
  intros Hp. apply (sorted_perm_eq cmp_units); auto using sort_units_sorted.
  - intros x y _ _. apply cmp_units_antisym.
  - by rewrite !toSorted_perm.
Qed.

(** ** Fixed-length patterns: one test per code unit *)
Fixpoint match_units (ps : list (Z -> bool)) (s : jsstr) : bool :=
  match ps, s with
  | [], [] => true
  | p :: ps', c :: s' => p c && match_units ps' s'
  | _, _ => false
  end.

Lemma match_units_length ps s : match_units ps s = true -> length s = length ps.
Proof.
  revert s; induction ps as [|p ps IH]; intros [|c s]; simpl; try done.
  intros [_ H]%andb_true_iff. by rewrite (IH s).
Qed.

Definition is_digit (c : Z) : bool := in_range 48 57 c.
Definition is_lower (c : Z) : bool := in_range 97 122 c.
Definition is_upper (c : Z) : bool := in_range 65 90 c.
(** [[0-9a-f]] *)
Definition is_hex (c : Z) : bool := is_digit c || in_range 97 102 c.

(** Length between two bounds and every unit in a class: [/^[..]{lo,hi}$/u]. *)
Definition class_len (p : Z -> bool) (lo hi : Z) (s : jsstr) : bool :=
  in_range lo hi (js_length s) && forallb p s.

(** ** Decimal text *)

Fixpoint dec_fuel (fuel : nat) (n : Z) : jsstr :=
  match fuel with
  | O => []
  | S f => if n <? 10 then [48 + n] else dec_fuel f (n / 10) ++ [48 + n mod 10]
  end.

(** [n.toString(10)] of a nonnegative bigint (and of a nonnegative safe
    integer); the fuel is the bit length, which bounds the digit count. *)
Definition dec (n : Z) : jsstr := dec_fuel (S (Z.to_nat (Z.log2 n))) n.

(** [BigInt(s)] (or [Number(s)]) of a string of digits. *)
Definition undec (s : jsstr) : Z := foldl (fun a c => 10 * a + (c - 48)) 0 s.

(** Canonical decimals: a nonzero digit and further digits, or also [0]
    (the regexes of positive and of nonnegative integer strings). *)
Definition is_pos_dec (s : jsstr) : bool :=
  match s with c :: s' => in_range 49 57 c && forallb is_digit s' | [] => false end.
Definition is_nat_dec (s : jsstr) : bool := bool_decide (s = [48]) || is_pos_dec s.

(** [s.padStart(n, c)] *)
Definition padStart (n : nat) (c : Z) (s : jsstr) : jsstr :=
  replicate (n - length s) c ++ s.

Lemma undec_app s t : undec (s ++ t) = foldl (fun a c => 10 * a + (c - 48)) (undec s) t.
Proof. apply foldl_app. Qed.

Lemma dec_fuel_spec f n :
  0 <= n < 2 ^ Z.of_nat (S f) ->
  undec (dec_fuel (S f) n) = n /\ is_nat_dec (dec_fuel (S f) n) = true /\
  (0 < n -> is_pos_dec (dec_fuel (S f) n) = true).
Proof.
  revert n; induction f as [|f IH]; intros n Hn; try remember (S f) as f' eqn:Ef;
    rewrite Nat2Z.inj_succ, Z.pow_succ_r in Hn by lia; cbn [dec_fuel].
  1: assert (n < 10) as Hlt by (change (2 ^ Z.of_nat 0) with 1 in Hn; lia).
  all: destruct (Z.ltb_spec n 10) as [Hlt'|Hge]; [|try lia].
  1, 2: split_and!; [unfold undec; cbn [foldl]; lia|
          |intros; simpl; rewrite andb_true_r; apply in_range_spec; lia];
        unfold is_nat_dec; case_bool_decide as E; [done|]; simpl; rewrite andb_true_r;
        apply in_range_spec; destruct (decide (n = 0)) as [->|]; [done|lia].
  subst f'. destruct (IH (n / 10)) as (IH1 & _ & IH3); [zdm|].
  specialize (IH3 ltac:(zdm)).
  assert (is_pos_dec (dec_fuel (S f) (n / 10) ++ [48 + n mod 10]) = true) as Hp.
  { destruct (dec_fuel (S f) (n / 10)) as [|c s]; [done|]. simpl in *.
    apply andb_true_iff in IH3 as [-> IH3]. rewrite forallb_app, IH3. simpl.
    rewrite andb_true_r. apply in_range_spec. zdm. }
  split_and!; [|unfold is_nat_dec; by rewrite Hp, orb_true_r|done].
  rewrite undec_app, IH1. cbn [foldl]. zdm.
Qed.

Lemma dec_spec n :
  0 <= n -> undec (dec n) = n /\ is_nat_dec (dec n) = true /\
  (0 < n -> is_pos_dec (dec n) = true).
Proof.
  intros Hn. apply dec_fuel_spec. split; [done|].
  rewrite Nat2Z.inj_succ, Z2Nat.id by apply Z.log2_nonneg.
  destruct (decide (n = 0)) as [->|]; [done|]. apply Z.log2_spec; lia.
Qed.

Lemma dec_inj m n : 0 <= m -> 0 <= n -> dec m = dec n -> m = n.
Proof.
  intros Hm Hn E. apply (f_equal undec) in E.
  by rewrite (proj1 (dec_spec m Hm)), (proj1 (dec_spec n Hn)) in E.
Qed.

Lemma undec_from s a :
  foldl (fun a c => 10 * a + (c - 48)) a s = a * 10 ^ js_length s + undec s.
Proof.
  unfold undec, js_length. revert a; induction s as [|c s IH]; intros a; cbn [foldl length];
    [change (10 ^ Z.of_nat 0) with 1; lia|].
  rewrite IH, (IH (10 * 0 + (c - 48))), Nat2Z.inj_succ, Z.pow_succ_r by lia. lia.
Qed.

Lemma undec_cons c s : undec (c :: s) = (c - 48) * 10 ^ js_length s + undec s.
Proof. unfold undec at 1. cbn [foldl]. rewrite undec_from. lia. Qed.

Lemma js_length_cons c s : js_length (c :: s) = js_length s + 1.
Proof. unfold js_length. simpl. lia. Qed.

Lemma js_length_nonneg s : 0 <= js_length s.
Proof. unfold js_length. lia. Qed.

Lemma undec_bound s : forallb is_digit s = true -> 0 <= undec s < 10 ^ js_length s.
Proof.
  induction s as [|c s IH]; [done|]. simpl.
  intros [Hc%in_range_spec Hs]%andb_true_iff. specialize (IH Hs).
  rewrite undec_cons, js_length_cons, Z.pow_add_r by (pose proof (js_length_nonneg s); lia).
  change (10 ^ 1) with 10. nia.
Qed.

Lemma pos_dec_digits s : is_pos_dec s = true -> forallb is_digit s = true.
Proof.
  destruct s as [|c s]; simpl; [done|]. intros [Hc%in_range_spec ->]%andb_true_iff.
  rewrite andb_true_r. apply in_range_spec; lia.
Qed.

Lemma nat_dec_digits s : is_nat_dec s = true -> forallb is_digit s = true.
Proof.
  unfold is_nat_dec. case_bool_decide as E; [by subst|]. apply pos_dec_digits.
Qed.

Lemma pos_dec_lower_bound s : is_pos_dec s = true -> 10 ^ (js_length s - 1) <= undec s.
Proof.
  destruct s as [|c s]; simpl; [done|]. intros [Hc%in_range_spec Hs]%andb_true_iff.
  rewrite undec_cons, js_length_cons. pose proof (undec_bound s Hs).
  replace (js_length s + 1 - 1) with (js_length s) by lia. nia.
Qed.

(** On strings without leading zeros, numeric order is length first, then code
    units; so sorting feed sequences that way is sorting them numerically. *)
Lemma undec_cmp_same_length s t :
  length s = length t -> forallb is_digit s = true -> forallb is_digit t = true ->
  (cmp_units s t < 0 <-> undec s < undec t).
Proof.
  revert t; induction s as [|x s IH]; intros [|y t] Hl Hs Ht; try done.
  injection Hl as Hl. simpl in Hs, Ht.
  apply andb_true_iff in Hs as [Hx%in_range_spec Hs], Ht as [Hy%in_range_spec Ht].
  rewrite !undec_cons. pose proof (undec_bound s Hs). pose proof (undec_bound t Ht).
  replace (js_length t) with (js_length s) in * by (unfold js_length; lia).
  specialize (IH t Hl Hs Ht). simpl.
  destruct (Z.ltb_spec x y), (Z.ltb_spec y x); try lia; [split; intros; nia..|].
  replace y with x by lia. rewrite IH. lia.
Qed.

Lemma undec_lt_length s t :
  is_pos_dec s = true -> is_pos_dec t = true -> js_length s < js_length t ->
  undec s < undec t.
Proof.
  intros Hs Ht Hl. pose proof (undec_bound s (pos_dec_digits s Hs)).
  pose proof (pos_dec_lower_bound t Ht).
  assert (10 ^ js_length s <= 10 ^ (js_length t - 1)) by (apply Z.pow_le_mono_r; lia).
  lia.
Qed.

Lemma undec_inj_len s t :
  length s = length t -> forallb is_digit s = true -> forallb is_digit t = true ->
  undec s = undec t -> s = t.
Proof.
  intros Hl Hs Ht E. pose proof (undec_cmp_same_length s t Hl Hs Ht) as H1.
  pose proof (undec_cmp_same_length t s (eq_sym Hl) Ht Hs) as H2.
  rewrite (cmp_units_swap s t) in H2. apply cmp_units_eq. lia.
Qed.

Lemma pos_dec_inj s t :
  is_pos_dec s = true -> is_pos_dec t = true -> undec s = undec t -> s = t.
Proof.
  intros Hs Ht E. destruct (Z.lt_trichotomy (js_length s) (js_length t)) as [H|[H|H]].
  - pose proof (undec_lt_length s t Hs Ht H). lia.
  - apply undec_inj_len; auto using pos_dec_digits. unfold js_length in H. lia.
  - pose proof (undec_lt_length t s Ht Hs H). lia.
Qed.

Lemma pos_dec_pos s : is_pos_dec s = true -> 0 < undec s.
Proof.
  intros Hs. pose proof (pos_dec_lower_bound s Hs).
  assert (0 < 10 ^ (js_length s - 1)); [|lia]. apply Z.pow_pos_nonneg; [lia|].
  destruct s as [|c s]; [done|]. rewrite js_length_cons. pose proof (js_length_nonneg s). lia.
Qed.

Lemma nat_dec_inj s t :
  is_nat_dec s = true -> is_nat_dec t = true -> undec s = undec t -> s = t.
Proof.
  unfold is_nat_dec.
  intros [Hs|Hs]%orb_true_iff [Ht|Ht]%orb_true_iff E;
    try apply bool_decide_eq_true in Hs; try apply bool_decide_eq_true in Ht; subst.
  - done.
  - apply pos_dec_pos in Ht. change (undec [48]) with 0 in E. lia.
  - apply pos_dec_pos in Hs. change (undec [48]) with 0 in E. lia.
  - by apply pos_dec_inj.
Qed.

(** [BigInt(s).toString(10) === s] on canonical decimals. *)
Lemma dec_undec s : is_nat_dec s = true -> dec (undec s) = s.
Proof.
  intros Hs. pose proof (undec_bound s (nat_dec_digits s Hs)).
  destruct (dec_spec (undec s)) as (Hu & Hd & _); [lia|]. by apply nat_dec_inj.
Qed.

(** ** [String.prototype.trim] *)

(** WhiteSpace and LineTerminator of ECMA-262. *)
Definition is_space (c : Z) : bool :=
  in_range 9 13 c || (c =? 32) || (c =? 160) || (c =? 5760) || in_range 8192 8202 c
  || (c =? 8232) || (c =? 8233) || (c =? 8239) || (c =? 8287) || (c =? 12288) || (c =? 65279).

Fixpoint trimStart (s : jsstr) : jsstr :=
  match s with
  | c :: s' => if is_space c then trimStart s' else s
  | [] => []
  end.

Definition trim (s : jsstr) : jsstr := rev (trimStart (rev (trimStart s))).

(** Nothing is left exactly when everything is white space. *)
Lemma trim_nil s : trim s = [] <-> forallb is_space s = true.
Proof.
  assert (forall u, trimStart u = [] <-> forallb is_space u = true) as Hs.
  { intros u. induction u as [|c u IH]; cbn; [done|]. by destruct (is_space c). }
  assert (forall u : jsstr, rev u = [] <-> u = []) as Hr.
  { intros [|c u]; cbn; [done|]. split; [|done]. intros H. by apply app_eq_nil in H as [_ ?]. }
  unfold trim. rewrite Hr, Hs.
  assert (forall u, forallb is_space (rev u) = forallb is_space u) as Hp.
  { intros u. apply forallb_perm. symmetry. apply Permutation_rev. }
  rewrite Hp. induction s as [|c s IH]; [done|]. cbn [trimStart forallb].
  destruct (is_space c) eqn:E; [done|]. cbn [forallb]. by rewrite E.
Qed.

(** ** [String.prototype.includes] *)

Fixpoint starts_with (needle s : jsstr) : bool :=
  match needle, s with
  | [], _ => true
  | c :: needle', d :: s' => (c =? d) && starts_with needle' s'
  | _ :: _, [] => false
  end.

Fixpoint str_includes (s needle : jsstr) : bool :=
  starts_with needle s || match s with [] => false | _ :: s' => str_includes s' needle end.

Lemma starts_with_spec needle s : starts_with needle s = true <-> exists t, s = needle ++ t.
Proof.
  revert s; induction needle as [|c needle IH]; intros s; cbn; [split; [by exists s|done]|].
  destruct s as [|d s]; [split; [done|by intros (t & ?)]|].
  rewrite andb_true_iff, Z.eqb_eq, IH. split.
  - intros [-> (t & ->)]. by exists t.
  - intros (t & [= -> ->]). split; [done|]. by exists t.
Qed.

Lemma str_includes_spec s needle :
  str_includes s needle = true <-> exists a b, s = a ++ needle ++ b.
Proof.
  induction s as [|c s IH]; cbn [str_includes]; rewrite orb_true_iff, starts_with_spec.
  - split.
    + intros [(t & E)|]; [|done]. by exists [], t.
    + intros (a & b & E). left. exists b. by destruct a.
  - rewrite IH. split.
    + intros [(t & E)|(a & b & ->)]; [by exists [], t|by exists (c :: a), b].
    + intros ([|x a] & b & E); [left; by exists b|right]. injection E as -> ->. by exists a, b.
Qed.
