(* ===== verification/Encoding.v ===== *)
(** * Byte encodings and digests of the runtime

    Hexadecimal and base64url text of [Buffer], SHA-256 (FIPS 180-4) and
    HMAC-SHA256 (RFC 2104) as [node:crypto] computes them, and the hash
    helpers of lib/contracts/src/canonical.ts: [sha256Bytes], [sha256Hex] and
    [safeHashEqual]. The digest is executable, so consent hashes, audit chains
    and cursors can be evaluated on concrete inputs. *)

From stdpp Require Import base numbers sorting strings list.
From Stdlib Require Import Lia.
From S2P Require Import Prelude JsString.

Local Open Scope Z_scope.

(** ** Hexadecimal *)

Definition hex_char (d : Z) : Z := if d <? 10 then 48 + d else 87 + d.

(** [Buffer.from(l).toString("hex")] *)
Definition hex_of_bytes (l : list Z) : jsstr :=
  concat (map (fun b => [hex_char (b / 16); hex_char (b mod 16)]) l).

Definition hex_val (c : Z) : Z := if c <? 58 then c - 48 else c - 87.

(** [Buffer.from(s, "hex")] of an even number of lowercase digits. *)
Fixpoint bytes_of_hex (s : jsstr) : list Z :=
  match s with
  | h :: l :: s' => hex_val h * 16 + hex_val l :: bytes_of_hex s'
  | _ => []
  end.

(** [/^[0-9a-f]{64}$/u] *)
Definition is_hex64 (s : jsstr) : bool := class_len is_hex 64 64 s.

Lemma hex_char_spec d : 0 <= d < 16 -> is_hex (hex_char d) = true /\ hex_val (hex_char d) = d.
Proof.
  intros Hd. unfold hex_char, hex_val, is_hex, is_digit.
  destruct (Z.ltb_spec d 10).
  - destruct (Z.ltb_spec (48 + d) 58); [|lia].
    split; [|lia]. apply orb_true_iff. left. apply in_range_spec. lia.
  - destruct (Z.ltb_spec (87 + d) 58); [lia|].
    split; [|lia]. apply orb_true_iff. right. apply in_range_spec. lia.
Qed.

Lemma bytes_of_hex_of_bytes l :
  forallb is_byte l = true -> bytes_of_hex (hex_of_bytes l) = l.
Proof.
  unfold hex_of_bytes. induction l as [|b l IH]; simpl; [done|].
  intros [Hb%in_range_spec Hl]%andb_true_iff. rewrite IH by done.
  rewrite (proj2 (hex_char_spec (b / 16) ltac:(zdm))).
  rewrite (proj2 (hex_char_spec (b mod 16) ltac:(zdm))). f_equal. zdm.
Qed.

Lemma hex_of_bytes_inj l k :
  forallb is_byte l = true -> forallb is_byte k = true ->
  hex_of_bytes l = hex_of_bytes k -> l = k.
Proof.
  intros Hl Hk E. apply (f_equal bytes_of_hex) in E.
  by rewrite !bytes_of_hex_of_bytes in E.
Qed.

Lemma hex_of_bytes_class l :
  forallb is_byte l = true ->
  length (hex_of_bytes l) = (2 * length l)%nat /\ forallb is_hex (hex_of_bytes l) = true.
Proof.
  unfold hex_of_bytes. induction l as [|b l IH]; simpl; [done|].
  intros [Hb%in_range_spec Hl]%andb_true_iff. destruct (IH Hl) as [-> ->].
  rewrite (proj1 (hex_char_spec (b / 16) ltac:(zdm))).
  rewrite (proj1 (hex_char_spec (b mod 16) ltac:(zdm))). split; [lia|done].
Qed.

(** ** Base64url *)

Definition b64_char (d : Z) : Z :=
  if d <? 26 then 65 + d else if d <? 52 then 71 + d else if d <? 62 then d - 4
  else if d =? 62 then 45 else 95.

(** [Buffer.toString("base64url")]: no padding. *)
Fixpoint b64url_encode (l : list Z) : jsstr :=
  match l with
  | a :: b :: c :: r =>
      b64_char (a / 4) :: b64_char (a mod 4 * 16 + b / 16)
      :: b64_char (b mod 16 * 4 + c / 64) :: b64_char (c mod 64) :: b64url_encode r
  | [a; b] =>
      [b64_char (a / 4); b64_char (a mod 4 * 16 + b / 16); b64_char (b mod 16 * 4)]
  | [a] => [b64_char (a / 4); b64_char (a mod 4 * 16)]
  | [] => []
  end.

(** The value of a base64 character, in either alphabet. *)
Definition b64_val (c : Z) : option Z :=
  if is_upper c then Some (c - 65) else if is_lower c then Some (c - 71)
  else if is_digit c then Some (c + 4)
  else if (c =? 45) || (c =? 43) then Some 62
  else if (c =? 95) || (c =? 47) then Some 63 else None.

Fixpoint sextets_bytes (l : list Z) : list Z :=
  match l with
  | p :: q :: r :: s :: t =>
      p * 4 + q / 16 :: q mod 16 * 16 + r / 4 :: r mod 4 * 64 + s :: sextets_bytes t
  | [p; q; r] => [p * 4 + q / 16; q mod 16 * 16 + r / 4]
  | [p; q] => [p * 4 + q / 16]
  | _ => []
  end.

(** [Buffer.from(s, "base64url")]: lenient, it skips what is not base64. Most
    uses in the sources re-encode the result and compare, so only the behaviour
    on canonical text matters; verifyCheckpoint instead hands whatever bytes
    come out to the signature check. *)
Definition b64url_decode (s : jsstr) : list Z := sextets_bytes (omap b64_val s).

Lemma b64_val_char d : 0 <= d < 64 -> b64_val (b64_char d) = Some d.
Proof.
  intros Hd. unfold b64_char.
  destruct (Z.ltb_spec d 26); [|destruct (Z.ltb_spec d 52);
    [|destruct (Z.ltb_spec d 62); [|destruct (Z.eqb_spec d 62)]]];
    unfold b64_val, is_upper, is_lower, is_digit; try (subst; done);
    split_ranges; try (f_equal; lia).
Qed.

Lemma list_ind3 {A} (P : list A -> Prop) :
  P [] -> (forall a, P [a]) -> (forall a b, P [a; b]) ->
  (forall a b c l, P l -> P (a :: b :: c :: l)) -> forall l, P l.
Proof.
  intros H0 H1 H2 H3 l. induction l as [l IH] using (induction_ltof1 _ (@length A)).
  unfold ltof in IH. destruct l as [|a [|b [|c l]]]; auto.
  apply H3, IH. simpl. lia.
Qed.

Lemma b64url_decode_encode l :
  forallb is_byte l = true -> b64url_decode (b64url_encode l) = l.
Proof.
  unfold b64url_decode.
  induction l as [|a|a b|a b c l IH] using list_ind3;
    cbn [forallb]; rewrite ?andb_true_iff; unfold is_byte; rewrite ?in_range_spec; intros Hl.
  - done.
  - cbn [b64url_encode omap list_omap]. rewrite !b64_val_char by zdm. simpl.
    f_equal. zdm.
  - cbn [b64url_encode omap list_omap]. rewrite !b64_val_char by zdm. simpl.
    f_equal; [zdm|f_equal; zdm].
  - cbn [b64url_encode omap list_omap]. rewrite !b64_val_char by zdm.
    cbn [sextets_bytes]. rewrite IH by (by destruct_and!).
    f_equal; [zdm|f_equal; [zdm|f_equal; zdm]].
Qed.

Lemma b64url_encode_inj l k :
  forallb is_byte l = true -> forallb is_byte k = true ->
  b64url_encode l = b64url_encode k -> l = k.
Proof.
  intros Hl Hk E. apply (f_equal b64url_decode) in E.
  by rewrite !b64url_decode_encode in E.
Qed.

(** ** SHA-256 *)

Definition w32 (x : Z) : Z := Z.land x 4294967295.
Definition rotr (n x : Z) : Z := Z.lor (Z.shiftr x n) (w32 (Z.shiftl x (32 - n))).

Definition sha256_k : list Z :=
  [1116352408; 1899447441; 3049323471; 3921009573; 961987163; 1508970993; 2453635748;
   2870763221; 3624381080; 310598401; 607225278; 1426881987; 1925078388; 2162078206;
   2614888103; 3248222580; 3835390401; 4022224774; 264347078; 604807628; 770255983;
   1249150122; 1555081692; 1996064986; 2554220882; 2821834349; 2952996808; 3210313671;
   3336571891; 3584528711; 113926993; 338241895; 666307205; 773529912; 1294757372;
   1396182291; 1695183700; 1986661051; 2177026350; 2456956037; 2730485921; 2820302411;
   3259730800; 3345764771; 3516065817; 3600352804; 4094571909; 275423344; 430227734;
   506948616; 659060556; 883997877; 958139571; 1322822218; 1537002063; 1747873779;
   1955562222; 2024104815; 2227730452; 2361852424; 2428436474; 2756734187; 3204031479;
   3329325298].

Record sha_state := ShaState
  { sa : Z; sb : Z; sc : Z; sd : Z; se : Z; sf : Z; sg : Z; sh : Z }.

Definition sha256_init : sha_state :=
  ShaState 1779033703 3144134277 1013904242 2773480762 1359893119 2600822924 528734635
    1541459225.

Definition sha256_round (s : sha_state) (k w : Z) : sha_state :=
  let e := se s in let a := sa s in
  let s1 := Z.lxor (rotr 6 e) (Z.lxor (rotr 11 e) (rotr 25 e)) in
  let ch := Z.lxor (Z.land e (sf s)) (Z.land (4294967295 - e) (sg s)) in
  let t1 := sh s + s1 + ch + k + w in
  let s0 := Z.lxor (rotr 2 a) (Z.lxor (rotr 13 a) (rotr 22 a)) in
  let maj := Z.lxor (Z.land a (sb s)) (Z.lxor (Z.land a (sc s)) (Z.land (sb s) (sc s))) in
  ShaState (w32 (t1 + (s0 + maj))) a (sb s) (sc s) (w32 (sd s + t1)) e (sf s) (sg s).

(** The 16-word window of the message schedule: use the oldest word, append
    the next one. *)
Fixpoint sha256_rounds (ks : list Z) (win : list Z) (s : sha_state) : sha_state :=
  match ks with
  | [] => s
  | k :: ks' =>
      let w n := nth n win 0 in
      let x := w 1%nat in let y := w 14%nat in
      let g0 := Z.lxor (rotr 7 x) (Z.lxor (rotr 18 x) (Z.shiftr x 3)) in
      let g1 := Z.lxor (rotr 17 y) (Z.lxor (rotr 19 y) (Z.shiftr y 10)) in
      sha256_rounds ks' (tl win ++ [w32 (w 0%nat + g0 + w 9%nat + g1)])
        (sha256_round s k (w 0%nat))
  end.

Definition sha256_block (s : sha_state) (win : list Z) : sha_state :=
  let r := sha256_rounds sha256_k win s in
  ShaState (w32 (sa s + sa r)) (w32 (sb s + sb r)) (w32 (sc s + sc r)) (w32 (sd s + sd r))
    (w32 (se s + se r)) (w32 (sf s + sf r)) (w32 (sg s + sg r)) (w32 (sh s + sh r)).

Definition be_bytes (n : nat) (x : Z) : list Z :=
  map (fun i => Z.shiftr x (8 * Z.of_nat (n - 1 - i)) mod 256) (seq 0 n).

Fixpoint be_words (l : list Z) : list Z :=
  match l with
  | a :: b :: c :: d :: r => ((a * 256 + b) * 256 + c) * 256 + d :: be_words r
  | _ => []
  end.

Definition sha256_pad (m : list Z) : list Z :=
  let n := length m in
  m ++ [128] ++ replicate ((119 - n mod 64) mod 64)%nat 0 ++ be_bytes 8 (8 * Z.of_nat n).

Fixpoint sha256_blocks (fuel : nat) (ws : list Z) (s : sha_state) : sha_state :=
  match fuel, ws with
  | S f, _ :: _ => sha256_blocks f (drop 16 ws) (sha256_block s (take 16 ws))
  | _, _ => s
  end.

Definition sha_bytes (s : sha_state) : list Z :=
  concat (map (be_bytes 4) [sa s; sb s; sc s; sd s; se s; sf s; sg s; sh s]).

(** [createHash("sha256").update(m).digest()]; the fuel is the number of
    words, at least the number of blocks. *)
Definition sha256 (m : list Z) : list Z :=
  let ws := be_words (sha256_pad m) in
  sha_bytes (sha256_blocks (length ws) ws sha256_init).

Lemma be_bytes_spec n x : length (be_bytes n x) = n /\ forallb is_byte (be_bytes n x) = true.
Proof.
  unfold be_bytes. rewrite length_map, length_seq. split; [done|].
  apply forallb_forall. intros b (i & <- & _)%in_map_iff. apply in_range_spec.
  pose proof (Z.mod_pos_bound (Z.shiftr x (8 * Z.of_nat (n - 1 - i))) 256). lia.
Qed.

Lemma concat_be_bytes n l :
  length (concat (map (be_bytes n) l)) = (length l * n)%nat /\
  forallb is_byte (concat (map (be_bytes n) l)) = true.
Proof.
  induction l as [|x l [IH1 IH2]]; [done|]. cbn [map concat length].
  destruct (be_bytes_spec n x) as [H1 H2].
  rewrite length_app, H1, IH1, forallb_app, H2, IH2. done.
Qed.

Lemma sha256_spec m : length (sha256 m) = 32%nat /\ forallb is_byte (sha256 m) = true.
Proof. apply (concat_be_bytes 4). Qed.

(** From here on the digest is a black box for the proofs; [vm_compute] still
    evaluates it. *)
#[global] Opaque sha256.

(** lib/contracts/src/canonical.ts, on byte and on string input. *)
Definition sha256Bytes (m : list Z) : list Z := sha256 m.
Definition sha256HexBytes (m : list Z) : jsstr := hex_of_bytes (sha256Bytes m).
Definition sha256Hex (s : jsstr) : jsstr := sha256HexBytes (utf8_encode s).

Example sha256_abc :
  sha256Hex (js "abc") = js "ba7816bf8f01cfea414140de5dae2223b00361a396177a9cb410ff61f20015ad".
Proof. vm_compute. reflexivity. Qed.

Example sha256_two_blocks :
  sha256Hex (js "abcdbcdecdefdefgefghfghighijhijkijkljklmklmnlmnomnopnopq")
  = js "248d6a61d20638b8e5c026930c3e6039a33ce45964ff2167f6ecedd419db06c1".
Proof. vm_compute. reflexivity. Qed.

Lemma sha256HexBytes_hex64 m : is_hex64 (sha256HexBytes m) = true.
Proof.
  destruct (sha256_spec m) as [Hl Hb]. unfold is_hex64, class_len, sha256HexBytes, sha256Bytes.
  destruct (hex_of_bytes_class (sha256 m) Hb) as [Hlen ->]. rewrite andb_true_r.
  apply in_range_spec. unfold js_length. rewrite Hlen, Hl. lia.
Qed.

Lemma sha256Hex_hex64 s : is_hex64 (sha256Hex s) = true.
Proof. apply sha256HexBytes_hex64. Qed.

(** A collision: two different byte strings with the same digest. Theorems
    about hashes end in an equality or in such an explicit pair. *)
Definition collision (m1 m2 : list Z) : Prop := m1 <> m2 /\ sha256 m1 = sha256 m2.

Lemma sha256HexBytes_eq m1 m2 :
  sha256HexBytes m1 = sha256HexBytes m2 -> m1 = m2 \/ collision m1 m2.
Proof.
  intros E. apply hex_of_bytes_inj in E; [|apply sha256_spec..].
  destruct (decide (m1 = m2)); [by left|by right].
Qed.

(** Equal digests of well-formed strings: equal strings, or a collision. *)
Lemma sha256Hex_eq s t :
  is_well_formed s = true -> is_well_formed t = true -> sha256Hex s = sha256Hex t ->
  s = t \/ collision (utf8_encode s) (utf8_encode t).
Proof.
  intros Hs Ht E. unfold sha256Hex in E.
  apply sha256HexBytes_eq in E as [E|Hc]; [left|by right].
  by apply utf8_encode_inj.
Qed.

(** [safeHashEqual]: both sides must be digests; the comparison itself is
    [timingSafeEqual] on the decoded bytes. *)
Definition safeHashEqual (leftHex rightHex : jsstr) : bool :=
  if negb (is_hex64 leftHex) || negb (is_hex64 rightHex) then false
  else bool_decide (bytes_of_hex leftHex = bytes_of_hex rightHex).

Lemma hex_val_inj c d : is_hex c = true -> is_hex d = true -> hex_val c = hex_val d -> c = d.
Proof.
  unfold is_hex, is_digit, hex_val. rewrite !orb_true_iff, !in_range_spec.
  destruct (Z.ltb_spec c 58), (Z.ltb_spec d 58); lia.
Qed.

Lemma hex_val_bound c : is_hex c = true -> 0 <= hex_val c < 16.
Proof.
  unfold is_hex, is_digit, hex_val. rewrite !orb_true_iff, !in_range_spec.
  destruct (Z.ltb_spec c 58); lia.
Qed.

Lemma bytes_of_hex_inj n s t :
  length s = (2 * n)%nat -> length t = (2 * n)%nat ->
  forallb is_hex s = true -> forallb is_hex t = true ->
  bytes_of_hex s = bytes_of_hex t -> s = t.
Proof.
  revert s t; induction n as [|n IH]; intros s t Hs Ht Xs Xt E.
  { by destruct s, t. }
  destruct s as [|a [|b s]]; try (simpl in Hs; lia).
  destruct t as [|c [|d t]]; try (simpl in Ht; lia).
  cbn [forallb] in Xs, Xt. rewrite !andb_true_iff in Xs, Xt. destruct_and!.
  simpl in E. injection E as E1 E2.
  pose proof (hex_val_bound a). pose proof (hex_val_bound b).
  pose proof (hex_val_bound c). pose proof (hex_val_bound d).
  assert (a = c) as <- by (apply hex_val_inj; auto; intuition lia).
  assert (b = d) as <- by (apply hex_val_inj; auto; intuition lia).
  do 2 f_equal. apply IH; auto; simpl in Hs, Ht; lia.
Qed.

Lemma safeHashEqual_true a b :
  safeHashEqual a b = true <-> is_hex64 a = true /\ a = b.
Proof.
  unfold safeHashEqual. split.
  - destruct (is_hex64 a) eqn:Ha, (is_hex64 b) eqn:Hb; simpl; try done.
    intros E%bool_decide_eq_true. split; [done|].
    unfold is_hex64, class_len in Ha, Hb. boolify.
    repeat match goal with H : in_range _ _ _ = true |- _ => apply in_range_spec in H end.
    unfold js_length in *. apply (bytes_of_hex_inj 32); auto; lia.
  - intros [Ha <-]. rewrite Ha. simpl. by apply bool_decide_eq_true.
Qed.

Lemma safeHashEqual_refl a : is_hex64 a = true -> safeHashEqual a a = true.
Proof. intros. by apply safeHashEqual_true. Qed.

#[export] Hint Resolve sha256Hex_hex64 sha256HexBytes_hex64 safeHashEqual_refl : jsdb.

(** ** HMAC-SHA256 *)

Definition hmac_key (key : list Z) : list Z :=
  let k := if Nat.ltb 64 (length key) then sha256 key else key in
  k ++ replicate (64 - length k) 0.

(** [createHmac("sha256", key).update(m).digest()] *)
Definition hmac_sha256 (key m : list Z) : list Z :=
  let k := hmac_key key in
  sha256 (map (Z.lxor 92) k ++ sha256 (map (Z.lxor 54) k ++ m)).

Lemma hmac_sha256_spec key m :
  length (hmac_sha256 key m) = 32%nat /\ forallb is_byte (hmac_sha256 key m) = true.
Proof. apply sha256_spec. Qed.

Example hmac_rfc4231_2 :
  hex_of_bytes (hmac_sha256 (js "Jefe") (js "what do ya want for nothing?"))
  = js "5bdcc146bf60754e6a042426089575c75a003f089d2739839dec58b964ec3843".
Proof. vm_compute. reflexivity. Qed.
