(* ===== verification/JsNumber.v ===== *)
(** * JavaScript numbers

    IEEE binary64 values by their exact mathematical value, with the two
    conversions the sources use: [Number(text)] of a decimal literal (rounding
    to nearest, ties to even) and [Number::toString]. Every number of the
    governance schemas is a safe integer, and on those both conversions are
    the plain decimal ones (proved below). *)

From stdpp Require Import base numbers sorting strings list.
From Stdlib Require Import Lia.
From S2P Require Import Prelude JsString.

Local Open Scope Z_scope.

(** An integral value is [NInt z]; any other finite value is [m / 2^k] with
    [m] odd, [NFrac m k]. *)
Inductive jsnum : Type :=
  | NaN
  | Infinite (negative : bool)
  | NegZero
  | NInt (z : Z)
  | NFrac (m : Z) (k : positive).

#[export] Instance jsnum_eq_dec : EqDecision jsnum.
Proof. solve_decision. Defined.

(** [Number.MAX_SAFE_INTEGER] *)
Definition MAX_SAFE_INTEGER : Z := 9007199254740991.

Definition safe_Z (z : Z) : bool := in_range (- MAX_SAFE_INTEGER) MAX_SAFE_INTEGER z.

(** [Number.isFinite], [Number.isSafeInteger] *)
Definition isFinite (n : jsnum) : bool :=
  match n with NaN | Infinite _ => false | _ => true end.
Definition isSafeInteger (n : jsnum) : bool :=
  match n with NInt z => safe_Z z | NegZero => true | _ => false end.

(** Value of a finite number as a ratio. *)
Definition num_ratio (n : jsnum) : Z * Z :=
  match n with
  | NInt z => (z, 1)
  | NFrac m k => (m, 2 ^ Zpos k)
  | _ => (0, 1)
  end.

(** [a <= b] on numbers; [NaN] compares false. *)
Definition num_le (a b : jsnum) : bool :=
  match a, b with
  | NaN, _ | _, NaN => false
  | Infinite true, _ | _, Infinite false => true
  | Infinite false, _ | _, Infinite true => false
  | _, _ =>
      let '(p, q) := num_ratio a in let '(r, s) := num_ratio b in p * s <=? r * q
  end.

(** [a < b] *)
Definition num_lt (a b : jsnum) : bool :=
  match a, b with
  | NaN, _ | _, NaN => false
  | _, _ => negb (num_le b a)
  end.

(** What the usual guard on a count lets through. *)
Lemma safe_at_least n k :
  isSafeInteger n = true -> num_lt n (NInt k) = false -> 1 <= k ->
  exists z, n = NInt z /\ k <= z /\ safe_Z z = true.
Proof.
  destruct n as [|[]| |z|]; try done.
  - cbn. intros _ H Hk. apply negb_false_iff, Z.leb_le in H. lia.
  - cbn. intros Hs H Hk. apply negb_false_iff, Z.leb_le in H. exists z. split_and!; [done|lia|done].
Qed.

(** ** Rounding a ratio to binary64 *)

(** Normal form of [f * 2^-k]. *)
Fixpoint strip_twos (k : nat) (f : Z) : jsnum :=
  match k with
  | O => NInt f
  | S k' => if Z.even f then strip_twos k' (f / 2) else NFrac f (Pos.of_nat k)
  end.

Definition num_signed (neg : bool) (n : jsnum) : jsnum :=
  if neg then
    match n with
    | NInt 0 => NegZero
    | NInt z => NInt (- z)
    | NFrac m k => NFrac (- m) k
    | Infinite _ => Infinite true
    | n => n
    end
  else n.

(** Round [p / q] (nonnegative) to nearest, ties to even. *)
Definition round_ratio (p q : Z) : jsnum :=
  if p =? 0 then NInt 0 else
  let l := Z.log2 p - Z.log2 q in
  let ge := if 0 <=? l then q * 2 ^ l <=? p else q <=? p * 2 ^ (- l) in
  let e := Z.max (-1074) ((if ge then l else l - 1) - 52) in
  let num := if 0 <=? e then p else p * 2 ^ (- e) in
  let den := if 0 <=? e then q * 2 ^ e else q in
  let f := num / den in
  let r := num mod den in
  let f' := if 2 * r <? den then f
            else if den <? 2 * r then f + 1
            else if Z.even f then f else f + 1 in
  if 0 <=? e then (if 2 ^ 1024 <=? f' * 2 ^ e then Infinite false else NInt (f' * 2 ^ e))
  else strip_twos (Z.to_nat (- e)) f'.

(** Value of [m * 10^x] for [m >= 0]; the two tests only keep huge exponents
    from being evaluated, their results are the rounded ones. *)
Definition round_decimal (m x : Z) : jsnum :=
  if m =? 0 then NInt 0
  else if 400 <? x then Infinite false
  else if x + js_length (dec m) <? -400 then NInt 0
  else if 0 <=? x then round_ratio (m * 10 ^ x) 1 else round_ratio m (10 ^ (- x)).

(** ** [Number::toString] *)

(** The least [z <= fuel] with [1 <= p/q * 10^z]. *)
Fixpoint leading_zeros (fuel : nat) (p q : Z) : Z :=
  match fuel with
  | O => 0
  | S f => if q <=? p then 0 else 1 + leading_zeros f (p * 10) q
  end.

(** Position of the decimal point: [10^(n-1) <= p/q < 10^n]. *)
Definition point_position (p q : Z) : Z :=
  if q <=? p then js_length (dec (p / q)) else 1 - leading_zeros 330 p q.

(** Nearest integer of [p / q], ties to even. *)
Definition nearest (p q : Z) : Z :=
  let f := p / q in let r := p mod q in
  if 2 * r <? q then f else if q <? 2 * r then f + 1 else if Z.even f then f else f + 1.

Definition scale10 (m x : Z) : Z * Z :=
  if 0 <=? x then (m * 10 ^ x, 1) else (m, 10 ^ (- x)).

(** Shortest digits [s] and their number [k] that read back as the value. *)
Fixpoint shortest (fuel : nat) (k : Z) (v : jsnum) (p q n : Z) : Z * Z :=
  let '(a, b) := scale10 1 (n - k) in
  let s := nearest (p * b) (q * a) in
  match fuel with
  | O => (s, k)
  | S f => if decide (round_decimal s (n - k) = v) then (s, k) else shortest f (k + 1) v p q n
  end.

Definition zeros (n : Z) : jsstr := replicate (Z.to_nat n) 48.

Definition exponent_text (e : Z) : jsstr :=
  js "e" ++ (if 0 <=? e then js "+" ++ dec e else js "-" ++ dec (- e)).

Definition digits_text (ds : jsstr) (k n : Z) : jsstr :=
  if (k <=? n) && (n <=? 21) then ds ++ zeros (n - k)
  else if (0 <? n) && (n <=? 21) then
    take (Z.to_nat n) ds ++ js "." ++ drop (Z.to_nat n) ds
  else if (-6 <? n) && (n <=? 0) then js "0." ++ zeros (- n) ++ ds
  else if k =? 1 then ds ++ exponent_text (n - 1)
  else take 1 ds ++ js "." ++ drop 1 ds ++ exponent_text (n - 1).

Definition positive_text (v : jsnum) : jsstr :=
  let '(p, q) := num_ratio v in
  let n := point_position p q in
  let '(s, k) := shortest 16 1 v p q n in
  (* rounding up to a power of ten moves the point *)
  let s' := if s =? 10 ^ k then s / 10 else s in
  digits_text (dec s') k (if s =? 10 ^ k then n + 1 else n).

(** Decimal text of an integer, as of a bigint. *)
Definition dec_signed (z : Z) : jsstr := if z <? 0 then 45 :: dec (- z) else dec z.

Definition num_text (n : jsnum) : jsstr :=
  match n with
  | NaN => js "NaN"
  | Infinite neg => if neg then js "-Infinity" else js "Infinity"
  | NegZero => js "0"
  | NInt z =>
      if safe_Z z then dec_signed z
      else if z <? 0 then 45 :: positive_text (NInt (- z)) else positive_text (NInt z)
  | NFrac m k =>
      if m <? 0 then 45 :: positive_text (NFrac (- m) k) else positive_text (NFrac m k)
  end.

Example text_tenth : num_text (round_decimal 1 (-1)) = js "0.1".
Proof. vm_compute. reflexivity. Qed.
Example text_third : num_text (round_ratio 1 3) = js "0.3333333333333333".
Proof. vm_compute. reflexivity. Qed.
Example text_big : num_text (round_decimal 1 21) = js "1e+21".
Proof. vm_compute. reflexivity. Qed.
Example text_2_60 : num_text (NInt (2 ^ 60)) = js "1152921504606847000".
Proof. vm_compute. reflexivity. Qed.
Example text_max : num_text (round_decimal 17976931348623157 292) = js "1.7976931348623157e+308".
Proof. vm_compute. reflexivity. Qed.
Example text_min : num_text (round_decimal 5 (-324)) = js "5e-324".
Proof. vm_compute. reflexivity. Qed.
Example text_micro : num_text (round_decimal 15 (-7)) = js "0.0000015".
Proof. vm_compute. reflexivity. Qed.

(** ** Safe integers round trip through their decimal text *)

Lemma round_ratio_safe z : 0 <= z <= MAX_SAFE_INTEGER -> round_ratio z 1 = NInt z.
Proof.
  unfold MAX_SAFE_INTEGER. intros Hz. unfold round_ratio.
  destruct (Z.eqb_spec z 0) as [->|Hnz]; [done|].
  change (Z.log2 1) with 0. rewrite Z.sub_0_r.
  pose proof (Z.log2_spec z ltac:(lia)) as [Hl1 Hl2].
  assert (0 <= Z.log2 z <= 52) as Hl.
  { split; [apply Z.log2_nonneg|].
    apply Z.lt_succ_r, (Z.pow_lt_mono_r_iff 2); [lia..|].
    change (2 ^ Z.succ 52) with 9007199254740992. lia. }
  rewrite (proj2 (Z.leb_le 0 (Z.log2 z))) by lia.
  rewrite (proj2 (Z.leb_le (1 * 2 ^ Z.log2 z) z)) by lia.
  replace (Z.max (-1074) (Z.log2 z - 52)) with (Z.log2 z - 52) by lia.
  destruct (Z.leb_spec 0 (Z.log2 z - 52)).
  - replace (Z.log2 z - 52) with 0 by lia. change (1 * 2 ^ 0) with 1.
    rewrite Z.div_1_r, Z.mod_1_r. change (2 * 0 <? 1) with true. cbv iota.
    destruct (Z.leb_spec (2 ^ 1024) (z * 2 ^ 0)) as [Hb|_].
    + assert (z * 2 ^ 0 < 2 ^ 1024); [|lia].
      rewrite Z.pow_0_r, Z.mul_1_r. apply Z.le_lt_trans with (2 ^ 53); [lia|].
      apply Z.pow_lt_mono_r; lia.
    + by rewrite Z.pow_0_r, Z.mul_1_r.
  - rewrite Z.div_1_r, Z.mod_1_r. change (2 * 0 <? 1) with true. cbv iota.
    replace (Z.to_nat (- (Z.log2 z - 52))) with (Z.to_nat (52 - Z.log2 z)) by lia.
    replace (- (Z.log2 z - 52)) with (Z.of_nat (Z.to_nat (52 - Z.log2 z))) by lia.
    generalize (Z.to_nat (52 - Z.log2 z)). clear.
    intros k. induction k as [|k IH]; [simpl; by rewrite Z.mul_1_r|].
    rewrite Nat2Z.inj_succ, Z.pow_succ_r by lia. cbn [strip_twos].
    replace (z * (2 * 2 ^ Z.of_nat k)) with (2 * (z * 2 ^ Z.of_nat k)) by lia.
    rewrite Z.even_mul. cbn [Z.even orb].
    rewrite (Z.mul_comm 2), Z.div_mul by lia. apply IH.
Qed.

Lemma round_decimal_safe z : 0 <= z <= MAX_SAFE_INTEGER -> round_decimal z 0 = NInt z.
Proof.
  intros Hz. unfold round_decimal. destruct (Z.eqb_spec z 0) as [->|]; [done|].
  cbn [Z.ltb Z.compare]. rewrite Z.add_0_l.
  destruct (Z.ltb_spec (js_length (dec z)) (-400)); [pose proof (js_length_nonneg (dec z)); lia|].
  cbn [Z.leb Z.compare]. rewrite Z.pow_0_r, Z.mul_1_r. by apply round_ratio_safe.
Qed.

Lemma safe_Z_spec z : safe_Z z = true <-> - MAX_SAFE_INTEGER <= z <= MAX_SAFE_INTEGER.
Proof. apply in_range_spec. Qed.
