(* ===== verification/Json.v ===== *)
(** * Canonical JSON and canonical text

    lib/contracts/src/canonical.ts: validation of a JSON value
    ([assertJsonValue] on a tree), the sorted copy, [JSON.stringify],
    [canonicalJson], [canonicalText] and [canonicalSha256]. The strict parser is
    in JsonParse.v. *)

From stdpp Require Import base numbers sorting strings list.
From Stdlib Require Import Lia.
From S2P Require Import Prelude JsString Encoding JsNumber.

Local Open Scope Z_scope.

(** A JSON value; an object is its own enumerable properties in order. *)
Inductive json : Type :=
  | JNull
  | JBool (b : bool)
  | JNum (n : jsnum)
  | JStr (s : jsstr)
  | JArr (l : list json)
  | JObj (l : list (jsstr * json)).

(** A safe integer as a JSON number. *)
Definition jint (z : Z) : json := JNum (NInt z).

Section json_ind.
Context (P : json -> Prop)
  (Hnull : P JNull) (Hbool : forall b, P (JBool b)) (Hnum : forall n, P (JNum n))
  (Hstr : forall s, P (JStr s))
  (Harr : forall l, Forall P l -> P (JArr l))
  (Hobj : forall l, Forall (fun kv => P kv.2) l -> P (JObj l)).

Fixpoint json_ind' (v : json) : P v :=
  match v with
  | JNull => Hnull
  | JBool b => Hbool b
  | JNum n => Hnum n
  | JStr s => Hstr s
  | JArr l => Harr l ((fix go l : Forall P l :=
      match l with
      | [] => Forall_nil_2 P
      | x :: l' => Forall_cons_2 P x l' (json_ind' x) (go l')
      end) l)
  | JObj l => Hobj l ((fix go l : Forall (fun kv => P kv.2) l :=
      match l with
      | [] => Forall_nil_2 _
      | x :: l' => Forall_cons_2 (fun kv => P kv.2) x l' (json_ind' x.2) (go l')
      end) l)
  end.
End json_ind.

(** What the sources take from Unicode tables and from the [canonicalize]
    package: NFC normalization, and the RFC 8785 encoder used for objects that
    have integer-index names. *)
Class Platform := {
  nfc : jsstr -> jsstr;
  canonicalize : json -> jsstr
}.

(** ** Validation *)

Definition MAX_JSON_CONTAINER_DEPTH : nat := 512.

Definition assertUnicodeScalar `{Platform} (value path : jsstr) : result unit :=
  if is_ascii value then Ok tt else
  throw_if (negb (is_well_formed value))
    (CanonicalizationError "contains an unpaired surrogate" [path]) ≫= fun _ =>
  throw_if (bool_decide (value <> nfc value))
    (CanonicalizationError "must use Unicode NFC" [path]).

Definition index_path (path : jsstr) (i : Z) : jsstr := path ++ js "[" ++ dec i ++ js "]".
Definition name_path (path key : jsstr) : jsstr := path ++ js "." ++ key.

Definition depth_error (path : jsstr) : exn :=
  CanonicalizationError "JSON exceeds 512 nested containers" [path].

(** The walk of [assertJsonValue] on a tree; [depth] is the number of open
    containers. *)
Fixpoint check_json `{Platform} (depth : nat) (path : jsstr) (v : json) : result unit :=
  match v with
  | JNull | JBool _ => Ok tt
  | JStr s => assertUnicodeScalar s path
  | JNum n =>
      throw_if (negb (isFinite n))
        (CanonicalizationError "must be a finite JSON number" [path])
  | JArr l =>
      if Nat.leb MAX_JSON_CONTAINER_DEPTH depth then Throw (depth_error path) else
      (fix entries (i : Z) (l : list json) : result unit :=
         match l with
         | [] => Ok tt
         | x :: l' =>
             check_json (S depth) (index_path path i) x ≫= fun _ => entries (i + 1) l'
         end) 0 l
  | JObj l =>
      if Nat.leb MAX_JSON_CONTAINER_DEPTH depth then Throw (depth_error path) else
      (fix entries (l : list (jsstr * json)) : result unit :=
         match l with
         | [] => Ok tt
         | (key, x) :: l' =>
             assertUnicodeScalar key (path ++ js " object name") ≫= fun _ =>
             check_json (S depth) (name_path path key) x ≫= fun _ => entries l'
         end) l
  end.

(** The same verdict without messages. *)
Definition unicode_ok `{Platform} (s : jsstr) : bool :=
  is_ascii s || (is_well_formed s && bool_decide (s = nfc s)).

Fixpoint json_ok `{Platform} (depth : nat) (v : json) : bool :=
  match v with
  | JNull | JBool _ => true
  | JStr s => unicode_ok s
  | JNum n => isFinite n
  | JArr l => Nat.ltb depth MAX_JSON_CONTAINER_DEPTH && forallb (json_ok (S depth)) l
  | JObj l => Nat.ltb depth MAX_JSON_CONTAINER_DEPTH &&
      forallb (fun '(k, x) => unicode_ok k && json_ok (S depth) x) l
  end.

(** ** Sorted copy and serialization *)

Definition cmp_member (a b : jsstr * json) : Z := cmp_units a.1 b.1.

(** [sortedJsonCopy] on trees without integer-index names. *)
Fixpoint sort_json (v : json) : json :=
  match v with
  | JArr l => JArr (map sort_json l)
  | JObj l => JObj (toSorted cmp_member (map (fun '(k, x) => (k, sort_json x)) l))
  | v => v
  end.

(** The names that JavaScript enumerates as array indices: the ones for which
    the sorted copy gives up ([GENERAL_ENCODING_REQUIRED]). *)
Definition is_index_key (key : jsstr) : bool :=
  is_nat_dec key && (undec key <? 4294967295).

Fixpoint has_index_key (v : json) : bool :=
  match v with
  | JArr l => existsb has_index_key l
  | JObj l => existsb (fun '(k, x) => is_index_key k || has_index_key x) l
  | _ => false
  end.

(** [QuoteJSONString], per unit. Unpaired surrogates, which it would escape,
    do not pass validation. *)
Definition quote_unit (c : Z) : jsstr :=
  if c =? 34 then [92; 34] else if c =? 92 then [92; 92]
  else if c =? 8 then [92; 98] else if c =? 9 then [92; 116]
  else if c =? 10 then [92; 110] else if c =? 12 then [92; 102]
  else if c =? 13 then [92; 114]
  else if c <? 32 then [92; 117; 48; 48; hex_char (c / 16); hex_char (c mod 16)]
  else [c].

Definition quote (s : jsstr) : jsstr := 34 :: concat (map quote_unit s) ++ [34].

Fixpoint join (sep : jsstr) (l : list jsstr) : jsstr :=
  match l with
  | [] => []
  | [x] => x
  | x :: l' => x ++ sep ++ join sep l'
  end.

(** [JSON.stringify] of a tree. *)
Fixpoint stringify (v : json) : jsstr :=
  match v with
  | JNull => js "null"
  | JBool b => if b then js "true" else js "false"
  | JNum n => num_text n
  | JStr s => quote s
  | JArr l => 91 :: join [44] (map stringify l) ++ [93]
  | JObj l => 123 :: join [44] (map (fun '(k, x) => quote k ++ 58 :: stringify x) l) ++ [125]
  end.

Definition canonicalJson `{Platform} (v : json) : result jsstr :=
  check_json 0 (js "$") v ≫= fun _ =>
  Ok (if has_index_key v then canonicalize v else stringify (sort_json v)).

Definition canonicalSha256 `{Platform} (v : json) : result jsstr :=
  sha256Hex <$> canonicalJson v.

(** ** Canonical text *)

Definition starts_with_bom (s : jsstr) : bool :=
  match s with c :: _ => c =? 65279 | [] => false end.

(** [canonicalText] of a string. *)
Definition canonicalText `{Platform} (text : jsstr) : result jsstr :=
  throw_if (starts_with_bom text)
    (CanonicalizationError "text byte-order mark rejected" []) ≫= fun _ =>
  throw_if (existsb (Z.eqb 13) text)
    (CanonicalizationError "canonical text requires LF line endings" []) ≫= fun _ =>
  assertUnicodeScalar text (js "text") ≫= fun _ => Ok text.

Definition decodeUtf8 (bytes : list Z) : result jsstr :=
  match utf8_decode bytes with
  | Some s => Ok s
  | None => Throw (CanonicalizationError "input is not strict UTF-8" [])
  end.

(** [canonicalText] of bytes. *)
Definition canonicalTextBytes `{Platform} (bytes : list Z) : result jsstr :=
  decodeUtf8 bytes ≫= canonicalText.

(** ** Lemmas *)

Section with_platform.
Context `{P : Platform}.

Lemma assertUnicodeScalar_ok s p u : assertUnicodeScalar s p = Ok u <-> unicode_ok s = true.
Proof.
  destruct u. unfold assertUnicodeScalar, unicode_ok.
  destruct (is_ascii s); [done|]. destruct (is_well_formed s); simpl; [|done].
  destruct (decide (s = nfc s)) as [H|H].
  - rewrite (bool_decide_eq_false_2 (s <> nfc s)) by tauto.
    by rewrite bool_decide_eq_true_2.
  - rewrite bool_decide_eq_true_2 by done. by rewrite bool_decide_eq_false_2.
Qed.

Lemma unicode_ok_well_formed s : unicode_ok s = true -> is_well_formed s = true.
Proof.
  unfold unicode_ok. intros [H|[H _]%andb_true_iff]%orb_true_iff; [|done].
  by apply is_ascii_well_formed.
Qed.

Lemma ascii_unicode_ok s : is_ascii s = true -> unicode_ok s = true.
Proof. unfold unicode_ok. by intros ->. Qed.

Lemma ok_tt_bind {A} (m : result unit) (k : result A) b :
  (m ≫= fun _ => k) = Ok b <-> m = Ok tt /\ k = Ok b.
Proof. destruct m as [[]|]; simpl; naive_solver. Qed.

Lemma leb_ltb_512 d : Nat.leb MAX_JSON_CONTAINER_DEPTH d = negb (Nat.ltb d MAX_JSON_CONTAINER_DEPTH).
Proof. apply Nat.leb_antisym. Qed.

Lemma check_json_ok v d p u : check_json d p v = Ok u <-> json_ok d v = true.
Proof.
  destruct u. revert d p.
  induction v as [|b|n|s|l IH|l IH] using json_ind'; intros d p; cbn [check_json json_ok].
  - done.
  - done.
  - by destruct (isFinite n).
  - apply assertUnicodeScalar_ok.
  - rewrite leb_ltb_512. destruct (Nat.ltb d _); cbn [negb andb]; [|done].
    generalize 0. induction IH as [|x l Hx _ IH]; intros i; [done|].
    cbn [forallb]. by rewrite ok_tt_bind, andb_true_iff, Hx, IH.
  - rewrite leb_ltb_512. destruct (Nat.ltb d _); cbn [negb andb]; [|done].
    induction IH as [|[k x] l Hx _ IH]; [done|]. cbn [snd] in Hx.
    cbn [forallb]. rewrite !ok_tt_bind, !andb_true_iff, IH, Hx.
    rewrite assertUnicodeScalar_ok. tauto.
Qed.

Lemma canonicalJson_ok v s :
  canonicalJson v = Ok s <->
  json_ok 0 v = true /\
  s = if has_index_key v then canonicalize v else stringify (sort_json v).
Proof.
  unfold canonicalJson. rewrite ok_tt_bind, check_json_ok. naive_solver.
Qed.

Lemma canonicalText_ok s t :
  canonicalText s = Ok t <->
  t = s /\ starts_with_bom s = false /\ existsb (Z.eqb 13) s = false /\ unicode_ok s = true.
Proof.
  unfold canonicalText. rewrite !ok_tt_bind, !throw_if_ok, assertUnicodeScalar_ok.
  naive_solver.
Qed.
End with_platform.
