(* ===== verification/JsonParse.v ===== *)
(** * The strict JSON parser

    [StrictJsonParser], [assertJsonTextStructure] and [canonicalJsonFromText]
    of lib/contracts/src/canonical.ts. The parser's cursor is the suffix of
    the source still to be read. Main results: the parser terminates on every
    input, it reads back what the canonical encoder writes, and the canonical
    encoding is a fixed point of [canonicalJsonFromText]; so the encoding is
    injective, which is what every hash of a JSON value relies on. *)

From stdpp Require Import base numbers sorting strings list.
From Stdlib Require Import Lia.
From S2P Require Import Prelude JsString Encoding JsNumber Json.

Local Open Scope Z_scope.

(** ** Definitions *)

Definition is_ws (c : Z) : bool := (c =? 32) || (c =? 10) || (c =? 13) || (c =? 9).

Fixpoint skip_ws (s : jsstr) : jsstr :=
  match s with
  | c :: s' => if is_ws c then skip_ws s' else s
  | [] => []
  end.

Definition consume (c : Z) (s : jsstr) : option jsstr :=
  match s with
  | d :: s' => if d =? c then Some s' else None
  | [] => None
  end.

(** Remove a prefix: [source.startsWith(literal, index)]. *)
Fixpoint strip_prefix (p s : jsstr) : option jsstr :=
  match p, s with
  | [], _ => Some s
  | a :: p', b :: s' => if a =? b then strip_prefix p' s' else None
  | _, [] => None
  end.

(** The loop of [parseString] after the opening quote: the raw text up to the
    closing quote, and what follows it. *)
Fixpoint scan_string (path : jsstr) (escaped : bool) (s : jsstr) : result (jsstr * jsstr) :=
  match s with
  | [] => Throw (CanonicalizationError "unterminated JSON string" [path])
  | c :: s' =>
      if negb escaped && (c =? 34) then Ok ([], s')
      else if negb escaped && (c <=? 31) then
        Throw (CanonicalizationError "unescaped control character" [path])
      else '(raw, r) ← scan_string path (negb escaped && (c =? 92)) s'; Ok (c :: raw, r)
  end.

Definition is_hex_any (c : Z) : bool := is_hex c || in_range 65 70 c.
Definition hex_any_val (c : Z) : Z :=
  if c <? 58 then c - 48 else if c <? 71 then c - 55 else c - 87.

(** [JSON.parse] of a string literal: its text between the quotes. *)
Fixpoint unescape (s : jsstr) : option jsstr :=
  match s with
  | [] => Some []
  | c :: t =>
      if c =? 92 then
        match t with
        | [] => None
        | e :: t' =>
            if (e =? 34) || (e =? 92) || (e =? 47) then cons e <$> unescape t'
            else if e =? 98 then cons 8 <$> unescape t'
            else if e =? 102 then cons 12 <$> unescape t'
            else if e =? 110 then cons 10 <$> unescape t'
            else if e =? 114 then cons 13 <$> unescape t'
            else if e =? 116 then cons 9 <$> unescape t'
            else if e =? 117 then
              match t' with
              | h1 :: h2 :: h3 :: h4 :: t'' =>
                  if is_hex_any h1 && is_hex_any h2 && is_hex_any h3 && is_hex_any h4 then
                    cons (((hex_any_val h1 * 16 + hex_any_val h2) * 16 + hex_any_val h3) * 16
                          + hex_any_val h4) <$> unescape t''
                  else None
              | _ => None
              end
            else None
        end
      else if (c <? 32) || (c =? 34) then None
      else cons c <$> unescape t
  end.

(** Digits at the front of the source. *)
Fixpoint span_digits (s : jsstr) : jsstr * jsstr :=
  match s with
  | c :: s' => if is_digit c then let '(d, r) := span_digits s' in (c :: d, r) else ([], s)
  | [] => ([], [])
  end.

(** The optional fraction and exponent of the number pattern. *)
Definition span_fraction (s : jsstr) : jsstr * jsstr :=
  match consume 46 s with
  | Some t => let '(d, r) := span_digits t in
      match d with [] => ([], s) | _ => (d, r) end
  | None => ([], s)
  end.

Definition span_exponent (s : jsstr) : Z * jsstr :=
  match s with
  | e :: t =>
      if (e =? 101) || (e =? 69) then
        let '(sign, u) := match t with
          | c :: t' => if c =? 45 then (-1, t') else if c =? 43 then (1, t') else (1, t)
          | [] => (1, t) end in
        let '(d, r) := span_digits u in
        match d with [] => (0, s) | _ => (sign * undec d, r) end
      else (0, s)
  | [] => (0, s)
  end.

Definition span_integer (s : jsstr) : option (jsstr * jsstr) :=
  match s with
  | c :: t => if c =? 48 then Some ([48], t)
      else if in_range 49 57 c then let '(d, r) := span_digits t in Some (c :: d, r) else None
  | [] => None
  end.

Definition parse_number (path : jsstr) (s : jsstr) : result (json * jsstr) :=
  let '(neg, s1) := match consume 45 s with Some t => (true, t) | None => (false, s) end in
  match span_integer s1 with
  | None => Throw (CanonicalizationError "malformed JSON number" [path])
  | Some (int, s2) =>
      let '(frac, s3) := span_fraction s2 in
      let '(exp, s4) := span_exponent s3 in
      let n := num_signed neg (round_decimal (undec (int ++ frac)) (exp - js_length frac)) in
      throw_if (negb (isFinite n))
        (CanonicalizationError "must be a finite JSON number" [path]) ≫= fun _ =>
      Ok (JNum n, s4)
  end.

Section parser.
Context `{Platform}.

(** [parseString]; the opening quote has been seen. *)
Definition parse_string (path : jsstr) (s : jsstr) : result (jsstr * jsstr) :=
  '(raw, r) ← scan_string path false s;
  match unescape raw with
  | None => Throw (CanonicalizationError "malformed JSON string" [path])
  | Some value => assertUnicodeScalar value path ≫= fun _ => Ok (value, r)
  end.

(** [total] is the length of the source, for the offsets in messages. *)
Definition parse_literal (total : Z) (lit : jsstr) (v : json) (s : jsstr)
    : result (json * jsstr) :=
  match strip_prefix lit s with
  | Some r => Ok (v, r)
  | None => Throw (CanonicalizationError "malformed JSON literal at offset"
                     [dec (total - js_length s)])
  end.

Fixpoint parse_value (fuel : nat) (total : Z) (path s : jsstr) {struct fuel}
    : result (json * jsstr) :=
  match fuel with
  | O => Throw OutOfFuel
  | S f =>
      match s with
      | [] => Throw (CanonicalizationError "invalid JSON value" [path])
      | c :: t =>
          if c =? 34 then '(x, r) ← parse_string path t; Ok (JStr x, r)
          else if c =? 123 then
            match consume 125 (skip_ws t) with
            | Some r => Ok (JObj [], r)
            | None => parse_members f total path [] (skip_ws t)
            end
          else if c =? 91 then
            match consume 93 (skip_ws t) with
            | Some r => Ok (JArr [], r)
            | None => parse_elements f total path [] (skip_ws t)
            end
          else if c =? 116 then parse_literal total (js "true") (JBool true) s
          else if c =? 102 then parse_literal total (js "false") (JBool false) s
          else if c =? 110 then parse_literal total (js "null") JNull s
          else if (c =? 45) || is_digit c then parse_number path s
          else Throw (CanonicalizationError "invalid JSON value" [path])
      end
  end
(** The loop of [parseObject]; [acc] are the members read so far. *)
with parse_members (fuel : nat) (total : Z) (path : jsstr) (acc : list (jsstr * json))
    (s : jsstr) {struct fuel} : result (json * jsstr) :=
  match fuel with
  | O => Throw OutOfFuel
  | S f =>
      match consume 34 s with
      | None => Throw (CanonicalizationError "object name required" [path])
      | Some t =>
          '(name, r1) ← parse_string (path ++ js " object name") t;
          throw_if (bool_decide (name ∈ acc.*1))
            (CanonicalizationError "duplicate object name" [path; name]) ≫= fun _ =>
          match consume 58 (skip_ws r1) with
          | None => Throw (CanonicalizationError "missing colon" [path; name])
          | Some r2 =>
              '(v, r3) ← parse_value f total (name_path path name) (skip_ws r2);
              let acc' := acc ++ [(name, v)] in
              match consume 125 (skip_ws r3) with
              | Some r4 => Ok (JObj acc', r4)
              | None =>
                  match consume 44 (skip_ws r3) with
                  | None => Throw (CanonicalizationError "missing comma" [path])
                  | Some r4 => parse_members f total path acc' (skip_ws r4)
                  end
              end
          end
      end
  end
(** The loop of [parseArray]. *)
with parse_elements (fuel : nat) (total : Z) (path : jsstr) (acc : list json)
    (s : jsstr) {struct fuel} : result (json * jsstr) :=
  match fuel with
  | O => Throw OutOfFuel
  | S f =>
      '(v, r1) ← parse_value f total (index_path path (Z.of_nat (length acc))) s;
      let acc' := acc ++ [v] in
      match consume 93 (skip_ws r1) with
      | Some r2 => Ok (JArr acc', r2)
      | None =>
          match consume 44 (skip_ws r1) with
          | None => Throw (CanonicalizationError "missing comma" [path])
          | Some r2 => parse_elements f total path acc' (skip_ws r2)
          end
      end
  end.

(** Every step of the recursion reads a character or enters a value. *)
Definition parse_fuel (s : jsstr) : nat := 2 * length s + 1.

(** [new StrictJsonParser(source).parse()] *)
Definition strictParse (source : jsstr) : result json :=
  '(v, r) ← parse_value (parse_fuel source) (js_length source) (js "$") (skip_ws source);
  match skip_ws r with
  | [] => Ok v
  | r' => Throw (CanonicalizationError "trailing JSON bytes at offset"
                   [dec (js_length source - js_length r')])
  end.

(** [assertJsonTextStructure] *)
Fixpoint text_structure (index depth : Z) (quoted escaped : bool) (s : jsstr)
    : result unit :=
  match s with
  | [] => Ok tt
  | c :: s' =>
      if quoted then
        text_structure (index + 1) depth (escaped || negb (c =? 34))
          (negb escaped && (c =? 92)) s'
      else if c =? 34 then text_structure (index + 1) depth true escaped s'
      else if (c =? 91) || (c =? 123) then
        throw_if (512 <? depth + 1)
          (CanonicalizationError "JSON exceeds 512 nested containers at offset"
             [dec index]) ≫= fun _ =>
        text_structure (index + 1) (depth + 1) quoted escaped s'
      else if (c =? 93) || (c =? 125) then
        text_structure (index + 1) (depth - 1) quoted escaped s'
      else text_structure (index + 1) depth quoted escaped s'
  end.

Definition assertJsonTextStructure (source : jsstr) : result unit :=
  text_structure 0 0 false false source.

(** [canonicalJsonFromText] of a string, and of bytes. *)
Definition canonicalJsonFromText (source : jsstr) : result jsstr :=
  throw_if (starts_with_bom source)
    (CanonicalizationError "JSON byte-order mark rejected" []) ≫= fun _ =>
  assertJsonTextStructure source ≫= fun _ =>
  strictParse source ≫= canonicalJson.

Definition canonicalJsonFromBytes (bytes : list Z) : result jsstr :=
  decodeUtf8 bytes ≫= canonicalJsonFromText.
End parser.

(** ** Reading back what the encoder writes *)

Lemma quote_unit_scan path c r :
  is_unit c = true ->
  scan_string path false (quote_unit c ++ r)
  = '(raw, r') ← scan_string path false r; Ok (quote_unit c ++ raw, r').
Proof.
  intros Hc%in_range_spec. unfold quote_unit.
  repeat match goal with
  | |- context [if ?a =? ?b then _ else _] =>
      destruct (Z.eqb_spec a b); [cbn; by destruct (scan_string path false r) as [[]|]|]
  end.
  destruct (Z.ltb_spec c 32).
  - pose proof (hex_char_spec (c / 16) ltac:(zdm)) as [H1 _].
    pose proof (hex_char_spec (c mod 16) ltac:(zdm)) as [H2 _].
    unfold is_hex, is_digit in H1, H2. rewrite orb_true_iff, !in_range_spec in H1, H2.
    generalize dependent (hex_char (c / 16)). intros a Ha.
    generalize dependent (hex_char (c mod 16)). intros b Hb.
    cbn [app scan_string negb andb Z.eqb Z.leb Z.compare Pos.compare Pos.compare_cont Pos.eqb].
    rewrite (proj2 (Z.eqb_neq a 34)), (proj2 (Z.leb_gt a 31)), (proj2 (Z.eqb_neq a 92)),
      (proj2 (Z.eqb_neq b 34)), (proj2 (Z.leb_gt b 31)), (proj2 (Z.eqb_neq b 92)) by lia.
    cbn. by destruct (scan_string path false r) as [[]|].
  - cbn [app scan_string negb andb].
    rewrite (proj2 (Z.eqb_neq c 34)), (proj2 (Z.leb_gt c 31)), (proj2 (Z.eqb_neq c 92)) by lia.
    by destruct (scan_string path false r) as [[]|].
Qed.

Lemma hex_any_char d : 0 <= d < 16 ->
  is_hex_any (hex_char d) = true /\ hex_any_val (hex_char d) = d.
Proof.
  intros Hd. pose proof (hex_char_spec d Hd) as [H _]. unfold is_hex_any. rewrite H.
  split; [done|]. unfold hex_any_val, hex_char.
  destruct (Z.ltb_spec d 10).
  - destruct (Z.ltb_spec (48 + d) 58); lia.
  - destruct (Z.ltb_spec (87 + d) 58); [lia|]. destruct (Z.ltb_spec (87 + d) 71); lia.
Qed.

Lemma quote_unit_unescape c r :
  is_unit c = true -> unescape (quote_unit c ++ r) = cons c <$> unescape r.
Proof.
  intros Hc%in_range_spec. unfold quote_unit.
  repeat match goal with
  | |- context [if ?a =? ?b then _ else _] =>
      destruct (Z.eqb_spec a b); [by subst|]
  end.
  destruct (Z.ltb_spec c 32).
  - cbn [app unescape Z.eqb Pos.eqb orb].
    destruct (hex_any_char (c / 16) ltac:(zdm)) as [-> ->].
    destruct (hex_any_char (c mod 16) ltac:(zdm)) as [-> ->].
    change (is_hex_any 48) with true. change (hex_any_val 48) with 0. cbn [andb].
    f_equal. f_equal. zdm.
  - cbn [app unescape].
    rewrite (proj2 (Z.eqb_neq c 92)), (proj2 (Z.ltb_ge c 32)), (proj2 (Z.eqb_neq c 34)) by lia.
    done.
Qed.

Lemma scan_quoted path s r :
  forallb is_unit s = true ->
  scan_string path false (concat (map quote_unit s) ++ 34 :: r)
  = Ok (concat (map quote_unit s), r).
Proof.
  induction s as [|c s IH]; [done|]. cbn [forallb map concat].
  intros [Hc Hs]%andb_true_iff. rewrite <- app_assoc, quote_unit_scan, IH by done. done.
Qed.

Lemma unescape_quoted s :
  forallb is_unit s = true -> unescape (concat (map quote_unit s)) = Some s.
Proof.
  induction s as [|c s IH]; [done|]. cbn [forallb map concat].
  intros [Hc Hs]%andb_true_iff. by rewrite quote_unit_unescape, IH.
Qed.

(** What may follow a number: nothing that would extend its text. *)
Definition num_stop (r : jsstr) : bool :=
  match r with
  | c :: _ => negb (is_digit c || (c =? 46) || (c =? 101) || (c =? 69))
  | [] => true
  end.

Lemma span_digits_stop ds r :
  forallb is_digit ds = true -> num_stop r = true -> span_digits (ds ++ r) = (ds, r).
Proof.
  induction ds as [|c ds IH]; cbn [forallb app].
  - intros _ Hr. destruct r as [|c r]; [done|]. cbn in *. by destruct (is_digit c).
  - intros [Hc Hds]%andb_true_iff Hr. cbn [span_digits]. rewrite Hc, IH by done. done.
Qed.

Lemma span_integer_dec s r :
  is_nat_dec s = true -> num_stop r = true -> span_integer (s ++ r) = Some (s, r).
Proof.
  unfold is_nat_dec. intros [Hs%bool_decide_eq_true|Hs]%orb_true_iff Hr; [by subst|].
  destruct s as [|c s]; [done|]. cbn in Hs. apply andb_true_iff in Hs as [Hc Hs].
  cbn [app span_integer]. rewrite Hc, span_digits_stop by done.
  apply in_range_spec in Hc. by rewrite (proj2 (Z.eqb_neq c 48)) by lia.
Qed.

Lemma span_fraction_stop r : num_stop r = true -> span_fraction r = ([], r).
Proof.
  destruct r as [|c r]; [done|]. cbn. unfold span_fraction. cbn.
  destruct (c =? 46); [|done]. by rewrite orb_true_r.
Qed.

Lemma span_exponent_stop r : num_stop r = true -> span_exponent r = (0, r).
Proof.
  destruct r as [|c r]; [done|]. cbn.
  by destruct (c =? 101), (c =? 69); rewrite ?orb_true_r.
Qed.

Lemma parse_dec_signed path z r :
  safe_Z z = true -> num_stop r = true ->
  parse_number path (dec_signed z ++ r) = Ok (jint z, r).
Proof.
  rewrite safe_Z_spec. intros Hz Hr. unfold parse_number, dec_signed.
  assert (forall n, 0 <= n -> consume 45 (dec n ++ r) = None) as Hc.
  { intros n Hn. destruct (dec_spec n Hn) as (_ & Hd & _). apply nat_dec_digits in Hd as Hg.
    destruct (dec n) as [|c s]; [done|]. cbn in Hg |- *.
    apply andb_true_iff in Hg as [Hg%in_range_spec _].
    by rewrite (proj2 (Z.eqb_neq c 45)) by lia. }
  destruct (Z.ltb_spec z 0).
  - cbn [app consume]. cbn [Z.eqb Pos.eqb].
    rewrite span_integer_dec by (done || apply dec_spec; lia).
    rewrite span_fraction_stop, span_exponent_stop by done.
    change (0 - js_length []) with 0. rewrite app_nil_r, (proj1 (dec_spec (- z) ltac:(lia))).
    rewrite round_decimal_safe by lia. unfold num_signed.
    destruct (- z) as [|p|p] eqn:E; [lia| |lia]. rewrite <- E, Z.opp_involutive. done.
  - rewrite Hc, span_integer_dec by (done || (try apply dec_spec); lia).
    rewrite span_fraction_stop, span_exponent_stop by done.
    change (0 - js_length []) with 0. rewrite app_nil_r, (proj1 (dec_spec z ltac:(lia))).
    by rewrite round_decimal_safe by lia.
Qed.

Section roundtrip.
Context `{Platform}.

(** Values the encoder represents exactly: canonical strings, safe integers,
    objects with distinct names. Every value the governance schemas admit is
    one. *)
Fixpoint json_safe (v : json) : bool :=
  match v with
  | JNull | JBool _ => true
  | JStr s => unicode_ok s
  | JNum n => match n with NInt z => safe_Z z | _ => false end
  | JArr l => forallb json_safe l
  | JObj l => bool_decide (NoDup l.*1)
      && forallb (fun '(k, x) => unicode_ok k && json_safe x) l
  end.

Lemma parse_quoted path s r :
  unicode_ok s = true -> parse_string path (concat (map quote_unit s) ++ 34 :: r) = Ok (s, r).
Proof.
  intros Hs. pose proof (unicode_ok_well_formed s Hs) as Hw.
  unfold is_well_formed in Hw. apply andb_true_iff in Hw as [Hu _].
  unfold parse_string. rewrite scan_quoted by done. cbn.
  rewrite unescape_quoted by done.
  by rewrite (proj2 (assertUnicodeScalar_ok s path tt) Hs).
Qed.

(** A value's text starts with a character that is not white space and not a
    closing bracket. *)
Lemma stringify_head v :
  json_safe v = true ->
  exists c t, stringify v = c :: t /\ is_ws c = false /\ c <> 93 /\ c <> 125.
Proof.
  destruct v as [|b|n|s|l|l]; cbn [stringify json_safe]; intros Hv;
    try (by eexists _, _; split_and!; try reflexivity).
  - destruct b; by eexists _, _.
  - destruct n as [| | |z|]; try done. cbn [num_text]. rewrite Hv. unfold dec_signed.
    destruct (Z.ltb_spec z 0); [by eexists _, _|].
    destruct (dec_spec z ltac:(lia)) as (_ & Hd & _). apply nat_dec_digits in Hd as Hg.
    destruct (dec z) as [|c s]; [done|]. cbn in Hg.
    apply andb_true_iff in Hg as [Hg%in_range_spec _]. eexists _, _.
    split_and!; [reflexivity| |lia|lia]. unfold is_ws.
    rewrite !orb_false_iff, !Z.eqb_neq. lia.
Qed.

Definition reads_back (v : json) : Prop :=
  json_safe v = true ->
  forall fuel total path r, (2 * length (stringify v) + 1 <= fuel)%nat -> num_stop r = true ->
  parse_value fuel total path (stringify v ++ r) = Ok (v, r).

Lemma skip_ws_stringify v r : json_safe v = true -> skip_ws (stringify v ++ r) = stringify v ++ r.
Proof.
  intros Hv. destruct (stringify_head v Hv) as (c & t & -> & Hc & _). cbn. by rewrite Hc.
Qed.

Lemma parse_elements_join total path l :
  Forall reads_back l -> forall fuel acc r,
  l <> [] -> forallb json_safe l = true ->
  (2 * length (join [44%Z] (map stringify l)) + 2 <= fuel)%nat ->
  parse_elements fuel total path acc (join [44%Z] (map stringify l) ++ 93 :: r)
  = Ok (JArr (acc ++ l), r).
Proof.
  induction 1 as [|x l Hx Hl IH]; intros fuel acc r Hne Hs Hf; [done|].
  cbn [forallb] in Hs. apply andb_true_iff in Hs as [Hsx Hsl].
  destruct fuel as [|fuel]; [lia|]. cbn [parse_elements].
  destruct l as [|y l].
  - cbn [map join] in *. rewrite Hx by (done || lia). done.
  - change (join [44%Z] (map stringify (x :: y :: l)))
      with (stringify x ++ [44] ++ join [44%Z] (map stringify (y :: l))) in *.
    rewrite !length_app in Hf. cbn [length] in Hf.
    rewrite <- !app_assoc, Hx by (done || lia).
    cbn [mbind result_bind app skip_ws is_ws Z.eqb Pos.eqb orb consume].
    assert (skip_ws (join [44%Z] (map stringify (y :: l)) ++ 93 :: r)
            = join [44%Z] (map stringify (y :: l)) ++ 93 :: r) as ->.
    { cbn [forallb] in Hsl. apply andb_true_iff in Hsl as [Hy _].
      destruct (stringify_head y Hy) as (c & t & E & Hc & _).
      destruct l; cbn [map join]; rewrite E; cbn; by rewrite Hc. }
    rewrite IH by (done || lia). by rewrite <- app_assoc.
Qed.

Definition member_text (kv : jsstr * json) : jsstr := quote kv.1 ++ 58 :: stringify kv.2.

Lemma stringify_obj l :
  stringify (JObj l) = 123 :: join [44%Z] (map member_text l) ++ [125].
Proof. cbn [stringify]. do 3 f_equal. apply map_ext. by intros []. Qed.

Lemma parse_members_join total path l :
  Forall (fun kv => reads_back kv.2) l -> forall fuel acc r,
  l <> [] -> NoDup (acc.*1 ++ l.*1) ->
  forallb (fun '(k, x) => unicode_ok k && json_safe x) l = true ->
  (2 * length (join [44%Z] (map member_text l)) + 2 <= fuel)%nat ->
  parse_members fuel total path acc (join [44%Z] (map member_text l) ++ 125 :: r)
  = Ok (JObj (acc ++ l), r).
Proof.
  induction 1 as [|[k x] l Hx Hl IH]; intros fuel acc r Hne Hd Hs Hf; [done|].
  cbn [forallb] in Hs. apply andb_true_iff in Hs as [[Hk Hsx]%andb_true_iff Hsl].
  cbn [snd] in Hx. destruct fuel as [|fuel]; [lia|].
  assert (k ∉ acc.*1) as Hfresh.
  { intros Hin. apply NoDup_app in Hd as (_ & Hd & _). apply (Hd k Hin). left. }
  assert (forall tail, (2 * length (stringify x) + 1 <= fuel)%nat -> num_stop tail = true ->
    parse_members (S fuel) total path acc (member_text (k, x) ++ tail)
    = match consume 125 (skip_ws tail) with
      | Some r4 => Ok (JObj (acc ++ [(k, x)]), r4)
      | None => match consume 44 (skip_ws tail) with
        | None => Throw (CanonicalizationError "missing comma" [path])
        | Some r4 => parse_members fuel total path (acc ++ [(k, x)]) (skip_ws r4)
        end
      end) as Hstep.
  { intros tail Hfx Ht. unfold member_text, quote. cbn [fst snd].
    rewrite <- !app_comm_cons, <- !app_assoc. cbn [parse_members consume Z.eqb Pos.eqb app].
    rewrite parse_quoted by done. cbn [mbind result_bind].
    rewrite bool_decide_eq_false_2 by done.
    cbn [throw_if skip_ws is_ws Z.eqb Pos.eqb orb consume].
    rewrite skip_ws_stringify by done. by rewrite Hx. }
  destruct l as [|y l].
  - cbn [map join] in *. rewrite Hstep; [done| |done].
    unfold member_text in Hf. rewrite length_app in Hf. cbn in Hf. lia.
  - change (join [44%Z] (map member_text ((k, x) :: y :: l)))
      with (member_text (k, x) ++ [44] ++ join [44%Z] (map member_text (y :: l))) in *.
    rewrite !length_app in Hf. cbn [length] in Hf.
    assert (length (stringify x) < length (member_text (k, x)))%nat.
    { unfold member_text. rewrite length_app. cbn. lia. }
    rewrite <- !app_assoc, Hstep by (done || lia).
    cbn [app skip_ws is_ws Z.eqb Pos.eqb orb consume].
    assert (skip_ws (join [44%Z] (map member_text (y :: l)) ++ 125 :: r)
            = join [44%Z] (map member_text (y :: l)) ++ 125 :: r) as ->.
    { by destruct y, l. }
    rewrite IH; [by rewrite <- app_assoc|done| |done|lia].
    rewrite fmap_app, <- app_assoc. done.
Qed.

(** The parser reads back any representable value from its own text. *)
Lemma parse_stringify v : reads_back v.
Proof.
  induction v as [|b|n|s|l IH|l IH] using json_ind'; intros Hv fuel total path r Hf Hr;
    (destruct fuel as [|fuel]; [lia|]).
  - done.
  - by destruct b.
  - cbn [json_safe] in Hv. destruct n as [| | |z|]; try done. cbn [stringify num_text].
    rewrite Hv. pose proof (parse_dec_signed path z r Hv Hr) as Hp.
    destruct (stringify_head (jint z) Hv) as (c & t & E & _).
    cbn [stringify jint num_text] in E. rewrite Hv in E. unfold dec_signed in E, Hp |- *.
    destruct (Z.ltb_spec z 0); [exact Hp|].
    destruct (dec_spec z ltac:(lia)) as (_ & Hd & _). apply nat_dec_digits in Hd as Hg.
    rewrite E in Hg, Hp |- *. cbn in Hg. apply andb_true_iff in Hg as [Hg _].
    pose proof Hg as Hg'. apply in_range_spec in Hg'.
    cbn [app parse_value]. rewrite Hg, orb_true_r.
    rewrite !(proj2 (Z.eqb_neq c _)) by lia. exact Hp.
  - cbn [json_safe] in Hv. cbn [stringify parse_value]. unfold quote.
    rewrite <- app_comm_cons, <- app_assoc. cbn [app Z.eqb Pos.eqb].
    rewrite parse_quoted by done. done.
  - cbn [json_safe] in Hv. cbn [stringify]. rewrite <- app_comm_cons, <- app_assoc.
    cbn [parse_value app Z.eqb Pos.eqb]. destruct l as [|x l]; [done|].
    assert (forall t, skip_ws (join [44%Z] (map stringify (x :: l)) ++ t)
              = join [44%Z] (map stringify (x :: l)) ++ t /\
            consume 93 (join [44%Z] (map stringify (x :: l)) ++ t) = None) as Hj.
    { intros t. cbn [forallb] in Hv. apply andb_true_iff in Hv as [Hx _].
      destruct (stringify_head x Hx) as (c & u & E & Hc & Hn & _).
      destruct l; cbn [map join]; rewrite E; cbn; rewrite Hc;
        by rewrite (proj2 (Z.eqb_neq c 93)). }
    destruct (Hj (93 :: r)) as [-> ->]. rewrite parse_elements_join; try done.
    cbn [stringify] in Hf. cbn [length] in Hf. rewrite length_app in Hf. cbn in Hf |- *. lia.
  - cbn [json_safe] in Hv. apply andb_true_iff in Hv as [Hd%bool_decide_eq_true Hv].
    rewrite stringify_obj in *. rewrite <- app_comm_cons, <- app_assoc.
    cbn [parse_value app Z.eqb Pos.eqb]. destruct l as [|x l]; [done|].
    assert (forall t, skip_ws (join [44%Z] (map member_text (x :: l)) ++ t)
              = join [44%Z] (map member_text (x :: l)) ++ t /\
            consume 125 (join [44%Z] (map member_text (x :: l)) ++ t) = None) as Hj.
    { intros t. by destruct x, l. }
    destruct (Hj (125 :: r)) as [-> ->]. rewrite parse_members_join; try done.
    cbn [length] in Hf. rewrite length_app in Hf. cbn in Hf |- *. lia.
Qed.

Lemma strictParse_stringify v : json_safe v = true -> strictParse (stringify v) = Ok v.
Proof.
  intros Hv. unfold strictParse.
  rewrite <- (app_nil_r (stringify v)), skip_ws_stringify by done.
  rewrite parse_stringify; [done|done| |done].
  unfold parse_fuel. rewrite app_nil_r. lia.
Qed.

(** The encoding of representable values is injective. *)
Lemma stringify_inj v w :
  json_safe v = true -> json_safe w = true -> stringify v = stringify w -> v = w.
Proof.
  intros Hv Hw E. apply (f_equal strictParse) in E.
  rewrite !strictParse_stringify in E by done. by injection E.
Qed.
End roundtrip.

(** ** Termination and soundness of the parser *)

Lemma scan_string_shorter path e s raw r :
  scan_string path e s = Ok (raw, r) -> (length r < length s)%nat.
Proof.
  revert e raw; induction s as [|c s IH]; intros e raw; [done|]. cbn [scan_string].
  destruct (negb e && (c =? 34)); [intros [= <- <-]; cbn; lia|].
  destruct (negb e && (c <=? 31)); [done|].
  intros ([raw' r'] & Hs & [= <- <-])%bind_ok. apply IH in Hs. cbn. lia.
Qed.

Lemma scan_string_fuel path e s : scan_string path e s <> Throw OutOfFuel.
Proof.
  revert e; induction s as [|c s IH]; intros e; [done|]. cbn [scan_string].
  destruct (negb e && (c =? 34)); [done|]. destruct (negb e && (c <=? 31)); [done|].
  specialize (IH (negb e && (c =? 92))). by destruct (scan_string path _ s) as [[]|].
Qed.

Lemma span_digits_shorter s d r :
  span_digits s = (d, r) -> length s = (length d + length r)%nat.
Proof.
  revert d; induction s as [|c s IH]; intros d; cbn [span_digits]; [intros [= <- <-]; done|].
  destruct (is_digit c); [|intros [= <- <-]; done].
  destruct (span_digits s) as [d' r']. intros [= <- <-]. cbn. by rewrite (IH d').
Qed.

Lemma span_integer_shorter s d r :
  span_integer s = Some (d, r) -> (length r < length s)%nat.
Proof.
  destruct s as [|c s]; [done|]. cbn. destruct (c =? 48); [intros [= <- <-]; lia|].
  destruct (in_range 49 57 c); [|done].
  destruct (span_digits s) as [d' r'] eqn:E. apply span_digits_shorter in E.
  intros [= <- <-]. lia.
Qed.

Lemma consume_shorter c s r : consume c s = Some r -> length s = S (length r).
Proof. destruct s as [|d s]; cbn; [done|]. destruct (d =? c); [|done]. by intros [= ->]. Qed.

Lemma span_fraction_shorter s d r : span_fraction s = (d, r) -> (length r <= length s)%nat.
Proof.
  unfold span_fraction. destruct (consume 46 s) as [t|] eqn:Ec; [|intros [= <- <-]; lia].
  apply consume_shorter in Ec. destruct (span_digits t) as [d' r'] eqn:E.
  apply span_digits_shorter in E. destruct d'; intros [= <- <-]; lia.
Qed.

Lemma span_exponent_shorter s e r : span_exponent s = (e, r) -> (length r <= length s)%nat.
Proof.
  destruct s as [|c t]; cbn [span_exponent]; [intros [= <- <-]; done|].
  destruct ((c =? 101) || (c =? 69)); [|intros [= <- <-]; done].
  destruct (match t with [] => _ | _ :: _ => _ end) as [sign u] eqn:Eu.
  assert (length u <= length t)%nat as Hu.
  { destruct t as [|d t']; [by injection Eu as <- <-|].
    destruct (d =? 45); [injection Eu as <- <-; cbn; lia|].
    destruct (d =? 43); injection Eu as <- <-; cbn; lia. }
  destruct (span_digits u) as [d r'] eqn:E. apply span_digits_shorter in E.
  destruct d; intros [= <- <-]; cbn; lia.
Qed.

Lemma skip_ws_shorter s : (length (skip_ws s) <= length s)%nat.
Proof. induction s as [|c s IH]; cbn; [lia|]. destruct (is_ws c); cbn; lia. Qed.

Lemma strip_prefix_shorter p s r :
  strip_prefix p s = Some r -> length s = (length p + length r)%nat.
Proof.
  revert s; induction p as [|a p IH]; intros [|b s]; cbn; try done; [by intros [= <-]..|].
  destruct (a =? b); [|done]. intros H. by rewrite (IH s).
Qed.

Section parser_total.
Context `{Platform}.

(** What every value the parser returns satisfies: strict Unicode strings,
    finite numbers, distinct names. *)
Fixpoint parsed_ok (v : json) : bool :=
  match v with
  | JNull | JBool _ => true
  | JStr s => unicode_ok s
  | JNum n => isFinite n
  | JArr l => forallb parsed_ok l
  | JObj l => bool_decide (NoDup l.*1)
      && forallb (fun '(k, x) => unicode_ok k && parsed_ok x) l
  end.

(** Outcome of a parsing step on [s]: an error of the parser, or a good value
    and strictly less source. *)
Definition good_step (s : jsstr) (r : result (json * jsstr)) : Prop :=
  match r with
  | Ok (v, r) => parsed_ok v = true /\ (length r < length s)%nat
  | Throw e => e <> OutOfFuel
  end.

Lemma good_bind {A} s (m : result A) (k : A -> result (json * jsstr)) :
  m <> Throw OutOfFuel -> (forall a, m = Ok a -> good_step s (k a)) -> good_step s (m ≫= k).
Proof. destruct m as [a|e]; cbn; intros Hm Hk; [by apply Hk|naive_solver]. Qed.

Lemma parse_string_ok path s x r :
  parse_string path s = Ok (x, r) -> unicode_ok x = true /\ (length r < length s)%nat.
Proof.
  unfold parse_string. intros ([raw r'] & Hs & Hv)%bind_ok.
  apply scan_string_shorter in Hs. destruct (unescape raw) as [y|]; [|done].
  apply bind_ok in Hv as (u & Hu & [= <- <-]). by apply assertUnicodeScalar_ok in Hu.
Qed.

Lemma assertUnicodeScalar_fuel s p : assertUnicodeScalar s p <> Throw OutOfFuel.
Proof.
  unfold assertUnicodeScalar. destruct (is_ascii s); [done|].
  destruct (negb _); [done|]. cbn. by destruct (bool_decide _).
Qed.

Lemma parse_string_fuel path s : parse_string path s <> Throw OutOfFuel.
Proof.
  unfold parse_string. pose proof (scan_string_fuel path false s).
  destruct (scan_string path false s) as [[raw r]|e]; cbn; [|naive_solver].
  destruct (unescape raw) as [y|]; [|done]. pose proof (assertUnicodeScalar_fuel y path).
  destruct (assertUnicodeScalar y path); cbn; [done|naive_solver].
Qed.

Lemma parse_number_good path s : good_step s (parse_number path s).
Proof.
  unfold parse_number.
  destruct (match consume 45 s with Some _ => _ | None => _ end) as [neg s1] eqn:E1.
  assert (length s1 <= length s)%nat.
  { destruct (consume 45 s) as [t|] eqn:Ec; injection E1 as <- <-; [|lia].
    apply consume_shorter in Ec. lia. }
  destruct (span_integer s1) as [[int s2]|] eqn:E2; [|done].
  apply span_integer_shorter in E2.
  destruct (span_fraction s2) as [frac s3] eqn:E3. apply span_fraction_shorter in E3.
  destruct (span_exponent s3) as [exp s4] eqn:E4. apply span_exponent_shorter in E4.
  apply good_bind; [by destruct (negb _)|]. intros [] Hf%throw_if_ok.
  apply negb_false_iff in Hf. split; [done|lia].
Qed.

Lemma parse_literal_good total c lit v s :
  parsed_ok v = true -> good_step s (parse_literal total (c :: lit) v s).
Proof.
  intros Hv. unfold parse_literal. destruct (strip_prefix (c :: lit) s) as [r|] eqn:E; [|done].
  apply strip_prefix_shorter in E. split; [done|]. cbn in E. lia.
Qed.

Lemma good_step_le s s' r : (length s <= length s')%nat -> good_step s r -> good_step s' r.
Proof. destruct r as [[v r]|e]; cbn; [intros ? []; split; [done|lia]|done]. Qed.

Definition step_good (fuel : nat) : Prop :=
  (forall total path s, (2 * length s + 1 <= fuel)%nat ->
     good_step s (parse_value fuel total path s)) /\
  (forall total path acc s, (2 * length s + 1 <= fuel)%nat -> parsed_ok (JObj acc) = true ->
     good_step s (parse_members fuel total path acc s)) /\
  (forall total path acc s, (2 * length s + 2 <= fuel)%nat -> parsed_ok (JArr acc) = true ->
     good_step s (parse_elements fuel total path acc s)).

Lemma members_snoc acc name v :
  parsed_ok (JObj acc) = true -> name ∉ acc.*1 -> unicode_ok name = true ->
  parsed_ok v = true -> parsed_ok (JObj (acc ++ [(name, v)])) = true.
Proof.
  cbn [parsed_ok]. rewrite !andb_true_iff, !bool_decide_eq_true. intros [Hd Ha] Hn Hu Hv.
  rewrite fmap_app, forallb_app, Ha. cbn. rewrite Hu, Hv. split; [|done].
  apply NoDup_app. split_and!; [done| |apply NoDup_singleton].
  by intros x Hx ->%list_elem_of_singleton.
Qed.

Lemma value_step fuel total path s :
  step_good fuel -> (2 * length s + 1 <= S fuel)%nat ->
  good_step s (parse_value (S fuel) total path s).
Proof.
  intros (_ & Hm & He) Hf. destruct s as [|c t]; [done|]. cbn [parse_value length] in *.
  pose proof (skip_ws_shorter t).
  destruct (c =? 34).
  { apply good_bind; [apply parse_string_fuel|]. intros [x r] Hx.
    apply parse_string_ok in Hx as [Hx Hl]. split; [done|]. cbn. lia. }
  destruct (c =? 123).
  { destruct (consume 125 (skip_ws t)) as [r|] eqn:E.
    - apply consume_shorter in E. split; [done|]. cbn. lia.
    - eapply good_step_le; [|apply Hm; [lia|done]]. cbn. lia. }
  destruct (c =? 91).
  { destruct (consume 93 (skip_ws t)) as [r|] eqn:E.
    - apply consume_shorter in E. split; [done|]. cbn. lia.
    - eapply good_step_le; [|apply He; [lia|done]]. cbn. lia. }
  destruct (c =? 116); [by apply parse_literal_good|].
  destruct (c =? 102); [by apply parse_literal_good|].
  destruct (c =? 110); [by apply parse_literal_good|].
  destruct ((c =? 45) || is_digit c); [apply parse_number_good|done].
Qed.

Lemma members_step fuel total path acc s :
  step_good fuel -> (2 * length s + 1 <= S fuel)%nat -> parsed_ok (JObj acc) = true ->
  good_step s (parse_members (S fuel) total path acc s).
Proof.
  intros (Hv & Hm & _) Hf Hacc. cbn [parse_members].
  destruct (consume 34 s) as [t|] eqn:Et; [|done]. apply consume_shorter in Et.
  apply good_bind; [apply parse_string_fuel|]. intros [name r1] Hn.
  apply parse_string_ok in Hn as [Hn Hl1].
  apply good_bind; [by destruct (bool_decide _)|]. intros [] Hd%throw_if_ok.
  apply bool_decide_eq_false in Hd.
  destruct (consume 58 (skip_ws r1)) as [r2|] eqn:E2; [|done].
  apply consume_shorter in E2. pose proof (skip_ws_shorter r1). pose proof (skip_ws_shorter r2).
  assert (length (skip_ws r2) + 3 <= length s)%nat as Hlen by lia.
  specialize (Hv total (name_path path name) (skip_ws r2) ltac:(lia)).
  destruct (parse_value fuel total (name_path path name) (skip_ws r2)) as [[v r3]|e]; [|done].
  destruct Hv as [Hv Hl3]. cbn [mbind result_bind]. cbn zeta.
  pose proof (skip_ws_shorter r3). pose proof (members_snoc acc name v Hacc Hd Hn Hv) as Hacc'.
  destruct (consume 125 (skip_ws r3)) as [r4|] eqn:E4; [apply consume_shorter in E4; split; [done|lia]|].
  destruct (consume 44 (skip_ws r3)) as [r4|] eqn:E5; [|done]. apply consume_shorter in E5.
  pose proof (skip_ws_shorter r4). eapply good_step_le; [|apply Hm; [lia|done]]. lia.
Qed.

Lemma elements_step fuel total path acc s :
  step_good fuel -> (2 * length s + 2 <= S fuel)%nat -> parsed_ok (JArr acc) = true ->
  good_step s (parse_elements (S fuel) total path acc s).
Proof.
  intros (Hv & _ & He) Hf Hacc. cbn [parse_elements].
  specialize (Hv total (index_path path (Z.of_nat (length acc))) s ltac:(lia)).
  destruct (parse_value fuel total _ s) as [[v r1]|e]; [|done].
  destruct Hv as [Hv Hl1]. cbn [mbind result_bind]. cbn zeta.
  pose proof (skip_ws_shorter r1).
  assert (parsed_ok (JArr (acc ++ [v])) = true) as Hacc'.
  { cbn [parsed_ok] in *. rewrite forallb_app, Hacc. cbn. by rewrite Hv. }
  destruct (consume 93 (skip_ws r1)) as [r2|] eqn:E2; [apply consume_shorter in E2; split; [done|lia]|].
  destruct (consume 44 (skip_ws r1)) as [r2|] eqn:E3; [|done]. apply consume_shorter in E3.
  pose proof (skip_ws_shorter r2). eapply good_step_le; [|apply He; [lia|done]]. lia.
Qed.

Lemma parser_good fuel : step_good fuel.
Proof.
  induction fuel as [|fuel IH]; [split_and!; intros; lia|].
  split_and!; intros; [by apply value_step|by apply members_step|by apply elements_step].
Qed.

(** Every source is parsed or rejected, and what is accepted is strict. *)
Lemma strictParse_good source :
  match strictParse source with
  | Ok v => parsed_ok v = true
  | Throw e => e <> OutOfFuel
  end.
Proof.
  unfold strictParse. destruct (parser_good (parse_fuel source)) as (Hv & _).
  specialize (Hv (js_length source) (js "$") (skip_ws source)).
  pose proof (skip_ws_shorter source). unfold parse_fuel in *.
  specialize (Hv ltac:(lia)).
  destruct (parse_value _ _ _ _) as [[v r]|e]; cbn in Hv |- *; [|done].
  destruct Hv as [Hv _]. by destruct (skip_ws r).
Qed.
End parser_total.
