(* ===== verification/JsonCanon.v ===== *)
(** * The canonical form of a JSON value

    Facts about [canonicalJson] and [canonicalSha256] that the rest of the
    development uses: the canonical text is well-formed Unicode and a fixed
    point of [canonicalJsonFromText], member order does not matter, and equal
    digests mean equal values up to member order, or an explicit SHA-256
    collision. *)

From stdpp Require Import base numbers sorting strings list.
From Stdlib Require Import Lia.
From S2P Require Import Prelude JsString Encoding JsNumber Json JsonParse.

Local Open Scope Z_scope.

(** ** Well-formed text is closed under concatenation *)

Lemma code_points_app s t :
  is_well_formed s = true -> code_points (s ++ t) = code_points s ++ code_points t.
Proof.
  induction s as [s IH] using (induction_ltof1 _ (@length Z)). unfold ltof in IH.
  intros [Hu Hs]%andb_true_iff. destruct s as [|h [|l s]]; [done| |].
  - cbn in Hs. rewrite andb_true_r in Hs. apply is_scalar_spec in Hs.
    destruct t as [|l t]; [done|].
    change (code_points ([h] ++ l :: t)) with
      (if is_high h && is_low l then pair_point h l :: code_points t
       else h :: code_points (l :: t)).
    replace (is_high h) with false; [done|]. symmetry. apply in_range_false. lia.
  - change (code_points ((h :: l :: s) ++ t)) with
      (if is_high h && is_low l then pair_point h l :: code_points (s ++ t)
       else h :: code_points ((l :: s) ++ t)).
    change (code_points (h :: l :: s)) with
      (if is_high h && is_low l then pair_point h l :: code_points s
       else h :: code_points (l :: s)) in *.
    cbn [forallb] in Hu. apply andb_true_iff in Hu as [Hh Hu].
    destruct (is_high h && is_low l); cbn [forallb] in Hs;
      apply andb_true_iff in Hs as [_ Hs].
    + rewrite IH; [done|cbn; lia|]. apply andb_true_iff in Hu as [_ Hu].
      unfold is_well_formed. by rewrite Hu, Hs.
    + rewrite IH; [done|cbn; lia|]. unfold is_well_formed. cbn [forallb]. by rewrite Hu, Hs.
Qed.

Lemma well_formed_app s t :
  is_well_formed s = true -> is_well_formed t = true -> is_well_formed (s ++ t) = true.
Proof.
  intros Hs Ht. unfold is_well_formed. rewrite code_points_app by done.
  rewrite !forallb_app. unfold is_well_formed in Hs, Ht.
  apply andb_true_iff in Hs as [-> ->], Ht as [-> ->]. done.
Qed.

Lemma well_formed_join l :
  forallb is_well_formed l = true -> is_well_formed (join [44] l) = true.
Proof.
  induction l as [|x l IH]; [done|]. cbn [forallb]. intros [Hx Hl]%andb_true_iff.
  destruct l as [|y l]; [done|]. cbn [join]. apply well_formed_app; [done|].
  apply well_formed_app; [done|]. by apply IH.
Qed.

Lemma quote_unit_ascii c : is_unit c = true -> c < 128 -> is_ascii (quote_unit c) = true.
Proof.
  intros Hc%in_range_spec Hlt. unfold quote_unit.
  repeat match goal with
  | |- context [if ?a =? ?b then _ else _] => destruct (Z.eqb_spec a b); [done|]
  end.
  unfold is_ascii. destruct (Z.ltb_spec c 32); cbn [forallb].
  - pose proof (hex_char_spec (c / 16) ltac:(zdm)) as [H1 _].
    pose proof (hex_char_spec (c mod 16) ltac:(zdm)) as [H2 _].
    unfold is_hex, is_digit in H1, H2. rewrite orb_true_iff, !in_range_spec in H1, H2.
    rewrite !andb_true_iff, !in_range_spec. lia.
  - rewrite andb_true_r, in_range_spec. lia.
Qed.

Lemma quote_unit_big c : 93 <= c -> quote_unit c = [c].
Proof.
  intros Hc. unfold quote_unit.
  rewrite !(proj2 (Z.eqb_neq c _)) by lia. by rewrite (proj2 (Z.ltb_ge c 32)) by lia.
Qed.

Lemma quote_units_well_formed s :
  is_well_formed s = true -> is_well_formed (concat (map quote_unit s)) = true.
Proof.
  induction s as [s IH] using (induction_ltof1 _ (@length Z)). unfold ltof in IH.
  intros [Hu Hs]%andb_true_iff. destruct s as [|h s]; [done|].
  cbn [forallb] in Hu. apply andb_true_iff in Hu as [Hh Hu].
  assert (is_scalar h = true -> is_well_formed (quote_unit h) = true) as Hq.
  { intros Hsc. destruct (Z.lt_ge_cases h 128).
    - by apply is_ascii_well_formed, quote_unit_ascii.
    - rewrite quote_unit_big by lia. unfold is_well_formed. cbn. by rewrite Hh, Hsc. }
  destruct s as [|l s].
  - cbn in Hs. rewrite andb_true_r in Hs. cbn [map concat]. rewrite app_nil_r. by apply Hq.
  - change (code_points (h :: l :: s)) with
      (if is_high h && is_low l then pair_point h l :: code_points s
       else h :: code_points (l :: s)) in *.
    cbn [forallb] in Hu. destruct (is_high h && is_low l) eqn:Ep.
    + cbn [forallb] in Hs. apply andb_true_iff in Hs as [Hp Hs], Hu as [Hl Hu].
      pose proof Ep as [E1%in_range_spec E2%in_range_spec]%andb_true_iff.
      cbn [map concat]. rewrite !quote_unit_big by lia. cbn [app].
      specialize (IH s ltac:(cbn; lia)). unfold is_well_formed in IH at 1.
      rewrite Hu, Hs in IH. specialize (IH eq_refl). unfold is_well_formed in *.
      apply andb_true_iff in IH as [I1 I2].
      change (code_points (h :: l :: concat (map quote_unit s))) with
        (if is_high h && is_low l then pair_point h l :: code_points (concat (map quote_unit s))
         else h :: code_points (l :: concat (map quote_unit s))).
      rewrite Ep. cbn [forallb]. by rewrite Hh, Hl, I1, Hp, I2.
    + cbn [forallb] in Hs. apply andb_true_iff in Hs as [Hsh Hs].
      change (concat (map quote_unit (h :: l :: s)))
        with (quote_unit h ++ concat (map quote_unit (l :: s))).
      apply well_formed_app; [by apply Hq|]. apply IH; [cbn; lia|].
      unfold is_well_formed. cbn [forallb]. by rewrite Hu, Hs.
Qed.

Section canonical.
Context `{P : Platform}.

Lemma quote_well_formed s : unicode_ok s = true -> is_well_formed (quote s) = true.
Proof.
  intros Hs%unicode_ok_well_formed. unfold quote. rewrite app_comm_cons.
  apply well_formed_app; [|done]. apply (well_formed_app [34]); [done|].
  by apply quote_units_well_formed.
Qed.

Lemma dec_ascii n : 0 <= n -> is_ascii (dec n) = true.
Proof.
  intros Hn. destruct (dec_spec n Hn) as (_ & Hd & _). apply nat_dec_digits in Hd.
  unfold is_ascii. rewrite forallb_forall in *. intros c Hc.
  apply Hd, in_range_spec in Hc. apply in_range_spec. lia.
Qed.

Lemma dec_signed_ascii z : is_ascii (dec_signed z) = true.
Proof.
  unfold dec_signed. destruct (Z.ltb_spec z 0); [|by apply dec_ascii].
  cbn. by apply dec_ascii; lia.
Qed.

Lemma stringify_well_formed v : json_safe v = true -> is_well_formed (stringify v) = true.
Proof.
  induction v as [|b|n|s|l IH|l IH] using json_ind'; intros Hv.
  - done.
  - by destruct b.
  - cbn in Hv. destruct n as [| | |z|]; try done. cbn. rewrite Hv.
    apply is_ascii_well_formed, dec_signed_ascii.
  - by apply quote_well_formed.
  - cbn [stringify json_safe] in *. apply (well_formed_app [91]); [done|].
    apply well_formed_app; [|done]. apply well_formed_join.
    rewrite forallb_map. rewrite forallb_forall in *. intros x Hx.
    rewrite List.Forall_forall in IH. by apply IH, Hv.
  - rewrite stringify_obj. cbn [json_safe] in Hv.
    apply andb_true_iff in Hv as [_ Hv]. apply (well_formed_app [123]); [done|].
    apply well_formed_app; [|done]. apply well_formed_join.
    rewrite forallb_map. rewrite forallb_forall in *. intros [k x] Hx.
    rewrite List.Forall_forall in IH. specialize (IH _ Hx). specialize (Hv _ Hx).
    cbn in IH, Hv. apply andb_true_iff in Hv as [Hk Hsx].
    unfold member_text. cbn [fst snd]. apply well_formed_app; [by apply quote_well_formed|].
    apply (well_formed_app [58]); [done|]. by apply IH.
Qed.

(** ** The sorted copy *)

Lemma cmp_member_total a b : 0 < cmp_member a b -> cmp_member b a <= 0.
Proof. apply cmp_units_total. Qed.

Lemma cmp_member_trans a b c :
  cmp_member a b <= 0 -> cmp_member b c <= 0 -> cmp_member a c <= 0.
Proof. apply cmp_units_trans. Qed.

Definition sort_member (kv : jsstr * json) : jsstr * json := (kv.1, sort_json kv.2).

Lemma sort_json_obj l : sort_json (JObj l) = JObj (toSorted cmp_member (map sort_member l)).
Proof. cbn [sort_json]. do 2 f_equal. apply map_ext. by intros []. Qed.

Lemma sort_members_perm l : toSorted cmp_member (map sort_member l) ≡ₚ map sort_member l.
Proof. apply toSorted_perm. Qed.

Lemma sort_members_keys l : (toSorted cmp_member (map sort_member l)).*1 ≡ₚ l.*1.
Proof.
  rewrite sort_members_perm. induction l as [|[k x] l IH]; [done|]. cbn. by constructor.
Qed.

Lemma sort_json_ok d v : json_ok d (sort_json v) = json_ok d v.
Proof.
  revert d. induction v as [|b|n|s|l IH|l IH] using json_ind'; intros d; try done.
  - cbn [sort_json json_ok]. f_equal. rewrite forallb_map.
    induction IH as [|x l Hx _ IHl]; [done|]. cbn. by rewrite Hx, IHl.
  - rewrite sort_json_obj. cbn [json_ok]. f_equal.
    rewrite (forallb_perm _ _ _ (sort_members_perm l)), forallb_map.
    induction IH as [|[k x] l Hx _ IHl]; [done|]. cbn in *. by rewrite Hx, IHl.
Qed.

Lemma sort_json_safe v : json_safe (sort_json v) = json_safe v.
Proof.
  induction v as [|b|n|s|l IH|l IH] using json_ind'; try done.
  - cbn [sort_json json_safe]. rewrite forallb_map.
    induction IH as [|x l Hx _ IHl]; [done|]. cbn. by rewrite Hx, IHl.
  - rewrite sort_json_obj. cbn [json_safe]. f_equal.
    + apply bool_decide_ext. by rewrite sort_members_keys.
    + rewrite (forallb_perm _ _ _ (sort_members_perm l)), forallb_map.
      induction IH as [|[k x] l Hx _ IHl]; [done|]. cbn in *. by rewrite Hx, IHl.
Qed.

Lemma sort_json_index v : has_index_key (sort_json v) = has_index_key v.
Proof.
  induction v as [|b|n|s|l IH|l IH] using json_ind'; try done.
  - cbn [sort_json has_index_key]. rewrite existsb_map.
    induction IH as [|x l Hx _ IHl]; [done|]. cbn. by rewrite Hx, IHl.
  - rewrite sort_json_obj. cbn [has_index_key].
    rewrite (existsb_perm _ _ _ (sort_members_perm l)), existsb_map.
    induction IH as [|[k x] l Hx _ IHl]; [done|]. cbn in *. by rewrite Hx, IHl.
Qed.

Lemma sort_json_idem v : sort_json (sort_json v) = sort_json v.
Proof.
  induction v as [|b|n|s|l IH|l IH] using json_ind'; try done.
  - cbn [sort_json]. f_equal. rewrite map_map.
    induction IH as [|x l Hx _ IHl]; [done|]. cbn. by rewrite Hx, IHl.
  - rewrite !sort_json_obj. f_equal.
    assert (map sort_member (toSorted cmp_member (map sort_member l))
            = toSorted cmp_member (map sort_member l)) as ->.
    { assert (Forall (fun kv => sort_member kv = kv) (map sort_member l)) as Hf.
      { apply Forall_fmap. eapply Forall_impl; [exact IH|]. intros [k x] Hx. cbn in *.
        unfold sort_member. cbn. by rewrite Hx. }
      rewrite <- (sort_members_perm l) in Hf.
      induction Hf as [|x k Hx _ IHk]; [done|]. cbn. by rewrite Hx, IHk. }
    apply toSorted_id. apply toSorted_sorted; [apply cmp_member_total|apply cmp_member_trans].
Qed.

(** Objects with the same sorted copy have the same value under each name. *)
Lemma sort_json_obj_get l k key :
  NoDup l.*1 -> NoDup k.*1 -> sort_json (JObj l) = sort_json (JObj k) ->
  sort_json <$> map_get l key = sort_json <$> map_get k key.
Proof.
  assert (forall m, map_get (map sort_member m) key = sort_json <$> map_get m key) as Hm.
  { induction m as [|[k1 x] m IH]; [done|]. cbn. by destruct (decide (key = k1)). }
  intros Hl Hk E. rewrite !sort_json_obj in E. injection E as E.
  rewrite <- !Hm. assert (map sort_member l ≡ₚ map sort_member k) as Hp.
  { by rewrite <- (sort_members_perm l), E, sort_members_perm. }
  assert (forall m, NoDup m.*1 -> NoDup (map sort_member m).*1) as Hd.
  { intros m. replace (map sort_member m).*1 with m.*1; [done|].
    induction m as [|[] m IH]; [done|]. cbn. by rewrite IH. }
  destruct (map_get (map sort_member l) key) as [x|] eqn:El.
  - apply map_get_in in El. rewrite Hp in El. symmetry. by apply map_get_nodup; [apply Hd|].
  - apply map_get_none in El. symmetry. apply map_get_none. by rewrite <- Hp.
Qed.

(** ** Fixed point *)

Definition passes (d : Z) (s : jsstr) : Prop :=
  forall i r, text_structure i d false false (s ++ r)
            = text_structure (i + js_length s) d false false r.

Lemma passes_app d s t : passes d s -> passes d t -> passes d (s ++ t).
Proof.
  intros Hs Ht i r. rewrite <- app_assoc, Hs, Ht. f_equal.
  unfold js_length. rewrite length_app. lia.
Qed.

Definition plain_unit (c : Z) : bool :=
  negb ((c =? 34) || (c =? 91) || (c =? 123) || (c =? 93) || (c =? 125)).

Lemma passes_plain d s : forallb plain_unit s = true -> passes d s.
Proof.
  intros Hs i r. revert i Hs. induction s as [|c s IH]; intros i; cbn [forallb app];
    [intros _; f_equal; unfold js_length; cbn; lia|].
  intros [Hc Hs]%andb_true_iff. unfold plain_unit in Hc.
  apply negb_true_iff in Hc. rewrite !orb_false_iff in Hc. destruct_and!.
  cbn [text_structure]. repeat match goal with H : (_ =? _) = false |- _ => rewrite H; clear H end.
  cbn [orb]. rewrite IH by done. f_equal. rewrite js_length_cons. lia.
Qed.

Lemma escape_passes e i d r :
  text_structure i d true false ([92; e] ++ r)
  = text_structure (i + js_length [92; e]) d true false r.
Proof. 
  transitivity (text_structure (i + 1 + 1) d true false r); [done|].
  f_equal. unfold js_length. cbn [length]. lia.
Qed.

Lemma quoted_unit_passes c i d r :
  is_unit c = true ->
  text_structure i d true false (quote_unit c ++ r)
  = text_structure (i + js_length (quote_unit c)) d true false r.
Proof.
  intros Hc%in_range_spec. unfold quote_unit.
  repeat match goal with
  | |- context [if ?a =? ?b then _ else _] =>
      destruct (Z.eqb_spec a b); [apply escape_passes|]
  end.
  destruct (Z.ltb_spec c 32).
  - pose proof (hex_char_spec (c / 16) ltac:(zdm)) as [H1 _].
    pose proof (hex_char_spec (c mod 16) ltac:(zdm)) as [H2 _].
    unfold is_hex, is_digit in H1, H2. rewrite orb_true_iff, !in_range_spec in H1, H2.
    generalize dependent (hex_char (c / 16)). intros a Ha.
    generalize dependent (hex_char (c mod 16)). intros b Hb.
    cbn [app text_structure].
    rewrite (proj2 (Z.eqb_neq a 92)), (proj2 (Z.eqb_neq a 34)),
      (proj2 (Z.eqb_neq b 92)), (proj2 (Z.eqb_neq b 34)) by lia.
    change (92 =? 34) with false. change (92 =? 92) with true.
    change (117 =? 34) with false. change (48 =? 34) with false.
    change (48 =? 92) with false. cbn [andb orb negb].
    unfold js_length. cbn [length]. f_equal; lia.
  - cbn [app text_structure negb andb orb].
    rewrite (proj2 (Z.eqb_neq c 92)), (proj2 (Z.eqb_neq c 34)) by lia. done.
Qed.

Lemma passes_quote d s : unicode_ok s = true -> passes d (quote s).
Proof.
  intros Hs%unicode_ok_well_formed i r.
  unfold is_well_formed in Hs. apply andb_true_iff in Hs as [Hu _].
  unfold quote. rewrite <- app_comm_cons, <- app_assoc. cbn [text_structure Z.eqb Pos.eqb].
  rewrite js_length_cons.
  replace (i + (js_length (concat (map quote_unit s) ++ [34]) + 1))
    with (i + 1 + js_length (concat (map quote_unit s) ++ [34])) by lia.
  generalize (i + 1). clear i. induction s as [|c s IH]; intros i.
  - done.
  - cbn [forallb] in Hu. apply andb_true_iff in Hu as [Hc Hu]. cbn [map concat].
    rewrite <- !app_assoc, quoted_unit_passes, IH by done. f_equal.
    unfold js_length. rewrite !length_app. lia.
Qed.

Lemma passes_join d l : Forall (passes d) l -> passes d (join [44] l).
Proof.
  induction 1 as [|x l Hx Hl IH]; [by apply passes_plain|].
  destruct l as [|y l]; [done|]. cbn [join]. apply passes_app; [done|].
  apply passes_app; [by apply passes_plain|done].
Qed.

Lemma passes_brackets d o c s :
  d < 512 -> (o = 91 \/ o = 123) -> (c = 93 \/ c = 125) -> passes (d + 1) s ->
  passes d (o :: s ++ [c]).
Proof.
  intros Hd Ho Hc Hs i r. rewrite <- app_comm_cons, <- app_assoc.
  assert (forall j x, text_structure j d false false (o :: x)
            = text_structure (j + 1) (d + 1) false false x) as ->.
  { intros j x. destruct Ho as [-> | ->]; cbn [text_structure Z.eqb Pos.eqb orb];
      by rewrite (proj2 (Z.ltb_ge 512 (d + 1))) by lia. }
  rewrite Hs. assert (forall j, text_structure j (d + 1) false false ([c] ++ r)
            = text_structure (j + 1) d false false r) as ->.
  { intros j. destruct Hc as [-> | ->]; cbn [app text_structure Z.eqb Pos.eqb orb];
      f_equal; lia. }
  f_equal. rewrite js_length_cons. unfold js_length. rewrite length_app. cbn. lia.
Qed.

Lemma dec_signed_plain z : forallb plain_unit (dec_signed z) = true.
Proof.
  assert (forall n, 0 <= n -> forallb plain_unit (dec n) = true) as Hd.
  { intros n Hn. destruct (dec_spec n Hn) as (_ & Hd & _). apply nat_dec_digits in Hd.
    rewrite forallb_forall in *. intros c Hc. apply Hd, in_range_spec in Hc.
    unfold plain_unit. rewrite negb_true_iff, !orb_false_iff, !Z.eqb_neq. lia. }
  unfold dec_signed. destruct (Z.ltb_spec z 0); [|by apply Hd].
  cbn. by apply Hd; lia.
Qed.

Lemma stringify_passes v d :
  json_safe v = true -> json_ok d v = true -> passes (Z.of_nat d) (stringify v).
Proof.
  revert d. induction v as [|b|n|s|l IH|l IH] using json_ind'; intros d Hv Hok.
  - by apply passes_plain.
  - destruct b; by apply passes_plain.
  - cbn in Hv. destruct n as [| | |z|]; try done. cbn [stringify num_text]. rewrite Hv.
    apply passes_plain, dec_signed_plain.
  - by apply passes_quote.
  - cbn [json_safe json_ok stringify] in *.
    apply andb_true_iff in Hok as [Hd%Nat.ltb_lt Hok]. unfold MAX_JSON_CONTAINER_DEPTH in Hd.
    apply passes_brackets; [lia|by left|by left|].
    replace (Z.of_nat d + 1) with (Z.of_nat (S d)) by lia. apply passes_join.
    apply Forall_fmap, List.Forall_forall. intros x Hx.
    rewrite forallb_forall in Hv, Hok. rewrite List.Forall_forall in IH.
    by apply IH; [|apply Hv|apply Hok].
  - rewrite stringify_obj. cbn [json_safe json_ok] in *.
    apply andb_true_iff in Hok as [Hd%Nat.ltb_lt Hok], Hv as [_ Hv].
    unfold MAX_JSON_CONTAINER_DEPTH in Hd.
    apply passes_brackets; [lia|by right|by right|].
    replace (Z.of_nat d + 1) with (Z.of_nat (S d)) by lia. apply passes_join.
    apply Forall_fmap, List.Forall_forall. intros [k x] Hx.
    rewrite forallb_forall in Hv, Hok. rewrite List.Forall_forall in IH.
    specialize (IH _ Hx (S d)). specialize (Hv _ Hx). specialize (Hok _ Hx).
    cbn [snd] in IH. cbn beta iota in Hv, Hok. unfold member_text. cbn [fst snd].
    apply andb_true_iff in Hv as [Hk Hv], Hok as [_ Hok].
    apply passes_app; [by apply passes_quote|]. apply (passes_app _ [58]); [by apply passes_plain|].
    by apply IH.
Qed.

(** The canonical encoding is accepted unchanged. *)
Lemma canonical_fixed v :
  json_safe v = true -> json_ok 0 v = true -> has_index_key v = false ->
  canonicalJsonFromText (stringify (sort_json v)) = Ok (stringify (sort_json v)).
Proof.
  intros Hs Ho Hi. rewrite <- sort_json_safe in Hs. rewrite <- (sort_json_ok 0) in Ho.
  rewrite <- sort_json_index in Hi. unfold canonicalJsonFromText.
  assert (starts_with_bom (stringify (sort_json v)) = false) as ->.
  { destruct (stringify_head _ Hs) as (c & t & E & Hw & _).
    destruct (sort_json v) as [|b|n|s|l|l]; try done; [by destruct b|].
    cbn in Hs |- *. destruct n as [| | |z|]; try done. cbn [num_text]. rewrite Hs.
    pose proof (dec_signed_ascii z) as Ha. destruct (dec_signed z) as [|c' ds]; [done|].
    cbn in Ha |- *. apply andb_true_iff in Ha as [Ha%in_range_spec _].
    apply Z.eqb_neq. lia. }
  cbn [throw_if mbind result_bind]. unfold assertJsonTextStructure.
  pose proof (stringify_passes _ 0 Hs Ho 0 []) as Hp. rewrite app_nil_r in Hp.
  change (Z.of_nat 0) with 0 in Hp. rewrite Hp. cbn [text_structure mbind result_bind].
  rewrite strictParse_stringify by done. cbn [mbind result_bind].
  apply canonicalJson_ok. split; [done|]. by rewrite Hi, sort_json_idem.
Qed.

(** Equal digests: the same value up to member order, or a collision. *)
Lemma canonicalSha256_eq v w h :
  json_safe v = true -> json_safe w = true ->
  has_index_key v = false -> has_index_key w = false ->
  canonicalSha256 v = Ok h -> canonicalSha256 w = Ok h ->
  sort_json v = sort_json w \/
  collision (utf8_encode (stringify (sort_json v))) (utf8_encode (stringify (sort_json w))).
Proof.
  intros Hv Hw Iv Iw Ev Ew. unfold canonicalSha256 in *.
  apply fmap_ok in Ev as (s & Ev & ->), Ew as (t & Ew & E).
  apply canonicalJson_ok in Ev as [_ ->], Ew as [_ ->]. rewrite Iv, Iw in E.
  apply sha256Hex_eq in E as [E|E];
    [left|by right|apply stringify_well_formed; by rewrite sort_json_safe..].
  apply stringify_inj in E; [done|by rewrite sort_json_safe..].
Qed.

(** ** What a digest binds *)

(** The shape of a literal payload, whatever its strings are: distinct names
    that are not array indices, and safe integers. *)
Fixpoint json_plain (v : json) : bool :=
  match v with
  | JNull | JBool _ | JStr _ => true
  | JNum n => match n with NInt z => safe_Z z | _ => false end
  | JArr l => forallb json_plain l
  | JObj l => bool_decide (NoDup l.*1)
      && forallb (fun '(k, x) => negb (is_index_key k) && json_plain x) l
  end.

Lemma plain_ok_safe d v : json_plain v = true -> json_ok d v = true -> json_safe v = true.
Proof.
  revert d. induction v as [|b|n|s|l IH|l IH] using json_ind'; intros d Hp Ho; try done.
  - cbn [json_plain json_ok json_safe] in *. apply andb_true_iff in Ho as [_ Ho].
    rewrite forallb_forall in *. rewrite List.Forall_forall in IH. eauto.
  - cbn [json_plain json_ok json_safe] in *. apply andb_true_iff in Ho as [_ Ho], Hp as [-> Hp].
    cbn [andb]. rewrite forallb_forall in *. rewrite List.Forall_forall in IH. intros [k x] Hx.
    specialize (IH _ Hx (S d)). specialize (Hp _ Hx). specialize (Ho _ Hx).
    cbn beta iota in *. apply andb_true_iff in Hp as [_ Hp], Ho as [-> Ho]. by apply IH.
Qed.

Lemma plain_index v : json_plain v = true -> has_index_key v = false.
Proof.
  intros Hp. destruct (has_index_key v) eqn:E; [|done]. revert Hp E.
  induction v as [|b|n|s|l IH|l IH] using json_ind'; try done; cbn [json_plain has_index_key].
  - intros Hp (x & Hx & E)%existsb_exists. rewrite forallb_forall in Hp.
    rewrite List.Forall_forall in IH. by eapply IH; [exact Hx|apply Hp|].
  - intros [_ Hp]%andb_true_iff ([k x] & Hx & E)%existsb_exists. rewrite forallb_forall in Hp.
    rewrite List.Forall_forall in IH. specialize (Hp _ Hx). cbn beta iota in *.
    apply andb_true_iff in Hp as [Hk%negb_true_iff Hp]. rewrite Hk in E. by eapply IH.
Qed.

(** The bytes [canonicalSha256] hashes. *)
Definition canonical_bytes (v : json) : list Z := utf8_encode (stringify (sort_json v)).

(** Two successful constructions of a payload whose digests collide. *)
Definition colliding {I} (payload : I -> result json) (a b : I) : Prop :=
  exists v w, payload a = Ok v /\ payload b = Ok w /\
    collision (canonical_bytes v) (canonical_bytes w).

Lemma canonicalSha256_plain v w h :
  json_plain v = true -> json_plain w = true ->
  canonicalSha256 v = Ok h -> canonicalSha256 w = Ok h ->
  sort_json v = sort_json w \/ collision (canonical_bytes v) (canonical_bytes w).
Proof.
  intros Hv Hw Ev Ew.
  assert (forall u, canonicalSha256 u = Ok h -> json_ok 0 u = true) as Ho.
  { intros u. unfold canonicalSha256. intros (? & E & _)%fmap_ok. apply canonicalJson_ok in E. tauto. }
  eapply canonicalSha256_eq; eauto using plain_index, plain_ok_safe.
Qed.

Lemma canonical_bytes_text v t : json_plain v = true -> canonicalJson v = Ok t ->
  canonical_bytes v = utf8_encode t /\ canonicalSha256 v = Ok (sha256Hex t).
Proof.
  intros Hp Ht. unfold canonicalSha256. rewrite Ht. apply canonicalJson_ok in Ht as [_ ->].
  by rewrite (plain_index _ Hp).
Qed.

(** Members of two literals with the same names. *)
Lemma sort_json_obj_members l k :
  l.*1 = k.*1 -> NoDup l.*1 -> sort_json (JObj l) = sort_json (JObj k) ->
  map sort_member l = map sort_member k.
Proof.
  intros Ek Hl E. assert (NoDup k.*1) as Hk by by rewrite <- Ek.
  pose proof (fun key => sort_json_obj_get l k key Hl Hk E) as Hg. clear E.
  revert k Ek Hk Hg. induction l as [|[a x] l IH]; intros [|[b y] k]; try done.
  cbn. intros [= -> Ek] Hk Hg. apply NoDup_cons in Hk as [Hb Hk], Hl as [_ Hl].
  pose proof (Hg b) as Hgb. cbn in Hgb. rewrite !decide_True in Hgb by done.
  injection Hgb as Hxy. f_equal; [unfold sort_member; cbn; by rewrite Hxy|].
  apply IH; [done..|]. intros key. destruct (decide (key = b)) as [->|Hn].
  - rewrite (proj2 (map_get_none k b) Hb), (proj2 (map_get_none l b)); [done|by rewrite Ek].
  - specialize (Hg key). cbn in Hg. by rewrite !decide_False in Hg by done.
Qed.

Lemma sort_json_arr l k : sort_json (JArr l) = sort_json (JArr k) -> map sort_json l = map sort_json k.
Proof. by intros [= ?]. Qed.

Lemma jstr_list_inj {A} (f : A -> json) l k :
  (forall a b, sort_json (f a) = sort_json (f b) -> a = b) ->
  map sort_json (map f l) = map sort_json (map f k) -> l = k.
Proof.
  intros Hf. revert k. induction l as [|a l IH]; intros [|b k]; try done.
  cbn. intros [= Ha Hl]. f_equal; auto.
Qed.

Lemma canonicalSha256_hex64 v h : canonicalSha256 v = Ok h -> is_hex64 h = true.
Proof.
  unfold canonicalSha256. intros (s & _ & ->)%fmap_ok. apply sha256Hex_hex64.
Qed.
End canonical.

(** RFC 8785, as the [canonicalize] package documents its encoding: members in
    code unit order, the scalars of JSON.stringify. *)
Class Rfc8785 `{Platform} := canonicalize_rfc8785 v :
  json_ok 0 v = true -> canonicalize v = stringify (sort_json v).

(** With it the two encoders agree and canonical text has one description. *)
Lemma canonicalJson_rfc `{Rfc8785} v s :
  canonicalJson v = Ok s <-> json_ok 0 v = true /\ s = stringify (sort_json v).
Proof.
  rewrite canonicalJson_ok. split; intros [Hv ->]; (split; [done|]);
    destruct (has_index_key v); auto using canonicalize_rfc8785. symmetry. auto using canonicalize_rfc8785.
Qed.

Lemma canonicalSha256_rfc `{Rfc8785} v w h :
  json_safe v = true -> json_safe w = true -> canonicalSha256 v = Ok h -> canonicalSha256 w = Ok h ->
  sort_json v = sort_json w \/ collision (canonical_bytes v) (canonical_bytes w).
Proof.
  intros Sv Sw Hv Hw. unfold canonicalSha256 in *.
  apply fmap_ok in Hv as (t & Tv & Hv), Hw as (u & Tw & Hw).
  apply canonicalJson_rfc in Tv as [_ ->], Tw as [_ ->]. rewrite Hv in Hw. unfold canonical_bytes.
  apply sha256Hex_eq in Hw as [E|E];
    [left; apply stringify_inj in E; [done|by rewrite sort_json_safe..]|by right
    |apply stringify_well_formed; by rewrite sort_json_safe..].
Qed.

(** From [E], equality of the sorted copies of two literals with the same
    names, the equality of every member. *)
Ltac same_members E :=
  apply sort_json_obj_members in E;
  [|reflexivity|apply (bool_decide_unpack _); vm_compute; exact I];
  cbn [map sort_member fst snd] in E; injection E as E.
