(* ===== verification/Schemas.v ===== *)
(** * Scalar schemas

    lib/contracts/src/schemas.ts: UUIDv7 identifiers, SHA-256 digests, RFC 3339
    UTC timestamps and the integer ranges, as decidable predicates on strings
    and numbers. [parse] of a schema returns its input or throws [ZodError].
    Inputs of an object schema are records, so the missing, unknown and
    ill-typed properties that [z.object(..).strict()] rejects are not
    representable; the refinements are what the predicates state. *)

From stdpp Require Import base numbers sorting strings list.
From Stdlib Require Import Lia.
From S2P Require Import Prelude JsString Encoding JsNumber Json JsonParse JsonCanon.

Local Open Scope Z_scope.

(** [schema.parse(value)] for a schema that is a test. *)
Definition parse {A} (schema : string) (test : A -> bool) (value : A) : result A :=
  if test value then Ok value else Throw (ZodError schema).

Lemma parse_ok {A} schema (test : A -> bool) value v :
  parse schema test value = Ok v <-> v = value /\ test value = true.
Proof. unfold parse. destruct (test value); split; naive_solver. Qed.

Definition is_char (c d : Z) : bool := d =? c.

(** The pattern of a canonical lowercase UUIDv7. *)
Definition uuid_v7_units : list (Z -> bool) :=
  replicate 8 is_hex ++ [is_char 45] ++ replicate 4 is_hex ++ [is_char 45]
  ++ [is_char 55] ++ replicate 3 is_hex ++ [is_char 45]
  ++ [fun c => (c =? 56) || (c =? 57) || (c =? 97) || (c =? 98)] ++ replicate 3 is_hex
  ++ [is_char 45] ++ replicate 12 is_hex.

Definition is_uuid_v7 (s : jsstr) : bool := match_units uuid_v7_units s.

Definition UuidV7Schema (s : jsstr) : result jsstr := parse "UuidV7" is_uuid_v7 s.
Definition Sha256HexSchema (s : jsstr) : result jsstr := parse "Sha256Hex" is_hex64 s.

(** ** Timestamps *)

Definition leap_year (y : Z) : bool :=
  ((y mod 4 =? 0) && negb (y mod 100 =? 0)) || (y mod 400 =? 0).

Definition days_in_month (y m : Z) : Z :=
  if m =? 2 then (if leap_year y then 29 else 28)
  else if (m =? 4) || (m =? 6) || (m =? 9) || (m =? 11) then 30 else 31.

(** [YYYY-MM-DDTHH:MM:SS] *)
Definition datetime_units : list (Z -> bool) :=
  replicate 4 is_digit ++ [is_char 45] ++ replicate 2 is_digit ++ [is_char 45]
  ++ replicate 2 is_digit ++ [is_char 84] ++ replicate 2 is_digit ++ [is_char 58]
  ++ replicate 2 is_digit ++ [is_char 58] ++ replicate 2 is_digit.

Definition field (from len : nat) (s : jsstr) : Z := undec (take len (drop from s)).

(** The components name a calendar instant; this is what comparing
    [toISOString()] with the text establishes. *)
Definition real_instant (s : jsstr) : bool :=
  let y := field 0 4 s in let mo := field 5 2 s in
  in_range 1 12 mo && in_range 1 (days_in_month y mo) (field 8 2 s)
  && (field 11 2 s <=? 23) && (field 14 2 s <=? 59) && (field 17 2 s <=? 59).

(** What follows the seconds: [Z], or a point, one to six digits and [Z]. *)
Definition zulu_suffix (s : jsstr) : bool :=
  bool_decide (s = [90]) ||
  match s with
  | c :: t => (c =? 46) && class_len is_digit 1 6 (take (length t - 1) t)
              && bool_decide (drop (length t - 1) t = [90])
  | [] => false
  end.

Definition is_rfc3339_utc (s : jsstr) : bool :=
  match_units datetime_units (take 19 s) && zulu_suffix (drop 19 s) && real_instant s.

Definition Rfc3339UtcSchema (s : jsstr) : result jsstr := parse "Rfc3339Utc" is_rfc3339_utc s.

Example rfc_ok : is_rfc3339_utc (js "2026-02-28T23:59:59.123456Z") = true.
Proof. vm_compute. reflexivity. Qed.
Example rfc_feb30 : is_rfc3339_utc (js "2026-02-30T00:00:00Z") = false.
Proof. vm_compute. reflexivity. Qed.
Example rfc_24h : is_rfc3339_utc (js "2026-02-28T24:00:00Z") = false.
Proof. vm_compute. reflexivity. Qed.

(** Days since 1970-01-01 of a proleptic Gregorian date, and
    [Date.parse(..)] of a whole-second UTC instant, in milliseconds. *)
Definition days_from_civil (y m d : Z) : Z :=
  let y' := if m <=? 2 then y - 1 else y in
  let era := y' / 400 in
  let yoe := y' - era * 400 in
  let mp := (m + 9) mod 12 in
  let doy := (153 * mp + 2) / 5 + d - 1 in
  let doe := yoe * 365 + yoe / 4 - yoe / 100 + doy in
  era * 146097 + doe - 719468.

Definition date_parse_ms (s : jsstr) : Z :=
  1000 * (86400 * days_from_civil (field 0 4 s) (field 5 2 s) (field 8 2 s)
          + 3600 * field 11 2 s + 60 * field 14 2 s + field 17 2 s).

Example epoch : date_parse_ms (js "1970-01-01T00:00:00") = 0.
Proof. vm_compute. reflexivity. Qed.
Example y2k_leap : date_parse_ms (js "2000-02-29T12:00:00") = 951825600000.
Proof. vm_compute. reflexivity. Qed.

(** ** Integers *)

(** [z.number().int().positive().safe()] and the voting weight range. *)
Definition is_safe_positive (z : Z) : bool := in_range 1 MAX_SAFE_INTEGER z.
Definition is_safe_nonnegative (z : Z) : bool := in_range 0 MAX_SAFE_INTEGER z.
Definition is_voting_weight (z : Z) : bool := in_range 1 1000000000 z.

(** ** Canonical strings: [canonicalString(minimum, maximum)] of
    governance.ts *)
Definition canonicalString `{Platform} (minimum maximum : Z) (s : jsstr) : bool :=
  in_range minimum maximum (js_length s) && is_ok (canonicalText s).

(** ** Scalars as JSON *)

Definition jopt {A} (f : A -> json) (o : option A) : json :=
  match o with Some a => f a | None => JNull end.

(** Properties of an object literal. *)
Definition str (key : string) (s : jsstr) : jsstr * json := (js key, JStr s).
Definition nullable (key : string) (o : option jsstr) : jsstr * json := (js key, jopt JStr o).
Definition bool_member (key : string) (b : bool) : jsstr * json := (js key, JBool b).
Definition int_member (key : string) (z : Z) : jsstr * json := (js key, jint z).

(** [value ?? null] of a parsed optional identifier. *)
Definition parse_nullable {A} (p : A -> result A) (o : option A) : result (option A) :=
  match o with None => Ok None | Some a => Some <$> p a end.

Lemma parse_nullable_ok {A} (p : A -> result A) o r :
  (forall a b, p a = Ok b -> b = a) -> parse_nullable p o = Ok r ->
  r = o /\ forall a, o = Some a -> p a = Ok a.
Proof.
  intros Hp. destruct o as [a|]; cbn; [|intros [= <-]; done].
  intros (b & Hb & ->)%fmap_ok. pose proof (Hp a b Hb) as ->. naive_solver.
Qed.

Lemma is_char_ascii c : in_range 0 127 c = true -> forall d, is_char c d = true -> in_range 0 127 d = true.
Proof. intros Hc d ->%Z.eqb_eq. done. Qed.

Lemma is_hex_ascii c : is_hex c = true -> in_range 0 127 c = true.
Proof.
  unfold is_hex, is_digit. rewrite orb_true_iff, !in_range_spec. lia.
Qed.

Lemma match_units_forall (p : Z -> bool) ps s :
  Forall (fun q => forall c, q c = true -> p c = true) ps ->
  match_units ps s = true -> forallb p s = true.
Proof.
  intros Hps. revert s; induction Hps as [|q ps Hq _ IH]; intros [|c s]; cbn; try done.
  intros [Hc Hs]%andb_true_iff. by rewrite (Hq c Hc), IH.
Qed.

Lemma uuid_ascii s : is_uuid_v7 s = true -> is_ascii s = true.
Proof.
  apply match_units_forall. unfold uuid_v7_units.
  repeat (apply Forall_app; split); try (apply Forall_replicate, is_hex_ascii);
    try (constructor; [by apply is_char_ascii|constructor]).
  constructor; [|constructor]. intros c. rewrite !orb_true_iff, !Z.eqb_eq.
  intros [[[-> | ->] | ->] | ->]; done.
Qed.

Lemma hex64_ascii s : is_hex64 s = true -> is_ascii s = true.
Proof.
  unfold is_hex64, class_len. intros [_ H]%andb_true_iff. unfold is_ascii.
  rewrite forallb_forall in *. intros c Hc. by apply is_hex_ascii, H.
Qed.

Lemma digit_ascii c : is_digit c = true -> in_range 0 127 c = true.
Proof. unfold is_digit. rewrite !in_range_spec. lia. Qed.

Lemma rfc3339_ascii s : is_rfc3339_utc s = true -> is_ascii s = true.
Proof.
  unfold is_rfc3339_utc. intros [[Hd Hz]%andb_true_iff _]%andb_true_iff.
  unfold is_ascii. rewrite <- (take_drop 19 s), forallb_app. apply andb_true_iff. split.
  - revert Hd. apply match_units_forall. unfold datetime_units.
    repeat (apply Forall_app; split); try (apply Forall_replicate, digit_ascii);
      constructor; [by apply is_char_ascii|constructor|by apply is_char_ascii|constructor
        |by apply is_char_ascii|constructor|by apply is_char_ascii|constructor
        |by apply is_char_ascii|constructor].
  - unfold zulu_suffix in Hz. apply orb_true_iff in Hz as [->%bool_decide_eq_true|Hz]; [done|].
    destruct (drop 19 s) as [|c t]; [done|].
    apply andb_true_iff in Hz as [[Hc%Z.eqb_eq Hg]%andb_true_iff Ht%bool_decide_eq_true].
    subst c. cbn. rewrite <- (take_drop (length t - 1) t), Ht, forallb_app. cbn.
    rewrite andb_true_r. unfold class_len in Hg. apply andb_true_iff in Hg as [_ Hg].
    rewrite forallb_forall in *. intros c Hc. by apply digit_ascii, Hg.
Qed.

Section unicode.
Context `{Platform}.

Lemma uuid_unicode s : is_uuid_v7 s = true -> unicode_ok s = true.
Proof. intros. by apply ascii_unicode_ok, uuid_ascii. Qed.
Lemma hex64_unicode s : is_hex64 s = true -> unicode_ok s = true.
Proof. intros. by apply ascii_unicode_ok, hex64_ascii. Qed.
Lemma rfc3339_unicode s : is_rfc3339_utc s = true -> unicode_ok s = true.
Proof. intros. by apply ascii_unicode_ok, rfc3339_ascii. Qed.

Lemma canonicalString_unicode lo hi s : canonicalString lo hi s = true -> unicode_ok s = true.
Proof.
  unfold canonicalString. intros [_ (t & Ht)%is_ok_true]%andb_true_iff.
  apply canonicalText_ok in Ht. tauto.
Qed.
End unicode.

#[export] Hint Resolve uuid_unicode hex64_unicode rfc3339_unicode canonicalString_unicode : jsdb.

Lemma jopt_inj {A} (f : A -> json) o p :
  (forall a, sort_json (f a) <> JNull) ->
  (forall a b, sort_json (f a) = sort_json (f b) -> a = b) ->
  sort_json (jopt f o) = sort_json (jopt f p) -> o = p.
Proof.
  intros Hn Hf. destruct o as [a|], p as [b|]; cbn; intros E; try done.
  - by apply Hf in E as ->.
  - by destruct (Hn a).
  - by destruct (Hn b).
Qed.

Lemma jopt_str_inj o p : sort_json (jopt JStr o) = sort_json (jopt JStr p) -> o = p.
Proof. apply jopt_inj; [done|]. by intros a b [= ->]. Qed.

Lemma jopt_plain {A} (f : A -> json) o :
  (forall a, json_plain (f a) = true) -> json_plain (jopt f o) = true.
Proof. by destruct o; cbn. Qed.

Lemma nullable_plain o : json_plain (jopt JStr o) = true.
Proof. by apply jopt_plain. Qed.

Lemma obj_plain l : bool_decide (NoDup l.*1) = true ->
  Forall (fun kv : jsstr * json => is_index_key kv.1 = false /\ json_plain kv.2 = true) l ->
  json_plain (JObj l) = true.
Proof.
  intros Hd Hl. cbn [json_plain]. rewrite Hd. cbn [andb]. apply forallb_forall. intros [k v] Hx.
  rewrite List.Forall_forall in Hl. destruct (Hl _ Hx) as [Hk Hv]. cbn [fst snd] in Hk, Hv. by rewrite Hk, Hv.
Qed.

Lemma arr_plain {A} (f : A -> json) l : (forall a, In a l -> json_plain (f a) = true) ->
  json_plain (JArr (map f l)) = true.
Proof. intros Hf. cbn [json_plain]. rewrite forallb_map. by apply forallb_forall. Qed.

Lemma safe_positive z : is_safe_positive z = true -> json_plain (jint z) = true.
Proof.
  unfold is_safe_positive. intros Hz%in_range_spec. cbn [json_plain jint]. apply safe_Z_spec.
  unfold MAX_SAFE_INTEGER in *. lia.
Qed.

(** Solves the shape of a literal; leaves the members that are not scalar. *)
Ltac obj_plain :=
  apply obj_plain; [vm_compute; reflexivity|];
  repeat (apply List.Forall_cons; [split; [vm_compute; reflexivity|cbn [snd str nullable bool_member int_member];
    lazymatch goal with
    | |- json_plain (JStr _) = true => reflexivity
    | |- json_plain (JBool _) = true => reflexivity
    | |- json_plain (jopt JStr _) = true => apply nullable_plain
    | |- _ => idtac
    end]|]); try apply List.Forall_nil.

(** The same for what the canonical encoder accepts. *)
Section acceptable.
Context `{Platform}.

Lemma obj_ok d l : Nat.ltb d MAX_JSON_CONTAINER_DEPTH = true ->
  Forall (fun kv : jsstr * json => is_ascii kv.1 = true /\ json_ok (S d) kv.2 = true) l ->
  json_ok d (JObj l) = true.
Proof.
  intros Hd Hl. cbn [json_ok]. rewrite Hd. cbn [andb]. apply forallb_forall. intros [k v] Hx.
  rewrite List.Forall_forall in Hl. destruct (Hl _ Hx) as [Hk Hv]. cbn [fst snd] in *.
  by rewrite ascii_unicode_ok.
Qed.

Lemma obj_safe l : bool_decide (NoDup l.*1) = true ->
  Forall (fun kv : jsstr * json => is_ascii kv.1 = true /\ json_safe kv.2 = true) l ->
  json_safe (JObj l) = true.
Proof.
  intros Hd Hl. cbn [json_safe]. rewrite Hd. cbn [andb]. apply forallb_forall. intros [k v] Hx.
  rewrite List.Forall_forall in Hl. destruct (Hl _ Hx) as [Hk Hv]. cbn [fst snd] in *.
  by rewrite ascii_unicode_ok.
Qed.

Lemma arr_ok {A} d (f : A -> json) l : Nat.ltb d MAX_JSON_CONTAINER_DEPTH = true ->
  (forall a, In a l -> json_ok (S d) (f a) = true) -> json_ok d (JArr (map f l)) = true.
Proof. intros Hd Hf. cbn [json_ok]. rewrite Hd, forallb_map. cbn [andb]. by apply forallb_forall. Qed.

Lemma jopt_ok {A} d (f : A -> json) o : (forall a, o = Some a -> json_ok d (f a) = true) ->
  json_ok d (jopt f o) = true.
Proof. destruct o as [a|]; cbn [jopt]; auto. Qed.

Lemma canonicalSha256_is_ok v : is_ok (canonicalSha256 v) = json_ok 0 v.
Proof.
  apply eq_true_iff_eq. rewrite is_ok_true. unfold canonicalSha256. split.
  - intros (h & (s & Hs & _)%fmap_ok). apply canonicalJson_ok in Hs. tauto.
  - intros Ho. eexists. apply fmap_ok. eexists. split; [|done]. apply canonicalJson_ok. by split.
Qed.

Lemma canonicalSha256_some v : json_ok 0 v = true -> exists h, canonicalSha256 v = Ok h.
Proof. intros Ho. by apply is_ok_true; rewrite canonicalSha256_is_ok. Qed.
End acceptable.

Ltac obj_ok :=
  apply obj_ok; [first [reflexivity|done]|];
  repeat (apply List.Forall_cons; [split; [vm_compute; reflexivity|cbn [snd str nullable bool_member int_member];
    lazymatch goal with
    | |- json_ok _ (JStr _) = true => cbn [json_ok]; eauto with jsdb
    | |- json_ok _ (JBool _) = true => reflexivity
    | |- json_ok _ (jint _) = true => reflexivity
    | |- _ => idtac
    end]|]); try apply List.Forall_nil.

Ltac obj_safe :=
  apply obj_safe; [vm_compute; reflexivity|];
  repeat (apply List.Forall_cons; [split; [vm_compute; reflexivity|cbn [snd str nullable bool_member int_member];
    lazymatch goal with
    | |- json_safe (JStr _) = true => cbn [json_safe]; eauto with jsdb
    | |- json_safe (JBool _) = true => reflexivity
    | |- _ => idtac
    end]|]); try apply List.Forall_nil.

(** ** When a chain of parsers and guards succeeds

    Each step either returns its argument or throws, so success of the chain is
    a conjunction of tests. *)

Create Rewrite HintDb okrw.

Section success.
Context `{Platform} {B : Type}.

Lemma is_ok_bind {A} (m : result A) a (k : A -> result B) :
  (forall b, m = Ok b -> b = a) -> is_ok (m ≫= k) = is_ok m && is_ok (k a).
Proof. destruct m as [b|e]; cbn; [|done]. intros Hb. by rewrite (Hb b). Qed.

Lemma is_ok_uuid s (k : jsstr -> result B) :
  is_ok (UuidV7Schema s ≫= k) = is_uuid_v7 s && is_ok (k s).
Proof. unfold UuidV7Schema, parse. by destruct (is_uuid_v7 s). Qed.
Lemma is_ok_hex64 s (k : jsstr -> result B) :
  is_ok (Sha256HexSchema s ≫= k) = is_hex64 s && is_ok (k s).
Proof. unfold Sha256HexSchema, parse. by destruct (is_hex64 s). Qed.
Lemma is_ok_rfc3339 s (k : jsstr -> result B) :
  is_ok (Rfc3339UtcSchema s ≫= k) = is_rfc3339_utc s && is_ok (k s).
Proof. unfold Rfc3339UtcSchema, parse. by destruct (is_rfc3339_utc s). Qed.
Lemma is_ok_text s (k : jsstr -> result B) :
  is_ok (canonicalText s ≫= k) = is_ok (canonicalText s) && is_ok (k s).
Proof. apply is_ok_bind. by intros b [-> _]%canonicalText_ok. Qed.
Lemma is_ok_throw_if b e (k : unit -> result B) :
  is_ok (throw_if b e ≫= k) = negb b && is_ok (k tt).
Proof. by destruct b. Qed.

Definition opt_all {A} (p : A -> bool) (o : option A) : bool :=
  match o with Some a => p a | None => true end.

Lemma is_ok_nullable {A} (p : A -> result A) o (k : option A -> result B) :
  (forall a b, p a = Ok b -> b = a) ->
  is_ok (parse_nullable p o ≫= k) = opt_all (fun a => is_ok (p a)) o && is_ok (k o).
Proof.
  intros Hp. destruct o as [a|]; [|done]. cbn. destruct (p a) as [b|e] eqn:E; [|done].
  cbn. by rewrite (Hp a b E).
Qed.

Lemma is_ok_nullable_uuid o (k : option jsstr -> result B) :
  is_ok (parse_nullable UuidV7Schema o ≫= k) = opt_all is_uuid_v7 o && is_ok (k o).
Proof.
  rewrite is_ok_nullable by by intros a b [-> _]%parse_ok. f_equal.
  destruct o as [a|]; [|done]. cbn [opt_all]. unfold UuidV7Schema, parse. by destruct (is_uuid_v7 a).
Qed.
Lemma is_ok_nullable_rfc3339 o (k : option jsstr -> result B) :
  is_ok (parse_nullable Rfc3339UtcSchema o ≫= k) = opt_all is_rfc3339_utc o && is_ok (k o).
Proof.
  rewrite is_ok_nullable by by intros a b [-> _]%parse_ok. f_equal.
  destruct o as [a|]; [|done]. cbn [opt_all]. unfold Rfc3339UtcSchema, parse. by destruct (is_rfc3339_utc a).
Qed.
Lemma is_ok_nullable_text o (k : option jsstr -> result B) :
  is_ok (parse_nullable canonicalText o ≫= k)
  = opt_all (fun s => is_ok (canonicalText s)) o && is_ok (k o).
Proof. apply is_ok_nullable. by intros a b [-> _]%canonicalText_ok. Qed.
End success.

#[export] Hint Rewrite @is_ok_uuid @is_ok_hex64 @is_ok_rfc3339 @is_ok_text @is_ok_throw_if
  @is_ok_nullable_uuid @is_ok_nullable_rfc3339 @is_ok_nullable_text : okrw.

Lemma text_unicode `{Platform} s : is_ok (canonicalText s) = true -> unicode_ok s = true.
Proof. intros (t & Ht)%is_ok_true. apply canonicalText_ok in Ht. tauto. Qed.
#[export] Hint Resolve text_unicode : jsdb.

(** A platform to evaluate concrete inputs on: every string they contain is
    its own NFC form and no object has integer-index names. *)
Definition plain_platform : Platform :=
  {| nfc := fun s => s; canonicalize := fun v => stringify (sort_json v) |}.
Definition plain_rfc8785 : @Rfc8785 plain_platform := fun _ _ => eq_refl.

(** Splits a successful run of schema parsing into the tests that passed. *)
Ltac inv_parse :=
  repeat (inv_ok; match goal with
  | H : UuidV7Schema _ = Ok _ |- _ => apply parse_ok in H as [? H]
  | H : Sha256HexSchema _ = Ok _ |- _ => apply parse_ok in H as [? H]
  | H : Rfc3339UtcSchema _ = Ok _ |- _ => apply parse_ok in H as [? H]
  | H : parse _ _ _ = Ok _ |- _ => apply parse_ok in H as [? H]
  | H : canonicalText _ = Ok _ |- _ => apply canonicalText_ok in H as (? & ? & ? & H)
  end); inv_ok; subst.

(** From [E], equality of the sorted copies of two object literals, the
    equality of their fields named [key]. *)
Ltac same_field E key :=
  let F := fresh "F" in
  pose proof (sort_json_obj_get _ _ (js key)
    ltac:(apply (bool_decide_unpack _); vm_compute; exact I)
    ltac:(apply (bool_decide_unpack _); vm_compute; exact I) E) as F;
  vm_compute in F; injection F as F.
