(* ===== verification/StateMachines.v ===== *)
(** * Lifecycle state machines

    lib/domain/src/state-machines.ts: the transition tables of every governed
    object, [transitionAllowed] and [assertTransition]. The theory is stated
    once for any table: runs of asserted transitions, reachability as a step
    relation, invariants by closed sets and dominators by closed sets that
    avoid a state. The per-machine facts are then evaluated. *)

From stdpp Require Import base numbers sorting strings list relations.
From Stdlib Require Import Lia.
From S2P Require Import Prelude JsString.

(** ** Tables and their theory *)

Abbreviation TransitionTable St := (St -> list St).

(** The names of the states of a machine ([S extends string]). *)
Class States (St : Type) := {
  all_states : list St;
  state_name : St -> string;
  all_states_complete : forall s, s ∈ all_states
}.

Ltac all_complete := intros []; solve [repeat (first [left; reflexivity | right])].

(** [table[current].includes(next)] *)
Definition transitionAllowed `{EqDecision St} (table : TransitionTable St) (current next : St) : bool :=
  bool_decide (next ∈ table current).

Definition assertTransition `{EqDecision St, States St} (table : TransitionTable St)
    (current next : St) : result unit :=
  throw_if (negb (transitionAllowed table current next))
    (JsError "invalid transition" [js (state_name current); js (state_name next)]).

(** A history: each requested state is asserted and then becomes current. *)
Definition run `{EqDecision St, States St} (table : TransitionTable St) (s : St) (path : list St)
    : result St :=
  forM (fun cur next => assertTransition table cur next ≫= fun _ => Ok next) s path.

Section theory.
Context `{EqDecision St, States St}.
Implicit Types (table : TransitionTable St) (s t x : St) (path C : list St).

Definition step table s t : Prop := t ∈ table s.

Lemma assertTransition_ok table s t u : assertTransition table s t = Ok u <-> step table s t.
Proof.
  unfold assertTransition, transitionAllowed, step. rewrite throw_if_ok, negb_false_iff.
  apply bool_decide_eq_true.
Qed.

Lemma run_cons table s n path t :
  run table s (n :: path) = Ok t <-> step table s n /\ run table n path = Ok t.
Proof.
  unfold run. cbn [forM]. rewrite bind_ok. split.
  - intros (s' & (u & Ha & [= <-])%bind_ok & Hr). by apply assertTransition_ok in Ha.
  - intros [Hs Hr]. exists n. split; [|done].
    by rewrite (proj2 (assertTransition_ok table s n tt) Hs).
Qed.

Lemma run_nil table s t : run table s [] = Ok t <-> s = t.
Proof. unfold run. cbn. split; [by intros [= ->]|by intros ->]. Qed.

(** Runs and reachability are the same. *)
Lemma run_reach table s t :
  (exists path, run table s path = Ok t) <-> rtc (step table) s t.
Proof.
  split.
  - intros [path Hr]. revert s Hr. induction path as [|n path IH]; intros s.
    + intros ->%run_nil. constructor.
    + intros [Hs Hr]%run_cons. econstructor; [exact Hs|by apply IH].
  - induction 1 as [s|s n t Hs _ [path Hr]]; [by exists []; apply run_nil|].
    exists (n :: path). by apply run_cons.
Qed.

Lemma run_terminal table s path t :
  table s = [] -> run table s path = Ok t -> path = [] /\ t = s.
Proof.
  intros Ht. destruct path as [|n path]; [by intros ->%run_nil|].
  intros [Hs _]%run_cons. unfold step in Hs. rewrite Ht in Hs. by apply elem_of_nil in Hs.
Qed.

(** A terminal state is visited only as the last one. *)
Lemma run_avoids_terminal table s path t x :
  run table s path = Ok t -> x ∈ path -> table x = [] -> t = x.
Proof.
  revert s. induction path as [|n path IH]; intros s; [by intros _ ?%elem_of_nil|].
  intros [Hn Hr]%run_cons [->|Hx]%elem_of_cons Ht; [|by eapply IH].
  by apply run_terminal in Hr as [_ ->].
Qed.

Lemma run_snoc table s path n t :
  run table s (path ++ [n]) = Ok t <->
  exists m, run table s path = Ok m /\ step table m n /\ t = n.
Proof.
  unfold run. rewrite forM_app, bind_ok. split.
  - intros (m & Hm & (s' & (u & Ha & [= <-])%bind_ok & [= <-])%bind_ok).
    apply assertTransition_ok in Ha. by exists m.
  - intros (m & Hm & Hs & ->). exists m. split; [done|].
    change (forM _ m [n]) with (run table m [n]). apply run_cons.
    split; [done|by apply run_nil].
Qed.

(** If a state has a single predecessor, which is not the start, a history
    that reaches it ends in that predecessor followed by it. *)
Lemma run_last_two table s x t path :
  s <> t -> s <> x -> (forall p, step table p t -> p = x) -> run table s path = Ok t ->
  exists before, path = before ++ [x; t].
Proof.
  intros Hst Hsx Hpred Hr. destruct path as [|n path _] using rev_ind.
  { by apply run_nil in Hr. }
  apply run_snoc in Hr as (m & Hm & Hs & ->). apply Hpred in Hs as ->.
  destruct path as [|y path _] using rev_ind; [by apply run_nil in Hm|].
  apply run_snoc in Hm as (m' & _ & _ & ->). exists path. by rewrite <- app_assoc.
Qed.

Definition closed table C : bool :=
  forallb (fun s => forallb (fun t => bool_decide (t ∈ C)) (table s)) C.

Lemma closed_step table C s t : closed table C = true -> s ∈ C -> step table s t -> t ∈ C.
Proof.
  unfold closed. rewrite forallb_forall. intros Hc Hs%list_elem_of_In Ht%list_elem_of_In.
  specialize (Hc s Hs). rewrite forallb_forall in Hc. by apply Hc, bool_decide_eq_true in Ht.
Qed.

Lemma closed_run table C s path t :
  closed table C = true -> s ∈ C -> run table s path = Ok t -> t ∈ C /\ Forall (.∈ C) path.
Proof.
  intros Hc. revert s. induction path as [|n path IH]; intros s Hs.
  - by intros ->%run_nil.
  - intros [Hn Hr]%run_cons. pose proof (closed_step _ _ _ _ Hc Hs Hn) as Hn'.
    destruct (IH n Hn' Hr). split; [done|]. by constructor.
Qed.

(** The table without the row of [x]: runs that stop at [x]. *)
Definition without table x : TransitionTable St := fun s => if decide (s = x) then [] else table s.

(** If a set contains the start, is closed except at [x] and misses the
    target, every run to the target visits [x]. *)
Lemma run_dominator table x C s path t :
  closed (without table x) C = true -> s ∈ C -> t ∉ C ->
  run table s path = Ok t -> s = x \/ x ∈ path.
Proof.
  intros Hc. revert s. induction path as [|n path IH]; intros s Hs Ht.
  - by intros ->%run_nil.
  - intros [Hn Hr]%run_cons. destruct (decide (s = x)) as [->|Hne]; [by left|].
    right. assert (n ∈ C) as Hn'.
    { eapply closed_step; [exact Hc|exact Hs|]. unfold step, without. by case_decide. }
    destruct (IH n Hn' Ht Hr) as [->|Hx]; [by left|by right].
Qed.

(** States reachable in at most [n] rounds. *)
Fixpoint reach_set (n : nat) table C : list St :=
  match n with
  | O => C
  | S n' => reach_set n' table (remove_dups (C ++ C ≫= table))
  end.

Lemma reach_set_sound n table C t :
  t ∈ reach_set n table C -> exists s, s ∈ C /\ rtc (step table) s t.
Proof.
  revert C; induction n as [|n IH]; intros C; cbn.
  - intros Ht. exists t. split; [done|constructor].
  - intros (s & Hs & Hr)%IH. apply elem_of_remove_dups, elem_of_app in Hs as [Hs|Hs].
    + by exists s.
    + apply list_elem_of_bind in Hs as (y & Hs & Hy). exists y. split; [done|].
      by econstructor.
Qed.

Definition all_reachable table init : bool :=
  forallb (fun s => bool_decide (s ∈ reach_set (length all_states) table [init])) all_states.

Definition can_end table s : bool :=
  existsb (fun t => bool_decide (table t = [])) (reach_set (length all_states) table [s]).

(** A table without dead states or traps. *)
Definition live table init : Prop :=
  forall s, rtc (step table) init s /\ exists t, rtc (step table) s t /\ table t = [].

Lemma all_reachable_sound table init s :
  all_reachable table init = true -> rtc (step table) init s.
Proof.
  unfold all_reachable. rewrite forallb_forall. intros Ha.
  specialize (Ha s (proj1 (list_elem_of_In _ _) (all_states_complete s))).
  apply bool_decide_eq_true, reach_set_sound in Ha as (i & ->%list_elem_of_singleton & Hr). done.
Qed.

Lemma live_check table init :
  all_reachable table init && forallb (can_end table) all_states = true -> live table init.
Proof.
  intros [Ha Hc]%andb_true_iff s. split; [by apply all_reachable_sound|].
  rewrite forallb_forall in Hc.
  specialize (Hc s (proj1 (list_elem_of_In _ _) (all_states_complete s))).
  unfold can_end in Hc. apply existsb_exists in Hc as (t & Ht & He%bool_decide_eq_true).
  apply list_elem_of_In, reach_set_sound in Ht as (i & ->%list_elem_of_singleton & Hr).
  by exists t.
Qed.

(** A start whose successors are all terminal is used at most once. *)
Lemma one_shot table s path t :
  forallb (fun n => bool_decide (table n = [])) (table s) = true ->
  run table s path = Ok t -> (length path <= 1)%nat.
Proof.
  intros Hs. destruct path as [|n path]; [cbn; lia|]. intros [Hn Hr]%run_cons.
  rewrite forallb_forall in Hs. apply list_elem_of_In, Hs, bool_decide_eq_true in Hn.
  apply run_terminal in Hr as [-> _]; [cbn; lia|done].
Qed.
End theory.

(** ** The tables *)

Inductive InstanceState : Set :=
  | InstanceState_absent
  | InstanceState_active.

#[export] Instance InstanceState_eq_dec : EqDecision InstanceState.
Proof. solve_decision. Defined.

#[export] Instance InstanceState_states : States InstanceState := {
  all_states := [InstanceState_absent; InstanceState_active];
  state_name s := match s with
    | InstanceState_absent => "absent"
    | InstanceState_active => "active"
    end;
  all_states_complete := ltac:(all_complete) }.

Definition instanceTransitions : TransitionTable InstanceState := fun s =>
  match s with
  | InstanceState_absent => [InstanceState_active]
  | InstanceState_active => []
  end.

Inductive MemberState : Set :=
  | MemberState_invited
  | MemberState_enrollment_pending
  | MemberState_pending_activation
  | MemberState_active
  | MemberState_suspended
  | MemberState_removed.

#[export] Instance MemberState_eq_dec : EqDecision MemberState.
Proof. solve_decision. Defined.

#[export] Instance MemberState_states : States MemberState := {
  all_states := [MemberState_invited; MemberState_enrollment_pending; MemberState_pending_activation; MemberState_active; MemberState_suspended; MemberState_removed];
  state_name s := match s with
    | MemberState_invited => "invited"
    | MemberState_enrollment_pending => "enrollment_pending"
    | MemberState_pending_activation => "pending_activation"
    | MemberState_active => "active"
    | MemberState_suspended => "suspended"
    | MemberState_removed => "removed"
    end;
  all_states_complete := ltac:(all_complete) }.

Definition memberTransitions : TransitionTable MemberState := fun s =>
  match s with
  | MemberState_invited => [MemberState_enrollment_pending; MemberState_removed]
  | MemberState_enrollment_pending => [MemberState_pending_activation; MemberState_removed]
  | MemberState_pending_activation => [MemberState_active; MemberState_removed]
  | MemberState_active => [MemberState_suspended; MemberState_removed]
  | MemberState_suspended => [MemberState_active; MemberState_removed]
  | MemberState_removed => []
  end.

Inductive BoardState : Set :=
  | BoardState_active
  | BoardState_archived.

#[export] Instance BoardState_eq_dec : EqDecision BoardState.
Proof. solve_decision. Defined.

#[export] Instance BoardState_states : States BoardState := {
  all_states := [BoardState_active; BoardState_archived];
  state_name s := match s with
    | BoardState_active => "active"
    | BoardState_archived => "archived"
    end;
  all_states_complete := ltac:(all_complete) }.

Definition boardTransitions : TransitionTable BoardState := fun s =>
  match s with
  | BoardState_active => [BoardState_archived]
  | BoardState_archived => []
  end.

Inductive ConsumableState : Set :=
  | ConsumableState_issued
  | ConsumableState_consumed
  | ConsumableState_expired
  | ConsumableState_revoked.

#[export] Instance ConsumableState_eq_dec : EqDecision ConsumableState.
Proof. solve_decision. Defined.

#[export] Instance ConsumableState_states : States ConsumableState := {
  all_states := [ConsumableState_issued; ConsumableState_consumed; ConsumableState_expired; ConsumableState_revoked];
  state_name s := match s with
    | ConsumableState_issued => "issued"
    | ConsumableState_consumed => "consumed"
    | ConsumableState_expired => "expired"
    | ConsumableState_revoked => "revoked"
    end;
  all_states_complete := ltac:(all_complete) }.

Definition consumableTransitions : TransitionTable ConsumableState := fun s =>
  match s with
  | ConsumableState_issued => [ConsumableState_consumed; ConsumableState_expired; ConsumableState_revoked]
  | ConsumableState_consumed => []
  | ConsumableState_expired => []
  | ConsumableState_revoked => []
  end.

Inductive RefreshFamilyState : Set :=
  | RefreshFamilyState_active
  | RefreshFamilyState_revoked
  | RefreshFamilyState_compromised
  | RefreshFamilyState_expired.

#[export] Instance RefreshFamilyState_eq_dec : EqDecision RefreshFamilyState.
Proof. solve_decision. Defined.

#[export] Instance RefreshFamilyState_states : States RefreshFamilyState := {
  all_states := [RefreshFamilyState_active; RefreshFamilyState_revoked; RefreshFamilyState_compromised; RefreshFamilyState_expired];
  state_name s := match s with
    | RefreshFamilyState_active => "active"
    | RefreshFamilyState_revoked => "revoked"
    | RefreshFamilyState_compromised => "compromised"
    | RefreshFamilyState_expired => "expired"
    end;
  all_states_complete := ltac:(all_complete) }.

Definition refreshFamilyTransitions : TransitionTable RefreshFamilyState := fun s =>
  match s with
  | RefreshFamilyState_active => [RefreshFamilyState_revoked; RefreshFamilyState_compromised; RefreshFamilyState_expired]
  | RefreshFamilyState_revoked => []
  | RefreshFamilyState_compromised => []
  | RefreshFamilyState_expired => []
  end.

Inductive DocumentState : Set :=
  | DocumentState_active
  | DocumentState_archived
  | DocumentState_soft_deleted.

#[export] Instance DocumentState_eq_dec : EqDecision DocumentState.
Proof. solve_decision. Defined.

#[export] Instance DocumentState_states : States DocumentState := {
  all_states := [DocumentState_active; DocumentState_archived; DocumentState_soft_deleted];
  state_name s := match s with
    | DocumentState_active => "active"
    | DocumentState_archived => "archived"
    | DocumentState_soft_deleted => "soft_deleted"
    end;
  all_states_complete := ltac:(all_complete) }.

Definition documentTransitions : TransitionTable DocumentState := fun s =>
  match s with
  | DocumentState_active => [DocumentState_archived; DocumentState_soft_deleted]
  | DocumentState_archived => [DocumentState_soft_deleted]
  | DocumentState_soft_deleted => []
  end.

Inductive SubmissionState : Set :=
  | SubmissionState_submitted
  | SubmissionState_revision_requested
  | SubmissionState_resubmitted
  | SubmissionState_approved_to_draft
  | SubmissionState_rejected.

#[export] Instance SubmissionState_eq_dec : EqDecision SubmissionState.
Proof. solve_decision. Defined.

#[export] Instance SubmissionState_states : States SubmissionState := {
  all_states := [SubmissionState_submitted; SubmissionState_revision_requested; SubmissionState_resubmitted; SubmissionState_approved_to_draft; SubmissionState_rejected];
  state_name s := match s with
    | SubmissionState_submitted => "submitted"
    | SubmissionState_revision_requested => "revision_requested"
    | SubmissionState_resubmitted => "resubmitted"
    | SubmissionState_approved_to_draft => "approved_to_draft"
    | SubmissionState_rejected => "rejected"
    end;
  all_states_complete := ltac:(all_complete) }.

Definition submissionTransitions : TransitionTable SubmissionState := fun s =>
  match s with
  | SubmissionState_submitted => [SubmissionState_revision_requested; SubmissionState_approved_to_draft; SubmissionState_rejected]
  | SubmissionState_revision_requested => [SubmissionState_resubmitted; SubmissionState_rejected]
  | SubmissionState_resubmitted => [SubmissionState_revision_requested; SubmissionState_approved_to_draft; SubmissionState_rejected]
  | SubmissionState_approved_to_draft => []
  | SubmissionState_rejected => []
  end.

Inductive ManagementQuestionState : Set :=
  | ManagementQuestionState_pending
  | ManagementQuestionState_overdue
  | ManagementQuestionState_answered.

#[export] Instance ManagementQuestionState_eq_dec : EqDecision ManagementQuestionState.
Proof. solve_decision. Defined.

#[export] Instance ManagementQuestionState_states : States ManagementQuestionState := {
  all_states := [ManagementQuestionState_pending; ManagementQuestionState_overdue; ManagementQuestionState_answered];
  state_name s := match s with
    | ManagementQuestionState_pending => "pending"
    | ManagementQuestionState_overdue => "overdue"
    | ManagementQuestionState_answered => "answered"
    end;
  all_states_complete := ltac:(all_complete) }.

Definition managementQuestionTransitions : TransitionTable ManagementQuestionState := fun s =>
  match s with
  | ManagementQuestionState_pending => [ManagementQuestionState_overdue; ManagementQuestionState_answered]
  | ManagementQuestionState_overdue => [ManagementQuestionState_answered]
  | ManagementQuestionState_answered => [ManagementQuestionState_pending]
  end.

Inductive MeetingState : Set :=
  | MeetingState_draft
  | MeetingState_called
  | MeetingState_completed
  | MeetingState_cancelled.

#[export] Instance MeetingState_eq_dec : EqDecision MeetingState.
Proof. solve_decision. Defined.

#[export] Instance MeetingState_states : States MeetingState := {
  all_states := [MeetingState_draft; MeetingState_called; MeetingState_completed; MeetingState_cancelled];
  state_name s := match s with
    | MeetingState_draft => "draft"
    | MeetingState_called => "called"
    | MeetingState_completed => "completed"
    | MeetingState_cancelled => "cancelled"
    end;
  all_states_complete := ltac:(all_complete) }.

Definition meetingTransitions : TransitionTable MeetingState := fun s =>
  match s with
  | MeetingState_draft => [MeetingState_called; MeetingState_cancelled]
  | MeetingState_called => [MeetingState_called; MeetingState_completed; MeetingState_cancelled]
  | MeetingState_completed => []
  | MeetingState_cancelled => []
  end.

Inductive TranscriptState : Set :=
  | TranscriptState_unverified
  | TranscriptState_secretary_verified.

#[export] Instance TranscriptState_eq_dec : EqDecision TranscriptState.
Proof. solve_decision. Defined.

#[export] Instance TranscriptState_states : States TranscriptState := {
  all_states := [TranscriptState_unverified; TranscriptState_secretary_verified];
  state_name s := match s with
    | TranscriptState_unverified => "unverified"
    | TranscriptState_secretary_verified => "secretary_verified"
    end;
  all_states_complete := ltac:(all_complete) }.

Definition transcriptTransitions : TransitionTable TranscriptState := fun s =>
  match s with
  | TranscriptState_unverified => [TranscriptState_secretary_verified]
  | TranscriptState_secretary_verified => []
  end.

Inductive ChallengeState : Set :=
  | ChallengeState_pending
  | ChallengeState_accepted
  | ChallengeState_rejected.

#[export] Instance ChallengeState_eq_dec : EqDecision ChallengeState.
Proof. solve_decision. Defined.

#[export] Instance ChallengeState_states : States ChallengeState := {
  all_states := [ChallengeState_pending; ChallengeState_accepted; ChallengeState_rejected];
  state_name s := match s with
    | ChallengeState_pending => "pending"
    | ChallengeState_accepted => "accepted"
    | ChallengeState_rejected => "rejected"
    end;
  all_states_complete := ltac:(all_complete) }.

Definition challengeTransitions : TransitionTable ChallengeState := fun s =>
  match s with
  | ChallengeState_pending => [ChallengeState_accepted; ChallengeState_rejected]
  | ChallengeState_accepted => []
  | ChallengeState_rejected => []
  end.

Inductive MinutesState : Set :=
  | MinutesState_unpublished_draft
  | MinutesState_published_review
  | MinutesState_signature_ready
  | MinutesState_finalized
  | MinutesState_cancelled.

#[export] Instance MinutesState_eq_dec : EqDecision MinutesState.
Proof. solve_decision. Defined.

#[export] Instance MinutesState_states : States MinutesState := {
  all_states := [MinutesState_unpublished_draft; MinutesState_published_review; MinutesState_signature_ready; MinutesState_finalized; MinutesState_cancelled];
  state_name s := match s with
    | MinutesState_unpublished_draft => "unpublished_draft"
    | MinutesState_published_review => "published_review"
    | MinutesState_signature_ready => "signature_ready"
    | MinutesState_finalized => "finalized"
    | MinutesState_cancelled => "cancelled"
    end;
  all_states_complete := ltac:(all_complete) }.

Definition minutesTransitions : TransitionTable MinutesState := fun s =>
  match s with
  | MinutesState_unpublished_draft => [MinutesState_published_review; MinutesState_cancelled]
  | MinutesState_published_review => [MinutesState_published_review; MinutesState_signature_ready; MinutesState_cancelled]
  | MinutesState_signature_ready => [MinutesState_published_review; MinutesState_finalized; MinutesState_cancelled]
  | MinutesState_finalized => []
  | MinutesState_cancelled => []
  end.

Inductive ReviewItemState : Set :=
  | ReviewItemState_pending
  | ReviewItemState_accepted
  | ReviewItemState_rejected
  | ReviewItemState_withdrawn.

#[export] Instance ReviewItemState_eq_dec : EqDecision ReviewItemState.
Proof. solve_decision. Defined.

#[export] Instance ReviewItemState_states : States ReviewItemState := {
  all_states := [ReviewItemState_pending; ReviewItemState_accepted; ReviewItemState_rejected; ReviewItemState_withdrawn];
  state_name s := match s with
    | ReviewItemState_pending => "pending"
    | ReviewItemState_accepted => "accepted"
    | ReviewItemState_rejected => "rejected"
    | ReviewItemState_withdrawn => "withdrawn"
    end;
  all_states_complete := ltac:(all_complete) }.

Definition reviewItemTransitions : TransitionTable ReviewItemState := fun s =>
  match s with
  | ReviewItemState_pending => [ReviewItemState_accepted; ReviewItemState_rejected; ReviewItemState_withdrawn]
  | ReviewItemState_accepted => []
  | ReviewItemState_rejected => []
  | ReviewItemState_withdrawn => []
  end.

Inductive TaskState : Set :=
  | TaskState_draft
  | TaskState_open
  | TaskState_in_progress
  | TaskState_evidence_submitted
  | TaskState_completed
  | TaskState_cancelled
  | TaskState_superseded.

#[export] Instance TaskState_eq_dec : EqDecision TaskState.
Proof. solve_decision. Defined.

#[export] Instance TaskState_states : States TaskState := {
  all_states := [TaskState_draft; TaskState_open; TaskState_in_progress; TaskState_evidence_submitted; TaskState_completed; TaskState_cancelled; TaskState_superseded];
  state_name s := match s with
    | TaskState_draft => "draft"
    | TaskState_open => "open"
    | TaskState_in_progress => "in_progress"
    | TaskState_evidence_submitted => "evidence_submitted"
    | TaskState_completed => "completed"
    | TaskState_cancelled => "cancelled"
    | TaskState_superseded => "superseded"
    end;
  all_states_complete := ltac:(all_complete) }.

Definition taskTransitions : TransitionTable TaskState := fun s =>
  match s with
  | TaskState_draft => [TaskState_open; TaskState_cancelled; TaskState_superseded]
  | TaskState_open => [TaskState_in_progress; TaskState_evidence_submitted; TaskState_cancelled]
  | TaskState_in_progress => [TaskState_open; TaskState_evidence_submitted; TaskState_cancelled]
  | TaskState_evidence_submitted => [TaskState_open; TaskState_completed; TaskState_cancelled]
  | TaskState_completed => []
  | TaskState_cancelled => []
  | TaskState_superseded => []
  end.

Inductive ResignRequirementState : Set :=
  | ResignRequirementState_pending
  | ResignRequirementState_resolved.

#[export] Instance ResignRequirementState_eq_dec : EqDecision ResignRequirementState.
Proof. solve_decision. Defined.

#[export] Instance ResignRequirementState_states : States ResignRequirementState := {
  all_states := [ResignRequirementState_pending; ResignRequirementState_resolved];
  state_name s := match s with
    | ResignRequirementState_pending => "pending"
    | ResignRequirementState_resolved => "resolved"
    end;
  all_states_complete := ltac:(all_complete) }.

Definition resignRequirementTransitions : TransitionTable ResignRequirementState := fun s =>
  match s with
  | ResignRequirementState_pending => [ResignRequirementState_resolved]
  | ResignRequirementState_resolved => []
  end.

Inductive VoteState : Set :=
  | VoteState_draft
  | VoteState_open
  | VoteState_source_update_pending
  | VoteState_closing
  | VoteState_closed
  | VoteState_superseded
  | VoteState_cancelled.

#[export] Instance VoteState_eq_dec : EqDecision VoteState.
Proof. solve_decision. Defined.

#[export] Instance VoteState_states : States VoteState := {
  all_states := [VoteState_draft; VoteState_open; VoteState_source_update_pending; VoteState_closing; VoteState_closed; VoteState_superseded; VoteState_cancelled];
  state_name s := match s with
    | VoteState_draft => "draft"
    | VoteState_open => "open"
    | VoteState_source_update_pending => "source_update_pending"
    | VoteState_closing => "closing"
    | VoteState_closed => "closed"
    | VoteState_superseded => "superseded"
    | VoteState_cancelled => "cancelled"
    end;
  all_states_complete := ltac:(all_complete) }.

Definition voteTransitions : TransitionTable VoteState := fun s =>
  match s with
  | VoteState_draft => [VoteState_open; VoteState_cancelled]
  | VoteState_open => [VoteState_source_update_pending; VoteState_superseded; VoteState_closing; VoteState_cancelled]
  | VoteState_source_update_pending => [VoteState_open; VoteState_superseded; VoteState_cancelled]
  | VoteState_closing => [VoteState_closed]
  | VoteState_closed => []
  | VoteState_superseded => []
  | VoteState_cancelled => []
  end.

Inductive ProxyGrantState : Set :=
  | ProxyGrantState_active
  | ProxyGrantState_revoked
  | ProxyGrantState_expired
  | ProxyGrantState_superseded.

#[export] Instance ProxyGrantState_eq_dec : EqDecision ProxyGrantState.
Proof. solve_decision. Defined.

#[export] Instance ProxyGrantState_states : States ProxyGrantState := {
  all_states := [ProxyGrantState_active; ProxyGrantState_revoked; ProxyGrantState_expired; ProxyGrantState_superseded];
  state_name s := match s with
    | ProxyGrantState_active => "active"
    | ProxyGrantState_revoked => "revoked"
    | ProxyGrantState_expired => "expired"
    | ProxyGrantState_superseded => "superseded"
    end;
  all_states_complete := ltac:(all_complete) }.

Definition proxyGrantTransitions : TransitionTable ProxyGrantState := fun s =>
  match s with
  | ProxyGrantState_active => [ProxyGrantState_revoked; ProxyGrantState_expired; ProxyGrantState_superseded]
  | ProxyGrantState_revoked => []
  | ProxyGrantState_expired => []
  | ProxyGrantState_superseded => []
  end.

Inductive ConsentStageState : Set :=
  | ConsentStageState_active
  | ConsentStageState_replaced
  | ConsentStageState_confirmed
  | ConsentStageState_rejected
  | ConsentStageState_expired
  | ConsentStageState_cancelled.

#[export] Instance ConsentStageState_eq_dec : EqDecision ConsentStageState.
Proof. solve_decision. Defined.

#[export] Instance ConsentStageState_states : States ConsentStageState := {
  all_states := [ConsentStageState_active; ConsentStageState_replaced; ConsentStageState_confirmed; ConsentStageState_rejected; ConsentStageState_expired; ConsentStageState_cancelled];
  state_name s := match s with
    | ConsentStageState_active => "active"
    | ConsentStageState_replaced => "replaced"
    | ConsentStageState_confirmed => "confirmed"
    | ConsentStageState_rejected => "rejected"
    | ConsentStageState_expired => "expired"
    | ConsentStageState_cancelled => "cancelled"
    end;
  all_states_complete := ltac:(all_complete) }.

Definition consentStageTransitions : TransitionTable ConsentStageState := fun s =>
  match s with
  | ConsentStageState_active => [ConsentStageState_replaced; ConsentStageState_confirmed; ConsentStageState_rejected; ConsentStageState_expired; ConsentStageState_cancelled]
  | ConsentStageState_replaced => []
  | ConsentStageState_confirmed => []
  | ConsentStageState_rejected => []
  | ConsentStageState_expired => []
  | ConsentStageState_cancelled => []
  end.

Inductive WizardState : Set :=
  | WizardState_active
  | WizardState_ready_to_confirm
  | WizardState_posted
  | WizardState_expired
  | WizardState_cancelled.

#[export] Instance WizardState_eq_dec : EqDecision WizardState.
Proof. solve_decision. Defined.

#[export] Instance WizardState_states : States WizardState := {
  all_states := [WizardState_active; WizardState_ready_to_confirm; WizardState_posted; WizardState_expired; WizardState_cancelled];
  state_name s := match s with
    | WizardState_active => "active"
    | WizardState_ready_to_confirm => "ready_to_confirm"
    | WizardState_posted => "posted"
    | WizardState_expired => "expired"
    | WizardState_cancelled => "cancelled"
    end;
  all_states_complete := ltac:(all_complete) }.

Definition wizardTransitions : TransitionTable WizardState := fun s =>
  match s with
  | WizardState_active => [WizardState_ready_to_confirm; WizardState_expired; WizardState_cancelled]
  | WizardState_ready_to_confirm => [WizardState_posted; WizardState_expired; WizardState_cancelled]
  | WizardState_posted => []
  | WizardState_expired => []
  | WizardState_cancelled => []
  end.

Inductive ProfileState : Set :=
  | ProfileState_draft
  | ProfileState_active
  | ProfileState_superseded.

#[export] Instance ProfileState_eq_dec : EqDecision ProfileState.
Proof. solve_decision. Defined.

#[export] Instance ProfileState_states : States ProfileState := {
  all_states := [ProfileState_draft; ProfileState_active; ProfileState_superseded];
  state_name s := match s with
    | ProfileState_draft => "draft"
    | ProfileState_active => "active"
    | ProfileState_superseded => "superseded"
    end;
  all_states_complete := ltac:(all_complete) }.

Definition profileTransitions : TransitionTable ProfileState := fun s =>
  match s with
  | ProfileState_draft => [ProfileState_active]
  | ProfileState_active => [ProfileState_superseded]
  | ProfileState_superseded => []
  end.

Definition rulesetTransitions : TransitionTable ProfileState := profileTransitions.

Inductive ExportState : Set :=
  | ExportState_staged
  | ExportState_confirmed
  | ExportState_queued
  | ExportState_running
  | ExportState_succeeded
  | ExportState_failed
  | ExportState_expired
  | ExportState_deleted.

#[export] Instance ExportState_eq_dec : EqDecision ExportState.
Proof. solve_decision. Defined.

#[export] Instance ExportState_states : States ExportState := {
  all_states := [ExportState_staged; ExportState_confirmed; ExportState_queued; ExportState_running; ExportState_succeeded; ExportState_failed; ExportState_expired; ExportState_deleted];
  state_name s := match s with
    | ExportState_staged => "staged"
    | ExportState_confirmed => "confirmed"
    | ExportState_queued => "queued"
    | ExportState_running => "running"
    | ExportState_succeeded => "succeeded"
    | ExportState_failed => "failed"
    | ExportState_expired => "expired"
    | ExportState_deleted => "deleted"
    end;
  all_states_complete := ltac:(all_complete) }.

Definition exportTransitions : TransitionTable ExportState := fun s =>
  match s with
  | ExportState_staged => [ExportState_confirmed; ExportState_expired]
  | ExportState_confirmed => [ExportState_queued; ExportState_expired]
  | ExportState_queued => [ExportState_running; ExportState_failed; ExportState_expired]
  | ExportState_running => [ExportState_succeeded; ExportState_failed]
  | ExportState_succeeded => [ExportState_expired; ExportState_deleted]
  | ExportState_failed => []
  | ExportState_expired => [ExportState_deleted]
  | ExportState_deleted => []
  end.

Inductive JobState : Set :=
  | JobState_queued
  | JobState_leased
  | JobState_retry
  | JobState_succeeded
  | JobState_dead
  | JobState_cancelled.

#[export] Instance JobState_eq_dec : EqDecision JobState.
Proof. solve_decision. Defined.

#[export] Instance JobState_states : States JobState := {
  all_states := [JobState_queued; JobState_leased; JobState_retry; JobState_succeeded; JobState_dead; JobState_cancelled];
  state_name s := match s with
    | JobState_queued => "queued"
    | JobState_leased => "leased"
    | JobState_retry => "retry"
    | JobState_succeeded => "succeeded"
    | JobState_dead => "dead"
    | JobState_cancelled => "cancelled"
    end;
  all_states_complete := ltac:(all_complete) }.

Definition jobTransitions : TransitionTable JobState := fun s =>
  match s with
  | JobState_queued => [JobState_leased; JobState_cancelled]
  | JobState_leased => [JobState_succeeded; JobState_retry; JobState_dead; JobState_cancelled]
  | JobState_retry => [JobState_leased; JobState_dead; JobState_cancelled]
  | JobState_succeeded => []
  | JobState_dead => []
  | JobState_cancelled => []
  end.

(** ** The machines' guarantees *)

(** A vote becomes [closed] only by being opened and then passing through
    [closing]: every history from [draft] to [closed] visits [open] and
    [closing] and never [superseded] or [cancelled]. Once [closing] begins,
    the vote can no longer be cancelled or superseded: it can only close. *)
Theorem vote_closes_through_closing path :
  run voteTransitions VoteState_draft path = Ok VoteState_closed ->
  VoteState_open ∈ path /\ VoteState_closing ∈ path /\
  VoteState_superseded ∉ path /\ VoteState_cancelled ∉ path /\
  forall rest t, run voteTransitions VoteState_closing rest = Ok t ->
    t = VoteState_closing \/ t = VoteState_closed.
Proof.
  intros Hr. split_and!.
  - destruct (run_dominator voteTransitions VoteState_open
      [VoteState_draft; VoteState_open; VoteState_cancelled] VoteState_draft path
      VoteState_closed) as [|]; try done; set_solver.
  - destruct (run_dominator voteTransitions VoteState_closing
      [VoteState_draft; VoteState_open; VoteState_source_update_pending; VoteState_superseded;
       VoteState_closing; VoteState_cancelled] VoteState_draft path
      VoteState_closed) as [|]; try done; set_solver.
  - intros Hx. by apply (run_avoids_terminal _ _ _ _ _ Hr) in Hx.
  - intros Hx. by apply (run_avoids_terminal _ _ _ _ _ Hr) in Hx.
  - intros rest t Hc.
    apply (closed_run _ [VoteState_closing; VoteState_closed]) in Hc as [Hc _]; [|done|left].
    set_solver.
Qed.

Lemma vote_closes_through_closing_witness :
  VoteState_closing ∈ [VoteState_open; VoteState_source_update_pending; VoteState_open;
                       VoteState_closing; VoteState_closed].
Proof. apply vote_closes_through_closing. reflexivity. Defined.

(** Minutes are finalized only from [signature_ready]: a history from
    [unpublished_draft] that ends in [finalized] was published for review,
    and the state just before the end is [signature_ready]. *)
Theorem minutes_finalized_after_signatures path :
  run minutesTransitions MinutesState_unpublished_draft path = Ok MinutesState_finalized ->
  MinutesState_published_review ∈ path /\
  exists before, path = before ++ [MinutesState_signature_ready; MinutesState_finalized].
Proof.
  intros Hr. split.
  - destruct (run_dominator minutesTransitions MinutesState_published_review
      [MinutesState_unpublished_draft; MinutesState_published_review; MinutesState_cancelled]
      MinutesState_unpublished_draft path MinutesState_finalized) as [|]; try done; set_solver.
  - eapply run_last_two; [| | |exact Hr]; [done..|].
    intros []; unfold step; cbn; set_solver.
Qed.

Lemma minutes_finalized_after_signatures_witness :
  exists before : list MinutesState,
    [MinutesState_published_review; MinutesState_signature_ready;
     MinutesState_published_review; MinutesState_signature_ready; MinutesState_finalized]
    = before ++ [MinutesState_signature_ready; MinutesState_finalized].
Proof. apply minutes_finalized_after_signatures. reflexivity. Defined.

(** One-use authority: a staged confirmation, a consumable credential, a
    proxy grant, a review item and a transcript challenge each make at most one
    transition in their whole life; in particular a confirmed or consumed one
    is never used again. *)
Theorem one_use_objects :
  (forall path t, run consentStageTransitions ConsentStageState_active path = Ok t ->
     (length path <= 1)%nat) /\
  (forall path t, run consumableTransitions ConsumableState_issued path = Ok t ->
     (length path <= 1)%nat) /\
  (forall path t, run proxyGrantTransitions ProxyGrantState_active path = Ok t ->
     (length path <= 1)%nat) /\
  (forall path t, run reviewItemTransitions ReviewItemState_pending path = Ok t ->
     (length path <= 1)%nat) /\
  (forall path t, run challengeTransitions ChallengeState_pending path = Ok t ->
     (length path <= 1)%nat).
Proof. split_and!; intros path t; by apply one_shot. Qed.

(** No lifecycle has an unreachable state or a trap: in every table but the
    management questions', each state is reachable from the initial one and
    can still reach a state without successors. A management question never
    ends: from any of its states every state stays reachable. *)
Theorem lifecycles_live :
  live instanceTransitions InstanceState_absent /\ live memberTransitions MemberState_invited /\
  live boardTransitions BoardState_active /\ live consumableTransitions ConsumableState_issued /\
  live refreshFamilyTransitions RefreshFamilyState_active /\
  live documentTransitions DocumentState_active /\
  live submissionTransitions SubmissionState_submitted /\
  live meetingTransitions MeetingState_draft /\
  live transcriptTransitions TranscriptState_unverified /\
  live challengeTransitions ChallengeState_pending /\
  live minutesTransitions MinutesState_unpublished_draft /\
  live reviewItemTransitions ReviewItemState_pending /\ live taskTransitions TaskState_draft /\
  live resignRequirementTransitions ResignRequirementState_pending /\
  live voteTransitions VoteState_draft /\ live proxyGrantTransitions ProxyGrantState_active /\
  live consentStageTransitions ConsentStageState_active /\
  live wizardTransitions WizardState_active /\ live profileTransitions ProfileState_draft /\
  live rulesetTransitions ProfileState_draft /\ live exportTransitions ExportState_staged /\
  live jobTransitions JobState_queued /\
  (forall s t : ManagementQuestionState,
     rtc (step managementQuestionTransitions) s t).
Proof.
  split_and!; try (apply live_check; reflexivity).
  intros s t. apply all_reachable_sound. by destruct s.
Qed.
