(* ===== verification/SqlStates.v ===== *)
(** * State guards of the database

    The triggers that guard the column [state] of the governed tables:
    lib/db/migrations/0011_rls_roles_integrity.sql, with the tables that later
    migrations give a guard of their own (0014, 0028, 0029, 0058, 0086). They
    are compared with the tables of lib/domain/src/state-machines.ts. *)

From stdpp Require Import base numbers sorting strings list.
From Stdlib Require Import Lia.
From S2P Require Import Prelude JsString StateMachines.

Local Open Scope string_scope.

(** [old = a and new in bs] *)
Definition from (a : string) (bs : list string) (old new : string) : bool :=
  bool_decide (old = a) && bool_decide (new ∈ bs).

Definition one_of (moves : list (string -> string -> bool)) (old new : string) : bool :=
  existsb (fun move => move old new) moves.

(** The case of each table in [boardagent_guard_state_transition]. The tables
    that were given another guard later are not among them. *)
Definition generic_moves (tg_table_name : string) : option (list (string -> string -> bool)) :=
  List.find (fun e => bool_decide (e.1 = tg_table_name))
    [("boards", [from "active" ["archived"]]);
     ("documents", [from "active" ["archived"; "soft_deleted"]; from "archived" ["soft_deleted"]]);
     ("management_submission_threads",
        [from "submitted" ["revision_requested"; "approved_to_draft"; "rejected"];
         from "revision_requested" ["resubmitted"; "rejected"];
         from "resubmitted" ["revision_requested"; "approved_to_draft"; "rejected"]]);
     ("meetings", [from "draft" ["called"; "cancelled"]; from "called" ["completed"; "cancelled"]]);
     ("transcript_challenges", [from "pending" ["accepted"; "rejected"]]);
     ("votes",
        [from "draft" ["open"; "cancelled"];
         from "open" ["source_update_pending"; "superseded"; "closing"; "cancelled"];
         from "source_update_pending" ["open"; "superseded"; "cancelled"];
         from "closing" ["closed"]]);
     ("action_stages", [from "active" ["replaced"; "confirmed"; "rejected"; "expired"; "cancelled"]]);
     ("wizard_drafts",
        [from "active" ["ready_to_confirm"; "expired"; "cancelled"];
         from "ready_to_confirm" ["posted"; "expired"; "cancelled"]]);
     ("governance_profiles", [from "draft" ["active"]; from "active" ["superseded"]]);
     ("rulesets", [from "draft" ["active"]; from "active" ["superseded"]]);
     ("export_requests",
        [from "staged" ["confirmed"; "expired"; "cancelled"];
         from "confirmed" ["queued"; "expired"; "cancelled"];
         from "queued" ["running"; "failed"; "expired"; "cancelled"];
         from "running" ["succeeded"; "failed"; "cancelled"];
         from "succeeded" ["expired"; "deleted"];
         from "expired" ["deleted"]]);
     ("jobs",
        [from "queued" ["leased"; "cancelled"];
         from "leased" ["succeeded"; "retry"; "dead"; "cancelled"];
         from "retry" ["leased"; "dead"; "cancelled"]]);
     ("notification_jobs",
        [from "queued" ["leased"; "cancelled"];
         from "leased" ["delivered"; "retry"; "dead"; "cancelled"];
         from "retry" ["leased"; "dead"; "cancelled"]])]
  ≫= fun e => Some e.2.

Definition boardagent_guard_state_transition (tg_table_name old new : string) : bool :=
  bool_decide (new = old)
  || match generic_moves tg_table_name with Some moves => one_of moves old new | None => false end.

(** Migration 0014 *)
Definition boardagent_guard_question_state_transition (old new : string) : bool :=
  bool_decide (old = new)
  || one_of [from "pending" ["overdue"; "answered"]; from "overdue" ["pending"; "answered"];
             from "answered" ["pending"]] old new.

(** Migration 0028; [migrator] says that the guarded authority runs it. *)
Definition boardagent_guard_minutes_state_transition (migrator : bool) (old new : string) : bool :=
  bool_decide (new = old)
  || negb (bool_decide (new ∈ ["finalized"; "cancelled"]) && negb migrator)
     && one_of [from "unpublished_draft" ["published_review"; "cancelled"];
                from "published_review" ["signature_ready"; "cancelled"];
                from "signature_ready" ["published_review"; "finalized"; "cancelled"]] old new.

(** Migration 0029 *)
Definition boardagent_guard_task_state_transition (migrator : bool) (old new : string) : bool :=
  bool_decide (new = old)
  || negb (bool_decide (new ∈ ["completed"; "cancelled"]) && negb migrator)
     && one_of [from "draft" ["open"; "cancelled"; "superseded"];
                from "open" ["in_progress"; "evidence_submitted"; "cancelled"];
                from "in_progress" ["open"; "evidence_submitted"; "cancelled"];
                from "evidence_submitted" ["open"; "completed"; "cancelled"]] old new.

(** What the guard of migration 0058 reads of an update of a transcript. *)
Record TranscriptUpdate := MkTranscriptUpdate {
  identity_kept : bool;       (* id, organization, board, meeting and creation are not changed *)
  meeting_secretary : bool;   (* [boardagent_meeting_secretary_for_board] *)
  version_changed : bool;     (* [current_version_id] is distinct from the old one *)
  successor_exists : bool;    (* the new version is the immutable, unverified successor of the old one *)
  verification_exists : bool  (* the caller's verification of the old version is there *)
}.

(** Only the meeting's secretary changes the projection, and only its version
    and state: a successor version makes the transcript unverified again, a
    verification of the current version makes it verified. *)
Definition boardagent_guard_transcript_projection (u : TranscriptUpdate) (old new : string) : bool :=
  if negb (identity_kept u) || negb (meeting_secretary u) then false
  else if version_changed u then bool_decide (new = "unverified") && successor_exists u
  else if bool_decide (old = "unverified") && bool_decide (new = "secretary_verified") then verification_exists u
  else bool_decide (new = old).

(** Migration 0086; [reactivation] is the confirmed and audited evidence of the
    reactivation of a removed member. *)
Definition boardagent_guard_member_lifecycle_transition (reactivation : bool) (old new : string) : bool :=
  bool_decide (new = old)
  || one_of [from "invited" ["enrollment_pending"; "removed"];
             from "enrollment_pending" ["pending_activation"; "removed"];
             from "pending_activation" ["active"; "removed"];
             from "active" ["suspended"; "removed"];
             from "suspended" ["active"; "removed"]] old new
  || bool_decide (old = "removed") && bool_decide (new = "active") && reactivation.

(** ** The guards and the tables of the domain *)

(** A guard admits exactly the moves of a table, and updates that keep the
    state; [except] are the moves it decides otherwise. *)
Definition guards {St} `{EqDecision St, States St} (guard : string -> string -> bool) (table : TransitionTable St)
    (except : list (St * St)) : Prop :=
  forall s t, (s, t) ∉ except ->
    guard (state_name s) (state_name t) = bool_decide (s = t) || transitionAllowed table s t.

Lemma guards_check {St} `{EqDecision St, States St} guard (table : TransitionTable St) except :
  forallb (fun s => forallb (fun t => bool_decide ((s, t) ∈ except)
    || Bool.eqb (guard (state_name s) (state_name t)) (bool_decide (s = t) || transitionAllowed table s t))
    all_states) all_states = true -> guards guard table except.
Proof.
  intros Hc s t Hn. rewrite forallb_forall in Hc.
  specialize (Hc s ltac:(apply list_elem_of_In, all_states_complete)). rewrite forallb_forall in Hc.
  specialize (Hc t ltac:(apply list_elem_of_In, all_states_complete)).
  rewrite bool_decide_eq_false_2 in Hc by done. by apply eqb_prop in Hc.
Qed.

(** C23. The guards of the database and the lifecycle tables of the domain agree:
    on boards, documents, submissions, meetings, challenges, votes, stages,
    wizards, profiles, rulesets and jobs an update of the state passes the
    trigger exactly when it keeps the state or the table allows it; on minutes
    and tasks the same for the guarded authority. They differ in three places,
    named here: an overdue question may become pending again, a removed member
    may be reactivated with the evidence for it, and a verified transcript
    becomes unverified with its successor version. An update of a transcript
    passes only for the meeting's secretary, keeps its identity, changes its
    version only to the existing successor, and otherwise changes its state
    only by an existing verification. The exports of the database
    have a state [cancelled] that the domain does not know; on the states of
    the domain they agree. *)
Theorem database_guards_lifecycles :
  guards (boardagent_guard_state_transition "boards") boardTransitions [] /\
  guards (boardagent_guard_state_transition "documents") documentTransitions [] /\
  guards (boardagent_guard_state_transition "management_submission_threads") submissionTransitions [] /\
  guards (boardagent_guard_state_transition "meetings") meetingTransitions [] /\
  guards (boardagent_guard_state_transition "transcript_challenges") challengeTransitions [] /\
  guards (boardagent_guard_state_transition "votes") voteTransitions [] /\
  guards (boardagent_guard_state_transition "action_stages") consentStageTransitions [] /\
  guards (boardagent_guard_state_transition "wizard_drafts") wizardTransitions [] /\
  guards (boardagent_guard_state_transition "governance_profiles") profileTransitions [] /\
  guards (boardagent_guard_state_transition "rulesets") rulesetTransitions [] /\
  guards (boardagent_guard_state_transition "jobs") jobTransitions [] /\
  guards (boardagent_guard_state_transition "export_requests") exportTransitions [] /\
  boardagent_guard_state_transition "export_requests" "queued" "cancelled" = true /\
  guards (boardagent_guard_minutes_state_transition true) minutesTransitions [] /\
  guards (boardagent_guard_task_state_transition true) taskTransitions [] /\
  guards boardagent_guard_question_state_transition managementQuestionTransitions
    [(ManagementQuestionState_overdue, ManagementQuestionState_pending)] /\
  boardagent_guard_question_state_transition "overdue" "pending" = true /\
  guards (boardagent_guard_member_lifecycle_transition false) memberTransitions [] /\
  guards (boardagent_guard_member_lifecycle_transition true) memberTransitions
    [(MemberState_removed, MemberState_active)] /\
  boardagent_guard_member_lifecycle_transition true "removed" "active" = true /\
  guards (boardagent_guard_transcript_projection (MkTranscriptUpdate true true false false true))
    transcriptTransitions [] /\
  boardagent_guard_transcript_projection (MkTranscriptUpdate true true true true false)
    "secretary_verified" "unverified" = true /\
  (forall u old new, boardagent_guard_transcript_projection u old new = true ->
     identity_kept u = true /\ meeting_secretary u = true /\
     (version_changed u = true -> successor_exists u = true /\ new = "unverified") /\
     (version_changed u = false -> new <> old ->
        old = "unverified" /\ new = "secretary_verified" /\ verification_exists u = true)).
Proof.
  split_and!; try first [apply guards_check; vm_compute; reflexivity|vm_compute; reflexivity].
  intros [[] [] [] succ ver] old new; unfold boardagent_guard_transcript_projection; cbn; try done.
  - rewrite andb_true_iff, bool_decide_eq_true. naive_solver.
  - destruct (bool_decide (old = _)) eqn:E1, (bool_decide (new = "secretary_verified")) eqn:E2; cbn;
      rewrite ?bool_decide_eq_true in *; naive_solver.
Qed.
