(* ===== verification/ValueObjects.v ===== *)
(** * Value objects

    lib/domain/src/value-objects.ts: bounded voting weights, exact rational
    thresholds compared by cross-multiplication, UUIDv7 minting and reading,
    and confirmation codes. *)

From stdpp Require Import base numbers sorting strings list.
From Stdlib Require Import Lia.
From S2P Require Import Prelude JsString Encoding JsNumber Json JsonParse JsonCanon Schemas.

Local Open Scope Z_scope.

Definition MAX_VOTING_WEIGHT : Z := 1000000000.

Record Rational := MkRational { numerator : Z; denominator : Z }.

Definition rational (numerator denominator : Z) : result Rational :=
  throw_if (denominator <=? 0) (RangeError "denominator must be positive" []) ≫= fun _ =>
  throw_if ((numerator <? 0) || (denominator <? numerator))
    (RangeError "fraction must be between zero and one" []) ≫= fun _ =>
  Ok (MkRational numerator denominator).

Definition meetsFraction (value total : Z) (fraction : Rational) : result bool :=
  throw_if ((value <? 0) || (total <? 0))
    (RangeError "weights cannot be negative" []) ≫= fun _ =>
  Ok (total * numerator fraction <=? value * denominator fraction).

Definition assertWeight (value : Z) : result Z :=
  throw_if ((value <=? 0) || (MAX_VOTING_WEIGHT <? value))
    (RangeError "invalid voting weight" []) ≫= fun _ => Ok value.

Lemma rational_ok n d r :
  rational n d = Ok r <-> r = MkRational n d /\ 0 < d /\ 0 <= n <= d.
Proof.
  unfold rational. rewrite !ok_tt_bind, !throw_if_ok, orb_false_iff,
    Z.leb_gt, !Z.ltb_ge. split; [intros (? & [? ?] & [= <-])|intros (-> & ?)]; split_and!; try done; lia.
Qed.

Lemma meetsFraction_nonneg v t f :
  0 <= v -> 0 <= t ->
  meetsFraction v t f = Ok (t * numerator f <=? v * denominator f).
Proof.
  intros Hv Ht. unfold meetsFraction.
  by rewrite (proj2 (Z.ltb_ge v 0)), (proj2 (Z.ltb_ge t 0)).
Qed.

Lemma assertWeight_ok v w : assertWeight v = Ok w <-> w = v /\ 0 < v <= MAX_VOTING_WEIGHT.
Proof.
  unfold assertWeight. rewrite ok_tt_bind, throw_if_ok, orb_false_iff, Z.leb_gt, Z.ltb_ge.
  split; [intros [? [= <-]]|intros [-> ?]]; split; try done; lia.
Qed.

(** ** UUIDv7 *)

Definition UUID_V7_MAX_TIMESTAMP : Z := 281474976710655.

(** The loop over [index = 5 .. 0]: low byte first, written backwards. *)
Fixpoint timestamp_bytes (n : nat) (timestamp : Z) (acc : list Z) : list Z :=
  match n with
  | O => acc
  | S n' => timestamp_bytes n' (Z.shiftr timestamp 8) (Z.land timestamp 255 :: acc)
  end.

Definition uuid_bytes (timestampMs : Z) (random : list Z) : list Z :=
  let r i := nth i random 0 in
  timestamp_bytes 6 timestampMs []
  ++ [Z.lor 112 (Z.land (r 0%nat) 15); r 1%nat; Z.lor 128 (Z.land (r 2%nat) 63)]
  ++ drop 3 random.

Definition slice (from to : nat) (s : jsstr) : jsstr := take (to - from) (drop from s).

(** The returned template string. *)
Definition uuid_text (hex : jsstr) : jsstr :=
  slice 0 8 hex ++ js "-" ++ slice 8 12 hex ++ js "-" ++ slice 12 16 hex ++ js "-"
  ++ slice 16 20 hex ++ js "-" ++ drop 20 hex.

Definition uuidV7 (timestampMs : Z) (random : list Z) : result jsstr :=
  throw_if ((timestampMs <? 0) || (UUID_V7_MAX_TIMESTAMP <? timestampMs))
    (RangeError "UUIDv7 timestamp must be a 48-bit nonnegative integer" []) ≫= fun _ =>
  throw_if (negb (Nat.eqb (length random) 10))
    (RangeError "UUIDv7 requires exactly 10 random bytes" []) ≫= fun _ =>
  Ok (uuid_text (hex_of_bytes (uuid_bytes timestampMs random))).

(** [BigInt("0x..")] *)
Definition unhex (s : jsstr) : Z := foldl (fun a c => 16 * a + hex_val c) 0 s.

Definition uuidV7TimestampMs (value : jsstr) : result Z :=
  throw_if (negb (is_uuid_v7 value))
    (TypeError "value is not a canonical UUIDv7" []) ≫= fun _ =>
  Ok (unhex (slice 0 8 value ++ slice 9 13 value)).

(** ** Confirmation codes *)

Definition code_alphabet : jsstr := js "ABCDEFGHJKLMNPQRSTUVWXYZ23456789".

(** [bytes] is what [random(8)] returned. *)
Definition confirmationCode (bytes : list Z) : jsstr :=
  map (fun byte => nth (Z.to_nat (byte mod 32)) code_alphabet 0) bytes.

(** ** Lemmas *)

Lemma timestamp_bytes_6 t :
  timestamp_bytes 6 t [] =
  [Z.land (Z.shiftr (Z.shiftr (Z.shiftr (Z.shiftr (Z.shiftr t 8) 8) 8) 8) 8) 255;
   Z.land (Z.shiftr (Z.shiftr (Z.shiftr (Z.shiftr t 8) 8) 8) 8) 255;
   Z.land (Z.shiftr (Z.shiftr (Z.shiftr t 8) 8) 8) 255;
   Z.land (Z.shiftr (Z.shiftr t 8) 8) 255; Z.land (Z.shiftr t 8) 255; Z.land t 255].
Proof. done. Qed.

Lemma land_255 x : Z.land x 255 = x mod 256.
Proof. change 255 with (Z.ones 8). by rewrite Z.land_ones. Qed.

Lemma shiftr_8 x : Z.shiftr x 8 = x / 256.
Proof. by rewrite Z.shiftr_div_pow2. Qed.

(** Bytes small enough to enumerate: a disjoint [or] is a sum. *)
Lemma enumerate (n : nat) (p : Z -> bool) (m : Z) :
  forallb p (seqZ 0 (Z.of_nat n)) = true -> 0 <= m < Z.of_nat n -> p m = true.
Proof. intros H Hm. rewrite forallb_forall in H. apply H, list_elem_of_In, elem_of_seqZ. lia. Qed.

Lemma version_byte x : Z.lor 112 (Z.land x 15) = 7 * 16 + x mod 16.
Proof.
  change 15 with (Z.ones 4). rewrite Z.land_ones by lia. change (2 ^ 4) with 16.
  apply Z.eqb_eq, (enumerate 16 (fun m => Z.lor 112 m =? 7 * 16 + m)); [done|].
  apply Z.mod_pos_bound. lia.
Qed.

Lemma variant_byte x : Z.lor 128 (Z.land x 63) = (8 + x mod 64 / 16) * 16 + x mod 64 mod 16.
Proof.
  change 63 with (Z.ones 6). rewrite Z.land_ones by lia. change (2 ^ 6) with 64.
  apply Z.eqb_eq, (enumerate 64 (fun m => Z.lor 128 m =? (8 + m / 16) * 16 + m mod 16)); [done|].
  apply Z.mod_pos_bound. lia.
Qed.

Lemma hex_digits_byte b : 0 <= b < 256 ->
  is_hex (hex_char (b / 16)) = true /\ is_hex (hex_char (b mod 16)) = true /\
  16 * hex_val (hex_char (b / 16)) + hex_val (hex_char (b mod 16)) = b.
Proof.
  intros Hb. destruct (hex_char_spec (b / 16) ltac:(zdm)) as [-> ->].
  destruct (hex_char_spec (b mod 16) ltac:(zdm)) as [-> ->]. split_and!; [done..|zdm].
Qed.

Lemma unhex_app s u : unhex (s ++ u) = 16 ^ Z.of_nat (length u) * unhex s + unhex u.
Proof.
  unfold unhex. rewrite foldl_app. generalize (foldl (fun a c => 16 * a + hex_val c) 0 s).
  revert s. induction u as [|c u IH] using rev_ind; intros s z; [simpl; lia|].
  rewrite !foldl_app, (IH s z), length_app, Nat2Z.inj_add, Z.pow_add_r by lia.
  change (16 ^ Z.of_nat (length [c])) with 16. cbn [foldl]. ring.
Qed.

(** Reading back the hexadecimal text of bytes is reading the bytes in base 256. *)
Lemma unhex_bytes l : forallb is_byte l = true ->
  unhex (hex_of_bytes l) = foldl (fun a b => 256 * a + b) 0 l.
Proof.
  induction l as [|b l IH] using rev_ind; [done|].
  rewrite forallb_app. intros [Hl [Hb _]%andb_true_iff]%andb_true_iff.
  apply in_range_spec in Hb. unfold hex_of_bytes in *.
  rewrite map_app, concat_app, unhex_app, (IH Hl), foldl_app. simpl.
  destruct (hex_digits_byte b ltac:(lia)) as (_ & _ & E). unfold unhex. simpl. lia.
Qed.

Definition timestamp_list (t : Z) : list Z :=
  [t / 256 / 256 / 256 / 256 / 256; t / 256 / 256 / 256 / 256 mod 256;
   t / 256 / 256 / 256 mod 256; t / 256 / 256 mod 256; t / 256 mod 256; t mod 256].

Lemma timestamp_bytes_spec t : 0 <= t <= UUID_V7_MAX_TIMESTAMP ->
  timestamp_bytes 6 t [] = timestamp_list t /\
  (forallb is_byte (timestamp_list t) = true) /\
  foldl (fun a b => 256 * a + b) 0 (timestamp_list t) = t.
Proof.
  unfold UUID_V7_MAX_TIMESTAMP, timestamp_list. intros Ht.
  rewrite timestamp_bytes_6, !land_255, !shiftr_8. split_and!.
  - repeat f_equal. apply Z.mod_small. zdm.
  - simpl. rewrite !andb_true_iff. unfold is_byte. rewrite !in_range_spec. split_and!; zdm.
  - simpl. zdm.
Qed.

(** Sixteen bytes with version nibble 7 and a variant nibble 8..b print as a
    canonical UUIDv7 whose first twelve digits are those of the first six bytes. *)
Lemma uuid_text_spec l : length l = 16%nat -> forallb is_byte l = true ->
  nth 6 l 0 / 16 = 7 -> 8 <= nth 8 l 0 / 16 < 12 ->
  is_uuid_v7 (uuid_text (hex_of_bytes l)) = true /\
  slice 0 8 (uuid_text (hex_of_bytes l)) ++ slice 9 13 (uuid_text (hex_of_bytes l))
  = hex_of_bytes (take 6 l).
Proof.
  intros Hlen Hb H6 H8. do 16 (destruct l as [|? l]; [done|]). destruct l; [|done]. clear Hlen.
  cbn [nth] in H6, H8. split; [|reflexivity].
  cbn [forallb] in Hb. rewrite !andb_true_iff in Hb. unfold is_byte in Hb.
  rewrite !in_range_spec in Hb. destruct_and! Hb.
  unfold is_uuid_v7, uuid_v7_units. cbn -[hex_char is_hex Z.eqb Z.div Z.modulo].
  rewrite H6. repeat match goal with
    | |- context [is_hex (hex_char (?b / 16))] =>
        rewrite (proj1 (hex_digits_byte b ltac:(lia)))
    | |- context [is_hex (hex_char (?b mod 16))] =>
        rewrite (proj1 (proj2 (hex_digits_byte b ltac:(lia))))
    end.
  match goal with |- context [hex_char (?b / 16) =? 56] =>
    assert (b / 16 = 8 \/ b / 16 = 9 \/ b / 16 = 10 \/ b / 16 = 11) as [E | [E | [E | E]]] by lia
  end; rewrite E; reflexivity.
Qed.

(** Minting a UUIDv7 from a 48-bit timestamp and ten random bytes always
    succeeds, yields a text the UUIDv7 schema accepts, and reading its timestamp
    back returns the one it was minted with. *)
Theorem uuidV7_roundtrip t r :
  0 <= t <= UUID_V7_MAX_TIMESTAMP -> length r = 10%nat -> forallb is_byte r = true ->
  exists u, uuidV7 t r = Ok u /\ UuidV7Schema u = Ok u /\ uuidV7TimestampMs u = Ok t.
Proof.
  intros Ht Hlen Hr. destruct (timestamp_bytes_spec t Ht) as (Et & Hbt & Ef).
  assert (Hall : forallb is_byte (uuid_bytes t r) = true).
  { unfold uuid_bytes. rewrite Et, version_byte, variant_byte, !forallb_app, Hbt.
    do 10 (destruct r as [|? r]; [done|]). cbn [nth drop forallb] in *.
    rewrite !andb_true_iff in *. destruct_and! Hr. unfold is_byte in *.
    rewrite !in_range_spec in *. split_and!; try done; zdm. }
  destruct (uuid_text_spec (uuid_bytes t r)) as [Hu Hs]; [|done|..].
  { unfold uuid_bytes. rewrite Et. cbn [app length timestamp_list].
    by rewrite length_drop, Hlen. }
  1, 2: unfold uuid_bytes; rewrite Et; cbn [nth app timestamp_list];
    rewrite ?version_byte, ?variant_byte; zdm.
  exists (uuid_text (hex_of_bytes (uuid_bytes t r))). split_and!.
  - unfold uuidV7. by rewrite (proj2 (Z.ltb_ge t 0)), (proj2 (Z.ltb_ge _ t)), Hlen by lia.
  - unfold UuidV7Schema. by apply parse_ok.
  - unfold uuidV7TimestampMs. rewrite Hu, Hs. cbn [negb throw_if mbind result_bind].
    unfold uuid_bytes. rewrite Et. change (take 6 (timestamp_list t ++ _)) with (timestamp_list t).
    by rewrite unhex_bytes, Ef.
Qed.

Lemma uuidV7_roundtrip_witness :
  exists u, uuidV7 1735689600000 [1; 2; 3; 4; 5; 6; 7; 8; 9; 255] = Ok u /\
    UuidV7Schema u = Ok u /\ uuidV7TimestampMs u = Ok 1735689600000.
Proof. apply uuidV7_roundtrip; [vm_compute; split; discriminate | reflexivity | reflexivity]. Defined.

Example uuidV7_ex :
  uuidV7 1735689600000 [1; 2; 3; 4; 5; 6; 7; 8; 9; 255] =
  Ok (js "01941f29-7c00-7102-8304-0506070809ff").
Proof. vm_compute. reflexivity. Qed.
