(* ===== verification/VotingConsent.v ===== *)
(** * Vote consent hashes

    lib/domain/src/voting.ts, first part: the canonical payloads a member
    confirms (rule override, source exclusion, recusal, proxy grant and
    revocation, ballot, vote close) and their digests. The main theorem says
    that a digest determines the action and every field of it. *)

From stdpp Require Import base numbers sorting strings list.
From Stdlib Require Import Lia.
From S2P Require Import Prelude JsString Encoding JsNumber Json JsonParse JsonCanon Schemas.

Local Open Scope Z_scope.

(** [([..] as const).includes(x)] *)
Definition includes (l : list string) (x : jsstr) : bool := existsb (fun s => bool_decide (x = js s)) l.

Module RuleOverride.
Record citation := MkCitation {
  ruleId : jsstr;
  sourceDocumentVersionId : jsstr;
  sourceDocumentSha256 : jsstr;
  clause : jsstr;
  locator : jsstr
}.

Record selection := MkSelection {
  evaluationId : jsstr;
  evaluationResultSha256 : jsstr;
  wizardDraftId : jsstr;
  finalVoteId : jsstr;
  recommendedRuleId : option jsstr;
  selectedRuleId : jsstr;
  selectedRuleSha256 : jsstr;
  reason : jsstr;
  citations : list citation
}.

Record consent := MkConsent { consent_selection : selection; packageSha256 : jsstr }.

Record evidence := MkEvidence {
  evidence_selection : selection;
  consentRecordId : jsstr;
  auditEventId : jsstr
}.
End RuleOverride.

Module SourceExclusion.
Record input := MkInput {
  voteId : jsstr;
  causeId : jsstr;
  sourceClass : jsstr;
  sourceId : jsstr;
  sourceVersion : jsnum;
  sourceSha256 : jsstr;
  reason : jsstr;
  packageSha256 : jsstr
}.
End SourceExclusion.

Module Recusal.
Record input := MkInput {
  voteId : jsstr;
  memberId : jsstr;
  state : jsstr;
  reason : jsstr;
  packageSha256 : jsstr
}.
End Recusal.

Module ProxyGrant.
Record input := MkInput {
  voteId : jsstr;
  principalMemberId : jsstr;
  holderMemberId : jsstr;
  policy : jsstr;
  expiresAt : option jsstr;
  packageSha256 : jsstr
}.
End ProxyGrant.

Module ProxyRevoke.
Record input := MkInput {
  voteId : jsstr;
  proxyGrantId : jsstr;
  principalMemberId : jsstr;
  reason : jsstr;
  packageSha256 : jsstr
}.
End ProxyRevoke.

Module Ballot.
Record input := MkInput {
  voteId : jsstr;
  principalMemberId : jsstr;
  casterMemberId : jsstr;
  choice : jsstr;
  statement : option jsstr;
  proxyGrantId : option jsstr;
  packageSha256 : jsstr
}.
End Ballot.

Module VoteClose.
Record input := MkInput {
  voteId : jsstr;
  packageSha256 : jsstr;
  expectedTallySha256 : jsstr;
  outcomeId : jsstr;
  certificateId : jsstr;
  certificatePublicIdSha256 : jsstr;
  signingKeyId : jsstr
}.
End VoteClose.

(** ** The payloads

    Each [.._payload] is the object literal its hash function passes to
    [canonicalSha256], built in the order of the code: guards first, then the
    members with their schemas. *)

Section payloads.
Context `{Platform}.

Definition parse_citation (c : RuleOverride.citation) : result RuleOverride.citation :=
  rule ← UuidV7Schema (RuleOverride.ruleId c);
  version ← UuidV7Schema (RuleOverride.sourceDocumentVersionId c);
  hash ← Sha256HexSchema (RuleOverride.sourceDocumentSha256 c);
  clause ← canonicalText (RuleOverride.clause c);
  locator ← canonicalText (RuleOverride.locator c);
  Ok (RuleOverride.MkCitation rule version hash clause locator).

Definition citation_out_of_bounds (c : RuleOverride.citation) : bool :=
  let clause := js_length (RuleOverride.clause c) in
  let locator := js_length (RuleOverride.locator c) in
  (clause <? 1) || (512 <? clause) || (locator <? 1) || (1024 <? locator).

Definition citation_json (c : RuleOverride.citation) : json :=
  JObj [str "ruleId" (RuleOverride.ruleId c);
        str "sourceDocumentVersionId" (RuleOverride.sourceDocumentVersionId c);
        str "sourceDocumentSha256" (RuleOverride.sourceDocumentSha256 c);
        str "clause" (RuleOverride.clause c);
        str "locator" (RuleOverride.locator c)].

Definition canonicalRuleOverrideSelection (input : RuleOverride.selection)
  : result (list (jsstr * json)) :=
  reason ← canonicalText (RuleOverride.reason input);
  throw_if ((js_length (trim reason) <? 1) || (65536 <? js_length reason))
    (RangeError "rule-override reason must contain 1 through 65536 characters" []) ≫= fun _ =>
  citations ← mapR parse_citation (RuleOverride.citations input);
  throw_if (Nat.ltb (length citations) 1 || existsb citation_out_of_bounds citations)
    (RangeError "rule override requires bounded exact citations" []) ≫= fun _ =>
  evaluationId ← UuidV7Schema (RuleOverride.evaluationId input);
  evaluationResultSha256 ← Sha256HexSchema (RuleOverride.evaluationResultSha256 input);
  wizardDraftId ← UuidV7Schema (RuleOverride.wizardDraftId input);
  finalVoteId ← UuidV7Schema (RuleOverride.finalVoteId input);
  recommendedRuleId ← parse_nullable UuidV7Schema (RuleOverride.recommendedRuleId input);
  selectedRuleId ← UuidV7Schema (RuleOverride.selectedRuleId input);
  selectedRuleSha256 ← Sha256HexSchema (RuleOverride.selectedRuleSha256 input);
  Ok [str "evaluationId" evaluationId;
      str "evaluationResultSha256" evaluationResultSha256;
      str "wizardDraftId" wizardDraftId;
      str "finalVoteId" finalVoteId;
      nullable "recommendedRuleId" recommendedRuleId;
      str "selectedRuleId" selectedRuleId;
      str "selectedRuleSha256" selectedRuleSha256;
      str "reason" reason;
      (js "citations", JArr (map citation_json citations))].

Definition schemaVersion (version : string) : jsstr * json := str "schemaVersion" (js version).

Definition ruleOverrideConsent_payload (input : RuleOverride.consent) : result json :=
  selection ← canonicalRuleOverrideSelection (RuleOverride.consent_selection input);
  packageSha256 ← Sha256HexSchema (RuleOverride.packageSha256 input);
  Ok (JObj (schemaVersion "boardagent.rule-override-consent.v1" :: selection
            ++ [str "packageSha256" packageSha256])).

Definition ruleOverrideEvidence_payload (input : RuleOverride.evidence) : result json :=
  selection ← canonicalRuleOverrideSelection (RuleOverride.evidence_selection input);
  consentRecordId ← UuidV7Schema (RuleOverride.consentRecordId input);
  auditEventId ← UuidV7Schema (RuleOverride.auditEventId input);
  Ok (JObj (schemaVersion "boardagent.rule-override-evidence.v1" :: selection
            ++ [str "consentRecordId" consentRecordId; str "auditEventId" auditEventId])).

Definition voteSourceExclusion_payload (input : SourceExclusion.input) : result json :=
  reason ← canonicalText (SourceExclusion.reason input);
  throw_if ((js_length (trim reason) <? 1) || (65536 <? js_length reason))
    (RangeError "source-exclusion reason must contain 1 through 65536 characters" []) ≫= fun _ =>
  throw_if (negb (includes ["management_submission"; "document"; "question_cutoff"]
                    (SourceExclusion.sourceClass input)))
    (TypeError "source-exclusion class is invalid" []) ≫= fun _ =>
  throw_if (negb (isSafeInteger (SourceExclusion.sourceVersion input))
            || num_lt (SourceExclusion.sourceVersion input) (NInt 1))
    (RangeError "source-exclusion version must be a positive safe integer" []) ≫= fun _ =>
  voteId ← UuidV7Schema (SourceExclusion.voteId input);
  causeId ← UuidV7Schema (SourceExclusion.causeId input);
  sourceId ← UuidV7Schema (SourceExclusion.sourceId input);
  sourceSha256 ← Sha256HexSchema (SourceExclusion.sourceSha256 input);
  packageSha256 ← Sha256HexSchema (SourceExclusion.packageSha256 input);
  Ok (JObj [schemaVersion "boardagent.vote-source-exclusion-consent.v1";
            str "voteId" voteId; str "causeId" causeId;
            str "sourceClass" (SourceExclusion.sourceClass input);
            str "sourceId" sourceId;
            (js "sourceVersion", JNum (SourceExclusion.sourceVersion input));
            str "sourceSha256" sourceSha256; str "reason" reason;
            str "packageSha256" packageSha256]).

Definition voteRecusal_payload (input : Recusal.input) : result json :=
  voteId ← UuidV7Schema (Recusal.voteId input);
  memberId ← UuidV7Schema (Recusal.memberId input);
  packageSha256 ← Sha256HexSchema (Recusal.packageSha256 input);
  Ok (JObj [schemaVersion "boardagent.vote-recusal-consent.v1";
            str "voteId" voteId; str "memberId" memberId;
            str "state" (Recusal.state input); str "reason" (Recusal.reason input);
            str "packageSha256" packageSha256]).

Definition proxyGrant_payload (input : ProxyGrant.input) : result json :=
  principalMemberId ← UuidV7Schema (ProxyGrant.principalMemberId input);
  holderMemberId ← UuidV7Schema (ProxyGrant.holderMemberId input);
  throw_if (bool_decide (principalMemberId = holderMemberId))
    (JsError "proxy holder must differ from principal" []) ≫= fun _ =>
  throw_if (negb (includes ["principal_supersedes_proxy"; "first_ballot_final"]
                    (ProxyGrant.policy input)))
    (TypeError "proxy policy is invalid" []) ≫= fun _ =>
  voteId ← UuidV7Schema (ProxyGrant.voteId input);
  expiresAt ← parse_nullable Rfc3339UtcSchema (ProxyGrant.expiresAt input);
  packageSha256 ← Sha256HexSchema (ProxyGrant.packageSha256 input);
  Ok (JObj [schemaVersion "boardagent.proxy-grant-consent.v1";
            str "voteId" voteId; str "principalMemberId" principalMemberId;
            str "holderMemberId" holderMemberId; str "policy" (ProxyGrant.policy input);
            nullable "expiresAt" expiresAt; str "packageSha256" packageSha256]).

Definition proxyRevoke_payload (input : ProxyRevoke.input) : result json :=
  reason ← canonicalText (ProxyRevoke.reason input);
  throw_if ((js_length reason <? 1) || (65536 <? js_length reason))
    (RangeError "proxy revocation reason must contain 1 through 65536 characters" []) ≫= fun _ =>
  voteId ← UuidV7Schema (ProxyRevoke.voteId input);
  proxyGrantId ← UuidV7Schema (ProxyRevoke.proxyGrantId input);
  principalMemberId ← UuidV7Schema (ProxyRevoke.principalMemberId input);
  packageSha256 ← Sha256HexSchema (ProxyRevoke.packageSha256 input);
  Ok (JObj [schemaVersion "boardagent.proxy-revoke-consent.v1";
            str "voteId" voteId; str "proxyGrantId" proxyGrantId;
            str "principalMemberId" principalMemberId; str "reason" reason;
            str "packageSha256" packageSha256]).

Definition ballot_payload (input : Ballot.input) : result json :=
  principalMemberId ← UuidV7Schema (Ballot.principalMemberId input);
  casterMemberId ← UuidV7Schema (Ballot.casterMemberId input);
  throw_if (negb (includes ["yes"; "no"; "abstain"] (Ballot.choice input)))
    (TypeError "ballot choice is invalid" []) ≫= fun _ =>
  statement ← parse_nullable canonicalText (Ballot.statement input);
  throw_if (match statement with Some s => 500 <? js_length s | None => false end)
    (RangeError "ballot statement must not exceed 500 characters" []) ≫= fun _ =>
  proxyGrantId ← parse_nullable UuidV7Schema (Ballot.proxyGrantId input);
  throw_if ((bool_decide (principalMemberId = casterMemberId) && is_some proxyGrantId)
            || (bool_decide (principalMemberId <> casterMemberId) && negb (is_some proxyGrantId)))
    (JsError "ballot attribution and proxy grant are inconsistent" []) ≫= fun _ =>
  voteId ← UuidV7Schema (Ballot.voteId input);
  packageSha256 ← Sha256HexSchema (Ballot.packageSha256 input);
  Ok (JObj [schemaVersion "boardagent.ballot-consent.v1";
            str "voteId" voteId; str "principalMemberId" principalMemberId;
            str "casterMemberId" casterMemberId; str "choice" (Ballot.choice input);
            nullable "statement" statement; nullable "proxyGrantId" proxyGrantId;
            str "packageSha256" packageSha256]).

Definition voteClose_payload (input : VoteClose.input) : result json :=
  voteId ← UuidV7Schema (VoteClose.voteId input);
  packageSha256 ← Sha256HexSchema (VoteClose.packageSha256 input);
  expectedTallySha256 ← Sha256HexSchema (VoteClose.expectedTallySha256 input);
  outcomeId ← UuidV7Schema (VoteClose.outcomeId input);
  certificateId ← UuidV7Schema (VoteClose.certificateId input);
  certificatePublicIdSha256 ← Sha256HexSchema (VoteClose.certificatePublicIdSha256 input);
  signingKeyId ← UuidV7Schema (VoteClose.signingKeyId input);
  Ok (JObj [schemaVersion "boardagent.vote-close-consent.v1";
            str "voteId" voteId; str "packageSha256" packageSha256;
            str "expectedTallySha256" expectedTallySha256; str "outcomeId" outcomeId;
            str "certificateId" certificateId;
            str "certificatePublicIdSha256" certificatePublicIdSha256;
            str "signingKeyId" signingKeyId]).

(** ** The hash functions *)

Definition ruleOverrideConsentHash (input : RuleOverride.consent) : result jsstr :=
  ruleOverrideConsent_payload input ≫= canonicalSha256.
Definition ruleOverrideEvidenceHash (input : RuleOverride.evidence) : result jsstr :=
  ruleOverrideEvidence_payload input ≫= canonicalSha256.
Definition voteSourceExclusionConsentHash (input : SourceExclusion.input) : result jsstr :=
  voteSourceExclusion_payload input ≫= canonicalSha256.
Definition voteRecusalConsentHash (input : Recusal.input) : result jsstr :=
  voteRecusal_payload input ≫= canonicalSha256.
Definition proxyGrantConsentHash (input : ProxyGrant.input) : result jsstr :=
  proxyGrant_payload input ≫= canonicalSha256.
Definition proxyRevokeConsentHash (input : ProxyRevoke.input) : result jsstr :=
  proxyRevoke_payload input ≫= canonicalSha256.
Definition ballotConsentHash (input : Ballot.input) : result jsstr :=
  ballot_payload input ≫= canonicalSha256.
Definition voteCloseConsentHash (input : VoteClose.input) : result jsstr :=
  voteClose_payload input ≫= canonicalSha256.

(** ** All of them together *)

Inductive subject : Type :=
  | RuleOverrideConsent (i : RuleOverride.consent)
  | RuleOverrideEvidence (i : RuleOverride.evidence)
  | VoteSourceExclusion (i : SourceExclusion.input)
  | VoteRecusal (i : Recusal.input)
  | ProxyGranted (i : ProxyGrant.input)
  | ProxyRevoked (i : ProxyRevoke.input)
  | BallotCast (i : Ballot.input)
  | VoteClosed (i : VoteClose.input).

Definition subject_payload (s : subject) : result json :=
  match s with
  | RuleOverrideConsent i => ruleOverrideConsent_payload i
  | RuleOverrideEvidence i => ruleOverrideEvidence_payload i
  | VoteSourceExclusion i => voteSourceExclusion_payload i
  | VoteRecusal i => voteRecusal_payload i
  | ProxyGranted i => proxyGrant_payload i
  | ProxyRevoked i => proxyRevoke_payload i
  | BallotCast i => ballot_payload i
  | VoteClosed i => voteClose_payload i
  end.

Definition subject_hash (s : subject) : result jsstr :=
  match s with
  | RuleOverrideConsent i => ruleOverrideConsentHash i
  | RuleOverrideEvidence i => ruleOverrideEvidenceHash i
  | VoteSourceExclusion i => voteSourceExclusionConsentHash i
  | VoteRecusal i => voteRecusalConsentHash i
  | ProxyGranted i => proxyGrantConsentHash i
  | ProxyRevoked i => proxyRevokeConsentHash i
  | BallotCast i => ballotConsentHash i
  | VoteClosed i => voteCloseConsentHash i
  end.
End payloads.

(** ** Lemmas *)

Section binding.
Context `{Platform}.

Definition subject_tag (s : subject) : jsstr :=
  match s with
  | RuleOverrideConsent _ => js "boardagent.rule-override-consent.v1"
  | RuleOverrideEvidence _ => js "boardagent.rule-override-evidence.v1"
  | VoteSourceExclusion _ => js "boardagent.vote-source-exclusion-consent.v1"
  | VoteRecusal _ => js "boardagent.vote-recusal-consent.v1"
  | ProxyGranted _ => js "boardagent.proxy-grant-consent.v1"
  | ProxyRevoked _ => js "boardagent.proxy-revoke-consent.v1"
  | BallotCast _ => js "boardagent.ballot-consent.v1"
  | VoteClosed _ => js "boardagent.vote-close-consent.v1"
  end.

Lemma subject_hash_payload s h :
  subject_hash s = Ok h -> exists v, subject_payload s = Ok v /\ canonicalSha256 v = Ok h.
Proof.
  destruct s; cbn [subject_hash subject_payload]; by intros (v & Hv & Hh)%bind_ok; exists v.
Qed.

Lemma parse_citation_ok c d : parse_citation c = Ok d -> d = c.
Proof. unfold parse_citation. intros. inv_parse. by destruct c. Qed.

Lemma parse_citations_ok l k : mapR parse_citation l = Ok k -> k = l.
Proof.
  rewrite mapR_ok. induction 1 as [|c d l k Hc _ IH]; [done|].
  by rewrite (parse_citation_ok _ _ Hc), IH.
Qed.

Lemma parse_nullable_id {A} (p : A -> result A) o r :
  (forall a b, p a = Ok b -> b = a) -> parse_nullable p o = Ok r -> r = o.
Proof. intros Hp Hr. by destruct (parse_nullable_ok p o r Hp Hr). Qed.

Lemma uuid_id a b : UuidV7Schema a = Ok b -> b = a.
Proof. by intros [? _]%parse_ok. Qed.
Lemma rfc3339_id a b : Rfc3339UtcSchema a = Ok b -> b = a.
Proof. by intros [? _]%parse_ok. Qed.
Lemma canonicalText_id a b : canonicalText a = Ok b -> b = a.
Proof. by intros [? _]%canonicalText_ok. Qed.

Ltac inv_payload :=
  repeat (inv_parse; match goal with
  | H : mapR parse_citation _ = Ok _ |- _ => apply parse_citations_ok in H
  | H : parse_nullable UuidV7Schema _ = Ok _ |- _ => apply (parse_nullable_id _ _ _ uuid_id) in H
  | H : parse_nullable Rfc3339UtcSchema _ = Ok _ |- _ => apply (parse_nullable_id _ _ _ rfc3339_id) in H
  | H : parse_nullable canonicalText _ = Ok _ |- _ => apply (parse_nullable_id _ _ _ canonicalText_id) in H
  | H : canonicalRuleOverrideSelection _ = Ok _ |- _ => unfold canonicalRuleOverrideSelection in H
  end); inv_parse.

Lemma citations_plain l : forallb json_plain (map citation_json l) = true.
Proof. rewrite forallb_map. apply forallb_forall. intros c _. reflexivity. Qed.

Lemma citation_json_inj a b : sort_json (citation_json a) = sort_json (citation_json b) -> a = b.
Proof. intros E. same_members E. destruct a, b; cbn in *; by simplify_eq. Qed.

Ltac plain_literal :=
  eexists; split_and!; [reflexivity..|];
  cbn -[js is_index_key safe_Z]; rewrite ?nullable_plain, ?citations_plain;
  vm_compute; reflexivity.

(** Every payload is a plain object labelled with its action. *)
Lemma subject_payload_shape s v :
  subject_payload s = Ok v ->
  exists l, v = JObj l /\ map_get l (js "schemaVersion") = Some (JStr (subject_tag s)) /\
    json_plain v = true.
Proof.
  destruct s as [i|i|i|i|i|i|i|i]; cbn [subject_payload]; intros.
  - unfold ruleOverrideConsent_payload in *. inv_payload. plain_literal.
  - unfold ruleOverrideEvidence_payload in *. inv_payload. plain_literal.
  - unfold voteSourceExclusion_payload in *. inv_payload. boolify.
    match goal with H : isSafeInteger _ = true |- _ =>
      apply (safe_at_least _ 1) in H as (z & -> & _ & Hz); [|done|lia] end.
    eexists. split_and!; [reflexivity..|]. cbn -[js is_index_key safe_Z]. rewrite Hz.
    vm_compute. reflexivity.
  - unfold voteRecusal_payload in *. inv_payload. plain_literal.
  - unfold proxyGrant_payload in *. inv_payload. plain_literal.
  - unfold proxyRevoke_payload in *. inv_payload. plain_literal.
  - unfold ballot_payload in *. inv_payload. plain_literal.
  - unfold voteClose_payload in *. inv_payload. plain_literal.
Qed.

Ltac same_input E :=
  same_members E;
  repeat match goal with
  | F : sort_json (jopt JStr _) = sort_json (jopt JStr _) |- _ => apply jopt_str_inj in F
  | F : map sort_json (map citation_json _) = _ |- _ =>
      apply (jstr_list_inj _ _ _ citation_json_inj) in F
  end.

(** Within one action, the sorted payload determines the input. *)
Lemma same_action_inj a b v w :
  subject_tag a = subject_tag b ->
  subject_payload a = Ok v -> subject_payload b = Ok w -> sort_json v = sort_json w -> a = b.
Proof.
  intros Ht Ha Hb E.
  destruct a as [a|a|a|a|a|a|a|a], b as [b|b|b|b|b|b|b|b];
    try (vm_compute in Ht; discriminate Ht); clear Ht; f_equal; cbn [subject_payload] in *.
  - unfold ruleOverrideConsent_payload in *. inv_payload. same_input E.
    destruct a as [[] ?], b as [[] ?]; cbn in *. by simplify_eq.
  - unfold ruleOverrideEvidence_payload in *. inv_payload. same_input E.
    destruct a as [[] ? ?], b as [[] ? ?]; cbn in *. by simplify_eq.
  - unfold voteSourceExclusion_payload in *. inv_payload. same_input E.
    destruct a, b; cbn in *. by simplify_eq.
  - unfold voteRecusal_payload in *. inv_payload. same_input E.
    destruct a, b; cbn in *. by simplify_eq.
  - unfold proxyGrant_payload in *. inv_payload. same_input E.
    destruct a, b; cbn in *. by simplify_eq.
  - unfold proxyRevoke_payload in *. inv_payload. same_input E.
    destruct a, b; cbn in *. by simplify_eq.
  - unfold ballot_payload in *. inv_payload. same_input E.
    destruct a, b; cbn in *. by simplify_eq.
  - unfold voteClose_payload in *. inv_payload. same_input E.
    destruct a, b; cbn in *. by simplify_eq.
Qed.

(** ** Admissible ballots *)

(** Exactly what a ballot must satisfy to have a consent digest. *)
Definition ballot_admissible (i : Ballot.input) : bool :=
  is_uuid_v7 (Ballot.voteId i) && is_uuid_v7 (Ballot.principalMemberId i)
  && is_uuid_v7 (Ballot.casterMemberId i) && is_hex64 (Ballot.packageSha256 i)
  && bool_decide (Ballot.choice i ∈ [js "yes"; js "no"; js "abstain"])
  && opt_all (fun s => is_ok (canonicalText s) && (js_length s <=? 500)) (Ballot.statement i)
  && opt_all is_uuid_v7 (Ballot.proxyGrantId i)
  && bool_decide (Ballot.proxyGrantId i = None <-> Ballot.principalMemberId i = Ballot.casterMemberId i).

Lemma includes_spec l x : includes l x = true <-> x ∈ map js l.
Proof.
  unfold includes. rewrite existsb_exists. setoid_rewrite bool_decide_eq_true.
  rewrite list_elem_of_In, in_map_iff. naive_solver.
Qed.

Lemma attribution_ok (p c : jsstr) (g : option jsstr) :
  (bool_decide (p = c) && is_some g) || (bool_decide (p <> c) && negb (is_some g)) = false <->
  (g = None <-> p = c).
Proof.
  destruct (decide (p = c)) as [Hc|Hc].
  - rewrite (bool_decide_eq_true_2 (p = c)), (bool_decide_eq_false_2 (p <> c)) by tauto.
    destruct g; cbn; naive_solver.
  - rewrite (bool_decide_eq_false_2 (p = c)), (bool_decide_eq_true_2 (p <> c)) by tauto.
    destruct g; cbn; naive_solver.
Qed.

(** C37. A consent digest determines what was consented to: two inputs, of the
    same or of different consent actions, that hash to the same digest are the
    same action with the same fields, unless their canonical payloads are an
    explicit SHA-256 collision. *)
Theorem consent_hash_binds a b h :
  subject_hash a = Ok h -> subject_hash b = Ok h ->
  a = b \/ colliding subject_payload a b.
Proof.
  intros (v & Hv & Hvh)%subject_hash_payload (w & Hw & Hwh)%subject_hash_payload.
  destruct (subject_payload_shape a v Hv) as (l & -> & Hl & Hpl).
  destruct (subject_payload_shape b w Hw) as (k & -> & Hk & Hpk).
  destruct (canonicalSha256_plain _ _ h Hpl Hpk Hvh Hwh) as [E|Hc].
  - left. eapply same_action_inj; eauto.
    cbn [json_plain] in Hpl, Hpk. apply andb_true_iff in Hpl as [Hpl%bool_decide_eq_true _],
      Hpk as [Hpk%bool_decide_eq_true _].
    pose proof (sort_json_obj_get _ _ (js "schemaVersion") Hpl Hpk E) as F.
    rewrite Hl, Hk in F. by injection F.
  - right. by exists (JObj l), (JObj k).
Qed.

(** The members of a payload of strings and nullable strings are canonical. *)
Definition member_ok (kv : jsstr * json) : bool := unicode_ok kv.1 && json_ok 1 kv.2.

Lemma payload_hashes l : forallb member_ok l = true -> is_ok (canonicalSha256 (JObj l)) = true.
Proof.
  intros Hl. apply is_ok_true. unfold canonicalSha256.
  destruct (canonicalJson (JObj l)) as [s|e] eqn:E; [by eexists|].
  assert (check_json 0 (js "$") (JObj l) = Ok tt) as Hc.
  { apply check_json_ok. cbn [json_ok]. apply andb_true_iff. split; [done|].
    rewrite forallb_forall in *. intros [k x] Hx. exact (Hl _ Hx). }
  unfold canonicalJson in E. by rewrite Hc in E.
Qed.

Lemma member_str key s : is_ascii (js key) = true -> unicode_ok s = true -> member_ok (str key s) = true.
Proof. intros Hk Hs. unfold member_ok, str. cbn. by rewrite ascii_unicode_ok, Hs. Qed.

Lemma member_nullable key o : is_ascii (js key) = true -> opt_all unicode_ok o = true ->
  member_ok (nullable key o) = true.
Proof.
  intros Hk Ho. unfold member_ok, nullable. cbn. rewrite ascii_unicode_ok by done.
  destruct o; [exact Ho|done].
Qed.

Lemma opt_all_impl {A} (p q : A -> bool) o :
  (forall a, p a = true -> q a = true) -> opt_all p o = true -> opt_all q o = true.
Proof. destruct o; cbn; auto. Qed.

Lemma statement_ok o :
  opt_all (fun s => is_ok (canonicalText s) && (js_length s <=? 500)) o
  = opt_all (fun s => is_ok (canonicalText s)) o
    && negb match o with Some s => 500 <? js_length s | None => false end.
Proof. destruct o as [s|]; [|done]. cbn [opt_all]. by rewrite Z.leb_antisym. Qed.

Lemma ballot_payload_ok i : is_ok (ballot_payload i) = ballot_admissible i.
Proof.
  unfold ballot_payload, ballot_admissible. autorewrite with okrw. cbn [is_ok].
  rewrite negb_involutive, statement_ok.
  apply eq_true_iff_eq. rewrite !andb_true_iff, includes_spec, !bool_decide_eq_true.
  rewrite <- attribution_ok, (negb_true_iff (_ || _)). tauto.
Qed.

(** A ballot has a consent digest exactly when it is admissible: well-formed
    identifiers, one of the three choices, a canonical statement of at most 500
    characters, and a proxy grant exactly when caster and principal differ. *)
Theorem ballotConsentHash_ok i : is_ok (ballotConsentHash i) = ballot_admissible i.
Proof.
  rewrite <- ballot_payload_ok. unfold ballotConsentHash.
  destruct (ballot_payload i) as [v|e] eqn:E; [|done]. cbn [mbind result_bind is_ok].
  assert (ballot_admissible i = true) as Ha by by rewrite <- ballot_payload_ok, E.
  unfold ballot_admissible in Ha. rewrite statement_ok in Ha. boolify.
  assert (unicode_ok (Ballot.choice i) = true) as Hch.
  { apply ascii_unicode_ok. match goal with H : _ ∈ _ |- _ =>
      rewrite !elem_of_cons, elem_of_nil in H; by destruct H as [-> | [-> | [-> | []]]] end. }
  unfold ballot_payload in E. inv_payload. apply payload_hashes.
  cbn [forallb]. unfold schemaVersion.
  rewrite !member_str by (first [reflexivity | assumption | auto with jsdb]).
  rewrite !member_nullable
    by (first [reflexivity | eapply opt_all_impl; [|eassumption]; cbn beta; auto with jsdb]).
  done.
Qed.
End binding.

Definition sample_ballot : Ballot.input := {|
  Ballot.voteId := js "01941f29-7c00-7102-8304-0506070809ff";
  Ballot.principalMemberId := js "01941f29-7c00-7102-8304-0506070809fe";
  Ballot.casterMemberId := js "01941f29-7c00-7102-8304-0506070809fe";
  Ballot.choice := js "yes"; Ballot.statement := Some (js "agreed"); Ballot.proxyGrantId := None;
  Ballot.packageSha256 := js "e3b0c44298fc1c149afbf4c8996fb92427ae41e4649b934ca495991b7852b855" |}.

Lemma consent_hash_binds_witness :
  exists h, @subject_hash plain_platform (BallotCast sample_ballot) = Ok h /\
    (BallotCast sample_ballot = BallotCast sample_ballot \/
     colliding (@subject_payload plain_platform) (BallotCast sample_ballot) (BallotCast sample_ballot)).
Proof.
  eexists. split; [vm_compute; reflexivity|].
  eapply (@consent_hash_binds plain_platform); vm_compute; reflexivity.
Defined.
