(* ===== verification/Voting.v ===== *)
(** * Tallying a vote

    lib/domain/src/voting.ts, second part: the electorate, the ballots, the
    approval rule, [tallyVote] and the choice of the effective ballot.
    [spec_tally] is the abstract specification: weights summed over the
    electorate by what each seat's ballot says. *)

From stdpp Require Import base numbers sorting strings list.
From Stdlib Require Import Lia.
From S2P Require Import Prelude JsString Encoding JsNumber Json JsonParse JsonCanon Schemas.
From S2P Require Import ValueObjects VotingConsent.

Local Open Scope Z_scope.

Inductive BallotChoice := yes | no | abstain.
Inductive SeatRole := voting_member | management | observer.
Inductive ApprovalDenominator := eligible_denominator | participating | yes_no.
Inductive TieBehavior := reject | chair_casting_vote.
Inductive BallotSource := own | proxy.
Inductive VoteOutcome := approved | rejected | no_quorum.

#[export] Instance BallotChoice_eq : EqDecision BallotChoice.
Proof. solve_decision. Defined.
#[export] Instance SeatRole_eq : EqDecision SeatRole.
Proof. solve_decision. Defined.
#[export] Instance BallotSource_eq : EqDecision BallotSource.
Proof. solve_decision. Defined.
#[export] Instance TieBehavior_eq : EqDecision TieBehavior.
Proof. solve_decision. Defined.

Record ElectorSeat := MkSeat {
  memberId : jsstr;
  role : SeatRole;
  weight : Z;
  eligible : bool;
  recused : bool;
  chair : bool
}.

Record EffectiveBallot := MkBallot {
  principalMemberId : jsstr;
  casterMemberId : jsstr;
  choice : BallotChoice;
  source : BallotSource
}.

#[export] Instance EffectiveBallot_eq : EqDecision EffectiveBallot.
Proof. solve_decision. Defined.

Record ApprovalRule := MkRule {
  approval : Rational;
  quorum : Rational;
  approvalDenominator : ApprovalDenominator;
  abstentionsCountForQuorum : bool;
  tieBehavior : TieBehavior
}.

Record VoteTally := MkTally {
  eligibleWeight : Z;
  participatingWeight : Z;
  yesWeight : Z;
  noWeight : Z;
  abstainWeight : Z;
  quorumMet : bool;
  approvalMet : bool;
  outcome : VoteOutcome
}.

(** ** Canonical tally *)

Definition outcome_text (o : VoteOutcome) : jsstr :=
  match o with approved => js "approved" | rejected => js "rejected" | no_quorum => js "no_quorum" end.

Definition canonicalVoteTally (tally : VoteTally) : json :=
  JObj [str "schemaVersion" (js "boardagent.vote-tally.v1");
        str "eligibleWeight" (dec_signed (eligibleWeight tally));
        str "participatingWeight" (dec_signed (participatingWeight tally));
        str "yesWeight" (dec_signed (yesWeight tally));
        str "noWeight" (dec_signed (noWeight tally));
        str "abstainWeight" (dec_signed (abstainWeight tally));
        (js "quorumMet", JBool (quorumMet tally));
        (js "approvalMet", JBool (approvalMet tally));
        str "outcome" (outcome_text (outcome tally))].

Definition voteTallySha256 `{Platform} (tally : VoteTally) : result jsstr :=
  canonicalSha256 (canonicalVoteTally tally).

(** ** The electorate *)

Definition eligibleSeat (seat : ElectorSeat) : bool :=
  if bool_decide (role seat <> voting_member) then false
  else eligible seat && negb (recused seat).

Record Electorate := MkElectorate {
  seats : list (jsstr * ElectorSeat);
  electorate_weight : Z;
  chairCount : Z
}.

Definition electorate_body (st : Electorate) (seat : ElectorSeat) : result Electorate :=
  throw_if (map_has (seats st) (memberId seat))
    (JsError "duplicate electorate member: " [memberId seat]) ≫= fun _ =>
  (if bool_decide (role seat = voting_member) then assertWeight (weight seat) ≫= fun _ => Ok tt
   else throw_if (negb (weight seat =? 0))
          (RangeError "non-voting seats must have zero weight" [])) ≫= fun _ =>
  throw_if (chair seat && bool_decide (role seat <> voting_member))
    (JsError "only a voting member may be chair" []) ≫= fun _ =>
  Ok {| chairCount := if chair seat then chairCount st + 1 else chairCount st;
        seats := map_set (seats st) (memberId seat) seat;
        electorate_weight :=
          if eligibleSeat seat then electorate_weight st + weight seat else electorate_weight st |}.

Definition validateElectorate (electorate : list ElectorSeat)
  : result (list (jsstr * ElectorSeat) * Z) :=
  st ← forM electorate_body (MkElectorate [] 0 0) electorate;
  throw_if (1 <? chairCount st) (JsError "electorate may contain at most one chair" []) ≫= fun _ =>
  Ok (seats st, electorate_weight st).

Definition eligibleVotingWeight (electorate : list ElectorSeat) : result Z :=
  snd <$> validateElectorate electorate.

(** ** The ballots *)

(** [!seat || !eligibleSeat(seat)] *)
Definition not_eligible (seat : option ElectorSeat) : bool :=
  match seat with Some s => negb (eligibleSeat s) | None => true end.

Definition ballot_body (seats : list (jsstr * ElectorSeat))
    (effective : list (jsstr * EffectiveBallot)) (ballot : EffectiveBallot)
  : result (list (jsstr * EffectiveBallot)) :=
  throw_if (not_eligible (map_get seats (principalMemberId ballot)))
    (JsError "ballot principal is not eligible" []) ≫= fun _ =>
  throw_if (bool_decide (source ballot = own)
            && bool_decide (casterMemberId ballot <> principalMemberId ballot))
    (JsError "own ballot caster must be the principal" []) ≫= fun _ =>
  (if bool_decide (source ballot = proxy) then
     throw_if (bool_decide (casterMemberId ballot = principalMemberId ballot))
       (JsError "proxy ballot caster must differ from the principal" []) ≫= fun _ =>
     throw_if (not_eligible (map_get seats (casterMemberId ballot)))
       (JsError "proxy holder is not eligible" [])
   else Ok tt) ≫= fun _ =>
  throw_if (map_has effective (principalMemberId ballot))
    (JsError "multiple active ballots for principal" []) ≫= fun _ =>
  Ok (map_set effective (principalMemberId ballot) ballot).

Record Count := MkCount { yes_count : Z; no_count : Z; abstain_count : Z; chairYes : bool }.

(** One round of the counting loop; [seats.get(memberId)!] is [None] only for a
    principal that the previous loop would have refused, and the code would then
    throw on reading its weight. *)
Definition count_body (seats : list (jsstr * ElectorSeat)) (c : Count)
    (entry : jsstr * EffectiveBallot) : result Count :=
  match map_get seats entry.1 with
  | None => Throw (TypeError "Cannot read properties of undefined" [])
  | Some seat =>
      Ok match choice entry.2 with
         | yes => MkCount (yes_count c + weight seat) (no_count c) (abstain_count c)
                    (chairYes c || chair seat)
         | no => MkCount (yes_count c) (no_count c + weight seat) (abstain_count c) (chairYes c)
         | abstain => MkCount (yes_count c) (no_count c) (abstain_count c + weight seat) (chairYes c)
         end
  end.

Definition decide_outcome (rule : ApprovalRule) (eligibleWeight : Z) (c : Count) : result VoteTally :=
  let yesWeight := yes_count c in
  let noWeight := no_count c in
  let abstainWeight := abstain_count c in
  let quorumParticipation :=
    yesWeight + noWeight + (if abstentionsCountForQuorum rule then abstainWeight else 0) in
  let participatingWeight := yesWeight + noWeight + abstainWeight in
  let approvalTotal :=
    match approvalDenominator rule with
    | eligible_denominator => eligibleWeight
    | participating => participatingWeight
    | yes_no => yesWeight + noWeight
    end in
  quorumMet ←
    (if 0 <? eligibleWeight then meetsFraction quorumParticipation eligibleWeight (quorum rule)
     else Ok false);
  met ← meetsFraction yesWeight approvalTotal (approval rule);
  let approvalMet :=
    if yesWeight =? noWeight
    then bool_decide (tieBehavior rule = chair_casting_vote) && chairYes c else met in
  let outcome := if negb quorumMet then no_quorum else if approvalMet then approved else rejected in
  Ok (MkTally eligibleWeight participatingWeight yesWeight noWeight abstainWeight
        quorumMet approvalMet outcome).

Definition tallyVote (electorate : list ElectorSeat) (ballots : list EffectiveBallot)
    (rule : ApprovalRule) : result VoteTally :=
  '(seats, eligibleWeight) ← validateElectorate electorate;
  effective ← forM (ballot_body seats) [] ballots;
  c ← forM (count_body seats) (MkCount 0 0 0 false) effective;
  decide_outcome rule eligibleWeight c.

(** ** The effective ballot of a principal *)

Inductive PrincipalSupersessionRule := principal_supersedes_proxy | first_ballot_final.

#[export] Instance PrincipalSupersessionRule_eq : EqDecision PrincipalSupersessionRule.
Proof. solve_decision. Defined.

Definition chooseEffectiveBallot (current : option EffectiveBallot) (incoming : EffectiveBallot)
    (policy : PrincipalSupersessionRule) : result EffectiveBallot :=
  match current with
  | None => Ok incoming
  | Some current =>
      throw_if (bool_decide (principalMemberId current <> principalMemberId incoming))
        (JsError "principal mismatch" []) ≫= fun _ =>
      throw_if (bool_decide (policy = first_ballot_final))
        (JsError "principal already has an active ballot" []) ≫= fun _ =>
      throw_if (bool_decide (source incoming <> own))
        (JsError "only the principal may supersede a proxy ballot" []) ≫= fun _ =>
      Ok incoming
  end.

(** ** Specification *)

Definition seat_ok (s : ElectorSeat) : bool :=
  match role s with
  | voting_member => in_range 1 MAX_VOTING_WEIGHT (weight s)
  | _ => (weight s =? 0) && negb (chair s)
  end.

(** Distinct members, admissible seats, at most one chair. *)
Definition valid_electorate (es : list ElectorSeat) : bool :=
  bool_decide (NoDup (map memberId es)) && forallb seat_ok es
  && (sum_by (fun s => if chair s then 1 else 0) es <=? 1).

Definition eligible_member (es : list ElectorSeat) (m : jsstr) : bool :=
  existsb (fun s => bool_decide (memberId s = m) && eligibleSeat s) es.

Definition ballot_ok (es : list ElectorSeat) (b : EffectiveBallot) : bool :=
  eligible_member es (principalMemberId b)
  && match source b with
     | own => bool_decide (casterMemberId b = principalMemberId b)
     | proxy => bool_decide (casterMemberId b <> principalMemberId b)
                && eligible_member es (casterMemberId b)
     end.

(** Every ballot is by or for an eligible member, one per principal. *)
Definition valid_ballots (es : list ElectorSeat) (bs : list EffectiveBallot) : bool :=
  forallb (ballot_ok es) bs && bool_decide (NoDup (map principalMemberId bs)).

Definition votes (bs : list EffectiveBallot) (c : BallotChoice) (s : ElectorSeat) : bool :=
  existsb (fun b => bool_decide (principalMemberId b = memberId s) && bool_decide (choice b = c)) bs.

(** The weight of the seats whose ballot says [c]. *)
Definition cast_weight (es : list ElectorSeat) (bs : list EffectiveBallot) (c : BallotChoice) : Z :=
  sum_by (fun s => if votes bs c s then weight s else 0) es.

Definition eligible_weight (es : list ElectorSeat) : Z :=
  sum_by (fun s => if eligibleSeat s then weight s else 0) es.

Definition at_least (value total : Z) (f : Rational) : bool :=
  total * numerator f <=? value * denominator f.

Definition spec_tally (es : list ElectorSeat) (bs : list EffectiveBallot) (rule : ApprovalRule)
  : VoteTally :=
  let y := cast_weight es bs yes in
  let n := cast_weight es bs no in
  let a := cast_weight es bs abstain in
  let e := eligible_weight es in
  let quorate :=
    (0 <? e) && at_least (y + n + (if abstentionsCountForQuorum rule then a else 0)) e (quorum rule) in
  let carried :=
    if y =? n
    then bool_decide (tieBehavior rule = chair_casting_vote) && existsb (fun s => chair s && votes bs yes s) es
    else at_least y (match approvalDenominator rule with
                     | eligible_denominator => e | participating => y + n + a | yes_no => y + n end)
           (approval rule) in
  MkTally e (y + n + a) y n a quorate carried
    (if quorate then if carried then approved else rejected else no_quorum).

(** ** Lemmas: the three loops *)

Definition index (es : list ElectorSeat) : list (jsstr * ElectorSeat) :=
  map (fun s => (memberId s, s)) es.

Definition index_ballots (bs : list EffectiveBallot) : list (jsstr * EffectiveBallot) :=
  map (fun b => (principalMemberId b, b)) bs.

Lemma index_keys es : (index es).*1 = map memberId es.
Proof. unfold index. induction es as [|s es IH]; [done|]. cbn. by rewrite IH. Qed.
Lemma index_ballots_keys bs : (index_ballots bs).*1 = map principalMemberId bs.
Proof. unfold index_ballots. induction bs as [|b bs IH]; [done|]. cbn. by rewrite IH. Qed.

Definition chair_count (es : list ElectorSeat) : Z := sum_by (fun s => if chair s then 1 else 0) es.

Lemma seat_check s :
  (if bool_decide (role s = voting_member) then assertWeight (weight s) ≫= fun _ => Ok tt
   else throw_if (negb (weight s =? 0))
          (RangeError "non-voting seats must have zero weight" [])) = Ok tt /\
  chair s && bool_decide (role s <> voting_member) = false <->
  seat_ok s = true.
Proof.
  unfold seat_ok. destruct (decide (role s = voting_member)) as [Er|Er].
  - rewrite Er, bool_decide_eq_true_2 by done.
    rewrite bool_decide_eq_false_2, andb_false_r by tauto.
    rewrite bind_ok. setoid_rewrite assertWeight_ok. rewrite in_range_spec.
    split; [intros [(w & [-> Hw] & _) _]; lia|]. intros Hw. split; [|done].
    exists (weight s). split_and!; [done|lia..|done].
  - rewrite bool_decide_eq_false_2, bool_decide_eq_true_2, andb_true_r by done.
    rewrite throw_if_ok, negb_false_iff. destruct (role s); [done|..];
      by rewrite andb_true_iff, negb_true_iff.
Qed.

Lemma electorate_body_ok st s st' :
  electorate_body st s = Ok st' <->
  (memberId s ∉ (seats st).*1) /\ seat_ok s = true /\
  st' = MkElectorate (seats st ++ [(memberId s, s)])
          (electorate_weight st + (if eligibleSeat s then weight s else 0))
          (chairCount st + (if chair s then 1 else 0)).
Proof.
  unfold electorate_body.
  rewrite !ok_tt_bind, !throw_if_ok, map_has_false, map_get_none, <- seat_check.
  assert (memberId s ∉ (seats st).*1 ->
    {| chairCount := if chair s then chairCount st + 1 else chairCount st;
       seats := map_set (seats st) (memberId s) s;
       electorate_weight :=
         if eligibleSeat s then electorate_weight st + weight s else electorate_weight st |}
    = MkElectorate (seats st ++ [(memberId s, s)])
          (electorate_weight st + (if eligibleSeat s then weight s else 0))
          (chairCount st + (if chair s then 1 else 0))) as Hu.
  { intros Hn. rewrite map_set_fresh by by apply map_get_none.
    by destruct (chair s), (eligibleSeat s); rewrite ?Z.add_0_r. }
  split.
  - intros (Hn & Hr & Hc & [= <-]). split_and!; [done..|]. by rewrite Hu.
  - intros (Hn & [Hr Hc] & ->). split_and!; [done..|]. by rewrite Hu.
Qed.

Lemma electorate_loop l : forall pre w c st',
  NoDup (map memberId pre) ->
  forM electorate_body (MkElectorate (index pre) w c) l = Ok st' <->
  NoDup (map memberId (pre ++ l)) /\ forallb seat_ok l = true /\
  st' = MkElectorate (index (pre ++ l)) (w + eligible_weight l) (c + chair_count l).
Proof.
  unfold eligible_weight, chair_count.
  induction l as [|s l IH]; intros pre w c st' Hpre; cbn [forM forallb].
  { rewrite app_nil_r. cbn. rewrite !Z.add_0_r. split; [by intros [= <-]|by intros (_ & _ & ->)]. }
  rewrite bind_ok. setoid_rewrite electorate_body_ok. cbn [seats electorate_weight chairCount].
  rewrite index_keys.
  assert (forall w c, (forM electorate_body (MkElectorate (index pre ++ [(memberId s, s)]) w c) l = Ok st')
    = (forM electorate_body (MkElectorate (index (pre ++ [s])) w c) l = Ok st')) as Hsnoc.
  { intros. unfold index. by rewrite map_app. }
  rewrite andb_true_iff. split.
  - intros (a & (Hn & Hs & ->) & Hf). rewrite Hsnoc, IH in Hf.
    + rewrite <- app_assoc in Hf. destruct Hf as (Hd & Hl & ->). split_and!; [done..|].
      f_equal; cbn; unfold sum_by; lia.
    + rewrite map_app. apply NoDup_app. split_and!; [done| |apply NoDup_singleton].
      intros x Hx ->%list_elem_of_singleton. done.
  - intros (Hd & [Hs Hl] & ->).
    assert (NoDup (map memberId (pre ++ [s]))) as Hd'.
    { replace (pre ++ s :: l) with ((pre ++ [s]) ++ l) in Hd by by rewrite <- app_assoc.
      rewrite map_app in Hd. by apply NoDup_app in Hd as [? _]. }
    eexists. split_and!; [|done|done|].
    + rewrite map_app in Hd'. apply NoDup_app in Hd' as (_ & Hd' & _).
      intros Hin. apply (Hd' _ Hin). left.
    + rewrite Hsnoc, IH by done. rewrite <- app_assoc. split_and!; [done..|].
      f_equal; cbn; unfold sum_by; lia.
Qed.

Lemma validateElectorate_ok es r :
  validateElectorate es = Ok r <->
  valid_electorate es = true /\ r = (index es, eligible_weight es).
Proof.
  unfold validateElectorate, valid_electorate. rewrite bind_ok.
  setoid_rewrite (electorate_loop es [] 0 0); [|apply NoDup_nil_2].
  rewrite !andb_true_iff, bool_decide_eq_true, Z.leb_le. cbn [app]. split.
  - intros (st & (Hd & Hs & ->) & Hr). apply ok_tt_bind in Hr as [Hc [= <-]].
    rewrite throw_if_ok in Hc. apply Z.ltb_ge in Hc. cbn in Hc.
    split_and!; [done|done|exact Hc|done].
  - intros ([[Hd Hs] Hc] & ->). eexists. split; [by split_and!|].
    rewrite ok_tt_bind, throw_if_ok, Z.ltb_ge. split; [exact Hc|done].
Qed.

(** ** Ballots *)

Lemma valid_electorate_nodup es : valid_electorate es = true -> NoDup (map memberId es).
Proof. unfold valid_electorate. intros. by boolify. Qed.

Lemma index_get es s : NoDup (map memberId es) -> s ∈ es -> map_get (index es) (memberId s) = Some s.
Proof.
  intros Hd Hs. apply map_get_nodup; [by rewrite index_keys|].
  unfold index. apply list_elem_of_In, in_map_iff. exists s. split; [done|]. by apply list_elem_of_In.
Qed.

Lemma index_get_inv es m s : map_get (index es) m = Some s -> s ∈ es /\ memberId s = m.
Proof.
  intros H. apply map_get_in in H. unfold index in H.
  apply list_elem_of_In, in_map_iff in H as (s' & [= <- <-] & Hin). by apply list_elem_of_In in Hin.
Qed.

Lemma not_eligible_index es m :
  NoDup (map memberId es) -> not_eligible (map_get (index es) m) = negb (eligible_member es m).
Proof.
  intros Hd. apply eq_true_iff_eq. unfold not_eligible, eligible_member.
  rewrite negb_true_iff, <- not_true_iff_false, existsb_exists.
  destruct (map_get (index es) m) as [s|] eqn:E.
  - apply index_get_inv in E as Hs. destruct Hs as [Hin <-]. rewrite negb_true_iff. split.
    + intros He (s' & Hin' & [Hm%bool_decide_eq_true He']%andb_true_iff).
      apply list_elem_of_In in Hin'. pose proof (index_get es s' Hd Hin') as E'.
      rewrite Hm, E in E'. injection E' as <-. congruence.
    + intros Hn. destruct (eligibleSeat s) eqn:He; [|done]. destruct Hn.
      exists s. rewrite bool_decide_eq_true_2 by done. by rewrite <- list_elem_of_In.
  - split; [|done]. intros _ (s & Hin & [<-%bool_decide_eq_true _]%andb_true_iff).
    apply list_elem_of_In in Hin. by rewrite (index_get es s Hd Hin) in E.
Qed.

Lemma ballot_body_ok es eff b eff' :
  NoDup (map memberId es) ->
  ballot_body (index es) eff b = Ok eff' <->
  ballot_ok es b = true /\ (principalMemberId b ∉ eff.*1) /\
  eff' = eff ++ [(principalMemberId b, b)].
Proof.
  intros Hd. unfold ballot_body, ballot_ok. rewrite !not_eligible_index by done.
  rewrite !ok_tt_bind, !throw_if_ok, negb_false_iff, map_has_false, map_get_none.
  assert (principalMemberId b ∉ eff.*1 ->
    map_set eff (principalMemberId b) b = eff ++ [(principalMemberId b, b)]) as Hu.
  { intros. apply map_set_fresh. by apply map_get_none. }
  destruct (source b).
  - rewrite (bool_decide_eq_true_2 (own = own)), (bool_decide_eq_false_2 (own = proxy)) by done.
    cbn [andb]. rewrite bool_decide_eq_false, andb_true_iff, bool_decide_eq_true. split.
    + intros (He & Hc & _ & Hn & [= <-]). split_and!; [done|by apply dec_stable|done|by apply Hu].
    + intros ([He Hc] & Hn & ->). split_and!; [done|tauto|done..|]. by rewrite Hu.
  - rewrite (bool_decide_eq_false_2 (proxy = own)), (bool_decide_eq_true_2 (proxy = proxy)) by done.
    cbn [andb]. rewrite ok_tt_bind, !throw_if_ok, negb_false_iff, bool_decide_eq_false.
    rewrite !andb_true_iff, bool_decide_eq_true. split.
    + intros (He & _ & [Hc Hh] & Hn & [= <-]). split_and!; [done..|by apply Hu].
    + intros ([He [Hc Hh]] & Hn & ->). split_and!; [done..|]. by rewrite Hu.
Qed.

Lemma ballots_loop es l : NoDup (map memberId es) -> forall pre eff,
  NoDup (map principalMemberId pre) ->
  forM (ballot_body (index es)) (index_ballots pre) l = Ok eff <->
  forallb (ballot_ok es) l = true /\ NoDup (map principalMemberId (pre ++ l)) /\
  eff = index_ballots (pre ++ l).
Proof.
  intros He. induction l as [|b l IH]; intros pre eff Hpre; cbn [forM forallb].
  { rewrite app_nil_r. split; [by intros [= <-]|by intros (_ & _ & ->)]. }
  rewrite bind_ok, andb_true_iff. setoid_rewrite (ballot_body_ok es); [|done].
  rewrite index_ballots_keys.
  assert (index_ballots pre ++ [(principalMemberId b, b)] = index_ballots (pre ++ [b])) as Hs
    by (unfold index_ballots; by rewrite map_app).
  assert ((pre ++ [b]) ++ l = pre ++ b :: l) as Ha by by rewrite <- app_assoc.
  split.
  - intros (a & (Hb & Hn & ->) & Hf). rewrite Hs, IH, Ha in Hf.
    + destruct Hf as (? & ? & ->). by split_and!.
    + rewrite map_app. apply NoDup_app. split_and!; [done| |apply NoDup_singleton].
      intros x Hx ->%list_elem_of_singleton. done.
  - intros ([Hb Hl] & Hd & ->).
    assert (NoDup (map principalMemberId (pre ++ [b]))) as Hd'.
    { rewrite <- Ha, map_app in Hd. by apply NoDup_app in Hd as [? _]. }
    eexists. split_and!; [done| |done|].
    + rewrite map_app in Hd'. apply NoDup_app in Hd' as (_ & Hd' & _).
      intros Hin. apply (Hd' _ Hin). left.
    + rewrite IH, Ha by done. by split_and!.
Qed.

Lemma ballots_ok es bs eff : NoDup (map memberId es) ->
  forM (ballot_body (index es)) [] bs = Ok eff <->
  valid_ballots es bs = true /\ eff = index_ballots bs.
Proof.
  intros Hd. unfold valid_ballots. rewrite (ballots_loop es bs Hd [] eff (NoDup_nil_2)).
  rewrite andb_true_iff, bool_decide_eq_true. cbn [app]. tauto.
Qed.

(** ** Counting *)

(** The weight a ballot carries: its principal's. *)
Definition ballot_weight (es : list ElectorSeat) (b : EffectiveBallot) : Z :=
  match map_get (index es) (principalMemberId b) with Some s => weight s | None => 0 end.

Definition counted (es : list ElectorSeat) (bs : list EffectiveBallot) (c : BallotChoice) : Z :=
  sum_by (fun b => if decide (choice b = c) then ballot_weight es b else 0) bs.

Definition chair_said_yes (es : list ElectorSeat) (bs : list EffectiveBallot) : bool :=
  existsb (fun b => bool_decide (choice b = yes) &&
    match map_get (index es) (principalMemberId b) with Some s => chair s | None => false end) bs.

Definition count_ballot (c : Count) (ch : BallotChoice) (s : ElectorSeat) : Count :=
  match ch with
  | yes => MkCount (yes_count c + weight s) (no_count c) (abstain_count c) (chairYes c || chair s)
  | no => MkCount (yes_count c) (no_count c + weight s) (abstain_count c) (chairYes c)
  | abstain => MkCount (yes_count c) (no_count c) (abstain_count c + weight s) (chairYes c)
  end.

Lemma count_body_eq seats c p b s :
  map_get seats p = Some s -> count_body seats c (p, b) = Ok (count_ballot c (choice b) s).
Proof. unfold count_body. cbn [fst snd]. by intros ->. Qed.

Lemma count_loop es bs : forallb (ballot_ok es) bs = true -> NoDup (map memberId es) ->
  forall y n a ch,
  forM (count_body (index es)) (MkCount y n a ch) (index_ballots bs)
  = Ok (MkCount (y + counted es bs yes) (n + counted es bs no) (a + counted es bs abstain)
          (ch || chair_said_yes es bs)).
Proof.
  intros Hb Hd. unfold counted, chair_said_yes.
  induction bs as [|b bs IH]; intros y n a ch; cbn [forallb] in Hb.
  { cbn. by rewrite !Z.add_0_r, orb_false_r. }
  apply andb_true_iff in Hb as [Hb Hbs]. specialize (IH Hbs).
  unfold ballot_ok in Hb. apply andb_true_iff in Hb as [Hb _].
  pose proof (not_eligible_index es (principalMemberId b) Hd) as Hn. rewrite Hb in Hn.
  change (index_ballots (b :: bs)) with ((principalMemberId b, b) :: index_ballots bs).
  cbn [forM existsb].
  destruct (map_get (index es) (principalMemberId b)) as [s|] eqn:E; [|done].
  rewrite (count_body_eq _ _ _ _ s E). cbn [mbind result_bind sum_by foldr].
  assert (ballot_weight es b = weight s) as -> by (unfold ballot_weight; by rewrite E).
  destruct (choice b) eqn:Ec; cbn [count_ballot yes_count no_count abstain_count chairYes];
    rewrite IH; repeat (case_decide; try done); repeat (case_bool_decide; try done);
    unfold sum_by; do 2 f_equal; try lia; by rewrite ?orb_assoc.
Qed.

(** Counting ballot by ballot is summing over the electorate. *)
Lemma counted_cast es bs c :
  NoDup (map memberId es) -> valid_ballots es bs = true -> counted es bs c = cast_weight es bs c.
Proof.
  intros He [Hb Hd%bool_decide_eq_true]%andb_true_iff.
  set (g := fun s b => if decide (principalMemberId b = memberId s)
                       then if decide (choice b = c) then weight s else 0 else 0).
  assert (cast_weight es bs c = sum_by (fun s => sum_by (g s) bs) es) as ->.
  { apply sum_by_ext. intros s _. unfold g. destruct (votes bs c s) eqn:Ev.
    - apply existsb_exists in Ev as (b & Hin%list_elem_of_In & [Hp Hc]%andb_true_iff).
      apply bool_decide_eq_true in Hp, Hc. symmetry.
      rewrite (proj1 (sum_by_key principalMemberId (memberId s)
        (fun b => if decide (choice b = c) then weight s else 0) bs Hd) b Hin Hp).
      by rewrite decide_True.
    - symmetry. etrans; [|apply (sum_by_zero bs)]. apply sum_by_ext. intros b Hin.
      repeat case_decide; try done. exfalso. apply not_true_iff_false in Ev. apply Ev.
      apply existsb_exists. exists b. rewrite <- list_elem_of_In. by rewrite !bool_decide_eq_true_2. }
  rewrite sum_by_swap. apply sum_by_ext. intros b Hin. unfold g.
  assert (exists s, s ∈ es /\ memberId s = principalMemberId b) as (s & Hs & Es).
  { rewrite forallb_forall in Hb. specialize (Hb b (proj1 (list_elem_of_In _ _) Hin)).
    apply andb_true_iff in Hb as [(s & Hs & [Es%bool_decide_eq_true _]%andb_true_iff)%existsb_exists _].
    exists s. by rewrite list_elem_of_In. }
  unfold ballot_weight. rewrite <- Es, (index_get es s He Hs).
  erewrite (sum_by_ext _ (fun a => if decide (memberId a = memberId s)
                                   then (if decide (choice b = c) then weight a else 0) else 0)).
  - by rewrite (proj1 (sum_by_key memberId (memberId s)
      (fun a => if decide (choice b = c) then weight a else 0) es He) s Hs eq_refl).
  - intros a _. repeat case_decide; congruence.
Qed.

Lemma chair_said_yes_votes es bs :
  NoDup (map memberId es) ->
  chair_said_yes es bs = existsb (fun s => chair s && votes bs yes s) es.
Proof.
  intros He. apply eq_true_iff_eq. unfold chair_said_yes, votes. rewrite !existsb_exists. split.
  - intros (b & Hb & [Hc Hs]%andb_true_iff).
    destruct (map_get (index es) (principalMemberId b)) as [s|] eqn:E; [|done].
    apply index_get_inv in E as [Hin Es]. exists s. rewrite <- list_elem_of_In. split; [done|].
    rewrite Hs, Es. cbn [andb]. apply existsb_exists. exists b.
    by rewrite (bool_decide_eq_true_2 (_ = _)).
  - intros (s & Hin%list_elem_of_In & [Hs (b & Hb & [Ep Hc]%andb_true_iff)%existsb_exists]%andb_true_iff).
    apply bool_decide_eq_true in Ep. exists b. split; [done|].
    by rewrite Hc, Ep, (index_get es s He Hin).
Qed.

(** ** Bounds of the specification *)

Lemma seat_weight_nonneg es s : valid_electorate es = true -> s ∈ es -> 0 <= weight s <= MAX_VOTING_WEIGHT.
Proof.
  unfold valid_electorate. intros [[_ Hs]%andb_true_iff _]%andb_true_iff Hin%list_elem_of_In.
  rewrite forallb_forall in Hs. specialize (Hs s Hin). unfold seat_ok in Hs.
  destruct (role s); [apply in_range_spec in Hs; lia|..];
    apply andb_true_iff in Hs as [->%Z.eqb_eq _]; by unfold MAX_VOTING_WEIGHT.
Qed.

Lemma cast_weight_nonneg es bs c : valid_electorate es = true -> 0 <= cast_weight es bs c.
Proof.
  intros He. apply sum_by_nonneg. intros s Hs. pose proof (seat_weight_nonneg es s He Hs).
  destruct (votes bs c s); lia.
Qed.

Lemma eligible_weight_nonneg es : valid_electorate es = true -> 0 <= eligible_weight es.
Proof.
  intros He. apply sum_by_nonneg. intros s Hs. pose proof (seat_weight_nonneg es s He Hs).
  destruct (eligibleSeat s); lia.
Qed.

Lemma decide_outcome_spec es bs rule :
  valid_electorate es = true ->
  decide_outcome rule (eligible_weight es)
    (MkCount (cast_weight es bs yes) (cast_weight es bs no) (cast_weight es bs abstain)
       (existsb (fun s => chair s && votes bs yes s) es))
  = Ok (spec_tally es bs rule).
Proof.
  intros He. unfold decide_outcome, spec_tally. cbn [yes_count no_count abstain_count chairYes].
  pose proof (cast_weight_nonneg es bs yes He). pose proof (cast_weight_nonneg es bs no He).
  pose proof (cast_weight_nonneg es bs abstain He). pose proof (eligible_weight_nonneg es He).
  assert (forall (b : bool) x y f, 0 <= x -> 0 <= y ->
    (if b then meetsFraction x y f else Ok false) = Ok (b && at_least x y f)) as Hm.
  { intros b x y f Hx Hy. destruct b; [|done]. by rewrite meetsFraction_nonneg. }
  rewrite Hm by (destruct (abstentionsCountForQuorum rule); lia). cbn [mbind result_bind].
  rewrite meetsFraction_nonneg by (try lia; destruct (approvalDenominator rule); lia).
  cbn [mbind result_bind]. unfold at_least. do 2 f_equal.
  by match goal with |- (if negb ?q then _ else _) = _ => destruct q end.
Qed.

Lemma tallyVote_ok es bs rule t :
  tallyVote es bs rule = Ok t <->
  valid_electorate es = true /\ valid_ballots es bs = true /\ t = spec_tally es bs rule.
Proof.
  unfold tallyVote. rewrite bind_ok. setoid_rewrite validateElectorate_ok.
  assert (valid_electorate es = true -> valid_ballots es bs = true ->
    forM (count_body (index es)) (MkCount 0 0 0 false) (index_ballots bs) ≫= 
      decide_outcome rule (eligible_weight es) = Ok (spec_tally es bs rule)) as Hc.
  { intros He Hb. pose proof (valid_electorate_nodup es He) as Hd.
    pose proof Hb as [Hb' _]%andb_true_iff.
    rewrite (count_loop es bs Hb' Hd). cbn [mbind result_bind].
    rewrite !Z.add_0_l, !(counted_cast es bs _ Hd Hb), orb_false_l, (chair_said_yes_votes es bs Hd).
    by apply decide_outcome_spec. }
  split.
  - intros (r & [He ->] & Hr). cbn beta iota in Hr. apply bind_ok in Hr as (eff & Heff & Hr).
    apply ballots_ok in Heff as [Hb ->]; [|by apply valid_electorate_nodup].
    assert (Ok t = Ok (spec_tally es bs rule)) as [= ->] by (rewrite <- Hr; by apply Hc). done.
  - intros (He & Hb & ->). eexists. split; [done|]. cbn beta iota. apply bind_ok.
    exists (index_ballots bs). split; [|by apply Hc].
    apply ballots_ok; [by apply valid_electorate_nodup|done].
Qed.

(** ** One seat, one choice *)

Lemma votes_inv bs c s :
  votes bs c s = true <-> exists b, b ∈ bs /\ principalMemberId b = memberId s /\ choice b = c.
Proof.
  unfold votes. rewrite existsb_exists. setoid_rewrite andb_true_iff.
  setoid_rewrite bool_decide_eq_true. by setoid_rewrite <- list_elem_of_In.
Qed.

Lemma same_principal bs a b : NoDup (map principalMemberId bs) -> a ∈ bs -> b ∈ bs ->
  principalMemberId a = principalMemberId b -> a = b.
Proof.
  induction bs as [|x bs IH]; [by intros _ ?%elem_of_nil|].
  cbn. intros [Hx Hd]%NoDup_cons Ha Hb E.
  assert (forall y, y ∈ bs -> principalMemberId y = principalMemberId x -> False) as Hn.
  { intros y Hy Ey. destruct Hx. rewrite <- Ey. apply list_elem_of_In, in_map, list_elem_of_In, Hy. }
  apply elem_of_cons in Ha as [->|Ha], Hb as [->|Hb]; try done; [..|by apply IH].
  - by destruct (Hn b Hb).
  - by destruct (Hn a Ha).
Qed.

Lemma votes_unique bs c c' s : NoDup (map principalMemberId bs) ->
  votes bs c s = true -> votes bs c' s = true -> c = c'.
Proof.
  rewrite !votes_inv. intros Hd (a & Ha & Ea & <-) (b & Hb & Eb & <-).
  by rewrite (same_principal bs a b Hd Ha Hb) by congruence.
Qed.

Lemma votes_eligible es bs c s : valid_electorate es = true -> valid_ballots es bs = true ->
  s ∈ es -> votes bs c s = true -> eligibleSeat s = true.
Proof.
  intros He%valid_electorate_nodup [Hb _]%andb_true_iff Hs (b & Hin & Ep & _)%votes_inv.
  rewrite forallb_forall in Hb. specialize (Hb b (proj1 (list_elem_of_In _ _) Hin)).
  apply andb_true_iff in Hb as [(s' & Hs' & [Em%bool_decide_eq_true Hel]%andb_true_iff)%existsb_exists _].
  apply list_elem_of_In in Hs'. pose proof (index_get es s' He Hs') as E'.
  rewrite Em, Ep, (index_get es s He Hs) in E'. by injection E' as ->.
Qed.

Lemma participation_le es bs : valid_electorate es = true -> valid_ballots es bs = true ->
  cast_weight es bs yes + cast_weight es bs no + cast_weight es bs abstain <= eligible_weight es.
Proof.
  intros He Hb. unfold cast_weight, eligible_weight. rewrite <- !sum_by_add. apply sum_by_le.
  intros s Hs. pose proof (seat_weight_nonneg es s He Hs).
  pose proof (fun c => votes_eligible es bs c s He Hb Hs) as Hel.
  pose proof Hb as [_ Hd%bool_decide_eq_true]%andb_true_iff.
  pose proof (fun c c' => votes_unique bs c c' s Hd) as Hu.
  destruct (votes bs yes s) eqn:Ey, (votes bs no s) eqn:En, (votes bs abstain s) eqn:Ea;
    try (by specialize (Hu _ _ Ey En)); try (by specialize (Hu _ _ Ey Ea));
    try (by specialize (Hu _ _ En Ea));
    try rewrite (Hel _ Ey); try rewrite (Hel _ En); try rewrite (Hel _ Ea); try lia.
  destruct (eligibleSeat s); lia.
Qed.

Lemma eligible_weight_bound es : valid_electorate es = true ->
  eligible_weight es <= MAX_VOTING_WEIGHT * Z.of_nat (length es).
Proof.
  intros He. assert (sum_by (fun _ => MAX_VOTING_WEIGHT) es = MAX_VOTING_WEIGHT * Z.of_nat (length es)) as <-.
  { clear He. induction es as [|s es IH]; [done|]. unfold sum_by in *. cbn [foldr length]. lia. }
  apply sum_by_le. intros s Hs. pose proof (seat_weight_nonneg es s He Hs).
  destruct (eligibleSeat s); lia.
Qed.

(** ** Reordering *)

Lemma valid_electorate_perm es es' : es ≡ₚ es' -> valid_electorate es = valid_electorate es'.
Proof.
  intros Hp. unfold valid_electorate.
  rewrite (forallb_perm _ _ _ Hp), (sum_by_perm _ _ _ Hp). do 2 f_equal.
  apply bool_decide_ext. by rewrite (Permutation_map memberId Hp).
Qed.

Lemma eligible_member_perm es es' m : es ≡ₚ es' -> eligible_member es m = eligible_member es' m.
Proof. intros Hp. by apply existsb_perm. Qed.

Lemma ballot_ok_perm es es' b : es ≡ₚ es' -> ballot_ok es b = ballot_ok es' b.
Proof. intros Hp. unfold ballot_ok. by rewrite !(eligible_member_perm es es') by done. Qed.

Lemma valid_ballots_perm es es' bs bs' :
  es ≡ₚ es' -> bs ≡ₚ bs' -> valid_ballots es bs = valid_ballots es' bs'.
Proof.
  intros He Hb. unfold valid_ballots. rewrite (forallb_perm _ _ _ Hb). f_equal.
  - clear Hb. induction bs' as [|b l IH]; [done|]. cbn [forallb]. by rewrite (ballot_ok_perm es es' b He), IH.
  - apply bool_decide_ext. by rewrite (Permutation_map principalMemberId Hb).
Qed.

Lemma votes_perm bs bs' c s : bs ≡ₚ bs' -> votes bs c s = votes bs' c s.
Proof. intros Hp. by apply existsb_perm. Qed.

Lemma cast_weight_perm es es' bs bs' c :
  es ≡ₚ es' -> bs ≡ₚ bs' -> cast_weight es bs c = cast_weight es' bs' c.
Proof.
  intros He Hb. unfold cast_weight. rewrite (sum_by_perm _ _ _ He).
  apply sum_by_ext. intros s _. by rewrite (votes_perm bs bs').
Qed.

Lemma spec_tally_perm es es' bs bs' rule :
  es ≡ₚ es' -> bs ≡ₚ bs' -> spec_tally es bs rule = spec_tally es' bs' rule.
Proof.
  intros He Hb. unfold spec_tally. rewrite !(cast_weight_perm es es' bs bs') by done.
  unfold eligible_weight. rewrite !(sum_by_perm _ _ _ He).
  assert (existsb (fun s => chair s && votes bs yes s) es
          = existsb (fun s => chair s && votes bs' yes s) es') as ->; [|done].
  rewrite (existsb_perm _ _ _ He). clear He. induction es' as [|s l IH]; [done|].
  cbn. by rewrite IH, (votes_perm bs bs').
Qed.

(** ** Changing one ballot to yes *)

Definition to_yes (b : EffectiveBallot) : EffectiveBallot :=
  MkBallot (principalMemberId b) (casterMemberId b) yes (source b).

Lemma valid_ballots_to_yes es bs1 b bs2 :
  valid_ballots es (bs1 ++ to_yes b :: bs2) = valid_ballots es (bs1 ++ b :: bs2).
Proof. unfold valid_ballots. rewrite !forallb_app, !map_app. reflexivity. Qed.

Lemma counted_middle es bs1 b bs2 c :
  counted es (bs1 ++ b :: bs2) c
  = counted es (bs1 ++ bs2) c + (if decide (choice b = c) then ballot_weight es b else 0).
Proof. unfold counted. rewrite !sum_by_app. cbn. unfold sum_by. lia. Qed.

Lemma ballot_weight_nonneg es b : valid_electorate es = true -> 0 <= ballot_weight es b.
Proof.
  intros He. unfold ballot_weight. destruct (map_get (index es) (principalMemberId b)) eqn:E; [|lia].
  apply index_get_inv in E as [Hin _]. pose proof (seat_weight_nonneg es _ He Hin). lia.
Qed.

(** More value for no more total still reaches a fraction at most one. *)
Lemma at_least_more v t v' t' f :
  0 <= numerator f <= denominator f -> v <= v' -> t' - t <= v' - v ->
  at_least v t f = true -> at_least v' t' f = true.
Proof. unfold at_least. rewrite !Z.leb_le. destruct f as [n d]; cbn. intros. nia. Qed.

(** Reaching half of a total that includes both sides, and no tie, is a majority. *)
Lemma at_least_majority y n t f :
  0 < denominator f -> denominator f <= 2 * numerator f -> 0 <= y -> 0 <= n -> y + n <= t -> y <> n ->
  at_least y t f = true -> n < y.
Proof.
  unfold at_least. rewrite Z.leb_le. destruct f as [p d]; cbn. intros.
  assert ((y + n) * d <= 2 * y * d) by nia. nia.
Qed.

(** The verdict when ties reject, as a function of the three weights. *)
Definition verdict (rule : ApprovalRule) (e y n a : Z) : VoteOutcome :=
  if (0 <? e) && at_least (y + n + (if abstentionsCountForQuorum rule then a else 0)) e (quorum rule)
  then if (if y =? n then false
           else at_least y (match approvalDenominator rule with
                            | eligible_denominator => e | participating => y + n + a
                            | yes_no => y + n end) (approval rule))
       then approved else rejected
  else no_quorum.

Lemma verdict_mono rule e y n a y' n' a' :
  0 <= numerator (approval rule) <= denominator (approval rule) ->
  0 < denominator (approval rule) -> denominator (approval rule) <= 2 * numerator (approval rule) ->
  0 <= numerator (quorum rule) <= denominator (quorum rule) ->
  0 <= y <= y' -> n' <= n -> 0 <= n -> a' <= a -> 0 <= a -> y' + n' + a' = y + n + a -> y + n + a <= e ->
  verdict rule e y n a = approved -> verdict rule e y' n' a' = approved.
Proof.
  intros Ha Hd Hh Hq Hy Hn Hn0 Hab Ha0 Hsum He. unfold verdict.
  destruct (_ && _) eqn:Q; [|done]. apply andb_true_iff in Q as [-> Q].
  destruct (Z.eqb_spec y n) as [|Hyn]; [done|]. destruct (at_least y _ _) eqn:A; [|done]. intros _.
  rewrite (at_least_more _ _ _ _ _ Hq) with (3 := Q) by (destruct (abstentionsCountForQuorum rule); lia).
  assert (n < y) by (eapply at_least_majority; [..|exact A]; try lia;
    destruct (approvalDenominator rule); lia).
  rewrite (proj2 (Z.eqb_neq y' n')) by lia.
  rewrite (at_least_more _ _ _ _ _ Ha) with (3 := A) by (destruct (approvalDenominator rule); lia).
  done.
Qed.

(** ** The digest of a tally *)

Lemma dec_signed_inj a b : 0 <= a -> 0 <= b -> dec_signed a = dec_signed b -> a = b.
Proof.
  intros Ha Hb. unfold dec_signed. rewrite (proj2 (Z.ltb_ge a 0)), (proj2 (Z.ltb_ge b 0)) by done.
  by apply dec_inj.
Qed.

Definition nonneg_tally (t : VoteTally) : Prop :=
  0 <= eligibleWeight t /\ 0 <= participatingWeight t /\ 0 <= yesWeight t /\ 0 <= noWeight t /\
  0 <= abstainWeight t.

Lemma spec_tally_nonneg es bs rule : valid_electorate es = true -> nonneg_tally (spec_tally es bs rule).
Proof.
  intros He. pose proof (fun c => cast_weight_nonneg es bs c He) as Hw.
  pose proof (Hw yes). pose proof (Hw no). pose proof (Hw abstain).
  unfold nonneg_tally. cbn. pose proof (eligible_weight_nonneg es He). lia.
Qed.

Lemma canonicalVoteTally_inj t t' : nonneg_tally t -> nonneg_tally t' ->
  sort_json (canonicalVoteTally t) = sort_json (canonicalVoteTally t') -> t = t'.
Proof.
  intros (? & ? & ? & ? & ?) (? & ? & ? & ? & ?) E. unfold canonicalVoteTally in E. same_members E.
  repeat match goal with F : dec_signed _ = dec_signed _ |- _ => apply dec_signed_inj in F; [|done..] end.
  destruct t as [? ? ? ? ? ? ? o], t' as [? ? ? ? ? ? ? o']; cbn in *. subst.
  f_equal. by destruct o, o'.
Qed.

(** ** Properties of the tally *)

(** C1. [tallyVote] refines its specification: it returns a result exactly for
    an electorate of distinct, admissible members with at most one chair and
    ballots that are attributed, eligible and one per principal, and the result
    is then the tally whose weights are summed over the electorate, whose
    fractions are compared exactly and whose outcome is no_quorum, approved or
    rejected accordingly. *)
Theorem tallyVote_refines es bs rule t :
  tallyVote es bs rule = Ok t <->
  valid_electorate es = true /\ valid_ballots es bs = true /\ t = spec_tally es bs rule.
Proof. apply tallyVote_ok. Qed.

(** The order in which seats and ballots are listed does not matter. *)
Theorem tallyVote_order es es' bs bs' rule t :
  es ≡ₚ es' -> bs ≡ₚ bs' ->
  tallyVote es bs rule = Ok t -> tallyVote es' bs' rule = Ok t.
Proof.
  intros He Hb. rewrite !tallyVote_ok.
  by rewrite (valid_electorate_perm es es'), (valid_ballots_perm es es' bs bs'),
    (spec_tally_perm es es' bs bs').
Qed.

(** C40. Bounds: no weight is negative, the cast weights add up to the
    participating weight, nobody outside the eligible electorate is counted, and
    the eligible weight is at most a billion per seat. *)
Theorem tallyVote_bounds es bs rule t :
  tallyVote es bs rule = Ok t ->
  0 <= yesWeight t /\ 0 <= noWeight t /\ 0 <= abstainWeight t /\
  yesWeight t + noWeight t + abstainWeight t = participatingWeight t /\
  participatingWeight t <= eligibleWeight t <= MAX_VOTING_WEIGHT * Z.of_nat (length es).
Proof.
  rewrite tallyVote_ok. intros (He & Hb & ->).
  cbn [spec_tally yesWeight noWeight abstainWeight participatingWeight eligibleWeight].
  split_and!; try by apply cast_weight_nonneg.
  - done.
  - by apply participation_le.
  - by apply eligible_weight_bound.
Qed.

(** C26. More support never hurts: when ties reject and the approval threshold
    is at least one half, an approved vote stays approved when any one ballot is
    changed to yes. *)
Theorem more_support_never_hurts es bs1 b bs2 rule t an ad qn qd :
  rational an ad = Ok (approval rule) -> rational qn qd = Ok (quorum rule) ->
  ad <= 2 * an -> tieBehavior rule = reject ->
  tallyVote es (bs1 ++ b :: bs2) rule = Ok t -> outcome t = approved ->
  exists t', tallyVote es (bs1 ++ to_yes b :: bs2) rule = Ok t' /\ outcome t' = approved.
Proof.
  intros (Ea & ? & ?)%rational_ok (Eq & ? & ?)%rational_ok Hhalf Htie (He & Hb & ->)%tallyVote_ok Ho.
  assert (valid_ballots es (bs1 ++ to_yes b :: bs2) = true) as Hb' by by rewrite valid_ballots_to_yes.
  exists (spec_tally es (bs1 ++ to_yes b :: bs2) rule). split; [by apply tallyVote_ok|].
  pose proof (valid_electorate_nodup es He) as Hd. pose proof (ballot_weight_nonneg es b He) as Hw.
  pose proof (fun c => cast_weight_nonneg es (bs1 ++ b :: bs2) c He) as Hc.
  unfold spec_tally in *. cbn [outcome] in *. rewrite Htie in *.
  rewrite (bool_decide_eq_false_2 (reject = chair_casting_vote)) in * by done. cbn [andb] in *.
  pose proof (Hc yes). pose proof (Hc no). pose proof (Hc abstain). clear Hc.
  pose proof (participation_le es _ He Hb) as Hpart.
  rewrite <- !counted_cast in * by done. rewrite !counted_middle in *.
  set (cy := counted es (bs1 ++ bs2) yes) in *. set (cn := counted es (bs1 ++ bs2) no) in *.
  set (ca := counted es (bs1 ++ bs2) abstain) in *. set (w := ballot_weight es b) in *.
  change (ballot_weight es (to_yes b)) with w. change (choice (to_yes b)) with yes.
  repeat (rewrite decide_True by done || rewrite (decide_False (P := yes = _)) by done).
  revert Ho. apply verdict_mono; rewrite ?Ea, ?Eq; cbn [numerator denominator]; try done; try lia;
    destruct (choice b); repeat (case_decide; try done); lia.
Qed.

(** A tie is never decided by the threshold: with as much yes as no, the
    vote is approved exactly when it is quorate, the rule has a casting vote and
    the chair's own seat voted yes. *)
Theorem tie_outcome es bs rule t :
  tallyVote es bs rule = Ok t -> yesWeight t = noWeight t ->
  outcome t = approved <->
  quorumMet t = true /\ tieBehavior rule = chair_casting_vote /\
  exists s b, s ∈ es /\ chair s = true /\ eligibleSeat s = true /\
    b ∈ bs /\ principalMemberId b = memberId s /\ choice b = yes.
Proof.
  intros (He & Hb & ->)%tallyVote_ok. cbn [spec_tally yesWeight noWeight quorumMet outcome].
  intros ->. rewrite Z.eqb_refl.
  destruct (_ && at_least _ _ _); [|split; [done|by intros [? _]]].
  destruct (decide (tieBehavior rule = chair_casting_vote)) as [Ht|Ht].
  - rewrite bool_decide_eq_true_2 by done. cbn [andb].
    destruct (existsb _ es) eqn:E; (split; [try done|try done]).
    + intros _. split_and!; [done..|].
      apply existsb_exists in E as (s & Hs%list_elem_of_In & [Hc Hv]%andb_true_iff).
      pose proof (votes_eligible es bs yes s He Hb Hs Hv). apply votes_inv in Hv as (b & ? & ? & ?).
      by exists s, b.
    + intros (_ & _ & s & b & Hs & Hc & _ & Hin & Ep & Ec). exfalso.
      apply not_true_iff_false in E. apply E, existsb_exists. exists s.
      split; [by apply list_elem_of_In|]. rewrite Hc. cbn [andb]. apply votes_inv. by exists b.
  - rewrite bool_decide_eq_false_2 by done. cbn [andb]. split; [done|]. by intros (_ & ? & _).
Qed.

(** Certifying a tally by its digest is sound: two tallies that [tallyVote]
    computed, for whatever electorates, ballots and rules, and that have the same
    digest are the same tally, or their canonical forms are a SHA-256 collision. *)
Theorem voteTallySha256_binds `{Platform} es bs rule t es' bs' rule' t' h :
  tallyVote es bs rule = Ok t -> tallyVote es' bs' rule' = Ok t' ->
  voteTallySha256 t = Ok h -> voteTallySha256 t' = Ok h ->
  t = t' \/ collision (canonical_bytes (canonicalVoteTally t)) (canonical_bytes (canonicalVoteTally t')).
Proof.
  intros (He & _ & ->)%tallyVote_ok (He' & _ & ->)%tallyVote_ok Ht Ht'.
  edestruct (canonicalSha256_plain (canonicalVoteTally (spec_tally es bs rule))
    (canonicalVoteTally (spec_tally es' bs' rule')) h) as [E|Hc]; [done..|left|by right].
  apply canonicalVoteTally_inj; auto using spec_tally_nonneg.
Qed.

(** ** Supersession *)

(** The active ballot of a principal after the ballots [l] were accepted in
    order. *)
Definition supersede (policy : PrincipalSupersessionRule) (l : list EffectiveBallot)
  : result (option EffectiveBallot) :=
  forM (fun current b => Some <$> chooseEffectiveBallot current b policy) None l.

Lemma supersede_step policy cur b r :
  chooseEffectiveBallot (Some cur) b policy = Ok r <->
  r = b /\ principalMemberId b = principalMemberId cur /\ source b = own /\
  policy = principal_supersedes_proxy.
Proof.
  cbn. rewrite !ok_tt_bind, !throw_if_ok, !bool_decide_eq_false.
  destruct policy; split.
  - intros (? & _ & ? & [= <-]). split_and!; [done| |by apply dec_stable|done].
    symmetry. by apply dec_stable.
  - intros (-> & ? & ? & _). split_and!; [by intros []|done|by intros []|done].
  - by intros (_ & [] & _).
  - by intros (_ & _ & _ & ?).
Qed.

Lemma supersede_loop policy l : forall cur r,
  forM (fun current b => Some <$> chooseEffectiveBallot current b policy) (Some cur) l = Ok r <->
  r = Some (default cur (last l)) /\
  Forall (fun b => principalMemberId b = principalMemberId cur /\ source b = own) l /\
  (l = [] \/ policy = principal_supersedes_proxy).
Proof.
  induction l as [|b l IH]; intros cur r; cbn [forM].
  { split; [intros [= <-]; split_and!; [done|constructor|by left]|by intros (-> & _)]. }
  rewrite bind_ok. setoid_rewrite fmap_ok. split.
  - intros (s & (b' & (-> & Ep & Eo & Hp)%supersede_step & ->) & (-> & Hl & _)%IH).
    split_and!; [by rewrite last_cons; destruct (last l)| |by right].
    constructor; [done|]. eapply Forall_impl; [done|]. cbn. intros x [-> ?]. done.
  - intros (-> & [[Ep Eo] Hl]%Forall_cons & [?|Hp]); [done|].
    exists (Some b). split; [exists b; split; [by apply supersede_step|done]|].
    apply IH. split_and!; [by rewrite last_cons; destruct (last l)| |by right].
    eapply Forall_impl; [done|]. cbn. intros x [-> ?]. by rewrite Ep.
Qed.

(** Supersession: the ballots accepted for a principal are exactly a first
    ballot followed, when the policy lets the principal supersede a proxy, by
    ballots of the same principal cast in person; the last one is in force. Under
    first_ballot_final nothing follows the first. *)
Theorem supersession policy b l r :
  supersede policy (b :: l) = Ok r <->
  r = Some (default b (last l)) /\
  Forall (fun x => principalMemberId x = principalMemberId b /\ source x = own) l /\
  (l = [] \/ policy = principal_supersedes_proxy).
Proof. apply supersede_loop. Qed.

(** ** Witnesses *)

Definition sample_electorate : list ElectorSeat :=
  [MkSeat (js "ada") voting_member 2 true false true; MkSeat (js "bo") voting_member 1 true false false;
   MkSeat (js "cy") voting_member 1 true false false; MkSeat (js "obs") observer 0 true false false].

Definition sample_ballots : list EffectiveBallot :=
  [MkBallot (js "ada") (js "ada") yes own; MkBallot (js "bo") (js "ada") no proxy].

Definition sample_rule (tie : TieBehavior) : ApprovalRule :=
  MkRule (MkRational 1 2) (MkRational 1 2) participating true tie.

Lemma tallyVote_order_witness :
  tallyVote (rev sample_electorate) (rev sample_ballots) (sample_rule reject)
  = Ok (MkTally 4 3 2 1 0 true true approved).
Proof.
  apply (tallyVote_order sample_electorate _ sample_ballots);
    [apply Permutation_rev|apply Permutation_rev|vm_compute; reflexivity].
Defined.

Lemma tallyVote_bounds_witness :
  let t := MkTally 4 3 2 1 0 true true approved in
  0 <= yesWeight t /\ 0 <= noWeight t /\ 0 <= abstainWeight t /\
  yesWeight t + noWeight t + abstainWeight t = participatingWeight t /\
  participatingWeight t <= eligibleWeight t <= MAX_VOTING_WEIGHT * Z.of_nat 4.
Proof.
  apply (tallyVote_bounds sample_electorate sample_ballots (sample_rule reject)).
  vm_compute. reflexivity.
Defined.

Lemma more_support_never_hurts_witness :
  exists t', tallyVote sample_electorate
      [MkBallot (js "ada") (js "ada") yes own; to_yes (MkBallot (js "bo") (js "ada") no proxy)]
      (sample_rule reject) = Ok t' /\ outcome t' = approved.
Proof.
  apply (more_support_never_hurts sample_electorate [MkBallot (js "ada") (js "ada") yes own]
    (MkBallot (js "bo") (js "ada") no proxy) [] (sample_rule reject)
    (MkTally 4 3 2 1 0 true true approved) 1 2 1 2); try reflexivity; try lia.
Defined.

Lemma tie_outcome_witness :
  let es := [MkSeat (js "ada") voting_member 1 true false true;
             MkSeat (js "bo") voting_member 1 true false false] in
  let bs := [MkBallot (js "ada") (js "ada") yes own; MkBallot (js "bo") (js "bo") no own] in
  exists s b, s ∈ es /\ chair s = true /\ eligibleSeat s = true /\
    b ∈ bs /\ principalMemberId b = memberId s /\ choice b = yes.
Proof.
  cbv zeta.
  apply (tie_outcome _ _ (sample_rule chair_casting_vote) (MkTally 2 2 1 1 0 true true approved));
    [vm_compute; reflexivity|reflexivity|reflexivity].
Defined.

Lemma voteTallySha256_binds_witness :
  let t := MkTally 4 3 2 1 0 true true approved in
  t = t \/ collision (canonical_bytes (canonicalVoteTally t)) (canonical_bytes (canonicalVoteTally t)).
Proof.
  cbv zeta. eapply (@voteTallySha256_binds plain_platform sample_electorate sample_ballots
    (sample_rule reject) _ (rev sample_electorate) (rev sample_ballots) (sample_rule reject));
    vm_compute; reflexivity.
Defined.
