(* ===== verification/ToolTable.v ===== *)
(** * The registered tools

    lib/contracts/src/generated/registry.data.ts: name, class and required
    authority of every tool, in order. The other columns of a row are prose that
    no authorization code reads. *)

From stdpp Require Import base numbers sorting strings list.
From S2P Require Import Prelude JsString.

Inductive ToolClass := R | D | H.

#[export] Instance ToolClass_eq : EqDecision ToolClass.
Proof. solve_decision. Defined.

Record ToolRegistryEntry := MkTool {
  name : jsstr;
  class : ToolClass;
  requiredAuthority : jsstr
}.

Definition tool (n : string) (c : ToolClass) (a : string) : ToolRegistryEntry :=
  MkTool (js n) c (js a).

Definition registry_tools : list ToolRegistryEntry := [
  tool "whoami" R
    "authenticated or enrollment-limited token";
  tool "list_my_boards" R
    "`G:R`";
  tool "get_board" R
    "`G:R`";
  tool "get_my_board_snapshot" R
    "`G:R`";
  tool "list_my_updates" R
    "`G:R`";
  tool "list_pending_actions" R
    "`G:R`";
  tool "get_onboarding" R
    "`O:R`";
  tool "get_onboarding_status" R
    "`O:R`";
  tool "prepare_onboarding_attestation" H
    "`O:R`; browser recent-auth completion";
  tool "create_board" H
    "admin + `S:A`";
  tool "update_board" H
    "admin + `S:A`";
  tool "archive_board" H
    "admin + `S:A`";
  tool "get_board_governance_profile" R
    "`G:R`";
  tool "list_approval_rule_templates" R
    "`G:R`";
  tool "configure_board_governance" H
    "admin + `S:A`";
  tool "list_matter_types" R
    "`G:R`";
  tool "evaluate_matter" D
    "secretary/admin + `S:A`";
  tool "get_ruleset" R
    "`G:R`";
  tool "list_ruleset_versions" R
    "`G:R`";
  tool "validate_ruleset_draft" R
    "admin/secretary + `S:A`";
  tool "manage_ruleset" H
    "admin + `S:A`";
  tool "list_documents" R
    "`D:R`";
  tool "read_document" R
    "`D:R`";
  tool "search_documents" R
    "`D:R`";
  tool "get_document_hash" R
    "`D:R`";
  tool "list_document_versions" R
    "`D:R`";
  tool "get_document_validation_status" R
    "contributor or `D:R`";
  tool "create_document_version" D
    "management/secretary + `D:C`";
  tool "circulate_document" H
    "secretary + `S:A`";
  tool "manage_document_access" H
    "secretary/admin + `S:A`";
  tool "manage_recusal" H
    "secretary/admin + `S:A`";
  tool "archive_document" H
    "secretary/admin + `S:A`";
  tool "soft_delete_document" H
    "admin + `S:A`";
  tool "submit_document_to_secretariat" D
    "management + `D:C`";
  tool "list_management_submissions" R
    "management/secretary + `G:R`";
  tool "get_management_submission" R
    "management/secretary + `G:R`";
  tool "request_management_revision" D
    "secretary + `S:A`";
  tool "reply_to_management_revision" D
    "submitting management + `D:C`";
  tool "resubmit_management_materials" D
    "submitting management + `D:C`";
  tool "approve_management_submission" D
    "secretary + `S:A`";
  tool "reject_management_submission" D
    "secretary + `S:A`";
  tool "ask_management" D
    "voting member **or observer** + `MQ`";
  tool "list_management_questions" R
    "`G:R`";
  tool "get_management_question" R
    "`G:R`";
  tool "answer_management_question" D
    "assigned management + `MQ`";
  tool "follow_up_management_question" D
    "entitled voting member **or observer** + `MQ`";
  tool "list_meetings" R
    "`G:R`";
  tool "get_agenda" R
    "`G:R`";
  tool "rsvp" D
    "nonobserver board seat + `MT:A`";
  tool "get_attendance" R
    "`G:R`";
  tool "create_meeting" H
    "secretary + `S:A`";
  tool "amend_meeting" H
    "secretary + `S:A`";
  tool "record_attendance" D
    "secretary + `S:A`";
  tool "correct_attendance" H
    "secretary + `S:A`";
  tool "cancel_meeting" H
    "secretary + `S:A`";
  tool "complete_meeting" H
    "secretary + `S:A`";
  tool "list_meeting_transcripts" R
    "`G:R`";
  tool "get_meeting_transcript" R
    "`G:R`";
  tool "create_meeting_transcript_version" D
    "secretary + `S:A`";
  tool "verify_meeting_transcript" H
    "secretary + `S:A`";
  tool "link_meeting_qna" H
    "secretary + `S:A`";
  tool "challenge_transcript_turn" D
    "entitled nonobserver participant + `S:M`";
  tool "resolve_transcript_challenge" H
    "secretary + `S:A`";
  tool "list_votes" R
    "`G:R`";
  tool "get_vote" R
    "`G:R`";
  tool "get_vote_lineage" R
    "`G:R`";
  tool "stage_ballot" H
    "eligible voting seat + `V:A`";
  tool "grant_proxy" H
    "eligible principal + `P:M`";
  tool "revoke_proxy" H
    "principal + `P:M`";
  tool "get_proxy_status" R
    "principal/holder/secretary + `G:R`";
  tool "get_vote_certificate" R
    "`G:R` or `A:R`";
  tool "verify_certificate" R
    "authenticated";
  tool "create_vote" H
    "secretary + `S:A`";
  tool "amend_resolution_text" H
    "secretary + `S:A`";
  tool "replace_open_vote" H
    "secretary + `S:A`";
  tool "exclude_pending_vote_source" H
    "secretary + `S:A`";
  tool "extend_vote_deadline" H
    "secretary + `S:A`";
  tool "close_vote" H
    "secretary + `S:A`; only for `secretariat_confirmed` close mode";
  tool "cancel_vote" H
    "secretary + `S:A`";
  tool "get_minutes" R
    "`G:R`";
  tool "list_minutes_versions" R
    "`G:R`";
  tool "get_minutes_lineage" R
    "`G:R`";
  tool "create_minutes_version" D
    "secretary + `S:A`";
  tool "publish_minutes" H
    "secretary + `S:A`";
  tool "list_minutes_review_items" R
    "entitled participant + `G:R`";
  tool "comment_minutes" D
    "entitled voting member **or observer** + `M:A`";
  tool "withdraw_minutes_comment" D
    "entitled comment author, including observer + `M:A`";
  tool "propose_minutes_redline" D
    "entitled voting member **or observer** + `M:A`";
  tool "resolve_minutes_review_item" H
    "secretary + `S:A`";
  tool "correct_minutes_package" H
    "secretary + `S:A`";
  tool "prepare_minutes_for_signature" H
    "secretary + `S:A`";
  tool "stage_minutes_signature" H
    "configured entitled voting member **or observer** + `M:A`";
  tool "finalize_minutes" H
    "secretary + `S:A`";
  tool "create_minutes_correction_cycle" H
    "secretary + `S:A`";
  tool "cancel_minutes" H
    "secretary + `S:A`";
  tool "list_my_tasks" R
    "`G:R`";
  tool "list_action_items" R
    "`G:R`";
  tool "get_task" R
    "`G:R`";
  tool "get_action_item" R
    "`G:R`";
  tool "log_minutes_action_items" H
    "secretary + `S:A`";
  tool "declare_no_minutes_action_items" H
    "secretary + `S:A`";
  tool "create_task" H
    "secretary + `S:A`";
  tool "start_task" D
    "assignee + `T:A`";
  tool "submit_task_evidence" D
    "assignee + `T:A`";
  tool "review_task_evidence" H
    "secretary + `S:A`";
  tool "complete_task" H
    "secretary + `S:A`";
  tool "create_task_correction_cycle" H
    "secretary + `S:A`";
  tool "cancel_task" H
    "secretary + `S:A`";
  tool "propose_action" D
    "voting member/management + `MP`";
  tool "withdraw_proposal" D
    "proposer + `MP`";
  tool "list_proposals" R
    "secretary + `S:A`";
  tool "approve_proposal" D
    "secretary + `S:A`";
  tool "reject_proposal" D
    "secretary + `S:A`";
  tool "ask_secretariat" D
    "nonobserver member/management + `S:M`";
  tool "list_secretariat_requests" R
    "requester or secretary + `G:R`";
  tool "reply_secretariat_request" D
    "secretary + `S:A`";
  tool "close_secretariat_request" D
    "requester or secretary + `S:M`";
  tool "list_members" R
    "secretary/admin + `S:A`";
  tool "get_member" R
    "own identity or secretary/admin + `S:A`";
  tool "manage_member" H
    "Current human admin + `S:A`, OR current human secretary with live exact-board member-administration delegation + `S:A` and strictly allowed operation/target.";
  tool "issue_enrollment" H
    "secretary/admin + `S:A`";
  tool "list_enrollments" R
    "secretary/admin + `S:A`";
  tool "revoke_enrollment" H
    "secretary/admin + `S:A`";
  tool "confirm_enrollment_activation" H
    "secretary/admin + `S:A`";
  tool "initiate_identity_recovery" H
    "secretary/admin + `S:A`";
  tool "list_my_sessions" R
    "authenticated";
  tool "revoke_my_session" H
    "authenticated recent auth";
  tool "list_oauth_clients" R
    "admin + `S:A`";
  tool "block_oauth_client" H
    "admin + `S:A`";
  tool "unblock_oauth_client" H
    "admin + `S:A`";
  tool "link_external_identity" H
    "admin + `S:A` and browser subject proof";
  tool "unlink_external_identity" H
    "admin + `S:A`";
  tool "export_audit_chain" H
    "`A:R` + recent auth";
  tool "verify_audit_chain" R
    "`A:R`";
  tool "export_system_data" H
    "admin + `S:A` + recent auth";
  tool "get_export_status" R
    "requesting principal + original scope";
  tool "read_export_chunk" R
    "requesting principal + original scope + recent auth";
  tool "cancel_export" H
    "requesting principal + original authority";
  tool "delete_export_artifact" H
    "requesting principal + original authority";
  tool "get_retention_policy" R
    "`A:R` or admin + `S:A`";
  tool "list_my_webhooks" R
    "`N:M`";
  tool "configure_webhook" H
    "`N:M` + recent auth";
  tool "rotate_webhook_secret" H
    "`N:M` + recent auth";
  tool "disable_webhook" H
    "`N:M`";
  tool "test_webhook" D
    "`N:M`";
  tool "list_my_drafts" R
    "secretary/management/member according to draft type";
  tool "resume_draft" R
    "original creator plus current authority";
  tool "cancel_draft" D
    "original creator";
  tool "manage_company_admin" H
    "Current human identity + `S:A`; admin for propose/transfer/revoke, named recipient for accept/decline, proposer/current admin for cancel; exact recent-auth H. Observer identities excluded.";
  tool "manage_member_admin_delegation" H
    "Current human admin + `S:A`; exact recent-auth H.";
  tool "list_administrative_access" R
    "Current human identity + `S:A`; own mode only, or current admin for organization mode.";
  tool "publish_secretary_support" H
    "current board secretary + `S:A`; company admin + `S:A` only for its first support version";
  tool "publish_onboarding_terms" H
    "company admin + `S:A`";
  tool "reissue_activation" H
    "company admin + `S:A`; current board secretary + `S:A` for a pending seat on their own board. The first setup administrator's own pending activation is served only by the operator CLI mode `bootstrap reissue-first-activation`."
].
