(* ===== verification/Authz.v ===== *)
(** * Authorization

    lib/authz/src/authorize.ts and surface-policy.ts: the decision on an actor,
    an object and a request, and the policy each registered tool is given. *)

From stdpp Require Import base numbers sorting strings list.
From Stdlib Require Import Lia.
From S2P Require Import Prelude JsString ToolTable.

Inductive OrganizationRole := admin | secretariat | management_role | member | observer_role.

Inductive Scope :=
  | governance_read | documents_read | vote_act | proxy_manage | minutes_act | member_propose
  | secretariat_admin | audit_read | meeting_act | task_act | documents_contribute
  | secretariat_message | management_question | notifications_manage | onboarding_read.

#[export] Instance OrganizationRole_eq : EqDecision OrganizationRole.
Proof. solve_decision. Defined.
#[export] Instance Scope_eq : EqDecision Scope.
Proof. solve_decision. Defined.

(** [set.has(x)] of a [ReadonlySet]. *)
Definition has {A} `{EqDecision A} (s : list A) (x : A) : bool := bool_decide (x ∈ s).

Definition OBSERVER_PLATFORM_SELF_SERVICE : list jsstr := map js
  ["prepare_onboarding_attestation"; "revoke_my_session"; "configure_webhook";
   "rotate_webhook_secret"; "disable_webhook"; "test_webhook"].

Definition OBSERVER_GOVERNANCE_EXCEPTIONS : list jsstr := map js
  ["ask_management"; "follow_up_management_question"; "comment_minutes";
   "withdraw_minutes_comment"; "propose_minutes_redline"; "stage_minutes_signature"].

Definition ONBOARDING_ALLOWED_WHEN_STALE : list jsstr := map js
  ["whoami"; "get_onboarding"; "get_onboarding_status"; "prepare_onboarding_attestation"].

Record AuthorizationContext := MkActor {
  memberId : jsstr;
  active : bool;
  onboardingCurrent : bool;
  roles : list OrganizationRole;
  scopes : list Scope;
  memberBoardIds : list jsstr
}.

Record ObjectContext := MkObject {
  boardId : option jsstr;
  ownerMemberId : option jsstr;
  visible : bool;
  recused : bool;
  terminal : bool
}.

Record AuthorityAlternative := MkAlternative {
  alternative_scopes : list Scope;
  alternative_roles : option (list OrganizationRole)
}.

Record AuthorizationRequest := MkRequest {
  toolName : jsstr;
  actionClass : ToolClass;
  requiredScopes : list Scope;
  requiredAnyAuthority : option (list AuthorityAlternative);
  requiredAnyRoles : option (list OrganizationRole);
  ownPlatformSelfService : bool;
  allowTerminalRead : bool
}.

Inductive DenialReason :=
  | inactive_identity | onboarding_required | missing_scope | missing_role | object_absent
  | outside_board | recused_from_object | observer_denied | not_owner | terminal_object.

Inductive AuthorizationDecision :=
  | Allowed
  | Denied (reason : DenialReason).

#[export] Instance DenialReason_eq : EqDecision DenialReason.
Proof. solve_decision. Defined.
#[export] Instance AuthorizationDecision_eq : EqDecision AuthorizationDecision.
Proof. solve_decision. Defined.

(** [alternative.roles === undefined || alternative.roles.some(..)] *)
Definition alternative_role_ok (actor : AuthorizationContext) (a : AuthorityAlternative) : bool :=
  match alternative_roles a with None => true | Some rs => existsb (has (roles actor)) rs end.

Definition authorize (actor : AuthorizationContext) (object : ObjectContext)
    (request : AuthorizationRequest) : AuthorizationDecision :=
  if negb (active actor) then Denied inactive_identity else
  if negb (onboardingCurrent actor) && negb (has ONBOARDING_ALLOWED_WHEN_STALE (toolName request))
  then Denied onboarding_required else
  if existsb (fun scope => negb (has (scopes actor) scope)) (requiredScopes request)
  then Denied missing_scope else
  let authority :=
    match requiredAnyAuthority request with
    | None => None
    | Some alternatives =>
        let scopeMatches :=
          List.filter (fun a => forallb (has (scopes actor)) (alternative_scopes a)) alternatives in
        if Nat.eqb (length scopeMatches) 0 then Some missing_scope
        else if negb (existsb (alternative_role_ok actor) scopeMatches) then Some missing_role
        else None
    end in
  match authority with
  | Some reason => Denied reason
  | None =>
  if match requiredAnyRoles request with
     | None => false
     | Some rs => Nat.ltb 0 (length rs) && negb (existsb (has (roles actor)) rs)
     end
  then Denied missing_role else
  if negb (visible object) then Denied object_absent else
  if recused object then Denied recused_from_object else
  if match boardId object with None => false | Some b => negb (has (memberBoardIds actor) b) end
  then Denied outside_board else
  if ownPlatformSelfService request && bool_decide (ownerMemberId object <> Some (memberId actor))
  then Denied not_owner else
  if has (roles actor) observer_role && bool_decide (actionClass request <> R)
     && negb (ownPlatformSelfService request && has OBSERVER_PLATFORM_SELF_SERVICE (toolName request))
     && negb (has OBSERVER_GOVERNANCE_EXCEPTIONS (toolName request))
  then Denied observer_denied else
  if terminal object && bool_decide (actionClass request <> R) && negb (allowTerminalRead request)
  then Denied terminal_object
  else Allowed
  end.

(** ** The policy of a tool *)

Definition scopeCode : list (string * Scope) :=
  [("G:R", governance_read); ("D:R", documents_read); ("V:A", vote_act); ("P:M", proxy_manage);
   ("M:A", minutes_act); ("MP", member_propose); ("S:A", secretariat_admin); ("A:R", audit_read);
   ("MT:A", meeting_act); ("T:A", task_act); ("D:C", documents_contribute);
   ("S:M", secretariat_message); ("MQ", management_question); ("N:M", notifications_manage);
   ("O:R", onboarding_read)].

Definition scopesFromAuthority (authority : jsstr) : list Scope :=
  foldl (fun result '(code, scope) =>
    if str_includes authority (js "`" ++ js code ++ js "`") then result ++ [scope] else result)
    [] scopeCode.

(** The cases of the [switch], in order. *)
Definition role_cases : list (list string * list OrganizationRole) :=
  [
   (["publish_onboarding_terms"; "create_board"; "update_board"; "archive_board";
     "configure_board_governance"; "manage_ruleset"; "soft_delete_document";
     "manage_member_admin_delegation"; "list_oauth_clients"; "block_oauth_client";
     "unblock_oauth_client"; "link_external_identity"; "unlink_external_identity";
     "export_system_data"],
    [admin]);
   (["publish_secretary_support"; "evaluate_matter"; "validate_ruleset_draft";
     "manage_document_access"; "manage_recusal"; "archive_document"; "list_members";
     "manage_member"; "get_member"; "issue_enrollment"; "reissue_activation"; "list_enrollments";
     "revoke_enrollment"; "confirm_enrollment_activation"; "initiate_identity_recovery"],
    [secretariat; admin]);
   (["circulate_document"; "request_management_revision"; "approve_management_submission";
     "reject_management_submission"; "create_meeting"; "amend_meeting"; "record_attendance";
     "correct_attendance"; "cancel_meeting"; "complete_meeting";
     "create_meeting_transcript_version"; "verify_meeting_transcript"; "link_meeting_qna";
     "resolve_transcript_challenge"; "create_vote"; "amend_resolution_text"; "replace_open_vote";
     "exclude_pending_vote_source"; "extend_vote_deadline"; "close_vote"; "cancel_vote";
     "create_minutes_version"; "publish_minutes"; "resolve_minutes_review_item";
     "correct_minutes_package"; "prepare_minutes_for_signature"; "finalize_minutes";
     "create_minutes_correction_cycle"; "cancel_minutes"; "log_minutes_action_items";
     "declare_no_minutes_action_items"; "create_task"; "review_task_evidence"; "complete_task";
     "create_task_correction_cycle"; "cancel_task"; "list_proposals"; "reply_secretariat_request"],
    [secretariat]);
   (["submit_document_to_secretariat"; "reply_to_management_revision";
     "resubmit_management_materials"; "answer_management_question"],
    [management_role]);
   (["ask_management"; "follow_up_management_question"; "comment_minutes";
     "withdraw_minutes_comment"; "propose_minutes_redline"; "stage_minutes_signature"],
    [member; observer_role]);
   (["propose_action"; "ask_secretariat"],
    [member; management_role])].

Definition rolesForTool (tool : jsstr) : option (list OrganizationRole) :=
  snd <$> List.find (fun c => has (map js c.1) tool) role_cases.

Definition isTerminalCorrection (tool : jsstr) : bool :=
  bool_decide (tool = js "create_minutes_correction_cycle")
  || bool_decide (tool = js "create_task_correction_cycle").

(** [new Map(tools.map((entry) => [entry.name, entry]))] *)
Definition BOARDAGENT_TOOL_BY_NAME : list (jsstr * ToolRegistryEntry) :=
  foldl (fun m e => map_set m (name e) e) [] registry_tools.

(** The policy built from the registry row of a tool. *)
Definition policy_of (tool : jsstr) (registryEntry : ToolRegistryEntry) : AuthorizationRequest :=
  let requiredAnyAuthority :=
    if bool_decide (tool = js "get_vote_certificate")
    then Some [MkAlternative [governance_read] None; MkAlternative [audit_read] None]
    else if bool_decide (tool = js "get_retention_policy")
    then Some [MkAlternative [audit_read] None; MkAlternative [secretariat_admin] (Some [admin])]
    else None in
  {| toolName := tool;
     actionClass := class registryEntry;
     requiredAnyRoles := rolesForTool tool;
     ownPlatformSelfService := has OBSERVER_PLATFORM_SELF_SERVICE tool;
     allowTerminalRead := bool_decide (class registryEntry = R) || isTerminalCorrection tool;
     requiredScopes :=
       match requiredAnyAuthority with
       | None => scopesFromAuthority (requiredAuthority registryEntry)
       | Some _ => []
       end;
     requiredAnyAuthority := requiredAnyAuthority |}.

Definition policyForTool (tool : jsstr) : result AuthorizationRequest :=
  match map_get BOARDAGENT_TOOL_BY_NAME tool with
  | None => Throw (JsError "unregistered BoardAgent tool: " [tool])
  | Some registryEntry => Ok (policy_of tool registryEntry)
  end.

Definition policyForMemberRead (actorMemberId targetMemberId : jsstr) : result AuthorizationRequest :=
  policy ← policyForTool (js "get_member");
  Ok (if bool_decide (actorMemberId = targetMemberId)
      then {| toolName := toolName policy; actionClass := actionClass policy;
              requiredScopes := []; requiredAnyRoles := Some [];
              requiredAnyAuthority := requiredAnyAuthority policy;
              ownPlatformSelfService := ownPlatformSelfService policy;
              allowTerminalRead := allowTerminalRead policy |}
      else policy).

(** ** Specification *)

(** Some alternative is covered by the actor's scopes and, where it names
    roles, by one of them. *)
Definition authority_granted (actor : AuthorizationContext) (request : AuthorizationRequest) : Prop :=
  match requiredAnyAuthority request with
  | None => True
  | Some alternatives => exists a, a ∈ alternatives /\ alternative_scopes a ⊆ scopes actor /\
      match alternative_roles a with
      | None => True
      | Some rs => exists r, r ∈ rs /\ r ∈ roles actor
      end
  end.

Definition role_granted (actor : AuthorizationContext) (request : AuthorizationRequest) : Prop :=
  match requiredAnyRoles request with
  | None | Some [] => True
  | Some rs => exists r, r ∈ rs /\ r ∈ roles actor
  end.

(** What an observer may do besides reading. *)
Definition observer_exception (request : AuthorizationRequest) : Prop :=
  (ownPlatformSelfService request = true /\ toolName request ∈ OBSERVER_PLATFORM_SELF_SERVICE)
  \/ toolName request ∈ OBSERVER_GOVERNANCE_EXCEPTIONS.

Record permitted (actor : AuthorizationContext) (object : ObjectContext)
    (request : AuthorizationRequest) : Prop := {
  permitted_active : active actor = true;
  permitted_onboarded :
    onboardingCurrent actor = true \/ toolName request ∈ ONBOARDING_ALLOWED_WHEN_STALE;
  permitted_scopes : requiredScopes request ⊆ scopes actor;
  permitted_authority : authority_granted actor request;
  permitted_role : role_granted actor request;
  permitted_visible : visible object = true;
  permitted_not_recused : recused object = false;
  permitted_board : forall b, boardId object = Some b -> b ∈ memberBoardIds actor;
  permitted_owner :
    ownPlatformSelfService request = true -> ownerMemberId object = Some (memberId actor);
  permitted_observer :
    observer_role ∈ roles actor -> actionClass request <> R -> observer_exception request;
  permitted_terminal :
    terminal object = true -> actionClass request = R \/ allowTerminalRead request = true
}.

(** ** Lemmas *)

Section has.
Context {A : Type} `{EqDecision A}.
Implicit Types (s l : list A).

Lemma has_true s x : has s x = true <-> x ∈ s.
Proof. unfold has. apply bool_decide_eq_true. Qed.

Lemma existsb_not_has s l : existsb (fun x => negb (has s x)) l = false <-> l ⊆ s.
Proof.
  rewrite <- not_true_iff_false, existsb_exists. split.
  - intros Hn x Hx. apply dec_stable. intros Hs. apply Hn. exists x.
    rewrite <- list_elem_of_In, negb_true_iff, <- not_true_iff_false, has_true. done.
  - intros Hs (x & Hx%list_elem_of_In & Hn). rewrite negb_true_iff, <- not_true_iff_false, has_true in Hn.
    auto.
Qed.

Lemma forallb_has s l : forallb (has s) l = true <-> l ⊆ s.
Proof.
  rewrite forallb_forall. setoid_rewrite has_true. setoid_rewrite <- list_elem_of_In. done.
Qed.

Lemma existsb_has s l : existsb (has s) l = true <-> exists x, x ∈ l /\ x ∈ s.
Proof.
  rewrite existsb_exists. setoid_rewrite has_true. by setoid_rewrite <- list_elem_of_In.
Qed.
End has.

Lemma alternative_role_ok_true actor a :
  alternative_role_ok actor a = true <->
  match alternative_roles a with
  | None => True
  | Some rs => exists r, r ∈ rs /\ r ∈ roles actor
  end.
Proof. unfold alternative_role_ok. destruct (alternative_roles a); [apply existsb_has|done]. Qed.

(** The step of [authorize] on [requiredAnyAuthority]. *)
Lemma authority_step actor request :
  match requiredAnyAuthority request with
  | None => None
  | Some alternatives =>
      let scopeMatches :=
        List.filter (fun a => forallb (has (scopes actor)) (alternative_scopes a)) alternatives in
      if Nat.eqb (length scopeMatches) 0 then Some missing_scope
      else if negb (existsb (alternative_role_ok actor) scopeMatches) then Some missing_role
      else None
  end = None <-> authority_granted actor request.
Proof.
  unfold authority_granted. destruct (requiredAnyAuthority request) as [alts|]; [|done].
  cbv zeta. set (l := List.filter _ alts).
  assert (forall a, In a l <-> In a alts /\ alternative_scopes a ⊆ scopes actor) as Hl.
  { intros a. unfold l. by rewrite filter_In, forallb_has. }
  transitivity (existsb (alternative_role_ok actor) l = true).
  - destruct l as [|x l']; [done|]. cbn [length Nat.eqb]. by destruct (existsb _ _).
  - rewrite existsb_exists. setoid_rewrite alternative_role_ok_true. setoid_rewrite Hl.
    setoid_rewrite list_elem_of_In. split; intros (a & ?); exists a; tauto.
Qed.

Lemma role_step actor request :
  match requiredAnyRoles request with
  | None => false
  | Some rs => Nat.ltb 0 (length rs) && negb (existsb (has (roles actor)) rs)
  end = false <-> role_granted actor request.
Proof.
  unfold role_granted. destruct (requiredAnyRoles request) as [[|r rs]|]; [done| |done].
  cbn [length Nat.ltb Nat.leb andb]. rewrite negb_false_iff. apply existsb_has.
Qed.

Lemma onboarding_step actor request :
  negb (onboardingCurrent actor) && negb (has ONBOARDING_ALLOWED_WHEN_STALE (toolName request)) = false
  <-> onboardingCurrent actor = true \/ toolName request ∈ ONBOARDING_ALLOWED_WHEN_STALE.
Proof. by rewrite andb_false_iff, !negb_false_iff, has_true. Qed.

Lemma board_step actor object :
  match boardId object with None => false | Some b => negb (has (memberBoardIds actor) b) end = false
  <-> forall b, boardId object = Some b -> b ∈ memberBoardIds actor.
Proof.
  destruct (boardId object) as [b|]; [|done]. rewrite negb_false_iff, has_true. naive_solver.
Qed.

Lemma owner_step actor object request :
  ownPlatformSelfService request && bool_decide (ownerMemberId object <> Some (memberId actor)) = false
  <-> (ownPlatformSelfService request = true -> ownerMemberId object = Some (memberId actor)).
Proof.
  destruct (ownPlatformSelfService request); cbn [andb]; [|done].
  rewrite bool_decide_eq_false. destruct (decide (ownerMemberId object = Some (memberId actor))); naive_solver.
Qed.

Lemma observer_step actor request :
  has (roles actor) observer_role && bool_decide (actionClass request <> R)
  && negb (ownPlatformSelfService request && has OBSERVER_PLATFORM_SELF_SERVICE (toolName request))
  && negb (has OBSERVER_GOVERNANCE_EXCEPTIONS (toolName request)) = false
  <-> (observer_role ∈ roles actor -> actionClass request <> R -> observer_exception request).
Proof.
  unfold observer_exception. rewrite <- (has_true (roles actor)), <- !has_true.
  destruct (has (roles actor) _), (ownPlatformSelfService request), (has _ _), (has _ _);
    case_bool_decide; cbn; naive_solver.
Qed.

Lemma terminal_step object request :
  terminal object && bool_decide (actionClass request <> R) && negb (allowTerminalRead request) = false
  <-> (terminal object = true -> actionClass request = R \/ allowTerminalRead request = true).
Proof.
  destruct (terminal object), (allowTerminalRead request); case_bool_decide as Hc; cbn;
    naive_solver.
Qed.

Lemma guard_allowed (b : bool) e k :
  (if b then Denied e else k) = Allowed <-> b = false /\ k = Allowed.
Proof. destruct b; naive_solver. Qed.

Lemma gate_allowed (o : option DenialReason) k :
  match o with Some e => Denied e | None => k end = Allowed <-> o = None /\ k = Allowed.
Proof. destruct o; naive_solver. Qed.

Lemma authorize_spec actor object request :
  authorize actor object request = Allowed <-> permitted actor object request.
Proof.
  unfold authorize. cbv zeta. rewrite !guard_allowed, gate_allowed, !guard_allowed.
  rewrite onboarding_step, existsb_not_has, role_step, board_step, owner_step.
  rewrite observer_step, terminal_step, !negb_false_iff.
  pose proof (authority_step actor request) as Ha. cbv zeta in Ha. rewrite Ha. split.
  - intros. destruct_and!. by constructor.
  - intros []. tauto.
Qed.

(** ** Lemmas on the registry *)

Lemma registered_row tool e :
  map_get BOARDAGENT_TOOL_BY_NAME tool = Some e -> e ∈ registry_tools /\ name e = tool.
Proof.
  intros H%map_get_in. revert H. unfold BOARDAGENT_TOOL_BY_NAME.
  cut (forall l m, (tool, e) ∈ foldl (fun m e => map_set m (name e) e) m l ->
         (tool, e) ∈ m \/ (e ∈ l /\ name e = tool)).
  { intros H Hin. by destruct (H _ _ Hin) as [?%elem_of_nil|]. }
  induction l as [|x l IH]; intros m; cbn; [by left|]. intros [H|[? ?]]%IH.
  - apply elem_of_map_set in H as [H|[-> ->]]; [by left|right]. split; [by left|done].
  - right. split; [by right|done].
Qed.

(** A test on the policy of every row holds of any policy. *)
Definition all_policies (test : AuthorizationRequest -> bool) : bool :=
  forallb (fun e => test (policy_of (name e) e)) registry_tools.

Lemma policyForTool_inv tool p :
  policyForTool tool = Ok p ->
  exists e, map_get BOARDAGENT_TOOL_BY_NAME tool = Some e /\ p = policy_of tool e.
Proof.
  unfold policyForTool. destruct (map_get _ tool) as [e|]; [|done]. intros [= <-]. by exists e.
Qed.

Lemma all_policies_sound test tool p :
  all_policies test = true -> policyForTool tool = Ok p -> test p = true.
Proof.
  unfold all_policies. rewrite forallb_forall. intros Ht (e & He & ->)%policyForTool_inv.
  apply registered_row in He as [Hin <-]. apply Ht. by apply list_elem_of_In.
Qed.

(** The tools whose policy asks for no scope. *)
Definition unscoped_mutations : list jsstr := map js
  ["revoke_my_session"; "cancel_export"; "delete_export_artifact"; "cancel_draft"].

Definition scoped_or_listed (p : AuthorizationRequest) : bool :=
  bool_decide (actionClass p = R) || has unscoped_mutations (toolName p)
  || match requiredScopes p, requiredAnyAuthority p with [], None => false | _, _ => true end.

Lemma all_scoped : all_policies scoped_or_listed = true.
Proof. vm_compute. reflexivity. Qed.

Definition alternatives_read (p : AuthorizationRequest) : bool :=
  match requiredAnyAuthority p with None => true | Some _ => bool_decide (actionClass p = R) end.

Lemma all_alternatives_read : all_policies alternatives_read = true.
Proof. vm_compute. reflexivity. Qed.

(** ** Properties *)

(** C25. An action is allowed exactly when the actor is active, onboarded (or the
    tool is one of the onboarding ones), holds every required scope, one of
    the alternative authorities and one of the required roles, the object is
    visible, not recused, on one of the actor's boards and, for self-service,
    owned by the actor, an observer only reads or uses a self-service tool of
    its own or a governance exception, and a terminal object is only read,
    unless the policy of the request lets the tool through on terminal objects
    (allowTerminalRead, which the corrections of terminal objects have). *)
Theorem authorize_permitted actor object request :
  authorize actor object request = Allowed <-> permitted actor object request.
Proof. apply authorize_spec. Qed.

(** A decision about an object the actor may not see depends on nothing about
    the object: board, owner, recusal and terminal state cannot be probed, and
    the answer is never a permission. *)
Theorem invisible_reveals_nothing actor object object' request :
  visible object = false -> visible object' = false ->
  authorize actor object request = authorize actor object' request /\
  authorize actor object request <> Allowed.
Proof.
  intros Hv Hv'. split.
  - unfold authorize. rewrite Hv, Hv'. cbn [negb]. by repeat case_match.
  - rewrite authorize_spec. intros []. congruence.
Qed.

(** Granting more never revokes: an actor with at least the scopes, boards and
    non-observer roles of another, and otherwise alike, is allowed everything
    the other is. *)
Theorem authorize_monotone actor actor' object request :
  memberId actor' = memberId actor -> active actor' = active actor ->
  onboardingCurrent actor' = onboardingCurrent actor ->
  scopes actor ⊆ scopes actor' -> memberBoardIds actor ⊆ memberBoardIds actor' ->
  roles actor ⊆ roles actor' -> (observer_role ∈ roles actor' -> observer_role ∈ roles actor) ->
  authorize actor object request = Allowed -> authorize actor' object request = Allowed.
Proof.
  intros Hid Hac Hon Hs Hb Hr Ho. rewrite !authorize_spec. intros [].
  constructor; rewrite ?Hid, ?Hac, ?Hon; auto.
  - by etrans.
  - unfold authority_granted in *. destruct (requiredAnyAuthority request); [|done].
    destruct permitted_authority0 as (a & ? & ? & Hrole). exists a. split_and!; [done|by etrans|].
    destruct (alternative_roles a); [|done]. destruct Hrole as (r & ? & ?). exists r. auto.
  - unfold role_granted in *. destruct (requiredAnyRoles request) as [[|]|]; [done| |done].
    destruct permitted_role0 as (r & ? & ?). exists r. auto.
Qed.

(** An observer, whatever other roles and scopes it holds, changes nothing
    through a registered tool except through the six governance exceptions and
    the six platform self-service tools on what it owns. *)
Theorem observer_confined actor object tool p :
  policyForTool tool = Ok p -> observer_role ∈ roles actor ->
  authorize actor object p = Allowed -> actionClass p <> R ->
  tool ∈ OBSERVER_GOVERNANCE_EXCEPTIONS \/
  (tool ∈ OBSERVER_PLATFORM_SELF_SERVICE /\ ownerMemberId object = Some (memberId actor)).
Proof.
  intros Hp Ho Ha%authorize_spec Hc. destruct Ha.
  destruct (policyForTool_inv tool p Hp) as (e & _ & ->).
  destruct (permitted_observer0 Ho Hc) as [[Hself Hin]|Hin]; cbn [policy_of toolName] in Hin; auto.
Qed.

(** The policy of a tool is enforced: an allowed actor has one of the roles
    the role table names for the tool and every scope whose abbreviation the
    registry row mentions, unless the row states alternatives (which only
    reading tools do). *)
Theorem policy_enforced actor object tool p e :
  policyForTool tool = Ok p -> map_get BOARDAGENT_TOOL_BY_NAME tool = Some e ->
  authorize actor object p = Allowed ->
  (forall rs, rolesForTool tool = Some rs -> exists r, r ∈ rs /\ r ∈ roles actor) /\
  (class e <> R -> scopesFromAuthority (requiredAuthority e) ⊆ scopes actor).
Proof.
  intros Hp He Ha%authorize_spec. destruct Ha.
  destruct (policyForTool_inv tool p Hp) as (e' & He' & Ep).
  rewrite He in He'. injection He' as <-. split.
  - intros rs Hrs. unfold role_granted in *. rewrite Ep in permitted_role0.
    cbn [policy_of requiredAnyRoles] in permitted_role0. rewrite Hrs in permitted_role0.
    destruct rs as [|r rs]; [|exact permitted_role0].
    assert (all_policies (fun p => match requiredAnyRoles p with Some [] => false | _ => true end) = true)
      as Hall by (vm_compute; reflexivity).
    pose proof (all_policies_sound _ tool p Hall Hp) as Hf. rewrite Ep in Hf.
    cbn [policy_of requiredAnyRoles] in Hf. by rewrite Hrs in Hf.
  - intros Hne.
    pose proof (all_policies_sound _ tool p all_alternatives_read Hp) as Hf. unfold alternatives_read in Hf.
    rewrite Ep in Hf, permitted_scopes0. unfold policy_of in *. cbv zeta in *.
    cbn [requiredAnyAuthority requiredScopes actionClass] in *.
    rewrite (bool_decide_eq_false_2 (class e = R)) in Hf by done.
    by repeat case_bool_decide.
Qed.

(** No registered tool changes anything for a token without scopes, except
    the four that act on the caller's own session, exports and drafts. *)
Theorem no_scope_no_mutation actor object tool p :
  policyForTool tool = Ok p -> scopes actor = [] ->
  authorize actor object p = Allowed -> actionClass p <> R ->
  tool ∈ map js ["revoke_my_session"; "cancel_export"; "delete_export_artifact"; "cancel_draft"].
Proof.
  intros Hp Hs Ha%authorize_spec Hc. destruct Ha.
  pose proof (all_policies_sound _ tool p all_scoped Hp) as Hf. unfold scoped_or_listed in Hf.
  rewrite (bool_decide_eq_false_2 (actionClass p = R)) in Hf by done. cbn [orb] in Hf.
  apply orb_true_iff in Hf as [Hf|Hf];
    [destruct (policyForTool_inv tool p Hp) as (e & _ & ->); by apply has_true in Hf|].
  pose proof (all_policies_sound _ tool p all_alternatives_read Hp) as Hr. unfold alternatives_read in Hr.
  destruct (requiredAnyAuthority p); [apply bool_decide_eq_true in Hr; congruence|].
  rewrite Hs in permitted_scopes0. destruct (requiredScopes p) as [|x l]; [done|].
  exfalso. by apply (not_elem_of_nil x), permitted_scopes0; left.
Qed.

(** Reading a member's record needs the secretariat or administrator role and
    the secretariat scope, except one's own record, for which neither is asked. *)
Theorem member_read actor object target p :
  policyForMemberRead (memberId actor) target = Ok p -> authorize actor object p = Allowed ->
  memberId actor = target \/
  (secretariat_admin ∈ scopes actor /\ (secretariat ∈ roles actor \/ admin ∈ roles actor)).
Proof.
  unfold policyForMemberRead. case_bool_decide as E; [by left|]. intros Hp Ha. right.
  vm_compute in Hp. injection Hp as <-. apply authorize_spec in Ha. destruct Ha. split.
  - apply permitted_scopes0. by left.
  - destruct permitted_role0 as (r & Hr & ?). cbn in Hr.
    apply elem_of_cons in Hr as [->|Hr]; [by left|]. apply list_elem_of_singleton in Hr as ->. by right.
Qed.

(** ** Witnesses *)

Definition sample_actor (rs : list OrganizationRole) (ss : list Scope) : AuthorizationContext :=
  MkActor (js "ada") true true rs ss [js "board"].

Definition sample_object (v : bool) (board : string) : ObjectContext :=
  MkObject (Some (js board)) (Some (js "ada")) v false false.

Lemma invisible_reveals_nothing_witness :
  let request := MkRequest (js "get_board") R [governance_read] None None false true in
  let actor := sample_actor [member] [governance_read] in
  authorize actor (sample_object false "board") request
  = authorize actor (sample_object false "other") request /\
  authorize actor (sample_object false "board") request <> Allowed.
Proof. apply invisible_reveals_nothing; reflexivity. Defined.

Lemma authorize_monotone_witness :
  let request := MkRequest (js "create_vote") H [secretariat_admin] None (Some [secretariat]) false false in
  authorize (sample_actor [member; secretariat] [governance_read; secretariat_admin])
    (sample_object true "board") request = Allowed.
Proof.
  apply (authorize_monotone (sample_actor [secretariat] [secretariat_admin])); try reflexivity.
  - intros x ->%list_elem_of_singleton. cbn. right. by left.
  - intros x ->%list_elem_of_singleton. cbn. right. by left.
  - cbn. rewrite !elem_of_cons, elem_of_nil. naive_solver.
Defined.

Lemma observer_confined_witness :
  exists p, policyForTool (js "comment_minutes") = Ok p /\
    (js "comment_minutes" ∈ OBSERVER_GOVERNANCE_EXCEPTIONS \/
     (js "comment_minutes" ∈ OBSERVER_PLATFORM_SELF_SERVICE /\
      ownerMemberId (sample_object true "board") = Some (js "ada"))).
Proof.
  eexists. split; [vm_compute; reflexivity|].
  eapply (observer_confined (sample_actor [observer_role] [minutes_act]) (sample_object true "board"));
    [vm_compute; reflexivity|by left|vm_compute; reflexivity|done].
Defined.

Lemma policy_enforced_witness :
  let actor := sample_actor [secretariat] [secretariat_admin] in
  (forall rs, rolesForTool (js "create_vote") = Some rs -> exists r, r ∈ rs /\ r ∈ roles actor) /\
  (H <> R -> scopesFromAuthority (js "secretary + `S:A`") ⊆ scopes actor).
Proof.
  pose (e := tool "create_vote" H "secretary + `S:A`").
  refine (policy_enforced _ (sample_object true "board") (js "create_vote") (policy_of (js "create_vote") e) e _ _ _);
    vm_compute; reflexivity.
Defined.

Lemma no_scope_no_mutation_witness :
  js "cancel_draft" ∈ map js ["revoke_my_session"; "cancel_export"; "delete_export_artifact"; "cancel_draft"].
Proof.
  eapply (no_scope_no_mutation (sample_actor [member] []) (sample_object true "board") _ 
    (policy_of (js "cancel_draft") (tool "cancel_draft" D "original creator")));
    [vm_compute; reflexivity|reflexivity|vm_compute; reflexivity|done].
Defined.

Lemma member_read_witness :
  let actor := sample_actor [secretariat] [secretariat_admin] in
  memberId actor = js "bo" \/
  (secretariat_admin ∈ scopes actor /\ (secretariat ∈ roles actor \/ admin ∈ roles actor)).
Proof.
  cbv zeta. eapply (member_read _ (sample_object true "board")); vm_compute; reflexivity.
Defined.
