(* ===== verification/Ruleset.v ===== *)
(** * Rulesets and their evaluation

    lib/ruleset/src/schema.ts and evaluate.ts: matter types, conditions, the
    ruleset schema, [conditionMatches] and [evaluateMatter]. *)

From stdpp Require Import base numbers sorting strings list.
From Stdlib Require Import Lia.
From S2P Require Import Prelude JsString Encoding JsNumber Json JsonParse JsonCanon Schemas.

Local Open Scope Z_scope.

(** ** Data *)

Inductive MatterValue :=
  | VBool (b : bool)
  | VNumber (n : jsnum)
  | VString (s : jsstr)
  | VNull.

#[export] Instance MatterValue_eq : EqDecision MatterValue.
Proof. solve_decision. Defined.

Definition value_json (v : MatterValue) : json :=
  match v with VBool b => JBool b | VNumber n => JNum n | VString s => JStr s | VNull => JNull end.

Inductive MatterField :=
  | BooleanField (name : jsstr) (required : bool)
  | IntegerField (name : jsstr) (required : bool) (minimum maximum : option jsnum)
  | StringField (name : jsstr) (required : bool) (maxLength : Z).

Definition field_name (f : MatterField) : jsstr :=
  match f with BooleanField n _ | IntegerField n _ _ _ | StringField n _ _ => n end.
Definition field_required (f : MatterField) : bool :=
  match f with BooleanField _ r | IntegerField _ r _ _ | StringField _ r _ => r end.

Record MatterType := MkMatterType { code : jsstr; fields : list MatterField }.

Inductive Condition :=
  | CAll (conditions : list Condition)
  | CAny (conditions : list Condition)
  | CNot (condition : Condition)
  | CExists (field : jsstr)
  | CEquals (field : jsstr) (value : MatterValue)
  | CIn (field : jsstr) (values : list MatterValue)
  | CNumberGte (field : jsstr) (value : jsnum)
  | CNumberLte (field : jsstr) (value : jsnum).

Section condition_ind.
Context (P : Condition -> Prop)
  (Hall : forall l, Forall P l -> P (CAll l)) (Hany : forall l, Forall P l -> P (CAny l))
  (Hnot : forall c, P c -> P (CNot c)) (Hex : forall f, P (CExists f))
  (Heq : forall f v, P (CEquals f v)) (Hin : forall f l, P (CIn f l))
  (Hgte : forall f n, P (CNumberGte f n)) (Hlte : forall f n, P (CNumberLte f n)).

Fixpoint condition_ind' (c : Condition) : P c :=
  let go := fix go l : Forall P l :=
    match l with
    | [] => Forall_nil_2 P
    | x :: l' => Forall_cons_2 P x l' (condition_ind' x) (go l')
    end in
  match c with
  | CAll l => Hall l (go l)
  | CAny l => Hany l (go l)
  | CNot c => Hnot c (condition_ind' c)
  | CExists f => Hex f
  | CEquals f v => Heq f v
  | CIn f l => Hin f l
  | CNumberGte f n => Hgte f n
  | CNumberLte f n => Hlte f n
  end.
End condition_ind.

Record Citation := MkCitation {
  sourceDocumentVersionId : jsstr;
  sourceDocumentSha256 : jsstr;
  clause : jsstr;
  locator : jsstr
}.

Record Rule := MkRule {
  rule_id : jsstr;
  rule_matterType : jsstr;
  priority : Z;
  specificity : Z;
  condition : Condition;
  approvalRuleId : jsstr;
  citations : list Citation
}.

Record RulesetVersion := MkRuleset {
  ruleset_id : jsstr;
  boardId : jsstr;
  version : Z;
  canonicalHash : jsstr;
  matterTypes : list MatterType;
  rules : list Rule
}.

(** ** The schemas *)

(** [z.number().int().safe()] *)
Definition safe_number (n : jsnum) : bool := isSafeInteger n.

Definition MatterValueSchema (v : MatterValue) : bool :=
  match v with
  | VBool _ | VNull => true
  | VNumber n => safe_number n
  | VString s => js_length s <=? 4096
  end.

(** [/^[a-z][a-z0-9_]{0,127}$/u] *)
Definition MatterFieldNameSchema (s : jsstr) : bool :=
  match s with
  | c :: s' => is_lower c && class_len (fun d => is_lower d || is_digit d || (d =? 95)) 0 127 s'
  | [] => false
  end.

Definition opt_ok {A} (p : A -> bool) (o : option A) : bool :=
  match o with Some a => p a | None => true end.

Definition MatterFieldSchema (f : MatterField) : bool :=
  MatterFieldNameSchema (field_name f)
  && match f with
     | BooleanField _ _ => true
     | IntegerField _ _ minimum maximum => opt_ok safe_number minimum && opt_ok safe_number maximum
     | StringField _ _ maxLength => in_range 1 262144 maxLength
     end.

(** [(field.minimum ?? -Infinity) > (field.maximum ?? +Infinity)] *)
Definition crossed_bounds (f : MatterField) : bool :=
  match f with
  | IntegerField _ _ minimum maximum =>
      num_lt (default (Infinite false) maximum) (default (Infinite true) minimum)
  | _ => false
  end.

Definition MatterTypeSchema (t : MatterType) : bool :=
  MatterFieldNameSchema (code t)
  && in_range 1 128 (Z.of_nat (length (fields t))) && forallb MatterFieldSchema (fields t)
  && all_distinct (map field_name (fields t))
  && forallb (fun f => negb (crossed_bounds f)) (fields t).

Fixpoint ConditionSchema (c : Condition) : bool :=
  match c with
  | CAll l | CAny l => in_range 1 64 (Z.of_nat (length l)) && forallb ConditionSchema l
  | CNot c => ConditionSchema c
  | CExists f => MatterFieldNameSchema f
  | CEquals f v => MatterFieldNameSchema f && MatterValueSchema v
  | CIn f l => MatterFieldNameSchema f && in_range 1 128 (Z.of_nat (length l))
      && forallb MatterValueSchema l
  | CNumberGte f n | CNumberLte f n => MatterFieldNameSchema f && safe_number n
  end.

Definition CitationSchema (c : Citation) : bool :=
  is_uuid_v7 (sourceDocumentVersionId c) && is_hex64 (sourceDocumentSha256 c)
  && in_range 1 512 (js_length (clause c)) && in_range 1 1024 (js_length (locator c)).

Definition RuleSchema (r : Rule) : bool :=
  is_uuid_v7 (rule_id r) && in_range 1 128 (js_length (rule_matterType r))
  && in_range 0 1000000 (priority r) && in_range 0 1000000 (specificity r)
  && ConditionSchema (condition r) && is_uuid_v7 (approvalRuleId r)
  && in_range 1 64 (Z.of_nat (length (citations r))) && forallb CitationSchema (citations r).

Record Counters := MkCounters { max_depth : Z; nodes : Z }.

(** The traversal with its mutable set and counters threaded through. *)
Fixpoint conditionFields (c : Condition) (st : list jsstr * Counters) (depth : Z)
  : list jsstr * Counters :=
  let st := (st.1, MkCounters (Z.max (max_depth st.2) depth) (nodes st.2 + 1)) in
  match c with
  | CAll l | CAny l => foldl (fun st child => conditionFields child st (depth + 1)) st l
  | CNot c => conditionFields c st (depth + 1)
  | CExists f | CEquals f _ | CIn f _ | CNumberGte f _ | CNumberLte f _ => (set_add st.1 f, st.2)
  end.

Definition definitions (ts : list MatterType) : list (jsstr * MatterType) :=
  foldl (fun m t => map_set m (code t) t) [] ts.

Definition rule_declared (defs : list (jsstr * MatterType)) (r : Rule) : bool :=
  match map_get defs (rule_matterType r) with
  | None => false
  | Some definition =>
      let '(used, counters) := conditionFields (condition r) ([], MkCounters 0 0) 1 in
      forallb (set_has (set_of (map field_name (fields definition)))) used
      && negb ((16 <? max_depth counters) || (512 <? nodes counters))
  end.

Definition RulesetVersionSchema (rs : RulesetVersion) : bool :=
  is_uuid_v7 (ruleset_id rs) && is_uuid_v7 (boardId rs) && is_safe_positive (version rs)
  && is_hex64 (canonicalHash rs)
  && in_range 1 1000 (Z.of_nat (length (matterTypes rs))) && forallb MatterTypeSchema (matterTypes rs)
  && in_range 1 10000 (Z.of_nat (length (rules rs))) && forallb RuleSchema (rules rs)
  && all_distinct (map code (matterTypes rs)) && all_distinct (map rule_id (rules rs))
  && forallb (rule_declared (definitions (matterTypes rs))) (rules rs).

(** ** Evaluation *)

(** Own properties of the facts object, in order. *)
Abbreviation MatterFacts := (list (jsstr * MatterValue)) (only parsing).

(** [l.every(f)], [l.some(f)] and [l.filter(f)] with a callback that may throw. *)
Fixpoint everyR {A} (f : A -> result bool) (l : list A) : result bool :=
  match l with [] => Ok true | x :: l' => b ← f x; if b : bool then everyR f l' else Ok false end.
Fixpoint someR {A} (f : A -> result bool) (l : list A) : result bool :=
  match l with [] => Ok false | x :: l' => b ← f x; if b : bool then Ok true else someR f l' end.
Fixpoint filterR {A} (f : A -> result bool) (l : list A) : result (list A) :=
  match l with
  | [] => Ok []
  | x :: l' => b ← f x; k ← filterR f l'; Ok (if b : bool then x :: k else k)
  end.

Section evaluate.
Context `{Platform}.

Definition isSame (left right : MatterValue) : result bool :=
  l ← canonicalSha256 (value_json left);
  r ← canonicalSha256 (value_json right);
  Ok (bool_decide (l = r)).

Fixpoint conditionMatches (c : Condition) (facts : MatterFacts) : result bool :=
  match c with
  | CAll l => everyR (fun entry => conditionMatches entry facts) l
  | CAny l => someR (fun entry => conditionMatches entry facts) l
  | CNot c => negb <$> conditionMatches c facts
  | CExists f => Ok (match map_get facts f with None | Some VNull => false | Some _ => true end)
  | CEquals f value =>
      match map_get facts f with None => Ok false | Some v => isSame v value end
  | CIn f values =>
      match map_get facts f with None => Ok false | Some v => someR (isSame v) values end
  | CNumberGte f value =>
      Ok (match map_get facts f with Some (VNumber n) => num_le value n | _ => false end)
  | CNumberLte f value =>
      Ok (match map_get facts f with Some (VNumber n) => num_le n value | _ => false end)
  end.

Definition assertFactValue (field : MatterField) (value : MatterValue) : result unit :=
  match value with
  | VNull => Ok tt
  | _ =>
  match field with
  | BooleanField name _ =>
      throw_if (match value with VBool _ => false | _ => true end)
        (TypeError "matter fact must be boolean" [name])
  | IntegerField name _ minimum maximum =>
      match value with
      | VNumber n =>
          throw_if (negb (isSafeInteger n))
            (TypeError "matter fact must be a safe integer" [name]) ≫= fun _ =>
          throw_if (num_lt n (default (Infinite true) minimum))
            (RangeError "matter fact is below its minimum" [name]) ≫= fun _ =>
          throw_if (num_lt (default (Infinite false) maximum) n)
            (RangeError "matter fact is above its maximum" [name])
      | _ => Throw (TypeError "matter fact must be a safe integer" [name])
      end
  | StringField name _ maxLength =>
      match value with
      | VString s =>
          throw_if (maxLength <? js_length s) (RangeError "matter fact exceeds maxLength" [name])
      | _ => Throw (TypeError "matter fact must be string" [name])
      end
  end end.

(** Required, and absent or null. *)
Definition fact_missing (facts : MatterFacts) (field : MatterField) : bool :=
  field_required field
  && match map_get facts (field_name field) with None | Some VNull => true | Some _ => false end.

Definition field_map (definition : MatterType) : list (jsstr * MatterField) :=
  foldl (fun m f => map_set m (field_name f) f) [] (fields definition).

Definition validateFacts (definition : MatterType) (facts : MatterFacts) : result (list jsstr) :=
  _ ← forM (fun (_ : unit) '(name, value) =>
        match map_get (field_map definition) name with
        | None => Throw (TypeError "unknown matter fact: " [name])
        | Some field => assertFactValue field value
        end) tt facts;
  Ok (toSorted cmp_units
        (map field_name (List.filter (fact_missing facts) (fields definition)))).

Inductive MatterEvaluation :=
  | Matched (factsHash : jsstr) (rule : Rule)
  | NoMatch (factsHash : jsstr)
  | Ambiguous (factsHash : jsstr) (candidateRuleIds : list jsstr)
  | Missing (factsHash : jsstr) (missingFields : list jsstr).

(** The comparator of [evaluateMatter]: [a || b || c] on numbers. *)
Definition cmp_rule (left right : Rule) : Z :=
  let p := priority right - priority left in
  if negb (p =? 0) then p else
  let s := specificity right - specificity left in
  if negb (s =? 0) then s else localeCompare (rule_id left) (rule_id right).

Definition candidate (matterType : jsstr) (facts : MatterFacts) (rule : Rule) : result bool :=
  if bool_decide (rule_matterType rule = matterType) then conditionMatches (condition rule) facts
  else Ok false.

Definition same_rank (a b : Rule) : bool :=
  (priority a =? priority b) && (specificity a =? specificity b).

(** The result carries the ruleset's id and version besides the evaluation. *)
Definition evaluateMatter (ruleset : RulesetVersion) (matterType : jsstr) (facts : MatterFacts)
  : result (jsstr * Z * MatterEvaluation) :=
  factsHash ← canonicalSha256 (JObj (map (fun '(k, v) => (k, value_json v)) facts));
  match List.find (fun d => bool_decide (code d = matterType)) (matterTypes ruleset) with
  | None => Throw (TypeError "unknown matter type: " [matterType])
  | Some definition =>
      missingFields ← validateFacts definition facts;
      if negb (Nat.eqb (length missingFields) 0)
      then Ok (ruleset_id ruleset, version ruleset, Missing factsHash missingFields) else
      matching ← filterR (candidate matterType facts) (rules ruleset);
      let candidates := toSorted cmp_rule matching in
      Ok (ruleset_id ruleset, version ruleset,
          match candidates with
          | [] => NoMatch factsHash
          | first :: _ =>
              let tied := List.filter (fun c => same_rank c first) candidates in
              if negb (Nat.eqb (length tied) 1) then Ambiguous factsHash (map rule_id tied)
              else Matched factsHash first
          end)
  end.
End evaluate.

(** ** Lemmas: what a condition reads *)

(** The facts a condition mentions, its height and its size. *)
Fixpoint mentions (c : Condition) : list jsstr :=
  match c with
  | CAll l | CAny l => concat (map mentions l)
  | CNot c => mentions c
  | CExists f | CEquals f _ | CIn f _ | CNumberGte f _ | CNumberLte f _ => [f]
  end.

Fixpoint height (c : Condition) : Z :=
  match c with
  | CAll l | CAny l => 1 + foldr Z.max 0 (map height l)
  | CNot c => 1 + height c
  | _ => 1
  end.

Fixpoint size (c : Condition) : Z :=
  match c with
  | CAll l | CAny l => 1 + foldr Z.add 0 (map size l)
  | CNot c => 1 + size c
  | _ => 1
  end.

Lemma height_pos c : 1 <= height c.
Proof.
  induction c as [l IH|l IH|c IH|f|f v|f l|f n|f n] using condition_ind'; cbn; try lia;
    induction IH as [|x l Hx _ IHl]; cbn; lia.
Qed.

Definition traversed (c : Condition) (st : list jsstr * Counters) (d : Z)
    (st' : list jsstr * Counters) : Prop :=
  (forall f, f ∈ st'.1 <-> f ∈ st.1 \/ f ∈ mentions c) /\
  max_depth st'.2 = Z.max (max_depth st.2) (d + height c - 1) /\
  nodes st'.2 = nodes st.2 + size c.

Lemma traverse_list l d :
  Forall (fun c => forall st d, traversed c st d (conditionFields c st d)) l ->
  forall st,
  let st' := foldl (fun st child => conditionFields child st d) st l in
  (forall f, f ∈ st'.1 <-> f ∈ st.1 \/ f ∈ concat (map mentions l)) /\
  (l <> [] -> max_depth st'.2 = Z.max (max_depth st.2) (d + foldr Z.max 0 (map height l) - 1)) /\
  (l = [] -> max_depth st'.2 = max_depth st.2) /\
  nodes st'.2 = nodes st.2 + foldr Z.add 0 (map size l).
Proof.
  induction 1 as [|c l Hc _ IH]; intros st; cbv zeta; cbn [foldl map foldr concat].
  { split_and!; try done; [|lia]. intros f. rewrite elem_of_nil. tauto. }
  destruct (Hc st d) as (Hf & Hd & Hn).
  destruct (IH (conditionFields c st d)) as (IHf & IHd & IHd0 & IHn). split_and!.
  - intros f. rewrite IHf, Hf, elem_of_app. tauto.
  - intros _. pose proof (height_pos c). destruct l as [|c' l'].
    + rewrite (IHd0 eq_refl), Hd. cbn. lia.
    + rewrite (IHd ltac:(done)), Hd. pose proof (height_pos c'). cbn. lia.
  - done.
  - rewrite IHn, Hn. lia.
Qed.

Lemma conditionFields_spec c : forall st d, traversed c st d (conditionFields c st d).
Proof.
  induction c as [l IH|l IH|c IH|f|f v|f l|f n|f n] using condition_ind'; intros st d;
    unfold traversed; cbn [conditionFields mentions height size].
  1, 2: destruct (traverse_list l (d + 1) IH (st.1, MkCounters (Z.max (max_depth st.2) d) (nodes st.2 + 1)))
      as (Hf & Hd & Hd0 & Hn); cbn [fst snd max_depth nodes] in *; split_and!; [exact Hf| |lia];
    destruct l as [|c l]; [rewrite Hd0 by done; cbn; lia|rewrite Hd by done;
      pose proof (height_pos c); cbn; lia].
  - destruct (IH (st.1, MkCounters (Z.max (max_depth st.2) d) (nodes st.2 + 1)) (d + 1))
      as (Hf & Hd & Hn). cbn [fst snd max_depth nodes] in *. split_and!; [exact Hf| |lia].
    pose proof (height_pos c). lia.
  - split_and!; cbn; try lia. intros g. rewrite elem_of_set_add, list_elem_of_singleton. tauto.
  - split_and!; cbn; try lia. intros g. rewrite elem_of_set_add, list_elem_of_singleton. tauto.
  - split_and!; cbn; try lia. intros g. rewrite elem_of_set_add, list_elem_of_singleton. tauto.
  - split_and!; cbn; try lia. intros g. rewrite elem_of_set_add, list_elem_of_singleton. tauto.
  - split_and!; cbn; try lia. intros g. rewrite elem_of_set_add, list_elem_of_singleton. tauto.
Qed.

Section evaluate_lemmas.
Context `{Platform}.

Lemma everyR_ext {A} (f g : A -> result bool) l :
  Forall (fun x => f x = g x) l -> everyR f l = everyR g l.
Proof.
  induction 1 as [|x l Hx _ IH]; [done|]. cbn. rewrite Hx.
  by destruct (g x) as [[]|]; cbn.
Qed.

Lemma someR_ext {A} (f g : A -> result bool) l :
  Forall (fun x => f x = g x) l -> someR f l = someR g l.
Proof.
  induction 1 as [|x l Hx _ IH]; [done|]. cbn. rewrite Hx.
  by destruct (g x) as [[]|]; cbn.
Qed.

(** A condition's value depends only on the facts it mentions. *)
Lemma conditionMatches_local c facts facts' :
  (forall f, f ∈ mentions c -> map_get facts f = map_get facts' f) ->
  conditionMatches c facts = conditionMatches c facts'.
Proof.
  induction c as [l IH|l IH|c IH|f|f v|f l|f n|f n] using condition_ind';
    cbn [conditionMatches mentions]; intros Hm.
  1: apply everyR_ext. 2: apply someR_ext.
  1, 2: rewrite List.Forall_forall in *; intros c Hc; apply IH; [done|]; intros f Hf; apply Hm;
    apply list_elem_of_In, in_concat; exists (mentions c); split;
    [by apply in_map|by apply list_elem_of_In].
  - by rewrite IH.
  - by rewrite Hm by left.
  - by rewrite Hm by left.
  - by rewrite Hm by left.
  - by rewrite Hm by left.
  - by rewrite Hm by left.
Qed.

Lemma filterR_ok {A} (f : A -> result bool) l k :
  filterR f l = Ok k <->
  Forall (fun x => is_ok (f x) = true) l /\ k = List.filter (fun x => catch (f x) false) l.
Proof.
  revert k. induction l as [|x l IH]; intros k; cbn.
  { split; [intros [= <-]; done|by intros [_ ->]]. }
  rewrite Forall_cons. destruct (f x) as [b|e]; cbn [mbind result_bind catch is_ok].
  - rewrite bind_ok. setoid_rewrite IH. split.
    + intros (k' & [Hl ->] & [= <-]). destruct b; split_and!; done.
    + intros [[_ Hl] ->]. eexists. split; [done|]. by destruct b.
  - split; [done|]. by intros [[? _] _].
Qed.

(** ** Lemmas: ranking *)

Definition outranks (a b : Rule) : Prop :=
  priority b < priority a \/ (priority b = priority a /\ specificity b < specificity a).

Lemma cmp_rule_le a b :
  cmp_rule a b <= 0 <->
  outranks a b \/ (same_rank a b = true /\ localeCompare (rule_id a) (rule_id b) <= 0).
Proof.
  unfold cmp_rule, outranks, same_rank. cbv zeta. rewrite andb_true_iff, !Z.eqb_eq.
  destruct (Z.eqb_spec (priority b - priority a) 0); cbn [negb]; [|lia].
  destruct (Z.eqb_spec (specificity b - specificity a) 0); cbn [negb]; lia.
Qed.

Lemma cmp_rule_total a b : 0 < cmp_rule a b -> cmp_rule b a <= 0.
Proof.
  intros Hc. apply cmp_rule_le. unfold cmp_rule, outranks, same_rank in *. cbv zeta in *.
  rewrite andb_true_iff, !Z.eqb_eq.
  destruct (Z.eqb_spec (priority b - priority a) 0); cbn [negb] in *; [|lia].
  destruct (Z.eqb_spec (specificity b - specificity a) 0); cbn [negb] in *; [|lia].
  right. split; [lia|]. by apply cmp_units_total.
Qed.

Lemma cmp_rule_trans a b c : cmp_rule a b <= 0 -> cmp_rule b c <= 0 -> cmp_rule a c <= 0.
Proof.
  rewrite !cmp_rule_le. unfold outranks, same_rank. rewrite !andb_true_iff, !Z.eqb_eq.
  intros [?|[? Hab]] [?|[? Hbc]]; try lia. right. split; [lia|]. by eapply cmp_units_trans.
Qed.

Lemma sorted_rules_sorted l : StronglySorted (cmp_le cmp_rule) (toSorted cmp_rule l).
Proof. apply toSorted_sorted; [apply cmp_rule_total|apply cmp_rule_trans]. Qed.

(** The candidates do not depend on the order of the rules. *)
Lemma sorted_rules_perm l k : NoDup (map rule_id l) -> l ≡ₚ k -> toSorted cmp_rule l = toSorted cmp_rule k.
Proof.
  intros Hd Hp. apply (sorted_perm_eq cmp_rule); auto using sorted_rules_sorted;
    [|by rewrite !toSorted_perm].
  intros x y. rewrite !toSorted_perm. intros Hx Hy Hxy%cmp_rule_le Hyx%cmp_rule_le.
  assert (rule_id x = rule_id y) as E.
  { unfold outranks, same_rank in *. rewrite !andb_true_iff, !Z.eqb_eq in *.
    destruct Hxy as [?|[? ?]], Hyx as [?|[? ?]]; try lia. by apply cmp_units_antisym. }
  clear - Hd Hx Hy E. induction l as [|z l IH]; [by apply elem_of_nil in Hx|].
  cbn in Hd. apply NoDup_cons in Hd as [Hz Hd].
  assert (forall w, w ∈ l -> rule_id w = rule_id z -> False) as Hn.
  { intros w Hw Ew. apply Hz. rewrite <- Ew. apply list_elem_of_In, in_map, list_elem_of_In, Hw. }
  apply elem_of_cons in Hx as [->|Hx], Hy as [->|Hy]; try done; [..|by apply IH].
  - by destruct (Hn y Hy).
  - by destruct (Hn x Hx).
Qed.

(** ** Specification of an evaluation *)

Definition is_candidate (mt : jsstr) (facts : MatterFacts) (rs : RulesetVersion) (r : Rule) : Prop :=
  r ∈ rules rs /\ rule_matterType r = mt /\ conditionMatches (condition r) facts = Ok true.

Definition top_candidate (mt : jsstr) (facts : MatterFacts) (rs : RulesetVersion) (r : Rule) : Prop :=
  is_candidate mt facts rs r /\ forall r', is_candidate mt facts rs r' -> ~ outranks r' r.

(** A required fact of the matter type that is absent or null. *)
Definition required_missing (facts : MatterFacts) (definition : MatterType) (n : jsstr) : Prop :=
  exists f, f ∈ fields definition /\ field_name f = n /\
    field_required f = true /\ (map_get facts n = None \/ map_get facts n = Some VNull).

Definition evaluation_spec (rs : RulesetVersion) (mt : jsstr) (facts : MatterFacts)
    (definition : MatterType) (ev : MatterEvaluation) : Prop :=
  match ev with
  | Missing _ names =>
      names <> [] /\ StronglySorted (cmp_le cmp_units) names /\
      forall n, n ∈ names <-> required_missing facts definition n
  | NoMatch _ => forall r, ~ is_candidate mt facts rs r
  | Matched _ r => is_candidate mt facts rs r /\
      forall r', is_candidate mt facts rs r' -> r' = r \/ outranks r r'
  | Ambiguous _ ids =>
      (2 <= length ids)%nat /\ StronglySorted (cmp_le localeCompare) ids /\
      forall i, i ∈ ids <-> exists r, rule_id r = i /\ top_candidate mt facts rs r
  end.

Lemma candidate_true mt facts r :
  catch (candidate mt facts r) false = true <->
  rule_matterType r = mt /\ conditionMatches (condition r) facts = Ok true.
Proof.
  unfold candidate. case_bool_decide as E; cbn.
  - destruct (conditionMatches _ _) as [[]|]; cbn; naive_solver.
  - naive_solver.
Qed.

Lemma missing_spec facts definition n :
  n ∈ toSorted cmp_units (map field_name (List.filter (fact_missing facts) (fields definition))) <->
  required_missing facts definition n.
Proof.
  unfold required_missing. rewrite toSorted_perm, list_elem_of_In, in_map_iff. setoid_rewrite filter_In.
  split.
  - intros (f & <- & Hf & [Hr Hm]%andb_true_iff). exists f. rewrite list_elem_of_In.
    split_and!; try done. destruct (map_get facts (field_name f)) as [[]|]; auto; done.
  - intros (f & Hf & <- & Hr & Hm). exists f. rewrite <- list_elem_of_In. split_and!; try done.
    unfold fact_missing. rewrite Hr. by destruct Hm as [-> | ->].
Qed.

(** The verdict on the sorted candidates. *)
Lemma verdict_spec mt facts rs definition h l :
  (forall r, r ∈ l <-> is_candidate mt facts rs r) -> StronglySorted (cmp_le cmp_rule) l ->
  evaluation_spec rs mt facts definition
    match l with
    | [] => NoMatch h
    | first :: _ =>
        let tied := List.filter (fun c => same_rank c first) l in
        if negb (Nat.eqb (length tied) 1) then Ambiguous h (map rule_id tied) else Matched h first
    end.
Proof.
  intros Hl Hs. destruct l as [|first l]; cbn [evaluation_spec].
  { intros r Hr%Hl. by apply elem_of_nil in Hr. }
  assert (forall r, r ∈ first :: l -> same_rank r first = true \/ outranks first r) as Htop.
  { apply StronglySorted_inv in Hs as [_ Hf]. rewrite List.Forall_forall in Hf.
    intros r [->|Hr]%elem_of_cons; [left; unfold same_rank; by rewrite !Z.eqb_refl|].
    apply list_elem_of_In, Hf, cmp_rule_le in Hr as [?|[Hr _]]; [by right|left].
    unfold same_rank in *. rewrite andb_true_iff, !Z.eqb_eq in *. lia. }
  cbv zeta. set (tied := List.filter _ (first :: l)).
  assert (forall r, r ∈ tied <-> r ∈ first :: l /\ same_rank r first = true) as Ht.
  { intros r. unfold tied. by rewrite !list_elem_of_In, filter_In. }
  assert (first ∈ tied) as Hft.
  { apply Ht. split; [by left|]. unfold same_rank. by rewrite !Z.eqb_refl. }
  destruct (Nat.eqb_spec (length tied) 1) as [E|E]; cbn [negb evaluation_spec].
  - split; [apply Hl; by left|]. intros r' Hr'%Hl. destruct (Htop r' Hr') as [Hr|]; [left|by right].
    assert (r' ∈ tied) as Hin by by apply Ht. destruct tied as [|x [|y t]]; try done.
    apply list_elem_of_singleton in Hin as ->. by apply list_elem_of_singleton in Hft.
  - rewrite length_map. split_and!.
    + destruct tied as [|x [|y t]]; cbn in *; [by apply elem_of_nil in Hft|done|lia].
    + assert (StronglySorted (cmp_le cmp_rule) tied) as Hst.
      { unfold tied. clear - Hs. induction Hs as [|x k Hk IH Hx]; cbn; [constructor|].
        destruct (same_rank x first); [|done]. constructor; [done|].
        rewrite List.Forall_forall in *. intros y [Hy _]%filter_In. by apply Hx. }
      assert (forall r, In r tied -> same_rank r first = true) as Hr.
      { intros r Hr. apply list_elem_of_In, Ht in Hr. tauto. }
      clear - Hst Hr. induction Hst as [|x k Hk IH Hx]; cbn; [constructor|].
      constructor; [apply IH; intros r ?; apply Hr; by right|].
      rewrite List.Forall_forall in *. intros i (y & <- & Hy)%in_map_iff.
      specialize (Hx y Hy). apply cmp_rule_le in Hx.
      pose proof (Hr x ltac:(by left)) as H1. pose proof (Hr y ltac:(by right)) as H2.
      unfold same_rank, outranks in *. rewrite andb_true_iff, !Z.eqb_eq in *.
      destruct Hx as [?|[_ ?]]; [lia|done].
    + intros i. rewrite list_elem_of_In, in_map_iff. setoid_rewrite <- list_elem_of_In.
      setoid_rewrite Ht. split.
      * intros (r & <- & Hr & Hsr). exists r. split; [done|]. split; [by apply Hl|].
        intros r' Hr'%Hl Ho. destruct (Htop r' Hr') as [Hsr'|Ho'];
          unfold same_rank, outranks in *; rewrite ?andb_true_iff, ?Z.eqb_eq in *; lia.
      * intros (r & <- & Hr%Hl & Hn). exists r. split_and!; [done..|].
        destruct (Htop r Hr) as [?|Ho]; [done|]. destruct (Hn first); [apply Hl; by left|done].
Qed.

Lemma candidates_spec mt facts rs k :
  filterR (candidate mt facts) (rules rs) = Ok k ->
  forall r, r ∈ toSorted cmp_rule k <-> is_candidate mt facts rs r.
Proof.
  intros [_ ->]%filterR_ok r. rewrite toSorted_perm, list_elem_of_In, filter_In.
  unfold is_candidate. by rewrite candidate_true, list_elem_of_In.
Qed.

(** ** When an evaluation answers *)

(** A fact of the declared type, within its bounds, or null. *)
Definition value_admissible (field : MatterField) (value : MatterValue) : bool :=
  match field, value with
  | _, VNull => true
  | BooleanField _ _, VBool _ => true
  | IntegerField _ _ minimum maximum, VNumber n =>
      isSafeInteger n && negb (num_lt n (default (Infinite true) minimum))
      && negb (num_lt (default (Infinite false) maximum) n)
  | StringField _ _ maxLength, VString s => js_length s <=? maxLength
  | _, _ => false
  end.

Definition fact_admissible (definition : MatterType) (fact : jsstr * MatterValue) : bool :=
  match map_get (field_map definition) fact.1 with
  | Some field => value_admissible field fact.2
  | None => false
  end.

Definition facts_json (facts : MatterFacts) : json :=
  JObj (map (fun '(k, v) => (k, value_json v)) facts).

(** The literals a condition compares with are canonical JSON values. *)
Fixpoint literals_ok (c : Condition) : bool :=
  match c with
  | CAll l | CAny l => forallb literals_ok l
  | CNot c => literals_ok c
  | CEquals _ v => json_ok 0 (value_json v)
  | CIn _ l => forallb (fun v => json_ok 0 (value_json v)) l
  | _ => true
  end.

Lemma assertFactValue_ok field value u : assertFactValue field value = Ok u <-> value_admissible field value = true.
Proof.
  destruct u. unfold assertFactValue, value_admissible.
  destruct value as [b|n|s|], field as [nm rq|nm rq lo hi|nm rq ml]; try done.
  - rewrite !ok_tt_bind, !throw_if_ok, !andb_true_iff, !negb_true_iff, negb_false_iff. tauto.
  - by rewrite throw_if_ok, Z.ltb_ge, Z.leb_le.
Qed.

Lemma facts_loop definition facts :
  forM (fun (_ : unit) '(name, value) =>
        match map_get (field_map definition) name with
        | None => Throw (TypeError "unknown matter fact: " [name])
        | Some field => assertFactValue field value
        end) tt facts = Ok tt
  <-> forallb (fact_admissible definition) facts = true.
Proof.
  induction facts as [|[n v] facts IH]; [done|]. cbn [forM forallb].
  rewrite bind_ok, andb_true_iff, <- IH. unfold fact_admissible at 1. cbn [fst snd].
  destruct (map_get _ n) as [field|].
  - setoid_rewrite assertFactValue_ok. split; [by intros ([] & ? & ?)|]. intros [? ?]. by exists tt.
  - split; [by intros (? & ? & _)|by intros [? _]].
Qed.

Lemma isSame_is_ok a b :
  json_ok 0 (value_json a) = true -> json_ok 0 (value_json b) = true -> is_ok (isSame a b) = true.
Proof.
  rewrite <- !canonicalSha256_is_ok, !is_ok_true. intros (l & Hl) (r & Hr).
  unfold isSame. rewrite Hl, Hr. by eexists.
Qed.

Lemma everyR_is_ok {A} (f : A -> result bool) l :
  Forall (fun x => is_ok (f x) = true) l -> is_ok (everyR f l) = true.
Proof. induction 1 as [|x l Hx _ IH]; [done|]. cbn. by destruct (f x) as [[]|]. Qed.

Lemma someR_is_ok {A} (f : A -> result bool) l :
  Forall (fun x => is_ok (f x) = true) l -> is_ok (someR f l) = true.
Proof. induction 1 as [|x l Hx _ IH]; [done|]. cbn. by destruct (f x) as [[]|]. Qed.

Lemma conditionMatches_is_ok c facts :
  literals_ok c = true -> (forall f v, map_get facts f = Some v -> json_ok 0 (value_json v) = true) ->
  is_ok (conditionMatches c facts) = true.
Proof.
  intros Hl Hf. induction c as [l IH|l IH|c IH|f|f v|f l|f n|f n] using condition_ind';
    cbn [conditionMatches literals_ok] in *; try done.
  - apply everyR_is_ok. rewrite forallb_forall in Hl. rewrite List.Forall_forall in *. auto.
  - apply someR_is_ok. rewrite forallb_forall in Hl. rewrite List.Forall_forall in *. auto.
  - specialize (IH Hl). by destruct (conditionMatches c facts).
  - destruct (map_get facts f) as [v'|] eqn:E; [|done]. apply isSame_is_ok; eauto.
  - destruct (map_get facts f) as [v'|] eqn:E; [|done]. apply someR_is_ok.
    rewrite forallb_forall in Hl. rewrite List.Forall_forall. intros v Hv.
    apply isSame_is_ok; eauto.
Qed.

Lemma facts_json_get facts f v :
  json_ok 0 (facts_json facts) = true -> map_get facts f = Some v -> json_ok 0 (value_json v) = true.
Proof.
  unfold facts_json. cbn [json_ok]. intros [_ Ho]%andb_true_iff E%map_get_in%list_elem_of_In.
  rewrite forallb_map, forallb_forall in Ho. specialize (Ho _ E). cbn beta iota in Ho.
  apply andb_true_iff in Ho as [_ Ho]. by destruct v.
Qed.

(** ** What equality of facts means *)

(** JSON does not tell negative zero from zero. *)
Definition json_value (v : MatterValue) : MatterValue :=
  match v with VNumber NegZero => VNumber (NInt 0) | v => v end.

Lemma value_json_safe v :
  MatterValueSchema v = true -> json_ok 0 (value_json v) = true ->
  json_safe (value_json (json_value v)) = true /\
  stringify (sort_json (value_json v)) = stringify (sort_json (value_json (json_value v))).
Proof.
  destruct v as [b|[| | |z|]|s|]; intros Hm Ho; try discriminate Hm; (split; [|reflexivity]);
    first [reflexivity | exact Hm | exact Ho].
Qed.

(** The digest of the facts that an evaluation records. *)
Definition evaluated_facts (ev : MatterEvaluation) : jsstr :=
  match ev with Missing h _ | NoMatch h | Matched h _ | Ambiguous h _ => h end.

(** C36. The evaluation of a matter is right whatever it answers, and it is made
    for the facts whose digest it records. Missing facts are exactly the
    required ones that are absent or null, and only when there are none is
    another answer given; no match means no rule applies; a matched rule applies
    and strictly outranks every other rule that applies; an ambiguity lists
    exactly the ids, at least two, of the applicable rules that none outranks. *)
Theorem evaluateMatter_sound rs mt facts i v ev :
  evaluateMatter rs mt facts = Ok (i, v, ev) ->
  i = ruleset_id rs /\ v = version rs /\
  canonicalSha256 (JObj (map (fun '(k, x) => (k, value_json x)) facts)) = Ok (evaluated_facts ev) /\
  exists definition, definition ∈ matterTypes rs /\ code definition = mt /\
    evaluation_spec rs mt facts definition ev /\
    ((exists names, ev = Missing (evaluated_facts ev) names) \/ forall n, ~ required_missing facts definition n).
Proof.
  unfold evaluateMatter. intros (h & Hh & Hd)%bind_ok.
  destruct (List.find _ _) as [definition|] eqn:Ef; [|done].
  apply List.find_some in Ef as [Hin Hc%bool_decide_eq_true]. apply list_elem_of_In in Hin.
  apply bind_ok in Hd as (names & Hv & Hd).
  unfold validateFacts in Hv. apply ok_tt_bind in Hv as [_ [= <-]].
  pose proof (missing_spec facts definition) as Hm.
  set (missing := toSorted cmp_units _) in Hd, Hm.
  destruct (Nat.eqb_spec (length missing) 0) as [E|E]; cbn [negb] in Hd.
  - apply bind_ok in Hd as (k & Hk & [= <- <- <-]).
    split_and!; [done..|by repeat case_match|].
    exists definition. split_and!; [done..|apply verdict_spec; [by apply candidates_spec|apply sorted_rules_sorted]|].
    right. intros n Hn%Hm. apply length_zero_iff_nil in E. rewrite E in Hn. by apply elem_of_nil in Hn.
  - injection Hd as <- <- <-. split_and!; [done..|].
    exists definition. split_and!; [done..| |left; by eexists]. cbn [evaluation_spec].
    split_and!; [|apply toSorted_sorted; [apply cmp_units_total|apply cmp_units_trans]|exact Hm].
    intros En. by rewrite En in E.
Qed.

Definition with_rules (rs : RulesetVersion) (l : list Rule) : RulesetVersion :=
  MkRuleset (ruleset_id rs) (boardId rs) (version rs) (canonicalHash rs) (matterTypes rs) l.

(** The order in which an accepted ruleset lists its rules has no influence on
    an evaluation. *)
Theorem evaluateMatter_rule_order rs l mt facts r :
  RulesetVersionSchema rs = true -> l ≡ₚ rules rs ->
  evaluateMatter rs mt facts = Ok r -> evaluateMatter (with_rules rs l) mt facts = Ok r.
Proof.
  intros Hs Hp. assert (NoDup (map rule_id (rules rs))) as Hd.
  { unfold RulesetVersionSchema in Hs. boolify. by apply all_distinct_spec. }
  unfold evaluateMatter. cbn [with_rules matterTypes rules ruleset_id version].
  destruct (canonicalSha256 _) as [h|]; [|done]. cbn [mbind result_bind].
  destruct (List.find _ _) as [definition|]; [|done].
  destruct (validateFacts definition facts) as [names|]; [|done]. cbn [mbind result_bind].
  destruct (negb _); [done|]. intros (k & [Hok ->]%filterR_ok & Hr)%bind_ok.
  apply bind_ok. exists (List.filter (fun x => catch (candidate mt facts x) false) l). split.
  { apply filterR_ok. split; [|done]. by rewrite Hp. }
  rewrite <- Hr. erewrite sorted_rules_perm; [done| |].
  - clear - Hd Hp. assert (NoDup (map rule_id l)) as Hl by by rewrite (Permutation_map rule_id Hp).
    clear Hp Hd. induction l as [|x l IH]; cbn; [constructor|].
    cbn in Hl. apply NoDup_cons in Hl as [Hx Hl]. destruct (catch _ _); [|by apply IH].
    cbn. apply NoDup_cons. split; [|by apply IH]. intros Hin. apply Hx.
    apply list_elem_of_In, in_map_iff in Hin as (y & <- & [Hy _]%filter_In).
    by apply list_elem_of_In, in_map.
  - clear - Hp. induction Hp as [|x l k _ IH|x y l|l k m _ IH1 _ IH2]; cbn.
    + done.
    + destruct (catch _ _); [by constructor|done].
    + destruct (catch (candidate mt facts x) false), (catch (candidate mt facts y) false);
        try done; constructor.
    + by etrans.
Qed.

(** C39. A rule of an accepted ruleset reads only the facts its matter type
    declares: two fact sets that agree on them give the same verdict on its
    condition, which has at most 16 levels and 512 nodes. *)
Theorem accepted_rule_reads_declared rs r facts facts' :
  RulesetVersionSchema rs = true -> r ∈ rules rs ->
  exists t, t ∈ matterTypes rs /\ code t = rule_matterType r /\
    height (condition r) <= 16 /\ size (condition r) <= 512 /\
    ((forall f, f ∈ fields t -> map_get facts (field_name f) = map_get facts' (field_name f)) ->
     conditionMatches (condition r) facts = conditionMatches (condition r) facts').
Proof.
  unfold RulesetVersionSchema. intros Hs Hr. boolify.
  match goal with H : forallb (rule_declared _) _ = true |- _ =>
    rewrite forallb_forall in H; specialize (H r (proj1 (list_elem_of_In _ _) Hr)); rename H into Hd end.
  unfold rule_declared in Hd.
  destruct (map_get (definitions (matterTypes rs)) (rule_matterType r)) as [t|] eqn:Et; [|done].
  assert (t ∈ matterTypes rs /\ code t = rule_matterType r) as [Hin Hc].
  { apply map_get_in in Et. revert Et. unfold definitions.
    cut (forall l m, (rule_matterType r, t) ∈ foldl (fun m t => map_set m (code t) t) m l ->
           (rule_matterType r, t) ∈ m \/ (t ∈ l /\ code t = rule_matterType r)).
    { intros Hx Hy. by destruct (Hx _ _ Hy) as [?%elem_of_nil|]. }
    induction l as [|x l IH]; intros m; cbn; [by left|]. intros [Hx|[? ?]]%IH.
    - apply elem_of_map_set in Hx as [Hx|[-> ->]]; [by left|right]. split; [by left|done].
    - right. split; [by right|done]. }
  pose proof (conditionFields_spec (condition r) ([], MkCounters 0 0) 1) as (Hf & Hdep & Hn).
  destruct (conditionFields (condition r) _ 1) as [used counters]. cbn [fst snd max_depth nodes] in *.
  apply andb_true_iff in Hd as [Hu [Hd1%Z.ltb_ge Hd2%Z.ltb_ge]%negb_true_iff%orb_false_iff].
  exists t. split_and!; [done|done|lia|lia|]. intros Hag. apply conditionMatches_local.
  intros f Hm. rewrite forallb_forall in Hu.
  assert (In f used) as Hfu by (apply list_elem_of_In, Hf; by right).
  specialize (Hu f Hfu). unfold set_has in Hu. apply bool_decide_eq_true in Hu.
  apply set_of_spec, list_elem_of_In, in_map_iff in Hu as (g & <- & Hg).
  apply Hag. by apply list_elem_of_In.
Qed.

(** An evaluation never ignores a bad fact and never fails without a cause: it
    answers exactly when the facts are canonical JSON, the matter type is
    declared, every fact is declared with an admissible value, and (unless facts
    are missing) the conditions of the rules for this matter type can be
    evaluated, which they always can when their literals are canonical. *)
Theorem evaluateMatter_answers rs mt facts :
  forallb (fun r => literals_ok (condition r)) (rules rs) = true ->
  is_ok (evaluateMatter rs mt facts) = true <->
  json_ok 0 (facts_json facts) = true /\
  exists definition, List.find (fun d => bool_decide (code d = mt)) (matterTypes rs) = Some definition /\
    forallb (fact_admissible definition) facts = true.
Proof.
  intros Hl. rewrite <- canonicalSha256_is_ok. unfold evaluateMatter. fold (facts_json facts).
  destruct (canonicalSha256 (facts_json facts)) as [h|] eqn:Eh; cbn [mbind result_bind is_ok];
    [|split; [done|by intros [? _]]].
  assert (json_ok 0 (facts_json facts) = true) as Ho by by rewrite <- canonicalSha256_is_ok, Eh.
  destruct (List.find _ _) as [definition|]; [|split; [done|by intros (_ & ? & ? & _)]].
  unfold validateFacts.
  destruct (forM _ tt facts) as [[]|] eqn:Ef; cbn [mbind result_bind is_ok].
  - apply facts_loop in Ef. split; [by intros _; split; [|exists definition]|]. intros _.
    destruct (negb _); [done|].
    assert (exists k, filterR (candidate mt facts) (rules rs) = Ok k) as (k & ->); [|done].
    eexists. apply filterR_ok. split; [|done]. rewrite forallb_forall in Hl.
    apply List.Forall_forall. intros r Hr. unfold candidate. case_bool_decide; [|done].
    apply conditionMatches_is_ok; [by apply Hl|]. intros f v. by apply facts_json_get.
  - split; [done|]. intros (_ & d & [= <-] & Hf%facts_loop). congruence.
Qed.

(** Comparing a fact with a literal by digest compares their values: it says
    equal for equal JSON values, and only for those unless the two canonical
    texts are a SHA-256 collision. *)
Theorem isSame_spec a b r :
  MatterValueSchema a = true -> MatterValueSchema b = true -> isSame a b = Ok r ->
  (json_value a = json_value b -> r = true) /\
  (r = true -> json_value a = json_value b \/
     collision (canonical_bytes (value_json a)) (canonical_bytes (value_json b))).
Proof.
  intros Ha Hb. unfold isSame.
  destruct (canonicalSha256 (value_json a)) as [ha|] eqn:Ea; [|done].
  destruct (canonicalSha256 (value_json b)) as [hb|] eqn:Eb; [|done].
  cbn [mbind result_bind]. intros [= <-].
  assert (json_ok 0 (value_json a) = true) as Hoa by by rewrite <- canonicalSha256_is_ok, Ea.
  assert (json_ok 0 (value_json b) = true) as Hob by by rewrite <- canonicalSha256_is_ok, Eb.
  destruct (value_json_safe a Ha Hoa) as [Hsa Eqa], (value_json_safe b Hb Hob) as [Hsb Eqb].
  unfold canonicalSha256 in Ea, Eb. apply fmap_ok in Ea as (sa & Ea & ->), Eb as (sb & Eb & ->).
  apply canonicalJson_ok in Ea as [_ ->], Eb as [_ ->].
  assert (forall v, has_index_key (value_json v) = false) as Hi by (by intros []).
  rewrite !Hi. rewrite bool_decide_eq_true. split.
  - intros E. by rewrite Eqa, Eqb, E.
  - intros E. unfold canonical_bytes. apply sha256Hex_eq in E as [E|E]; [left|by right|..].
    + rewrite Eqa, Eqb in E. apply stringify_inj in E; [|by rewrite sort_json_safe..].
      by destruct (json_value a), (json_value b); cbn in E; simplify_eq.
    + rewrite Eqa. apply stringify_well_formed. by rewrite sort_json_safe.
    + rewrite Eqb. apply stringify_well_formed. by rewrite sort_json_safe.
Qed.
End evaluate_lemmas.

(** ** Witnesses *)

Definition sample_uuid (n : string) : jsstr := js "01941f29-7c00-7102-8304-0506070809" ++ js n.

Definition sample_rule (n : string) (p s : Z) (c : Condition) : Rule :=
  MkRule (sample_uuid n) (js "loan") p s c (sample_uuid "aa")
    [MkCitation (sample_uuid "bb") (sha256Hex (js "charter")) (js "4.2") (js "p. 3")].

Definition sample_ruleset : RulesetVersion :=
  MkRuleset (sample_uuid "00") (sample_uuid "01") 1 (sha256Hex (js "rules"))
    [MkMatterType (js "loan")
       [IntegerField (js "amount") true (Some (NInt 0)) None; BooleanField (js "secured") false]]
    [sample_rule "10" 1 0 (CNumberGte (js "amount") (NInt 1000));
     sample_rule "11" 1 1 (CAll [CNumberGte (js "amount") (NInt 1000);
                                 CEquals (js "secured") (VBool true)])].

Definition sample_facts : list (jsstr * MatterValue) :=
  [(js "amount", VNumber (NInt 5000)); (js "secured", VBool true)].

Lemma evaluateMatter_sound_witness :
  let r := sample_rule "11" 1 1 (CAll [CNumberGte (js "amount") (NInt 1000);
                                       CEquals (js "secured") (VBool true)]) in
  exists h definition, definition ∈ matterTypes sample_ruleset /\ code definition = js "loan" /\
    @evaluation_spec plain_platform sample_ruleset (js "loan") sample_facts definition (Matched h r).
Proof.
  cbv zeta. eexists.
  edestruct (@evaluateMatter_sound plain_platform sample_ruleset (js "loan") sample_facts)
    as (_ & _ & _ & definition & Hin & Hc & Hs & _); [vm_compute; reflexivity|].
  exists definition. exact (conj Hin (conj Hc Hs)).
Defined.

Lemma evaluateMatter_rule_order_witness :
  exists r, @evaluateMatter plain_platform
      (with_rules sample_ruleset (rev (rules sample_ruleset))) (js "loan") sample_facts = Ok r.
Proof.
  eexists. apply (@evaluateMatter_rule_order plain_platform sample_ruleset);
    [vm_compute; reflexivity|symmetry; apply Permutation_rev|vm_compute; reflexivity].
Defined.

Lemma accepted_rule_reads_declared_witness :
  let r := sample_rule "10" 1 0 (CNumberGte (js "amount") (NInt 1000)) in
  exists t, t ∈ matterTypes sample_ruleset /\ code t = rule_matterType r /\
    height (condition r) <= 16 /\ size (condition r) <= 512 /\
    ((forall f, f ∈ fields t -> map_get sample_facts (field_name f) = map_get sample_facts (field_name f)) ->
     @conditionMatches plain_platform (condition r) sample_facts
     = @conditionMatches plain_platform (condition r) sample_facts).
Proof.
  apply (@accepted_rule_reads_declared plain_platform); [vm_compute; reflexivity|by left].
Defined.

Lemma evaluateMatter_answers_witness :
  is_ok (@evaluateMatter plain_platform sample_ruleset (js "loan") sample_facts) = true <->
  @json_ok plain_platform 0 (facts_json sample_facts) = true /\
  exists definition,
    List.find (fun d => bool_decide (code d = js "loan")) (matterTypes sample_ruleset) = Some definition /\
    forallb (fact_admissible definition) sample_facts = true.
Proof. apply (@evaluateMatter_answers plain_platform). vm_compute. reflexivity. Defined.

Lemma isSame_spec_witness :
  (json_value (VNumber NegZero) = json_value (VNumber (NInt 0)) -> true = true) /\
  (true = true -> json_value (VNumber NegZero) = json_value (VNumber (NInt 0)) \/
     collision (canonical_bytes (value_json (VNumber NegZero)))
       (canonical_bytes (value_json (VNumber (NInt 0))))).
Proof. apply (@isSame_spec plain_platform); vm_compute; reflexivity. Defined.
