(* ===== verification/GovernanceProfile.v ===== *)
(** * Governance profiles and rule selection

    lib/ruleset/src/governance-profile.ts: reduced fractions, rule templates, a
    board's profile, the overrides a template permits and the selection of the
    rule of a vote. Schemas that trim text are functions returning the parsed
    value. *)

From stdpp Require Import base numbers sorting strings list.
From Stdlib Require Import Lia.
From Stdlib Require QArith_base.
From S2P Require Import Prelude JsString Encoding JsNumber Json JsonParse JsonCanon Schemas.
From S2P Require Import ValueObjects VotingConsent Voting Ruleset.

Local Open Scope Z_scope.

(** ** Fractions *)

(** The loop of [greatestCommonDivisor]. *)
Fixpoint gcd_loop (fuel : nat) (a b : Z) : result Z :=
  match fuel with
  | O => Throw OutOfFuel
  | S fuel' => if b =? 0 then Ok a else gcd_loop fuel' b (Z.rem a b)
  end.

(** Every two rounds halve [b]. *)
Definition gcd_fuel (b : Z) : nat := S (S (S (2 * Z.to_nat (Z.log2 b)))).

Definition greatestCommonDivisor (left right : Z) : result Z := gcd_loop (gcd_fuel right) left right.

Record GovernanceFraction := MkFraction { numerator_text : jsstr; denominator_text : jsstr }.

(** [BigInt(text)] of a canonical decimal. *)
Definition fraction_numerator (f : GovernanceFraction) : Z := undec (numerator_text f).
Definition fraction_denominator (f : GovernanceFraction) : Z := undec (denominator_text f).

Definition GovernanceFractionSchema (f : GovernanceFraction) : bool :=
  is_nat_dec (numerator_text f) && is_pos_dec (denominator_text f)
  && negb (fraction_denominator f <? fraction_numerator f)
  && match greatestCommonDivisor (fraction_numerator f) (fraction_denominator f) with
     | Ok g => g =? 1
     | Throw _ => false
     end.

(** ** Seats, templates, profiles *)

Record GovernanceSeat := MkGovernanceSeat {
  seat_memberId : jsstr;
  seat_role : SeatRole;
  seat_weight : jsstr;
  seat_chair : bool
}.

Definition GovernanceSeatSchema (s : GovernanceSeat) : bool :=
  is_uuid_v7 (seat_memberId s) && is_nat_dec (seat_weight s).

Inductive ProxyPolicy := proxy_superseded_by_principal | proxy_first_ballot_final | proxy_forbidden.
Inductive CloseMode := automatic | secretariat_confirmed.
Inductive OverridePolicy := override_forbidden | strengthen_only.

#[export] Instance OverridePolicy_eq : EqDecision OverridePolicy.
Proof. solve_decision. Defined.

Record GovernanceRuleTemplate := MkTemplate {
  template_id : jsstr;
  template_code : jsstr;
  label : jsstr;
  approval : GovernanceFraction;
  quorum : GovernanceFraction;
  approvalDenominator : ApprovalDenominator;
  abstentionsCountForQuorum : bool;
  tieBehavior : TieBehavior;
  proxyPolicy : ProxyPolicy;
  noticePeriodSeconds : Z;
  closeMode : CloseMode;
  overridePolicy : OverridePolicy;
  template_citations : list Citation
}.

Definition citations_ok (maximum : Z) (l : list Citation) : bool :=
  in_range 1 maximum (Z.of_nat (length l)) && forallb CitationSchema l.

(** The label as the schema returns it: trimmed. *)
Definition trimmed_label (t : GovernanceRuleTemplate) : GovernanceRuleTemplate :=
  MkTemplate (template_id t) (template_code t) (trim (label t)) (approval t) (quorum t)
    (approvalDenominator t) (abstentionsCountForQuorum t) (tieBehavior t) (proxyPolicy t)
    (noticePeriodSeconds t) (closeMode t) (overridePolicy t) (template_citations t).

Definition template_ok (t : GovernanceRuleTemplate) : bool :=
  is_uuid_v7 (template_id t) && MatterFieldNameSchema (template_code t)
  && in_range 1 512 (js_length (trim (label t)))
  && GovernanceFractionSchema (approval t) && GovernanceFractionSchema (quorum t)
  && in_range 0 31536000 (noticePeriodSeconds t)
  && citations_ok 64 (template_citations t).

Definition GovernanceRuleTemplateSchema (t : GovernanceRuleTemplate) : result GovernanceRuleTemplate :=
  if template_ok t then Ok (trimmed_label t) else Throw (ZodError "GovernanceRuleTemplate").

Record GovernanceProfile := MkProfile {
  profile_id : jsstr;
  profile_boardId : jsstr;
  profile_version : Z;
  supersedesId : option jsstr;
  sourceAgreements : list Citation;
  seats : list GovernanceSeat;
  templates : list GovernanceRuleTemplate
}.

(** The refinements on one seat. *)
Definition seat_refined (s : GovernanceSeat) : bool :=
  let weight := undec (seat_weight s) in
  negb (bool_decide (seat_role s = voting_member) && (weight =? 0))
  && negb (bool_decide (seat_role s <> voting_member) && negb (weight =? 0))
  && negb (seat_chair s && bool_decide (seat_role s <> voting_member)).

Definition profile_refined (p : GovernanceProfile) : bool :=
  bool_decide (profile_version p = 1 <-> supersedesId p = None)
  && all_distinct (map seat_memberId (seats p)) && forallb seat_refined (seats p)
  && negb (1 <? foldl (fun n s => if seat_chair s then n + 1 else n) 0 (seats p))
  && all_distinct (map template_id (templates p)) && all_distinct (map template_code (templates p)).

Definition profile_ok (p : GovernanceProfile) : bool :=
  is_uuid_v7 (profile_id p) && is_uuid_v7 (profile_boardId p)
  && is_safe_positive (profile_version p)
  && opt_ok is_uuid_v7 (supersedesId p)
  && citations_ok 256 (sourceAgreements p)
  && in_range 1 10000 (Z.of_nat (length (seats p))) && forallb GovernanceSeatSchema (seats p)
  && in_range 1 1000 (Z.of_nat (length (templates p))) && forallb template_ok (templates p)
  && profile_refined p.

Definition GovernanceProfileSchema (p : GovernanceProfile) : result GovernanceProfile :=
  if profile_ok p
  then Ok (MkProfile (profile_id p) (profile_boardId p) (profile_version p) (supersedesId p)
             (sourceAgreements p) (seats p) (map trimmed_label (templates p)))
  else Throw (ZodError "GovernanceProfile").

Record GovernanceRuleOverride := MkOverride {
  override_approval : option GovernanceFraction;
  override_quorum : option GovernanceFraction;
  override_noticePeriodSeconds : option Z;
  override_reason : jsstr;
  override_citations : list Citation
}.

Definition GovernanceRuleOverrideSchema (o : GovernanceRuleOverride) : result GovernanceRuleOverride :=
  if opt_ok GovernanceFractionSchema (override_approval o)
     && opt_ok GovernanceFractionSchema (override_quorum o)
     && opt_ok (in_range 0 31536000) (override_noticePeriodSeconds o)
     && in_range 1 65536 (js_length (trim (override_reason o)))
     && citations_ok 64 (override_citations o)
     && (is_some (override_approval o) || is_some (override_quorum o)
         || is_some (override_noticePeriodSeconds o))
  then Ok (MkOverride (override_approval o) (override_quorum o) (override_noticePeriodSeconds o)
             (trim (override_reason o)) (override_citations o))
  else Throw (ZodError "GovernanceRuleOverride").

(** ** As JSON *)

Definition fraction_json (f : GovernanceFraction) : json :=
  JObj [str "numerator" (numerator_text f); str "denominator" (denominator_text f)].

Definition source_json (c : Citation) : json :=
  JObj [str "sourceDocumentVersionId" (sourceDocumentVersionId c);
        str "sourceDocumentSha256" (sourceDocumentSha256 c);
        str "clause" (clause c); str "locator" (locator c)].

Definition role_text (r : SeatRole) : jsstr :=
  match r with
  | voting_member => js "voting_member" | management => js "management" | observer => js "observer"
  end.
Definition denominator_name (d : ApprovalDenominator) : jsstr :=
  match d with
  | eligible_denominator => js "eligible" | participating => js "participating" | yes_no => js "yes_no"
  end.
Definition tie_text (t : TieBehavior) : jsstr :=
  match t with reject => js "reject" | chair_casting_vote => js "chair_casting_vote" end.
Definition proxy_text (p : ProxyPolicy) : jsstr :=
  match p with
  | proxy_superseded_by_principal => js "principal_supersedes_proxy"
  | proxy_first_ballot_final => js "first_ballot_final"
  | proxy_forbidden => js "forbidden"
  end.
Definition close_text (c : CloseMode) : jsstr :=
  match c with automatic => js "automatic" | secretariat_confirmed => js "secretariat_confirmed" end.
Definition override_text (o : OverridePolicy) : jsstr :=
  match o with override_forbidden => js "forbidden" | strengthen_only => js "strengthen_only" end.

Definition template_json (t : GovernanceRuleTemplate) : json :=
  JObj [str "id" (template_id t); str "code" (template_code t); str "label" (label t);
        (js "approval", fraction_json (approval t)); (js "quorum", fraction_json (quorum t));
        str "approvalDenominator" (denominator_name (approvalDenominator t));
        (js "abstentionsCountForQuorum", JBool (abstentionsCountForQuorum t));
        str "tieBehavior" (tie_text (tieBehavior t)); str "proxyPolicy" (proxy_text (proxyPolicy t));
        (js "noticePeriodSeconds", jint (noticePeriodSeconds t));
        str "closeMode" (close_text (closeMode t));
        str "overridePolicy" (override_text (overridePolicy t));
        (js "citations", JArr (map source_json (template_citations t)))].

Definition seat_json (s : GovernanceSeat) : json :=
  JObj [str "memberId" (seat_memberId s); str "role" (role_text (seat_role s));
        str "weight" (seat_weight s); (js "chair", JBool (seat_chair s))].

Definition profile_json (p : GovernanceProfile) : json :=
  JObj [str "schemaVersion" (js "boardagent.governance-profile.v1");
        str "id" (profile_id p); str "boardId" (profile_boardId p);
        (js "version", jint (profile_version p)); nullable "supersedesId" (supersedesId p);
        (js "sourceAgreements", JArr (map source_json (sourceAgreements p)));
        (js "seats", JArr (map seat_json (seats p)));
        (js "templates", JArr (map template_json (templates p)))].

(** An absent optional member is not there. *)
Definition optional_member {A} (key : string) (f : A -> json) (o : option A) : list (jsstr * json) :=
  match o with Some a => [(js key, f a)] | None => [] end.

Definition override_json (o : GovernanceRuleOverride) : json :=
  JObj (optional_member "approval" fraction_json (override_approval o)
        ++ optional_member "quorum" fraction_json (override_quorum o)
        ++ optional_member "noticePeriodSeconds" jint (override_noticePeriodSeconds o)
        ++ [str "reason" (override_reason o);
            (js "citations", JArr (map source_json (override_citations o)))]).

(** ** Selection *)

Definition fractionAtLeast (candidate floor : GovernanceFraction) : bool :=
  fraction_numerator floor * fraction_denominator candidate
  <=? fraction_numerator candidate * fraction_denominator floor.

Record SelectedGovernanceRule := MkSelected {
  profileSha256 : jsstr;
  selected_template : GovernanceRuleTemplate;
  selected_override : option GovernanceRuleOverride;
  selectionSha256 : jsstr
}.

Section select.
Context `{Platform}.

Definition governanceProfileSha256 (input : GovernanceProfile) : result jsstr :=
  p ← GovernanceProfileSchema input; canonicalSha256 (profile_json p).

Definition selection_json (profileSha256 : jsstr) (t : GovernanceRuleTemplate)
    (o : option GovernanceRuleOverride) : json :=
  JObj [str "schemaVersion" (js "boardagent.governance-rule-selection.v1");
        str "profileSha256" profileSha256; (js "template", template_json t);
        (js "override", jopt override_json o)].

(** [{...template, approval: .., quorum: .., noticePeriodSeconds: ..}] *)
Definition overridden (t : GovernanceRuleTemplate) (o : GovernanceRuleOverride) : GovernanceRuleTemplate :=
  MkTemplate (template_id t) (template_code t) (label t)
    (default (approval t) (override_approval o)) (default (quorum t) (override_quorum o))
    (approvalDenominator t) (abstentionsCountForQuorum t) (tieBehavior t) (proxyPolicy t)
    (default (noticePeriodSeconds t) (override_noticePeriodSeconds o)) (closeMode t)
    (overridePolicy t) (template_citations t).

(** [candidate && !fractionAtLeast(candidate, floor)] *)
Definition weakens (o : option GovernanceFraction) (floor : GovernanceFraction) : bool :=
  match o with Some candidate => negb (fractionAtLeast candidate floor) | None => false end.

Definition selectGovernanceRule (profileInput : GovernanceProfile) (templateCode : jsstr)
    (overrideInput : option GovernanceRuleOverride) : result SelectedGovernanceRule :=
  profile ← GovernanceProfileSchema profileInput;
  match List.find (fun c => bool_decide (template_code c = templateCode)) (templates profile) with
  | None => Throw (JsError "rule_not_permitted_by_profile" [])
  | Some template =>
      profileSha256 ← governanceProfileSha256 profile;
      match overrideInput with
      | None =>
          selectionSha256 ← canonicalSha256 (selection_json profileSha256 template None);
          Ok (MkSelected profileSha256 template None selectionSha256)
      | Some overrideInput =>
          throw_if (bool_decide (overridePolicy template <> strengthen_only))
            (JsError "override_forbidden" []) ≫= fun _ =>
          o ← GovernanceRuleOverrideSchema overrideInput;
          throw_if (weakens (override_approval o) (approval template))
            (JsError "override_weakens_approval" []) ≫= fun _ =>
          throw_if (weakens (override_quorum o) (quorum template))
            (JsError "override_weakens_quorum" []) ≫= fun _ =>
          throw_if (match override_noticePeriodSeconds o with
                    | Some n => n <? noticePeriodSeconds template | None => false end)
            (JsError "override_shortens_notice" []) ≫= fun _ =>
          selectedTemplate ← GovernanceRuleTemplateSchema (overridden template o);
          selectionSha256 ← canonicalSha256 (selection_json profileSha256 selectedTemplate (Some o));
          Ok (MkSelected profileSha256 selectedTemplate (Some o) selectionSha256)
      end
  end.

Definition GovernanceProfileActivationSchema (profile : GovernanceProfile)
    (profileSha256 activationConsentRecordId : jsstr) : bool :=
  is_ok (GovernanceProfileSchema profile) && is_hex64 profileSha256
  && is_uuid_v7 activationConsentRecordId
  && match GovernanceProfileSchema profile with
     | Ok p => match governanceProfileSha256 p with
               | Ok h => bool_decide (h = profileSha256)
               | Throw _ => false
               end
     | Throw _ => false
     end.
End select.

(** ** Lemmas: the greatest common divisor *)

Lemma gcd_loop_spec n : forall fuel a b,
  (2 * n + 1 <= fuel)%nat -> 0 <= a -> 0 <= b < 2 ^ Z.of_nat n ->
  gcd_loop fuel a b = Ok (Z.gcd a b).
Proof.
  assert (forall fuel a, 0 <= a -> gcd_loop (S fuel) a 0 = Ok (Z.gcd a 0)) as H0.
  { intros fuel a Ha. cbn. rewrite Z.gcd_0_r. by rewrite Z.abs_eq. }
  induction n as [|n IH]; intros fuel a b Hf Ha Hb.
  { change (2 ^ Z.of_nat 0) with 1 in Hb. assert (b = 0) as -> by lia.
    destruct fuel as [|fuel]; [lia|]. by apply H0. }
  destruct fuel as [|[|fuel]]; try lia.
  destruct (Z.eqb_spec b 0) as [->|Hb0]; [by apply H0|].
  assert (forall x y, 0 <= x -> 0 < y -> Z.gcd y (Z.rem x y) = Z.gcd x y) as Hg.
  { intros x y Hx Hy. rewrite Z.rem_mod_nonneg by lia. rewrite Z.gcd_comm, Z.gcd_mod by lia.
    apply Z.gcd_comm. }
  assert (0 <= Z.rem a b < b) as Hr by (apply Z.rem_bound_pos; lia).
  rewrite <- (Hg a b) by lia. cbn [gcd_loop]. rewrite (proj2 (Z.eqb_neq b 0) Hb0).
  destruct (Z.eqb_spec (Z.rem a b) 0) as [->|Hr0]; [rewrite Z.gcd_0_r; by rewrite Z.abs_eq by lia|].
  rewrite <- (Hg b) by lia. apply IH; [lia|lia|].
  rewrite Nat2Z.inj_succ, Z.pow_succ_r in Hb by lia.
  split; [apply Z.rem_nonneg; lia|]. rewrite Z.rem_mod_nonneg by lia.
  set (r := Z.rem a b) in *. pose proof (Z.mod_pos_bound b r ltac:(lia)).
  pose proof (Z.div_mod b r ltac:(lia)). pose proof (Z.div_str_pos b r ltac:(lia)). nia.
Qed.

Lemma gcd_spec a b : 0 <= a -> 0 <= b -> greatestCommonDivisor a b = Ok (Z.gcd a b).
Proof.
  intros Ha Hb. unfold greatestCommonDivisor, gcd_fuel.
  apply (gcd_loop_spec (S (Z.to_nat (Z.log2 b)))); [lia|done|]. split; [done|].
  rewrite Nat2Z.inj_succ, Z2Nat.id by apply Z.log2_nonneg.
  destruct (decide (b = 0)) as [->|]; [done|]. apply Z.log2_spec. lia.
Qed.

(** ** Lemmas: fractions *)

Lemma fraction_ok f :
  GovernanceFractionSchema f = true <->
  is_nat_dec (numerator_text f) = true /\ is_pos_dec (denominator_text f) = true /\
  0 <= fraction_numerator f <= fraction_denominator f /\ 0 < fraction_denominator f /\
  Z.gcd (fraction_numerator f) (fraction_denominator f) = 1.
Proof.
  unfold GovernanceFractionSchema. rewrite !andb_true_iff, negb_true_iff, Z.ltb_ge.
  assert (is_nat_dec (numerator_text f) = true -> 0 <= fraction_numerator f) as Hn.
  { intros H. by apply undec_bound, nat_dec_digits. }
  assert (is_pos_dec (denominator_text f) = true -> 0 < fraction_denominator f) as Hd.
  { apply pos_dec_pos. }
  split.
  - intros [[[Ha Hb] Hle] Hg]. specialize (Hn Ha). specialize (Hd Hb).
    rewrite gcd_spec in Hg by lia. apply Z.eqb_eq in Hg. split_and!; try done; lia.
  - intros (Ha & Hb & Hle & Hp & Hg). split_and!; [done..|lia|].
    rewrite gcd_spec by lia. by apply Z.eqb_eq.
Qed.

Lemma reduced_unique a b c d :
  0 < b -> 0 < d -> Z.gcd a b = 1 -> Z.gcd c d = 1 -> a * d = c * b -> a = c /\ b = d.
Proof.
  intros Hb Hd Hab Hcd E.
  assert ((b | d)) as H1.
  { apply (Z.gauss b a d); [exists c; lia|by rewrite Z.gcd_comm]. }
  assert ((d | b)) as H2.
  { apply (Z.gauss d c b); [exists a; lia|by rewrite Z.gcd_comm]. }
  assert (b = d) as <- by (apply Z.divide_antisym_nonneg; lia || done). split; [nia|done].
Qed.

Lemma fractionAtLeast_refl f : fractionAtLeast f f = true.
Proof. apply Z.leb_le. lia. Qed.

(** ** Lemmas: schemas *)

Lemma trimStart_spec s : exists w, s = w ++ trimStart s /\ forallb is_space w = true /\
  match trimStart s with [] => True | c :: _ => is_space c = false end.
Proof.
  induction s as [|c s IH]; [by exists []|]. cbn. destruct (is_space c) eqn:E.
  - destruct IH as (w & Hs & Hw & Hh). exists (c :: w). cbn. by rewrite E, <- Hs.
  - exists []. by cbn.
Qed.

Lemma trimStart_fixed s : match s with [] => True | c :: _ => is_space c = false end -> trimStart s = s.
Proof. destruct s as [|c s]; cbn; [done|]. by intros ->. Qed.

Lemma trim_trim s : trim (trim s) = trim s.
Proof.
  unfold trim. set (u := trimStart s). set (v := trimStart (rev u)).
  assert (trimStart (rev v) = rev v) as ->.
  { apply trimStart_fixed. unfold v.
    destruct (trimStart_spec (rev u)) as (w & Hu & Hw & _).
    destruct (rev (trimStart (rev u))) as [|c t] eqn:E; [done|].
    assert (u = c :: t ++ rev w) as Eu.
    { rewrite <- (rev_involutive u), Hu, rev_app_distr, E. done. }
    destruct (trimStart_spec s) as (_ & _ & _ & Hh). fold u in Hh. by rewrite Eu in Hh. }
  rewrite rev_involutive. f_equal. apply trimStart_fixed.
  by destruct (trimStart_spec (rev u)) as (_ & _ & _ & Hh).
Qed.

Lemma trimmed_ok t : template_ok (trimmed_label t) = template_ok t.
Proof.
  unfold template_ok. change (label (trimmed_label t)) with (trim (label t)). by rewrite trim_trim.
Qed.

Lemma trimmed_trimmed t : trimmed_label (trimmed_label t) = trimmed_label t.
Proof.
  unfold trimmed_label at 1. change (label (trimmed_label t)) with (trim (label t)).
  by rewrite trim_trim.
Qed.

Definition parsed_profile (p : GovernanceProfile) : GovernanceProfile :=
  MkProfile (profile_id p) (profile_boardId p) (profile_version p) (supersedesId p)
    (sourceAgreements p) (seats p) (map trimmed_label (templates p)).

Lemma profile_schema_ok p q :
  GovernanceProfileSchema p = Ok q <-> profile_ok p = true /\ q = parsed_profile p.
Proof. unfold GovernanceProfileSchema. destruct (profile_ok p); naive_solver. Qed.

(** Parsing what was parsed changes nothing. *)
Lemma parsed_profile_ok p : profile_ok p = true -> GovernanceProfileSchema (parsed_profile p) = Ok (parsed_profile p).
Proof.
  intros Hp. apply profile_schema_ok. split.
  - unfold profile_ok, profile_refined in *.
    cbn [parsed_profile profile_id profile_boardId profile_version supersedesId sourceAgreements seats
      templates] in *.
    rewrite length_map, !map_map, forallb_map.
    assert (forall l, forallb (fun x => template_ok (trimmed_label x)) l = forallb template_ok l) as ->.
    { induction l as [|t l IH]; [done|]. cbn [forallb]. by rewrite IH, trimmed_ok. }
    exact Hp.
  - unfold parsed_profile. cbn [profile_id profile_boardId profile_version supersedesId
      sourceAgreements seats templates].
    rewrite map_map. f_equal. apply map_ext. intros t. by rewrite trimmed_trimmed.
Qed.

(** ** Lemmas: selection *)

(** [t'] is [t] with thresholds and notice at least as strict and nothing else
    changed. *)
Definition strengthens (t' t : GovernanceRuleTemplate) : Prop :=
  template_ok t' = true /\
  fractionAtLeast (approval t') (approval t) = true /\
  fractionAtLeast (quorum t') (quorum t) = true /\
  noticePeriodSeconds t <= noticePeriodSeconds t' /\
  t' = MkTemplate (template_id t) (template_code t) (label t) (approval t') (quorum t')
         (approvalDenominator t) (abstentionsCountForQuorum t) (tieBehavior t) (proxyPolicy t)
         (noticePeriodSeconds t') (closeMode t) (overridePolicy t) (template_citations t).

Lemma weakens_false o floor :
  weakens o floor = false <-> fractionAtLeast (default floor o) floor = true.
Proof.
  destruct o as [f|]; cbn [weakens default]; [apply negb_false_iff|].
  by rewrite fractionAtLeast_refl.
Qed.

Definition trimmed_override (o : GovernanceRuleOverride) : GovernanceRuleOverride :=
  MkOverride (override_approval o) (override_quorum o) (override_noticePeriodSeconds o)
    (trim (override_reason o)) (override_citations o).

Definition override_ok (o : GovernanceRuleOverride) : bool := is_ok (GovernanceRuleOverrideSchema o).

Lemma override_schema_ok o o' :
  GovernanceRuleOverrideSchema o = Ok o' <-> override_ok o = true /\ o' = trimmed_override o.
Proof.
  unfold override_ok, GovernanceRuleOverrideSchema. case_match; cbn; naive_solver.
Qed.

Lemma override_fields o : override_ok o = true ->
  opt_ok GovernanceFractionSchema (override_approval o) = true /\
  opt_ok GovernanceFractionSchema (override_quorum o) = true /\
  opt_ok (in_range 0 31536000) (override_noticePeriodSeconds o) = true.
Proof.
  unfold override_ok, GovernanceRuleOverrideSchema. case_match eqn:E; [|done]. intros _. boolify.
  split_and!; done.
Qed.

Lemma overridden_ok t o : template_ok t = true -> override_ok o = true ->
  template_ok (overridden t (trimmed_override o)) = true.
Proof.
  intros Ht (Ha & Hq & Hn)%override_fields. unfold template_ok in *. boolify.
  cbn [overridden trimmed_override template_id template_code label approval quorum
    noticePeriodSeconds template_citations override_approval override_quorum override_noticePeriodSeconds].
  destruct (override_approval o), (override_quorum o), (override_noticePeriodSeconds o);
    cbn [default opt_ok] in *; by rewrite !andb_true_iff.
Qed.

Lemma trimmed_overridden t o :
  trimmed_label (overridden (trimmed_label t) o) = overridden (trimmed_label t) o.
Proof.
  unfold trimmed_label at 1. change (label (overridden (trimmed_label t) o)) with (trim (label t)).
  by rewrite trim_trim.
Qed.

(** The conditions under which an override of [t] is accepted. *)
Definition override_permitted (t : GovernanceRuleTemplate) (o : GovernanceRuleOverride) : Prop :=
  overridePolicy t = strengthen_only /\ override_ok o = true /\
  fractionAtLeast (default (approval t) (override_approval o)) (approval t) = true /\
  fractionAtLeast (default (quorum t) (override_quorum o)) (quorum t) = true /\
  noticePeriodSeconds t <= default (noticePeriodSeconds t) (override_noticePeriodSeconds o).

Section select_lemmas.
Context `{Platform}.

Lemma profile_hash_parsed p h :
  profile_ok p = true ->
  governanceProfileSha256 (parsed_profile p) = Ok h <-> canonicalSha256 (profile_json (parsed_profile p)) = Ok h.
Proof.
  intros Hp. unfold governanceProfileSha256. by rewrite (parsed_profile_ok p Hp).
Qed.

Lemma notice_step t o :
  match override_noticePeriodSeconds o with
  | Some n => n <? noticePeriodSeconds t | None => false end = false <->
  noticePeriodSeconds t <= default (noticePeriodSeconds t) (override_noticePeriodSeconds o).
Proof. destruct (override_noticePeriodSeconds o); cbn; [apply Z.ltb_ge|]. split; [lia|done]. Qed.

(** Selection, decided by the template, the override and the hashes. *)
Lemma select_spec p code oo s :
  selectGovernanceRule p code oo = Ok s <->
  profile_ok p = true /\
  exists t hp hs t' o',
    List.find (fun c => bool_decide (template_code c = code)) (templates (parsed_profile p)) = Some t /\
    match oo with
    | None => t' = t /\ o' = None
    | Some o => override_permitted t o /\ t' = overridden t (trimmed_override o) /\
        o' = Some (trimmed_override o)
    end /\
    canonicalSha256 (profile_json (parsed_profile p)) = Ok hp /\
    canonicalSha256 (selection_json hp t' o') = Ok hs /\ s = MkSelected hp t' o' hs.
Proof.
  unfold selectGovernanceRule. rewrite bind_ok. setoid_rewrite profile_schema_ok. split.
  - intros (q & [Hp ->] & Hs). split; [done|].
    destruct (List.find _ _) as [t|] eqn:Et; [|done].
    apply bind_ok in Hs as (hp & Hhp%(profile_hash_parsed p hp Hp) & Hs). exists t, hp.
    destruct oo as [o|].
    + rewrite !ok_tt_bind, throw_if_ok, bool_decide_eq_false in Hs. destruct Hs as [Hpol Hs].
      apply bind_ok in Hs as (o' & [Ho ->]%override_schema_ok & Hs).
      rewrite !ok_tt_bind, !throw_if_ok in Hs. destruct Hs as (Hwa & Hwq & Hn & Hs).
      apply bind_ok in Hs as (t' & Ht' & Hs).
      apply bind_ok in Hs as (hs & Hhs & [= <-]).
      assert (t' = overridden t (trimmed_override o)) as ->.
      { apply List.find_some in Et as [Hin _]. cbn [parsed_profile templates] in Hin.
        apply in_map_iff in Hin as (t0 & <- & _). unfold GovernanceRuleTemplateSchema in Ht'.
        destruct (template_ok _); [|done]. injection Ht' as <-. apply trimmed_overridden. }
      exists hs, (overridden t (trimmed_override o)), (Some (trimmed_override o)).
      split_and!; try done. unfold override_permitted.
      rewrite <- !weakens_false. rewrite <- (notice_step t o).
      split_and!; try done. by apply dec_stable.
    + apply bind_ok in Hs as (hs & Hhs & [= <-]). by exists hs, t, None.
  - intros (Hp & t & hp & hs & t' & o' & Et & Hoo & Hhp & Hhs & ->).
    exists (parsed_profile p). split; [done|]. rewrite Et.
    rewrite (proj2 (profile_hash_parsed p hp Hp) Hhp). cbn [mbind result_bind].
    assert (template_ok t = true) as Htok.
    { apply List.find_some in Et as [Hin _]. cbn [parsed_profile templates] in Hin.
      apply in_map_iff in Hin as (t0 & <- & Hin). rewrite trimmed_ok.
      unfold profile_ok in Hp. boolify.
      match goal with Hf : forallb template_ok _ = true |- _ => rewrite forallb_forall in Hf; auto end. }
    destruct oo as [o|].
    + destruct Hoo as ((Hpol & Ho & Ha & Hq & Hn) & -> & ->).
      rewrite bool_decide_eq_false_2 by tauto. cbn [throw_if mbind result_bind].
      rewrite (proj2 (override_schema_ok o _) (conj Ho eq_refl)). cbn [mbind result_bind].
      cbn [trimmed_override override_approval override_quorum override_noticePeriodSeconds].
      rewrite (proj2 (weakens_false _ _) Ha), (proj2 (weakens_false _ _) Hq).
      rewrite (proj2 (notice_step t o) Hn). cbn [throw_if mbind result_bind].
      unfold GovernanceRuleTemplateSchema. rewrite overridden_ok by done. cbn [mbind result_bind].
      assert (trimmed_label (overridden t (trimmed_override o)) = overridden t (trimmed_override o)) as ->.
      { apply List.find_some in Et as [Hin _]. cbn [parsed_profile templates] in Hin.
        apply in_map_iff in Hin as (t0 & <- & _). apply trimmed_overridden. }
      by rewrite Hhs.
    + destruct Hoo as [-> ->]. by rewrite Hhs.
Qed.

Lemma parsed_template_ok p t : profile_ok p = true -> t ∈ templates (parsed_profile p) -> template_ok t = true.
Proof.
  intros Hp Hin%list_elem_of_In. cbn [parsed_profile templates] in Hin.
  apply in_map_iff in Hin as (t0 & <- & Hin). rewrite trimmed_ok.
  unfold profile_ok in Hp. boolify.
  match goal with Hf : forallb template_ok _ = true |- _ => rewrite forallb_forall in Hf; auto end.
Qed.

Lemma selected_strengthens p code oo s :
  selectGovernanceRule p code oo = Ok s ->
  exists t, t ∈ templates (parsed_profile p) /\ template_code t = code /\
    strengthens (selected_template s) t /\
    (oo = None -> selected_template s = t) /\ (oo <> None -> overridePolicy t = strengthen_only).
Proof.
  intros (Hp & t & hp & hs & t' & o' & Et & Hoo & _ & _ & ->)%select_spec.
  apply List.find_some in Et as [Hin Hc%bool_decide_eq_true]. exists t.
  apply list_elem_of_In in Hin.
  assert (template_ok t = true) as Htok by (by eapply parsed_template_ok). cbn [selected_template].
  destruct oo as [o|].
  - destruct Hoo as ((Hpol & Ho & Ha & Hq & Hn) & -> & ->). split_and!; try done.
    unfold strengthens. split_and!; [by apply overridden_ok|done..].
  - destruct Hoo as [-> _]. split_and!; try done. unfold strengthens.
    rewrite !fractionAtLeast_refl. split_and!; [done..|lia|by destruct t].
Qed.
End select_lemmas.

(** ** Lemmas: the digest of a selection *)

Lemma fraction_json_inj a b : sort_json (fraction_json a) = sort_json (fraction_json b) -> a = b.
Proof. intros E. same_members E. destruct a, b; cbn in *. by subst. Qed.

Lemma source_json_inj a b : sort_json (source_json a) = sort_json (source_json b) -> a = b.
Proof. intros E. same_members E. destruct a, b; cbn in *. by subst. Qed.

Lemma enum_texts_inj :
  (forall a b, denominator_name a = denominator_name b -> a = b) /\
  (forall a b, tie_text a = tie_text b -> a = b) /\ (forall a b, proxy_text a = proxy_text b -> a = b) /\
  (forall a b, close_text a = close_text b -> a = b) /\
  (forall a b, override_text a = override_text b -> a = b).
Proof. split_and!; intros [] [] E; try reflexivity; vm_compute in E; discriminate E. Qed.

Lemma template_json_inj a b : sort_json (template_json a) = sort_json (template_json b) -> a = b.
Proof.
  intros E. unfold template_json in E. same_members E.
  destruct enum_texts_inj as (I1 & I2 & I3 & I4 & I5).
  repeat match goal with
  | F : map sort_json (map source_json _) = _ |- _ => apply (jstr_list_inj _ _ _ source_json_inj) in F
  | F : denominator_name _ = _ |- _ => apply I1 in F
  | F : tie_text _ = _ |- _ => apply I2 in F
  | F : proxy_text _ = _ |- _ => apply I3 in F
  | F : close_text _ = _ |- _ => apply I4 in F
  | F : override_text _ = _ |- _ => apply I5 in F
  end.
  destruct a as [? ? ? [] []], b as [? ? ? [] []]; cbn in *. by subst.
Qed.

Definition override_members (o : GovernanceRuleOverride) : list (jsstr * json) :=
  optional_member "approval" fraction_json (override_approval o)
  ++ optional_member "quorum" fraction_json (override_quorum o)
  ++ optional_member "noticePeriodSeconds" jint (override_noticePeriodSeconds o)
  ++ [str "reason" (override_reason o); (js "citations", JArr (map source_json (override_citations o)))].

Lemma override_members_get o :
  NoDup (override_members o).*1 /\
  map_get (override_members o) (js "approval") = fraction_json <$> override_approval o /\
  map_get (override_members o) (js "quorum") = fraction_json <$> override_quorum o /\
  map_get (override_members o) (js "noticePeriodSeconds") = jint <$> override_noticePeriodSeconds o /\
  map_get (override_members o) (js "reason") = Some (JStr (override_reason o)) /\
  map_get (override_members o) (js "citations") = Some (JArr (map source_json (override_citations o))).
Proof.
  destruct o as [[a|] [q|] [n|] r c]; (split; [apply (bool_decide_unpack _); vm_compute; exact I|]);
    split_and!; reflexivity.
Qed.

Lemma option_json_inj {A} (f : A -> json) (o p : option A) :
  (forall a b, sort_json (f a) = sort_json (f b) -> a = b) ->
  sort_json <$> (f <$> o) = sort_json <$> (f <$> p) -> o = p.
Proof. intros Hf. destruct o, p; cbn; intros E; simplify_eq; [f_equal; auto|done]. Qed.

Lemma override_json_inj a b : sort_json (override_json a) = sort_json (override_json b) -> a = b.
Proof.
  intros E. destruct (override_members_get a) as (Ha & Ha1 & Ha2 & Ha3 & Ha4 & Ha5).
  destruct (override_members_get b) as (Hb & Hb1 & Hb2 & Hb3 & Hb4 & Hb5).
  pose proof (fun key => sort_json_obj_get _ _ key Ha Hb E) as G.
  pose proof (G (js "approval")) as G1. pose proof (G (js "quorum")) as G2.
  pose proof (G (js "noticePeriodSeconds")) as G3. pose proof (G (js "reason")) as G4.
  pose proof (G (js "citations")) as G5. clear G E.
  rewrite Ha1, Hb1 in G1. rewrite Ha2, Hb2 in G2. rewrite Ha3, Hb3 in G3. rewrite Ha4, Hb4 in G4.
  rewrite Ha5, Hb5 in G5. clear - G1 G2 G3 G4 G5.
  apply option_json_inj in G1; [|apply fraction_json_inj].
  apply option_json_inj in G2; [|apply fraction_json_inj].
  apply option_json_inj in G3; [|by intros x y [= ->]].
  injection G4 as G4. injection G5 as G5. apply (jstr_list_inj _ _ _ source_json_inj) in G5.
  destruct a, b; cbn in *. by subst.
Qed.

(** The payload is plain whatever its strings are, when the notice periods are
    safe integers. *)
Lemma fraction_plain f : json_plain (fraction_json f) = true.
Proof. reflexivity. Qed.

Lemma sources_plain l : forallb json_plain (map source_json l) = true.
Proof. rewrite forallb_map. apply forallb_forall. intros c _. reflexivity. Qed.

Lemma template_plain t : template_ok t = true -> json_plain (template_json t) = true.
Proof.
  unfold template_ok. intros. boolify. unfold template_json.
  cbn -[js is_index_key safe_Z source_json fraction_json].
  rewrite !fraction_plain, sources_plain.
  assert (safe_Z (noticePeriodSeconds t) = true) as ->; [|vm_compute; reflexivity].
  match goal with Hn : in_range 0 31536000 _ = true |- _ => apply in_range_spec in Hn end.
  apply in_range_spec. unfold MAX_SAFE_INTEGER. lia.
Qed.

Lemma override_plain o : override_ok o = true -> json_plain (override_json (trimmed_override o)) = true.
Proof.
  intros (_ & _ & Hn)%override_fields. change (override_json (trimmed_override o))
    with (JObj (override_members (trimmed_override o))).
  cbn [json_plain]. rewrite bool_decide_eq_true_2 by apply override_members_get. cbn [andb].
  assert (forall n, override_noticePeriodSeconds o = Some n -> safe_Z n = true) as Hs.
  { intros n E. rewrite E in Hn. apply in_range_spec in Hn. apply in_range_spec.
    unfold MAX_SAFE_INTEGER. lia. }
  destruct o as [[a|] [q|] [n|] r c]; cbn -[js is_index_key safe_Z source_json fraction_json];
    rewrite ?fraction_plain, ?sources_plain, ?(Hs n eq_refl); vm_compute; reflexivity.
Qed.

(** ** The rule a tally runs under *)

(** The approval rule of a template: its fractions as numbers, its other
    settings unchanged. *)
Definition approval_rule (t : GovernanceRuleTemplate) : ApprovalRule :=
  Voting.MkRule
    (MkRational (fraction_numerator (approval t)) (fraction_denominator (approval t)))
    (MkRational (fraction_numerator (quorum t)) (fraction_denominator (quorum t)))
    (approvalDenominator t) (abstentionsCountForQuorum t) (tieBehavior t).

Lemma at_least_floor v tot f f' :
  0 <= tot -> 0 < fraction_denominator f -> 0 < fraction_denominator f' ->
  fractionAtLeast f' f = true ->
  at_least v tot (MkRational (fraction_numerator f') (fraction_denominator f')) = true ->
  at_least v tot (MkRational (fraction_numerator f) (fraction_denominator f)) = true.
Proof.
  unfold at_least, fractionAtLeast. rewrite !Z.leb_le. cbn [numerator denominator].
  generalize (fraction_numerator f) (fraction_denominator f)
    (fraction_numerator f') (fraction_denominator f'). intros n d n' d' Ht Hd Hd' Hle Hv.
  apply (Zmult_le_reg_r _ _ d'); [lia|].
  assert (tot * (n * d') <= tot * (n' * d)) by (apply Z.mul_le_mono_nonneg_l; lia).
  assert (tot * n' * d <= v * d' * d) by (apply Z.mul_le_mono_nonneg_r; lia). nia.
Qed.

(** ** Properties *)

(** The Euclidean loop ends and returns the greatest common divisor, for
    every pair of nonnegative integers. *)
Theorem greatestCommonDivisor_correct a b :
  0 <= a -> 0 <= b -> greatestCommonDivisor a b = Ok (Z.gcd a b).
Proof. apply gcd_spec. Qed.

(** An accepted fraction is canonical: two accepted fractions of equal value
    are the same text. *)
Theorem fraction_canonical f g :
  GovernanceFractionSchema f = true -> GovernanceFractionSchema g = true ->
  fraction_numerator f * fraction_denominator g = fraction_numerator g * fraction_denominator f ->
  f = g.
Proof.
  intros (Hf1 & Hf2 & ? & ? & ?)%fraction_ok (Hg1 & Hg2 & ? & ? & ?)%fraction_ok E.
  destruct (reduced_unique (fraction_numerator f) (fraction_denominator f)
    (fraction_numerator g) (fraction_denominator g)) as [En Ed]; try done.
  destruct f as [fn fd], g as [gn gd]. cbn in *. f_equal.
  - by apply nat_dec_inj.
  - by apply pos_dec_inj.
Qed.

(** The rational number a fraction stands for. *)
Definition fraction_value (f : GovernanceFraction) : QArith_base.Q :=
  QArith_base.Qmake (fraction_numerator f) (Z.to_pos (fraction_denominator f)).

Lemma fractionAtLeast_value f g : 0 < fraction_denominator f -> 0 < fraction_denominator g ->
  fractionAtLeast f g = true <-> QArith_base.Qle (fraction_value g) (fraction_value f).
Proof.
  intros Hf Hg. unfold fractionAtLeast, QArith_base.Qle, fraction_value.
  cbn [QArith_base.Qnum QArith_base.Qden]. rewrite !Z2Pos.id by done. apply Z.leb_le.
Qed.

Lemma template_denominators t : template_ok t = true ->
  0 < fraction_denominator (approval t) /\ 0 < fraction_denominator (quorum t).
Proof.
  intros Hu. unfold template_ok in Hu. boolify.
  repeat match goal with Hf : GovernanceFractionSchema _ = true |- _ => apply fraction_ok in Hf end. tauto.
Qed.

(** The thresholds, as numbers, and the notice are at least those of the
    template, and the rest is the template's. *)
Record as_strict_as (t' t : GovernanceRuleTemplate) : Prop := {
  sa_ok : template_ok t' = true;
  sa_approval : QArith_base.Qle (fraction_value (approval t)) (fraction_value (approval t'));
  sa_quorum : QArith_base.Qle (fraction_value (quorum t)) (fraction_value (quorum t'));
  sa_notice : noticePeriodSeconds t <= noticePeriodSeconds t';
  sa_rest : t' = MkTemplate (template_id t) (template_code t) (label t) (approval t') (quorum t')
              (approvalDenominator t) (abstentionsCountForQuorum t) (tieBehavior t) (proxyPolicy t)
              (noticePeriodSeconds t') (closeMode t) (overridePolicy t) (template_citations t)
}.

(** The settings an override changes. *)
Definition override_settings (t : GovernanceRuleTemplate) (o : GovernanceRuleOverride) (t' : GovernanceRuleTemplate)
    : Prop :=
  approval t' = default (approval t) (override_approval o) /\
  quorum t' = default (quorum t) (override_quorum o) /\
  noticePeriodSeconds t' = default (noticePeriodSeconds t) (override_noticePeriodSeconds o).

(** C27. Selecting a rule never weakens it: the selected template is the named
    template of the profile with approval and quorum, as rational numbers, and
    notice at least as strict and every other setting unchanged; without an
    override it is the template itself; and an override is only accepted by a
    template that allows strengthening, and then it sets exactly the approval,
    quorum and notice it names. *)
Theorem selection_never_weakens `{Platform} p code o s :
  selectGovernanceRule p code o = Ok s ->
  exists t, t ∈ templates (parsed_profile p) /\ template_code t = code /\
    as_strict_as (selected_template s) t /\
    (o = None -> selected_template s = t) /\
    (forall ov, o = Some ov -> overridePolicy t = strengthen_only /\ override_settings t ov (selected_template s)).
Proof.
  intros Hs. pose proof (selected_strengthens p code o s Hs) as (t & Hin & Hc & (Hok & Ha & Hq & Hn & Et) & Hnone & _).
  apply select_spec in Hs as (Hp & t0 & hp & hs & t' & o' & Et0 & Hoo & _ & _ & ->).
  apply List.find_some in Et0 as [Hin0 Hc0%bool_decide_eq_true]. apply list_elem_of_In in Hin0.
  cbn [selected_template] in *. exists t0.
  assert (template_ok t0 = true) as Htok by (by eapply parsed_template_ok).
  destruct (template_denominators _ Htok) as [Hd1 Hd2]. destruct o as [ov|].
  - destruct Hoo as ((Hpol & _ & Ha0 & Hq0 & Hn0) & -> & _). destruct (template_denominators _ Hok) as [Hd3 Hd4].
    split_and!; [done..| |done|intros ? [= <-]; by split_and!].
    split; [done|by apply fractionAtLeast_value..|done|done].
  - destruct Hoo as [-> _]. split_and!; [done..| |done|done].
    split; [done|apply QArith_base.Qle_refl..|lia|by destruct t0].
Qed.

(** An override is accepted exactly when it is permitted: for an accepted
    profile that has the template, the template allows strengthening, the
    override is well-formed, none of its values is weaker than the template's,
    and the profile and the selection are canonical JSON. *)
Theorem override_accepted_iff `{Platform} p code o :
  is_ok (selectGovernanceRule p code (Some o)) = true <->
  profile_ok p = true /\
  exists t, List.find (fun c => bool_decide (template_code c = code)) (templates (parsed_profile p)) = Some t /\
    override_permitted t o /\
    json_ok 0 (profile_json (parsed_profile p)) = true /\
    forall hp, canonicalSha256 (profile_json (parsed_profile p)) = Ok hp ->
      json_ok 0 (selection_json hp (overridden t (trimmed_override o)) (Some (trimmed_override o))) = true.
Proof.
  rewrite is_ok_true. setoid_rewrite select_spec. setoid_rewrite <- canonicalSha256_is_ok. split.
  - intros (s & Hp & t & hp & hs & t' & o' & Et & (Hper & -> & ->) & Hhp & Hhs & _).
    split; [done|]. exists t. split_and!; [done..|by rewrite Hhp|].
    intros hp' Hhp'. rewrite Hhp in Hhp'. injection Hhp' as <-. by rewrite Hhs.
  - intros (Hp & t & Et & Hper & (hp & Hhp)%is_ok_true & Hs).
    destruct (proj1 (is_ok_true _) (Hs hp Hhp)) as (hs & Hhs).
    exists (MkSelected hp (overridden t (trimmed_override o)) (Some (trimmed_override o)) hs).
    split; [done|]. by exists t, hp, hs, (overridden t (trimmed_override o)), (Some (trimmed_override o)).
Qed.

(** A strengthened rule is stricter on every vote: what the tally approves
    under the selected rule it also approves under the profile's template, for
    the same electorate and ballots. *)
Theorem selected_rule_is_stricter `{Platform} p code o s es bs v :
  selectGovernanceRule p code o = Ok s ->
  tallyVote es bs (approval_rule (selected_template s)) = Ok v -> outcome v = approved ->
  exists t v', t ∈ templates (parsed_profile p) /\ template_code t = code /\
    tallyVote es bs (approval_rule t) = Ok v' /\ outcome v' = approved.
Proof.
  intros Hs (He & Hb & ->)%tallyVote_ok Ho.
  pose proof (selected_strengthens p code o s Hs) as (t & Hin & Hc & (Hok & Ha & Hq & _ & Et) & _).
  exists t, (spec_tally es bs (approval_rule t)). split_and!; [done|done|by apply tallyVote_ok|].
  assert (template_ok t = true) as Htok
    by (apply select_spec in Hs as (Hp & _); by eapply parsed_template_ok).
  pose proof (template_denominators _ Hok) as [? ?]. pose proof (template_denominators _ Htok) as [? ?].
  pose proof (cast_weight_nonneg es bs yes He). pose proof (cast_weight_nonneg es bs no He).
  pose proof (cast_weight_nonneg es bs abstain He). pose proof (eligible_weight_nonneg es He).
  set (t' := selected_template s) in *. clearbody t'.
  assert (approvalDenominator t' = approvalDenominator t /\
    abstentionsCountForQuorum t' = abstentionsCountForQuorum t /\ tieBehavior t' = tieBehavior t)
    as (E1 & E2 & E3) by (rewrite Et; done). clear Et.
  unfold spec_tally, approval_rule in *.
  cbn [outcome Voting.approval Voting.quorum Voting.approvalDenominator
    Voting.abstentionsCountForQuorum Voting.tieBehavior] in *.
  rewrite E1, E2, E3 in Ho.
  destruct (_ && _) eqn:Q in Ho; [|done]. apply andb_true_iff in Q as [-> Q].
  eapply (at_least_floor _ _ (quorum t)) in Q; [rewrite Q; cbn [andb]|done..].
  destruct (_ =? _); [done|]. destruct (at_least _ _ _) eqn:A in Ho; [|done].
  eapply (at_least_floor _ _ (approval t)) in A; [by rewrite A| |done..].
  destruct (approvalDenominator t); lia.
Qed.

(** A selection is identified by its digest: two selections with the same
    digest have the same profile digest, the same template and the same
    override, unless their payloads are an explicit SHA-256 collision. *)
Theorem selection_digest_binds `{Platform} p code o s p' code' o' s' :
  selectGovernanceRule p code o = Ok s -> selectGovernanceRule p' code' o' = Ok s' ->
  selectionSha256 s = selectionSha256 s' ->
  s = s' \/
  collision
    (canonical_bytes (selection_json (profileSha256 s) (selected_template s) (selected_override s)))
    (canonical_bytes (selection_json (profileSha256 s') (selected_template s') (selected_override s'))).
Proof.
  assert (forall p code o s, selectGovernanceRule p code o = Ok s ->
    json_plain (selection_json (profileSha256 s) (selected_template s) (selected_override s)) = true /\
    canonicalSha256 (selection_json (profileSha256 s) (selected_template s) (selected_override s))
    = Ok (selectionSha256 s)) as Hshape.
  { intros q c oo u Hu. pose proof (selected_strengthens q c oo u Hu) as (_ & _ & _ & (Hok & _) & _).
    apply select_spec in Hu as (_ & t & hp & hs & t' & o2 & _ & Hoo & _ & Hhs & ->).
    cbn [profileSha256 selected_template selected_override selectionSha256] in *. split; [|done].
    apply template_plain in Hok. unfold selection_json. cbn -[js is_index_key template_json override_json].
    rewrite Hok. destruct oo as [o1|].
    - destruct Hoo as ((_ & Ho & _) & _ & ->). cbn [jopt]. rewrite (override_plain o1 Ho).
      vm_compute. reflexivity.
    - destruct Hoo as [_ ->]. vm_compute. reflexivity. }
  intros (Hpl & Hh)%Hshape (Hpl' & Hh')%Hshape E. rewrite <- E in Hh'.
  destruct (canonicalSha256_plain _ _ _ Hpl Hpl' Hh Hh') as [Es|Hc]; [left|by right].
  destruct s as [hp t o1 hs], s' as [hp' t' o1' hs'].
  cbn [profileSha256 selected_template selected_override selectionSha256] in *.
  unfold selection_json in Es.
  assert (forall a b c, NoDup [str "schemaVersion" (js "boardagent.governance-rule-selection.v1");
    str "profileSha256" a; (js "template", b); (js "override", c)].*1) as Hnd
    by (intros; apply (bool_decide_unpack _); vm_compute; exact I).
  pose proof (fun key => sort_json_obj_get _ _ key (Hnd _ _ _) (Hnd _ _ _) Es) as G.
  assert (Some (JStr hp) = Some (JStr hp')) as [= ->] by exact (G (js "profileSha256")).
  assert (Some (sort_json (template_json t)) = Some (sort_json (template_json t'))) as Ht%(inj Some)
    by exact (G (js "template")).
  assert (Some (sort_json (jopt override_json o1)) = Some (sort_json (jopt override_json o1'))) as Ho%(inj Some)
    by exact (G (js "override")).
  apply template_json_inj in Ht as ->. apply jopt_inj in Ho as ->; [by rewrite E| |apply override_json_inj].
  intros [? ? ? ? ?]. unfold override_json. by rewrite sort_json_obj.
Qed.

(** ** Witnesses *)

Definition sample_source : Citation :=
  Ruleset.MkCitation (sample_uuid "bb") (sha256Hex (js "charter")) (js "4.2") (js "p. 3").

Definition sample_template : GovernanceRuleTemplate :=
  MkTemplate (sample_uuid "20") (js "ordinary") (js " Ordinary ")
    (MkFraction (js "1") (js "2")) (MkFraction (js "1") (js "2")) participating true reject
    proxy_forbidden 86400 automatic strengthen_only [sample_source].

Definition sample_profile : GovernanceProfile :=
  MkProfile (sample_uuid "01") (sample_uuid "02") 1 None [sample_source]
    [MkGovernanceSeat (sample_uuid "03") voting_member (js "2") true] [sample_template].

Definition sample_override : GovernanceRuleOverride :=
  MkOverride (Some (MkFraction (js "2") (js "3"))) None (Some 172800) (js "large loan") [sample_source].

Lemma greatestCommonDivisor_correct_witness : greatestCommonDivisor 84 36 = Ok (Z.gcd 84 36).
Proof. apply greatestCommonDivisor_correct; lia. Defined.

Lemma fraction_canonical_witness : MkFraction (js "2") (js "3") = MkFraction (js "2") (js "3").
Proof. apply fraction_canonical; reflexivity. Defined.

Lemma selection_never_weakens_witness :
  exists s, @selectGovernanceRule plain_platform sample_profile (js "ordinary") (Some sample_override) = Ok s /\
  exists t, t ∈ templates (parsed_profile sample_profile) /\ template_code t = js "ordinary" /\
    as_strict_as (selected_template s) t /\
    (Some sample_override = None -> selected_template s = t) /\
    (forall ov, Some sample_override = Some ov ->
       overridePolicy t = strengthen_only /\ override_settings t ov (selected_template s)).
Proof.
  eexists. split; [vm_compute; reflexivity|].
  apply (@selection_never_weakens plain_platform). vm_compute. reflexivity.
Defined.

Lemma selected_rule_is_stricter_witness :
  exists t v', t ∈ templates (parsed_profile sample_profile) /\ template_code t = js "ordinary" /\
    tallyVote sample_electorate [MkBallot (js "ada") (js "ada") yes own] (approval_rule t) = Ok v' /\
    outcome v' = approved.
Proof.
  eapply (@selected_rule_is_stricter plain_platform sample_profile (js "ordinary") (Some sample_override));
    vm_compute; reflexivity.
Defined.

Lemma selection_digest_binds_witness :
  exists s, @selectGovernanceRule plain_platform sample_profile (js "ordinary") None = Ok s /\
  (s = s \/
   collision
    (canonical_bytes (selection_json (profileSha256 s) (selected_template s) (selected_override s)))
    (canonical_bytes (selection_json (profileSha256 s) (selected_template s) (selected_override s)))).
Proof.
  eexists. split; [vm_compute; reflexivity|].
  eapply (@selection_digest_binds plain_platform sample_profile (js "ordinary") None _
    sample_profile (js "ordinary") None); [vm_compute; reflexivity..|reflexivity].
Defined.
