(* ===== verification/Decode.v ===== *)
(** * Reading JSON with schemas

    The object, string, enum, literal and null schemas of the schema library
    the sources use, as decoders of JSON values, with the lemmas and the tactic
    that take a successful decoding apart. *)

From stdpp Require Import base numbers sorting strings list.
From Stdlib Require Import Lia.
From S2P Require Import Prelude JsString Encoding JsNumber Json JsonParse JsonCanon Schemas.

Local Open Scope Z_scope.

(** ** Decoders *)

Definition members (v : json) : option (list (jsstr * json)) :=
  match v with JObj l => Some l | _ => None end.

(** [.strict()]: no other names. *)
Definition strict (keys : list string) (l : list (jsstr * json)) : bool :=
  forallb (fun kv => existsb (fun k => bool_decide (kv.1 = js k)) keys) l.

Definition required {A} (l : list (jsstr * json)) (key : string) (d : json -> option A) : option A :=
  map_get l (js key) ≫= d.

Definition dString (p : jsstr -> bool) (v : json) : option jsstr :=
  match v with JStr s => if p s then Some s else None | _ => None end.

Definition dNullable {A} (d : json -> option A) (v : json) : option (option A) :=
  match v with JNull => Some None | _ => Some <$> d v end.

Definition dLiteral (text : string) : json -> option jsstr := dString (fun s => bool_decide (s = js text)).

(** [z.enum(..)] with the values it stands for. *)
Definition dEnum {A} (table : list (string * A)) (v : json) : option A :=
  match v with
  | JStr s => snd <$> List.find (fun e => bool_decide (s = js e.1)) table
  | _ => None
  end.

(** A string of any content, and [z.literal(..)] of an integer. *)
Definition dAny : json -> option jsstr := dString (fun _ => true).
(** [z.number().int()..] with a range test. *)
Definition dInt (p : Z -> bool) (v : json) : option Z :=
  match v with
  | JNum (NInt z) => if p z then Some z else None
  | _ => None
  end.
Definition dIntLiteral (z : Z) (v : json) : option unit :=
  match v with
  | JNum (NInt k) => if k =? z then Some tt else None
  | _ => None
  end.

(** [z.array(d)], and a nullable member that defaults to null. *)
Definition dArray {A} (d : json -> option A) (v : json) : option (list A) :=
  match v with JArr l => mapM d l | _ => None end.
Definition dDefaultNull {A} (l : list (jsstr * json)) (key : string) (d : json -> option A) : option (option A) :=
  match map_get l (js key) with Some v => dNullable d v | None => Some None end.

(** ** Inversion *)

Lemma dString_some p v s : dString p v = Some s <-> v = JStr s /\ p s = true.
Proof.
  unfold dString. split.
  - intros H1. destruct v as [| | |t| |]; try discriminate H1.
    destruct (p t) eqn:E; [injection H1 as <-|discriminate H1]. done.
  - intros [-> ->]. done.
Qed.

Lemma dInt_some p v z : dInt p v = Some z <-> v = jint z /\ p z = true.
Proof.
  unfold dInt, jint. split; [|by intros [-> ->]].
  destruct v as [|b|[| | |k|m k]|t|l|l]; try done. destruct (p k) eqn:E; [|done]. by intros [= ->].
Qed.

Lemma dNullable_string p v o : dNullable (dString p) v = Some o <-> v = jopt JStr o /\ opt_all p o = true.
Proof.
  split.
  - destruct v as [|b|n|t|l|l]; cbn; try done; [by intros [= <-]|]. destruct (p t) eqn:E; [|done].
    by intros [= <-].
  - intros [-> H]. destruct o as [t|]; cbn in *; [by rewrite H|done].
Qed.

Lemma dNullable_some {A} (d : json -> option A) v o :
  dNullable d v = Some o -> o = None \/ exists a, o = Some a /\ d v = Some a.
Proof.
  destruct v; cbn; try (intros (a & Ha & ->)%fmap_Some; right; by exists a). intros [= <-]. by left.
Qed.

(** Splits a successful decoding into its members. *)
Ltac inv_decode :=
  repeat match goal with
  | H : _ ≫= _ = Some _ |- _ => apply bind_Some in H as (? & ? & H)
  | H : (if ?b then None else _) = Some _ |- _ => destruct b eqn:?; [discriminate H|]
  | H : (if ?b then Some _ else None) = Some _ |- _ => destruct b eqn:?; [|discriminate H]
  | H : Some _ = Some _ |- _ => injection H as H
  | H : required _ _ _ = Some _ |- _ => unfold required in H
  | H : dString _ _ = Some _ |- _ => apply dString_some in H as [? H]
  end; subst.


(** The same, down to the tests on scalars. *)
Ltac inv_read :=
  repeat (inv_decode; match goal with
  | H : dLiteral _ _ = Some _ |- _ => apply dString_some in H as [? H%bool_decide_eq_true]
  | H : dInt _ _ = Some _ |- _ => apply dInt_some in H as [? H]
  | H : dNullable (dString _) _ = Some _ |- _ => apply dNullable_string in H as [? H]
  end); inv_decode; boolify; subst.

(** ** [String.prototype.split] on one character, and [Array.prototype.join] *)

Fixpoint split_on (c : Z) (s : jsstr) : list jsstr :=
  match s with
  | [] => [[]]
  | x :: s' =>
      match split_on c s' with
      | l :: ls => if x =? c then [] :: l :: ls else (x :: l) :: ls
      | [] => [[x]]
      end
  end.

Lemma split_on_cons c s : exists l ls, split_on c s = l :: ls.
Proof.
  induction s as [|x s (l & ls & IH)]; [by exists [], []|]. cbn. rewrite IH.
  destruct (x =? c); eauto.
Qed.

Lemma split_on_plain c s : forallb (fun x => negb (x =? c)) s = true -> split_on c s = [s].
Proof.
  induction s as [|x s IH]; [done|]. cbn. intros [Hx%negb_true_iff Hs]%andb_true_iff.
  by rewrite IH, Hx.
Qed.

Lemma split_on_app c s t : forallb (fun x => negb (x =? c)) s = true ->
  split_on c (s ++ c :: t) = s :: split_on c t.
Proof.
  induction s as [|x s IH]; cbn.
  - intros _. destruct (split_on_cons c t) as (l & ls & ->). by rewrite Z.eqb_refl.
  - intros [Hx%negb_true_iff Hs]%andb_true_iff. by rewrite IH, Hx.
Qed.

Lemma split_on_parts c s : forall l, l ∈ split_on c s -> forallb (fun x => negb (x =? c)) l = true.
Proof.
  induction s as [|x s IH]; cbn.
  - by intros l ->%list_elem_of_singleton.
  - destruct (split_on_cons c s) as (l1 & ls & E). rewrite E in *. intros l.
    destruct (Z.eqb_spec x c) as [->|Hx].
    + intros [->|Hl]%elem_of_cons; [done|by apply IH].
    + intros [->|Hl]%elem_of_cons; [|apply IH; by right]. cbn.
      rewrite (proj2 (Z.eqb_neq x c) Hx). apply IH. by left.
Qed.

Lemma join_split c s : join [c] (split_on c s) = s.
Proof.
  induction s as [|x s IH]; [done|]. cbn. destruct (split_on_cons c s) as (l & ls & E).
  rewrite E in *. destruct (Z.eqb_spec x c) as [->|Hx].
  - change (join [c] ([] :: l :: ls)) with (c :: join [c] (l :: ls)). by rewrite IH.
  - destruct ls as [|l' ls]; cbn in *; by rewrite IH.
Qed.

Lemma split_join c l : l <> [] ->
  Forall (fun s => forallb (fun x => negb (x =? c)) s = true) l -> split_on c (join [c] l) = l.
Proof.
  intros Hl. induction 1 as [|s l Hs Hrest IH]; [done|]. destruct l as [|t l].
  - by apply split_on_plain.
  - change (join [c] (s :: t :: l)) with (s ++ [c] ++ join [c] (t :: l)). cbn [app].
    rewrite split_on_app by done. by rewrite IH.
Qed.

(** ** Node's own text and JSON decoding *)

(** [Buffer.toString] agrees with strict decoding where that succeeds, and
    [JSON.parse] with the strict parser where that succeeds, up to the place
    integer-index names take in an object. *)
Class NodeText `{Platform} := {
  buffer_toString : list Z -> jsstr;
  JSON_parse : jsstr -> option json;
  buffer_toString_decode bytes s : utf8_decode bytes = Some s -> buffer_toString bytes = s;
  JSON_parse_strict s v : strictParse s = Ok v ->
    exists w, JSON_parse s = Some w /\ sort_json w = sort_json v /\
      (has_index_key v = false -> w = v)
}.

Section node_text.
Context `{Platform} `{!NodeText}.

Lemma buffer_toString_encode s : is_well_formed s = true -> buffer_toString (utf8_encode s) = s.
Proof. intros. by apply buffer_toString_decode, utf8_decode_encode. Qed.

Lemma JSON_parse_stringify v : json_safe v = true -> has_index_key v = false ->
  JSON_parse (stringify v) = Some v.
Proof.
  intros Hv Hi. destruct (JSON_parse_strict _ _ (strictParse_stringify v Hv)) as (w & -> & _ & Hw).
  by rewrite Hw.
Qed.
End node_text.

(** The runtime as the strict decoder and parser. *)
Definition strict_text `{Platform} : NodeText.
Proof.
  refine {| buffer_toString bytes := match utf8_decode bytes with Some s => s | None => [] end;
            JSON_parse s := match strictParse s with Ok v => Some v | Throw _ => None end |}.
  - by intros bytes s ->.
  - intros s v ->. by exists v.
Defined.

(** ** Objects read by a strict schema *)

Lemma nodup_perm_sort l k : l ≡ₚ k -> NoDup l.*1 -> sort_json (JObj l) = sort_json (JObj k).
Proof.
  intros Hp Hd. rewrite !sort_json_obj. f_equal.
  apply (sorted_perm_eq cmp_member).
  - intros [a x] [b y] Ha Hb Hab Hba. unfold cmp_member in Hab, Hba. cbn in Hab, Hba.
    pose proof (cmp_units_antisym a b Hab Hba) as ->. f_equal.
    rewrite sort_members_perm in Ha, Hb.
    assert (NoDup (map sort_member l).*1) as Hd'.
    { replace (map sort_member l).*1 with l.*1; [done|]. clear. induction l as [|[]]; cbn; congruence. }
    pose proof (map_get_nodup _ _ _ Hd' Ha). pose proof (map_get_nodup _ _ _ Hd' Hb). congruence.
  - apply toSorted_sorted; [apply cmp_member_total|apply cmp_member_trans].
  - apply toSorted_sorted; [apply cmp_member_total|apply cmp_member_trans].
  - rewrite !sort_members_perm. by apply Permutation_map.
Qed.

(** An object with exactly the names of a literal, and its values. *)
Lemma strict_object l k : NoDup l.*1 -> NoDup k.*1 ->
  (forall kv, kv ∈ l -> kv.1 ∈ k.*1) -> (forall kv, kv ∈ k -> map_get l kv.1 = Some kv.2) ->
  sort_json (JObj l) = sort_json (JObj k).
Proof.
  intros Hl Hk Hlk Hkl. apply nodup_perm_sort; [|done]. apply NoDup_Permutation.
  - by apply (NoDup_fmap_1 fst).
  - by apply (NoDup_fmap_1 fst).
  - intros [a x]. split; intros Hin.
    + pose proof (Hlk _ Hin) as Ha. cbn in Ha. apply list_elem_of_fmap in Ha as ([a' y] & -> & Hy).
      cbn [fst] in Hin |- *. specialize (Hkl _ Hy). cbn in Hkl. rewrite (map_get_nodup l _ x Hl Hin) in Hkl.
      by injection Hkl as ->.
    + specialize (Hkl _ Hin). by apply map_get_in in Hkl.
Qed.

Lemma strict_names keys l : strict keys l = true -> forall kv, kv ∈ l -> kv.1 ∈ map js keys.
Proof.
  unfold strict. rewrite forallb_forall. intros Hs kv Hin%list_elem_of_In. specialize (Hs kv Hin).
  apply existsb_exists in Hs as (k & Hk & ->%bool_decide_eq_true).
  by apply list_elem_of_In, in_map.
Qed.

(** The names of an object are distinct, as every parser guarantees. *)
Definition distinct_names (v : json) : Prop :=
  match v with JObj l => NoDup l.*1 | _ => True end.

Lemma parsed_distinct `{Platform} v : parsed_ok v = true -> distinct_names v.
Proof. destruct v; try done. cbn [parsed_ok]. by intros [Hd%bool_decide_eq_true _]%andb_true_iff. Qed.

Lemma sorted_distinct v w : sort_json v = sort_json w -> distinct_names w -> distinct_names v.
Proof.
  destruct v as [| | | | |l]; try done. destruct w as [| | | | |k]; try done. rewrite !sort_json_obj.
  intros [= E] Hd. cbn in *. by rewrite <- sort_members_keys, E, sort_members_keys.
Qed.

Lemma required_here {A} l key v (d : json -> option A) : required ((js key, v) :: l) key d = d v.
Proof. unfold required. cbn [map_get]. by rewrite decide_True. Qed.

Lemma required_next {A} l key k v (d : json -> option A) : bool_decide (js key = k) = false ->
  required ((k, v) :: l) key d = required l key d.
Proof. intros H%bool_decide_eq_false. unfold required. cbn [map_get]. by rewrite decide_False. Qed.

Lemma dString_intro p s : p s = true -> dString p (JStr s) = Some s.
Proof. intros H. by apply dString_some. Qed.
Lemma dInt_intro p z : p z = true -> dInt p (jint z) = Some z.
Proof. intros H. by apply dInt_some. Qed.
Lemma dNullable_intro p o : opt_all p o = true -> dNullable (dString p) (jopt JStr o) = Some o.
Proof. intros H. by apply dNullable_string. Qed.
Lemma dLiteral_intro text : dLiteral text (JStr (js text)) = Some (js text).
Proof. apply dString_some. split; [done|]. by apply bool_decide_eq_true. Qed.

(** Reads the members of a concrete object, scalars first; the goal is an
    equation on a decoder applied to it. *)
Ltac read_members :=
  unfold str, nullable, int_member, bool_member;
  repeat (rewrite ?required_next by (vm_compute; reflexivity); rewrite required_here;
          first [rewrite dLiteral_intro|rewrite dString_intro by done|rewrite dInt_intro by done
                |rewrite dNullable_intro by done|idtac]; cbn [mbind option_bind]).

(** The value that was read is the literal: the goal is an equation of sorted
    copies, the hypotheses give the names and each member. *)
Ltac read_literal :=
  apply strict_object;
  [assumption|apply (bool_decide_unpack _); vm_compute; exact I
  |match goal with H : strict _ _ = true |- _ => exact (strict_names _ _ H) end
  |let kv := fresh "kv" in intros kv Hkv;
   repeat (apply elem_of_cons in Hkv as [->|Hkv]; [assumption|]); by apply not_elem_of_nil in Hkv].
