(* ===== verification/Signing.v ===== *)
(** * Signed evidence

    The interface of the Ed25519 operations of node:crypto that the audit
    evidence formats use, and of a signed format itself: its payload schema and
    its canonical bytes. What signing and verifying any such format gives is
    proved here once, against the interface; the format files provide the
    instances. *)

From stdpp Require Import base numbers sorting strings list.
From Stdlib Require Import Lia.
From S2P Require Import Prelude JsString Encoding JsNumber Json JsonParse JsonCanon Schemas.
From S2P Require Import VotingConsent.

Local Open Scope Z_scope.

(** [sign(null, ..)], [verify(null, ..)] and key objects. A private key is
    given as an object or as text; both may be rejected by the library. *)
Class Signatures := {
  PrivateKey : Type;
  PublicKey : Type;
  is_ed25519_private : PrivateKey -> bool;
  is_ed25519_public : PublicKey -> bool;
  public_of : PrivateKey -> PublicKey;
  createPublicKey : jsstr -> result PublicKey;
  createPublicKeyJwk : json -> result PublicKey;
  sign : PrivateKey -> list Z -> result (list Z);
  verify : PublicKey -> list Z -> list Z -> result bool;
  (** A signature verifies under the public half of its key. *)
  sign_verify key m s : sign key m = Ok s -> verify (public_of key) m s = Ok true;
  (** Ed25519 signatures are 64 bytes. *)
  sign_bytes key m s : sign key m = Ok s -> forallb is_byte s = true;
  sign_length key m s : is_ed25519_private key = true -> sign key m = Ok s -> length s = 64%nat;
  public_of_ed25519 key : is_ed25519_private key = true -> is_ed25519_public (public_of key) = true
}.

(** [/^[A-Za-z0-9_-]{86}$/u]: the alphabet and length of a signature text. *)
Definition signature_text (s : jsstr) : bool :=
  class_len (fun c => is_lower c || is_upper c || is_digit c || (c =? 95) || (c =? 45)) 86 86 s.

(** [decodeCanonicalBase64Url(value, length)] *)
Definition decodeCanonicalBase64Url (value : jsstr) (expectedByteLength : Z) : option (list Z) :=
  let decoded := b64url_decode value in
  if negb (Z.of_nat (length decoded) =? expectedByteLength) then None
  else if bool_decide (b64url_encode decoded = value) then Some decoded else None.

Lemma b64_char_class d : 0 <= d < 64 ->
  (is_lower (b64_char d) || is_upper (b64_char d) || is_digit (b64_char d)
   || (b64_char d =? 95) || (b64_char d =? 45)) = true.
Proof.
  intros Hd. unfold b64_char.
  destruct (Z.ltb_spec d 26); [|destruct (Z.ltb_spec d 52);
    [|destruct (Z.ltb_spec d 62); [|destruct (Z.eqb_spec d 62)]]];
    unfold is_upper, is_lower, is_digit; rewrite !orb_true_iff, !in_range_spec, !Z.eqb_eq; lia.
Qed.

Lemma b64url_encode_shape l : forallb is_byte l = true ->
  forallb (fun c => is_lower c || is_upper c || is_digit c || (c =? 95) || (c =? 45)) (b64url_encode l)
    = true /\
  js_length (b64url_encode l) = (Z.of_nat (length l) * 4 + 2) / 3.
Proof.
  induction l as [|a|a b|a b c l IH] using list_ind3; cbn [forallb]; intros Hl;
    rewrite ?andb_true_iff in Hl; [done|unfold is_byte in Hl; rewrite ?in_range_spec in Hl..].
  - cbn [b64url_encode forallb]. rewrite !b64_char_class by zdm. done.
  - cbn [b64url_encode forallb]. rewrite !b64_char_class by zdm. done.
  - destruct IH as [I1 I2]; [apply Hl|]. cbn [b64url_encode forallb].
    rewrite !b64_char_class, I1 by zdm. split; [done|]. rewrite !js_length_cons, I2. cbn [length].
    replace (Z.of_nat (S (S (S (length l)))) * 4 + 2) with (Z.of_nat (length l) * 4 + 2 + 4 * 3) by lia.
    rewrite Z.div_add by lia. lia.
Qed.

Lemma signature_text_encode s :
  forallb is_byte s = true -> length s = 64%nat -> signature_text (b64url_encode s) = true.
Proof.
  intros Hs Hl. destruct (b64url_encode_shape s Hs) as [Hc Hn]. unfold signature_text, class_len.
  rewrite Hn, Hl, Hc. done.
Qed.

Lemma decodeCanonical_some value n l : decodeCanonicalBase64Url value n = Some l ->
  Z.of_nat (length l) = n /\ b64url_encode l = value.
Proof.
  unfold decodeCanonicalBase64Url. destruct (Z.eqb_spec (Z.of_nat (length (b64url_decode value))) n);
    cbn [negb]; [|done]. case_bool_decide; [|done]. by intros [= <-].
Qed.

Lemma decodeCanonical_encode l n : forallb is_byte l = true -> Z.of_nat (length l) = n ->
  decodeCanonicalBase64Url (b64url_encode l) n = Some l.
Proof.
  intros Hl Hn. unfold decodeCanonicalBase64Url. rewrite b64url_decode_encode by done.
  rewrite (proj2 (Z.eqb_eq _ _) Hn). cbn [negb]. by rewrite bool_decide_eq_true_2.
Qed.

(** ** Members of equal payloads *)

Lemma sort_member_cons a b l k : map sort_member (a :: l) = map sort_member (b :: k) ->
  sort_json a.2 = sort_json b.2 /\ map sort_member l = map sort_member k.
Proof. by intros [= ? ? ?]. Qed.

Lemma sort_json_obj_length l k : sort_json (JObj l) = sort_json (JObj k) -> length l = length k.
Proof.
  rewrite !sort_json_obj. intros [= E]. apply (f_equal length) in E.
  by rewrite !(Permutation_length (sort_members_perm _)), !length_map in E.
Qed.

Lemma sort_str_inj s t : sort_json (JStr s) = sort_json (JStr t) -> s = t.
Proof. by intros [= ->]. Qed.
Lemma sort_bool_inj s t : sort_json (JBool s) = sort_json (JBool t) -> s = t.
Proof. by intros [= ->]. Qed.
Lemma sort_int_inj s t : sort_json (jint s) = sort_json (jint t) -> s = t.
Proof. by intros [= ->]. Qed.

(** From [E], equality of the sorted copies of two literals with the same
    names, an equation per member, solved for scalar members; the members of
    nested literals are left to another use. *)
Ltac split_members E :=
  apply sort_json_obj_members in E;
  [|reflexivity|apply (bool_decide_unpack _); vm_compute; exact I];
  repeat (let F := fresh "F" in apply sort_member_cons in E as [F E];
          cbn [snd str nullable] in F;
          first [apply sort_str_inj in F|apply sort_bool_inj in F|apply sort_int_inj in F
                |apply jopt_str_inj in F|idtac]);
  clear E.

(** ** A signed format *)

(** A payload type with its schema, which returns what it accepts, and its
    JSON form, a literal whose members determine the payload. *)
Class Format `{Platform} (A : Type) := {
  payload_schema : A -> result A;
  payload_json : A -> json;
  payload_schema_same a b : payload_schema a = Ok b -> b = a;
  payload_json_plain a : payload_schema a = Ok a -> json_plain (payload_json a) = true;
  payload_json_inj a b : sort_json (payload_json a) = sort_json (payload_json b) -> a = b
}.

Record Signed (A : Type) := MkSigned { payload : A; signatureBase64Url : jsstr }.
Arguments MkSigned {A}.
Arguments payload {A}.
Arguments signatureBase64Url {A}.

Section formats.
Context `{P : Platform} `{!Signatures} {A : Type} `{F : !Format A}.

(** [Buffer.from(canonicalJson(payload))] *)
Definition signed_bytes (a : A) : result (list Z) := utf8_encode <$> canonicalJson (payload_json a).

(** Parsing, canonical encoding, signing. *)
Definition sign_payload (raw : A) (key : PrivateKey) : result (Signed A) :=
  p ← payload_schema raw;
  bytes ← signed_bytes p;
  signature ← sign key bytes;
  Ok (MkSigned p (b64url_encode signature)).

(** Parsing, canonical encoding, checking a signature. *)
Definition verify_payload (raw : A) (key : PublicKey) (signature : list Z) : result bool :=
  p ← payload_schema raw;
  bytes ← signed_bytes p;
  verify key bytes signature.

Lemma sign_payload_ok raw key c : sign_payload raw key = Ok c ->
  payload c = raw /\ payload_schema raw = Ok raw /\
  exists bytes s, signed_bytes raw = Ok bytes /\ sign key bytes = Ok s /\
    signatureBase64Url c = b64url_encode s.
Proof.
  intros (p & Hp & (bytes & Hb & (s & Hs & [= <-])%bind_ok)%bind_ok)%bind_ok.
  pose proof (payload_schema_same _ _ Hp) as ->. split_and!; try done. by exists bytes, s.
Qed.

Lemma sign_payload_verifies raw key c : sign_payload raw key = Ok c ->
  exists s, forallb is_byte s = true /\ signatureBase64Url c = b64url_encode s /\
    verify_payload (payload c) (public_of key) s = Ok true.
Proof.
  intros (E & Hp & bytes & s & Hb & Hs & Et)%sign_payload_ok.
  exists s. split_and!; [by eapply sign_bytes|done|].
  rewrite E. unfold verify_payload. rewrite Hp. cbn [mbind result_bind]. rewrite Hb.
  cbn [mbind result_bind]. by apply sign_verify.
Qed.

Lemma verify_payload_true raw key s : verify_payload raw key s = Ok true ->
  payload_schema raw = Ok raw /\
  exists bytes, signed_bytes raw = Ok bytes /\ verify key bytes s = Ok true.
Proof.
  intros (p & Hp & (bytes & Hb & Hv)%bind_ok)%bind_ok.
  pose proof (payload_schema_same _ _ Hp) as ->. split; [done|]. by exists bytes.
Qed.

(** What is signed determines the payload. *)
Lemma signed_bytes_inj a b bytes :
  payload_schema a = Ok a -> payload_schema b = Ok b ->
  signed_bytes a = Ok bytes -> signed_bytes b = Ok bytes -> a = b.
Proof.
  intros Sa Sb. unfold signed_bytes. intros (s & Hs & ->)%fmap_ok (t & Ht & E)%fmap_ok.
  apply canonicalJson_ok in Hs as [Oa ->], Ht as [Ob ->].
  rewrite !plain_index in E by by apply payload_json_plain.
  assert (forall x, payload_schema x = Ok x -> json_ok 0 (payload_json x) = true ->
    json_safe (sort_json (payload_json x)) = true) as Hx.
  { intros x Sx Hx. rewrite sort_json_safe. eapply plain_ok_safe; [by apply payload_json_plain|exact Hx]. }
  apply payload_json_inj, stringify_inj; [by apply Hx..|].
  symmetry. apply utf8_encode_inj; [by apply stringify_well_formed, Hx..|done].
Qed.

(** ** Evidence checked by value

    The recovery checkpoint and the export attestation insist on Ed25519 key
    objects and on canonical signature text. *)

Definition signed_schema (value : Signed A) : result (Signed A) :=
  p ← payload_schema (payload value);
  if signature_text (signatureBase64Url value)
  then Ok (MkSigned p (signatureBase64Url value)) else Throw (ZodError "Signed").

Definition sign_evidence (message : string) (raw : A) (key : PrivateKey) : result (Signed A) :=
  throw_if (negb (is_ed25519_private key)) (JsError message []) ≫= fun _ => sign_payload raw key.

(** Every exception means [false]. *)
Definition verify_evidence (value : Signed A) (key : PublicKey) : bool :=
  catch (
    if negb (is_ed25519_public key) then Ok false else
    signed ← signed_schema value;
    let signature := b64url_decode (signatureBase64Url signed) in
    if negb (bool_decide (b64url_encode signature = signatureBase64Url signed)) then Ok false else
    bytes ← signed_bytes (payload signed);
    verify key bytes signature) false.

Lemma signed_schema_same v w : signed_schema v = Ok w ->
  w = v /\ payload_schema (payload v) = Ok (payload v) /\ signature_text (signatureBase64Url v) = true.
Proof.
  intros (p & Hp & Hw)%bind_ok. pose proof (payload_schema_same _ _ Hp) as ->.
  destruct (signature_text _) eqn:E; [|done]. injection Hw as <-. by destruct v.
Qed.

Lemma evidence_sign_verify message raw key v : sign_evidence message raw key = Ok v ->
  payload v = raw /\ verify_evidence v (public_of key) = true.
Proof.
  unfold sign_evidence. rewrite ok_tt_bind, throw_if_ok. intros [Hk%negb_false_iff Hv].
  apply sign_payload_ok in Hv as (E & Hp & bytes & s & Hb & Hs & Et). split; [done|].
  pose proof (sign_bytes key bytes s Hs) as Hy.
  assert (signature_text (signatureBase64Url v) = true) as Hx.
  { rewrite Et. apply signature_text_encode; [done|]. by eapply sign_length. }
  unfold verify_evidence, signed_schema. rewrite (public_of_ed25519 key Hk), E, Hp, Hx.
  cbn [negb mbind result_bind signatureBase64Url payload]. rewrite Et, b64url_decode_encode by done.
  rewrite bool_decide_eq_true_2 by done. cbn [negb]. rewrite Hb. cbn [mbind result_bind].
  by rewrite (sign_verify key bytes s Hs).
Qed.

(** What a verification establishes. *)
Record evidenced (v : Signed A) (key : PublicKey) : Prop := {
  ev_key : is_ed25519_public key = true;
  ev_schema : payload_schema (payload v) = Ok (payload v);
  ev_text : b64url_encode (b64url_decode (signatureBase64Url v)) = signatureBase64Url v;
  ev_signature : exists bytes, signed_bytes (payload v) = Ok bytes /\
    verify key bytes (b64url_decode (signatureBase64Url v)) = Ok true /\
    forall other, payload_schema other = Ok other ->
      signed_bytes other = Ok bytes -> other = payload v
}.

Lemma verify_evidence_true v key : verify_evidence v key = true -> evidenced v key.
Proof.
  unfold verify_evidence, catch. intros Hv.
  destruct (is_ed25519_public key) eqn:Hk; cbn [negb] in Hv; [|discriminate Hv].
  destruct (signed_schema v) as [w|] eqn:Hw; cbn [mbind result_bind] in Hv; [|discriminate Hv].
  apply signed_schema_same in Hw as (-> & Hp & _).
  case_bool_decide as Ht; cbn [negb] in Hv; [|discriminate Hv].
  destruct (signed_bytes (payload v)) as [bytes|] eqn:Hb; cbn [mbind result_bind] in Hv;
    [|discriminate Hv].
  destruct (verify key bytes _) as [b|] eqn:E; [|discriminate Hv]. subst b.
  split; [done..|]. exists bytes. split_and!; try done.
  intros other So Ho. by eapply signed_bytes_inj.
Qed.
End formats.

(** ** Concrete inputs *)

(** A toy scheme that satisfies the interface: one key, and the digest of a
    message twice as its signature. *)
Definition toy_signatures : Signatures.
Proof.
  refine {| PrivateKey := unit; PublicKey := unit; is_ed25519_private _ := true;
            is_ed25519_public _ := true; public_of k := k; createPublicKey _ := Ok tt;
            createPublicKeyJwk _ := Ok tt;
            sign _ m := Ok (sha256 m ++ sha256 m);
            verify _ m s := Ok (bool_decide (s = sha256 m ++ sha256 m)) |}.
  - intros _ m s [= <-]. by rewrite bool_decide_eq_true_2.
  - intros _ m s [= <-]. rewrite forallb_app. destruct (sha256_spec m) as [_ ->]. done.
  - intros _ m s _ [= <-]. rewrite length_app. by destruct (sha256_spec m) as [-> _].
  - done.
Defined.

Definition sample_id : jsstr := js "01890000-0000-7000-8000-000000000001".
Definition sample_hash : jsstr := replicate 64 97.
