(* ===== verification/Codec.v ===== *)
(** * Payloads carried as canonical JSON text

    The interface between a payload that a cursor carries and the codec that
    signs it: the JSON literal of the payload and its strict schema. What a
    codec needs, that canonical text is read back as the payload it was written
    from and that nothing else is read as it, is proved here once. *)

From stdpp Require Import base numbers sorting strings list.
From Stdlib Require Import Lia.
From S2P Require Import Prelude JsString Encoding JsNumber Json JsonParse JsonCanon Schemas.
From S2P Require Import Decode Signing.

Local Open Scope Z_scope.

(** The literal of a payload, its schema as a test of the record, and the
    schema as a reader of JSON values; the laws say that the reader accepts a
    value exactly when it is the literal of an accepted payload, up to the
    order of the members. *)
Class JsonFormat `{Platform} (A : Type) := {
  to_json : A -> json;
  of_json : json -> option A;
  valid : A -> bool;
  of_json_valid w a : of_json w = Some a -> valid a = true;
  of_json_same w a : distinct_names w -> of_json w = Some a ->
    sort_json w = sort_json (to_json a);
  of_json_sorted a : valid a = true -> of_json (sort_json (to_json a)) = Some a;
  to_json_plain a : valid a = true -> json_plain (to_json a) = true
}.

Section codec.
Context `{P : Platform} {A : Type} `{F : !JsonFormat A}.

Lemma payload_text_ok a s : valid a = true -> canonicalJson (to_json a) = Ok s ->
  s = stringify (sort_json (to_json a)) /\ json_safe (sort_json (to_json a)) = true /\
  json_ok 0 (to_json a) = true /\ has_index_key (sort_json (to_json a)) = false.
Proof.
  intros Hv [Ho ->]%canonicalJson_ok. pose proof (to_json_plain a Hv) as Hp.
  rewrite sort_json_index, sort_json_safe, (plain_index _ Hp).
  split_and!; try done. by eapply plain_ok_safe.
Qed.

Lemma payload_text_inj a b s : valid a = true -> valid b = true ->
  canonicalJson (to_json a) = Ok s -> canonicalJson (to_json b) = Ok s -> a = b.
Proof.
  intros Ha Hb Ea Eb. destruct (payload_text_ok a s Ha Ea) as (-> & Sa & _).
  destruct (payload_text_ok b _ Hb Eb) as (E & Sb & _). apply stringify_inj in E; [|done..].
  apply of_json_sorted in Ha, Hb. rewrite E in Ha. congruence.
Qed.

Context `{!NodeText}.

(** Canonical text is accepted as it is and read back. *)
Lemma payload_read_back a s : valid a = true -> canonicalJson (to_json a) = Ok s ->
  is_well_formed s = true /\
  canonicalJsonFromBytes (utf8_encode s) = Ok s /\ buffer_toString (utf8_encode s) = s /\
  JSON_parse s ≫= of_json = Some a.
Proof.
  intros Hv E. destruct (payload_text_ok a s Hv E) as (-> & Hs & Ho & Hi).
  pose proof (stringify_well_formed _ Hs) as Hw.
  rewrite buffer_toString_encode, JSON_parse_stringify by done. cbn [mbind option_bind].
  rewrite of_json_sorted by done. unfold canonicalJsonFromBytes, decodeUtf8.
  rewrite utf8_decode_encode by done. cbn [mbind result_bind]. split_and!; try done.
  apply canonical_fixed; [by rewrite <- sort_json_safe|done|by rewrite <- sort_json_index].
Qed.

(** Whatever is read from canonical text is what that text was written from. *)
Lemma payload_read raw s a :
  canonicalJsonFromBytes raw = Ok s -> buffer_toString raw = s ->
  JSON_parse s ≫= of_json = Some a ->
  valid a = true /\ canonicalJson (to_json a) = Ok s /\ utf8_encode s = raw.
Proof.
  unfold canonicalJsonFromBytes, decodeUtf8. intros Hc Hb Ha.
  destruct (utf8_decode raw) as [t|] eqn:Ed; [|done]. cbn [mbind result_bind] in Hc.
  rewrite (buffer_toString_decode _ _ Ed) in Hb. subst t.
  apply utf8_encode_decode in Ed as [_ Eraw].
  apply bind_Some in Ha as (w & Hw & Ha). unfold canonicalJsonFromText in Hc. inv_ok.
  match goal with H : strictParse s = Ok ?v |- _ => rename v into v, H into Hp end.
  destruct (JSON_parse_strict _ _ Hp) as (w' & Hw' & Hsort & Hsame).
  rewrite Hw in Hw'. injection Hw' as <-. pose proof (of_json_valid w a Ha) as Hva.
  pose proof (strictParse_good s) as Hg. rewrite Hp in Hg. apply parsed_distinct in Hg.
  pose proof (of_json_same _ _ (sorted_distinct _ _ Hsort Hg) Ha) as Hj. rewrite Hsort in Hj.
  apply canonicalJson_ok in Hc as [Ho Hc]. pose proof (plain_index _ (to_json_plain a Hva)) as Hi.
  rewrite <- sort_json_index, <- Hj, sort_json_index in Hi. rewrite Hi in Hc.
  split_and!; try done. apply canonicalJson_ok.
  rewrite <- (sort_json_ok 0 (to_json a)), <- (sort_json_index (to_json a)), <- Hj.
  by rewrite sort_json_ok, sort_json_index, Hi.
Qed.
End codec.

(** ** Two base64url parts joined by a point *)

Lemma b64url_no_point l : forallb is_byte l = true ->
  forallb (fun x => negb (x =? 46)) (b64url_encode l) = true.
Proof.
  intros Hl. destruct (b64url_encode_shape l Hl) as [Hc _].
  rewrite forallb_forall in *. intros c Hin. specialize (Hc c Hin).
  by destruct (Z.eqb_spec c 46) as [->|].
Qed.

Lemma split_point a b : forallb is_byte a = true -> forallb is_byte b = true ->
  split_on 46 (b64url_encode a ++ 46 :: b64url_encode b) = [b64url_encode a; b64url_encode b].
Proof. intros Ha Hb. rewrite split_on_app, split_on_plain by by apply b64url_no_point. done. Qed.

Lemma split_point_inv s a b : split_on 46 s = [a; b] -> s = a ++ 46 :: b.
Proof. intros E. by rewrite <- (join_split 46 s), E. Qed.

Lemma b64url_encode_nil l : b64url_encode l = [] -> l = [].
Proof. destruct l as [|a [|b [|c l]]]; done. Qed.

Lemma utf8_encode_nil s : is_well_formed s = true -> utf8_encode s = [] -> s = [].
Proof. intros Hw E. by apply (utf8_encode_inj s []). Qed.

(** Reading a literal: the names of a strict object are those of the literal. *)
Lemma strict_index keys l : forallb (fun k => negb (is_index_key (js k))) keys = true ->
  strict keys l = true -> existsb (fun '(k, x) => is_index_key k) l = false.
Proof.
  intros Hk Hs. apply not_true_is_false. rewrite existsb_exists. intros ([k x] & Hin & Hi).
  apply list_elem_of_In, (strict_names _ _ Hs) in Hin. cbn [fst] in Hin.
  apply list_elem_of_In, in_map_iff in Hin as (key & <- & Hin).
  rewrite forallb_forall in Hk. specialize (Hk _ Hin). by rewrite Hi in Hk.
Qed.
