(* ===== verification/KeyLifecycle.v ===== *)
(** * Key lifecycle evidence

    lib/audit/src/key-lifecycle-event.ts: the evidence an operator records when a
    signing or encryption key is replaced, retired or marked compromised. The
    schema reads a JSON value with the decoders of Decode.v. *)

From stdpp Require Import base numbers sorting strings list.
From Stdlib Require Import Lia.
From S2P Require Import Prelude JsString Encoding JsNumber Json JsonParse JsonCanon Schemas.
From S2P Require Import Decode VotingConsent.

Local Open Scope Z_scope.

(** The datetime schema [z.iso.datetime({ precision: 6 })] of the schema
    library; the texts it accepts are ASCII. *)
Class IsoTime := {
  iso_datetime_6 : jsstr -> bool;
  iso_datetime_6_ascii s : iso_datetime_6 s = true -> is_ascii s = true
}.

(** ** Data *)

Inductive KeyPurpose := oauth_signing | evidence_signing | browser_session | data_kek | backup_kek.
Inductive KeyOperation := replace_key | retire_key | mark_compromised.
Inductive KeyAlgorithm := ES256 | EdDSA | HMAC_SHA256 | A256GCM.

#[export] Instance KeyPurpose_eq : EqDecision KeyPurpose.
Proof. solve_decision. Defined.
#[export] Instance KeyOperation_eq : EqDecision KeyOperation.
Proof. solve_decision. Defined.
#[export] Instance KeyAlgorithm_eq : EqDecision KeyAlgorithm.
Proof. solve_decision. Defined.

Definition KeyLifecyclePurposeSchema : json -> option KeyPurpose := dEnum
  [("oauth_signing", oauth_signing); ("evidence_signing", evidence_signing);
   ("browser_session", browser_session); ("data_kek", data_kek); ("backup_kek", backup_kek)].
Definition KeyLifecycleOperationSchema : json -> option KeyOperation := dEnum
  [("replace", replace_key); ("retire", retire_key); ("mark_compromised", mark_compromised)].
Definition algorithm_table : list (string * KeyAlgorithm) :=
  [("ES256", ES256); ("EdDSA", EdDSA); ("HMAC-SHA256", HMAC_SHA256); ("A256GCM", A256GCM)].
Definition algorithm_text (a : KeyAlgorithm) : jsstr :=
  match a with
  | ES256 => js "ES256" | EdDSA => js "EdDSA" | HMAC_SHA256 => js "HMAC-SHA256" | A256GCM => js "A256GCM"
  end.

Record KeyLifecycleState := MkState {
  keyId : jsstr;
  kid : jsstr;
  algorithm : KeyAlgorithm;
  publicMaterialSha256 : option jsstr;
  activatedAt : jsstr;
  retiredAt : option jsstr;
  compromisedAt : option jsstr
}.

#[export] Instance KeyLifecycleState_eq : EqDecision KeyLifecycleState.
Proof. solve_decision. Defined.

Record KeyEffects := MkEffects {
  revokedSessions : jsstr;
  revokedRefreshFamilies : jsstr;
  cancelledStages : jsstr;
  affectedTotp : jsstr;
  disabledWebhooks : jsstr;
  rewrappedWebhooks : jsstr
}.

Record KeyLifecycleChanged := MkChanged {
  operationId : jsstr;
  requestSha256 : jsstr;
  instanceId : jsstr;
  organizationId : jsstr;
  purpose : KeyPurpose;
  operation : KeyOperation;
  before : KeyLifecycleState;
  after : KeyLifecycleState;
  replacement : option KeyLifecycleState;
  recordedAt : jsstr;
  declaredCompromisedAt : option jsstr;
  dependencyStateSha256 : jsstr;
  retainedMaterialSha256 : jsstr;
  operatorReference : jsstr;
  change_reason : jsstr;
  effects : KeyEffects
}.

(** ** Schemas *)

(** [/^[A-Za-z0-9._-]{1,128}$/u] *)
Definition Kid (s : jsstr) : bool :=
  class_len (fun c => is_lower c || is_upper c || is_digit c || (c =? 46) || (c =? 95) || (c =? 45)) 1 128 s.

(** [/^(?:0|[1-9][0-9]{0,6})$/u], at most one million. *)
Definition Count (s : jsstr) : bool :=
  is_nat_dec s && (js_length s <=? 7) && (undec s <=? 1000000).

Section schemas.
Context `{Platform} `{IsoTime}.

Definition Time (s : jsstr) : bool := iso_datetime_6 s.

(** [text(max)]; [Array.from(v)] splits into code points. *)
Definition evidence_text (max : Z) (s : jsstr) : bool :=
  in_range 1 max (js_length s) && is_well_formed s && bool_decide (s = nfc s)
  && bool_decide (trim s = s)
  && forallb (fun point => (32 <=? point) && ((point <? 127) || (159 <? point))) (code_points s).

(** [t !== null && t.localeCompare(limit) < 0] *)
Definition earlier_than (t : option jsstr) (limit : jsstr) : bool :=
  match t with Some t => localeCompare t limit <? 0 | None => false end.

Definition state_times_ok (s : KeyLifecycleState) : bool :=
  negb (earlier_than (retiredAt s) (activatedAt s) || earlier_than (compromisedAt s) (activatedAt s)).

Definition KeyLifecycleStateSchema (v : json) : option KeyLifecycleState :=
  l ← members v;
  if negb (strict ["keyId"; "kid"; "algorithm"; "publicMaterialSha256"; "activatedAt"; "retiredAt";
                   "compromisedAt"] l) then None else
  keyId ← required l "keyId" (dString is_uuid_v7);
  kid ← required l "kid" (dString Kid);
  algorithm ← required l "algorithm" (dEnum algorithm_table);
  publicMaterialSha256 ← required l "publicMaterialSha256" (dNullable (dString is_hex64));
  activatedAt ← required l "activatedAt" (dString Time);
  retiredAt ← required l "retiredAt" (dNullable (dString Time));
  compromisedAt ← required l "compromisedAt" (dNullable (dString Time));
  let s := MkState keyId kid algorithm publicMaterialSha256 activatedAt retiredAt compromisedAt in
  if state_times_ok s then Some s else None.

Definition effects_schema (v : json) : option KeyEffects :=
  l ← members v;
  if negb (strict ["revokedSessions"; "revokedRefreshFamilies"; "cancelledStages"; "affectedTotp";
                   "disabledWebhooks"; "rewrappedWebhooks"] l) then None else
  revokedSessions ← required l "revokedSessions" (dString Count);
  revokedRefreshFamilies ← required l "revokedRefreshFamilies" (dString Count);
  cancelledStages ← required l "cancelledStages" (dString Count);
  affectedTotp ← required l "affectedTotp" (dString Count);
  disabledWebhooks ← required l "disabledWebhooks" (dString Count);
  rewrappedWebhooks ← required l "rewrappedWebhooks" (dString Count);
  Some (MkEffects revokedSessions revokedRefreshFamilies cancelledStages affectedTotp
          disabledWebhooks rewrappedWebhooks).

Definition state_json (s : KeyLifecycleState) : json :=
  JObj [str "keyId" (keyId s); str "kid" (kid s); str "algorithm" (algorithm_text (algorithm s));
        nullable "publicMaterialSha256" (publicMaterialSha256 s); str "activatedAt" (activatedAt s);
        nullable "retiredAt" (retiredAt s); nullable "compromisedAt" (compromisedAt s)].

Definition purpose_algorithm (p : KeyPurpose) : KeyAlgorithm :=
  match p with
  | oauth_signing => ES256 | evidence_signing => EdDSA | browser_session => HMAC_SHA256
  | data_kek | backup_kek => A256GCM
  end.

Definition publicMaterial (p : KeyPurpose) : bool :=
  match p with oauth_signing | evidence_signing => true | _ => false end.

(** [t !== null && t.localeCompare(limit) > 0] *)
Definition later_than (t : option jsstr) (limit : jsstr) : bool :=
  match t with Some t => 0 <? localeCompare t limit | None => false end.

(** The first loop: every state in the evidence. *)
Definition state_invalid (e : KeyLifecycleChanged) (s : KeyLifecycleState) : bool :=
  bool_decide (algorithm s <> purpose_algorithm (purpose e))
  || bool_decide (publicMaterial (purpose e) <> is_some (publicMaterialSha256 s))
  || later_than (retiredAt s) (recordedAt e) || later_than (compromisedAt s) (recordedAt e).

Definition evidence_states (e : KeyLifecycleChanged) : list KeyLifecycleState :=
  [before e; after e] ++ match replacement e with Some r => [r] | None => [] end.

(** The checks of the operation. *)
Definition operation_invalid (e : KeyLifecycleChanged) : bool :=
  match operation e with
  | replace_key =>
      is_some (declaredCompromisedAt e)
      || match replacement e with
         | None => true
         | Some next =>
             bool_decide (keyId next = keyId (before e)) || bool_decide (kid next = kid (before e))
             || bool_decide (activatedAt next <> recordedAt e)
             || is_some (retiredAt next) || is_some (compromisedAt next)
             || (publicMaterial (purpose e)
                 && bool_decide (publicMaterialSha256 next = publicMaterialSha256 (before e)))
         end
  | retire_key =>
      is_some (retiredAt (before e)) || is_some (declaredCompromisedAt e) || is_some (replacement e)
  | mark_compromised =>
      is_some (replacement e)
      || match declaredCompromisedAt e with
         | None => true
         | Some declared =>
             match compromisedAt (before e) with
             | Some c => localeCompare c declared <=? 0
             | None => false
             end
         end
  end.

(** The state after the operation. *)
Definition expected (e : KeyLifecycleChanged) : KeyLifecycleState :=
  let b := before e in
  match operation e with
  | replace_key | retire_key =>
      MkState (keyId b) (kid b) (algorithm b) (publicMaterialSha256 b) (activatedAt b)
        (Some (default (recordedAt e) (retiredAt b))) (compromisedAt b)
  | mark_compromised =>
      MkState (keyId b) (kid b) (algorithm b) (publicMaterialSha256 b) (activatedAt b)
        (retiredAt b) (declaredCompromisedAt e)
  end.

Definition zero_count (s : jsstr) : bool := bool_decide (s = js "0").

Definition effects_invalid (e : KeyLifecycleChanged) : bool :=
  (bool_decide (purpose e <> data_kek)
   && (negb (zero_count (affectedTotp (effects e))) || negb (zero_count (disabledWebhooks (effects e)))
       || negb (zero_count (rewrappedWebhooks (effects e)))))
  || (bool_decide (operation e <> replace_key) && negb (zero_count (rewrappedWebhooks (effects e)))).

(** The refinement of the whole event: whether an issue is added. *)
Definition event_invalid (e : KeyLifecycleChanged) : result bool :=
  a ← canonicalJson (state_json (after e));
  x ← canonicalJson (state_json (expected e));
  Ok (existsb (state_invalid e) (evidence_states e) || operation_invalid e
      || bool_decide (a <> x) || effects_invalid e).

Definition decode_changed (v : json) : option KeyLifecycleChanged :=
  l ← members v;
  if negb (strict ["schemaVersion"; "operationId"; "requestSha256"; "instanceId"; "organizationId";
                   "purpose"; "operation"; "before"; "after"; "replacement"; "recordedAt";
                   "declaredCompromisedAt"; "dependencyStateSha256"; "retainedMaterialSha256";
                   "operatorReference"; "reason"; "effects"] l) then None else
  _ ← required l "schemaVersion" (dLiteral "boardagent.key-lifecycle-changed.v1");
  operationId ← required l "operationId" (dString is_uuid_v7);
  requestSha256 ← required l "requestSha256" (dString is_hex64);
  instanceId ← required l "instanceId" (dString is_uuid_v7);
  organizationId ← required l "organizationId" (dString is_uuid_v7);
  purpose ← required l "purpose" KeyLifecyclePurposeSchema;
  operation ← required l "operation" KeyLifecycleOperationSchema;
  before ← required l "before" KeyLifecycleStateSchema;
  after ← required l "after" KeyLifecycleStateSchema;
  replacement ← required l "replacement" (dNullable KeyLifecycleStateSchema);
  recordedAt ← required l "recordedAt" (dString Time);
  declaredCompromisedAt ← required l "declaredCompromisedAt" (dNullable (dString Time));
  dependencyStateSha256 ← required l "dependencyStateSha256" (dString is_hex64);
  retainedMaterialSha256 ← required l "retainedMaterialSha256" (dString is_hex64);
  operatorReference ← required l "operatorReference" (dString (evidence_text 512));
  reason ← required l "reason" (dString (evidence_text 4096));
  effects ← required l "effects" effects_schema;
  Some (MkChanged operationId requestSha256 instanceId organizationId purpose operation before after
          replacement recordedAt declaredCompromisedAt dependencyStateSha256 retainedMaterialSha256
          operatorReference reason effects).

(** [KeyLifecycleChangedSchema.safeParse(v)]: [None] when it reports issues; an
    exception of the refinement would pass through. *)
Definition KeyLifecycleChangedSchema (v : json) : result (option KeyLifecycleChanged) :=
  match decode_changed v with
  | None => Ok None
  | Some e => invalid ← event_invalid e; Ok (if invalid : bool then None else Some e)
  end.

(** ** The identity of public material *)

Inductive PublicKey :=
  | EcKey (x y : jsstr)
  | OkpKey (x : jsstr).

Definition public_material_json (key : PublicKey) : json :=
  match key with
  | EcKey x y => JObj [str "kty" (js "EC"); str "crv" (js "P-256"); str "x" x; str "y" y]
  | OkpKey x => JObj [str "kty" (js "OKP"); str "crv" (js "Ed25519"); str "x" x]
  end.

Definition keyLifecyclePublicMaterialSha256 (key : PublicKey) : result jsstr :=
  canonicalSha256 (public_material_json key).
End schemas.

(** ** Lemmas *)

Section lemmas.
Context `{Platform} `{IsoTime}.

Definition ascii_opt (o : option jsstr) : bool := opt_all is_ascii o.

(** The strings of a decoded state are ASCII. *)
Definition ascii_state (s : KeyLifecycleState) : bool :=
  is_ascii (keyId s) && is_ascii (kid s) && is_ascii (activatedAt s)
  && ascii_opt (publicMaterialSha256 s) && ascii_opt (retiredAt s) && ascii_opt (compromisedAt s).

Lemma Kid_ascii s : Kid s = true -> is_ascii s = true.
Proof.
  unfold Kid, class_len, is_ascii. intros [_ Hk]%andb_true_iff. rewrite forallb_forall in *.
  intros c Hc. specialize (Hk c Hc). unfold is_lower, is_upper, is_digit in Hk.
  rewrite !orb_true_iff, !in_range_spec, !Z.eqb_eq in Hk. apply in_range_spec. lia.
Qed.

Lemma dNullable_ascii p v o :
  (forall s, p s = true -> is_ascii s = true) -> dNullable (dString p) v = Some o -> ascii_opt o = true.
Proof.
  intros Hp [->|(a & -> & [_ Ha]%dString_some)]%dNullable_some; [done|]. by apply Hp.
Qed.

Lemma state_schema_inv v s : KeyLifecycleStateSchema v = Some s ->
  ascii_state s = true /\ state_times_ok s = true.
Proof.
  unfold KeyLifecycleStateSchema. intros Hs. inv_decode. split; [|done].
  unfold ascii_state. cbn [keyId kid activatedAt publicMaterialSha256 retiredAt compromisedAt].
  rewrite !andb_true_iff.
  split_and!; [by apply uuid_ascii|by apply Kid_ascii|by apply iso_datetime_6_ascii| | |].
  - eapply dNullable_ascii; [|eassumption]. apply hex64_ascii.
  - eapply dNullable_ascii; [|eassumption]. apply iso_datetime_6_ascii.
  - eapply dNullable_ascii; [|eassumption]. apply iso_datetime_6_ascii.
Qed.

Lemma state_json_ok s : ascii_state s = true -> json_ok 0 (state_json s) = true.
Proof.
  unfold ascii_state, ascii_opt. intros. boolify. unfold state_json. cbn [json_ok forallb].
  assert (forall key o, is_ascii (js key) = true -> opt_all is_ascii o = true ->
    (let '(k, x) := nullable key o in unicode_ok k && json_ok 1 x) = true) as Hn.
  { intros key o Hk Ho. cbn. rewrite ascii_unicode_ok by done.
    destruct o; [by apply ascii_unicode_ok|done]. }
  assert (forall key t, is_ascii (js key) = true -> is_ascii t = true ->
    (let '(k, x) := str key t in unicode_ok k && json_ok 1 x) = true) as Hstr.
  { intros key t Hk Ht. cbn. by rewrite !ascii_unicode_ok. }
  rewrite !Hstr, !Hn by (try done; by destruct (algorithm s)). done.
Qed.

Lemma state_json_inj a b : sort_json (state_json a) = sort_json (state_json b) -> a = b.
Proof.
  intros E. unfold state_json in E. same_members E.
  assert (forall a b, algorithm_text a = algorithm_text b -> a = b) as Ha
    by (intros [] [] F; try reflexivity; vm_compute in F; discriminate F).
  repeat match goal with
  | F : sort_json (jopt JStr _) = _ |- _ => apply jopt_str_inj in F
  | F : algorithm_text _ = _ |- _ => apply Ha in F
  end.
  destruct a, b; cbn in *. by subst.
Qed.

Lemma state_json_plain s : json_plain (state_json s) = true.
Proof.
  unfold state_json. cbn -[js is_index_key]. rewrite !nullable_plain. vm_compute. reflexivity.
Qed.

(** Comparing the canonical texts of two decoded states compares the states. *)
Lemma canonical_state a b : ascii_state a = true -> ascii_state b = true ->
  exists x y, canonicalJson (state_json a) = Ok x /\ canonicalJson (state_json b) = Ok y /\
    (x = y <-> a = b).
Proof.
  intros Ha Hb. pose proof (state_json_ok a Ha) as Oa. pose proof (state_json_ok b Hb) as Ob.
  exists (stringify (sort_json (state_json a))), (stringify (sort_json (state_json b))).
  split_and!.
  - apply canonicalJson_ok. split; [done|]. by rewrite plain_index by apply state_json_plain.
  - apply canonicalJson_ok. split; [done|]. by rewrite plain_index by apply state_json_plain.
  - split; [|by intros ->]. intros E. apply state_json_inj.
    apply stringify_inj in E; [done|rewrite sort_json_safe..];
      eapply plain_ok_safe; eauto using state_json_plain.
Qed.

Lemma decode_states v e : decode_changed v = Some e ->
  ascii_state (before e) = true /\ ascii_state (after e) = true /\
  is_ascii (recordedAt e) = true /\ ascii_opt (declaredCompromisedAt e) = true /\
  state_times_ok (after e) = true.
Proof.
  unfold decode_changed. intros Hd. inv_decode.
  cbn [before after recordedAt declaredCompromisedAt].
  repeat match goal with
  | Hs : KeyLifecycleStateSchema _ = Some _ |- _ => apply state_schema_inv in Hs as [? ?]
  end.
  split_and!; try done; [by apply iso_datetime_6_ascii|].
  eapply dNullable_ascii; [|eassumption]. apply iso_datetime_6_ascii.
Qed.

Lemma expected_ascii e : ascii_state (before e) = true -> is_ascii (recordedAt e) = true ->
  ascii_opt (declaredCompromisedAt e) = true -> ascii_state (expected e) = true.
Proof.
  unfold ascii_state, ascii_opt. intros Hb Hr Hd. boolify. unfold expected.
  destruct (operation e); cbn [keyId kid activatedAt publicMaterialSha256 retiredAt compromisedAt];
    rewrite !andb_true_iff; split_and!; try done; cbn [opt_all];
    destruct (retiredAt (before e)); done.
Qed.

Lemma event_invalid_spec v e : decode_changed v = Some e ->
  event_invalid e = Ok (existsb (state_invalid e) (evidence_states e) || operation_invalid e
      || bool_decide (after e <> expected e) || effects_invalid e).
Proof.
  intros (Hb & Ha & Hr & Hd & _)%decode_states. unfold event_invalid.
  destruct (canonical_state (after e) (expected e) Ha (expected_ascii e Hb Hr Hd))
    as (x & y & -> & -> & Hxy). cbn [mbind result_bind].
  do 2 f_equal. do 2 f_equal. apply bool_decide_ext. by rewrite Hxy.
Qed.
End lemmas.

(** ** Properties *)

Section properties.
Context `{Platform} `{IsoTime}.

(** [t] is not after [limit]. *)
Definition not_after (t limit : jsstr) : Prop := localeCompare t limit <= 0.

(** What the evidence says about the key it is about. *)
Record key_history (e : KeyLifecycleChanged) : Prop := {
  kh_identity :
    (keyId (after e), kid (after e), publicMaterialSha256 (after e), activatedAt (after e))
    = (keyId (before e), kid (before e), publicMaterialSha256 (before e), activatedAt (before e));
  kh_algorithm : algorithm (before e) = purpose_algorithm (purpose e) /\
    algorithm (after e) = purpose_algorithm (purpose e);
  kh_retired : forall t, retiredAt (before e) = Some t -> retiredAt (after e) = Some t;
  kh_compromised : forall c, compromisedAt (before e) = Some c ->
    exists c', compromisedAt (after e) = Some c' /\ not_after c' c;
  kh_bounds : forall t, retiredAt (after e) = Some t \/ compromisedAt (after e) = Some t ->
    not_after (activatedAt (after e)) t /\ not_after t (recordedAt e);
  kh_change : after e <> before e \/ operation e = replace_key
}.

(** What it says about the key that takes over. *)
Definition takes_over (e : KeyLifecycleChanged) (next : KeyLifecycleState) : Prop :=
  keyId next <> keyId (before e) /\ kid next <> kid (before e) /\
  algorithm next = purpose_algorithm (purpose e) /\
  activatedAt next = recordedAt e /\ retiredAt next = None /\ compromisedAt next = None /\
  (is_Some (publicMaterialSha256 next) <->
    purpose e = oauth_signing \/ purpose e = evidence_signing) /\
  (purpose e = oauth_signing \/ purpose e = evidence_signing ->
    publicMaterialSha256 next <> publicMaterialSha256 (before e)).

Lemma schema_spec v : KeyLifecycleChangedSchema v = Ok (
  e ← decode_changed v;
  if existsb (state_invalid e) (evidence_states e) || operation_invalid e
     || bool_decide (after e <> expected e) || effects_invalid e then None else Some e).
Proof.
  unfold KeyLifecycleChangedSchema. destruct (decode_changed v) as [e|] eqn:E; [|done].
  cbn [mbind option_bind]. by rewrite (event_invalid_spec v e E).
Qed.

Lemma accepted_inv v e : KeyLifecycleChangedSchema v = Ok (Some e) ->
  decode_changed v = Some e /\ existsb (state_invalid e) (evidence_states e) = false /\
  operation_invalid e = false /\ after e = expected e /\ effects_invalid e = false.
Proof.
  rewrite schema_spec. intros E.
  assert (exists x, decode_changed v = Some x) as [x Hx].
  { destruct (decode_changed v) as [x|]; [by exists x|discriminate E]. }
  rewrite Hx in *. cbn [mbind option_bind] in E.
  destruct (existsb (state_invalid x) (evidence_states x)) eqn:E1; [discriminate E|].
  destruct (operation_invalid x) eqn:E2; [discriminate E|].
  destruct (bool_decide (after x <> expected x)) eqn:E3; [discriminate E|].
  destruct (effects_invalid x) eqn:E4; [discriminate E|].
  injection E as ->. split_and!; try done.
  apply bool_decide_eq_false in E3. by apply dec_stable.
Qed.

Lemma later_than_false t limit : later_than (Some t) limit = false -> not_after t limit.
Proof. unfold later_than, not_after. intros ?%Z.ltb_ge. done. Qed.

Lemma earlier_than_false t limit : earlier_than (Some t) limit = false -> not_after limit t.
Proof.
  unfold earlier_than, not_after, localeCompare. rewrite (cmp_units_swap t limit).
  intros ?%Z.ltb_ge. lia.
Qed.

Lemma state_valid e s : state_invalid e s = false ->
  algorithm s = purpose_algorithm (purpose e) /\
  publicMaterial (purpose e) = is_some (publicMaterialSha256 s) /\
  later_than (retiredAt s) (recordedAt e) = false /\
  later_than (compromisedAt s) (recordedAt e) = false.
Proof.
  unfold state_invalid. intros Hs. apply orb_false_iff in Hs as [Hs H4].
  apply orb_false_iff in Hs as [Hs H3]. apply orb_false_iff in Hs as [H1 H2].
  apply bool_decide_eq_false, dec_stable in H1, H2. done.
Qed.

Lemma evidence_valid e s :
  existsb (state_invalid e) (evidence_states e) = false -> s ∈ evidence_states e ->
  state_invalid e s = false.
Proof.
  intros He Hs%list_elem_of_In. destruct (state_invalid e s) eqn:E; [|done].
  rewrite (proj2 (existsb_exists _ _)) in He; [done|by exists s].
Qed.

Lemma publicMaterial_spec p :
  publicMaterial p = true <-> p = oauth_signing \/ p = evidence_signing.
Proof. destruct p; cbn; naive_solver. Qed.

Lemma state_bounds e s t : state_times_ok s = true -> state_invalid e s = false ->
  retiredAt s = Some t \/ compromisedAt s = Some t ->
  not_after (activatedAt s) t /\ not_after t (recordedAt e).
Proof.
  intros [Hr Hc]%negb_true_iff%orb_false_iff (_ & _ & Lr & Lc)%state_valid [E|E];
    rewrite E in *; split; auto using earlier_than_false, later_than_false.
Qed.

Lemma after_expected e : after e = expected e -> operation_invalid e = false ->
  (forall t, retiredAt (before e) = Some t -> retiredAt (after e) = Some t) /\
  (forall c, compromisedAt (before e) = Some c ->
    exists c', compromisedAt (after e) = Some c' /\ not_after c' c) /\
  (after e <> before e \/ operation e = replace_key).
Proof.
  intros Ea Ho. rewrite Ea. unfold operation_invalid in Ho. unfold expected.
  destruct (operation e); cbn [retiredAt compromisedAt].
  - split_and!; [by intros t ->| |by right]. intros c Hc. exists c. split; [done|].
    unfold not_after, localeCompare. by rewrite cmp_units_refl.
  - apply orb_false_iff in Ho as [Ho _]. apply orb_false_iff in Ho as [Ho _].
    destruct (retiredAt (before e)) eqn:Er; [discriminate Ho|]. split_and!; [done| |].
    + intros c Hc. exists c. split; [done|].
      unfold not_after, localeCompare. by rewrite cmp_units_refl.
    + left. intros F. apply (f_equal retiredAt) in F. cbn in F. by rewrite Er in F.
  - apply orb_false_iff in Ho as [_ Ho].
    destruct (declaredCompromisedAt e) as [d|]; [|discriminate Ho]. split_and!.
    + done.
    + intros c Hc. rewrite Hc in Ho. exists d. split; [done|].
      apply Z.leb_gt in Ho. unfold not_after, localeCompare in *. rewrite (cmp_units_swap c d). lia.
    + left. intros F. apply (f_equal compromisedAt) in F. cbn in F. rewrite <- F in Ho.
      unfold localeCompare in Ho. rewrite cmp_units_refl in Ho. discriminate Ho.
Qed.

Lemma replacement_valid e next : operation_invalid e = false -> operation e = replace_key ->
  replacement e = Some next -> state_invalid e next = false -> takes_over e next.
Proof.
  unfold operation_invalid. intros Ho Hop Hn (Ha & Hp & _)%state_valid. rewrite Hop, Hn in Ho.
  apply orb_false_iff in Ho as [_ Ho].
  repeat match goal with F : _ || _ = false |- _ => apply orb_false_iff in F as [F ?] end.
  unfold takes_over. rewrite <- !publicMaterial_spec.
  repeat match goal with
  | F : bool_decide (_ <> _) = false |- _ => apply bool_decide_eq_false, dec_stable in F
  | F : bool_decide _ = false |- _ => apply bool_decide_eq_false in F
  | F : is_some ?o = false |- _ => destruct o eqn:?; [discriminate F|clear F]
  end.
  split_and!; try done.
  - rewrite Hp. destruct (publicMaterialSha256 next); cbn; split; try done; by intros [].
  - intros Hm. rewrite Hm in *. cbn [andb] in *. boolify. done.
Qed.

(** Accepted key lifecycle evidence tells one key's history: the key's
    identifier, label, public material and activation time are the same before
    and after, its algorithm is the one of its purpose, a retirement is never
    undone or moved, a compromise time only moves to the past, every time in
    the resulting state lies between activation and the recording, and the
    state does change unless the key is replaced. *)
Theorem accepted_key_history v e :
  KeyLifecycleChangedSchema v = Ok (Some e) -> key_history e.
Proof.
  intros (Hd & Hs & Ho & Ha & _)%accepted_inv.
  apply decode_states in Hd as (_ & _ & _ & _ & Ht).
  pose proof (evidence_valid e (before e) Hs ltac:(left)) as Vb.
  pose proof (evidence_valid e (after e) Hs ltac:(right; left)) as Va.
  destruct (after_expected e Ha Ho) as (Hr & Hc & Hx). split.
  - rewrite Ha. unfold expected. by destruct (operation e).
  - apply state_valid in Va as [Va _], Vb as [Vb _]. done.
  - done.
  - done.
  - intros t. by apply state_bounds.
  - done.
Qed.

(** Replacing a key names the key that takes over: an accepted replacement
    carries exactly one new, active key of the same purpose, with another
    identifier and label, activated when the old key is recorded as retired,
    and with fresh public material when the purpose publishes it; the other
    operations name none. *)
Theorem accepted_replacement v e :
  KeyLifecycleChangedSchema v = Ok (Some e) ->
  (operation e = replace_key ->
     is_Some (retiredAt (after e)) /\ exists next, replacement e = Some next /\ takes_over e next) /\
  (operation e <> replace_key -> replacement e = None /\ rewrappedWebhooks (effects e) = js "0").
Proof.
  intros (Hd & Hs & Ho & Ha & He)%accepted_inv. split; intros E.
  - split.
    { rewrite Ha. unfold expected. rewrite E. by eexists. }
    destruct (replacement e) as [next|] eqn:En.
    + exists next. split; [done|]. apply replacement_valid; try done.
      apply evidence_valid; [done|]. unfold evidence_states. rewrite En. right; right; left.
    + exfalso. unfold operation_invalid in Ho. rewrite E, En, orb_true_r in Ho. done.
  - split.
    + unfold operation_invalid in Ho. destruct (operation e); [done| |].
      * apply orb_false_iff in Ho as [_ Ho]. by destruct (replacement e).
      * apply orb_false_iff in Ho as [Ho _]. by destruct (replacement e).
    + unfold effects_invalid in He. apply orb_false_iff in He as [_ He].
      rewrite bool_decide_eq_true_2 in He by done. cbn [andb] in He.
      apply negb_false_iff in He. by apply bool_decide_eq_true in He.
Qed.
End properties.

(** ** A concrete event *)

Definition plain_time : IsoTime.
Proof.
  refine {| iso_datetime_6 s := is_ascii s && is_rfc3339_utc s |}.
  by intros s [? _]%andb_true_iff.
Defined.

Definition sample_key (id label material at_ : string) (retired : json) : json :=
  JObj [str "keyId" (js id); str "kid" (js label); str "algorithm" (js "EdDSA");
        str "publicMaterialSha256" (js material); str "activatedAt" (js at_);
        (js "retiredAt", retired); (js "compromisedAt", JNull)].
Definition hex_a : string := "aaaaaaaaaaaaaaaaaaaaaaaaaaaaaaaaaaaaaaaaaaaaaaaaaaaaaaaaaaaaaaaa".
Definition hex_b : string := "bbbbbbbbbbbbbbbbbbbbbbbbbbbbbbbbbbbbbbbbbbbbbbbbbbbbbbbbbbbbbbbb".
Definition key_1 : string := "01890000-0000-7000-8000-000000000001".
Definition key_2 : string := "01890000-0000-7000-8000-000000000002".

Definition sample_event : json :=
  let t0 := "2026-01-01T00:00:00.000000Z"%string in
  let t1 := "2026-06-01T00:00:00.000000Z"%string in
  JObj [str "schemaVersion" (js "boardagent.key-lifecycle-changed.v1");
        str "operationId" (js key_1); str "requestSha256" (js hex_a);
        str "instanceId" (js key_1); str "organizationId" (js key_1);
        str "purpose" (js "evidence_signing"); str "operation" (js "replace");
        (js "before", sample_key key_1 "old" hex_a t0 JNull);
        (js "after", sample_key key_1 "old" hex_a t0 (JStr (js t1)));
        (js "replacement", sample_key key_2 "new" hex_b t1 JNull);
        str "recordedAt" (js t1); (js "declaredCompromisedAt", JNull);
        str "dependencyStateSha256" (js hex_a); str "retainedMaterialSha256" (js hex_a);
        str "operatorReference" (js "ticket 1"); str "reason" (js "yearly rotation");
        (js "effects", JObj [str "revokedSessions" (js "0"); str "revokedRefreshFamilies" (js "0");
          str "cancelledStages" (js "0"); str "affectedTotp" (js "0");
          str "disabledWebhooks" (js "0"); str "rewrappedWebhooks" (js "0")])].

Definition sample_changed : KeyLifecycleChanged :=
  let P := plain_platform in let T := plain_time in
  match decode_changed sample_event with
  | Some e => e
  | None => MkChanged [] [] [] [] data_kek retire_key (MkState [] [] A256GCM None [] None None)
      (MkState [] [] A256GCM None [] None None) None [] None [] [] [] [] (MkEffects [] [] [] [] [] [])
  end.

Lemma accepted_key_history_witness : key_history sample_changed.
Proof.
  apply (@accepted_key_history plain_platform plain_time sample_event). vm_compute. reflexivity.
Defined.

Lemma accepted_replacement_witness : replacement sample_changed <> None.
Proof.
  pose proof (@accepted_replacement plain_platform plain_time sample_event sample_changed
    ltac:(vm_compute; reflexivity)) as [Hr _].
  destruct (Hr eq_refl) as (_ & next & E & _). intros F. congruence.
Defined.
