(* ===== verification/EventIds.v ===== *)
(** * Audit event types

    lib/contracts/src/generated/registry.ids.ts: the closed list of audit event
    types, transcribed in order. *)

From stdpp Require Import base list strings.
From S2P Require Import Prelude JsString.

Definition EVENT_IDS : list jsstr := map js [
  "context_read"; "client_registered"; "client_registration_rejected"; "oauth_client_blocked";
  "oauth_client_unblocked"; "token_issued"; "token_refreshed"; "token_reuse_detected";
  "session_revoked"; "enrollment_issued"; "enrollment_redeemed"; "enrollment_revoked";
  "member_activated"; "identity_recovery_started"; "external_identity_linked";
  "external_identity_unlinked"; "member_changed"; "onboarding_stage_created";
  "onboarding_attested"; "onboarding_stale"; "authorization_denied"; "rate_limited";
  "resource_fetch"; "notice_delivered"; "document_version_created"; "document_circulated";
  "document_access_changed"; "document_archived"; "document_soft_deleted"; "recusal_changed";
  "management_submission_created"; "management_revision_requested"; "management_revision_replied";
  "management_submission_version_created"; "management_submission_approved_to_draft";
  "management_submission_rejected"; "management_question_asked"; "management_question_answered";
  "management_question_followed_up"; "secretariat_request_created"; "secretariat_request_replied";
  "secretariat_request_closed"; "board_created"; "board_amended"; "board_archived";
  "governance_profile_activated"; "matter_evaluated"; "ruleset_amended"; "rule_overridden";
  "stage_created"; "stage_replaced"; "elicitation_sent"; "consent_recorded"; "consent_rejected";
  "ballot_cast"; "ballot_superseded"; "proxy_granted"; "proxy_revoked"; "resolution_amended";
  "vote_opened"; "vote_source_update_pending"; "vote_source_excluded"; "vote_closing";
  "vote_closed"; "vote_cancelled"; "vote_superseded"; "vote_replaced"; "revote_required";
  "certificate_issued"; "certificate_corrected"; "meeting_called"; "meeting_amended";
  "meeting_rsvp_recorded"; "meeting_attendance_recorded"; "meeting_attendance_corrected";
  "meeting_completed"; "meeting_cancelled"; "transcript_version_created";
  "transcript_secretary_verified"; "transcript_qna_linked"; "transcript_turn_challenged";
  "transcript_challenge_resolved"; "minutes_version_created"; "minutes_published";
  "minutes_commented"; "minutes_review_withdrawn"; "minutes_redline_proposed";
  "minutes_review_dispositioned"; "minutes_package_corrected"; "minutes_correction_cycle_created";
  "minutes_action_items_declared"; "minutes_action_item_draft_superseded";
  "minutes_action_items_activated"; "minutes_signature_package_issued"; "minutes_signed";
  "minutes_signature_superseded"; "minutes_resign_required"; "minutes_finalized";
  "minutes_cancelled"; "task_created"; "task_started"; "task_evidence_submitted";
  "task_evidence_reviewed"; "task_completed"; "task_correction_cycle_created"; "task_cancelled";
  "proposal_submitted"; "proposal_withdrawn"; "proposal_approved_to_draft"; "proposal_rejected";
  "draft_cancelled"; "draft_expired"; "export_requested"; "export_started"; "export_performed";
  "export_failed"; "export_cancelled"; "export_artifact_deleted"; "webhook_configured";
  "webhook_secret_rotated"; "webhook_disabled"; "webhook_tested"; "webhook_delivery_attempted";
  "audit_checkpoint_signed"; "audit_verification_failed"; "migration_applied"; "backup_completed";
  "restore_verified"; "company_admin_proposed"; "company_admin_proposal_cancelled";
  "company_admin_proposal_declined"; "company_admin_granted"; "company_admin_revoked";
  "company_admin_transferred"; "member_admin_delegation_granted";
  "member_admin_delegation_revoked"; "key_lifecycle_changed"; "secretary_support_published";
  "onboarding_terms_published"; "activation_restart_issued"; "activation_restart_completed"].
