(* ===== verification/AuditEvent.v ===== *)
(** * The audit event chain

    lib/audit/src/event.ts: audit event bodies, their hash over the previous
    hash and the sequence number, appending, and the incremental verifier with
    its two entry points. *)

From stdpp Require Import base numbers sorting strings list.
From Stdlib Require Import Lia.
From S2P Require Import Prelude JsString Encoding JsNumber Json JsonParse JsonCanon Schemas.
From S2P Require Import Decode VotingConsent KeyLifecycle EventIds.

Local Open Scope Z_scope.

Definition AUDIT_DOMAIN : jsstr := js "boardagent.audit.event.v1".
Definition GENESIS_HASH : jsstr := replicate 64 48.

(** ** Bodies *)

Record AuditEventBody := MkBody {
  eventId : jsstr;
  eventType : jsstr;
  actorMemberId : option jsstr;
  actorClientId : option jsstr;
  tokenJti : option jsstr;
  entityType : jsstr;
  entityId : jsstr;
  boardId : option jsstr;
  occurredAt : jsstr;
  origin : jsstr;
  details : list (jsstr * json)
}.

(** [JsonValueSchema]: only numbers can fail. *)
Fixpoint JsonValueSchema (v : json) : bool :=
  match v with
  | JNum n => isFinite n
  | JArr l => forallb JsonValueSchema l
  | JObj l => forallb (fun '(_, x) => JsonValueSchema x) l
  | _ => true
  end.

Definition origins : list jsstr := map js
  ["mcp"; "oauth"; "browser"; "worker"; "scheduler"; "migration"; "restore"; "cli"].

(** [/^[a-z][a-z0-9_]{1,63}$/u] *)
Definition entity_type_ok (s : jsstr) : bool :=
  match s with
  | c :: t => is_lower c && class_len (fun c => is_lower c || is_digit c || (c =? 95)) 1 63 t
  | [] => false
  end.

(** [/^[a-z][A-Za-z0-9_]{0,127}$/u] *)
Definition detail_name_ok (s : jsstr) : bool :=
  match s with
  | c :: t => is_lower c
      && class_len (fun c => is_lower c || is_upper c || is_digit c || (c =? 95)) 0 127 t
  | [] => false
  end.

(** The members of the object schema. *)
Definition body_members_ok (b : AuditEventBody) : bool :=
  is_uuid_v7 (eventId b) && bool_decide (eventType b ∈ EVENT_IDS)
  && opt_all is_uuid_v7 (actorMemberId b) && opt_all is_uuid_v7 (actorClientId b)
  && opt_all is_uuid_v7 (tokenJti b) && entity_type_ok (entityType b)
  && in_range 1 2048 (js_length (entityId b)) && opt_all is_uuid_v7 (boardId b)
  && is_rfc3339_utc (occurredAt b) && bool_decide (origin b ∈ origins)
  && forallb (fun '(name, v) => detail_name_ok name && JsonValueSchema v) (details b).


Section events.
Context `{Platform} `{IsoTime}.

(** The refinement: evidence recorded by an operator has no actor. *)
Definition operator_event_ok (b : AuditEventBody) (evidence : KeyLifecycleChanged) : bool :=
  bool_decide (origin b = js "cli") && is_null (actorMemberId b) && is_null (actorClientId b)
  && is_null (tokenJti b) && is_null (boardId b)
  && bool_decide (entityType b = js "key_lifecycle_operation")
  && bool_decide (entityId b = operationId evidence)
  && bool_decide (occurredAt b = recordedAt evidence).

Definition AuditEventBodySchema (b : AuditEventBody) : result AuditEventBody :=
  if negb (body_members_ok b) then Throw (ZodError "AuditEventBody") else
  if negb (bool_decide (eventType b = js "key_lifecycle_changed")) then Ok b else
  evidence ← KeyLifecycleChangedSchema (JObj (details b));
  match evidence with
  | Some e => if operator_event_ok b e then Ok b else Throw (ZodError "AuditEventBody")
  | None => Throw (ZodError "AuditEventBody")
  end.

(** The types of the members, read from JSON. *)
Definition body_of_json (v : json) : option AuditEventBody :=
  l ← members v;
  if negb (strict ["eventId"; "eventType"; "actorMemberId"; "actorClientId"; "tokenJti"; "entityType";
                   "entityId"; "boardId"; "occurredAt"; "origin"; "details"; "schemaVersion"] l)
  then None else
  eventId ← required l "eventId" dAny;
  eventType ← required l "eventType" dAny;
  actorMemberId ← required l "actorMemberId" (dNullable dAny);
  actorClientId ← required l "actorClientId" (dNullable dAny);
  tokenJti ← required l "tokenJti" (dNullable dAny);
  entityType ← required l "entityType" dAny;
  entityId ← required l "entityId" dAny;
  boardId ← required l "boardId" (dNullable dAny);
  occurredAt ← required l "occurredAt" dAny;
  origin ← required l "origin" dAny;
  details ← required l "details" members;
  _ ← required l "schemaVersion" (dIntLiteral 1);
  Some (MkBody eventId eventType actorMemberId actorClientId tokenJti entityType entityId boardId
          occurredAt origin details).

(** [AuditEventBodySchema.parse(v)] of any JSON value. *)
Definition parse_body (v : json) : result AuditEventBody :=
  match body_of_json v with
  | Some b => AuditEventBodySchema b
  | None => Throw (ZodError "AuditEventBody")
  end.

Definition body_members (b : AuditEventBody) : list (jsstr * json) :=
  [str "eventId" (eventId b); str "eventType" (eventType b);
   nullable "actorMemberId" (actorMemberId b); nullable "actorClientId" (actorClientId b);
   nullable "tokenJti" (tokenJti b); str "entityType" (entityType b); str "entityId" (entityId b);
   nullable "boardId" (boardId b); str "occurredAt" (occurredAt b); str "origin" (origin b);
   (js "details", JObj (details b)); (js "schemaVersion", jint 1)].

Definition body_json (b : AuditEventBody) : json := JObj (body_members b).

(** ** Events and their hash *)

Record AuditEvent := MkEvent {
  event_body : AuditEventBody;
  sequence : Z;
  previousHash : jsstr;
  event_hash : jsstr
}.

(** [HashMaterial] *)
Definition material (sequence : Z) (previousHash : jsstr) (b : AuditEventBody) : json :=
  JObj ([str "domain" AUDIT_DOMAIN; str "sequence" (dec sequence); str "previousHash" previousHash]
        ++ body_members b).

Definition hashValidatedEvent (sequence : Z) (previousHash : jsstr) (validated : AuditEventBody)
    : result jsstr :=
  sha256Hex <$> canonicalJson (material sequence previousHash validated).

Definition eventHash (sequence : Z) (previousHash : jsstr) (body : AuditEventBody) : result jsstr :=
  throw_if (sequence <? 1) (RangeError "audit sequence must be positive" []) ≫= fun _ =>
  Sha256HexSchema previousHash ≫= fun _ =>
  validated ← AuditEventBodySchema body;
  hashValidatedEvent sequence previousHash validated.

Definition appendEvent (previous : option AuditEvent) (body : AuditEventBody) : result AuditEvent :=
  validated ← AuditEventBodySchema body;
  let seq := match previous with Some p => sequence p + 1 | None => 1 end in
  let prev := match previous with Some p => event_hash p | None => GENESIS_HASH end in
  hash ← eventHash seq prev validated;
  Ok (MkEvent validated seq prev hash).

(** ** The verifier *)

Inductive BreakReason :=
  | event_schema_invalid | event_manifest_not_canonical | sequence_gap_or_reorder
  | previous_hash_mismatch | event_hash_mismatch | truncation_or_extension | head_hash_mismatch.

Record Failure := MkFailure { firstBreakSequence : Z; break_reason : BreakReason }.

Inductive ChainVerification :=
  | Valid (count : Z) (headHash : jsstr)
  | Invalid (f : Failure).

(** The fields of [AuditChainVerifier]. *)
Record Verifier := MkVerifier {
  v_previousHash : jsstr;
  v_expectedSequence : Z;
  v_failure : option Failure
}.

Definition new_verifier : Verifier := MkVerifier GENESIS_HASH 1 None.

Definition fail_with (s : Verifier) (f : Failure) : Verifier * option Failure :=
  (MkVerifier (v_previousHash s) (v_expectedSequence s) (Some f), Some f).

Definition addWithHash (s : Verifier) (event : AuditEvent) (recompute : result jsstr)
    : Verifier * option Failure :=
  match v_failure s with
  | Some f => (s, Some f)
  | None =>
      if negb (sequence event =? v_expectedSequence s)
      then fail_with s (MkFailure (v_expectedSequence s) sequence_gap_or_reorder) else
      if negb (safeHashEqual (previousHash event) (v_previousHash s))
      then fail_with s (MkFailure (sequence event) previous_hash_mismatch) else
      match recompute with
      | Throw _ => fail_with s (MkFailure (sequence event) event_schema_invalid)
      | Ok recomputed =>
          if negb (safeHashEqual (event_hash event) recomputed)
          then fail_with s (MkFailure (sequence event) event_hash_mismatch)
          else (MkVerifier (event_hash event) (v_expectedSequence s + 1) None, None)
      end
  end.

Definition add (s : Verifier) (event : AuditEvent) : Verifier * option Failure :=
  addWithHash s event (eventHash (sequence event) (previousHash event) (event_body event)).

Definition matches_expected (expected : option (Z * jsstr)) (count : Z) (head : jsstr)
    : option Failure :=
  match expected with
  | None => None
  | Some (ecount, ehead) =>
      if negb (ecount =? count) then Some (MkFailure (count + 1) truncation_or_extension)
      else if negb (safeHashEqual ehead head) then Some (MkFailure count head_hash_mismatch)
      else None
  end.

Definition finish (s : Verifier) (expected : option (Z * jsstr)) : ChainVerification :=
  match v_failure s with
  | Some f => Invalid f
  | None =>
      let count := v_expectedSequence s - 1 in
      match matches_expected expected count (v_previousHash s) with
      | Some f => Invalid f
      | None => Valid count (v_previousHash s)
      end
  end.

Fixpoint verify_from (s : Verifier) (events : list AuditEvent) (expected : option (Z * jsstr))
    : ChainVerification :=
  match events with
  | [] => finish s expected
  | event :: events' =>
      match add s event with
      | (_, Some failure) => Invalid failure
      | (s', None) => verify_from s' events' expected
      end
  end.

Definition verifyChain (events : list AuditEvent) (expected : option (Z * jsstr)) : ChainVerification :=
  verify_from new_verifier events expected.

(** ** Persisted bytes *)

Record CanonicalInput := MkInput {
  canonicalPayload : list Z;
  in_sequence : Z;
  in_previousHash : jsstr;
  in_eventHash : jsstr
}.

Inductive Decoded :=
  | Event (e : AuditEvent)
  | Rejected (reason : BreakReason).

Definition reject (s : Verifier) (input : CanonicalInput) (reason : BreakReason) : Verifier :=
  MkVerifier (v_previousHash s) (v_expectedSequence s)
    (match v_failure s with
     | Some f => Some f
     | None => Some (MkFailure (in_sequence input) reason)
     end).

Definition decode_payload `{!NodeText} (payload : list Z) : result AuditEventBody :=
  match JSON_parse (buffer_toString payload) with
  | Some v => parse_body v
  | None => Throw (JsError "SyntaxError" [])
  end.

(** The new state comes with the outcome: an exception leaves it updated. *)
Definition addCanonicalEvent `{!NodeText} (s : Verifier) (input : CanonicalInput)
    : Verifier * result Decoded :=
  match decode_payload (canonicalPayload input) with
  | Throw _ => (reject s input event_schema_invalid, Ok (Rejected event_schema_invalid))
  | Ok body =>
      match canonicalJson (body_json body) with
      | Throw e => (reject s input event_manifest_not_canonical, Throw e)
      | Ok text =>
          if negb (bool_decide (canonicalPayload input = utf8_encode text))
          then (reject s input event_manifest_not_canonical, Ok (Rejected event_manifest_not_canonical))
          else
            let event := MkEvent body (in_sequence input) (in_previousHash input) (in_eventHash input) in
            let s' := (addWithHash s event
                         (hashValidatedEvent (sequence event) (previousHash event) body)).1 in
            (s', Ok (Event event))
      end
  end.
End events.

(** ** Chains *)

Section chains.
Context `{Platform} `{IsoTime}.

(** [event] continues a chain of [seq - 1] events whose head hash is [prev]. *)
Definition event_linked (seq : Z) (prev : jsstr) (event : AuditEvent) : Prop :=
  sequence event = seq /\ previousHash event = prev /\
  eventHash seq prev (event_body event) = Ok (event_hash event).

Fixpoint chain (seq : Z) (prev : jsstr) (events : list AuditEvent) : Prop :=
  match events with
  | [] => True
  | event :: events' => event_linked seq prev event /\ chain (seq + 1) (event_hash event) events'
  end.

Fixpoint last_hash (prev : jsstr) (events : list AuditEvent) : jsstr :=
  match events with
  | [] => prev
  | event :: events' => last_hash (event_hash event) events'
  end.

(** Appending one body after another, from the start of a chain. *)
Fixpoint append_all (previous : option AuditEvent) (bodies : list AuditEventBody)
    : result (list AuditEvent) :=
  match bodies with
  | [] => Ok []
  | body :: bodies' =>
      event ← appendEvent previous body;
      events ← append_all (Some event) bodies';
      Ok (event :: events)
  end.

Lemma schema_same b b' : AuditEventBodySchema b = Ok b' -> b' = b.
Proof.
  unfold AuditEventBodySchema. repeat case_match; try done; try (intros [= <-]; done).
  intros (ev & _ & E)%bind_ok. repeat case_match; try done. by injection E as <-.
Qed.

Lemma eventHash_ok seq prev b h : eventHash seq prev b = Ok h <->
  1 <= seq /\ is_hex64 prev = true /\ AuditEventBodySchema b = Ok b /\
  hashValidatedEvent seq prev b = Ok h.
Proof.
  unfold eventHash. rewrite ok_tt_bind, throw_if_ok, Z.ltb_ge. split.
  - intros (Hs & (a & [-> Ha]%parse_ok & (b' & Hb & Hh)%bind_ok)%bind_ok).
    pose proof (schema_same b b' Hb) as ->. done.
  - intros (Hs & Hp & Hb & Hh). split; [done|]. unfold Sha256HexSchema, parse. rewrite Hp.
    cbn [mbind result_bind]. by rewrite Hb.
Qed.

Lemma eventHash_hex64 seq prev b h : eventHash seq prev b = Ok h -> is_hex64 h = true.
Proof.
  intros (_ & _ & _ & Hh)%eventHash_ok. unfold hashValidatedEvent in Hh.
  apply fmap_ok in Hh as (s & _ & ->). apply sha256Hex_hex64.
Qed.

(** [add] accepts exactly the events that continue the chain. *)
Lemma add_cases s e : v_failure s = None ->
  (event_linked (v_expectedSequence s) (v_previousHash s) e /\
   add s e = (MkVerifier (event_hash e) (v_expectedSequence s + 1) None, None)) \/
  (~ event_linked (v_expectedSequence s) (v_previousHash s) e /\
   exists r, add s e = fail_with s (MkFailure (v_expectedSequence s) r)).
Proof.
  intros Hf. unfold add, addWithHash. rewrite Hf. unfold event_linked.
  destruct (Z.eqb_spec (sequence e) (v_expectedSequence s)) as [Es|Es]; cbn [negb];
    [|right; split; [naive_solver|by eexists]].
  destruct (safeHashEqual (previousHash e) (v_previousHash s)) eqn:Ep; cbn [negb].
  - apply safeHashEqual_true in Ep as [_ Ep]. rewrite <- Ep, <- Es.
    destruct (eventHash _ _ _) as [h|x] eqn:Eh;
      [|right; split; [naive_solver|by eexists]].
    destruct (safeHashEqual (event_hash e) h) eqn:Ee; cbn [negb].
    + apply safeHashEqual_true in Ee as [_ ->]. by left.
    + right. split; [|by eexists]. intros (_ & _ & [= ->]).
      rewrite safeHashEqual_refl in Ee; [done|]. by eapply eventHash_hex64.
  - right. split; [|rewrite Es; by eexists]. intros (_ & E & Eh).
    apply eventHash_ok in Eh as (_ & Hp & _).
    assert (safeHashEqual (previousHash e) (v_previousHash s) = true) as F
      by by apply safeHashEqual_true; rewrite E.
    by rewrite F in Ep.
Qed.

Lemma verify_from_chain es s expected : v_failure s = None ->
  chain (v_expectedSequence s) (v_previousHash s) es ->
  verify_from s es expected =
  finish (MkVerifier (last_hash (v_previousHash s) es) (v_expectedSequence s + Z.of_nat (length es)) None)
    expected.
Proof.
  revert s. induction es as [|e es IH]; intros s Hf Hc; cbn [verify_from last_hash length].
  - rewrite Z.add_0_r. destruct s. cbn in *. by subst.
  - destruct Hc as [He Hc]. destruct (add_cases s e Hf) as [[_ ->]|[Hn _]]; [|done].
    rewrite IH by done. cbn [v_expectedSequence v_previousHash].
    by replace (v_expectedSequence s + 1 + Z.of_nat (length es))
      with (v_expectedSequence s + Z.of_nat (S (length es))) by lia.
Qed.

(** Where verification stops when the chain breaks. *)
Definition breaks_at (seq : Z) (prev : jsstr) (es : list AuditEvent) (k : Z) : Prop :=
  exists before e rest, es = before ++ e :: rest /\ chain seq prev before /\
    k = seq + Z.of_nat (length before) /\ ~ event_linked k (last_hash prev before) e.

Lemma verify_from_break es s expected : v_failure s = None ->
  chain (v_expectedSequence s) (v_previousHash s) es \/
  exists f, verify_from s es expected = Invalid f /\
    breaks_at (v_expectedSequence s) (v_previousHash s) es (firstBreakSequence f).
Proof.
  revert s. induction es as [|e es IH]; intros s Hf; [by left|]. cbn [verify_from chain].
  destruct (add_cases s e Hf) as [[He ->]|[Hn [r ->]]]; cbn [fail_with].
  - specialize (IH (MkVerifier (event_hash e) (v_expectedSequence s + 1) None) eq_refl).
    cbn [v_expectedSequence v_previousHash] in IH. destruct IH as [IH|(f & -> & IH)]; [by left|right].
    exists f. split; [done|]. destruct IH as (before & x & rest & -> & Hc & -> & Hx).
    exists (e :: before), x, rest. cbn [last_hash length chain app].
    replace (v_expectedSequence s + Z.of_nat (S (length before)))
      with (v_expectedSequence s + 1 + Z.of_nat (length before)) by lia. done.
  - right. eexists. split; [done|]. exists [], e, es. cbn. rewrite Z.add_0_r. done.
Qed.

Lemma last_hash_snoc prev es e : last_hash prev (es ++ [e]) = event_hash e.
Proof. revert prev. induction es as [|x es IH]; intros prev; [done|]. apply IH. Qed.

Lemma chain_snoc seq prev es e :
  chain seq prev (es ++ [e]) <->
  chain seq prev es /\ event_linked (seq + Z.of_nat (length es)) (last_hash prev es) e.
Proof.
  revert seq prev. induction es as [|x es IH]; intros seq prev; cbn [app chain last_hash length].
  - rewrite Z.add_0_r. tauto.
  - rewrite IH. replace (seq + 1 + Z.of_nat (length es)) with (seq + Z.of_nat (S (length es))) by lia.
    tauto.
Qed.

Lemma chain_head_hex64 seq prev es :
  is_hex64 prev = true -> chain seq prev es -> is_hex64 (last_hash prev es) = true.
Proof.
  revert seq prev. induction es as [|e es IH]; intros seq prev Hp; [done|].
  cbn [chain last_hash]. intros [(_ & _ & He%eventHash_hex64) Hc]. by eapply IH.
Qed.

Lemma append_all_chain bodies es previous :
  append_all previous bodies = Ok es ->
  map event_body es = bodies /\
  chain (match previous with Some p => sequence p + 1 | None => 1 end)
        (match previous with Some p => event_hash p | None => GENESIS_HASH end) es.
Proof.
  revert previous es. induction bodies as [|b bodies IH]; intros previous es; cbn [append_all].
  - by intros [= <-].
  - intros (e & He & (es' & Hes & [= <-])%bind_ok)%bind_ok.
    unfold appendEvent in He. apply bind_ok in He as (b' & Hb & (h & Hh & [= <-])%bind_ok).
    apply schema_same in Hb as ->. apply IH in Hes as [Hm Hc]. cbn [map event_body].
    split; [by rewrite Hm|]. split; [|exact Hc]. unfold event_linked.
    by destruct previous.
Qed.

(** The verdict of [verifyChain] on events that form a chain. *)
Lemma verifyChain_chain es expected : chain 1 GENESIS_HASH es ->
  verifyChain es expected =
  match matches_expected expected (Z.of_nat (length es)) (last_hash GENESIS_HASH es) with
  | Some f => Invalid f
  | None => Valid (Z.of_nat (length es)) (last_hash GENESIS_HASH es)
  end.
Proof.
  intros Hc. unfold verifyChain. rewrite verify_from_chain by done. unfold finish.
  cbn [v_failure v_expectedSequence v_previousHash new_verifier].
  by replace (1 + Z.of_nat (length es) - 1) with (Z.of_nat (length es)) by lia.
Qed.

Lemma verifyChain_valid es expected count head : verifyChain es expected = Valid count head ->
  chain 1 GENESIS_HASH es /\ count = Z.of_nat (length es) /\ head = last_hash GENESIS_HASH es /\
  matches_expected expected count head = None.
Proof.
  intros Hv. destruct (verify_from_break es new_verifier expected eq_refl) as [Hc|(f & E & _)].
  - rewrite verifyChain_chain in Hv by done.
    destruct (matches_expected _ _ _) eqn:Em; [done|]. by injection Hv as <- <-.
  - unfold verifyChain in Hv. by rewrite E in Hv.
Qed.

Lemma matches_expected_none es expected : chain 1 GENESIS_HASH es ->
  matches_expected expected (Z.of_nat (length es)) (last_hash GENESIS_HASH es) = None <->
  (forall count head, expected = Some (count, head) ->
     count = Z.of_nat (length es) /\ head = last_hash GENESIS_HASH es).
Proof.
  intros Hc. assert (is_hex64 (last_hash GENESIS_HASH es) = true) as Hh
    by (eapply chain_head_hex64; [vm_compute; reflexivity|exact Hc]).
  destruct expected as [[n h]|]; cbn [matches_expected]; [|naive_solver].
  destruct (Z.eqb_spec n (Z.of_nat (length es))) as [->|Hn]; cbn [negb].
  - destruct (safeHashEqual h _) eqn:Es; cbn [negb]; split; try done.
    + intros _ count head [= <- <-]. apply safeHashEqual_true in Es. tauto.
    + intros Hx. destruct (Hx _ _ eq_refl) as [_ ->]. by rewrite safeHashEqual_refl in Es.
  - split; [done|]. intros Hx. by destruct (Hx _ _ eq_refl).
Qed.

(** C2. Verification accepts a list of events exactly when it is a chain from
    the genesis hash that has the expected length and head; it then reports
    that length and head. Otherwise it reports either the sequence number of
    the first event that does not continue the chain, or that a sound chain
    does not end where it was expected to. *)
Theorem verifyChain_verdict es expected :
  let count := Z.of_nat (length es) in
  let head := last_hash GENESIS_HASH es in
  match verifyChain es expected with
  | Valid n h =>
      n = count /\ h = head /\ chain 1 GENESIS_HASH es /\
      (forall n' h', expected = Some (n', h') -> n' = count /\ h' = head)
  | Invalid f =>
      breaks_at 1 GENESIS_HASH es (firstBreakSequence f) \/
      (chain 1 GENESIS_HASH es /\
       exists n' h', expected = Some (n', h') /\ ~ (n' = count /\ h' = head))
  end.
Proof.
  cbv zeta. destruct (verifyChain es expected) as [n h|f] eqn:E.
  - apply verifyChain_valid in E as (Hc & -> & -> & Hm). split_and!; try done.
    by apply matches_expected_none.
  - destruct (verify_from_break es new_verifier expected eq_refl) as [Hc|(f' & E' & Hb)].
    + right. split; [done|]. destruct expected as [[n' h']|]; [exists n', h'|].
      * split; [done|]. intros Hx. rewrite verifyChain_chain in E by done.
        rewrite (proj2 (matches_expected_none es _ Hc)) in E; [done|]. by intros ? ? [= <- <-].
      * by rewrite verifyChain_chain in E.
    + left. unfold verifyChain in E. rewrite E in E'. by injection E' as <-.
Qed.

(** A chain built by appending verifies: whatever bodies were appended, the
    events carry them in order, and verification accepts them, with or without
    the expectation of their count and head. *)
Theorem appended_chain_verifies bodies es : append_all None bodies = Ok es ->
  let count := Z.of_nat (length bodies) in
  let head := last_hash GENESIS_HASH es in
  map event_body es = bodies /\
  verifyChain es None = Valid count head /\ verifyChain es (Some (count, head)) = Valid count head.
Proof.
  intros [<- Hc]%append_all_chain. cbv zeta. rewrite length_map. split; [done|].
  split; rewrite verifyChain_chain by done; [done|].
  rewrite (proj2 (matches_expected_none es _ Hc)); [done|]. by intros ? ? [= <- <-].
Qed.

(** ** What the head hash fixes *)

(** The bytes under an event's hash. *)
Definition hashed_bytes (e : AuditEvent) : list Z :=
  canonical_bytes (material (sequence e) (previousHash e) (event_body e)).

(** Equal bodies, up to the order of members inside the details. *)
Definition same_body (a b : AuditEventBody) : Prop :=
  (eventId a, eventType a, actorMemberId a, actorClientId a, tokenJti a, entityType a, entityId a,
   boardId a, occurredAt a, origin a)
  = (eventId b, eventType b, actorMemberId b, actorClientId b, tokenJti b, entityType b, entityId b,
     boardId b, occurredAt b, origin b) /\
  sort_json (JObj (details a)) = sort_json (JObj (details b)).

Definition same_event (e f : AuditEvent) : Prop :=
  sequence e = sequence f /\ previousHash e = previousHash f /\ event_hash e = event_hash f /\
  same_body (event_body e) (event_body f).

(** Bodies whose details hold no number but safe integers. *)
Definition exact_details (e : AuditEvent) : Prop := json_safe (body_json (event_body e)) = true.

Lemma exact_all es : forallb (fun e => json_safe (body_json (event_body e))) es = true ->
  Forall exact_details es.
Proof. intros H1. apply List.Forall_forall. intros e He. rewrite forallb_forall in H1. exact (H1 e He). Qed.

Lemma material_same s p b s' p' b' :
  sort_json (material s p b) = sort_json (material s' p' b') ->
  dec s = dec s' /\ p = p' /\ same_body b b'.
Proof.
  unfold material, body_members. intros E. same_members E.
  repeat match goal with
  | F : sort_json (jopt JStr _) = _ |- _ => apply jopt_str_inj in F
  end.
  unfold same_body. split_and!; [congruence..|]. cbn [sort_json]. congruence.
Qed.

Lemma material_safe s p b : 1 <= s -> is_hex64 p = true -> json_safe (body_json b) = true ->
  json_safe (material s p b) = true.
Proof.
  intros Hs Hp. unfold material, body_json. cbn [json_safe].
  rewrite !andb_true_iff. intros [_ Hb]. split.
  - vm_compute. reflexivity.
  - rewrite forallb_app. rewrite Hb, andb_true_r. cbn [forallb str json_safe].
    rewrite !(ascii_unicode_ok (js _)) by (vm_compute; reflexivity).
    rewrite (ascii_unicode_ok AUDIT_DOMAIN) by (vm_compute; reflexivity).
    rewrite (ascii_unicode_ok (dec s)) by (apply dec_ascii; lia).
    by rewrite hex64_unicode.
Qed.

Lemma link_binds `{!Rfc8785} e f seq :
  exact_details e -> exact_details f -> 1 <= seq ->
  event_linked seq (previousHash e) e -> event_linked seq (previousHash f) f ->
  event_hash e = event_hash f ->
  same_event e f \/ collision (hashed_bytes e) (hashed_bytes f).
Proof.
  intros He Hf Hs (Se & _ & Le) (Sf & _ & Lf) Eh. rewrite <- Eh in Lf.
  apply eventHash_ok in Le as (_ & Pe & _ & Le), Lf as (_ & Pf & _ & Lf).
  unfold hashValidatedEvent in *. apply fmap_ok in Le as (t & Te & Le), Lf as (u & Tf & Lf).
  apply canonicalJson_rfc in Te as [_ ->], Tf as [_ ->]. rewrite Le in Lf.
  pose proof (material_safe seq _ _ Hs Pe He) as Me. pose proof (material_safe seq _ _ Hs Pf Hf) as Mf.
  unfold hashed_bytes. rewrite Se, Sf.
  apply sha256Hex_eq in Lf as [E|E];
    [left|by right|apply stringify_well_formed; by rewrite sort_json_safe..].
  apply stringify_inj in E; [|by rewrite sort_json_safe..].
  apply material_same in E as (_ & Ep & Eb). split_and!; try done. by rewrite Se, Sf.
Qed.

Lemma chains_same `{!Rfc8785} seq p q es fs : 1 <= seq ->
  Forall exact_details es -> Forall exact_details fs ->
  chain seq p es -> chain seq q fs -> length es = length fs ->
  last_hash p es = last_hash q fs ->
  Forall2 same_event es fs \/
  exists e f, e ∈ es /\ f ∈ fs /\ collision (hashed_bytes e) (hashed_bytes f).
Proof.
  intros Hseq. revert fs. induction es as [|e es IH] using rev_ind; intros fs He Hf Ce Cf Hl Eh.
  { destruct fs; [by left|done]. }
  destruct fs as [|f fs _] using rev_ind; [by rewrite length_app in Hl; cbn in Hl; lia|].
  rewrite !length_app in Hl. cbn in Hl. rewrite !last_hash_snoc in Eh.
  apply chain_snoc in Ce as [Ce Le], Cf as [Cf Lf].
  apply Forall_app in He as [He [Xe _]%Forall_cons], Hf as [Hf [Xf _]%Forall_cons].
  replace (length fs) with (length es) in Lf by lia.
  pose proof Le as (_ & Pe & _). pose proof Lf as (_ & Pf & _).
  destruct (link_binds e f (seq + Z.of_nat (length es)) Xe Xf) as [Hs|Hc];
    [lia|by rewrite Pe|by rewrite Pf|done| |].
  - destruct (IH fs He Hf Ce Cf) as [H2|(x & y & Hx & Hy & Hc)]; [lia| |left|right].
    + destruct Hs as (_ & Hs & _). by rewrite <- Pe, <- Pf.
    + apply Forall2_app; [done|]. by constructor.
    + exists x, y. rewrite !elem_of_app. tauto.
  - right. exists e, f. rewrite !elem_of_app, !list_elem_of_singleton. tauto.
Qed.

(** C3. The head hash fixes the history: two lists of events that verify
    against the same count and head carry the same events, bodies included, or
    two of their events exhibit a SHA-256 collision. Bodies are compared up to
    the order of members in their details, whose numbers must be safe
    integers. *)
Theorem head_fixes_history `{!Rfc8785} es fs count head :
  Forall exact_details es -> Forall exact_details fs ->
  verifyChain es (Some (count, head)) = Valid count head ->
  verifyChain fs (Some (count, head)) = Valid count head ->
  Forall2 same_event es fs \/
  exists e f, e ∈ es /\ f ∈ fs /\ collision (hashed_bytes e) (hashed_bytes f).
Proof.
  intros He Hf (Ce & Ne & He' & _)%verifyChain_valid (Cf & Nf & Hf' & _)%verifyChain_valid.
  apply (chains_same 1 GENESIS_HASH GENESIS_HASH); try done; [lia|congruence].
Qed.

(** ** The two entry points *)

(** Details in canonical order, as persisted bytes carry them. *)
Definition canonical_details (b : AuditEventBody) : Prop :=
  sort_json (JObj (details b)) = JObj (details b).

Definition input_event (input : CanonicalInput) (b : AuditEventBody) : AuditEvent :=
  MkEvent b (in_sequence input) (in_previousHash input) (in_eventHash input).

(** Verifiers the class can produce. *)
Definition reachable_state (s : Verifier) : Prop := 1 <= v_expectedSequence s.

Lemma addWithHash_add s e :
  reachable_state s -> AuditEventBodySchema (event_body e) = Ok (event_body e) ->
  addWithHash s e (hashValidatedEvent (sequence e) (previousHash e) (event_body e)) = add s e.
Proof.
  intros Hs Hb. unfold reachable_state in Hs. unfold add, addWithHash.
  destruct (v_failure s); [done|].
  destruct (Z.eqb_spec (sequence e) (v_expectedSequence s)) as [Es|]; [|done].
  destruct (safeHashEqual (previousHash e) (v_previousHash s)) eqn:Ep; [|done].
  apply safeHashEqual_true in Ep as [Hp _]. cbn [negb].
  assert (eventHash (sequence e) (previousHash e) (event_body e)
          = hashValidatedEvent (sequence e) (previousHash e) (event_body e)) as ->; [|done].
  unfold eventHash. rewrite (proj2 (Z.ltb_ge (sequence e) 1)) by lia.
  unfold Sha256HexSchema, parse. rewrite Hp. cbn [throw_if mbind result_bind]. by rewrite Hb.
Qed.

Lemma sort_jopt_str o : sort_json (jopt JStr o) = jopt JStr o.
Proof. by destruct o. Qed.

Lemma body_of_sorted b : canonical_details b -> body_of_json (sort_json (body_json b)) = Some b.
Proof.
  unfold canonical_details. intros Hd. unfold body_json. rewrite sort_json_obj.
  unfold body_members, str, nullable, sort_member. cbn [map fst snd]. rewrite Hd, !sort_jopt_str.
  change (sort_json (jint 1)) with (jint 1).
  repeat match goal with |- context [sort_json (JStr ?t)] => change (sort_json (JStr t)) with (JStr t) end.
  destruct b as [ei et [am|] [ac|] [tj|] ety eid [bo|] oa og d]; vm_compute; reflexivity.
Qed.

Lemma decode_canonical `{!NodeText} b : canonical_details b -> json_safe (body_json b) = true ->
  has_index_key (body_json b) = false -> AuditEventBodySchema b = Ok b ->
  decode_payload (canonical_bytes (body_json b)) = Ok b.
Proof.
  intros Hd Hs Hi Hb. unfold decode_payload, canonical_bytes.
  rewrite buffer_toString_encode by (apply stringify_well_formed; by rewrite sort_json_safe).
  rewrite JSON_parse_stringify by (by rewrite ?sort_json_safe, ?sort_json_index).
  unfold parse_body. by rewrite body_of_sorted.
Qed.

(** The verifier that reads persisted bytes agrees with the one that takes
    events. When it returns an event, the bytes are the canonical encoding of a
    valid body and the state is the one adding that event gives; the canonical
    bytes of a valid body are accepted as that event; and whatever is not
    returned as an event leaves a recorded failure. *)
Theorem addCanonicalEvent_agrees `{!Rfc8785} `{!NodeText} s input : reachable_state s ->
  (forall s' e, addCanonicalEvent s input = (s', Ok (Event e)) ->
     e = input_event input (event_body e) /\ AuditEventBodySchema (event_body e) = Ok (event_body e) /\
     canonicalPayload input = canonical_bytes (body_json (event_body e)) /\ s' = (add s e).1) /\
  (forall b, AuditEventBodySchema b = Ok b -> canonical_details b -> json_safe (body_json b) = true ->
     json_ok 0 (body_json b) = true -> has_index_key (body_json b) = false -> canonicalPayload input = canonical_bytes (body_json b) ->
     addCanonicalEvent s input = ((add s (input_event input b)).1, Ok (Event (input_event input b)))) /\
  (forall s' o, addCanonicalEvent s input = (s', o) ->
     (exists e, o = Ok (Event e)) \/ is_some (v_failure s') = true).
Proof.
  intros Hr. unfold addCanonicalEvent. split_and!.
  - intros s' e. destruct (decode_payload _) as [b|x] eqn:Eb; [|done].
    destruct (canonicalJson (body_json b)) as [t|x] eqn:Et; [|done].
    case_bool_decide as Ep; cbn [negb]; [|done]. intros [= <- <-].
    assert (AuditEventBodySchema b = Ok b) as Hb.
    { unfold decode_payload, parse_body in Eb. repeat case_match; try done.
      pose proof (schema_same _ _ Eb) as ->. done. }
    apply canonicalJson_rfc in Et as [_ ->]. cbn [event_body]. split_and!; try done.
    by rewrite addWithHash_add.
  - intros b Hb Hd Hs Ho Hi Ep. rewrite Ep, decode_canonical by done.
    assert (canonicalJson (body_json b) = Ok (stringify (sort_json (body_json b)))) as ->
      by by apply canonicalJson_rfc.
    rewrite bool_decide_eq_true_2 by done. cbn [negb].
    f_equal. by rewrite <- addWithHash_add.
  - intros s' o. repeat case_match; intros [= <- <-]; try (by left; eexists); right; cbn;
      by destruct (v_failure s).
Qed.
End chains.

(** ** A concrete chain *)

Definition sample_body (n : string) (note : json) : AuditEventBody :=
  MkBody (js "01890000-0000-7000-8000-00000000000" ++ js n) (js "member_changed") None None None
    (js "member") (js "m-1") None (js "2026-01-01T00:00:00Z") (js "mcp") [(js "note", note)].

Definition sample_bodies : list AuditEventBody :=
  [sample_body "1" (JStr (js "joined")); sample_body "2" (jint 7)].

Definition sample_events : list AuditEvent :=
  match @append_all plain_platform plain_time None sample_bodies with
  | Ok es => es
  | Throw _ => []
  end.

Definition sample_head : jsstr := last_hash GENESIS_HASH sample_events.

Lemma appended_chain_verifies_witness :
  @verifyChain plain_platform plain_time sample_events (Some (2, sample_head)) = Valid 2 sample_head.
Proof.
  apply (@appended_chain_verifies plain_platform plain_time sample_bodies).
  vm_compute. reflexivity.
Defined.

Lemma head_fixes_history_witness :
  length sample_events = 2%nat /\
  (Forall2 same_event sample_events sample_events \/
   exists e f, e ∈ sample_events /\ f ∈ sample_events /\ collision (hashed_bytes e) (hashed_bytes f)).
Proof.
  split; [vm_compute; reflexivity|].
  pose proof (@exact_all plain_platform sample_events ltac:(vm_compute; reflexivity)) as Hx.
  assert (@verifyChain plain_platform plain_time sample_events (Some (2, sample_head))
          = Valid 2 sample_head) as Hv by (vm_compute; reflexivity).
  exact (@head_fixes_history plain_platform plain_time plain_rfc8785 _ _ 2 sample_head Hx Hx Hv Hv).
Defined.

Definition sample_input : CanonicalInput :=
  MkInput (canonical_bytes (body_json (sample_body "1" JNull))) 1 GENESIS_HASH (js "0").

Lemma addCanonicalEvent_agrees_witness :
  @addCanonicalEvent plain_platform plain_time (@strict_text plain_platform) new_verifier sample_input
  = ((@add plain_platform plain_time new_verifier
        (input_event sample_input (sample_body "1" JNull))).1,
     Ok (Event (input_event sample_input (sample_body "1" JNull)))).
Proof.
  apply (@addCanonicalEvent_agrees plain_platform plain_time plain_rfc8785 (@strict_text plain_platform)
           new_verifier sample_input); try (vm_compute; reflexivity). discriminate.
Defined.
