(* ===== verification/Checkpoint.v ===== *)
(** * Signed audit checkpoints

    lib/audit/src/checkpoint.ts: the checkpoint payload, signing it and
    verifying a signed checkpoint with a key object, a PEM text or a JWK. *)

From stdpp Require Import base numbers sorting strings list.
From Stdlib Require Import Lia.
From S2P Require Import Prelude JsString Encoding JsNumber Json JsonParse JsonCanon Schemas.
From S2P Require Import VotingConsent KeyLifecycle Signing.

Local Open Scope Z_scope.

(** [/^[1-9]\d*$/u] *)
Definition PositiveBigintStringSchema (s : jsstr) : bool := is_pos_dec s.

Definition KeyIdSchema (s : jsstr) : bool := Kid s.

(** [BigInt(value)] of decimal digits; the schema has rejected anything else. *)
Definition parseBigInt (value : jsstr) : option Z :=
  if forallb is_digit value then Some (undec value) else None.

Record AuditCheckpointPayload := MkCheckpoint {
  checkpointId : jsstr;
  instanceId : jsstr;
  organizationId : jsstr;
  firstSequence : jsstr;
  lastSequence : jsstr;
  firstEventSha256 : jsstr;
  lastEventSha256 : jsstr;
  issuedAt : jsstr;
  signingKeyId : jsstr;
  keyId : jsstr
}.

(** The refinement: whether no issue is added. *)
Definition checkpoint_range_ok (p : AuditCheckpointPayload) : bool :=
  match parseBigInt (firstSequence p), parseBigInt (lastSequence p) with
  | Some first, Some last => negb (last <? first) && negb (1000 <=? last - first)
  | _, _ => true
  end.

Definition checkpoint_ok (p : AuditCheckpointPayload) : bool :=
  is_uuid_v7 (checkpointId p) && is_uuid_v7 (instanceId p) && is_uuid_v7 (organizationId p)
  && PositiveBigintStringSchema (firstSequence p) && PositiveBigintStringSchema (lastSequence p)
  && is_hex64 (firstEventSha256 p) && is_hex64 (lastEventSha256 p) && is_rfc3339_utc (issuedAt p)
  && is_uuid_v7 (signingKeyId p) && KeyIdSchema (keyId p) && checkpoint_range_ok p.

Definition AuditCheckpointPayloadSchema (p : AuditCheckpointPayload) : result AuditCheckpointPayload :=
  parse "AuditCheckpointPayload" checkpoint_ok p.

Definition checkpoint_json (p : AuditCheckpointPayload) : json :=
  JObj [str "schema" (js "boardagent.audit.checkpoint.v1"); str "checkpointId" (checkpointId p);
        str "instanceId" (instanceId p); str "organizationId" (organizationId p);
        str "auditSchema" (js "boardagent.audit-event.v1");
        str "firstSequence" (firstSequence p); str "lastSequence" (lastSequence p);
        str "firstEventSha256" (firstEventSha256 p); str "lastEventSha256" (lastEventSha256 p);
        str "issuedAt" (issuedAt p); str "signingKeyId" (signingKeyId p); str "keyId" (keyId p)].

#[export] Instance checkpoint_format `{Platform} : Format AuditCheckpointPayload.
Proof.
  refine {| payload_schema := AuditCheckpointPayloadSchema; payload_json := checkpoint_json |}.
  - by intros a b [-> _]%parse_ok.
  - intros a _. vm_compute. reflexivity.
  - intros [] [] E. unfold checkpoint_json in E. same_members E. cbn in *. by subst.
Defined.

Abbreviation SignedAuditCheckpoint := (Signed AuditCheckpointPayload).

Section checkpoints.
Context `{Platform} `{!Signatures}.

Inductive KeyInput :=
  | KeyObject (key : PublicKey)
  | KeyText (text : jsstr)
  | KeyJwk (jwk : json).

Definition asPublicKey (key : KeyInput) : result PublicKey :=
  match key with
  | KeyText text => createPublicKey text
  | KeyJwk jwk => createPublicKeyJwk jwk
  | KeyObject key => Ok key
  end.

Definition signCheckpoint (rawPayload : AuditCheckpointPayload) (privateKey : PrivateKey)
    : result SignedAuditCheckpoint :=
  sign_payload rawPayload privateKey.

(** Every exception means [false]. *)
Definition verifyCheckpoint (checkpoint : SignedAuditCheckpoint) (publicKey : KeyInput) : bool :=
  catch (
    payload ← AuditCheckpointPayloadSchema (payload checkpoint);
    let signature := b64url_decode (signatureBase64Url checkpoint) in
    bytes ← signed_bytes payload;
    key ← asPublicKey publicKey;
    verify key bytes signature) false.

(** ** Properties *)

Lemma parseBigInt_positive s : PositiveBigintStringSchema s = true ->
  parseBigInt s = Some (undec s) /\ 1 <= undec s.
Proof.
  intros Hs. unfold parseBigInt. rewrite (pos_dec_digits s Hs).
  pose proof (pos_dec_pos s Hs). split; [done|lia].
Qed.

Lemma checkpoint_covers p : checkpoint_ok p = true ->
  1 <= undec (firstSequence p) /\ undec (firstSequence p) <= undec (lastSequence p) /\
  undec (lastSequence p) < undec (firstSequence p) + 1000.
Proof.
  unfold checkpoint_ok, checkpoint_range_ok. intros Hp. boolify.
  destruct (parseBigInt_positive (firstSequence p)) as [E1 ?]; [done|].
  destruct (parseBigInt_positive (lastSequence p)) as [E2 ?]; [done|].
  rewrite E1, E2 in *. boolify. lia.
Qed.

Lemma verifyCheckpoint_true c k : verifyCheckpoint c k = true ->
  exists key bytes, asPublicKey k = Ok key /\ signed_bytes (payload c) = Ok bytes /\
    verify key bytes (b64url_decode (signatureBase64Url c)) = Ok true /\
    checkpoint_ok (payload c) = true.
Proof.
  unfold verifyCheckpoint, catch. intros Hv.
  destruct (AuditCheckpointPayloadSchema (payload c)) as [p|] eqn:Hp; cbn [mbind result_bind] in Hv;
    [|discriminate Hv].
  apply parse_ok in Hp as [-> Hp].
  destruct (signed_bytes (payload c)) as [bytes|]; cbn [mbind result_bind] in Hv; [|discriminate Hv].
  destruct (asPublicKey k) as [key|]; cbn [mbind result_bind] in Hv; [|discriminate Hv].
  destruct (verify key bytes _) as [b|] eqn:E; [|discriminate Hv]. subst b. by exists key, bytes.
Qed.

(** A checkpoint the platform signs is accepted back: verification under
    the public half of the signing key succeeds, and its payload is
    the one that was given. *)
Theorem checkpoint_sign_verify raw key c : signCheckpoint raw key = Ok c ->
  payload c = raw /\ verifyCheckpoint c (KeyObject (public_of key)) = true.
Proof.
  intros Hc. pose proof Hc as (E & _)%sign_payload_ok. split; [done|].
  apply sign_payload_verifies in Hc as (s & Hs & Et & Hv).
  apply verify_payload_true in Hv as (Hp & bytes & Hb & Hv).
  unfold verifyCheckpoint, asPublicKey. cbn [payload_schema checkpoint_format] in Hp.
  rewrite Hp. cbn [mbind result_bind]. rewrite Hb. cbn [mbind result_bind].
  by rewrite Et, b64url_decode_encode, Hv.
Qed.

(** A checkpoint that verifies covers between one and a thousand events,
    numbered from one up, and its signature is over bytes that belong to no
    other valid payload. *)
Theorem verified_checkpoint c k : verifyCheckpoint c k = true ->
  let first := undec (firstSequence (payload c)) in
  let last := undec (lastSequence (payload c)) in
  1 <= first /\ first <= last /\ last < first + 1000 /\
  exists key bytes, asPublicKey k = Ok key /\
    verify key bytes (b64url_decode (signatureBase64Url c)) = Ok true /\
    (forall other, checkpoint_ok other = true -> signed_bytes other = Ok bytes -> other = payload c).
Proof.
  intros (key & bytes & Hk & Hb & Hv & Hp)%verifyCheckpoint_true. cbv zeta.
  destruct (checkpoint_covers _ Hp) as (? & ? & ?). split_and!; try done.
  exists key, bytes. split_and!; try done. intros other So Ho.
  assert (forall p, checkpoint_ok p = true -> AuditCheckpointPayloadSchema p = Ok p) as Hx
    by (intros p Hx; by apply parse_ok).
  by eapply signed_bytes_inj; [apply Hx|apply Hx| |].
Qed.
End checkpoints.

(** ** A concrete checkpoint *)

Definition sample_checkpoint : AuditCheckpointPayload :=
  MkCheckpoint sample_id sample_id sample_id (js "1001") (js "2000") sample_hash sample_hash
    (js "2026-01-01T00:00:00Z") sample_id (js "key-1").

Definition sample_signed : SignedAuditCheckpoint :=
  match @signCheckpoint plain_platform toy_signatures sample_checkpoint tt with
  | Ok c => c
  | Throw _ => MkSigned sample_checkpoint []
  end.

Lemma checkpoint_sign_verify_witness :
  @verifyCheckpoint plain_platform toy_signatures sample_signed
    (@KeyObject toy_signatures tt) = true.
Proof.
  apply (@checkpoint_sign_verify plain_platform toy_signatures sample_checkpoint tt).
  vm_compute. reflexivity.
Defined.

Lemma verified_checkpoint_witness :
  undec (lastSequence (payload sample_signed)) < undec (firstSequence (payload sample_signed)) + 1000.
Proof.
  apply (@verified_checkpoint plain_platform toy_signatures sample_signed
    (@KeyObject toy_signatures tt)).
  vm_compute. reflexivity.
Defined.

