(* ===== verification/RecoveryCheckpoint.v ===== *)
(** * Recovery checkpoints

    lib/audit/src/recovery-checkpoint.ts: the operator's request to sign
    overdue audit events, the checkpoint that binds it, and the set of recovery
    findings a receipt carries. *)

From stdpp Require Import base numbers sorting strings list.
From Stdlib Require Import Lia.
From S2P Require Import Prelude JsString Encoding JsNumber Json JsonParse JsonCanon Schemas.
From S2P Require Import VotingConsent KeyLifecycle Signing Checkpoint.

Local Open Scope Z_scope.

Definition DEADLINE_MICROSECONDS : Z := 900000000.
Definition REQUEST_LIFETIME_MICROSECONDS : Z := 1800000000.

(** [/^[1-9]\d{0,18}$/u], at most the largest PostgreSQL bigint. *)
Definition PositiveSequence (s : jsstr) : bool :=
  is_pos_dec s && (js_length s <=? 19) && (undec s <=? 9223372036854775807).

Definition ExactTimestamp (s : jsstr) : bool := is_rfc3339_utc s && real_instant s.

(** [Date.parse] of the whole second, and the fraction padded to six digits. *)
Definition microseconds (value : jsstr) : Z :=
  let wholeSeconds := take 19 value in
  let fraction := take (length value - 21) (drop 20 value) in
  date_parse_ms wholeSeconds * 1000 + undec (fraction ++ replicate (6 - length fraction) 48).

Example micro_whole : microseconds (js "1970-01-01T00:00:01Z") = 1000000.
Proof. vm_compute. reflexivity. Qed.
Example micro_fraction : microseconds (js "1970-01-01T00:00:01.25Z") = 1250000.
Proof. vm_compute. reflexivity. Qed.

Record AuditRecoveryRequest := MkRequest {
  recoveryId : jsstr;
  rq_instanceId : jsstr;
  rq_organizationId : jsstr;
  rq_firstSequence : jsstr;
  rq_lastSequence : jsstr;
  rq_firstEventSha256 : jsstr;
  headSha256 : jsstr;
  rq_signingKeyId : jsstr;
  rq_keyId : jsstr;
  firstUncoveredEventAt : jsstr;
  preparedAt : jsstr;
  expiresAt : jsstr;
  rq_operatorReference : jsstr;
  rq_reason : jsstr
}.

(** The payload: the members of an ordinary checkpoint, with another schema
    name, and the recovery. *)
Record AuditRecoveryCheckpointPayload := MkRecovery {
  base : AuditCheckpointPayload;
  request : AuditRecoveryRequest;
  request_sha256 : jsstr;
  firstCoveredEventAt : jsstr;
  missedByMicroseconds : jsstr
}.

Section schemas.
Context `{Platform}.

Definition exactOperatorText (maximum : Z) (value : jsstr) : bool :=
  in_range 1 maximum (js_length value) && bool_decide (value = trim value)
  && bool_decide (value = nfc value)
  && forallb (fun point => (32 <=? point) && negb (point =? 127)) (code_points value).

Definition request_fields_ok (r : AuditRecoveryRequest) : bool :=
  is_uuid_v7 (recoveryId r) && is_uuid_v7 (rq_instanceId r) && is_uuid_v7 (rq_organizationId r)
  && PositiveSequence (rq_firstSequence r) && PositiveSequence (rq_lastSequence r)
  && is_hex64 (rq_firstEventSha256 r) && is_hex64 (headSha256 r) && is_uuid_v7 (rq_signingKeyId r)
  && Kid (rq_keyId r) && ExactTimestamp (firstUncoveredEventAt r) && ExactTimestamp (preparedAt r)
  && ExactTimestamp (expiresAt r) && exactOperatorText 256 (rq_operatorReference r)
  && exactOperatorText 2048 (rq_reason r).

(** The condition of the transform. *)
Definition request_consistent (r : AuditRecoveryRequest) : bool :=
  let first := undec (rq_firstSequence r) in
  let last := undec (rq_lastSequence r) in
  (first <=? last) && (last - first <? 1000000)
  && (DEADLINE_MICROSECONDS <? microseconds (preparedAt r) - microseconds (firstUncoveredEventAt r))
  && (microseconds (expiresAt r) - microseconds (preparedAt r) =? REQUEST_LIFETIME_MICROSECONDS).

Definition request_ok (r : AuditRecoveryRequest) : bool := request_fields_ok r && request_consistent r.

Definition AuditRecoveryRequestSchema (r : AuditRecoveryRequest) : result AuditRecoveryRequest :=
  parse "AuditRecoveryRequest" request_ok r.

Definition request_json (r : AuditRecoveryRequest) : json :=
  JObj [str "schemaVersion" (js "boardagent.audit-recovery-request.v1"); str "recoveryId" (recoveryId r);
        str "instanceId" (rq_instanceId r); str "organizationId" (rq_organizationId r);
        str "firstSequence" (rq_firstSequence r); str "lastSequence" (rq_lastSequence r);
        str "firstEventSha256" (rq_firstEventSha256 r); str "headSha256" (headSha256 r);
        str "signingKeyId" (rq_signingKeyId r); str "keyId" (rq_keyId r);
        str "firstUncoveredEventAt" (firstUncoveredEventAt r); str "preparedAt" (preparedAt r);
        str "expiresAt" (expiresAt r); str "operatorReference" (rq_operatorReference r);
        str "reason" (rq_reason r)].

Definition recovery_fields_ok (p : AuditRecoveryCheckpointPayload) : bool :=
  is_uuid_v7 (checkpointId (base p)) && is_uuid_v7 (instanceId (base p))
  && is_uuid_v7 (organizationId (base p)) && PositiveSequence (firstSequence (base p))
  && PositiveSequence (lastSequence (base p)) && is_hex64 (firstEventSha256 (base p))
  && is_hex64 (lastEventSha256 (base p)) && ExactTimestamp (issuedAt (base p))
  && is_uuid_v7 (signingKeyId (base p)) && Kid (keyId (base p))
  && request_ok (request p) && is_hex64 (request_sha256 p) && ExactTimestamp (firstCoveredEventAt p)
  && is_pos_dec (missedByMicroseconds p) && (js_length (missedByMicroseconds p) <=? 20).

(** The part of the transform's condition after the request's digest. *)
Definition recovery_bound (p : AuditRecoveryCheckpointPayload) : bool :=
  let b := base p in let r := request p in
  let first := undec (firstSequence b) in
  let last := undec (lastSequence b) in
  let issued := microseconds (issuedAt b) in
  bool_decide (instanceId b = rq_instanceId r) && bool_decide (organizationId b = rq_organizationId r)
  && bool_decide (signingKeyId b = rq_signingKeyId r) && bool_decide (keyId b = rq_keyId r)
  && (undec (rq_firstSequence r) <=? first) && (last <=? undec (rq_lastSequence r))
  && (negb (first =? undec (rq_firstSequence r))
      || (bool_decide (firstEventSha256 b = rq_firstEventSha256 r)
          && bool_decide (firstCoveredEventAt p = firstUncoveredEventAt r)))
  && (negb (last =? undec (rq_lastSequence r)) || bool_decide (lastEventSha256 b = headSha256 r))
  && (microseconds (preparedAt r) <=? issued) && (issued <? microseconds (expiresAt r))
  && (issued - microseconds (firstCoveredEventAt p) - DEADLINE_MICROSECONDS
      =? undec (missedByMicroseconds p)).

(** Exceptions of the digest pass through. *)
Definition AuditRecoveryCheckpointPayloadSchema (p : AuditRecoveryCheckpointPayload)
    : result AuditRecoveryCheckpointPayload :=
  if negb (recovery_fields_ok p) then Throw (ZodError "AuditRecoveryCheckpointPayload") else
  if negb (is_ok (AuditCheckpointPayloadSchema (base p)))
  then Throw (ZodError "AuditRecoveryCheckpointPayload") else
  hash ← canonicalSha256 (request_json (request p));
  if bool_decide (request_sha256 p = hash) && recovery_bound p then Ok p
  else Throw (ZodError "AuditRecoveryCheckpointPayload").

Definition recovery_json (p : AuditRecoveryCheckpointPayload) : json :=
  let b := base p in
  JObj [str "schema" (js "boardagent.audit.recovery-checkpoint.v1"); str "checkpointId" (checkpointId b);
        str "instanceId" (instanceId b); str "organizationId" (organizationId b);
        str "auditSchema" (js "boardagent.audit-event.v1");
        str "firstSequence" (firstSequence b); str "lastSequence" (lastSequence b);
        str "firstEventSha256" (firstEventSha256 b); str "lastEventSha256" (lastEventSha256 b);
        str "issuedAt" (issuedAt b); str "signingKeyId" (signingKeyId b); str "keyId" (keyId b);
        (js "recovery", JObj [(js "request", request_json (request p));
           str "requestSha256" (request_sha256 p); str "firstCoveredEventAt" (firstCoveredEventAt p);
           str "missedByMicroseconds" (missedByMicroseconds p)])].

Lemma request_json_inj a b : sort_json (request_json a) = sort_json (request_json b) -> a = b.
Proof. intros E. unfold request_json in E. split_members E. destruct a, b. cbn in *. by subst. Qed.

Lemma checkpoint_is_ok b : is_ok (AuditCheckpointPayloadSchema b) = checkpoint_ok b.
Proof. unfold AuditCheckpointPayloadSchema, parse. by destruct (checkpoint_ok b). Qed.

Lemma guarded_digest {A} (fields base_ok bound : bool) (digest : result jsstr) s e (p q : A) :
  (if negb fields then Throw e else if negb base_ok then Throw e else
   hash ← digest; if bool_decide (s = hash) && bound then Ok p else Throw e) = Ok q ->
  q = p /\ fields = true /\ base_ok = true /\ bound = true /\ digest = Ok s.
Proof.
  destruct fields, base_ok, digest as [h|]; cbn; try done.
  case_bool_decide as Eh; cbn; [|done]. destruct bound; [|done]. intros [= <-]. by rewrite Eh.
Qed.

Lemma recovery_schema_ok p q : AuditRecoveryCheckpointPayloadSchema p = Ok q ->
  q = p /\ recovery_fields_ok p = true /\ checkpoint_ok (base p) = true /\ recovery_bound p = true /\
  canonicalSha256 (request_json (request p)) = Ok (request_sha256 p).
Proof.
  unfold AuditRecoveryCheckpointPayloadSchema. rewrite checkpoint_is_ok. apply guarded_digest.
Qed.
End schemas.

#[export] Instance recovery_format `{Platform} : Format AuditRecoveryCheckpointPayload.
Proof.
  refine {| payload_schema := AuditRecoveryCheckpointPayloadSchema; payload_json := recovery_json |}.
  - by intros a b (-> & _)%recovery_schema_ok.
  - intros a _. vm_compute. reflexivity.
  - intros [[] ? ? ? ?] [[] ? ? ? ?] E. unfold recovery_json in E. split_members E.
    match goal with R : sort_json (JObj _) = _ |- _ => split_members R end.
    match goal with R : sort_json (request_json _) = _ |- _ => apply request_json_inj in R end.
    cbn in *. by subst.
Defined.

Lemma recovery_json_inj `{Platform} a b :
  sort_json (recovery_json a) = sort_json (recovery_json b) -> a = b.
Proof. exact (payload_json_inj a b). Qed.

Abbreviation SignedAuditRecoveryCheckpoint := (Signed AuditRecoveryCheckpointPayload).

Section evidence.
Context `{Platform} `{!Signatures}.

Definition SignedAuditRecoveryCheckpointSchema
    : SignedAuditRecoveryCheckpoint -> result SignedAuditRecoveryCheckpoint := signed_schema.

Definition evidence_request (e : SignedAuditRecoveryCheckpoint) : AuditRecoveryRequest :=
  request (payload e).
Definition evidence_first (e : SignedAuditRecoveryCheckpoint) : Z :=
  undec (firstSequence (base (payload e))).

(** The [every] loop with its set of identifiers; [previous] is
    [evidence[index - 1]]. *)
Fixpoint evidence_every (ids : list jsstr) (previous : option SignedAuditRecoveryCheckpoint)
    (evidence : list SignedAuditRecoveryCheckpoint) : bool :=
  match evidence with
  | [] => true
  | entry :: rest =>
      let request := evidence_request entry in
      if set_has ids (recoveryId request)
         || bool_decide (firstSequence (base (payload entry)) <> rq_firstSequence request)
         || match previous with
            | Some p => evidence_first entry <=? evidence_first p
            | None => false
            end
      then false
      else evidence_every (set_add ids (recoveryId request)) (Some entry) rest
  end.

Definition AuditRecoveryEvidenceSetSchema (evidence : list SignedAuditRecoveryCheckpoint)
    : result (list SignedAuditRecoveryCheckpoint) :=
  set ← mapR SignedAuditRecoveryCheckpointSchema evidence;
  parse "AuditRecoveryEvidenceSet"
    (fun l => in_range 1 1000000 (Z.of_nat (length l)) && evidence_every [] None l) set.

Definition signRecoveryCheckpoint (rawPayload : AuditRecoveryCheckpointPayload) (privateKey : PrivateKey)
    : result SignedAuditRecoveryCheckpoint :=
  sign_evidence "audit recovery checkpoint requires an Ed25519 private key" rawPayload privateKey.

Definition verifyRecoveryCheckpoint (value : SignedAuditRecoveryCheckpoint) (publicKey : PublicKey)
    : bool := verify_evidence value publicKey.

(** ** Properties *)

Lemma request_accepted r : request_ok r = true ->
  1 <= undec (rq_firstSequence r) <= undec (rq_lastSequence r) /\
  undec (rq_lastSequence r) < undec (rq_firstSequence r) + 1000000 /\
  undec (rq_lastSequence r) <= 9223372036854775807 /\
  microseconds (firstUncoveredEventAt r) + DEADLINE_MICROSECONDS < microseconds (preparedAt r) /\
  microseconds (expiresAt r) = microseconds (preparedAt r) + REQUEST_LIFETIME_MICROSECONDS.
Proof.
  unfold request_ok, request_fields_ok, request_consistent, PositiveSequence. intros Hr. boolify.
  assert (0 < undec (rq_firstSequence r)) by (by apply pos_dec_pos). lia.
Qed.

(** What a recovery checkpoint states, beside its signature. *)
Record recovers (p : AuditRecoveryCheckpointPayload) : Prop := {
  rc_identity : (instanceId (base p), organizationId (base p), signingKeyId (base p), keyId (base p))
    = (rq_instanceId (request p), rq_organizationId (request p), rq_signingKeyId (request p),
       rq_keyId (request p));
  rc_request : canonicalSha256 (request_json (request p)) = Ok (request_sha256 p);
  rc_first : 1 <= undec (rq_firstSequence (request p)) <= undec (firstSequence (base p));
  rc_range : undec (firstSequence (base p)) <= undec (lastSequence (base p))
    < undec (firstSequence (base p)) + 1000;
  rc_last : undec (lastSequence (base p)) <= undec (rq_lastSequence (request p));
  rc_issued : microseconds (preparedAt (request p)) <= microseconds (issuedAt (base p))
    < microseconds (preparedAt (request p)) + REQUEST_LIFETIME_MICROSECONDS;
  rc_missed : microseconds (firstCoveredEventAt p) + DEADLINE_MICROSECONDS
    + undec (missedByMicroseconds p) = microseconds (issuedAt (base p)) /\
    0 < undec (missedByMicroseconds p);
  rc_starts : undec (firstSequence (base p)) = undec (rq_firstSequence (request p)) ->
    firstEventSha256 (base p) = rq_firstEventSha256 (request p) /\
    firstCoveredEventAt p = firstUncoveredEventAt (request p);
  rc_ends : undec (lastSequence (base p)) = undec (rq_lastSequence (request p)) ->
    lastEventSha256 (base p) = headSha256 (request p)
}.

Lemma recovery_accepted p : AuditRecoveryCheckpointPayloadSchema p = Ok p -> recovers p.
Proof.
  intros (_ & Hf & Hc & Hb & Hh)%recovery_schema_ok.
  destruct (checkpoint_covers _ Hc) as (C1 & C2 & C3).
  unfold recovery_fields_ok in Hf. unfold recovery_bound in Hb. boolify.
  destruct (request_accepted (request p)) as (R1 & R2 & R3 & R4 & R5); [done|].
  assert (0 < undec (missedByMicroseconds p)) by (by apply pos_dec_pos).
  repeat match goal with Ho : _ || _ = true |- _ => apply orb_true_iff in Ho end.
  split; try lia; [congruence|done| | ].
  - intros E. match goal with Ho : negb (undec (firstSequence _) =? _) = true \/ _ |- _ =>
      destruct Ho as [Ho|Ho] end; boolify; done.
  - intros E. match goal with Ho : negb (undec (lastSequence _) =? _) = true \/ _ |- _ =>
      destruct Ho as [Ho|Ho] end; boolify; done.
Qed.

(** C38. A recovery checkpoint that verifies tells the truth about the miss: it
    covers at most a thousand events inside the range of the request it embeds
    and hashes, for the same instance, organization and key; it was issued
    within thirty minutes of the request's preparation; the stated miss is
    exactly the time past the fifteen-minute deadline and is positive; and its
    ends agree with the request's ends. What is signed is no other valid payload. *)
Theorem recovery_checkpoint_truthful value key : verifyRecoveryCheckpoint value key = true ->
  recovers (payload value) /\ evidenced value key.
Proof.
  intros Hv%verify_evidence_true. split; [|done]. apply recovery_accepted, Hv.
Qed.

Lemma set_has_spec s k : set_has s k = true <-> k ∈ s.
Proof. unfold set_has. apply bool_decide_eq_true. Qed.

Lemma evidence_every_spec l ids previous : evidence_every ids previous l = true <->
  NoDup (map (fun e => recoveryId (evidence_request e)) l) /\
  (forall e, e ∈ l -> recoveryId (evidence_request e) ∉ ids) /\
  Forall (fun e => firstSequence (base (payload e)) = rq_firstSequence (evidence_request e)) l /\
  Sorted Z.lt (option_list (evidence_first <$> previous) ++ map evidence_first l).
Proof.
  revert ids previous. induction l as [|e l IH]; intros ids previous; cbn [evidence_every map].
  - rewrite app_nil_r. split; [intros _|done]. split_and!; [constructor|by intros e ?%elem_of_nil|done|].
    destruct previous; cbn; repeat constructor.
  - rewrite NoDup_cons, Forall_cons.
    assert (forall (b : bool), (if b then false else evidence_every (set_add ids (recoveryId (evidence_request e))) (Some e) l) = true
      <-> b = false /\ evidence_every (set_add ids (recoveryId (evidence_request e))) (Some e) l = true) as ->
      by (intros []; naive_solver).
    rewrite !orb_false_iff, IH. cbn [fmap option_fmap option_map option_list app].
    rewrite bool_decide_eq_false. setoid_rewrite elem_of_set_add.
    assert (set_has ids (recoveryId (evidence_request e)) = false
            <-> recoveryId (evidence_request e) ∉ ids) as ->
      by (unfold set_has; apply bool_decide_eq_false).
    assert (Sorted Z.lt (option_list (evidence_first <$> previous) ++ evidence_first e :: map evidence_first l)
      <-> match previous with Some p => evidence_first e <=? evidence_first p | None => false end = false
          /\ Sorted Z.lt (evidence_first e :: map evidence_first l)) as ->.
    { destruct previous as [p|]; cbn; [|tauto]. rewrite Z.leb_gt. split.
      - intros [Hs Hh]%Sorted_inv. inversion Hh; subst. done.
      - intros [Hlt Hs]. constructor; [done|]. by constructor. }
    split.
    + intros [[[Hi Hf] Hp] (Hd & Hn & Hs & Ho)]. split_and!; try done.
      * intros (x & Ex & Hx)%list_elem_of_fmap. apply (Hn x Hx). by right.
      * intros x [->|Hx]%elem_of_cons; [done|]. intros Hx'. apply (Hn x Hx). by left.
      * by apply dec_stable.
    + intros ([Hi Hd] & Hn & [Hf Hs] & Hp & Ho). split_and!; try done.
      * apply Hn. by left.
      * naive_solver.
      * intros x Hx [Hx'|Hx']; [apply (Hn x); [by right|done]|].
        destruct Hi. rewrite <- Hx'. apply list_elem_of_fmap. by exists x.
Qed.

Lemma mapR_same {A} (f : A -> result A) l k :
  (forall a b, f a = Ok b -> b = a) -> mapR f l = Ok k -> k = l /\ Forall (fun a => f a = Ok a) l.
Proof.
  intros Hf. rewrite mapR_ok. induction 1 as [|a b l k Hab _ IH]; [done|].
  pose proof (Hf a b Hab) as ->. destruct IH as [-> IH]. split; [done|]. by constructor.
Qed.

Lemma evidence_set_same evidence set : AuditRecoveryEvidenceSetSchema evidence = Ok set ->
  set = evidence /\ evidence <> [].
Proof.
  intros (l & Hl & [-> [Hn _]%andb_true_iff]%parse_ok)%bind_ok.
  destruct (mapR_same SignedAuditRecoveryCheckpointSchema evidence l) as [-> _]; try done.
  - intros a b E. exact (proj1 (signed_schema_same a b E)).
  - split; [done|]. by intros ->.
Qed.

(** A set of recovery findings is accepted exactly when it has between one
    and a million entries, each well formed and the first checkpoint of its
    recovery, with distinct recoveries whose ranges start in increasing
    order. *)
Theorem evidence_set_accepted evidence set :
  AuditRecoveryEvidenceSetSchema evidence = Ok set <->
  set = evidence /\ 1 <= Z.of_nat (length evidence) <= 1000000 /\
  Forall (fun e => SignedAuditRecoveryCheckpointSchema e = Ok e) evidence /\
  NoDup (map (fun e => recoveryId (evidence_request e)) evidence) /\
  Forall (fun e => firstSequence (base (payload e)) = rq_firstSequence (evidence_request e)) evidence /\
  Sorted Z.lt (map evidence_first evidence).
Proof.
  unfold AuditRecoveryEvidenceSetSchema. rewrite bind_ok. setoid_rewrite parse_ok.
  setoid_rewrite andb_true_iff. setoid_rewrite in_range_spec. setoid_rewrite evidence_every_spec. split.
  - intros (l & Hl & -> & Hn & Hd & _ & Hf & Hs).
    destruct (mapR_same SignedAuditRecoveryCheckpointSchema evidence l) as [-> Hx]; try done.
    intros a b E. exact (proj1 (signed_schema_same a b E)).
  - intros (-> & Hn & Hl & Hd & Hf & Hs). exists evidence. split.
    + apply mapR_ok. by apply Forall_Forall2_diag.
    + split_and!; try done; try lia. intros e _. apply not_elem_of_nil.
Qed.
End evidence.

(** ** A concrete recovery *)

Definition sample_request : AuditRecoveryRequest :=
  MkRequest sample_id sample_id sample_id (js "5") (js "9") sample_hash sample_hash sample_id (js "key-1")
    (js "2026-01-01T00:00:00Z") (js "2026-01-01T01:00:00Z") (js "2026-01-01T01:30:00Z")
    (js "ticket 7") (js "signer was offline").

Definition sample_recovery : AuditRecoveryCheckpointPayload :=
  MkRecovery
    (MkCheckpoint sample_id sample_id sample_id (js "5") (js "9") sample_hash sample_hash
       (js "2026-01-01T01:10:00.5Z") sample_id (js "key-1"))
    sample_request
    (catch (@canonicalSha256 plain_platform (request_json sample_request)) [])
    (js "2026-01-01T00:00:00Z") (js "3300500000").

Definition sample_finding : SignedAuditRecoveryCheckpoint :=
  catch (@signRecoveryCheckpoint plain_platform toy_signatures sample_recovery tt)
        (MkSigned sample_recovery []).

Lemma recovery_checkpoint_truthful_witness :
  payload sample_finding = sample_recovery /\ @recovers plain_platform (payload sample_finding).
Proof.
  split; [vm_compute; reflexivity|].
  apply (@recovery_checkpoint_truthful plain_platform toy_signatures sample_finding tt).
  vm_compute. reflexivity.
Defined.
