(* ===== verification/ExportAttestation.v ===== *)
(** * Export attestations

    lib/audit/src/export-attestation.ts: the signed statement that binds an
    exported projection of the audit log, without (v1) or with (v2) the
    recovery findings of the history it covers. *)

From stdpp Require Import base numbers sorting strings list.
From Stdlib Require Import Lia.
From S2P Require Import Prelude JsString Encoding JsNumber Json JsonParse JsonCanon Schemas.
From S2P Require Import VotingConsent KeyLifecycle Signing Checkpoint RecoveryCheckpoint.

Local Open Scope Z_scope.

Record AuditExportAttestation := MkAttestation {
  at_instanceId : jsstr;
  exportRequestId : jsstr;
  at_organizationId : jsstr;
  at_boardId : option jsstr;
  scopeSha256 : jsstr;
  snapshotSha256 : jsstr;
  at_firstSequence : jsstr;
  at_lastSequence : jsstr;
  auditHeadSequence : jsstr;
  auditHeadSha256 : jsstr;
  latestCheckpointSha256 : jsstr;
  eventComponentSha256 : jsstr;
  checkpointComponentSha256 : jsstr;
  at_issuedAt : jsstr;
  at_signingKeyId : jsstr;
  at_keyId : jsstr
}.

(** The union discriminated by the schema version. *)
Inductive AuditExportAttestationPayload :=
  | V1 (a : AuditExportAttestation)
  | V2 (a : AuditExportAttestation) (auditRecoveryEvidence : list SignedAuditRecoveryCheckpoint).

Definition attestation (p : AuditExportAttestationPayload) : AuditExportAttestation :=
  match p with V1 a | V2 a _ => a end.

Definition AuditExportAttestationV1Schema (a : AuditExportAttestation) : bool :=
  is_uuid_v7 (at_instanceId a) && is_uuid_v7 (exportRequestId a) && is_uuid_v7 (at_organizationId a)
  && opt_all is_uuid_v7 (at_boardId a) && is_hex64 (scopeSha256 a) && is_hex64 (snapshotSha256 a)
  && is_pos_dec (at_firstSequence a) && is_pos_dec (at_lastSequence a)
  && is_pos_dec (auditHeadSequence a) && is_hex64 (auditHeadSha256 a)
  && is_hex64 (latestCheckpointSha256 a) && is_hex64 (eventComponentSha256 a)
  && is_hex64 (checkpointComponentSha256 a) && is_rfc3339_utc (at_issuedAt a)
  && is_uuid_v7 (at_signingKeyId a) && Kid (at_keyId a).

(** The refinement of the union. *)
Definition attestation_range_ok (a : AuditExportAttestation) : bool :=
  (undec (at_firstSequence a) <=? undec (at_lastSequence a))
  && (undec (at_lastSequence a) <=? undec (auditHeadSequence a)).

Section attestations.
Context `{Platform}.

Definition AuditExportAttestationPayloadSchema (p : AuditExportAttestationPayload)
    : result AuditExportAttestationPayload :=
  if negb (AuditExportAttestationV1Schema (attestation p))
  then Throw (ZodError "AuditExportAttestationPayload") else
  match p with
  | V1 a => Ok tt
  | V2 a evidence => AuditRecoveryEvidenceSetSchema evidence ≫= fun _ => Ok tt
  end ≫= fun _ =>
  if attestation_range_ok (attestation p) then Ok p
  else Throw (ZodError "AuditExportAttestationPayload").

Definition attestation_members (version : string) (a : AuditExportAttestation) : list (jsstr * json) :=
  [str "schemaVersion" (js version); str "instanceId" (at_instanceId a);
   str "exportRequestId" (exportRequestId a); str "organizationId" (at_organizationId a);
   nullable "boardId" (at_boardId a); str "scopeSha256" (scopeSha256 a);
   str "snapshotSha256" (snapshotSha256 a); str "firstSequence" (at_firstSequence a);
   str "lastSequence" (at_lastSequence a); str "auditHeadSequence" (auditHeadSequence a);
   str "auditHeadSha256" (auditHeadSha256 a); str "latestCheckpointSha256" (latestCheckpointSha256 a);
   str "eventComponentSha256" (eventComponentSha256 a);
   str "checkpointComponentSha256" (checkpointComponentSha256 a); str "issuedAt" (at_issuedAt a);
   str "signingKeyId" (at_signingKeyId a); str "keyId" (at_keyId a)].

Definition finding_json (e : SignedAuditRecoveryCheckpoint) : json :=
  JObj [(js "payload", recovery_json (payload e)); str "signatureBase64Url" (signatureBase64Url e)].

Definition attestation_json (p : AuditExportAttestationPayload) : json :=
  match p with
  | V1 a => JObj (attestation_members "boardagent.audit-export-attestation.v1" a)
  | V2 a evidence =>
      JObj (attestation_members "boardagent.audit-export-attestation.v2" a
            ++ [(js "auditRecoveryEvidence", JArr (map finding_json evidence))])
  end.

Lemma attestation_schema_ok p q : AuditExportAttestationPayloadSchema p = Ok q ->
  q = p /\ AuditExportAttestationV1Schema (attestation p) = true /\
  attestation_range_ok (attestation p) = true /\
  match p with
  | V1 _ => True
  | V2 _ evidence => AuditRecoveryEvidenceSetSchema evidence = Ok evidence
  end.
Proof.
  unfold AuditExportAttestationPayloadSchema.
  destruct (AuditExportAttestationV1Schema (attestation p)); cbn [negb]; [|done].
  intros ([] & Hm & Hq)%bind_ok. destruct (attestation_range_ok (attestation p)); [|done].
  injection Hq as <-. split_and!; try done. destruct p as [a|a evidence]; [done|].
  apply bind_ok in Hm as (set & Hs & _). pose proof Hs as [-> _]%evidence_set_same. done.
Qed.

Lemma finding_json_inj a b : sort_json (finding_json a) = sort_json (finding_json b) -> a = b.
Proof.
  intros E. unfold finding_json in E. split_members E.
  match goal with R : sort_json (recovery_json _) = _ |- _ => apply recovery_json_inj in R end.
  destruct a, b. cbn in *. by subst.
Qed.

Lemma attestation_json_inj p q :
  sort_json (attestation_json p) = sort_json (attestation_json q) -> p = q.
Proof.
  destruct p as [a|a e], q as [b|b f]; unfold attestation_json, attestation_members; cbn [app]; intros E.
  - split_members E. destruct a, b. cbn in *. by subst.
  - by apply sort_json_obj_length in E.
  - by apply sort_json_obj_length in E.
  - split_members E.
    match goal with R : sort_json (JArr _) = _ |- _ =>
      apply sort_json_arr, (jstr_list_inj _ _ _ finding_json_inj) in R end.
    destruct a, b. cbn in *. by subst.
Qed.

Lemma attestation_json_plain p : json_plain (attestation_json p) = true.
Proof.
  destruct p as [a|a evidence].
  { unfold attestation_json, attestation_members, nullable.
    destruct (at_boardId a); vm_compute; reflexivity. }
  unfold attestation_json. cbn [json_plain]. apply andb_true_iff. split; [vm_compute; reflexivity|].
  rewrite forallb_app. apply andb_true_iff. split.
  - unfold attestation_members, nullable. destruct (at_boardId a); vm_compute; reflexivity.
  - cbn [forallb json_plain]. rewrite andb_true_r. apply andb_true_iff. split; [vm_compute; reflexivity|].
    rewrite forallb_map. apply forallb_forall. intros e _. vm_compute. reflexivity.
Qed.
End attestations.

#[export] Instance attestation_format `{Platform} : Format AuditExportAttestationPayload.
Proof.
  refine {| payload_schema := AuditExportAttestationPayloadSchema; payload_json := attestation_json |}.
  - by intros a b (-> & _)%attestation_schema_ok.
  - intros a _. apply attestation_json_plain.
  - apply attestation_json_inj.
Defined.

Abbreviation SignedAuditExportAttestation := (Signed AuditExportAttestationPayload).

Section signing.
Context `{Platform} `{!Signatures}.

Definition SignedAuditExportAttestationSchema
    : SignedAuditExportAttestation -> result SignedAuditExportAttestation := signed_schema.

Definition signAuditExportAttestation (payloadValue : AuditExportAttestationPayload)
    (privateKey : PrivateKey) : result SignedAuditExportAttestation :=
  sign_evidence "audit export attestation requires an Ed25519 private key" payloadValue privateKey.

Definition verifyAuditExportAttestation (value : SignedAuditExportAttestation) (publicKey : PublicKey)
    : bool := verify_evidence value publicKey.

(** An export attestation that is signed verifies under its key; and one
    that verifies, whoever made it, covers a nonempty range inside its frozen
    head, carries only well-formed recovery findings in audit order, at least
    one in the second version, and signs bytes of no other valid payload. *)
Theorem attestation_verifies :
  (forall payload key v, signAuditExportAttestation payload key = Ok v ->
     Signing.payload v = payload /\ verifyAuditExportAttestation v (public_of key) = true) /\
  (forall v key, verifyAuditExportAttestation v key = true ->
     let a := attestation (Signing.payload v) in
     1 <= undec (at_firstSequence a) /\ undec (at_firstSequence a) <= undec (at_lastSequence a) /\
     undec (at_lastSequence a) <= undec (auditHeadSequence a) /\
     (forall a' findings, Signing.payload v = V2 a' findings ->
        findings <> [] /\ AuditRecoveryEvidenceSetSchema findings = Ok findings) /\
     evidenced v key).
Proof.
  split; [intros payload key v; apply evidence_sign_verify|].
  intros v key Hv%verify_evidence_true. cbv zeta.
  pose proof (ev_schema _ _ Hv) as (_ & Hs & Hr & Hm)%attestation_schema_ok.
  unfold attestation_range_ok, AuditExportAttestationV1Schema in *. boolify.
  assert (0 < undec (at_firstSequence (attestation (payload v)))) by (by apply pos_dec_pos).
  split_and!; try lia; [|done]. intros a' findings E. rewrite E in Hm. split; [|done].
  by apply evidence_set_same in Hm as [_ Hn].
Qed.
End signing.

(** ** A concrete attestation *)

Definition sample_attestation : AuditExportAttestationPayload :=
  V2 (MkAttestation sample_id sample_id sample_id None sample_hash sample_hash (js "1") (js "9") (js "12")
        sample_hash sample_hash sample_hash sample_hash (js "2026-01-02T00:00:00Z") sample_id (js "key-1"))
     [sample_finding].

Definition sample_export : SignedAuditExportAttestation :=
  catch (@signAuditExportAttestation plain_platform toy_signatures sample_attestation tt)
        (MkSigned sample_attestation []).

Lemma attestation_verifies_witness :
  @verifyAuditExportAttestation plain_platform toy_signatures sample_export tt = true /\
  exists findings, @AuditRecoveryEvidenceSetSchema plain_platform findings = Ok findings.
Proof.
  assert (@signAuditExportAttestation plain_platform toy_signatures sample_attestation tt
          = Ok sample_export) as Hs by (vm_compute; reflexivity).
  destruct (@attestation_verifies plain_platform toy_signatures) as [Hsign Hverify].
  destruct (Hsign _ _ _ Hs) as [Hp Hv]. split; [exact Hv|].
  destruct (Hverify _ _ Hv) as (_ & _ & _ & Hf & _).
  exists [sample_finding]. eapply Hf. rewrite Hp. reflexivity.
Defined.
