(* ===== verification/Certificate.v ===== *)
(** * Vote certificates

    lib/audit/src/certificate.ts: the payload a vote certificate signs, its
    schema with the cross checks, public identifiers, issuing and verifying.
    A record per object of the schema; an enum of the schema is the type the
    tally and the governance profile use for it. *)

From stdpp Require Import base numbers sorting strings list.
From Stdlib Require Import Lia.
From S2P Require Import Prelude JsString Encoding JsNumber Json JsonParse JsonCanon Schemas.
From S2P Require Import VotingConsent Voting GovernanceProfile KeyLifecycle Signing.

Local Open Scope Z_scope.

(** ** Data *)

Record CertificateApprovalRule := MkApprovalRule {
  ar_id : jsstr;
  ar_canonicalSha256 : jsstr;
  ar_approval : GovernanceFraction;
  ar_quorum : GovernanceFraction;
  ar_approvalDenominator : ApprovalDenominator;
  ar_abstentionsCountForQuorum : bool;
  ar_tieBehavior : TieBehavior;
  ar_proxyPolicy : ProxyPolicy;
  ar_closeMode : CloseMode
}.

Record CertificateElectorateEntry := MkElector {
  el_memberId : jsstr;
  el_membershipVersionId : jsstr;
  el_isChair : bool;
  el_votingWeight : jsstr;
  el_eligibilitySha256 : jsstr
}.

Inductive DispositionEffect := superseded | invalidated_by_recusal | invalidated_by_vote_replacement.

Record CertificateBallotDisposition := MkDisposition {
  bd_id : jsstr;
  bd_effect : DispositionEffect;
  bd_supersedingBallotId : option jsstr;
  bd_replacementVoteId : option jsstr;
  bd_auditEventId : option jsstr;
  bd_createdAt : jsstr
}.

Record CertificateBallotEntry := MkBallotEntry {
  ba_id : jsstr;
  ba_principalMemberId : jsstr;
  ba_casterMemberId : jsstr;
  ba_choice : BallotChoice;
  ba_statementSha256 : option jsstr;
  ba_votingWeight : jsstr;
  ba_source : BallotSource;
  ba_proxyGrantId : option jsstr;
  ba_consentRecordId : jsstr;
  ba_consentRecordSha256 : jsstr;
  ba_castAt : jsstr;
  ba_disposition : option CertificateBallotDisposition
}.

Inductive RevocationEffect := effect_revoked | effect_expired | effect_superseded.

Record CertificateProxyRevocation := MkRevocation {
  pr_id : jsstr;
  pr_effect : RevocationEffect;
  pr_consentRecordId : option jsstr;
  pr_consentRecordSha256 : option jsstr;
  pr_revokedAt : jsstr
}.

(** The policies a proxy can have been granted under. *)
Inductive GrantPolicy := principal_supersedes_proxy | first_ballot_final.

Record CertificateProxyEntry := MkProxyEntry {
  px_id : jsstr;
  px_principalMemberId : jsstr;
  px_holderMemberId : jsstr;
  px_policy : GrantPolicy;
  px_consentRecordId : jsstr;
  px_consentRecordSha256 : jsstr;
  px_grantedAt : jsstr;
  px_expiresAt : option jsstr;
  px_revocation : option CertificateProxyRevocation
}.

Inductive ExclusionState := excluded | lifted.

Record CertificateExclusionEntry := MkExclusion {
  ex_id : jsstr;
  ex_memberId : jsstr;
  ex_version : Z;
  ex_state : ExclusionState;
  ex_reasonSha256 : jsstr;
  ex_actorMemberId : jsstr;
  ex_consentRecordId : jsstr;
  ex_consentRecordSha256 : jsstr;
  ex_effectiveAt : jsstr
}.

Record CanonicalVoteTally := MkCanonicalTally {
  ta_eligibleWeight : jsstr;
  ta_participatingWeight : jsstr;
  ta_yesWeight : jsstr;
  ta_noWeight : jsstr;
  ta_abstainWeight : jsstr;
  ta_quorumMet : bool;
  ta_approvalMet : bool;
  ta_outcome : VoteOutcome
}.

Record CertificateVote := MkVote {
  vo_id : jsstr;
  vo_title : jsstr;
  vo_resolutionVersionId : jsstr;
  vo_resolutionVersion : Z;
  vo_resolutionText : jsstr;
  vo_resolutionSha256 : jsstr;
  vo_decisionPackageId : jsstr;
  vo_decisionPackageVersion : Z;
  vo_decisionPackageSha256 : jsstr;
  vo_closeMode : CloseMode;
  vo_deadlineAt : jsstr
}.

Record CertificateGovernance := MkGovernance {
  go_governanceProfileId : jsstr;
  go_governanceProfileSha256 : jsstr;
  go_rulesetId : jsstr;
  go_rulesetSha256 : jsstr;
  go_matterEvaluationId : jsstr;
  go_matterEvaluationResultSha256 : jsstr;
  go_selectedRulesetRuleId : jsstr;
  go_selectedRulesetRuleSha256 : jsstr;
  go_ruleOverrideId : option jsstr;
  go_ruleOverrideSha256 : option jsstr;
  go_approvalRule : CertificateApprovalRule
}.

Record CertificateClose := MkClose {
  cl_actorMemberId : option jsstr;
  cl_consentRecordId : option jsstr;
  cl_consentRecordSha256 : option jsstr;
  cl_clockSampleId : jsstr;
  cl_measuredAt : jsstr;
  cl_driftMicroseconds : jsstr;
  cl_validUntil : jsstr
}.

Record VoteCertificatePayload := MkCertificate {
  certificateId : jsstr;
  publicId : jsstr;
  outcomeId : jsstr;
  ce_instanceId : jsstr;
  ce_organizationId : jsstr;
  ce_boardId : jsstr;
  ce_vote : CertificateVote;
  submissionManifestSha256 : jsstr;
  documentManifestSha256 : jsstr;
  questionCutoffSha256 : jsstr;
  governance : CertificateGovernance;
  electorateSha256 : jsstr;
  electorate : list CertificateElectorateEntry;
  exclusions : list CertificateExclusionEntry;
  proxies : list CertificateProxyEntry;
  ballots : list CertificateBallotEntry;
  consentSetSha256 : jsstr;
  tally : CanonicalVoteTally;
  tallySha256 : jsstr;
  ce_outcome : VoteOutcome;
  close : CertificateClose;
  closingAuditEventId : jsstr;
  closingAuditSequence : jsstr;
  closingAuditHash : jsstr;
  ce_preparedAt : jsstr;
  ce_keyId : jsstr;
  ce_signingKeyId : jsstr
}.

#[export] Instance VoteOutcome_eq : EqDecision VoteOutcome.
Proof. solve_decision. Defined.
#[export] Instance CloseMode_eq : EqDecision CloseMode.
Proof. solve_decision. Defined.
#[export] Instance ProxyPolicy_eq : EqDecision ProxyPolicy.
Proof. solve_decision. Defined.

(** ** Member schemas *)

Definition PositiveDecimalSchema (s : jsstr) : bool := is_pos_dec s.
Definition NonnegativeDecimalSchema (s : jsstr) : bool := is_nat_dec s.
Definition PublicIdSchema (s : jsstr) : bool := is_some (decodeCanonicalBase64Url s 32).

Definition RationalSchema (f : GovernanceFraction) : bool :=
  NonnegativeDecimalSchema (numerator_text f) && PositiveDecimalSchema (denominator_text f).

Definition CertificateApprovalRuleSchema (r : CertificateApprovalRule) : bool :=
  is_uuid_v7 (ar_id r) && is_hex64 (ar_canonicalSha256 r) && RationalSchema (ar_approval r)
  && RationalSchema (ar_quorum r).

Definition CertificateElectorateEntrySchema (e : CertificateElectorateEntry) : bool :=
  is_uuid_v7 (el_memberId e) && is_uuid_v7 (el_membershipVersionId e)
  && PositiveDecimalSchema (el_votingWeight e) && is_hex64 (el_eligibilitySha256 e).

Definition CertificateBallotDispositionSchema (d : CertificateBallotDisposition) : bool :=
  is_uuid_v7 (bd_id d) && opt_all is_uuid_v7 (bd_supersedingBallotId d)
  && opt_all is_uuid_v7 (bd_replacementVoteId d) && opt_all is_uuid_v7 (bd_auditEventId d)
  && is_rfc3339_utc (bd_createdAt d).

(** The refinement of a ballot: an own ballot is cast by its principal and
    without a proxy, a proxy ballot by someone else and with one. *)
Definition ballot_attributed (b : CertificateBallotEntry) : bool :=
  match ba_source b with
  | own => bool_decide (ba_principalMemberId b = ba_casterMemberId b) && negb (is_some (ba_proxyGrantId b))
  | proxy => negb (bool_decide (ba_principalMemberId b = ba_casterMemberId b)) && is_some (ba_proxyGrantId b)
  end.

Definition CertificateBallotEntrySchema (b : CertificateBallotEntry) : bool :=
  is_uuid_v7 (ba_id b) && is_uuid_v7 (ba_principalMemberId b) && is_uuid_v7 (ba_casterMemberId b)
  && opt_all is_hex64 (ba_statementSha256 b) && PositiveDecimalSchema (ba_votingWeight b)
  && opt_all is_uuid_v7 (ba_proxyGrantId b) && is_uuid_v7 (ba_consentRecordId b)
  && is_hex64 (ba_consentRecordSha256 b) && is_rfc3339_utc (ba_castAt b)
  && opt_all CertificateBallotDispositionSchema (ba_disposition b) && ballot_attributed b.

Definition CertificateProxyRevocationSchema (r : CertificateProxyRevocation) : bool :=
  is_uuid_v7 (pr_id r) && opt_all is_uuid_v7 (pr_consentRecordId r)
  && opt_all is_hex64 (pr_consentRecordSha256 r) && is_rfc3339_utc (pr_revokedAt r)
  && Bool.eqb (is_some (pr_consentRecordId r)) (is_some (pr_consentRecordSha256 r)).

Definition CertificateProxyEntrySchema (p : CertificateProxyEntry) : bool :=
  is_uuid_v7 (px_id p) && is_uuid_v7 (px_principalMemberId p) && is_uuid_v7 (px_holderMemberId p)
  && is_uuid_v7 (px_consentRecordId p) && is_hex64 (px_consentRecordSha256 p)
  && is_rfc3339_utc (px_grantedAt p) && opt_all is_rfc3339_utc (px_expiresAt p)
  && opt_all CertificateProxyRevocationSchema (px_revocation p)
  && negb (bool_decide (px_principalMemberId p = px_holderMemberId p)).

Definition CertificateExclusionEntrySchema (e : CertificateExclusionEntry) : bool :=
  is_uuid_v7 (ex_id e) && is_uuid_v7 (ex_memberId e) && is_safe_positive (ex_version e)
  && is_hex64 (ex_reasonSha256 e) && is_uuid_v7 (ex_actorMemberId e) && is_uuid_v7 (ex_consentRecordId e)
  && is_hex64 (ex_consentRecordSha256 e) && is_rfc3339_utc (ex_effectiveAt e).

Definition CanonicalVoteTallySchema (t : CanonicalVoteTally) : bool :=
  NonnegativeDecimalSchema (ta_eligibleWeight t) && NonnegativeDecimalSchema (ta_participatingWeight t)
  && NonnegativeDecimalSchema (ta_yesWeight t) && NonnegativeDecimalSchema (ta_noWeight t)
  && NonnegativeDecimalSchema (ta_abstainWeight t).

Definition vote_schema (v : CertificateVote) : bool :=
  is_uuid_v7 (vo_id v) && in_range 1 512 (js_length (vo_title v)) && is_uuid_v7 (vo_resolutionVersionId v)
  && is_safe_positive (vo_resolutionVersion v) && in_range 1 1048576 (js_length (vo_resolutionText v))
  && is_hex64 (vo_resolutionSha256 v) && is_uuid_v7 (vo_decisionPackageId v)
  && is_safe_positive (vo_decisionPackageVersion v) && is_hex64 (vo_decisionPackageSha256 v)
  && is_rfc3339_utc (vo_deadlineAt v).

Definition governance_schema (g : CertificateGovernance) : bool :=
  is_uuid_v7 (go_governanceProfileId g) && is_hex64 (go_governanceProfileSha256 g)
  && is_uuid_v7 (go_rulesetId g) && is_hex64 (go_rulesetSha256 g) && is_uuid_v7 (go_matterEvaluationId g)
  && is_hex64 (go_matterEvaluationResultSha256 g) && is_uuid_v7 (go_selectedRulesetRuleId g)
  && is_hex64 (go_selectedRulesetRuleSha256 g) && opt_all is_uuid_v7 (go_ruleOverrideId g)
  && opt_all is_hex64 (go_ruleOverrideSha256 g) && CertificateApprovalRuleSchema (go_approvalRule g).

(** A canonical integer, possibly with a minus sign. *)
Definition signed_decimal (s : jsstr) : bool :=
  match s with
  | c :: t => is_nat_dec s || ((c =? 45) && is_nat_dec t)
  | [] => false
  end.

Definition close_schema (c : CertificateClose) : bool :=
  opt_all is_uuid_v7 (cl_actorMemberId c) && opt_all is_uuid_v7 (cl_consentRecordId c)
  && opt_all is_hex64 (cl_consentRecordSha256 c) && is_uuid_v7 (cl_clockSampleId c)
  && is_rfc3339_utc (cl_measuredAt c) && signed_decimal (cl_driftMicroseconds c)
  && is_rfc3339_utc (cl_validUntil c).

(** [array.min(lo).max(hi)] with items of a schema. *)
Definition array_schema {A} (lo hi : Z) (item : A -> bool) (l : list A) : bool :=
  in_range lo hi (Z.of_nat (length l)) && forallb item l.

Definition certificate_members_ok (p : VoteCertificatePayload) : bool :=
  is_uuid_v7 (certificateId p) && PublicIdSchema (publicId p) && is_uuid_v7 (outcomeId p)
  && is_uuid_v7 (ce_instanceId p) && is_uuid_v7 (ce_organizationId p) && is_uuid_v7 (ce_boardId p)
  && vote_schema (ce_vote p)
  && is_hex64 (submissionManifestSha256 p) && is_hex64 (documentManifestSha256 p)
  && is_hex64 (questionCutoffSha256 p) && governance_schema (governance p)
  && is_hex64 (electorateSha256 p)
  && array_schema 1 10000 CertificateElectorateEntrySchema (electorate p)
  && array_schema 0 100000 CertificateExclusionEntrySchema (exclusions p)
  && array_schema 0 10000 CertificateProxyEntrySchema (proxies p)
  && array_schema 0 100000 CertificateBallotEntrySchema (ballots p)
  && is_hex64 (consentSetSha256 p) && CanonicalVoteTallySchema (tally p) && is_hex64 (tallySha256 p)
  && close_schema (close p) && is_uuid_v7 (closingAuditEventId p)
  && PositiveDecimalSchema (closingAuditSequence p) && is_hex64 (closingAuditHash p)
  && is_rfc3339_utc (ce_preparedAt p) && Kid (ce_keyId p) && is_uuid_v7 (ce_signingKeyId p).

(** ** Cross checks *)

(** [orderedUnique]: whether it adds no issue. *)
Fixpoint adjacent_ordered (keys : list jsstr) : bool :=
  match keys with
  | a :: (b :: _) as rest => negb (cmp_units b a <=? 0) && adjacent_ordered rest
  | _ => true
  end.

Definition orderedUnique {A} (values : list A) (key : A -> jsstr) : bool :=
  let keys := map key values in
  all_distinct keys && adjacent_ordered keys.

Definition exclusion_key (e : CertificateExclusionEntry) : jsstr :=
  ex_memberId e ++ [0] ++ padStart 10 48 (dec (ex_version e)) ++ [0] ++ ex_id e.
Definition ballot_key (b : CertificateBallotEntry) : jsstr :=
  ba_principalMemberId b ++ [0] ++ ba_castAt b ++ [0] ++ ba_id b.

Definition is_proxy (b : CertificateBallotEntry) : bool := bool_decide (ba_source b = proxy).

(** The refinement, given the digest of the tally. *)
Definition certificate_consistent (p : VoteCertificatePayload) (tally_digest : jsstr) : bool :=
  let rule := go_approvalRule (governance p) in
  let manual := bool_decide (vo_closeMode (ce_vote p) = secretariat_confirmed) in
  negb (bool_decide (ar_proxyPolicy rule = proxy_forbidden)
        && (negb (Nat.eqb (length (proxies p)) 0) || existsb is_proxy (ballots p)))
  && negb (bool_decide (vo_id (ce_vote p) = certificateId p))
  && bool_decide (vo_closeMode (ce_vote p) = ar_closeMode rule)
  && bool_decide (ce_outcome p = ta_outcome (tally p))
  && safeHashEqual (tallySha256 p) tally_digest
  && Bool.eqb (is_some (go_ruleOverrideId (governance p))) (is_some (go_ruleOverrideSha256 (governance p)))
  && Bool.eqb manual (is_some (cl_actorMemberId (close p)))
  && Bool.eqb manual (is_some (cl_consentRecordId (close p)))
  && Bool.eqb manual (is_some (cl_consentRecordSha256 (close p)))
  && (length (List.filter el_isChair (electorate p)) <=? 1)%nat
  && orderedUnique (electorate p) el_memberId
  && orderedUnique (exclusions p) exclusion_key
  && orderedUnique (proxies p) px_id
  && orderedUnique (ballots p) ballot_key.

(** ** As JSON *)

Definition approval_rule_json (r : CertificateApprovalRule) : json :=
  JObj [str "id" (ar_id r); str "canonicalSha256" (ar_canonicalSha256 r);
        (js "approval", fraction_json (ar_approval r)); (js "quorum", fraction_json (ar_quorum r));
        str "approvalDenominator" (denominator_name (ar_approvalDenominator r));
        bool_member "abstentionsCountForQuorum" (ar_abstentionsCountForQuorum r);
        str "tieBehavior" (tie_text (ar_tieBehavior r)); str "proxyPolicy" (proxy_text (ar_proxyPolicy r));
        str "closeMode" (close_text (ar_closeMode r))].

Definition elector_json (e : CertificateElectorateEntry) : json :=
  JObj [str "memberId" (el_memberId e); str "membershipVersionId" (el_membershipVersionId e);
        str "seatRole" (js "voting_member"); bool_member "isChair" (el_isChair e);
        str "votingWeight" (el_votingWeight e); str "eligibilitySha256" (el_eligibilitySha256 e)].

Definition effect_text (e : DispositionEffect) : jsstr :=
  match e with
  | superseded => js "superseded"
  | invalidated_by_recusal => js "invalidated_by_recusal"
  | invalidated_by_vote_replacement => js "invalidated_by_vote_replacement"
  end.

Definition disposition_json (d : CertificateBallotDisposition) : json :=
  JObj [str "id" (bd_id d); str "effect" (effect_text (bd_effect d));
        nullable "supersedingBallotId" (bd_supersedingBallotId d);
        nullable "replacementVoteId" (bd_replacementVoteId d);
        nullable "auditEventId" (bd_auditEventId d); str "createdAt" (bd_createdAt d)].

Definition vote_choice_text (c : BallotChoice) : jsstr :=
  match c with yes => js "yes" | no => js "no" | abstain => js "abstain" end.
Definition ballot_source_text (s : BallotSource) : jsstr :=
  match s with own => js "own" | proxy => js "proxy" end.

Definition ballot_json (b : CertificateBallotEntry) : json :=
  JObj [str "id" (ba_id b); str "principalMemberId" (ba_principalMemberId b);
        str "casterMemberId" (ba_casterMemberId b); str "choice" (vote_choice_text (ba_choice b));
        nullable "statementSha256" (ba_statementSha256 b); str "votingWeight" (ba_votingWeight b);
        str "source" (ballot_source_text (ba_source b)); nullable "proxyGrantId" (ba_proxyGrantId b);
        str "consentRecordId" (ba_consentRecordId b);
        str "consentRecordSha256" (ba_consentRecordSha256 b); str "castAt" (ba_castAt b);
        (js "disposition", jopt disposition_json (ba_disposition b))].

Definition revocation_text (e : RevocationEffect) : jsstr :=
  match e with
  | effect_revoked => js "revoked" | effect_expired => js "expired" | effect_superseded => js "superseded"
  end.

Definition revocation_json (r : CertificateProxyRevocation) : json :=
  JObj [str "id" (pr_id r); str "effect" (revocation_text (pr_effect r));
        nullable "consentRecordId" (pr_consentRecordId r);
        nullable "consentRecordSha256" (pr_consentRecordSha256 r); str "revokedAt" (pr_revokedAt r)].

Definition grant_policy_text (p : GrantPolicy) : jsstr :=
  match p with
  | principal_supersedes_proxy => js "principal_supersedes_proxy"
  | first_ballot_final => js "first_ballot_final"
  end.

Definition proxy_json (p : CertificateProxyEntry) : json :=
  JObj [str "id" (px_id p); str "principalMemberId" (px_principalMemberId p);
        str "holderMemberId" (px_holderMemberId p); str "policy" (grant_policy_text (px_policy p));
        str "consentRecordId" (px_consentRecordId p);
        str "consentRecordSha256" (px_consentRecordSha256 p); str "grantedAt" (px_grantedAt p);
        nullable "expiresAt" (px_expiresAt p); (js "revocation", jopt revocation_json (px_revocation p))].

Definition exclusion_state_text (s : ExclusionState) : jsstr :=
  match s with excluded => js "excluded" | lifted => js "lifted" end.

Definition exclusion_json (e : CertificateExclusionEntry) : json :=
  JObj [str "id" (ex_id e); str "memberId" (ex_memberId e); int_member "version" (ex_version e);
        str "state" (exclusion_state_text (ex_state e)); str "reasonSha256" (ex_reasonSha256 e);
        str "actorMemberId" (ex_actorMemberId e); str "consentRecordId" (ex_consentRecordId e);
        str "consentRecordSha256" (ex_consentRecordSha256 e); str "effectiveAt" (ex_effectiveAt e)].

Definition tally_json (t : CanonicalVoteTally) : json :=
  JObj [str "schemaVersion" (js "boardagent.vote-tally.v1"); str "eligibleWeight" (ta_eligibleWeight t);
        str "participatingWeight" (ta_participatingWeight t); str "yesWeight" (ta_yesWeight t);
        str "noWeight" (ta_noWeight t); str "abstainWeight" (ta_abstainWeight t);
        bool_member "quorumMet" (ta_quorumMet t); bool_member "approvalMet" (ta_approvalMet t);
        str "outcome" (outcome_text (ta_outcome t))].

Definition vote_json (v : CertificateVote) : json :=
  JObj [str "id" (vo_id v); str "title" (vo_title v);
        str "resolutionVersionId" (vo_resolutionVersionId v);
        int_member "resolutionVersion" (vo_resolutionVersion v);
        str "resolutionText" (vo_resolutionText v); str "resolutionSha256" (vo_resolutionSha256 v);
        str "decisionPackageId" (vo_decisionPackageId v);
        int_member "decisionPackageVersion" (vo_decisionPackageVersion v);
        str "decisionPackageSha256" (vo_decisionPackageSha256 v);
        str "closeMode" (close_text (vo_closeMode v)); str "deadlineAt" (vo_deadlineAt v)].

Definition governance_json (g : CertificateGovernance) : json :=
  JObj [str "governanceProfileId" (go_governanceProfileId g);
        str "governanceProfileSha256" (go_governanceProfileSha256 g);
        str "rulesetId" (go_rulesetId g); str "rulesetSha256" (go_rulesetSha256 g);
        str "matterEvaluationId" (go_matterEvaluationId g);
        str "matterEvaluationResultSha256" (go_matterEvaluationResultSha256 g);
        str "selectedRulesetRuleId" (go_selectedRulesetRuleId g);
        str "selectedRulesetRuleSha256" (go_selectedRulesetRuleSha256 g);
        nullable "ruleOverrideId" (go_ruleOverrideId g);
        nullable "ruleOverrideSha256" (go_ruleOverrideSha256 g);
        (js "approvalRule", approval_rule_json (go_approvalRule g))].

Definition evidence_json (p : VoteCertificatePayload) : json :=
  JObj [str "submissionManifestSha256" (submissionManifestSha256 p);
        str "documentManifestSha256" (documentManifestSha256 p);
        str "questionCutoffSha256" (questionCutoffSha256 p)].

Definition close_json (c : CertificateClose) : json :=
  JObj [nullable "actorMemberId" (cl_actorMemberId c); nullable "consentRecordId" (cl_consentRecordId c);
        nullable "consentRecordSha256" (cl_consentRecordSha256 c);
        str "clockSampleId" (cl_clockSampleId c); str "measuredAt" (cl_measuredAt c);
        str "driftMicroseconds" (cl_driftMicroseconds c); str "validUntil" (cl_validUntil c)].

Definition certificate_json (p : VoteCertificatePayload) : json :=
  JObj [str "schema" (js "boardagent.vote-certificate.v1"); str "certificateId" (certificateId p);
        str "publicId" (publicId p); str "outcomeId" (outcomeId p); str "instanceId" (ce_instanceId p);
        str "organizationId" (ce_organizationId p); str "boardId" (ce_boardId p);
        (js "vote", vote_json (ce_vote p)); (js "packageEvidence", evidence_json p);
        (js "governance", governance_json (governance p)); str "electorateSha256" (electorateSha256 p);
        (js "electorate", JArr (map elector_json (electorate p)));
        (js "exclusions", JArr (map exclusion_json (exclusions p)));
        (js "proxies", JArr (map proxy_json (proxies p)));
        (js "ballots", JArr (map ballot_json (ballots p)));
        str "consentSetSha256" (consentSetSha256 p); (js "tally", tally_json (tally p));
        str "tallySha256" (tallySha256 p); str "outcome" (outcome_text (ce_outcome p));
        (js "close", close_json (close p)); str "closingAuditEventId" (closingAuditEventId p);
        str "closingAuditSequence" (closingAuditSequence p); str "closingAuditHash" (closingAuditHash p);
        str "preparedAt" (ce_preparedAt p); str "keyId" (ce_keyId p);
        str "signingKeyId" (ce_signingKeyId p)].

(** ** Certificates *)

Record VoteCertificate := MkVoteCertificate {
  vc_payload : VoteCertificatePayload;
  payloadSha256 : jsstr;
  vc_signatureBase64Url : jsstr
}.

Section certificates.
Context `{Platform}.

(** The refinement runs although members may have failed, so the digest it
    takes of the tally can throw in either case. *)
Definition VoteCertificatePayloadSchema (p : VoteCertificatePayload) : result VoteCertificatePayload :=
  digest ← canonicalSha256 (tally_json (tally p));
  if certificate_members_ok p && certificate_consistent p digest then Ok p
  else Throw (ZodError "VoteCertificatePayload").

(** [safeParse]: schema errors are an answer, exceptions are not. *)
Definition safeParse {A} (r : result A) : result (option A) :=
  match r with
  | Ok a => Ok (Some a)
  | Throw (ZodError _) => Ok None
  | Throw e => Throw e
  end.

Definition certificatePublicIdBytes (id : jsstr) : result (list Z) :=
  if PublicIdSchema id
  then match decodeCanonicalBase64Url id 32 with
       | Some bytes => Ok bytes
       | None => Throw (ZodError "PublicId")
       end
  else Throw (ZodError "PublicId").

Definition certificatePublicIdSha256 (id : jsstr) : result jsstr :=
  sha256HexBytes <$> certificatePublicIdBytes id.

Definition canonicalVoteCertificatePayload (p : VoteCertificatePayload) : result jsstr :=
  v ← VoteCertificatePayloadSchema p; canonicalJson (certificate_json v).

Definition issueVoteCertificate `{!Signatures} (input : VoteCertificatePayload) (key : PrivateKey)
    : result VoteCertificate :=
  payload ← VoteCertificatePayloadSchema input;
  bytes ← canonicalVoteCertificatePayload payload;
  hash ← canonicalSha256 (certificate_json payload);
  signature ← sign key (utf8_encode bytes);
  Ok (MkVoteCertificate payload hash (b64url_encode signature)).

Definition verifyVoteCertificate `{!Signatures} (certificate : VoteCertificate) (trustedKey : PublicKey)
    : result bool :=
  parsed ← safeParse (VoteCertificatePayloadSchema (vc_payload certificate));
  match parsed with
  | None => Ok false
  | Some data =>
      match decodeCanonicalBase64Url (vc_signatureBase64Url certificate) 64 with
      | None => Ok false
      | Some signature =>
          hash ← canonicalSha256 (certificate_json data);
          if negb (safeHashEqual (payloadSha256 certificate) hash) then Ok false else
          bytes ← canonicalVoteCertificatePayload data;
          verify trustedKey (utf8_encode bytes) signature
      end
  end.
End certificates.

(** ** The payload as a signed format *)

Lemma disposition_plain d : json_plain (disposition_json d) = true.
Proof. obj_plain. Qed.
Lemma ballot_plain b : json_plain (ballot_json b) = true.
Proof. obj_plain. apply jopt_plain, disposition_plain. Qed.
Lemma revocation_plain r : json_plain (revocation_json r) = true.
Proof. obj_plain. Qed.
Lemma proxy_plain p : json_plain (proxy_json p) = true.
Proof. obj_plain. apply jopt_plain, revocation_plain. Qed.
Lemma exclusion_plain e : CertificateExclusionEntrySchema e = true -> json_plain (exclusion_json e) = true.
Proof. unfold CertificateExclusionEntrySchema. intros. boolify. obj_plain. by apply safe_positive. Qed.
Lemma elector_plain e : json_plain (elector_json e) = true.
Proof. obj_plain. Qed.
Lemma vote_plain v : vote_schema v = true -> json_plain (vote_json v) = true.
Proof. unfold vote_schema. intros. boolify. obj_plain; by apply safe_positive. Qed.
Lemma approval_rule_plain r : json_plain (approval_rule_json r) = true.
Proof. obj_plain; reflexivity. Qed.
Lemma governance_plain g : json_plain (governance_json g) = true.
Proof. obj_plain. apply approval_rule_plain. Qed.
Lemma tally_plain t : json_plain (tally_json t) = true.
Proof. obj_plain. Qed.
Lemma close_plain c : json_plain (close_json c) = true.
Proof. obj_plain. Qed.
Lemma evidence_plain p : json_plain (evidence_json p) = true.
Proof. obj_plain. Qed.

Lemma certificate_plain p : certificate_members_ok p = true -> json_plain (certificate_json p) = true.
Proof.
  intros Hp. unfold certificate_members_ok in Hp. boolify.
  obj_plain.
  - by apply vote_plain.
  - apply evidence_plain.
  - apply governance_plain.
  - apply arr_plain. intros e _. apply elector_plain.
  - apply arr_plain. intros e He. apply exclusion_plain.
    match goal with Hx : array_schema 0 100000 CertificateExclusionEntrySchema _ = true |- _ =>
      apply andb_true_iff in Hx as [_ Hx]; rewrite forallb_forall in Hx; auto end.
  - apply arr_plain. intros e _. apply proxy_plain.
  - apply arr_plain. intros e _. apply ballot_plain.
  - apply tally_plain.
  - apply close_plain.
Qed.

Lemma certificate_texts_inj :
  (forall a b, effect_text a = effect_text b -> a = b) /\
  (forall a b, vote_choice_text a = vote_choice_text b -> a = b) /\
  (forall a b, ballot_source_text a = ballot_source_text b -> a = b) /\
  (forall a b, revocation_text a = revocation_text b -> a = b) /\
  (forall a b, grant_policy_text a = grant_policy_text b -> a = b) /\
  (forall a b, exclusion_state_text a = exclusion_state_text b -> a = b) /\
  (forall a b, outcome_text a = outcome_text b -> a = b).
Proof. split_and!; intros [] [] E; try reflexivity; vm_compute in E; discriminate E. Qed.

(** Reads the enums of equal literals back. *)
Ltac read_enums :=
  destruct certificate_texts_inj as (I1 & I2 & I3 & I4 & I5 & I6 & I7);
  destruct enum_texts_inj as (J1 & J2 & J3 & J4 & J5);
  repeat match goal with
  | F : effect_text _ = _ |- _ => apply I1 in F
  | F : vote_choice_text _ = _ |- _ => apply I2 in F
  | F : ballot_source_text _ = _ |- _ => apply I3 in F
  | F : revocation_text _ = _ |- _ => apply I4 in F
  | F : grant_policy_text _ = _ |- _ => apply I5 in F
  | F : exclusion_state_text _ = _ |- _ => apply I6 in F
  | F : outcome_text _ = _ |- _ => apply I7 in F
  | F : denominator_name _ = _ |- _ => apply J1 in F
  | F : tie_text _ = _ |- _ => apply J2 in F
  | F : proxy_text _ = _ |- _ => apply J3 in F
  | F : close_text _ = _ |- _ => apply J4 in F
  | F : sort_json (fraction_json _) = _ |- _ => apply fraction_json_inj in F
  end; clear I1 I2 I3 I4 I5 I6 I7 J1 J2 J3 J4 J5.

(** Two records with equal members are equal. *)
Ltac same_record a b :=
  destruct a, b; cbn in *; subst; reflexivity.

Lemma disposition_json_inj a b : sort_json (disposition_json a) = sort_json (disposition_json b) -> a = b.
Proof. intros E. unfold disposition_json in E. split_members E. read_enums. same_record a b. Qed.
Lemma revocation_json_inj a b : sort_json (revocation_json a) = sort_json (revocation_json b) -> a = b.
Proof. intros E. unfold revocation_json in E. split_members E. read_enums. same_record a b. Qed.
Lemma exclusion_json_inj a b : sort_json (exclusion_json a) = sort_json (exclusion_json b) -> a = b.
Proof.
  intros E. unfold exclusion_json, int_member in E. split_members E. read_enums. same_record a b.
Qed.
Lemma elector_json_inj a b : sort_json (elector_json a) = sort_json (elector_json b) -> a = b.
Proof. intros E. unfold elector_json, bool_member in E. split_members E. same_record a b. Qed.
Lemma vote_json_inj a b : sort_json (vote_json a) = sort_json (vote_json b) -> a = b.
Proof. intros E. unfold vote_json, int_member in E. split_members E. read_enums. same_record a b. Qed.
Lemma approval_rule_json_inj a b :
  sort_json (approval_rule_json a) = sort_json (approval_rule_json b) -> a = b.
Proof. intros E. unfold approval_rule_json, bool_member in E. split_members E. read_enums. same_record a b. Qed.
Lemma tally_json_inj a b : sort_json (tally_json a) = sort_json (tally_json b) -> a = b.
Proof. intros E. unfold tally_json, bool_member in E. split_members E. read_enums. same_record a b. Qed.
Lemma close_json_inj a b : sort_json (close_json a) = sort_json (close_json b) -> a = b.
Proof. intros E. unfold close_json in E. split_members E. same_record a b. Qed.

Lemma ballot_json_inj a b : sort_json (ballot_json a) = sort_json (ballot_json b) -> a = b.
Proof.
  intros E. unfold ballot_json in E. split_members E. read_enums.
  match goal with F : sort_json (jopt disposition_json _) = _ |- _ =>
    apply jopt_inj in F; [|by intros []|apply disposition_json_inj] end.
  same_record a b.
Qed.
Lemma proxy_json_inj a b : sort_json (proxy_json a) = sort_json (proxy_json b) -> a = b.
Proof.
  intros E. unfold proxy_json in E. split_members E. read_enums.
  match goal with F : sort_json (jopt revocation_json _) = _ |- _ =>
    apply jopt_inj in F; [|by intros []|apply revocation_json_inj] end.
  same_record a b.
Qed.
Lemma governance_json_inj a b : sort_json (governance_json a) = sort_json (governance_json b) -> a = b.
Proof.
  intros E. unfold governance_json in E. split_members E.
  match goal with F : sort_json (approval_rule_json _) = _ |- _ => apply approval_rule_json_inj in F end.
  same_record a b.
Qed.
Lemma evidence_json_inj a b : sort_json (evidence_json a) = sort_json (evidence_json b) ->
  submissionManifestSha256 a = submissionManifestSha256 b /\
  documentManifestSha256 a = documentManifestSha256 b /\ questionCutoffSha256 a = questionCutoffSha256 b.
Proof. intros E. unfold evidence_json in E. split_members E. done. Qed.

Lemma certificate_json_inj a b : sort_json (certificate_json a) = sort_json (certificate_json b) -> a = b.
Proof.
  intros E. unfold certificate_json in E. split_members E. read_enums.
  repeat match goal with
  | F : sort_json (vote_json _) = _ |- _ => apply vote_json_inj in F
  | F : sort_json (governance_json _) = _ |- _ => apply governance_json_inj in F
  | F : sort_json (evidence_json _) = _ |- _ => apply evidence_json_inj in F as (? & ? & ?)
  | F : sort_json (tally_json _) = _ |- _ => apply tally_json_inj in F
  | F : sort_json (close_json _) = _ |- _ => apply close_json_inj in F
  | F : sort_json (JArr (map elector_json _)) = _ |- _ =>
      apply sort_json_arr, (jstr_list_inj _ _ _ elector_json_inj) in F
  | F : sort_json (JArr (map exclusion_json _)) = _ |- _ =>
      apply sort_json_arr, (jstr_list_inj _ _ _ exclusion_json_inj) in F
  | F : sort_json (JArr (map proxy_json _)) = _ |- _ =>
      apply sort_json_arr, (jstr_list_inj _ _ _ proxy_json_inj) in F
  | F : sort_json (JArr (map ballot_json _)) = _ |- _ =>
      apply sort_json_arr, (jstr_list_inj _ _ _ ballot_json_inj) in F
  end.
  same_record a b.
Qed.

Section format.
Context `{Platform}.

Lemma certificate_schema_ok p q : VoteCertificatePayloadSchema p = Ok q ->
  q = p /\ certificate_members_ok p = true /\
  exists digest, canonicalSha256 (tally_json (tally p)) = Ok digest /\ certificate_consistent p digest = true.
Proof.
  unfold VoteCertificatePayloadSchema. intros (d & Hd & Hq)%bind_ok.
  destruct (certificate_members_ok p), (certificate_consistent p d) eqn:Ec; try discriminate Hq.
  injection Hq as <-. split_and!; [done..|]. by exists d.
Qed.
End format.

#[export] Instance certificate_format `{Platform} : Format VoteCertificatePayload.
Proof.
  refine {| payload_schema := VoteCertificatePayloadSchema; payload_json := certificate_json |}.
  - by intros a b (-> & _)%certificate_schema_ok.
  - intros a (_ & Hm & _)%certificate_schema_ok. by apply certificate_plain.
  - apply certificate_json_inj.
Defined.

(** ** Properties *)

Definition units_lt (a b : jsstr) : Prop := cmp_units a b < 0.

#[export] Instance units_lt_trans : Transitive units_lt.
Proof.
  intros a b c. unfold units_lt. intros Hab Hbc.
  pose proof (cmp_units_trans a b c ltac:(lia) ltac:(lia)) as Hac.
  destruct (Z.eq_dec (cmp_units a c) 0) as [E|]; [|lia]. apply cmp_units_eq in E as ->.
  rewrite (cmp_units_swap b c) in Hab. lia.
Qed.

(** [orderedUnique] accepts the strictly increasing lists of keys. *)
Lemma orderedUnique_spec {A} (l : list A) key :
  orderedUnique l key = true <-> StronglySorted units_lt (map key l).
Proof.
  unfold orderedUnique. generalize (map key l). clear. intros keys.
  assert (adjacent_ordered keys = true <-> StronglySorted units_lt keys) as Hs.
  { transitivity (Sorted units_lt keys); [|split; [apply (Sorted_StronglySorted _)|apply StronglySorted_Sorted]].
    induction keys as [|a keys IH]; [by split; [constructor|]|].
    destruct keys as [|b keys]; [by split; [repeat constructor|]|].
    change (adjacent_ordered (a :: b :: keys)) with (negb (cmp_units b a <=? 0) && adjacent_ordered (b :: keys)).
    rewrite andb_true_iff, negb_true_iff, Z.leb_gt, IH, (cmp_units_swap a b). split.
    - intros [Hab Hk]. constructor; [done|]. constructor. unfold units_lt. lia.
    - intros [Hk Hab]%Sorted_inv. inversion Hab as [|? ? Hlt]; subst. unfold units_lt in Hlt. split; [lia|done]. }
  rewrite andb_true_iff, Hs, all_distinct_spec. split; [by intros []|]. intros Hk. split; [|done].
  clear Hs. induction Hk as [|a keys Hk IH Ha]; [constructor|]. constructor; [|done].
  intros Hin. rewrite Forall_forall in Ha. specialize (Ha a Hin). unfold units_lt in Ha.
  rewrite cmp_units_refl in Ha. lia.
Qed.

Section properties.
Context `{Platform}.

(** What a certificate's cross checks guarantee. *)
Record coherent (p : VoteCertificatePayload) : Prop := {
  ce_outcome_tally : ce_outcome p = ta_outcome (tally p);
  ce_tally_digest : canonicalSha256 (tally_json (tally p)) = Ok (tallySha256 p);
  ce_distinct_ids : vo_id (ce_vote p) <> certificateId p;
  ce_close_mode : vo_closeMode (ce_vote p) = ar_closeMode (go_approvalRule (governance p));
  (** A person closed the vote exactly when the rule asks for one, and then
      their consent is cited. *)
  ce_close_consent : vo_closeMode (ce_vote p) = secretariat_confirmed <->
    is_Some (cl_actorMemberId (close p)) /\ is_Some (cl_consentRecordId (close p)) /\
    is_Some (cl_consentRecordSha256 (close p));
  ce_one_chair : (length (List.filter el_isChair (electorate p)) <= 1)%nat;
  ce_members : electorate p <> [] /\ StronglySorted units_lt (map el_memberId (electorate p));
  ce_proxies : StronglySorted units_lt (map px_id (proxies p)) /\
    Forall (fun x => px_principalMemberId x <> px_holderMemberId x) (proxies p);
  ce_ballots : StronglySorted units_lt (map ballot_key (ballots p)) /\
    Forall (fun b => match ba_source b with
      | own => ba_principalMemberId b = ba_casterMemberId b /\ ba_proxyGrantId b = None
      | proxy => ba_principalMemberId b <> ba_casterMemberId b /\ is_Some (ba_proxyGrantId b)
      end) (ballots p);
  ce_exclusions : StronglySorted units_lt (map exclusion_key (exclusions p));
  ce_no_proxies : ar_proxyPolicy (go_approvalRule (governance p)) = proxy_forbidden ->
    proxies p = [] /\ Forall (fun b => ba_source b = own) (ballots p)
}.

Lemma forallb_Forall {A} (f : A -> bool) (P : A -> Prop) l :
  (forall a, f a = true -> P a) -> forallb f l = true -> Forall P l.
Proof. intros Hf Hl. apply List.Forall_forall. intros a Ha. rewrite forallb_forall in Hl. auto. Qed.

Lemma is_some_iff {A} (o : option A) : is_some o = true <-> is_Some o.
Proof. destruct o; cbn; split; try done; by intros []. Qed.

Lemma eqb_iff b c : Bool.eqb b c = true <-> (b = true <-> c = true).
Proof. destruct b, c; cbn; naive_solver. Qed.

Lemma array_items {A} lo hi (item : A -> bool) l : array_schema lo hi item l = true ->
  lo <= Z.of_nat (length l) <= hi /\ forallb item l = true.
Proof. unfold array_schema. by intros [Hn%in_range_spec Hl]%andb_true_iff. Qed.

Lemma ballot_attribution b : CertificateBallotEntrySchema b = true ->
  match ba_source b with
  | own => ba_principalMemberId b = ba_casterMemberId b /\ ba_proxyGrantId b = None
  | proxy => ba_principalMemberId b <> ba_casterMemberId b /\ is_Some (ba_proxyGrantId b)
  end.
Proof.
  unfold CertificateBallotEntrySchema. intros [_ Hb]%andb_true_iff. unfold ballot_attributed in Hb.
  destruct (ba_source b); apply andb_true_iff in Hb as [H1 H2].
  - apply bool_decide_eq_true in H1. by destruct (ba_proxyGrantId b).
  - apply negb_true_iff, bool_decide_eq_false in H1. by apply is_some_iff in H2.
Qed.

Lemma certificate_coherent p : certificate_members_ok p = true ->
  (exists digest, canonicalSha256 (tally_json (tally p)) = Ok digest /\
     certificate_consistent p digest = true) -> coherent p.
Proof.
  intros Hm (digest & Hd & Hc). unfold certificate_members_ok in Hm. unfold certificate_consistent in Hc.
  boolify.
  repeat match goal with
  | Ha : array_schema _ _ _ _ = true |- _ => apply array_items in Ha as [? ?]
  | Hs : orderedUnique _ _ = true |- _ => apply orderedUnique_spec in Hs
  | He : Bool.eqb _ _ = true |- _ => rewrite eqb_iff, ?is_some_iff, ?bool_decide_eq_true in He
  end.
  split; try done; try tauto.
  - match goal with Hs : safeHashEqual _ _ = true |- _ => apply safeHashEqual_true in Hs as [_ ->] end. done.
  - by apply Nat.leb_le.
  - split; [|done]. intros E. rewrite E in *. cbn in *. lia.
  - split; [done|]. eapply forallb_Forall; [|eassumption]. intros x Hx.
    unfold CertificateProxyEntrySchema in Hx. apply andb_true_iff in Hx as [_ Hx].
    by apply negb_true_iff, bool_decide_eq_false in Hx.
  - split; [done|]. eapply forallb_Forall; [|eassumption]. apply ballot_attribution.
  - intros E. rewrite E in *.
    match goal with Hn : bool_decide _ && _ = false |- _ =>
      rewrite bool_decide_eq_true_2 in Hn by done; cbn [andb] in Hn;
      apply orb_false_iff in Hn as [Hn Hb] end.
    split; [by destruct (proxies p)|]. apply List.Forall_forall. intros b Hin.
    destruct (ba_source b) eqn:Es; [done|]. rewrite (proj2 (existsb_exists _ _)) in Hb; [done|].
    exists b. split; [done|]. unfold is_proxy. by rewrite Es.
Qed.

(** An accepted certificate payload is coherent: its outcome and digest
    are those of its tally, the closing consent is there exactly when the rule
    asks for a confirmation, at most one elector chairs, electors, proxies,
    ballots and exclusions are strictly ordered and so distinct, every ballot
    is attributed to its principal or to a proxy, nobody is their own proxy,
    and a rule that forbids proxies sees none. *)
Theorem accepted_certificate_coherent p q : VoteCertificatePayloadSchema p = Ok q -> q = p /\ coherent p.
Proof.
  intros (-> & Hm & Hc)%certificate_schema_ok. split; [done|]. by apply certificate_coherent.
Qed.

Lemma canonical_payload_bytes p s : VoteCertificatePayloadSchema p = Ok p ->
  canonicalVoteCertificatePayload p = Ok s -> signed_bytes p = Ok (utf8_encode s).
Proof.
  intros Hp Hs. unfold canonicalVoteCertificatePayload in Hs. rewrite Hp in Hs.
  cbn [mbind result_bind] in Hs. unfold signed_bytes. cbn [payload_json certificate_format]. by rewrite Hs.
Qed.

Lemma verify_certificate_true `{!Signatures} c k : verifyVoteCertificate c k = Ok true ->
  let p := vc_payload c in
  VoteCertificatePayloadSchema p = Ok p /\ canonicalSha256 (certificate_json p) = Ok (payloadSha256 c) /\
  exists bytes signature, signed_bytes p = Ok bytes /\ verify k bytes signature = Ok true /\
    length signature = 64%nat /\ b64url_encode signature = vc_signatureBase64Url c.
Proof.
  cbv zeta. unfold verifyVoteCertificate. intros (parsed & Hp & Hv)%bind_ok.
  destruct parsed as [data|]; [|done].
  destruct (VoteCertificatePayloadSchema (vc_payload c)) as [q|[]] eqn:Eq; try discriminate Hp.
  injection Hp as ->. pose proof (certificate_schema_ok _ _ Eq) as (-> & _).
  destruct (decodeCanonicalBase64Url _ 64) as [signature|] eqn:Es; [|done].
  apply decodeCanonical_some in Es as [Hl Ht].
  apply bind_ok in Hv as (hash & Hh & Hv).
  destruct (safeHashEqual (payloadSha256 c) hash) eqn:Eh; cbn [negb] in Hv; [|done].
  apply safeHashEqual_true in Eh as [_ ->].
  apply bind_ok in Hv as (s & Hs & Hv). apply (canonical_payload_bytes _ _ Eq) in Hs.
  split_and!; try done. exists (utf8_encode s), signature. split_and!; try done. lia.
Qed.

(** C28. Issued certificates verify, and a certificate that verifies is what it
    claims: its payload is accepted and coherent, its digest is the digest of
    the canonical payload, and its 64-byte signature, in canonical text, is
    over exactly the bytes of the canonical payload, which no other valid
    payload has. *)
Theorem certificate_issue_verify `{!Signatures} :
  (forall p k c, is_ed25519_private k = true -> issueVoteCertificate p k = Ok c ->
     vc_payload c = p /\ verifyVoteCertificate c (public_of k) = Ok true) /\
  (forall c k, verifyVoteCertificate c k = Ok true ->
     coherent (vc_payload c) /\ canonicalSha256 (certificate_json (vc_payload c)) = Ok (payloadSha256 c) /\
     exists text signature, canonicalJson (certificate_json (vc_payload c)) = Ok text /\
       verify k (utf8_encode text) signature = Ok true /\
       vc_signatureBase64Url c = b64url_encode signature /\ length signature = 64%nat /\
       forall other, VoteCertificatePayloadSchema other = Ok other ->
         canonicalJson (certificate_json other) = Ok text -> other = vc_payload c).
Proof.
  split.
  - intros p k c Hk (q & Hq & (s & Hs & (h & Hh & (sig & Hg & [= <-])%bind_ok)%bind_ok)%bind_ok)%bind_ok.
    pose proof (certificate_schema_ok _ _ Hq) as (-> & _). split; [done|].
    unfold verifyVoteCertificate. cbn [vc_payload vc_signatureBase64Url payloadSha256]. rewrite Hq.
    cbn [safeParse mbind result_bind]. rewrite decodeCanonical_encode;
      [|by eapply sign_bytes|by rewrite (sign_length k _ _ Hk Hg)].
    rewrite Hh. cbn [mbind result_bind]. rewrite safeHashEqual_refl by by eapply canonicalSha256_hex64.
    cbn [negb]. rewrite Hs. cbn [mbind result_bind]. by apply sign_verify.
  - intros c k (Hp & Hh & bytes & sig & Hb & Hv & Hl & Ht)%verify_certificate_true. split_and!; [|done|].
    + apply certificate_schema_ok in Hp as (_ & Hm & Hc). by apply certificate_coherent.
    + pose proof Hb as (text & Htext & [= <-])%bind_ok. exists text, sig. split_and!; try done. intros other Ho Hbo.
      apply (signed_bytes_inj other (vc_payload c) (utf8_encode text)); [done..| |done].
      unfold signed_bytes. cbn [payload_json certificate_format]. by rewrite Hbo.
Qed.

(** Public identifiers: an accepted identifier stands for 32 bytes, and two
    identifiers with the same digest are the same identifier, or their bytes
    are a SHA-256 collision. *)
Theorem public_id_binds a b h :
  certificatePublicIdSha256 a = Ok h -> certificatePublicIdSha256 b = Ok h ->
  exists x y, certificatePublicIdBytes a = Ok x /\ certificatePublicIdBytes b = Ok y /\
    length x = 32%nat /\ length y = 32%nat /\ (a = b \/ collision x y).
Proof.
  assert (forall i x, certificatePublicIdBytes i = Ok x -> length x = 32%nat /\ b64url_encode x = i) as Hi.
  { intros i x. unfold certificatePublicIdBytes. destruct (PublicIdSchema i); [|done].
    destruct (decodeCanonicalBase64Url i 32) as [y|] eqn:E; [|done]. intros [= <-].
    apply decodeCanonical_some in E as [? ?]. split; [lia|done]. }
  intros (x & Hx & ->)%fmap_ok (y & Hy & E)%fmap_ok. exists x, y.
  destruct (Hi a x Hx) as [Lx Tx], (Hi b y Hy) as [Ly Ty]. split_and!; try done.
  apply sha256HexBytes_eq in E as [->|Hc]; [left; congruence|by right].
Qed.
End properties.

(** ** A concrete certificate *)

Definition sample_uuid_n (n : string) : jsstr := js "01890000-0000-7000-8000-00000000000" ++ js n.

Definition sample_tally : CanonicalVoteTally :=
  MkCanonicalTally (js "3") (js "3") (js "2") (js "1") (js "0") true true approved.

Definition sample_half : GovernanceFraction := MkFraction (js "1") (js "2").

Definition sample_certificate : VoteCertificatePayload :=
  let id := sample_uuid_n "1" in
  let at_ := js "2026-01-01T00:00:00Z" in
  MkCertificate id (b64url_encode (replicate 32 7)) id id id id
    (MkVote (sample_uuid_n "2") (js "Budget") id 1 (js "Adopt the budget.") sample_hash id 1 sample_hash
       secretariat_confirmed at_)
    sample_hash sample_hash sample_hash
    (MkGovernance id sample_hash id sample_hash id sample_hash id sample_hash None None
       (MkApprovalRule id sample_hash sample_half sample_half participating true reject
          proxy_superseded_by_principal secretariat_confirmed))
    sample_hash
    [MkElector (sample_uuid_n "3") id true (js "2") sample_hash;
     MkElector (sample_uuid_n "4") id false (js "1") sample_hash]
    [MkExclusion id (sample_uuid_n "5") 1 excluded sample_hash id id sample_hash at_]
    [MkProxyEntry id (sample_uuid_n "4") (sample_uuid_n "3") principal_supersedes_proxy id sample_hash
       at_ None None]
    [MkBallotEntry id (sample_uuid_n "3") (sample_uuid_n "3") yes None (js "2") own None id sample_hash at_ None;
     MkBallotEntry id (sample_uuid_n "4") (sample_uuid_n "3") no None (js "1") proxy (Some id) id sample_hash
       at_ None]
    sample_hash sample_tally
    (catch (@canonicalSha256 plain_platform (tally_json sample_tally)) []) approved
    (MkClose (Some id) (Some id) (Some sample_hash) id at_ (js "-12") at_)
    id (js "41") sample_hash at_ (js "key-1") id.

Definition sample_issued : VoteCertificate :=
  catch (@issueVoteCertificate plain_platform toy_signatures sample_certificate tt)
        (MkVoteCertificate sample_certificate [] []).

Lemma accepted_certificate_coherent_witness : @coherent plain_platform sample_certificate.
Proof.
  apply (@accepted_certificate_coherent plain_platform sample_certificate sample_certificate).
  vm_compute. reflexivity.
Defined.

Lemma certificate_issue_verify_witness :
  vc_payload sample_issued = sample_certificate /\
  @verifyVoteCertificate plain_platform toy_signatures sample_issued tt = Ok true.
Proof.
  apply (proj1 (@certificate_issue_verify plain_platform toy_signatures) sample_certificate tt sample_issued).
  - reflexivity.
  - vm_compute. reflexivity.
Defined.

Lemma public_id_binds_witness :
  exists x, certificatePublicIdBytes (publicId sample_certificate) = Ok x /\ length x = 32%nat.
Proof.
  destruct (public_id_binds (publicId sample_certificate) (publicId sample_certificate)
    (catch (certificatePublicIdSha256 (publicId sample_certificate)) [])) as (x & _ & Hx & _ & Hl & _);
    [vm_compute; reflexivity..|]. by exists x.
Defined.
