(* ===== verification/OfflineCertificate.v ===== *)
(** * Offline verification of certificate bundles

    lib/audit/src/offline.ts, first part: trusted evidence keys, the bundle a
    certificate travels in, and its verification against keys that were handed
    over separately. The tally is recomputed with the code of Voting and the
    signature checked with that of Certificate. *)

From stdpp Require Import base numbers sorting strings list.
From Stdlib Require Import Lia.
From S2P Require Import Prelude JsString Encoding JsNumber Json JsonParse JsonCanon Schemas.
From S2P Require Import ValueObjects VotingConsent Voting GovernanceProfile KeyLifecycle Signing.
From S2P Require AuditEvent.
From S2P Require Import Certificate.

Local Open Scope Z_scope.

(** ** Keys *)

(** [z.record(z.string(), JsonValueSchema)] of an object's members. *)
Definition JsonRecordSchema (l : list (jsstr * json)) : bool :=
  forallb (fun '(_, v) => AuditEvent.JsonValueSchema v) l.

Record OfflineEvidenceKey := MkEvidenceKey {
  key_id : jsstr;
  kid : jsstr;
  public_jwk : list (jsstr * json)
}.

Definition OfflineEvidenceKeySchema (k : OfflineEvidenceKey) : bool :=
  is_uuid_v7 (key_id k) && Kid (kid k) && JsonRecordSchema (public_jwk k).

Definition TrustedEvidenceKeySet := list OfflineEvidenceKey.

Definition keyset_ok (keys : TrustedEvidenceKeySet) : bool :=
  in_range 1 1000 (Z.of_nat (length keys)) && forallb OfflineEvidenceKeySchema keys
  && all_distinct (map key_id keys) && all_distinct (map kid keys).

Definition TrustedEvidenceKeySetSchema (keys : TrustedEvidenceKeySet) : result TrustedEvidenceKeySet :=
  parse "TrustedEvidenceKeySet" keyset_ok keys.

(** [`${id}:${kid}`] *)
Definition key_index (id kid : jsstr) : jsstr := id ++ 58 :: kid.

Definition trustedEvidenceKey (keySet : TrustedEvidenceKeySet) (signingKeyId keyId : jsstr)
    : option OfflineEvidenceKey :=
  map_get (map_of (map (fun key => (key_index (key_id key) (kid key), key)) keySet))
    (key_index signingKeyId keyId).

(** ** Bundles *)

Record OfflineCertificateBundle := MkBundle {
  certificate_id : jsstr;
  vote_id : jsstr;
  outcome_id : jsstr;
  public_id : jsstr;
  canonical_payload : VoteCertificatePayload;
  payload_sha256 : jsstr;
  signature_base64url : jsstr;
  signing_key : OfflineEvidenceKey;
  issued_at : jsstr
}.

(** [/^[A-Za-z0-9_-]{43}$/u] *)
Definition public_id_text (s : jsstr) : bool :=
  class_len (fun c => is_lower c || is_upper c || is_digit c || (c =? 95) || (c =? 45)) 43 43 s.

Definition bundle_members_ok (b : OfflineCertificateBundle) : bool :=
  is_uuid_v7 (certificate_id b) && is_uuid_v7 (vote_id b) && is_uuid_v7 (outcome_id b)
  && public_id_text (public_id b) && is_hex64 (payload_sha256 b)
  && signature_text (signature_base64url b) && OfflineEvidenceKeySchema (signing_key b)
  && is_rfc3339_utc (issued_at b).

Definition identity_json (certificateId voteId outcomeId publicId : jsstr) (key : OfflineEvidenceKey) : json :=
  JObj [str "certificateId" certificateId; str "voteId" voteId; str "outcomeId" outcomeId;
        str "publicId" publicId; str "signingKeyId" (key_id key); str "keyId" (kid key);
        (js "publicJwk", JObj (public_jwk key))].

Definition bundleProjection (b : OfflineCertificateBundle) : json :=
  identity_json (certificate_id b) (vote_id b) (outcome_id b) (public_id b) (signing_key b).
Definition trustedProjection (p : VoteCertificatePayload) (trusted : OfflineEvidenceKey) : json :=
  identity_json (certificateId p) (vo_id (ce_vote p)) (outcomeId p) (publicId p) trusted.

(** The loop over the exclusions: the latest of each member, or the answer
    [false]. *)
Definition exclusion_body (seatWeights : list (jsstr * jsstr))
    (latest : list (jsstr * CertificateExclusionEntry)) (e : CertificateExclusionEntry)
    : option (list (jsstr * CertificateExclusionEntry)) :=
  if negb (map_has seatWeights (ex_memberId e)) then None else
  if match map_get latest (ex_memberId e) with
     | Some prior => ex_version e <=? ex_version prior
     | None => false
     end
  then None else Some (map_set latest (ex_memberId e) e).

Fixpoint exclusions_of (seatWeights : list (jsstr * jsstr))
    (latest : list (jsstr * CertificateExclusionEntry)) (l : list CertificateExclusionEntry)
    : option (list (jsstr * CertificateExclusionEntry)) :=
  match l with
  | [] => Some latest
  | e :: l' => exclusion_body seatWeights latest e ≫= fun latest' => exclusions_of seatWeights latest' l'
  end.

(** What is asked of each ballot before the tally. *)
Definition ballot_backed (seatWeights : list (jsstr * jsstr)) (proxies : list (jsstr * CertificateProxyEntry))
    (policy : ProxyPolicy) (b : CertificateBallotEntry) : bool :=
  bool_decide (map_get seatWeights (ba_principalMemberId b) = Some (ba_votingWeight b))
  && match ba_source b with
     | own => true
     | proxy =>
         match ba_proxyGrantId b ≫= map_get proxies with
         | Some x => bool_decide (px_principalMemberId x = ba_principalMemberId b)
             && bool_decide (px_holderMemberId x = ba_casterMemberId b)
             && bool_decide (grant_policy_text (px_policy x) = proxy_text policy)
         | None => false
         end
     end.

(** The arguments of the tally. *)
Definition certificate_seat (latest : list (jsstr * CertificateExclusionEntry)) (e : CertificateElectorateEntry)
    : ElectorSeat :=
  MkSeat (el_memberId e) voting_member (undec (el_votingWeight e)) true
    match map_get latest (el_memberId e) with
    | Some x => match ex_state x with excluded => true | lifted => false end
    | None => false
    end (el_isChair e).

Definition certificate_ballot (b : CertificateBallotEntry) : EffectiveBallot :=
  MkBallot (ba_principalMemberId b) (ba_casterMemberId b) (ba_choice b) (ba_source b).

Definition effective_ballots (p : VoteCertificatePayload) : list EffectiveBallot :=
  map certificate_ballot (List.filter (fun b => negb (is_some (ba_disposition b))) (ballots p)).

Definition certificate_rule (r : CertificateApprovalRule) : ApprovalRule :=
  MkRule (MkRational (fraction_numerator (ar_approval r)) (fraction_denominator (ar_approval r)))
    (MkRational (fraction_numerator (ar_quorum r)) (fraction_denominator (ar_quorum r)))
    (ar_approvalDenominator r) (ar_abstentionsCountForQuorum r) (ar_tieBehavior r).

Section bundles.
Context `{Platform}.

Definition OfflineCertificateBundleSchema (b : OfflineCertificateBundle) : result OfflineCertificateBundle :=
  VoteCertificatePayloadSchema (canonical_payload b) ≫= fun _ =>
  if bundle_members_ok b then Ok b else Throw (ZodError "OfflineCertificateBundle").

(** The statements of the last [try]. *)
Definition recheck `{!Signatures} (b : OfflineCertificateBundle) (trusted : OfflineEvidenceKey) : result bool :=
  let p := canonical_payload b in
  let seatWeights := map_of (map (fun e => (el_memberId e, el_votingWeight e)) (electorate p)) in
  let rule := go_approvalRule (governance p) in
  match exclusions_of seatWeights [] (exclusions p) with
  | None => Ok false
  | Some latest =>
      let proxies := map_of (map (fun x => (px_id x, x)) (proxies p)) in
      if negb (forallb (ballot_backed seatWeights proxies (ar_proxyPolicy rule)) (ballots p))
      then Ok false else
      t ← tallyVote (map (certificate_seat latest) (electorate p)) (effective_ballots p) (certificate_rule rule);
      recomputed ← canonicalJson (canonicalVoteTally t);
      claimed ← canonicalJson (tally_json (tally p));
      if bool_decide (recomputed <> claimed) then Ok false else
      key ← createPublicKeyJwk (JObj (public_jwk trusted));
      verifyVoteCertificate (MkVoteCertificate p (payload_sha256 b) (signature_base64url b)) key
  end.

(** The projections are encoded outside both [try] blocks. *)
Definition verifyOfflineCertificateBundle `{!Signatures} (bundle : OfflineCertificateBundle)
    (trustedKeys : TrustedEvidenceKeySet) : result bool :=
  match OfflineCertificateBundleSchema bundle, TrustedEvidenceKeySetSchema trustedKeys with
  | Ok bundle, Ok trustedKeys =>
      let p := canonical_payload bundle in
      match trustedEvidenceKey trustedKeys (ce_signingKeyId p) (ce_keyId p) with
      | None => Ok false
      | Some trusted =>
          bundled ← canonicalJson (bundleProjection bundle);
          expected ← canonicalJson (trustedProjection p trusted);
          if bool_decide (bundled <> expected) then Ok false
          else Ok (catch (recheck bundle trusted) false)
      end
  | _, _ => Ok false
  end.
End bundles.

(** ** Specification *)

(** The state the latest exclusion of a member leaves it in. *)
Definition latest_exclusion (l : list CertificateExclusionEntry) (m : jsstr) : option CertificateExclusionEntry :=
  last (List.filter (fun e => bool_decide (ex_memberId e = m)) l).

Definition excluded_now (p : VoteCertificatePayload) (m : jsstr) : bool :=
  match latest_exclusion (exclusions p) m with
  | Some e => match ex_state e with excluded => true | lifted => false end
  | None => false
  end.

(** The electorate as the tally sees it. *)
Definition certificate_seats (p : VoteCertificatePayload) : list ElectorSeat :=
  map (fun e => MkSeat (el_memberId e) voting_member (undec (el_votingWeight e)) true
                  (excluded_now p (el_memberId e)) (el_isChair e)) (electorate p).

(** Every exclusion is of an elector, and those of one elector have ascending
    versions. *)
Definition newer (e f : CertificateExclusionEntry) : Prop :=
  ex_memberId e = ex_memberId f -> ex_version e < ex_version f.
Definition exclusions_consistent (p : VoteCertificatePayload) : Prop :=
  Forall (fun e => ex_memberId e ∈ map el_memberId (electorate p)) (exclusions p) /\
  StronglySorted newer (exclusions p).

(** A ballot carries the weight of an elector, and a proxy ballot a grant of
    that elector to its caster, under the policy of the vote. *)
Definition backed (p : VoteCertificatePayload) (b : CertificateBallotEntry) : Prop :=
  (exists e, e ∈ electorate p /\ el_memberId e = ba_principalMemberId b /\
     el_votingWeight e = ba_votingWeight b) /\
  (ba_source b = proxy -> exists x, x ∈ proxies p /\ ba_proxyGrantId b = Some (px_id x) /\
     px_principalMemberId x = ba_principalMemberId b /\ px_holderMemberId x = ba_casterMemberId b /\
     grant_policy_text (px_policy x) = proxy_text (ar_proxyPolicy (go_approvalRule (governance p)))).

(** A public key whose members are texts, as the OKP keys of RFC 8037 have. *)
Definition text_jwk `{Platform} (l : list (jsstr * json)) : bool :=
  bool_decide (NoDup l.*1)
  && forallb (fun '(k, v) => unicode_ok k && match v with JStr s => unicode_ok s | _ => false end) l.

Definition same_key (k k' : OfflineEvidenceKey) : Prop :=
  key_id k = key_id k' /\ kid k = kid k' /\ sort_json (JObj (public_jwk k)) = sort_json (JObj (public_jwk k')).

Record verified_offline `{Platform} `{!Signatures} (b : OfflineCertificateBundle)
    (keys : TrustedEvidenceKeySet) (key : OfflineEvidenceKey) : Prop := {
  v_bundle : OfflineCertificateBundleSchema b = Ok b;
  v_keys : keyset_ok keys = true;
  (** The key the payload names is a trusted one, and the bundle carries it. *)
  v_trusted : key ∈ keys /\ key_id key = ce_signingKeyId (canonical_payload b) /\
    kid key = ce_keyId (canonical_payload b) /\ same_key (signing_key b) key;
  v_names : certificate_id b = certificateId (canonical_payload b) /\
    vote_id b = vo_id (ce_vote (canonical_payload b)) /\ outcome_id b = outcomeId (canonical_payload b) /\
    public_id b = publicId (canonical_payload b);
  v_exclusions : exclusions_consistent (canonical_payload b);
  v_ballots : Forall (backed (canonical_payload b)) (ballots (canonical_payload b));
  (** The tally is the specified one of the certificate's own electorate,
      ballots and rule. *)
  v_electorate : valid_electorate (certificate_seats (canonical_payload b)) = true;
  v_effective : valid_ballots (certificate_seats (canonical_payload b))
    (effective_ballots (canonical_payload b)) = true;
  v_tally : tally_json (tally (canonical_payload b)) = canonicalVoteTally
    (spec_tally (certificate_seats (canonical_payload b)) (effective_ballots (canonical_payload b))
       (certificate_rule (go_approvalRule (governance (canonical_payload b)))));
  (** The certificate verifies under the trusted key. *)
  v_signature : exists pk, createPublicKeyJwk (JObj (public_jwk key)) = Ok pk /\
    verifyVoteCertificate (MkVoteCertificate (canonical_payload b) (payload_sha256 b)
      (signature_base64url b)) pk = Ok true
}.

(** ** The loops *)

Lemma latest_cons e l m :
  latest_exclusion (e :: l) m =
  match latest_exclusion l m with
  | Some f => Some f
  | None => if bool_decide (ex_memberId e = m) then Some e else None
  end.
Proof.
  unfold latest_exclusion. cbn [List.filter]. destruct (bool_decide (ex_memberId e = m)).
  - rewrite last_cons. by destruct (last _).
  - by destruct (last _).
Qed.

Lemma exclusion_body_eq w latest e latest' : exclusion_body w latest e = Some latest' ->
  latest' = map_set latest (ex_memberId e) e.
Proof.
  unfold exclusion_body. destruct (negb _); [done|]. destruct (map_get latest (ex_memberId e)) as [prior|].
  - destruct (_ <=? _); [done|]. by intros [= <-].
  - by intros [= <-].
Qed.

Lemma exclusions_of_get w l : forall latest latest', exclusions_of w latest l = Some latest' ->
  forall m, map_get latest' m =
    match latest_exclusion l m with Some e => Some e | None => map_get latest m end.
Proof.
  induction l as [|e l IH]; cbn [exclusions_of]; intros latest latest'; [by intros [= ->]|].
  intros (mid & Hm & Hl)%bind_Some m. rewrite (IH _ _ Hl), latest_cons.
  apply exclusion_body_eq in Hm as ->. rewrite map_get_set.
  destruct (latest_exclusion l m); [done|]. case_bool_decide; case_decide; congruence.
Qed.

Definition follows (latest : list (jsstr * CertificateExclusionEntry)) (e : CertificateExclusionEntry) : Prop :=
  forall prior, map_get latest (ex_memberId e) = Some prior -> ex_version prior < ex_version e.

Lemma exclusion_body_some w latest e : is_Some (exclusion_body w latest e) <->
  ex_memberId e ∈ w.*1 /\ follows latest e.
Proof.
  unfold exclusion_body, follows. rewrite <- map_has_true. destruct (map_has w (ex_memberId e)); cbn [negb].
  - destruct (map_get latest (ex_memberId e)) as [prior|].
    + destruct (Z.leb_spec (ex_version e) (ex_version prior)); split.
      * by intros [].
      * intros [_ Hp]. specialize (Hp prior eq_refl). lia.
      * intros _. split; [done|]. by intros ? [= <-].
      * by eexists.
    + split; [done|]. by eexists.
  - split; [by intros []|by intros []].
Qed.

Lemma exclusions_of_some w l : forall latest, is_Some (exclusions_of w latest l) <->
  Forall (fun e => ex_memberId e ∈ w.*1) l /\ StronglySorted newer l /\ Forall (follows latest) l.
Proof.
  induction l as [|e l IH]; intros latest; cbn [exclusions_of].
  { split; [|by eexists]. by repeat constructor. }
  assert (forall f, follows (map_set latest (ex_memberId e) e) f <->
    newer e f /\ (ex_memberId f <> ex_memberId e -> follows latest f)) as Hf.
  { intros f. unfold follows, newer. setoid_rewrite map_get_set. destruct (decide (ex_memberId f = ex_memberId e)).
    - split; [intros Hx; split; [|done]; auto|]. intros [Hx _] prior [= <-]. auto.
    - naive_solver. }
  pose proof (exclusion_body_some w latest e) as Hb.
  destruct (exclusion_body w latest e) as [mid|] eqn:Em; cbn [mbind option_bind].
  - apply exclusion_body_eq in Em as ->.
    destruct (proj1 Hb ltac:(by eexists)) as [He Hp]. rewrite IH. rewrite !Forall_cons. split.
    + intros (Hw & Hs & Hl). split_and!; try done.
      * constructor; [done|]. eapply Forall_impl; [exact Hl|]. intros f Hx. by apply Hf in Hx as [? _].
      * rewrite Forall_forall in *. intros f Hx. specialize (Hl f Hx). apply Hf in Hl as [Hn Hl].
        destruct (decide (ex_memberId f = ex_memberId e)) as [E|E]; [|by apply Hl].
        intros prior. rewrite E. intros Hp'. specialize (Hp prior Hp'). unfold newer in Hn.
        specialize (Hn (eq_sym E)). lia.
    + intros ([_ Hw] & [Hs Hn]%StronglySorted_inv & [_ Hl]). split_and!; try done.
      rewrite Forall_forall in *. intros f Hx. apply Hf. auto.
  - split; [by intros []|]. rewrite !Forall_cons. intros ([He _] & _ & [Hp _]).
    by destruct (proj2 Hb (conj He Hp)).
Qed.

(** ** Keys and names *)

Lemma key_index_inj a b a' b' : is_uuid_v7 a = true -> is_uuid_v7 a' = true ->
  key_index a b = key_index a' b' -> a = a' /\ b = b'.
Proof.
  intros Ha%match_units_length Ha'%match_units_length E.
  apply app_inj_1 in E as [-> [= ->]]; [done|congruence].
Qed.

Lemma keyset_valid keys : keyset_ok keys = true ->
  NoDup (map key_id keys) /\ forall x, x ∈ keys -> OfflineEvidenceKeySchema x = true.
Proof.
  unfold keyset_ok. intros Hk. boolify.
  match goal with H : forallb _ keys = true |- _ => rename H into Hf end. rewrite forallb_forall in Hf.
  split; [by apply all_distinct_spec|]. by intros x Hx%list_elem_of_In%Hf.
Qed.

Lemma trusted_spec keys i k key : keyset_ok keys = true -> is_uuid_v7 i = true ->
  trustedEvidenceKey keys i k = Some key <-> key ∈ keys /\ key_id key = i /\ kid key = k.
Proof.
  intros [Hd Hf]%keyset_valid Hi.
  assert (forall x, x ∈ keys -> is_uuid_v7 (key_id x) = true) as Hu.
  { intros x Hx%Hf. unfold OfflineEvidenceKeySchema in Hx. by boolify. }
  unfold trustedEvidenceKey. rewrite map_of_get.
  - rewrite list_elem_of_fmap. split.
    + intros (x & [= E ->] & Hx). apply key_index_inj in E as [-> ->]; auto.
    + intros (Hx & <- & <-). by exists key.
  - clear Hi. induction keys as [|x keys IH]; [constructor|]. cbn in *. apply NoDup_cons in Hd as [Hn Hd].
    apply NoDup_cons. split; [|apply IH; [done|..]; intros; [apply Hf|apply Hu]; by right].
    intros ([? y] & E & (z & [= -> ->] & Hz)%list_elem_of_fmap)%list_elem_of_fmap. cbn in E.
    apply key_index_inj in E as [E _]; [|apply Hu; by left|apply Hu; by right].
    apply Hn. rewrite E. by apply list_elem_of_fmap_2.
Qed.

Section names.
Context `{Platform}.

Lemma text_jwk_ok l : text_jwk l = true -> json_ok 1 (JObj l) = true /\ json_safe (JObj l) = true.
Proof.
  unfold text_jwk. intros [Hd Hl]%andb_true_iff. rewrite forallb_forall in Hl.
  cbn [json_ok json_safe]. rewrite Hd. cbn [andb].
  split; apply forallb_forall; intros [k v] Hx; specialize (Hl _ Hx); apply andb_true_iff in Hl as [Hk Hv];
    destruct v; try done; cbn [json_ok json_safe]; by rewrite Hk, Hv.
Qed.

Lemma public_id_ascii s : public_id_text s = true -> is_ascii s = true.
Proof.
  unfold public_id_text, class_len, is_ascii. intros [_ Hk]%andb_true_iff. rewrite forallb_forall in *.
  intros c Hc. specialize (Hk c Hc). unfold is_lower, is_upper, is_digit in Hk.
  rewrite !orb_true_iff, !in_range_spec, !Z.eqb_eq in Hk. apply in_range_spec. lia.
Qed.

Lemma identity_safe a b c d key : json_ok 0 (identity_json a b c d key) = true ->
  text_jwk (public_jwk key) = true -> json_safe (identity_json a b c d key) = true.
Proof.
  intros Ho [_ Hs]%text_jwk_ok. unfold identity_json, str in *. cbn [json_ok forallb] in Ho. boolify.
  obj_safe; try done.
Qed.

Lemma sort_json_members l k : map sort_member l = map sort_member k -> sort_json (JObj l) = sort_json (JObj k).
Proof. rewrite !sort_json_obj. by intros ->. Qed.

(** Equal projections are projections of the same names and keys. *)
Lemma identity_json_inj a b c d k a' b' c' d' k' :
  sort_json (identity_json a b c d k) = sort_json (identity_json a' b' c' d' k') <->
  a = a' /\ b = b' /\ c = c' /\ d = d' /\ same_key k k'.
Proof.
  unfold same_key. split.
  - intros E. unfold identity_json in E. split_members E. done.
  - intros (-> & -> & -> & -> & E1 & E2 & E3). unfold identity_json. rewrite E1, E2.
    apply sort_json_members. cbn [map]. unfold sort_member at 7 14. cbn [str fst snd]. by rewrite E3.
Qed.

Lemma projections_equal `{!Rfc8785} a b c d k a' b' c' d' k' s :
  text_jwk (public_jwk k) = true -> text_jwk (public_jwk k') = true ->
  canonicalJson (identity_json a b c d k) = Ok s ->
  canonicalJson (identity_json a' b' c' d' k') = Ok s <->
  json_ok 0 (identity_json a' b' c' d' k') = true /\ a = a' /\ b = b' /\ c = c' /\ d = d' /\ same_key k k'.
Proof.
  intros Hk Hk'. rewrite !canonicalJson_rfc. intros [Ho ->]. split; intros [Ho' E]; (split; [done|]).
  - apply identity_json_inj, stringify_inj; [rewrite sort_json_safe; by apply identity_safe..|done].
  - by apply identity_json_inj in E as ->.
Qed.

Lemma identity_ok a b c d key : is_uuid_v7 a = true -> is_uuid_v7 b = true -> is_uuid_v7 c = true ->
  public_id_text d = true -> OfflineEvidenceKeySchema key = true -> text_jwk (public_jwk key) = true ->
  json_ok 0 (identity_json a b c d key) = true.
Proof.
  intros Ha Hb Hc Hd Hk [Hj _]%text_jwk_ok. unfold OfflineEvidenceKeySchema in Hk. boolify.
  unfold identity_json. obj_ok; try done; [by apply ascii_unicode_ok, public_id_ascii
    |by apply ascii_unicode_ok, Kid_ascii].
Qed.
End names.

(** ** The recomputation *)

Section recheck.
Context `{Platform}.

Lemma strictly_distinct l : StronglySorted units_lt l -> NoDup l.
Proof.
  induction 1 as [|a l Hl IH Ha]; constructor; [|done]. intros Hin.
  rewrite Forall_forall in Ha. specialize (Ha a Hin). unfold units_lt in Ha. rewrite cmp_units_refl in Ha. lia.
Qed.

Lemma keyed_fst {A} (key : A -> jsstr) {B} (value : A -> B) l :
  (map (fun x => (key x, value x)) l).*1 = map key l.
Proof. induction l as [|x l IH]; [done|]. cbn in *. by rewrite IH. Qed.

Lemma keyed_get {A} (key : A -> jsstr) {B} (value : A -> B) l k v : NoDup (map key l) ->
  map_get (map_of (map (fun x => (key x, value x)) l)) k = Some v <->
  exists x, x ∈ l /\ key x = k /\ value x = v.
Proof.
  intros Hd. rewrite map_of_get by by rewrite keyed_fst. rewrite list_elem_of_fmap. naive_solver.
Qed.

Lemma keyed_inj {A} (key : A -> jsstr) l x y : NoDup (map key l) ->
  x ∈ l -> y ∈ l -> key x = key y -> x = y.
Proof.
  intros Hd Hx Hy E.
  pose proof (proj2 (keyed_get key id l (key x) x Hd) ltac:(by exists x)) as G1.
  pose proof (proj2 (keyed_get key id l (key x) y Hd) ltac:(by exists y)) as G2.
  rewrite G1 in G2. by injection G2.
Qed.

Lemma ballot_backed_spec p b : coherent p -> CertificateBallotEntrySchema b = true ->
  ballot_backed (map_of (map (fun e => (el_memberId e, el_votingWeight e)) (electorate p)))
    (map_of (map (fun x => (px_id x, x)) (proxies p))) (ar_proxyPolicy (go_approvalRule (governance p))) b = true
  <-> backed p b.
Proof.
  intros Hc Hb. apply ballot_attribution in Hb. unfold ballot_backed, backed.
  destruct (ce_members _ Hc) as [_ Hm%strictly_distinct]. destruct (ce_proxies _ Hc) as [Hx%strictly_distinct _].
  rewrite andb_true_iff, bool_decide_eq_true, keyed_get by done.
  apply and_iff_compat_l. destruct (ba_source b); [by split|].
  destruct Hb as [_ [g Hg]]. rewrite Hg. cbn [mbind option_bind].
  destruct (map_get _ g) as [x|] eqn:Ex.
  - apply keyed_get in Ex as (y & Hy & <- & ->); [|done].
    rewrite !andb_true_iff, !bool_decide_eq_true. split; [naive_solver|].
    intros E. destruct (E eq_refl) as (z & Hz & [= Eg] & Hrest).
    rewrite (keyed_inj px_id (proxies p) z x Hx) in Hrest by done. naive_solver.
  - split; [done|]. intros E. destruct (E eq_refl) as (z & Hz & [= ->] & _).
    rewrite (proj2 (keyed_get px_id (fun x => x) (proxies p) (px_id z) z Hx)) in Ex; [done|by exists z].
Qed.

Lemma ballots_backed p : coherent p -> forallb CertificateBallotEntrySchema (ballots p) = true ->
  forallb (ballot_backed (map_of (map (fun e => (el_memberId e, el_votingWeight e)) (electorate p)))
    (map_of (map (fun x => (px_id x, x)) (proxies p)))
    (ar_proxyPolicy (go_approvalRule (governance p)))) (ballots p) = true
  <-> Forall (backed p) (ballots p).
Proof.
  intros Hc Hs. rewrite forallb_forall, List.Forall_forall in *.
  split; intros Hb b Hin; specialize (Hs b Hin); specialize (Hb b Hin); by apply ballot_backed_spec.
Qed.

Lemma seats_exact p w latest : exclusions_of w [] (exclusions p) = Some latest ->
  map (certificate_seat latest) (electorate p) = certificate_seats p.
Proof.
  intros Hl. apply map_ext. intros e. unfold certificate_seat, excluded_now.
  rewrite (exclusions_of_get _ _ _ _ Hl). cbn [map_get]. by destruct (latest_exclusion _ _).
Qed.

Lemma exclusions_decided p : coherent p ->
  is_Some (exclusions_of (map_of (map (fun e => (el_memberId e, el_votingWeight e)) (electorate p))) []
    (exclusions p)) <-> exclusions_consistent p.
Proof.
  intros Hc. destruct (ce_members _ Hc) as [_ Hm%strictly_distinct].
  rewrite exclusions_of_some, map_of_nodup, keyed_fst by by rewrite keyed_fst.
  unfold exclusions_consistent. split; [naive_solver|]. intros [? ?]. split_and!; [done..|].
  apply Forall_forall. by intros e _ prior.
Qed.

Lemma tally_plain_spec t : json_plain (canonicalVoteTally t) = true.
Proof. unfold canonicalVoteTally. obj_plain. Qed.

Lemma tally_json_spec t u : sort_json (canonicalVoteTally t) = sort_json (tally_json u) ->
  tally_json u = canonicalVoteTally t.
Proof.
  intros E. unfold canonicalVoteTally, tally_json, bool_member in *. split_members E. congruence.
Qed.

Lemma decimal_ascii s : NonnegativeDecimalSchema s = true -> is_ascii s = true.
Proof. intros Hs. rewrite <- (dec_undec s) by done. apply dec_ascii.
  pose proof (undec_bound s (nat_dec_digits s Hs)). lia. Qed.

Lemma tally_json_ok u : CanonicalVoteTallySchema u = true -> json_ok 0 (tally_json u) = true.
Proof.
  unfold CanonicalVoteTallySchema. intros Hu. boolify. unfold tally_json.
  obj_ok; apply ascii_unicode_ok; try by apply decimal_ascii. by destruct (ta_outcome u).
Qed.

Lemma tally_spec_ok t : json_ok 0 (canonicalVoteTally t) = true.
Proof.
  unfold canonicalVoteTally. obj_ok; apply ascii_unicode_ok; try by apply dec_signed_ascii.
  by destruct (outcome t).
Qed.

(** The recomputed and the claimed text agree exactly when the tallies do. *)
Lemma tally_texts t u : CanonicalVoteTallySchema u = true ->
  exists a b, canonicalJson (canonicalVoteTally t) = Ok a /\ canonicalJson (tally_json u) = Ok b /\
    (a = b <-> tally_json u = canonicalVoteTally t).
Proof.
  intros Hu. pose proof (tally_json_ok u Hu) as Ou. pose proof (tally_spec_ok t) as Ot.
  exists (stringify (sort_json (canonicalVoteTally t))), (stringify (sort_json (tally_json u))).
  rewrite !canonicalJson_ok, !plain_index by (apply tally_plain_spec || apply tally_plain).
  split_and!; try done. split; [|by intros ->]. intros E%stringify_inj; [by apply tally_json_spec|..];
    rewrite sort_json_safe; (eapply plain_ok_safe; [|done]); [apply tally_plain_spec|apply tally_plain].
Qed.
End recheck.

(** ** Properties *)

Section properties.
Context `{Platform} `{!Signatures}.

Lemma payload_accepted p q : VoteCertificatePayloadSchema p = Ok q -> q = p /\ coherent p /\
  forallb CertificateBallotEntrySchema (ballots p) = true /\ CanonicalVoteTallySchema (tally p) = true /\
  is_uuid_v7 (ce_signingKeyId p) = true.
Proof.
  intros (-> & Hm & Hc)%certificate_schema_ok. split; [done|]. split; [by apply certificate_coherent|].
  unfold certificate_members_ok in Hm. boolify. split_and!; try done.
  by match goal with Ha : array_schema 0 100000 CertificateBallotEntrySchema _ = true |- _ =>
    apply array_items in Ha as [_ ?] end.
Qed.

Lemma recheck_true b key : let p := canonical_payload b in VoteCertificatePayloadSchema p = Ok p ->
  recheck b key = Ok true <->
  exclusions_consistent p /\ Forall (backed p) (ballots p) /\
  valid_electorate (certificate_seats p) = true /\
  valid_ballots (certificate_seats p) (effective_ballots p) = true /\
  tally_json (tally p) = canonicalVoteTally (spec_tally (certificate_seats p) (effective_ballots p)
    (certificate_rule (go_approvalRule (governance p)))) /\
  exists pk, createPublicKeyJwk (JObj (public_jwk key)) = Ok pk /\
    verifyVoteCertificate (MkVoteCertificate p (payload_sha256 b) (signature_base64url b)) pk = Ok true.
Proof.
  intros p (_ & Hc & Hs & Ht & _)%payload_accepted. unfold recheck. fold p.
  pose proof (exclusions_decided p Hc) as He. pose proof (ballots_backed p Hc Hs) as Hb.
  destruct (exclusions_of _ _ _) as [latest|] eqn:El.
  2:{ split; [done|]. intros [Hx _]. by apply He in Hx as []. }
  rewrite (seats_exact _ _ _ El). cbv zeta. destruct (forallb (ballot_backed _ _ _) _); cbn [negb].
  2:{ split; [done|]. intros (_ & Hx & _). by apply Hb in Hx. }
  destruct (tally_texts (spec_tally (certificate_seats p) (effective_ballots p)
    (certificate_rule (go_approvalRule (governance p)))) (tally p) Ht) as (u & v & Hu & Hv & Huv).
  pose proof (tallyVote_ok (certificate_seats p) (effective_ballots p)
    (certificate_rule (go_approvalRule (governance p)))) as Hok.
  rewrite bind_ok. setoid_rewrite Hok. split.
  - intros (t & (V1 & V2 & ->) & E). rewrite Hu, Hv in E. cbn [mbind result_bind] in E.
    case_bool_decide as En; [done|]. apply Huv in En.
    apply bind_ok in E as (pk & Hpk & E). split_and!; try tauto; [apply He; by eexists|]. by exists pk.
  - intros (_ & _ & V1 & V2 & V3 & pk & Hpk & E). eexists. split; [done|].
    rewrite Hu, Hv. cbn [mbind result_bind]. rewrite bool_decide_eq_false_2 by (intros []; by apply Huv).
    by rewrite Hpk.
Qed.

(** C4. A certificate bundle is accepted offline exactly when it is a valid
    certificate of a trusted key. The bundle and the trusted keys are well
    formed; the signing key the payload names is among the trusted ones, and
    the bundle carries it and the payload's own names; its exclusions and
    ballots are consistent; the tally it claims is the specified tally of its
    own electorate, effective ballots and rule; and the certificate verifies
    under the trusted key. Public keys are objects of texts. *)
Theorem offline_certificate_exact `{!Rfc8785} b keys :
  text_jwk (public_jwk (signing_key b)) = true ->
  forallb (fun k => text_jwk (public_jwk k)) keys = true ->
  verifyOfflineCertificateBundle b keys = Ok true <-> exists key, verified_offline b keys key.
Proof.
  intros Jb Jk. rewrite forallb_forall in Jk. split.
  - unfold verifyOfflineCertificateBundle, TrustedEvidenceKeySetSchema, parse.
    destruct (OfflineCertificateBundleSchema b) as [b'|] eqn:Eb; [|done].
    destruct (keyset_ok keys) eqn:Ek; [|done].
    pose proof Eb as Ec. unfold OfflineCertificateBundleSchema in Ec. apply bind_ok in Ec as (q & Eq & Ec).
    destruct (bundle_members_ok b); [injection Ec as <-|done].
    pose proof (payload_accepted _ _ Eq) as (-> & _ & _ & _ & Hi).
    destruct (trustedEvidenceKey keys _ _) as [key|] eqn:Et; [|done].
    apply trusted_spec in Et as (Hin & Ei & Ekid); [|done..].
    intros (s & Hs & (s' & Hs' & E)%bind_ok)%bind_ok. case_bool_decide as En; [done|]. subst s'.
    pose proof (Jk key (proj1 (list_elem_of_In _ _) Hin)) as Jkey.
    destruct (proj1 (projections_equal (certificate_id b) (vote_id b) (outcome_id b) (public_id b)
      (signing_key b) _ _ _ _ key s Jb Jkey Hs) Hs') as (_ & N1 & N2 & N3 & N4 & N5).
    injection E as E. exists key.
    assert (recheck b key = Ok true) as Hr by (destruct (recheck b key) as [[]|]; done).
    apply recheck_true in Hr as (? & ? & ? & ? & ? & ?); [|done]. split; done.
  - intros [key [Eb Ek (Hin & Ei & Ekid & Hsame) (N1 & N2 & N3 & N4) V1 V2 V3 V4 V5 V6]].
    unfold verifyOfflineCertificateBundle, TrustedEvidenceKeySetSchema, parse. rewrite Eb, Ek.
    pose proof Eb as Ec. unfold OfflineCertificateBundleSchema in Ec. apply bind_ok in Ec as (q & Eq & Ec).
    destruct (bundle_members_ok b) eqn:Em; [|done].
    pose proof (payload_accepted _ _ Eq) as (-> & _ & _ & _ & Hi).
    rewrite (proj2 (trusted_spec keys _ _ key Ek Hi)) by done.
    pose proof (proj2 (keyset_valid _ Ek) _ Hin) as Hkey. apply list_elem_of_In, Jk in Hin.
    unfold bundle_members_ok in Em. boolify.
    assert (json_ok 0 (bundleProjection b) = true) as Ob by by apply identity_ok.
    assert (json_ok 0 (trustedProjection (canonical_payload b) key) = true) as Op.
    { unfold trustedProjection. rewrite <- N1, <- N2, <- N3, <- N4. by apply identity_ok. }
    pose proof (proj2 (canonicalJson_rfc _ _) (conj Ob eq_refl)) as Cb.
    assert (canonicalJson (trustedProjection (canonical_payload b) key)
            = Ok (stringify (sort_json (bundleProjection b)))) as Cp.
    { exact (proj2 (projections_equal (certificate_id b) (vote_id b) (outcome_id b) (public_id b)
        (signing_key b) _ _ _ _ key _ Jb Hin Cb) (conj Op (conj N1 (conj N2 (conj N3 (conj N4 Hsame)))))). }
    rewrite Cb, Cp.
    cbn [mbind result_bind]. rewrite bool_decide_eq_false_2 by (intros []; done).
    by rewrite (proj2 (recheck_true b key Eq)).
Qed.
End properties.

(** ** A concrete bundle *)

(** The sample certificate with the exclusion of an elector, since lifted. *)
Definition sample_exclusion (n : string) (version : Z) (state : ExclusionState) : CertificateExclusionEntry :=
  MkExclusion (sample_uuid_n n) (sample_uuid_n "4") version state sample_hash (sample_uuid_n "3")
    (sample_uuid_n "1") sample_hash (js "2026-01-01T00:00:00Z").

Definition sample_closed : VoteCertificatePayload :=
  let p := sample_certificate in
  MkCertificate (certificateId p) (publicId p) (outcomeId p) (ce_instanceId p) (ce_organizationId p)
    (ce_boardId p) (ce_vote p) (submissionManifestSha256 p) (documentManifestSha256 p)
    (questionCutoffSha256 p) (governance p) (electorateSha256 p) (electorate p)
    [sample_exclusion "6" 1 excluded; sample_exclusion "7" 2 lifted]
    (proxies p) (ballots p) (consentSetSha256 p) (tally p) (tallySha256 p) (ce_outcome p) (close p)
    (closingAuditEventId p) (closingAuditSequence p) (closingAuditHash p) (ce_preparedAt p) (ce_keyId p)
    (ce_signingKeyId p).

Definition sample_key : OfflineEvidenceKey :=
  MkEvidenceKey (ce_signingKeyId sample_closed) (js "key-1")
    [(js "kty", JStr (js "OKP")); (js "crv", JStr (js "Ed25519")); (js "x", JStr (replicate 43 65))].

Definition sample_bundle_with (key : OfflineEvidenceKey) : OfflineCertificateBundle :=
  let c := catch (@issueVoteCertificate plain_platform toy_signatures sample_closed tt)
                 (MkVoteCertificate sample_closed [] []) in
  MkBundle (certificateId sample_closed) (vo_id (ce_vote sample_closed)) (outcomeId sample_closed)
    (publicId sample_closed) sample_closed (payloadSha256 c) (vc_signatureBase64Url c) key
    (js "2026-01-01T00:00:00Z").
Definition sample_bundle : OfflineCertificateBundle := sample_bundle_with sample_key.

Lemma offline_certificate_exact_witness :
  exists key, @verified_offline plain_platform toy_signatures sample_bundle [sample_key] key.
Proof.
  assert (@verifyOfflineCertificateBundle plain_platform toy_signatures sample_bundle [sample_key] = Ok true)
    as Hv by (vm_compute; reflexivity).
  apply (@offline_certificate_exact plain_platform toy_signatures plain_rfc8785 sample_bundle [sample_key]);
    [vm_compute; reflexivity..|exact Hv].
Defined.

(** The projections are compared outside the [try] blocks, so a bundle whose
    own copy of the key holds text that is not Unicode throws; it is not
    answered with [false]. *)
Example malformed_key_throws :
  @verifyOfflineCertificateBundle plain_platform toy_signatures
    (sample_bundle_with (MkEvidenceKey (key_id sample_key) (kid sample_key) [(js "x", JStr [55296])]))
    [sample_key] = Throw (CanonicalizationError "contains an unpaired surrogate" [js "$.publicJwk.x"]).
Proof. vm_compute. reflexivity. Qed.
