(* ===== verification/OfflineRows.v ===== *)
(** * Exported rows

    lib/audit/src/offline.ts, the formats of an audit export: its components,
    the rows of events and checkpoints, what a checkpoint row signs, and the
    comparison of exported timestamps with signed ones. *)

From stdpp Require Import base numbers sorting strings list.
From Stdlib Require Import Lia.
From S2P Require Import Prelude JsString Encoding JsNumber Json JsonParse JsonCanon Schemas.
From S2P Require Import Decode AuditEvent Signing Checkpoint RecoveryCheckpoint.

Local Open Scope Z_scope.

(** ** Scalars of PostgreSQL *)

Definition OfflinePositiveDecimalSchema (s : jsstr) : bool := is_pos_dec s.

(** [/^\\x(?:[0-9a-f]{2})+$/u] and its fixed lengths. *)
Definition pg_hex_text (ok : jsstr -> bool) (s : jsstr) : bool :=
  match s with
  | b :: x :: t => (b =? 92) && (x =? 120) && ok t
  | _ => false
  end.
Definition OfflinePgSha256Schema : jsstr -> bool := pg_hex_text (class_len is_hex 64 64).
Definition OfflinePgSignatureSchema : jsstr -> bool := pg_hex_text (class_len is_hex 128 128).
Definition OfflinePgBytesSchema : jsstr -> bool :=
  pg_hex_text (fun t => negb (Nat.eqb (length t) 0) && Nat.even (length t) && forallb is_hex t).

Definition pgHex (value : jsstr) : jsstr := drop 2 value.

(** ** Components *)

Record OfflineExportComponent := MkComponent { component_name : jsstr; rows : list json }.

(** [/^[a-z][a-z0-9_:-]{1,127}$/u] *)
Definition component_name_text (s : jsstr) : bool :=
  match s with
  | c :: t => is_lower c
      && class_len (fun c => is_lower c || is_digit c || (c =? 95) || (c =? 58) || (c =? 45)) 1 127 t
  | [] => false
  end.

Definition elements (v : json) : option (list json) := match v with JArr l => Some l | _ => None end.

Definition OfflineExportComponentSchema (v : json) : option OfflineExportComponent :=
  l ← members v;
  if negb (strict ["schemaVersion"; "name"; "rowEncoding"; "rows"] l) then None else
  _ ← required l "schemaVersion" (dLiteral "boardagent.export-component.v1");
  name ← required l "name" (dString component_name_text);
  _ ← required l "rowEncoding" (dLiteral "postgres-text-v1");
  rows ← required l "rows" elements;
  if Z.of_nat (length rows) <=? 1000000 then Some (MkComponent name rows) else None.

Section parsing.
Context `{Platform} `{!NodeText}.

(** [new TextDecoder("utf-8", { fatal: true }).decode(bytes)]: a byte-order
    mark at the start is removed. *)
Definition TextDecoder_fatal (bytes : list Z) : result jsstr :=
  match utf8_decode bytes with
  | Some (c :: t) => Ok (if c =? 65279 then t else c :: t)
  | Some [] => Ok []
  | None => Throw (TypeError "The encoded data was not valid for encoding utf-8" [])
  end.

Definition parseOfflineCanonicalJson (bytes : list Z) : result json :=
  text ← TextDecoder_fatal bytes;
  match JSON_parse text with
  | None => Throw (JsError "SyntaxError" [])
  | Some parsed =>
      if negb (JsonValueSchema parsed) then Throw (ZodError "JsonValue") else
      canonical ← canonicalJson parsed;
      if bool_decide (bytes = utf8_encode canonical) then Ok parsed
      else Throw (JsError "offline JSON is not canonical UTF-8" [])
  end.

Definition parseOfflineExportComponent (bytes : list Z) (name : string) : result OfflineExportComponent :=
  v ← parseOfflineCanonicalJson bytes;
  match OfflineExportComponentSchema v with
  | None => Throw (ZodError "OfflineExportComponent")
  | Some parsed =>
      if bool_decide (component_name parsed <> js name)
      then Throw (JsError "export component is not the expected canonical byte sequence" [])
      else Ok parsed
  end.
End parsing.

(** ** Rows *)

Record FullRow := MkFullRow {
  fr_id : jsstr;
  fr_sequence : jsstr;
  fr_organization_id : jsstr;
  fr_board_id : option jsstr;
  fr_event_type : jsstr;
  fr_actor_member_id : option jsstr;
  fr_acting_for_member_id : option jsstr;
  fr_client_id : option jsstr;
  fr_token_jti : option jsstr;
  fr_consent_record_id : option jsstr;
  fr_object_type : jsstr;
  fr_object_id : option jsstr;
  fr_object_version : option jsstr;
  fr_canonical_payload : jsstr;
  fr_previous_event_sha256 : jsstr;
  fr_event_sha256 : jsstr;
  fr_occurred_at : jsstr
}.

Definition nonempty (s : jsstr) : bool := negb (Nat.eqb (length s) 0).

Definition OfflineFullAuditEventRowSchema (v : json) : option FullRow :=
  l ← members v;
  if negb (strict ["id"; "sequence"; "organization_id"; "board_id"; "event_type"; "schema_version";
                   "actor_member_id"; "acting_for_member_id"; "client_id"; "token_jti";
                   "consent_record_id"; "object_type"; "object_id"; "object_version";
                   "canonical_payload"; "previous_event_sha256"; "event_sha256"; "occurred_at"] l)
  then None else
  id ← required l "id" (dString is_uuid_v7);
  sequence ← required l "sequence" (dString OfflinePositiveDecimalSchema);
  organization_id ← required l "organization_id" (dString is_uuid_v7);
  board_id ← required l "board_id" (dNullable (dString is_uuid_v7));
  event_type ← required l "event_type" (dString nonempty);
  _ ← required l "schema_version" (dLiteral "boardagent.audit-event.v1");
  actor_member_id ← required l "actor_member_id" (dNullable (dString is_uuid_v7));
  acting_for_member_id ← required l "acting_for_member_id" (dNullable (dString is_uuid_v7));
  client_id ← required l "client_id" (dNullable (dString is_uuid_v7));
  token_jti ← required l "token_jti" (dNullable (dString is_uuid_v7));
  consent_record_id ← required l "consent_record_id" (dNullable (dString is_uuid_v7));
  object_type ← required l "object_type" (dString entity_type_ok);
  object_id ← required l "object_id" (dNullable (dString is_uuid_v7));
  object_version ← required l "object_version" (dNullable (dString OfflinePositiveDecimalSchema));
  canonical_payload ← required l "canonical_payload" (dString OfflinePgBytesSchema);
  previous_event_sha256 ← required l "previous_event_sha256" (dString OfflinePgSha256Schema);
  event_sha256 ← required l "event_sha256" (dString OfflinePgSha256Schema);
  occurred_at ← required l "occurred_at" (dString nonempty);
  Some (MkFullRow id sequence organization_id board_id event_type actor_member_id acting_for_member_id
          client_id token_jti consent_record_id object_type object_id object_version canonical_payload
          previous_event_sha256 event_sha256 occurred_at).

Record RedactedRow := MkRedactedRow {
  rr_sequence : jsstr;
  rr_previous_event_sha256 : jsstr;
  rr_event_sha256 : jsstr
}.

Definition OfflineRedactedAuditEventRowSchema (v : json) : option RedactedRow :=
  l ← members v;
  if negb (strict ["sequence"; "previous_event_sha256"; "event_sha256"; "redacted"] l) then None else
  sequence ← required l "sequence" (dString OfflinePositiveDecimalSchema);
  previous_event_sha256 ← required l "previous_event_sha256" (dString OfflinePgSha256Schema);
  event_sha256 ← required l "event_sha256" (dString OfflinePgSha256Schema);
  _ ← required l "redacted" (dLiteral "true");
  Some (MkRedactedRow sequence previous_event_sha256 event_sha256).

Record CheckpointRow := MkCheckpointRow {
  cr_id : jsstr;
  cr_organization_id : jsstr;
  cr_first_sequence : jsstr;
  cr_last_sequence : jsstr;
  cr_first_event_sha256 : jsstr;
  cr_last_event_sha256 : jsstr;
  cr_canonical_manifest : jsstr;
  cr_manifest_sha256 : jsstr;
  cr_signature : jsstr;
  cr_signing_key_id : jsstr;
  cr_created_at : jsstr
}.

Definition OfflineAuditCheckpointRowSchema (v : json) : option CheckpointRow :=
  l ← members v;
  if negb (strict ["id"; "organization_id"; "first_sequence"; "last_sequence"; "first_event_sha256";
                   "last_event_sha256"; "canonical_manifest"; "manifest_sha256"; "signature";
                   "signing_key_id"; "created_at"] l)
  then None else
  id ← required l "id" (dString is_uuid_v7);
  organization_id ← required l "organization_id" (dString is_uuid_v7);
  first_sequence ← required l "first_sequence" (dString OfflinePositiveDecimalSchema);
  last_sequence ← required l "last_sequence" (dString OfflinePositiveDecimalSchema);
  first_event_sha256 ← required l "first_event_sha256" (dString OfflinePgSha256Schema);
  last_event_sha256 ← required l "last_event_sha256" (dString OfflinePgSha256Schema);
  canonical_manifest ← required l "canonical_manifest" (dString OfflinePgBytesSchema);
  manifest_sha256 ← required l "manifest_sha256" (dString OfflinePgSha256Schema);
  signature ← required l "signature" (dString OfflinePgSignatureSchema);
  signing_key_id ← required l "signing_key_id" (dString is_uuid_v7);
  created_at ← required l "created_at" (dString nonempty);
  Some (MkCheckpointRow id organization_id first_sequence last_sequence first_event_sha256
          last_event_sha256 canonical_manifest manifest_sha256 signature signing_key_id created_at).

(** ** Signed manifests *)

Inductive ManifestPayload :=
  | Ordinary (p : AuditCheckpointPayload)
  | Recovery (p : AuditRecoveryCheckpointPayload).

(** What both kinds have. *)
Definition manifest_base (m : ManifestPayload) : AuditCheckpointPayload :=
  match m with Ordinary p => p | Recovery p => base p end.

(** The members both payloads share, read after the schema name. *)
Definition base_of_members (l : list (jsstr * json)) : option AuditCheckpointPayload :=
  checkpointId ← required l "checkpointId" dAny;
  instanceId ← required l "instanceId" dAny;
  organizationId ← required l "organizationId" dAny;
  _ ← required l "auditSchema" (dLiteral "boardagent.audit-event.v1");
  firstSequence ← required l "firstSequence" dAny;
  lastSequence ← required l "lastSequence" dAny;
  firstEventSha256 ← required l "firstEventSha256" dAny;
  lastEventSha256 ← required l "lastEventSha256" dAny;
  issuedAt ← required l "issuedAt" dAny;
  signingKeyId ← required l "signingKeyId" dAny;
  keyId ← required l "keyId" dAny;
  Some (MkCheckpoint checkpointId instanceId organizationId firstSequence lastSequence firstEventSha256
          lastEventSha256 issuedAt signingKeyId keyId).

Definition checkpoint_of_json (v : json) : option AuditCheckpointPayload :=
  l ← members v;
  if negb (strict ["schema"; "checkpointId"; "instanceId"; "organizationId"; "auditSchema"; "firstSequence";
                   "lastSequence"; "firstEventSha256"; "lastEventSha256"; "issuedAt"; "signingKeyId";
                   "keyId"] l)
  then None else
  _ ← required l "schema" (dLiteral "boardagent.audit.checkpoint.v1");
  base_of_members l.

Definition request_of_json (v : json) : option AuditRecoveryRequest :=
  l ← members v;
  if negb (strict ["schemaVersion"; "recoveryId"; "instanceId"; "organizationId"; "firstSequence";
                   "lastSequence"; "firstEventSha256"; "headSha256"; "signingKeyId"; "keyId";
                   "firstUncoveredEventAt"; "preparedAt"; "expiresAt"; "operatorReference"; "reason"] l)
  then None else
  _ ← required l "schemaVersion" (dLiteral "boardagent.audit-recovery-request.v1");
  recoveryId ← required l "recoveryId" dAny;
  instanceId ← required l "instanceId" dAny;
  organizationId ← required l "organizationId" dAny;
  firstSequence ← required l "firstSequence" dAny;
  lastSequence ← required l "lastSequence" dAny;
  firstEventSha256 ← required l "firstEventSha256" dAny;
  headSha256 ← required l "headSha256" dAny;
  signingKeyId ← required l "signingKeyId" dAny;
  keyId ← required l "keyId" dAny;
  firstUncoveredEventAt ← required l "firstUncoveredEventAt" dAny;
  preparedAt ← required l "preparedAt" dAny;
  expiresAt ← required l "expiresAt" dAny;
  operatorReference ← required l "operatorReference" dAny;
  reason ← required l "reason" dAny;
  Some (MkRequest recoveryId instanceId organizationId firstSequence lastSequence firstEventSha256
          headSha256 signingKeyId keyId firstUncoveredEventAt preparedAt expiresAt operatorReference reason).

Definition recovery_of_json (v : json) : option AuditRecoveryCheckpointPayload :=
  l ← members v;
  if negb (strict ["schema"; "checkpointId"; "instanceId"; "organizationId"; "auditSchema"; "firstSequence";
                   "lastSequence"; "firstEventSha256"; "lastEventSha256"; "issuedAt"; "signingKeyId";
                   "keyId"; "recovery"] l)
  then None else
  _ ← required l "schema" (dLiteral "boardagent.audit.recovery-checkpoint.v1");
  base ← base_of_members l;
  r ← required l "recovery" members;
  if negb (strict ["request"; "requestSha256"; "firstCoveredEventAt"; "missedByMicroseconds"] r)
  then None else
  request ← required r "request" request_of_json;
  requestSha256 ← required r "requestSha256" dAny;
  firstCoveredEventAt ← required r "firstCoveredEventAt" dAny;
  missedByMicroseconds ← required r "missedByMicroseconds" dAny;
  Some (MkRecovery base request requestSha256 firstCoveredEventAt missedByMicroseconds).

(** [z.union([..]).parse(v)]: the first schema that accepts. *)
Definition parse_manifest `{Platform} (v : json) : result ManifestPayload :=
  let invalid := Throw (ZodError "AuditCheckpointManifest") in
  match checkpoint_of_json v ≫= fun p => if checkpoint_ok p then Some p else None with
  | Some p => Ok (Ordinary p)
  | None =>
      match recovery_of_json v with
      | Some p => Recovery <$> AuditRecoveryCheckpointPayloadSchema p
      | None => invalid
      end
  end.

(** ** Timestamps *)

Definition fractionMicroseconds (digits : jsstr) : Z := undec digits * 10 ^ (6 - js_length digits).

(** The groups of [EXPORTED_INSTANT]: date, time, fraction, and the sign with
    the fields of an offset. *)
Record ExportedInstant := MkInstant {
  ei_date : jsstr;
  ei_time : jsstr;
  ei_fraction : option jsstr;
  ei_offset : option (bool * (jsstr * option jsstr * option jsstr))
}.

Definition two_digits (s : jsstr) : option (jsstr * jsstr) :=
  match s with
  | a :: b :: t => if is_digit a && is_digit b then Some ([a; b], t) else None
  | _ => None
  end.

(** [(?::(\d{2}))?], greedy: what follows a colon is two digits, or the whole
    pattern fails later. *)
Definition optional_field (s : jsstr) : option (option jsstr * jsstr) :=
  match s with
  | c :: t =>
      if c =? 58 then '(d, r) ← two_digits t; Some (Some d, r)
      else Some (None, s)
  | [] => Some (None, [])
  end.

Definition parse_zone (s : jsstr) : option (option (bool * (jsstr * option jsstr * option jsstr))) :=
  match s with
  | c :: t =>
      if (c =? 90) && Nat.eqb (length t) 0 then Some None else
      if (c =? 43) || (c =? 45) then
        '(hours, r) ← two_digits t;
        '(minutes, r) ← optional_field r;
        '(seconds, r) ← optional_field r;
        if Nat.eqb (length r) 0 then Some (Some (c =? 43, (hours, minutes, seconds))) else None
      else None
  | [] => None
  end.

Definition date_units : list (Z -> bool) :=
  replicate 4 is_digit ++ [is_char 45] ++ replicate 2 is_digit ++ [is_char 45] ++ replicate 2 is_digit.
Definition time_units : list (Z -> bool) :=
  replicate 2 is_digit ++ [is_char 58] ++ replicate 2 is_digit ++ [is_char 58] ++ replicate 2 is_digit.

Definition match_exported (value : jsstr) : option ExportedInstant :=
  let date := take 10 value in
  let time := take 8 (drop 11 value) in
  let rest := drop 19 value in
  if negb (match_units date_units date) then None else
  if negb (match value !! 10%nat with Some c => (c =? 84) || (c =? 32) | None => false end) then None else
  if negb (match_units time_units time) then None else
  '(fraction, rest) ←
    match rest with
    | c :: t =>
        if c =? 46 then
          let '(digits, r) := span_digits t in
          if in_range 1 6 (js_length digits) then Some (Some digits, r) else None
        else Some (None, rest)
    | [] => None
    end;
  offset ← parse_zone rest;
  Some (MkInstant date time fraction offset).

Definition exportedMicroseconds (value : jsstr) : option Z :=
  m ← match_exported value;
  let utcWhole := ei_date m ++ [84] ++ ei_time m ++ [90] in
  if negb (is_rfc3339_utc utcWhole) then None else
  let whole := date_parse_ms utcWhole * 1000 + fractionMicroseconds (default [] (ei_fraction m)) in
  match ei_offset m with
  | None => Some whole
  | Some (plus, (h, mi, s)) =>
      let hours := undec h in
      let minutes := match mi with Some d => undec d | None => 0 end in
      let seconds := match s with Some d => undec d | None => 0 end in
      if (23 <? hours) || (59 <? minutes) || (59 <? seconds) then None else
      let offset := (hours * 3600 + minutes * 60 + seconds) * 1000000 in
      Some (if plus then whole - offset else whole + offset)
  end.

(** [value.slice(20, -1)] is empty for a value without a fraction. *)
Definition signedMicroseconds (value : jsstr) : Z :=
  date_parse_ms (take 19 value) * 1000 + fractionMicroseconds (take (length value - 21) (drop 20 value)).

Definition sameTimestamp (exported signed : jsstr) : bool :=
  bool_decide (exportedMicroseconds exported = Some (signedMicroseconds signed)).

Example exported_offset :
  exportedMicroseconds (js "2026-03-01 01:30:00.5+05:30") = Some (signedMicroseconds (js "2026-02-28T20:00:00.500000Z")).
Proof. vm_compute. reflexivity. Qed.
Example exported_second_offset :
  exportedMicroseconds (js "1900-01-01 00:00:00-00:19:32") = Some (signedMicroseconds (js "1900-01-01T00:19:32Z")).
Proof. vm_compute. reflexivity. Qed.
Example exported_day_offset : exportedMicroseconds (js "2026-03-01 01:30:00+24") = None.
Proof. vm_compute. reflexivity. Qed.
Example exported_calendar : exportedMicroseconds (js "2026-02-30 01:30:00+00") = None.
Proof. vm_compute. reflexivity. Qed.
