(* ===== verification/OfflineAudit.v ===== *)
(** * Offline verification of audit exports

    lib/audit/src/offline.ts, the verifier of an exported range of audit
    events: the rows and their chain, the checkpoints and recovery findings,
    the attestation that may come with them, and the verdict. *)

From stdpp Require Import base numbers sorting strings list.
From Stdlib Require Import Lia.
From S2P Require Import Prelude JsString Encoding JsNumber Json JsonParse JsonCanon Schemas.
From S2P Require Import Decode VotingConsent KeyLifecycle AuditEvent Signing Checkpoint RecoveryCheckpoint.
From S2P Require ExportAttestation.
From S2P Require Import OfflineRows.
From S2P Require Import Certificate OfflineCertificate.

Local Open Scope Z_scope.

(** ** Expectation, context and verdict *)

Record OfflineAuditExportExpectation := MkExpectation {
  ex_organizationId : jsstr;
  ex_boardId : option jsstr;
  rangeFirstSequence : jsstr;
  rangeLastSequence : jsstr;
  ex_auditHeadSequence : jsstr;
  ex_auditHeadSha256 : jsstr;
  ex_latestCheckpointSha256 : jsstr
}.

Definition expectation_ok (x : OfflineAuditExportExpectation) : bool :=
  is_uuid_v7 (ex_organizationId x) && opt_all is_uuid_v7 (ex_boardId x)
  && OfflinePositiveDecimalSchema (rangeFirstSequence x) && OfflinePositiveDecimalSchema (rangeLastSequence x)
  && is_nat_dec (ex_auditHeadSequence x) && is_hex64 (ex_auditHeadSha256 x)
  && is_hex64 (ex_latestCheckpointSha256 x)
  && (undec (rangeFirstSequence x) <=? undec (rangeLastSequence x)).

Definition OfflineAuditExportExpectationSchema (x : OfflineAuditExportExpectation)
    : result OfflineAuditExportExpectation := parse "OfflineAuditExportExpectation" expectation_ok x.

Record OfflineAuditExportAttestationContext := MkContext {
  signed : ExportAttestation.SignedAuditExportAttestation;
  cx_exportRequestId : jsstr;
  cx_scopeSha256 : jsstr;
  cx_snapshotSha256 : jsstr;
  cx_auditRecoveryEvidence : option (list SignedAuditRecoveryCheckpoint)
}.

Record ExportSummary := MkSummary {
  eventCount : Z;
  es_firstSequence : Z;
  es_lastSequence : Z;
  headHash : jsstr;
  checkpointCount : Z;
  anchorSequence : option jsstr;
  latestCheckpointLastSequence : jsstr;
  (** The proof of a signed snapshot is present, or it is not. *)
  attested : bool;
  recoveryEvidence : list SignedAuditRecoveryCheckpoint
}.

Inductive OfflineAuditExportVerification :=
  | Valid (summary : ExportSummary)
  | Invalid (reason : string) (firstBreakSequence : option jsstr).

(** Code that goes on with a value, returns a verdict, or throws. *)
Inductive checked (A : Type) :=
  | Pass (a : A)
  | Stop (reason : string) (firstBreakSequence : option jsstr)
  | Raise (e : exn).
Arguments Pass {A}.
Arguments Stop {A}.
Arguments Raise {A}.

#[export] Instance checked_bind : MBind checked := fun A B f c =>
  match c with Pass a => f a | Stop r s => Stop r s | Raise e => Raise e end.

(** Code that may throw. *)
Definition try_ {A} (r : result A) : checked A := match r with Ok a => Pass a | Throw e => Raise e end.
(** [schema.parse(v)] with a decoder. *)
Definition try_schema {A} (schema : string) (o : option A) : checked A :=
  match o with Some a => Pass a | None => Raise (ZodError schema) end.
(** [if (b) return invalidAudit(reason, sequence);] *)
Definition stop_if (b : bool) (reason : string) (sequence : option jsstr) : checked unit :=
  if b then Stop reason sequence else Pass tt.

Fixpoint loop {S A} (body : S -> A -> checked S) (s : S) (l : list A) : checked S :=
  match l with
  | [] => Pass s
  | a :: l' => body s a ≫= fun s' => loop body s' l'
  end.

Section verifier.
Context `{Platform} `{!NodeText} `{!Signatures} `{IsoTime}.

Definition trusted_public_key (key : OfflineEvidenceKey) : checked PublicKey :=
  try_ (createPublicKeyJwk (JObj (public_jwk key))).

Definition findings_json (l : list SignedAuditRecoveryCheckpoint) : json :=
  JArr (map ExportAttestation.finding_json l).

(** ** The attestation *)

(** The identity the export is attested for and its findings; without an
    attestation there is neither. *)
Definition attestation_bound (a : ExportAttestation.AuditExportAttestation)
    (context : OfflineAuditExportAttestationContext) (x : OfflineAuditExportExpectation)
    (eventBytes checkpointBytes : list Z) : bool :=
  bool_decide (ExportAttestation.exportRequestId a = cx_exportRequestId context)
  && bool_decide (ExportAttestation.scopeSha256 a = cx_scopeSha256 context)
  && bool_decide (ExportAttestation.snapshotSha256 a = cx_snapshotSha256 context)
  && bool_decide (ExportAttestation.at_organizationId a = ex_organizationId x)
  && bool_decide (ExportAttestation.at_boardId a = ex_boardId x)
  && bool_decide (ExportAttestation.at_firstSequence a = rangeFirstSequence x)
  && bool_decide (ExportAttestation.at_lastSequence a = rangeLastSequence x)
  && bool_decide (ExportAttestation.auditHeadSequence a = ex_auditHeadSequence x)
  && bool_decide (ExportAttestation.auditHeadSha256 a = ex_auditHeadSha256 x)
  && bool_decide (ExportAttestation.latestCheckpointSha256 a = ex_latestCheckpointSha256 x)
  && bool_decide (ExportAttestation.eventComponentSha256 a = sha256HexBytes eventBytes)
  && bool_decide (ExportAttestation.checkpointComponentSha256 a = sha256HexBytes checkpointBytes).

Definition check_attestation (context : OfflineAuditExportAttestationContext)
    (x : OfflineAuditExportExpectation) (keys : TrustedEvidenceKeySet) (eventBytes checkpointBytes : list Z)
    : checked (jsstr * list SignedAuditRecoveryCheckpoint) :=
  signed ← try_ (ExportAttestation.SignedAuditExportAttestationSchema (signed context));
  let a := ExportAttestation.attestation (payload signed) in
  valid ←
    match trustedEvidenceKey keys (ExportAttestation.at_signingKeyId a) (ExportAttestation.at_keyId a) with
    | None => Pass false
    | Some trusted =>
        key ← trusted_public_key trusted;
        Pass (ExportAttestation.verifyAuditExportAttestation signed key)
    end;
  stop_if (negb valid) "export_attestation_signature_invalid" None ≫= fun _ =>
  stop_if (negb (attestation_bound a context x eventBytes checkpointBytes))
    "export_attestation_binding_mismatch" None ≫= fun _ =>
  let evidence := match payload signed with
                  | ExportAttestation.V2 _ evidence => evidence
                  | ExportAttestation.V1 _ => []
                  end in
  signed_text ← try_ (canonicalJson (findings_json evidence));
  given_text ← try_ (canonicalJson (findings_json (default [] (cx_auditRecoveryEvidence context))));
  stop_if (bool_decide (signed_text <> given_text)) "export_recovery_evidence_binding_mismatch" None ≫= fun _ =>
  Pass (ExportAttestation.at_instanceId a, evidence).

(** ** Event rows *)

Record EventState := MkEventState {
  hashesBySequence : list (jsstr * jsstr);
  firstRow : Z;
  previousSequence : Z;
  st_previousHash : jsstr;
  containsRedactedRows : bool;
  atStart : bool
}.

Definition initial_events : EventState := MkEventState [] 0 0 GENESIS_HASH false true.

(** The projections a full row and its body must share. *)
Definition projection_json (id eventType : jsstr) (actor client jti : option jsstr) (entityType : jsstr)
    (entityId board : option jsstr) : json :=
  JObj [str "id" id; str "eventType" eventType; nullable "actorMemberId" actor;
        nullable "actorClientId" client; nullable "tokenJti" jti; str "entityType" entityType;
        nullable "entityId" entityId; nullable "boardId" board].

Definition rowProjection (full : FullRow) : json :=
  projection_json (fr_id full) (fr_event_type full) (fr_actor_member_id full) (fr_client_id full)
    (fr_token_jti full) (fr_object_type full) (fr_object_id full) (fr_board_id full).
Definition bodyProjection (body : AuditEventBody) : json :=
  projection_json (eventId body) (eventType body) (actorMemberId body) (actorClientId body) (tokenJti body)
    (entityType body) (if is_uuid_v7 (entityId body) then Some (entityId body) else None) (boardId body).

Definition check_full (x : OfflineAuditExportExpectation) (full : FullRow) (sequence : Z)
    (rowPreviousHash rowHash : jsstr) : checked unit :=
  let here := Some (fr_sequence full) in
  stop_if (bool_decide (fr_organization_id full <> ex_organizationId x)) "event_scope_mismatch" here ≫= fun _ =>
  stop_if (is_some (ex_boardId x) && bool_decide (fr_board_id full <> ex_boardId x))
    "event_scope_mismatch" here ≫= fun _ =>
  let canonicalPayload := bytes_of_hex (pgHex (fr_canonical_payload full)) in
  v ← try_ (parseOfflineCanonicalJson canonicalPayload);
  body ← try_ (parse_body v);
  row ← try_ (canonicalJson (rowProjection full));
  claimed ← try_ (canonicalJson (bodyProjection body));
  stop_if (bool_decide (row <> claimed) || negb (sameTimestamp (fr_occurred_at full) (occurredAt body)))
    "event_hash_or_projection_mismatch" here ≫= fun _ =>
  hash ← try_ (eventHash sequence rowPreviousHash body);
  stop_if (negb (safeHashEqual hash rowHash)) "event_hash_or_projection_mismatch" here.

(** The place of a row after the ones before it. *)
Definition link_row (st : EventState) (sequenceText rowPrevious : jsstr) : checked unit :=
  let sequence := undec sequenceText in
  if atStart st then
    stop_if ((sequence =? 1) && negb (safeHashEqual rowPrevious GENESIS_HASH)) "genesis_hash_mismatch"
      (Some sequenceText)
  else
    stop_if (negb (sequence =? previousSequence st + 1)) "sequence_gap_or_reorder"
      (Some (dec (previousSequence st + 1))) ≫= fun _ =>
    stop_if (negb (safeHashEqual rowPrevious (st_previousHash st))) "previous_hash_mismatch"
      (Some sequenceText).

Definition event_row (x : OfflineAuditExportExpectation) (st : EventState) (rawRow : json)
    : checked EventState :=
  let redacted := OfflineRedactedAuditEventRowSchema rawRow in
  full ← match redacted with
         | Some _ => Pass None
         | None => full ← try_schema "FullAuditEventRow" (OfflineFullAuditEventRowSchema rawRow); Pass (Some full)
         end;
  stop_if (is_some redacted && negb (is_some (ex_boardId x))) "unexpected_redaction"
    (rr_sequence <$> redacted) ≫= fun _ =>
  let '(sequenceText, rowPrevious, rowHash) :=
    match redacted, full with
    | Some r, _ => (rr_sequence r, pgHex (rr_previous_event_sha256 r), pgHex (rr_event_sha256 r))
    | None, Some f => (fr_sequence f, pgHex (fr_previous_event_sha256 f), pgHex (fr_event_sha256 f))
    | None, None => ([], [], [])
    end in
  let sequence := undec sequenceText in
  link_row st sequenceText rowPrevious ≫= fun _ =>
  match full with
  | Some f => check_full x f sequence rowPrevious rowHash
  | None => Pass tt
  end ≫= fun _ =>
  Pass (MkEventState (map_set (hashesBySequence st) sequenceText rowHash)
          (if atStart st then sequence else firstRow st) sequence rowHash
          (containsRedactedRows st || is_some redacted) false).

Definition check_events (x : OfflineAuditExportExpectation) (eventRows : list json) : checked EventState :=
  stop_if (Nat.eqb (length eventRows) 0) "audit_export_empty" None ≫= fun _ =>
  st ← loop (event_row x) initial_events eventRows;
  stop_if (negb (firstRow st =? undec (rangeFirstSequence x))) "export_range_start_mismatch"
    (Some (rangeFirstSequence x)) ≫= fun _ =>
  stop_if (previousSequence st <? undec (rangeLastSequence x)) "export_range_end_mismatch"
    (Some (dec (previousSequence st + 1))) ≫= fun _ =>
  stop_if (undec (rangeLastSequence x) <? previousSequence st) "export_range_end_mismatch"
    (Some (rangeLastSequence x)) ≫= fun _ =>
  stop_if (undec (ex_auditHeadSequence x) <? previousSequence st) "export_range_exceeds_audit_head"
    (Some (dec (previousSequence st))) ≫= fun _ =>
  stop_if ((previousSequence st =? undec (ex_auditHeadSequence x))
           && negb (safeHashEqual (st_previousHash st) (ex_auditHeadSha256 x))) "exported_head_mismatch"
    (Some (dec (previousSequence st))) ≫= fun _ =>
  Pass st.

(** ** Checkpoint rows *)

Record LatestCheckpoint := MkLatest { lt_firstSequence : jsstr; lt_lastSequence : jsstr }.

Record CheckpointState := MkCheckpointState {
  latestTrustedCheckpoint : option LatestCheckpoint;
  st_recoveryEvidence : list SignedAuditRecoveryCheckpoint;
  recoveryRequests : list (jsstr * jsstr)
}.

Definition checkpoint_projection (organization id first last firstHash lastHash key : jsstr) : json :=
  JObj [str "organizationId" organization; str "checkpointId" id; str "firstSequence" first;
        str "lastSequence" last; str "firstEventSha256" firstHash; str "lastEventSha256" lastHash;
        str "signingKeyId" key].

Definition checkpointRowProjection (row : CheckpointRow) : json :=
  checkpoint_projection (cr_organization_id row) (cr_id row) (cr_first_sequence row) (cr_last_sequence row)
    (pgHex (cr_first_event_sha256 row)) (pgHex (cr_last_event_sha256 row)) (cr_signing_key_id row).
Definition payloadProjection (organization : jsstr) (p : AuditCheckpointPayload) : json :=
  checkpoint_projection organization (checkpointId p) (firstSequence p) (lastSequence p)
    (firstEventSha256 p) (lastEventSha256 p) (signingKeyId p).

Definition row_signature (row : CheckpointRow) : jsstr :=
  b64url_encode (bytes_of_hex (pgHex (cr_signature row))).

Definition manifest_verifies (m : ManifestPayload) (signature : jsstr) (key : PublicKey) : bool :=
  match m with
  | Recovery p => verifyRecoveryCheckpoint (MkSigned p signature) key
  | Ordinary p => verifyCheckpoint (MkSigned p signature) (KeyObject key)
  end.

(** The part of the loop body about a recovery finding. *)
Definition recovery_row (x : OfflineAuditExportExpectation) (st : CheckpointState) (row : CheckpointRow)
    (p : AuditRecoveryCheckpointPayload) : checked CheckpointState :=
  let here := Some (cr_last_sequence row) in
  let r := request p in
  stop_if (undec (ex_auditHeadSequence x) <? undec (rq_lastSequence r)) "recovery_request_scope_mismatch"
    here ≫= fun _ =>
  requestBytes ← try_ (canonicalJson (request_json r));
  stop_if match map_get (recoveryRequests st) (recoveryId r) with
          | Some previous => bool_decide (previous <> requestBytes)
          | None => false
          end "recovery_request_mismatch" here ≫= fun _ =>
  Pass (MkCheckpointState (latestTrustedCheckpoint st)
          (if bool_decide (firstSequence (base p) = rq_firstSequence r)
           then st_recoveryEvidence st ++ [MkSigned p (row_signature row)]
           else st_recoveryEvidence st)
          (map_set (recoveryRequests st) (recoveryId r) requestBytes)).

(** [hash !== undefined && !safeHashEqual(hash, expected)] *)
Definition hash_contradicts (hashes : list (jsstr * jsstr)) (sequence expected : jsstr) : bool :=
  match map_get hashes sequence with Some h => negb (safeHashEqual h expected) | None => false end.

Definition checkpoint_row (x : OfflineAuditExportExpectation) (keys : TrustedEvidenceKeySet)
    (instance : option jsstr) (hashes : list (jsstr * jsstr)) (st : CheckpointState) (rawRow : json)
    : checked CheckpointState :=
  row ← try_schema "AuditCheckpointRow" (OfflineAuditCheckpointRowSchema rawRow);
  let here := Some (cr_last_sequence row) in
  let mismatch := "checkpoint_signature_or_projection_mismatch"%string in
  let manifestBytes := bytes_of_hex (pgHex (cr_canonical_manifest row)) in
  v ← try_ (parseOfflineCanonicalJson manifestBytes);
  m ← try_ (parse_manifest v);
  let p := manifest_base m in
  stop_if match instance with Some i => bool_decide (instanceId p <> i) | None => false end
    "checkpoint_instance_mismatch" here ≫= fun _ =>
  let manifestSha256 := pgHex (cr_manifest_sha256 row) in
  claimed ← try_ (canonicalJson (checkpointRowProjection row));
  expected ← try_ (canonicalJson (payloadProjection (ex_organizationId x) p));
  stop_if (bool_decide (organizationId p <> ex_organizationId x) || bool_decide (claimed <> expected)
           || negb (sameTimestamp (cr_created_at row) (issuedAt p))) mismatch here ≫= fun _ =>
  stop_if (negb (safeHashEqual (sha256HexBytes manifestBytes) manifestSha256)) mismatch here ≫= fun _ =>
  trusted ← match trustedEvidenceKey keys (signingKeyId p) (keyId p) with
            | Some k => Pass k
            | None => Stop mismatch here
            end;
  publicKey ← trusted_public_key trusted;
  stop_if (negb (manifest_verifies m (row_signature row) publicKey)) mismatch here ≫= fun _ =>
  st ← match m with Recovery r => recovery_row x st row r | Ordinary _ => Pass st end;
  stop_if (hash_contradicts hashes (firstSequence p) (firstEventSha256 p)) "checkpoint_chain_mismatch"
    here ≫= fun _ =>
  stop_if (hash_contradicts hashes (lastSequence p) (lastEventSha256 p)) "checkpoint_chain_mismatch"
    here ≫= fun _ =>
  if bool_decide (manifestSha256 = ex_latestCheckpointSha256 x) then
    stop_if (is_some (latestTrustedCheckpoint st)) "duplicate_latest_trusted_checkpoint" here ≫= fun _ =>
    Pass (MkCheckpointState (Some (MkLatest (firstSequence p) (cr_last_sequence row)))
            (st_recoveryEvidence st) (recoveryRequests st))
  else Pass st.

(** The findings after the loop. *)
Definition check_findings (st : CheckpointState) (attestedEvidence : list SignedAuditRecoveryCheckpoint)
    : checked unit :=
  let reason := "export_recovery_evidence_binding_mismatch"%string in
  if negb (Nat.eqb (length (recoveryRequests st)) 0) then
    set ← try_ (safeParse (AuditRecoveryEvidenceSetSchema (st_recoveryEvidence st)));
    stop_if (negb (is_some set)
             || negb (Nat.eqb (length (recoveryRequests st)) (length (st_recoveryEvidence st))))
      reason None ≫= fun _ =>
    found ← try_ (canonicalJson (findings_json (st_recoveryEvidence st)));
    signed_text ← try_ (canonicalJson (findings_json attestedEvidence));
    stop_if (bool_decide (found <> signed_text)) reason None
  else stop_if (negb (Nat.eqb (length attestedEvidence) 0)) reason None.

Definition anchor_of (hashes : list (jsstr * jsstr)) (latest : LatestCheckpoint) : option jsstr :=
  if map_has hashes (lt_lastSequence latest) then Some (lt_lastSequence latest)
  else if map_has hashes (lt_firstSequence latest) then Some (lt_firstSequence latest)
  else None.

(** ** The verdict *)

Definition verify_checked (eventBytes checkpointBytes : list Z) (expectation : OfflineAuditExportExpectation)
    (trustedKeys : TrustedEvidenceKeySet) (context : option OfflineAuditExportAttestationContext)
    : checked ExportSummary :=
  x ← try_ (OfflineAuditExportExpectationSchema expectation);
  keys ← try_ (TrustedEvidenceKeySetSchema trustedKeys);
  attestation ←
    match context with
    | None => Pass None
    | Some context => a ← check_attestation context x keys eventBytes checkpointBytes; Pass (Some a)
    end;
  let instance := fst <$> attestation in
  let attestedEvidence := match attestation with Some (_, evidence) => evidence | None => [] end in
  eventComponent ← try_ (parseOfflineExportComponent eventBytes "audit:events");
  events ← check_events x (rows eventComponent);
  checkpointComponent ← try_ (parseOfflineExportComponent checkpointBytes "audit:checkpoints");
  st ← loop (checkpoint_row x keys instance (hashesBySequence events)) (MkCheckpointState None [] [])
         (rows checkpointComponent);
  check_findings st attestedEvidence ≫= fun _ =>
  latest ← match latestTrustedCheckpoint st with
           | Some l => Pass l
           | None => Stop "latest_trusted_checkpoint_unavailable" None
           end;
  stop_if (negb (is_some instance) && containsRedactedRows events) "legacy_redacted_proof_unavailable"
    None ≫= fun _ =>
  let anchor := anchor_of (hashesBySequence events) latest in
  stop_if (negb (is_some anchor) && negb (is_some instance)) "latest_checkpoint_outside_exported_range"
    None ≫= fun _ =>
  stop_if (negb (is_some instance) && bool_decide (anchor <> Some (dec (previousSequence events))))
    "latest_checkpoint_does_not_anchor_export_end" None ≫= fun _ =>
  Pass (MkSummary (Z.of_nat (length (rows eventComponent))) (firstRow events) (previousSequence events)
          (st_previousHash events) (Z.of_nat (length (rows checkpointComponent))) anchor
          (lt_lastSequence latest) (is_some instance) (st_recoveryEvidence st)).

(** Every exception means [export_format_invalid]. *)
Definition verifyOfflineAuditExport (eventBytes checkpointBytes : list Z)
    (expectation : OfflineAuditExportExpectation) (trustedKeys : TrustedEvidenceKeySet)
    (context : option OfflineAuditExportAttestationContext) : OfflineAuditExportVerification :=
  match verify_checked eventBytes checkpointBytes expectation trustedKeys context with
  | Pass summary => Valid summary
  | Stop reason sequence => Invalid reason sequence
  | Raise _ => Invalid "export_format_invalid" None
  end.
End verifier.
