(* ===== verification/OfflineAccepted.v ===== *)
(** * What an accepted audit export is

    The meaning of the verdict of OfflineAudit: the rows of an accepted export
    as a chain, the checkpoint or attestation that vouches for it, and that the
    expectation fixes the events. *)

From stdpp Require Import base numbers sorting strings list.
From Stdlib Require Import Lia.
From S2P Require Import Prelude JsString Encoding JsNumber Json JsonParse JsonCanon Schemas.
From S2P Require Import Decode VotingConsent KeyLifecycle AuditEvent Signing Checkpoint RecoveryCheckpoint.
From S2P Require ExportAttestation.
From S2P Require Import OfflineRows Certificate OfflineCertificate OfflineAudit.

Local Open Scope Z_scope.

(** ** Exports as data *)

(** A row of the event component: its sequence, its hashes and, unless it is
    redacted, its body. *)
Record ExportedRow := MkRow {
  row_sequence : jsstr;
  row_previous : jsstr;
  row_hash : jsstr;
  row_body : option AuditEventBody
}.

Definition result_option {A} (r : result A) : option A := match r with Ok a => Some a | Throw _ => None end.

Section reading.
Context `{Platform} `{!NodeText} `{IsoTime}.

Definition payload_body (hex : jsstr) : option AuditEventBody :=
  result_option (v ← parseOfflineCanonicalJson (bytes_of_hex (pgHex hex)); parse_body v).

Definition read_row (raw : json) : option ExportedRow :=
  match OfflineRedactedAuditEventRowSchema raw with
  | Some r => Some (MkRow (rr_sequence r) (pgHex (rr_previous_event_sha256 r)) (pgHex (rr_event_sha256 r)) None)
  | None =>
      f ← OfflineFullAuditEventRowSchema raw;
      body ← payload_body (fr_canonical_payload f);
      Some (MkRow (fr_sequence f) (pgHex (fr_previous_event_sha256 f)) (pgHex (fr_event_sha256 f)) (Some body))
  end.

Definition exported_rows (eventBytes : list Z) : option (list ExportedRow) :=
  c ← result_option (parseOfflineExportComponent eventBytes "audit:events"); mapM read_row (rows c).

(** The events of an export without redactions. *)
Definition row_event (r : ExportedRow) : option AuditEvent :=
  body ← row_body r; Some (MkEvent body (undec (row_sequence r)) (row_previous r) (row_hash r)).
Definition exported_events (eventBytes : list Z) : option (list AuditEvent) :=
  l ← exported_rows eventBytes; mapM row_event l.

(** The bytes the checkpoint rows carry. *)
Definition row_manifest (raw : json) : option (list Z) :=
  row ← OfflineAuditCheckpointRowSchema raw; Some (bytes_of_hex (pgHex (cr_canonical_manifest row))).
Definition exported_manifests (checkpointBytes : list Z) : list (list Z) :=
  match parseOfflineExportComponent checkpointBytes "audit:checkpoints" with
  | Ok c => omap row_manifest (rows c)
  | Throw _ => []
  end.

(** Consecutive rows: each continues the previous one, and the hash of a row
    with a body is the hash of that body in its place. *)
Fixpoint linked (seq : Z) (prev : jsstr) (l : list ExportedRow) : Prop :=
  match l with
  | [] => True
  | r :: l' =>
      undec (row_sequence r) = seq /\ row_previous r = prev /\
      match row_body r with Some b => eventHash seq prev b = Ok (row_hash r) | None => True end /\
      linked (seq + 1) (row_hash r) l'
  end.

Definition last_row_hash (prev : jsstr) (l : list ExportedRow) : jsstr := foldl (fun _ r => row_hash r) prev l.

Lemma linked_snoc seq prev l r :
  linked seq prev (l ++ [r]) <->
  linked seq prev l /\ undec (row_sequence r) = seq + Z.of_nat (length l) /\
  row_previous r = last_row_hash prev l /\
  match row_body r with
  | Some b => eventHash (seq + Z.of_nat (length l)) (last_row_hash prev l) b = Ok (row_hash r)
  | None => True
  end.
Proof.
  revert seq prev. induction l as [|x l IH]; intros seq prev; cbn [app linked length last_row_hash foldl].
  - rewrite Z.add_0_r. tauto.
  - rewrite IH. replace (seq + 1 + Z.of_nat (length l)) with (seq + Z.of_nat (S (length l))) by lia.
    unfold last_row_hash. tauto.
Qed.

Lemma linked_bound seq prev l r : linked seq prev l -> r ∈ l ->
  seq <= undec (row_sequence r) < seq + Z.of_nat (length l).
Proof.
  revert seq prev. induction l as [|x l IH]; cbn [linked length]; intros seq prev; [by intros _ ?%not_elem_of_nil|].
  intros (Hx & _ & _ & Hl) [->|Hr]%elem_of_cons; [lia|]. specialize (IH _ _ Hl Hr). lia.
Qed.

(** Rows that all have a body are a chain of events. *)
Lemma linked_chain seq prev l es : mapM row_event l = Some es -> linked seq prev l ->
  chain seq prev es /\ last_hash prev es = last_row_hash prev l /\ length es = length l.
Proof.
  revert seq prev es. induction l as [|r l IH]; intros seq prev es; cbn [mapM].
  - by intros [= <-] _.
  - intros (e & He & (es' & Hes & [= <-])%bind_Some)%bind_Some (Hs & Hp & Hb & Hl).
    unfold row_event in He. destruct (row_body r) as [b|]; [|done]. injection He as <-.
    destruct (IH _ _ _ Hes Hl) as (Hc & Hh & Hn). cbn [chain last_hash length]. unfold event_linked.
    cbn [event_hash sequence previousHash event_body]. rewrite Hn, Hs, Hp. by split_and!.
Qed.
End reading.

(** ** Successful checks *)

Lemma pass_bind {A B} (c : checked A) (f : A -> checked B) b :
  (c ≫= f) = Pass b <-> exists a, c = Pass a /\ f a = Pass b.
Proof. destruct c; cbn; naive_solver. Qed.

Lemma pass_try {A} (r : result A) a : try_ r = Pass a <-> r = Ok a.
Proof. destruct r; cbn; naive_solver. Qed.

Lemma pass_schema {A} schema (o : option A) a : try_schema schema o = Pass a <-> o = Some a.
Proof. destruct o; cbn; naive_solver. Qed.

Lemma pass_stop b reason seq u : stop_if b reason seq = Pass u <-> b = false.
Proof. destruct b, u; cbn; naive_solver. Qed.

(** Takes a successful run apart, step by step. *)
Ltac inv_pass :=
  repeat match goal with
  | H : (_ ≫= _) = Pass _ |- _ => apply pass_bind in H as (? & ? & H)
  | H : try_ _ = Pass _ |- _ => apply pass_try in H
  | H : try_schema _ _ = Pass _ |- _ => apply pass_schema in H
  | H : stop_if _ _ _ = Pass _ |- _ => apply pass_stop in H
  | H : Pass _ = Pass _ |- _ => injection H as H
  end.

Section events.
Context `{Platform} `{!NodeText} `{IsoTime}.

Lemma pg_sha256_hex s : OfflinePgSha256Schema s = true -> is_hex64 (pgHex s) = true.
Proof. destruct s as [|b [|x t]]; cbn; try done. intros Hs. by boolify. Qed.

(** What a row establishes on its own. *)
Record row_ok (x : OfflineAuditExportExpectation) (r : ExportedRow) : Prop := {
  rk_sequence : is_pos_dec (row_sequence r) = true;
  rk_previous : is_hex64 (row_previous r) = true;
  rk_hash : is_hex64 (row_hash r) = true;
  rk_redacted : row_body r = None -> is_Some (ex_boardId x);
  (** A body belongs to the board the export is of. *)
  rk_scope : forall b, row_body r = Some b -> is_Some (ex_boardId x) -> boardId b = ex_boardId x
}.

Lemma projection_plain id ety a c j oty oid b : json_plain (projection_json id ety a c j oty oid b) = true.
Proof. unfold projection_json. obj_plain. Qed.

Lemma plain_texts_eq v w s : json_plain v = true -> json_plain w = true ->
  canonicalJson v = Ok s -> canonicalJson w = Ok s -> sort_json v = sort_json w.
Proof.
  intros Pv Pw [Ov Ev]%canonicalJson_ok [Ow Ew]%canonicalJson_ok. rewrite plain_index in Ev, Ew by done.
  apply stringify_inj; [rewrite sort_json_safe; by eapply plain_ok_safe..|congruence].
Qed.

Lemma projections_agree full body s :
  canonicalJson (rowProjection full) = Ok s -> canonicalJson (bodyProjection body) = Ok s ->
  fr_id full = eventId body /\ fr_event_type full = eventType body /\ fr_board_id full = boardId body.
Proof.
  intros Hr Hb. pose proof (plain_texts_eq _ _ _ (projection_plain _ _ _ _ _ _ _ _)
    (projection_plain _ _ _ _ _ _ _ _) Hr Hb) as E.
  unfold rowProjection, bodyProjection, projection_json in E. split_members E. done.
Qed.

Lemma full_row_scalars v f : OfflineFullAuditEventRowSchema v = Some f ->
  is_pos_dec (fr_sequence f) = true /\ OfflinePgSha256Schema (fr_previous_event_sha256 f) = true /\
  OfflinePgSha256Schema (fr_event_sha256 f) = true.
Proof. unfold OfflineFullAuditEventRowSchema. intros E. inv_read. done. Qed.

Lemma redacted_row_scalars v r : OfflineRedactedAuditEventRowSchema v = Some r ->
  is_pos_dec (rr_sequence r) = true /\ OfflinePgSha256Schema (rr_previous_event_sha256 r) = true /\
  OfflinePgSha256Schema (rr_event_sha256 r) = true.
Proof. unfold OfflineRedactedAuditEventRowSchema. intros E. inv_read. done. Qed.

Lemma check_full_ok x full seq prev hash u : check_full x full seq prev hash = Pass u ->
  exists body, payload_body (fr_canonical_payload full) = Some body /\
    eventHash seq prev body = Ok hash /\
    (is_Some (ex_boardId x) -> boardId body = ex_boardId x).
Proof.
  unfold check_full. intros E. inv_pass.
  match goal with
  | Hv : parseOfflineCanonicalJson _ = Ok _, Hb : parse_body _ = Ok ?b, Hr : canonicalJson (rowProjection _) = Ok _,
    Hc : canonicalJson _ = Ok _, Hh : eventHash _ _ _ = Ok _ |- _ =>
      exists b; unfold payload_body; rewrite Hv; cbn [mbind result_bind]; rewrite Hb
  end.
  boolify. split_and!; [done| |].
  - match goal with Hs : safeHashEqual _ _ = true |- _ => apply safeHashEqual_true in Hs as [_ <-] end. done.
  - intros [board Hs].
    match goal with Hn : ~ ?a <> ?b, Hr : canonicalJson (rowProjection _) = Ok ?a |- _ => apply dec_stable in Hn; subst b end.
    match goal with Hr : canonicalJson (rowProjection _) = _, Hc : canonicalJson (bodyProjection _) = _ |- _ =>
      destruct (projections_agree _ _ _ Hr Hc) as (_ & _ & <-) end.
    rewrite Hs in *. cbn [is_some andb] in *. by boolify; apply dec_stable.
Qed.

(** One row of the loop. *)
Definition row_follows (st : EventState) (r : ExportedRow) : Prop :=
  if atStart st then undec (row_sequence r) = 1 -> row_previous r = GENESIS_HASH
  else undec (row_sequence r) = previousSequence st + 1 /\ row_previous r = st_previousHash st.

Definition after_row (st : EventState) (r : ExportedRow) : EventState :=
  MkEventState (map_set (hashesBySequence st) (row_sequence r) (row_hash r))
    (if atStart st then undec (row_sequence r) else firstRow st) (undec (row_sequence r)) (row_hash r)
    (containsRedactedRows st || negb (is_some (row_body r))) false.

Lemma link_row_ok st sequence prev hash body u : link_row st sequence prev = Pass u ->
  row_follows st (MkRow sequence prev hash body).
Proof.
  unfold link_row, row_follows. cbn [row_sequence row_previous]. destruct (atStart st); intros E; inv_pass.
  - intros Hs. rewrite Hs in E. cbn in E. apply negb_false_iff, safeHashEqual_true in E as [_ E]. done.
  - boolify. split; [done|].
    by match goal with Hs : safeHashEqual _ _ = true |- _ => apply safeHashEqual_true in Hs as [_ ?] end.
Qed.

Lemma event_row_ok x st raw st' : event_row x st raw = Pass st' ->
  exists r, read_row raw = Some r /\ row_ok x r /\ row_follows st r /\ st' = after_row st r /\
    match row_body r with
    | Some b => eventHash (undec (row_sequence r)) (row_previous r) b = Ok (row_hash r)
    | None => True
    end.
Proof.
  unfold event_row, read_row. destruct (OfflineRedactedAuditEventRowSchema raw) as [r|] eqn:Er.
  - apply redacted_row_scalars in Er as (Hs & Hp & Hh). intros E. repeat (inv_pass; subst).
    eexists. split; [done|]. cbn [is_some andb] in *. split_and!; [|by eapply link_row_ok|done|done].
    split; cbn; try done; try by apply pg_sha256_hex. intros _. by destruct (ex_boardId x).
  - intros E. repeat (inv_pass; subst).
    match goal with Hf : OfflineFullAuditEventRowSchema raw = Some ?f |- _ =>
      rewrite Hf; apply full_row_scalars in Hf as (Hs & Hp & Hh) end.
    cbn [mbind option_bind].
    match goal with Hc : check_full _ _ _ _ _ = Pass _ |- _ =>
      apply check_full_ok in Hc as (body & -> & Hhash & Hboard) end.
    eexists. split; [done|]. split_and!; [|by eapply link_row_ok|done|done].
    split; cbn; try done; try by apply pg_sha256_hex. by intros ? [= <-].
Qed.

(** The state after the rows read so far. *)
Record events_inv (x : OfflineAuditExportExpectation) (st : EventState) (l : list ExportedRow) : Prop := {
  ei_start : atStart st = bool_decide (l = []);
  ei_rows : Forall (row_ok x) l;
  ei_linked : exists prev, linked (firstRow st) prev l /\ st_previousHash st = last_row_hash prev l /\
    (l <> [] -> firstRow st = 1 -> prev = GENESIS_HASH);
  ei_previous : l <> [] -> previousSequence st = firstRow st + Z.of_nat (length l) - 1;
  ei_hashes : hashesBySequence st = map (fun r => (row_sequence r, row_hash r)) l;
  ei_redacted : containsRedactedRows st = existsb (fun r => negb (is_some (row_body r))) l
}.

Lemma events_initial x : events_inv x initial_events [].
Proof. split; try done. by exists GENESIS_HASH. Qed.

Lemma fresh_sequence l x prev seq r : Forall (row_ok x) l -> linked seq prev l ->
  is_pos_dec (row_sequence r) = true -> undec (row_sequence r) = seq + Z.of_nat (length l) ->
  map_get (map (fun r => (row_sequence r, row_hash r)) l) (row_sequence r) = None.
Proof.
  intros Hl Hk Hr Es. apply map_get_none. rewrite keyed_fst.
  intros (y & Ey & Hy)%list_elem_of_fmap. pose proof (linked_bound _ _ _ _ Hk Hy). rewrite <- Ey in *. lia.
Qed.

Lemma events_step x st l raw st' : events_inv x st l -> event_row x st raw = Pass st' ->
  exists r, read_row raw = Some r /\ events_inv x st' (l ++ [r]).
Proof.
  intros [Hstart Hrows (prev & Hlinked & Hlast & Hgen) Hprev Hhashes Hred]
    (r & Hr & Hok & Hfollows & -> & Hbody)%event_row_ok.
  exists r. split; [done|]. pose proof (rk_sequence _ _ Hok) as Hpos.
  unfold row_follows in Hfollows. destruct l as [|r0 l].
  - rewrite Hstart in Hfollows. cbn in Hfollows, Hstart, Hhashes, Hred. cbn [app].
    split; cbn [after_row hashesBySequence firstRow previousSequence st_previousHash containsRedactedRows
      atStart]; rewrite ?Hstart, ?Hhashes, ?Hred; try done.
    + by constructor.
    + exists (row_previous r). cbn [linked last_row_hash foldl]. split_and!; try done.
    + intros _. cbn. lia.
    + cbn [existsb orb]. by rewrite orb_false_r.
  - rewrite (bool_decide_eq_false_2 (r0 :: l = [])) in Hstart by done. rewrite Hstart in Hfollows.
    destruct Hfollows as [Es Ep]. specialize (Hprev ltac:(done)). rewrite Hprev in Es.
    assert (undec (row_sequence r) = firstRow st + Z.of_nat (length (r0 :: l))) as Es' by lia.
    split; cbn [after_row hashesBySequence firstRow previousSequence st_previousHash containsRedactedRows
      atStart]; rewrite ?Hstart.
    + by rewrite bool_decide_eq_false_2.
    + apply Forall_app. split; [done|by constructor].
    + exists prev. split_and!.
      * apply linked_snoc. rewrite Es', Ep, Hlast in Hbody. split_and!; try done. by rewrite Ep.
      * unfold last_row_hash. by rewrite foldl_app.
      * intros _. by apply Hgen.
    + intros _. rewrite length_app. cbn [length] in *. lia.
    + rewrite Hhashes, map_app. by eapply map_set_fresh, fresh_sequence.
    + rewrite Hred, existsb_app. cbn [existsb]. by rewrite orb_false_r.
Qed.

Lemma events_loop x raws : forall st l st', events_inv x st l -> loop (event_row x) st raws = Pass st' ->
  exists k, mapM read_row raws = Some k /\ events_inv x st' (l ++ k).
Proof.
  induction raws as [|raw raws IH]; cbn [loop]; intros st l st' Hi E; inv_pass.
  - subst. exists []. by rewrite app_nil_r.
  - match goal with Hm : event_row _ _ _ = Pass _ |- _ =>
      apply (events_step _ _ _ _ _ Hi) in Hm as (r & Hr & Hi') end.
    destruct (IH _ _ _ Hi' E) as (k & Hk & Hi'').
    exists (r :: k). cbn [mapM]. rewrite Hr. cbn [mbind option_bind]. rewrite Hk. split; [done|].
    by rewrite <- app_assoc in Hi''.
Qed.
End events.

Section checkpoints.
Context `{Platform} `{!NodeText} `{!Signatures} `{IsoTime}.

(** A manifest with the expected digest, signed with a trusted key, whose
    boundary hashes the exported rows do not contradict. *)
Record vouches (x : OfflineAuditExportExpectation) (keys : TrustedEvidenceKeySet)
    (hashes : list (jsstr * jsstr)) (manifest : list Z) (m : ManifestPayload) : Prop := {
  vc_read : (v ← parseOfflineCanonicalJson manifest; parse_manifest v) = Ok m;
  vc_digest : sha256HexBytes manifest = ex_latestCheckpointSha256 x;
  vc_organization : organizationId (manifest_base m) = ex_organizationId x;
  vc_signed : exists key pk signature,
    trustedEvidenceKey keys (signingKeyId (manifest_base m)) (keyId (manifest_base m)) = Some key /\
    createPublicKeyJwk (JObj (public_jwk key)) = Ok pk /\ manifest_verifies m signature pk = true;
  vc_first : hash_contradicts hashes (firstSequence (manifest_base m)) (firstEventSha256 (manifest_base m)) = false;
  vc_last : hash_contradicts hashes (lastSequence (manifest_base m)) (lastEventSha256 (manifest_base m)) = false
}.

Definition latest_of (m : ManifestPayload) : LatestCheckpoint :=
  MkLatest (firstSequence (manifest_base m)) (lastSequence (manifest_base m)).

Lemma checkpoint_projection_plain o i f l fh lh k : json_plain (checkpoint_projection o i f l fh lh k) = true.
Proof. unfold checkpoint_projection. obj_plain. Qed.

Lemma checkpoint_projections_agree row o p s :
  canonicalJson (checkpointRowProjection row) = Ok s -> canonicalJson (payloadProjection o p) = Ok s ->
  cr_organization_id row = o /\ cr_last_sequence row = lastSequence p.
Proof.
  intros Hr Hb. pose proof (plain_texts_eq _ _ _ (checkpoint_projection_plain _ _ _ _ _ _ _)
    (checkpoint_projection_plain _ _ _ _ _ _ _) Hr Hb) as E.
  unfold checkpointRowProjection, payloadProjection, checkpoint_projection in E. split_members E. done.
Qed.

Lemma recovery_row_latest x st row p st' : recovery_row x st row p = Pass st' ->
  latestTrustedCheckpoint st' = latestTrustedCheckpoint st.
Proof. unfold recovery_row. intros E. repeat (inv_pass; subst). done. Qed.

Lemma checkpoint_step x keys inst hashes st raw st' :
  checkpoint_row x keys inst hashes st raw = Pass st' ->
  latestTrustedCheckpoint st' = latestTrustedCheckpoint st \/
  exists manifest m, row_manifest raw = Some manifest /\ vouches x keys hashes manifest m /\
    latestTrustedCheckpoint st' = Some (latest_of m).
Proof.
  unfold checkpoint_row, row_manifest. intros E. inv_pass.
  match goal with Hr : OfflineAuditCheckpointRowSchema raw = Some ?r |- _ => rename r into row; rewrite Hr end.
  match goal with Hm : parse_manifest _ = Ok ?m' |- _ => rename m' into m, Hm into Hread end.
  match goal with Hk : match trustedEvidenceKey _ _ _ with _ => _ end = Pass ?k |- _ =>
    destruct (trustedEvidenceKey keys _ _) as [key|] eqn:Hkey; [|discriminate Hk]; injection Hk as <- end.
  match goal with Hp : trusted_public_key _ = Pass _ |- _ => unfold trusted_public_key in Hp; apply pass_try in Hp end.
  match goal with Hm : match m with _ => _ end = Pass ?mid |- _ =>
    assert (latestTrustedCheckpoint mid = latestTrustedCheckpoint st) as Hst;
    [destruct m; [by injection Hm as <-|by eapply recovery_row_latest]|clear Hm] end.
  boolify.
  match goal with Hn : ~ ?a <> ?b, Hr : canonicalJson (checkpointRowProjection _) = Ok ?a |- _ =>
    apply dec_stable in Hn; subst b end.
  match goal with Hr : canonicalJson (checkpointRowProjection _) = _, Hc : canonicalJson (payloadProjection _ _) = _ |- _ =>
    destruct (checkpoint_projections_agree _ _ _ _ Hr Hc) as [_ Hlast] end.
  case_bool_decide as Hl; inv_pass; subst; [right|by left].
  match goal with Hs : safeHashEqual _ _ = true |- _ => apply safeHashEqual_true in Hs as [_ Hs];
    rewrite <- Hs in Hl end.
  exists (bytes_of_hex (pgHex (cr_canonical_manifest row))), m. split; [done|]. split.
  - split; try done.
    + by match goal with Hv : parseOfflineCanonicalJson _ = _ |- _ => rewrite Hv end.
    + by apply dec_stable.
    + by eexists _, _, _.
  - unfold latest_of. cbn. by rewrite Hlast.
Qed.

Lemma checkpoints_loop x keys inst hashes raws : forall st st',
  loop (checkpoint_row x keys inst hashes) st raws = Pass st' ->
  latestTrustedCheckpoint st' = latestTrustedCheckpoint st \/
  exists manifest m, manifest ∈ omap row_manifest raws /\ vouches x keys hashes manifest m /\
    latestTrustedCheckpoint st' = Some (latest_of m).
Proof.
  induction raws as [|raw raws IH]; cbn [loop]; intros st st' E; inv_pass; [left; congruence|].
  match goal with Hm : checkpoint_row _ _ _ _ _ _ = Pass ?mid |- _ =>
    apply checkpoint_step in Hm as [Hm|(manifest & m & Hr & Hv & Hm)];
    destruct (IH mid _ E) as [Hl|(manifest' & m' & Hin & Hv' & Hl)] end.
  - left. congruence.
  - right. exists manifest', m'. split_and!; try done. cbn [omap list_omap]. destruct (row_manifest raw); [by right|done].
  - right. exists manifest, m. split_and!; [|done|congruence]. cbn [omap list_omap]. rewrite Hr. by left.
  - right. exists manifest', m'. split_and!; try done. cbn [omap list_omap]. rewrite Hr. by right.
Qed.

Lemma check_events_ok x raws st : check_events x raws = Pass st ->
  exists l, mapM read_row raws = Some l /\ l <> [] /\ events_inv x st l /\
    firstRow st = undec (rangeFirstSequence x) /\ previousSequence st = undec (rangeLastSequence x) /\
    previousSequence st <= undec (ex_auditHeadSequence x) /\
    (previousSequence st = undec (ex_auditHeadSequence x) -> st_previousHash st = ex_auditHeadSha256 x).
Proof.
  unfold check_events. intros E. repeat (inv_pass; subst).
  match goal with Hloop : loop _ _ _ = Pass _ |- _ =>
    destruct (events_loop _ _ _ [] _ (events_initial x) Hloop) as (l & Hl & Hi) end.
  exists l. cbn [app] in Hi. split; [done|]. split.
  { intros ->. destruct raws as [|raw raws]; [done|]. cbn in Hl.
    apply bind_Some in Hl as (r & _ & (k & _ & E')%bind_Some). discriminate E'. }
  boolify. split_and!; try done; try lia. intros Es.
  match goal with Hh : (_ =? _) && negb _ = false |- _ => rewrite (proj2 (Z.eqb_eq _ _) Es) in Hh;
    cbn [andb] in Hh; apply negb_false_iff, safeHashEqual_true in Hh as [_ Hh] end. done.
Qed.
End checkpoints.

(** ** Accepted exports *)

Section accepted.
Context `{Platform} `{!NodeText} `{!Signatures} `{IsoTime}.

Definition row_hashes (l : list ExportedRow) : list (jsstr * jsstr) :=
  map (fun r => (row_sequence r, row_hash r)) l.

(** A checkpoint signs the hash of the last event of an export, as its last
    hash, or else as its first. *)
Definition anchored (p : AuditCheckpointPayload) (last : Z) (hash : jsstr) : Prop :=
  (lastSequence p = dec last /\ lastEventSha256 p = hash) \/
  (lastSequence p <> dec last /\ firstSequence p = dec last /\ firstEventSha256 p = hash).

(** An attestation, signed with a trusted key, of exactly these bytes, for this
    request and this expectation. *)
Definition attested_by (keys : TrustedEvidenceKeySet) (x : OfflineAuditExportExpectation)
    (context : OfflineAuditExportAttestationContext) (eventBytes checkpointBytes : list Z) : Prop :=
  let a := ExportAttestation.attestation (payload (signed context)) in
  attestation_bound a context x eventBytes checkpointBytes = true /\
  exists key pk, trustedEvidenceKey keys (ExportAttestation.at_signingKeyId a) (ExportAttestation.at_keyId a) = Some key /\
    createPublicKeyJwk (JObj (public_jwk key)) = Ok pk /\
    ExportAttestation.verifyAuditExportAttestation (signed context) pk = true.

Lemma linked_nodup seq prev l : linked seq prev l -> NoDup (map row_sequence l).
Proof.
  revert seq prev. induction l as [|r l IH]; intros seq prev; [constructor|]. cbn [linked map].
  intros (Hs & _ & _ & Hl). apply NoDup_cons. split; [|by eapply IH].
  intros (y & Ey & Hy)%list_elem_of_fmap. pose proof (linked_bound _ _ _ _ Hl Hy). rewrite <- Ey in *. lia.
Qed.

Lemma last_hash_recorded x seq prev l : Forall (row_ok x) l -> linked seq prev l -> l <> [] ->
  map_get (row_hashes l) (dec (seq + Z.of_nat (length l) - 1)) = Some (last_row_hash prev l).
Proof.
  intros Ho Hl Hn. apply map_get_nodup; [unfold row_hashes; rewrite keyed_fst; by eapply linked_nodup|].
  destruct l as [|r l _] using rev_ind; [done|]. apply Forall_app in Ho as [_ [Hr _]%Forall_cons].
  apply linked_snoc in Hl as (_ & Hs & _). unfold last_row_hash, row_hashes. rewrite foldl_app. cbn [foldl].
  apply list_elem_of_fmap. exists r. split; [|apply elem_of_app; right; by left].
  f_equal. rewrite length_app. cbn [length]. pose proof (rk_sequence _ _ Hr) as Hp.
  replace (seq + Z.of_nat (length l + 1) - 1) with (undec (row_sequence r)) by lia.
  apply dec_undec. unfold is_nat_dec. by case_bool_decide.
Qed.

Lemma contradicts_false hashes sequence expected h :
  hash_contradicts hashes sequence expected = false -> map_get hashes sequence = Some h -> expected = h.
Proof.
  unfold hash_contradicts. intros Hc Hg. rewrite Hg in Hc. by apply negb_false_iff, safeHashEqual_true in Hc as [_ ->].
Qed.

Lemma anchor_signed x keys manifest m hashes last hash : vouches x keys hashes manifest m ->
  map_get hashes (dec last) = Some hash -> anchor_of hashes (latest_of m) = Some (dec last) ->
  anchored (manifest_base m) last hash.
Proof.
  intros Hv Hg. unfold anchor_of, latest_of. cbn [lt_lastSequence lt_firstSequence].
  destruct (map_has hashes (lastSequence _)) eqn:El.
  - intros [= E]. left. split; [done|]. rewrite <- E in Hg. by eapply contradicts_false; [apply (vc_last _ _ _ _ _ Hv)|].
  - destruct (map_has hashes (firstSequence _)); [|done]. intros [= E]. right. split_and!; [|done|].
    + intros E'. apply map_has_false in El. congruence.
    + rewrite <- E in Hg. by eapply contradicts_false; [apply (vc_first _ _ _ _ _ Hv)|].
Qed.

Lemma attestation_checked context x keys ev cp a : check_attestation context x keys ev cp = Pass a ->
  attested_by keys x context ev cp.
Proof.
  unfold check_attestation. intros E. inv_pass.
  match goal with Hs : ExportAttestation.SignedAuditExportAttestationSchema _ = Ok ?s |- _ =>
    pose proof (signed_schema_same _ _ Hs) as [-> _] end.
  match goal with Hm : match trustedEvidenceKey ?ks ?i ?k with _ => _ end = Pass _ |- _ =>
    destruct (trustedEvidenceKey ks i k) as [key|] eqn:Hkey; cycle 1;
    [injection Hm as <-; discriminate|] end.
  inv_pass. subst. boolify. split; [done|].
  match goal with Hp : trusted_public_key _ = Pass _ |- _ => unfold trusted_public_key in Hp; apply pass_try in Hp end.
  by eexists _, _.
Qed.

(** What stands behind an accepted export. *)
Record accepted_export (ev cp : list Z) (x : OfflineAuditExportExpectation) (keys : TrustedEvidenceKeySet)
    (context : option OfflineAuditExportAttestationContext) (l : list ExportedRow) (prev : jsstr)
    (manifest : list Z) (m : ManifestPayload) : Prop := {
  (** The rows are those of the event component, and one consecutive chain
      over exactly the expected range, within the frozen audit head. *)
  ax_rows : exported_rows ev = Some l;
  ax_rows_ok : Forall (row_ok x) l;
  ax_linked : linked (undec (rangeFirstSequence x)) prev l;
  ax_length : Z.of_nat (length l) = undec (rangeLastSequence x) - undec (rangeFirstSequence x) + 1;
  ax_genesis : undec (rangeFirstSequence x) = 1 -> prev = GENESIS_HASH;
  ax_head : undec (rangeLastSequence x) <= undec (ex_auditHeadSequence x) /\
    (undec (rangeLastSequence x) = undec (ex_auditHeadSequence x) -> last_row_hash prev l = ex_auditHeadSha256 x);
  (** The expected latest checkpoint is there, signed with a trusted key and
      in agreement with the rows. *)
  ax_manifest : manifest ∈ exported_manifests cp;
  ax_vouches : vouches x keys (row_hashes l) manifest m;
  (** Without an attestation nothing is redacted and the checkpoint signs the
      last event; with one, the attestation is of these very bytes. *)
  ax_proof : match context with
    | None => Forall (fun r => is_Some (row_body r)) l /\
        anchored (manifest_base m) (undec (rangeLastSequence x)) (last_row_hash prev l)
    | Some c => attested_by keys x c ev cp
    end
}.

Lemma verify_accepted ev cp x keys context s : verifyOfflineAuditExport ev cp x keys context = Valid s ->
  exists l prev manifest m, accepted_export ev cp x keys context l prev manifest m /\
    headHash s = last_row_hash prev l /\ es_firstSequence s = undec (rangeFirstSequence x) /\
    es_lastSequence s = undec (rangeLastSequence x) /\ eventCount s = Z.of_nat (length l).
Proof.
  unfold verifyOfflineAuditExport. destruct (verify_checked ev cp x keys context) as [s'| |] eqn:E; try done.
  intros [= ->]. unfold verify_checked in E. inv_pass.
  match goal with Hx : OfflineAuditExportExpectationSchema _ = Ok _ |- _ => apply parse_ok in Hx as [-> Hx] end.
  match goal with Hx : TrustedEvidenceKeySetSchema _ = Ok _ |- _ => apply parse_ok in Hx as [-> Hx] end.
  match goal with He : check_events _ _ = Pass ?st |- _ =>
    rename st into evs; apply check_events_ok in He as (l & Hl & Hn & Hi & Hf & Hp & Hle & Hhead) end.
  destruct Hi as [_ Hok (prev & Hlinked & Hlast & Hgen) Hprev Hhashes Hred].
  fold (row_hashes l) in Hhashes. specialize (Hprev Hn).
  match goal with Hc : loop (checkpoint_row _ _ _ _) _ _ = Pass _ |- _ =>
    apply checkpoints_loop in Hc; cbn [latestTrustedCheckpoint] in Hc; rename Hc into Hlatest end.
  match goal with Hm : match latestTrustedCheckpoint ?st with _ => _ end = Pass ?lt |- _ =>
    destruct Hlatest as [Hnone|(manifest & m & Hin & Hv & Hlatest)];
    [rewrite Hnone in Hm; discriminate Hm|rewrite Hlatest in Hm; injection Hm as <-] end.
  exists l, prev, manifest, m. subst s. cbn [headHash es_firstSequence es_lastSequence eventCount].
  rewrite Hhashes, Hf in *. split; [|split_and!; try done; by apply length_mapM in Hl as ->].
  pose proof (last_hash_recorded x _ _ _ Hok Hlinked Hn) as Hrec.
  split; try done; try lia; try by auto.
  - unfold exported_rows. match goal with Hc : parseOfflineExportComponent ev _ = _ |- _ => by rewrite Hc end.
  - rewrite <- Hp, <- Hlast. by split.
  - unfold exported_manifests. match goal with Hc : parseOfflineExportComponent cp _ = _ |- _ => by rewrite Hc end.
  - destruct context as [c|].
    + match goal with Hc : (_ ≫= _) = Pass _ |- _ => apply pass_bind in Hc as (a & Ha & _) end.
      by eapply attestation_checked.
    + match goal with Hc : Pass None = Pass _ |- _ => injection Hc as <- end. cbn [fmap option_fmap option_map is_some negb andb] in *.
      split.
      * match goal with Hr : containsRedactedRows evs = false |- _ => rewrite Hred in Hr; rename Hr into Hnone end.
        apply List.Forall_forall. intros r Hr. destruct (row_body r) as [b|] eqn:Eb; [by eexists|].
        assert (existsb (fun r => negb (is_some (row_body r))) l = true); [|congruence].
        apply existsb_exists. exists r. by rewrite Eb.
      * match goal with Ha : bool_decide (_ <> _) = false |- _ => apply bool_decide_eq_false in Ha;
          apply dec_stable in Ha; rename Ha into Hanchor end.
        rewrite Hp in *. eapply anchor_signed; [exact Hv| |exact Hanchor].
        by rewrite <- Hrec, <- Hprev.
Qed.

(** C5. An accepted export is what it claims. Its rows are one consecutive
    chain over exactly the expected range, every unredacted row hashing its own
    canonical body, within the frozen audit head and ending in it where they
    meet; the expected latest checkpoint is among its checkpoints, signed with
    a trusted key. Without an attestation nothing is redacted and that
    checkpoint signs the last event; with one, a trusted key has signed the
    digests of these very bytes for this request. *)
Theorem export_verified ev cp x keys context s : verifyOfflineAuditExport ev cp x keys context = Valid s ->
  exists l prev manifest m, accepted_export ev cp x keys context l prev manifest m /\
    headHash s = last_row_hash prev l /\ es_firstSequence s = undec (rangeFirstSequence x) /\
    es_lastSequence s = undec (rangeLastSequence x) /\ eventCount s = Z.of_nat (length l).
Proof. apply verify_accepted. Qed.

Lemma same_anchor p L h h' : anchored p L h -> anchored p L h' -> h = h'.
Proof. intros [(? & <-)|(? & ? & <-)] [(? & <-)|(? & ? & <-)]; done. Qed.

(** C6. The expectation fixes the events. Two exports that are accepted for the
    same expectation without an attestation, under whatever trusted keys, carry
    the same events, or two of their events, or two of their checkpoint
    manifests, are an explicit SHA-256 collision. The details of the events
    have canonical strings and safe integers. *)
Theorem export_fixed `{!Rfc8785} ev cp ev' cp' x keys keys' s s' es es' :
  verifyOfflineAuditExport ev cp x keys None = Valid s ->
  verifyOfflineAuditExport ev' cp' x keys' None = Valid s' ->
  exported_events ev = Some es -> exported_events ev' = Some es' ->
  Forall exact_details es -> Forall exact_details es' ->
  Forall2 same_event es es' \/
  (exists e f, e ∈ es /\ f ∈ es' /\ collision (hashed_bytes e) (hashed_bytes f)) \/
  (exists a b, a ∈ exported_manifests cp /\ b ∈ exported_manifests cp' /\ collision a b).
Proof.
  intros (l & p & mf & m & A & _)%verify_accepted (l' & p' & mf' & m' & A' & _)%verify_accepted.
  unfold exported_events. intros (k & Hk & He)%bind_Some (k' & Hk' & He')%bind_Some Hx Hx'.
  rewrite (ax_rows _ _ _ _ _ _ _ _ _ A) in Hk. rewrite (ax_rows _ _ _ _ _ _ _ _ _ A') in Hk'.
  injection Hk as <-. injection Hk' as <-.
  pose proof (ax_vouches _ _ _ _ _ _ _ _ _ A) as V. pose proof (ax_vouches _ _ _ _ _ _ _ _ _ A') as V'.
  destruct (sha256HexBytes_eq mf mf') as [<-|Hc]; [by rewrite (vc_digest _ _ _ _ _ V), (vc_digest _ _ _ _ _ V')| |].
  2:{ right. right. exists mf, mf'. split_and!; [apply A|apply A'|done]. }
  assert (m' = m) as -> by (pose proof (vc_read _ _ _ _ _ V); pose proof (vc_read _ _ _ _ _ V'); congruence).
  destruct (ax_proof _ _ _ _ _ _ _ _ _ A) as [_ N]. destruct (ax_proof _ _ _ _ _ _ _ _ _ A') as [_ N'].
  destruct (linked_chain _ _ _ _ He (ax_linked _ _ _ _ _ _ _ _ _ A)) as (C & L & Hn).
  destruct (linked_chain _ _ _ _ He' (ax_linked _ _ _ _ _ _ _ _ _ A')) as (C' & L' & Hn').
  pose proof (ax_length _ _ _ _ _ _ _ _ _ A) as Hl. pose proof (ax_length _ _ _ _ _ _ _ _ _ A') as Hl'.
  destruct (decide (1 <= undec (rangeFirstSequence x))) as [Hs|Hs].
  - destruct (chains_same (undec (rangeFirstSequence x)) p p' es es' Hs Hx Hx' C C') as [|Hc]; auto; [lia|].
    rewrite L, L'. by eapply same_anchor.
  - left. destruct es as [|e es]; [by destruct es'; [|cbn in *; lia]|].
    destruct C as [(_ & _ & Hh) _]. apply eventHash_ok in Hh as [? _]. lia.
Qed.

(** Two expectations name the same range of the same chain. *)
Definition same_range (x x' : OfflineAuditExportExpectation) : Prop :=
  ex_organizationId x = ex_organizationId x' /\ ex_boardId x = ex_boardId x' /\
  rangeFirstSequence x = rangeFirstSequence x' /\ rangeLastSequence x = rangeLastSequence x'.

(** An attestation fixes the bytes. Two exports that are accepted with the
    same attestation are the same bytes, events and checkpoints, or they are an
    explicit SHA-256 collision, and they were expected to be the same range. *)
Theorem attested_bytes ev cp ev' cp' x x' keys keys' c c' s s' :
  verifyOfflineAuditExport ev cp x keys (Some c) = Valid s ->
  verifyOfflineAuditExport ev' cp' x' keys' (Some c') = Valid s' ->
  payload (signed c) = payload (signed c') ->
  (ev = ev' \/ collision ev ev') /\ (cp = cp' \/ collision cp cp') /\ same_range x x'.
Proof.
  unfold same_range. intros (l & p & mf & m & A & _)%verify_accepted (l' & p' & mf' & m' & A' & _)%verify_accepted E.
  pose proof (ax_proof _ _ _ _ _ _ _ _ _ A) as [B _]. pose proof (ax_proof _ _ _ _ _ _ _ _ _ A') as [B' _].
  rewrite <- E in B'. unfold attestation_bound in *. boolify.
  split_and!; try congruence; apply sha256HexBytes_eq; congruence.
Qed.
End accepted.

(** ** A concrete export *)

Definition pg_text (bytes : list Z) : jsstr := [92; 120] ++ hex_of_bytes bytes.
Definition sample_component (name : string) (rows : list json) : list Z :=
  canonical_bytes (JObj [str "schemaVersion" (js "boardagent.export-component.v1"); str "name" (js name);
                         str "rowEncoding" (js "postgres-text-v1"); (js "rows", JArr rows)]).

Definition sample_row (e : AuditEvent) : json :=
  let b := event_body e in
  JObj [str "id" (eventId b); str "sequence" (dec (sequence e)); str "organization_id" sample_id;
        nullable "board_id" None; str "event_type" (eventType b);
        str "schema_version" (js "boardagent.audit-event.v1"); nullable "actor_member_id" None;
        nullable "acting_for_member_id" None; nullable "client_id" None; nullable "token_jti" None;
        nullable "consent_record_id" None; str "object_type" (entityType b); nullable "object_id" None;
        nullable "object_version" None; str "canonical_payload" (pg_text (canonical_bytes (body_json b)));
        str "previous_event_sha256" ([92; 120] ++ previousHash e);
        str "event_sha256" ([92; 120] ++ event_hash e); str "occurred_at" (js "2026-01-01 02:00:00+02")].

Definition sample_manifest : AuditCheckpointPayload :=
  MkCheckpoint sample_id sample_id sample_id (js "1") (js "2")
    (last_hash GENESIS_HASH (take 1 sample_events)) sample_head (js "2026-01-01T00:10:00Z") sample_id (js "key-1").
Definition sample_manifest_bytes : list Z := canonical_bytes (checkpoint_json sample_manifest).

Definition sample_checkpoint_row : json :=
  let signature := b64url_decode (signatureBase64Url
    (catch (@signCheckpoint plain_platform toy_signatures sample_manifest tt) (MkSigned sample_manifest []))) in
  JObj [str "id" sample_id; str "organization_id" sample_id; str "first_sequence" (js "1");
        str "last_sequence" (js "2"); str "first_event_sha256" ([92; 120] ++ firstEventSha256 sample_manifest);
        str "last_event_sha256" ([92; 120] ++ sample_head);
        str "canonical_manifest" (pg_text sample_manifest_bytes);
        str "manifest_sha256" ([92; 120] ++ sha256HexBytes sample_manifest_bytes);
        str "signature" (pg_text signature); str "signing_key_id" sample_id;
        str "created_at" (js "2026-01-01T00:10:00Z")].

Definition sample_event_bytes : list Z := sample_component "audit:events" (map sample_row sample_events).
Definition sample_checkpoint_bytes : list Z := sample_component "audit:checkpoints" [sample_checkpoint_row].
Definition sample_trusted : TrustedEvidenceKeySet := [MkEvidenceKey sample_id (js "key-1") []].
Definition sample_expectation : OfflineAuditExportExpectation :=
  MkExpectation sample_id None (js "1") (js "2") (js "2") sample_head (sha256HexBytes sample_manifest_bytes).

Definition sample_attested : ExportAttestation.AuditExportAttestationPayload :=
  ExportAttestation.V1 (ExportAttestation.MkAttestation sample_id sample_id sample_id None sample_hash
    sample_hash (js "1") (js "2") (js "2") sample_head (sha256HexBytes sample_manifest_bytes)
    (sha256HexBytes sample_event_bytes) (sha256HexBytes sample_checkpoint_bytes)
    (js "2026-01-02T00:00:00Z") sample_id (js "key-1")).
Definition sample_context : OfflineAuditExportAttestationContext :=
  MkContext (catch (@ExportAttestation.signAuditExportAttestation plain_platform toy_signatures sample_attested tt)
               (MkSigned sample_attested [])) sample_id sample_hash sample_hash None.

Definition sample_verify : option OfflineAuditExportAttestationContext -> OfflineAuditExportVerification :=
  @verifyOfflineAuditExport plain_platform (@strict_text plain_platform) toy_signatures plain_time
    sample_event_bytes sample_checkpoint_bytes sample_expectation sample_trusted.

Definition sample_summary (attested : bool) : ExportSummary :=
  MkSummary 2 1 2 sample_head 1 (Some (js "2")) (js "2") attested [].

Definition sample_rows : option (list ExportedRow) :=
  @exported_rows plain_platform (@strict_text plain_platform) plain_time sample_event_bytes.
Definition sample_exported : list AuditEvent :=
  default [] (@exported_events plain_platform (@strict_text plain_platform) plain_time sample_event_bytes).

Lemma export_verified_witness : sample_verify None = Valid (sample_summary false) /\
  exists l, sample_rows = Some l /\ Z.of_nat (length l) = 2.
Proof.
  assert (sample_verify None = Valid (sample_summary false)) as Hv by (vm_compute; reflexivity).
  split; [exact Hv|].
  destruct (@export_verified plain_platform (@strict_text plain_platform) toy_signatures plain_time
    _ _ _ _ _ _ Hv) as (l & p & mf & m & A & _ & _ & _ & Hc).
  exists l. split; [apply A|]. symmetry. exact Hc.
Defined.

Lemma export_fixed_witness : length sample_exported = 2%nat /\
  (Forall2 same_event sample_exported sample_exported \/
   (exists e f, e ∈ sample_exported /\ f ∈ sample_exported /\ collision (hashed_bytes e) (hashed_bytes f)) \/
   (exists a b, a ∈ @exported_manifests plain_platform (@strict_text plain_platform) sample_checkpoint_bytes /\
      b ∈ @exported_manifests plain_platform (@strict_text plain_platform) sample_checkpoint_bytes /\
      collision a b)).
Proof.
  split; [vm_compute; reflexivity|].
  assert (sample_verify None = Valid (sample_summary false)) as Hv by (vm_compute; reflexivity).
  assert (@exported_events plain_platform (@strict_text plain_platform) plain_time sample_event_bytes
          = Some sample_exported) as He by (vm_compute; reflexivity).
  pose proof (@exact_all plain_platform sample_exported ltac:(vm_compute; reflexivity)) as Hx.
  exact (@export_fixed plain_platform (@strict_text plain_platform) toy_signatures plain_time plain_rfc8785
    sample_event_bytes sample_checkpoint_bytes sample_event_bytes sample_checkpoint_bytes sample_expectation
    sample_trusted sample_trusted _ _ sample_exported sample_exported Hv Hv He He Hx Hx).
Defined.

Lemma attested_bytes_witness : sample_verify (Some sample_context) = Valid (sample_summary true) /\
  (sample_event_bytes = sample_event_bytes \/ collision sample_event_bytes sample_event_bytes).
Proof.
  assert (sample_verify (Some sample_context) = Valid (sample_summary true)) as Hv by (vm_compute; reflexivity).
  split; [exact Hv|].
  exact (proj1 (@attested_bytes plain_platform (@strict_text plain_platform) toy_signatures plain_time
    sample_event_bytes sample_checkpoint_bytes sample_event_bytes sample_checkpoint_bytes sample_expectation
    sample_expectation sample_trusted sample_trusted sample_context sample_context _ _ Hv Hv eq_refl)).
Defined.

(** A row that is moved, dropped or altered is located. *)
Example sample_dropped_row :
  @verifyOfflineAuditExport plain_platform (@strict_text plain_platform) toy_signatures plain_time
    (sample_component "audit:events" (map sample_row (rev sample_events))) sample_checkpoint_bytes
    sample_expectation sample_trusted None = Invalid "sequence_gap_or_reorder" (Some (js "3")).
Proof. vm_compute. reflexivity. Qed.
