(* ===== verification/Consent.v ===== *)
(** * Confirming a staged action

    lib/domain/src/consent.ts: what a stage remembers, what a confirmation
    attempt presents, and the check that decides whether the attempt binds. *)

From stdpp Require Import base numbers sorting strings list.
From Stdlib Require Import Lia.
From S2P Require Import Prelude JsString Encoding JsNumber.

Local Open Scope Z_scope.

Inductive StageStatus := active | replaced | confirmed | rejected | expired | cancelled.
Inductive AttemptAction := accept | decline | cancel.

#[export] Instance StageStatus_eq : EqDecision StageStatus.
Proof. solve_decision. Defined.
#[export] Instance AttemptAction_eq : EqDecision AttemptAction.
Proof. solve_decision. Defined.

Record ActionStage := MkStage {
  status : StageStatus;
  actionType : jsstr;
  targetId : jsstr;
  actorMemberId : jsstr;
  canonicalHash : jsstr;
  requestHash : jsstr;
  protectedStateHash : jsstr;
  confirmationCodeHash : jsstr;
  expiresAtMs : jsnum
}.

Record ConfirmationAttempt := MkAttempt {
  attempt_action : AttemptAction;
  approve : bool;
  confirmationCode : jsstr;
  protectedState : jsstr;
  attempt_requestHash : jsstr;
  attempt_canonicalHash : jsstr;
  nowMs : jsnum
}.

Inductive Refusal :=
  | stage_not_active | stage_expired | declined | request_mismatch | state_mismatch
  | canonical_stale | code_mismatch.

Inductive ConfirmationResult :=
  | Accepted
  | Refused (reason : Refusal).

Definition verifyConfirmation (stage : ActionStage) (attempt : ConfirmationAttempt)
    : result ConfirmationResult :=
  if negb (isFinite (expiresAtMs stage)) || negb (isFinite (nowMs attempt))
  then Throw (RangeError "consent expiry and clock must be finite timestamps" []) else
  if negb (bool_decide (status stage = active)) then Ok (Refused stage_not_active) else
  if num_le (expiresAtMs stage) (nowMs attempt) then Ok (Refused stage_expired) else
  if negb (bool_decide (attempt_action attempt = accept)) || negb (approve attempt)
  then Ok (Refused declined) else
  if negb (safeHashEqual (requestHash stage) (attempt_requestHash attempt))
  then Ok (Refused request_mismatch) else
  if negb (safeHashEqual (protectedStateHash stage) (sha256Hex (protectedState attempt)))
  then Ok (Refused state_mismatch) else
  if negb (safeHashEqual (canonicalHash stage) (attempt_canonicalHash attempt))
  then Ok (Refused canonical_stale) else
  if negb (safeHashEqual (confirmationCodeHash stage) (sha256Hex (confirmationCode attempt)))
  then Ok (Refused code_mismatch) else
  Ok Accepted.

(** ** Properties *)

(** The conditions of acceptance, in the order in which they are reported. *)
Definition conditions (stage : ActionStage) (attempt : ConfirmationAttempt) : list (Refusal * Prop) :=
  [(stage_not_active, status stage = active);
   (stage_expired, num_le (expiresAtMs stage) (nowMs attempt) = false);
   (declined, attempt_action attempt = accept /\ approve attempt = true);
   (request_mismatch, is_hex64 (requestHash stage) = true /\
      attempt_requestHash attempt = requestHash stage);
   (state_mismatch, sha256Hex (protectedState attempt) = protectedStateHash stage);
   (canonical_stale, is_hex64 (canonicalHash stage) = true /\
      attempt_canonicalHash attempt = canonicalHash stage);
   (code_mismatch, sha256Hex (confirmationCode attempt) = confirmationCodeHash stage)].

Fixpoint first_violated (reason : Refusal) (l : list (Refusal * Prop)) : Prop :=
  match l with
  | [] => False
  | (r, P) :: l' => (r = reason /\ ~ P) \/ (P /\ first_violated reason l')
  end.

Definition all_hold (l : list (Refusal * Prop)) : Prop := Forall (fun c => c.2) l.

Lemma digest_check h s : safeHashEqual h (sha256Hex s) = true <-> sha256Hex s = h.
Proof.
  rewrite safeHashEqual_true. split; [by intros [_ ->]|]. intros <-. split; [apply sha256Hex_hex64|done].
Qed.

Lemma hash_check a b : safeHashEqual a b = true <-> is_hex64 a = true /\ b = a.
Proof. rewrite safeHashEqual_true. naive_solver. Qed.

(** Reads what a decided test says about its condition. *)
Ltac known E :=
  first [pose proof (proj1 E eq_refl)|pose proof (fun p => Bool.diff_false_true (proj2 E p))]; clear E.

(** The reason given is the first violated condition. *)
Ltac violated :=
  split; [done|];
  repeat first [left; split; [reflexivity|solve [assumption|congruence|intros []; congruence]]
               |right; split; [solve [assumption|tauto]|]].

(** A confirmation attempt is judged by seven conditions in a fixed order:
    the stage is active, not expired, the attempt accepts and approves, and the
    request, the protected state, the canonical content and the confirmation
    code hash to what the stage recorded. It is accepted exactly when all hold;
    otherwise the reason given is the first condition that fails. Only a clock
    or an expiry that is not a finite number makes the check throw. *)
Theorem confirmation_decided stage attempt :
  match verifyConfirmation stage attempt with
  | Throw e => isFinite (expiresAtMs stage) && isFinite (nowMs attempt) = false
  | Ok Accepted => isFinite (expiresAtMs stage) && isFinite (nowMs attempt) = true /\
      all_hold (conditions stage attempt)
  | Ok (Refused reason) => isFinite (expiresAtMs stage) && isFinite (nowMs attempt) = true /\
      first_violated reason (conditions stage attempt)
  end.
Proof.
  unfold verifyConfirmation, conditions, all_hold. cbn [first_violated].
  pose proof (hash_check (requestHash stage) (attempt_requestHash attempt)) as E5.
  pose proof (digest_check (protectedStateHash stage) (protectedState attempt)) as E6.
  pose proof (hash_check (canonicalHash stage) (attempt_canonicalHash attempt)) as E7.
  pose proof (digest_check (confirmationCodeHash stage) (confirmationCode attempt)) as E8.
  destruct (isFinite (expiresAtMs stage)), (isFinite (nowMs attempt)); cbn [negb orb andb]; try done.
  case_bool_decide as E1; cbn [negb]; [|violated].
  destruct (num_le _ _) eqn:E2; [violated|].
  case_bool_decide as E3; cbn [negb orb]; [|violated].
  destruct (approve attempt) eqn:E4; cbn [negb]; [|violated].
  destruct (safeHashEqual (requestHash _) _); cbn [negb]; known E5; [|violated].
  destruct (safeHashEqual (protectedStateHash _) _); cbn [negb]; known E6; [|violated].
  destruct (safeHashEqual (canonicalHash _) _); cbn [negb]; known E7; [|violated].
  destruct (safeHashEqual (confirmationCodeHash _) _); cbn [negb]; known E8; [|violated].
  split; [done|]. repeat constructor; tauto.
Qed.

(** ** A concrete stage *)

Definition sample_stage : ActionStage :=
  MkStage active (js "cast_ballot") (js "vote") (js "member") (sha256Hex (js "content"))
    (sha256Hex (js "request")) (sha256Hex (js "state")) (sha256Hex (js "123456")) (NInt 1000).

Definition sample_attempt (code : string) (now : Z) : ConfirmationAttempt :=
  MkAttempt accept true (js code) (js "state") (sha256Hex (js "request")) (sha256Hex (js "content"))
    (NInt now).

Example confirmed_in_time : verifyConfirmation sample_stage (sample_attempt "123456" 999) = Ok Accepted.
Proof. vm_compute. reflexivity. Qed.
Example expired_on_time :
  verifyConfirmation sample_stage (sample_attempt "123456" 1000) = Ok (Refused stage_expired).
Proof. vm_compute. reflexivity. Qed.
Example wrong_code :
  verifyConfirmation sample_stage (sample_attempt "123457" 999) = Ok (Refused code_mismatch).
Proof. vm_compute. reflexivity. Qed.
