(* ===== verification/Feed.v ===== *)
(** * The feed of pending actions

    lib/domain/src/feed.ts with its schemas in lib/contracts/src/governance.ts:
    the signed feed cursor and the page of deltas a member may see. Cursors are
    shown to be exactly what the server signed, and pages to enumerate every
    entitled delta once, in numeric order. *)

From stdpp Require Import base numbers sorting strings list.
From Stdlib Require Import Lia.
From S2P Require Import Prelude JsString Encoding JsNumber Json JsonParse JsonCanon Schemas.
From S2P Require Import VotingConsent Decode Signing Codec.

Local Open Scope Z_scope.

(** ** Cursors *)

Record FeedCursorPayload := MkCursor {
  memberId : jsstr;
  boardId : option jsstr;
  entitlementGeneration : Z;
  afterSequence : jsstr
}.

Definition cursor_ok (p : FeedCursorPayload) : bool :=
  is_uuid_v7 (memberId p) && opt_all is_uuid_v7 (boardId p)
  && is_safe_positive (entitlementGeneration p) && is_nat_dec (afterSequence p).

Definition FeedCursorPayloadSchema (p : FeedCursorPayload) : result FeedCursorPayload :=
  parse "FeedCursorPayload" cursor_ok p.

Definition cursor_json (p : FeedCursorPayload) : json :=
  JObj [str "schemaVersion" (js "boardagent.feed-cursor.v1"); str "memberId" (memberId p);
        nullable "boardId" (boardId p); int_member "entitlementGeneration" (entitlementGeneration p);
        str "afterSequence" (afterSequence p)].

Definition cursor_keys : list string :=
  ["schemaVersion"; "memberId"; "boardId"; "entitlementGeneration"; "afterSequence"].

Definition cursor_of_json (v : json) : option FeedCursorPayload :=
  l ← members v;
  if negb (strict cursor_keys l) then None else
  _ ← required l "schemaVersion" (dLiteral "boardagent.feed-cursor.v1");
  memberId ← required l "memberId" (dString is_uuid_v7);
  boardId ← required l "boardId" (dNullable (dString is_uuid_v7));
  entitlementGeneration ← required l "entitlementGeneration" (dInt is_safe_positive);
  afterSequence ← required l "afterSequence" (dString is_nat_dec);
  Some (MkCursor memberId boardId entitlementGeneration afterSequence).

Definition sorted_cursor_json (p : FeedCursorPayload) : json :=
  JObj [str "afterSequence" (afterSequence p); nullable "boardId" (boardId p);
        int_member "entitlementGeneration" (entitlementGeneration p); str "memberId" (memberId p);
        str "schemaVersion" (js "boardagent.feed-cursor.v1")].

Lemma sort_cursor p : sort_json (cursor_json p) = sorted_cursor_json p.
Proof. destruct p as [m [b|] g a]; vm_compute; reflexivity. Qed.

#[export] Instance feed_cursor_format `{Platform} : JsonFormat FeedCursorPayload.
Proof.
  refine {| to_json := cursor_json; of_json := cursor_of_json; valid := cursor_ok |}.
  - intros w p Hr. unfold cursor_of_json in Hr. inv_read. apply andb_true_iff; split; [|done].
    by rewrite !andb_true_iff.
  - intros w p Hd Hr. destruct w as [|b|n|t|l|l]; try done. unfold cursor_of_json in Hr.
    cbn [members distinct_names] in *. inv_read. unfold cursor_json. read_literal.
  - intros p Hp. unfold cursor_ok in Hp. boolify. rewrite sort_cursor.
    unfold cursor_of_json, sorted_cursor_json. cbn [members mbind option_bind].
    replace (strict _ _) with true by (destruct p as [m [b|] g a]; vm_compute; reflexivity).
    cbn [negb]. read_members. by destruct p.
  - intros p Hp. unfold cursor_ok in Hp. boolify. unfold cursor_json. obj_plain. by apply safe_positive.
Defined.

Section cursors.
Context `{Platform} `{!NodeText}.

Definition assertCursorKey (key : list Z) : result unit :=
  throw_if (Z.of_nat (length key) <? 32)
    (RangeError "feed cursor key must contain at least 32 bytes" []).

Definition encodeFeedCursor (payloadInput : FeedCursorPayload) (key : list Z) : result jsstr :=
  assertCursorKey key ≫= fun _ =>
  payload ← FeedCursorPayloadSchema payloadInput;
  text ← canonicalJson (cursor_json payload);
  let body := b64url_encode (utf8_encode text) in
  let signature := b64url_encode (hmac_sha256 key (utf8_encode body)) in
  Ok (body ++ js "." ++ signature).

(** [FeedCursorPayloadSchema.parse(JSON.parse(text))] *)
Definition parseFeedCursor (text : jsstr) : result FeedCursorPayload :=
  match JSON_parse text with
  | None => Throw (JsError "SyntaxError" [])
  | Some value =>
      match cursor_of_json value with
      | Some payload => Ok payload
      | None => Throw (ZodError "FeedCursorPayload")
      end
  end.

Definition decodeFeedCursor (cursor : jsstr) (key : list Z) : result FeedCursorPayload :=
  assertCursorKey key ≫= fun _ =>
  match split_on 46 cursor with
  | [body; suppliedEncoded] =>
      if bool_decide (body = []) || bool_decide (suppliedEncoded = [])
      then Throw (JsError "invalid feed cursor framing" []) else
      let supplied := b64url_decode suppliedEncoded in
      if negb (bool_decide (b64url_encode supplied = suppliedEncoded))
      then Throw (JsError "invalid feed cursor signature encoding" []) else
      let expected := hmac_sha256 key (utf8_encode body) in
      if negb (Nat.eqb (length supplied) (length expected)) || negb (bool_decide (supplied = expected))
      then Throw (JsError "invalid feed cursor signature" []) else
      let raw := b64url_decode body in
      if negb (bool_decide (b64url_encode raw = body))
      then Throw (JsError "invalid feed cursor body encoding" []) else
      canonical ← canonicalJsonFromBytes raw;
      if negb (bool_decide (canonical = buffer_toString raw))
      then Throw (JsError "feed cursor body is not canonical" []) else
      parseFeedCursor canonical
  | _ => Throw (JsError "invalid feed cursor framing" [])
  end.

Lemma parseFeedCursor_ok text p :
  parseFeedCursor text = Ok p <-> JSON_parse text ≫= of_json = Some p.
Proof.
  unfold parseFeedCursor. destruct (JSON_parse text) as [v|]; [|done]. cbn.
  change (of_json v) with (cursor_of_json v). destruct (cursor_of_json v); split; congruence.
Qed.

Lemma encodeFeedCursor_ok p key c : encodeFeedCursor p key = Ok c <->
  (Z.of_nat (length key) <? 32) = false /\ valid p = true /\
  exists text, canonicalJson (to_json p) = Ok text /\
    let body := b64url_encode (utf8_encode text) in
    c = body ++ 46 :: b64url_encode (hmac_sha256 key (utf8_encode body)).
Proof.
  unfold encodeFeedCursor, FeedCursorPayloadSchema, assertCursorKey, parse.
  change (valid p) with (cursor_ok p). change (to_json p) with (cursor_json p).
  destruct (_ <? 32); [split; [done|by intros []]|]. cbn [throw_if mbind result_bind].
  destruct (cursor_ok p); [|split; [done|by intros (_ & ? & _)]]. cbn [mbind result_bind].
  destruct (canonicalJson _) as [text|e]; [|split; [done|by intros (_ & _ & ? & ? & _)]].
  cbn [mbind result_bind]. split.
  - intros [= <-]. split_and!; try done. by exists text.
  - intros (_ & _ & ? & [= <-] & ->). done.
Qed.

Lemma decodeFeedCursor_encoded p key c : encodeFeedCursor p key = Ok c -> decodeFeedCursor c key = Ok p.
Proof.
  intros (Hk & Hv & text & Et & ->)%encodeFeedCursor_ok.
  destruct (payload_read_back p text Hv Et) as (Hw & Hc & Hb & Hp).
  unfold decodeFeedCursor, assertCursorKey. rewrite Hk. cbn [throw_if mbind result_bind].
  pose proof (utf8_encode_bytes text) as Hu.
  destruct (hmac_sha256_spec key (utf8_encode (b64url_encode (utf8_encode text)))) as [Hl Hm].
  rewrite split_point, !b64url_decode_encode by done.
  rewrite (bool_decide_eq_false_2 (b64url_encode (utf8_encode text) = [])), bool_decide_eq_false_2.
  2: { intros E%b64url_encode_nil. by rewrite E in Hl. }
  2: { intros E%b64url_encode_nil%utf8_encode_nil; [|done]. subst text. by vm_compute in Hc. }
  cbn [orb]. rewrite !bool_decide_refl, Nat.eqb_refl, Hc. cbn [negb orb mbind result_bind].
  rewrite Hb, bool_decide_refl. cbn [negb]. by apply parseFeedCursor_ok.
Qed.

Lemma decodeFeedCursor_ok p key c : decodeFeedCursor c key = Ok p -> encodeFeedCursor p key = Ok c.
Proof.
  unfold decodeFeedCursor, assertCursorKey. intros E. inv_ok.
  destruct (split_on 46 c) as [|body [|sig [|]]] eqn:Es; try done. apply split_point_inv in Es as ->.
  repeat match type of E with (if ?b then _ else _) = _ => destruct b eqn:?; [done|] end. inv_ok.
  repeat match type of E with (if ?b then _ else _) = _ => destruct b eqn:?; [done|] end. boolify.
  apply parseFeedCursor_ok in E.
  match goal with H : canonicalJsonFromBytes _ = Ok _, Hb : _ = buffer_toString _ |- _ =>
    destruct (payload_read _ _ p H (eq_sym Hb) E) as (Hv & Et & Eu) end.
  apply encodeFeedCursor_ok. split_and!; [by apply Z.ltb_ge|done|].
  eexists. split; [done|]. cbn zeta. rewrite Eu. congruence.
Qed.

(** A feed cursor is exactly what the key holder signed: decoding accepts a
    string as a cursor for a payload if and only if encoding that payload under
    the same key gives that very string. *)
Theorem feed_cursor_exact p key c :
  decodeFeedCursor c key = Ok p <-> encodeFeedCursor p key = Ok c.
Proof. split; [apply decodeFeedCursor_ok|apply decodeFeedCursor_encoded]. Qed.
End cursors.

(** ** Deltas *)

Inductive SafeReferenceValue :=
  | SafeText (s : jsstr)
  | SafeNumber (n : jsnum).

Definition safe_reference_ok (v : SafeReferenceValue) : bool :=
  match v with
  | SafeText s => is_uuid_v7 s || is_hex64 s || is_rfc3339_utc s
  | SafeNumber n => isSafeInteger n && num_le (NInt 0) n
  end.

(** [/^[a-z][a-zA-Z0-9]{0,63}$/u] *)
Definition reference_name (s : jsstr) : bool :=
  match s with
  | c :: s' => is_lower c && class_len (fun c => is_lower c || is_upper c || is_digit c) 0 63 s'
  | [] => false
  end.

Record PendingActionDelta := MkDelta {
  sequence : jsstr;
  deltaType : jsstr;
  objectType : jsstr;
  objectId : jsstr;
  objectVersion : Z;
  delta_generation : Z;
  actionState : jsstr;
  changedComponentClasses : option (list jsstr);
  safeRefs : list (jsstr * SafeReferenceValue);
  createdAt : jsstr
}.

Definition delta_ok (d : PendingActionDelta) : bool :=
  is_pos_dec (sequence d)
  && includes ["revote_required"; "minutes_resign_required"; "vote_replaced"; "notice"; "task_assigned";
       "task_due"; "management_question_due"; "submission_revision_requested"; "action_required";
       "tombstone"] (deltaType d)
  && includes ["vote"; "minutes"; "task"; "question"; "submission"; "document"; "meeting"] (objectType d)
  && is_uuid_v7 (objectId d) && is_safe_positive (objectVersion d)
  && is_safe_positive (delta_generation d)
  && includes ["pending"; "resolved"; "informational"] (actionState d)
  && opt_all (fun l => in_range 1 10 (Z.of_nat (length l))
       && forallb (includes ["resolution"; "governance_profile"; "ruleset"; "approval_rule"; "electorate";
            "close_mode"; "deadline"; "management_submission"; "document"; "question_cutoff"]) l)
       (changedComponentClasses d)
  && forallb (fun '(k, v) => reference_name k && safe_reference_ok v) (safeRefs d)
  && is_rfc3339_utc (createdAt d).

Definition PendingActionDeltaSchema (d : PendingActionDelta) : result PendingActionDelta :=
  parse "PendingActionDelta" delta_ok d.

(** ** A page of the feed *)

Record EntitledPendingDelta := MkRow {
  row_memberId : jsstr;
  row_boardId : jsstr;
  delta : PendingActionDelta
}.

Record FeedReadContext := MkContext {
  ctx_memberId : jsstr;
  ctx_boardId : option jsstr;
  ctx_generation : Z;
  limit : jsnum
}.

Definition row_key (row : EntitledPendingDelta) : jsstr :=
  row_memberId row ++ js ":" ++ sequence (delta row).

(** [rows.map(..)] with the set of keys already seen. *)
Fixpoint validate_rows (seen : list jsstr) (rows : list EntitledPendingDelta)
    : result (list EntitledPendingDelta) :=
  match rows with
  | [] => Ok []
  | row :: rows' =>
      d ← PendingActionDeltaSchema (delta row);
      let key := row_memberId row ++ js ":" ++ sequence d in
      if set_has seen key then Throw (JsError "duplicate feed sequence" [sequence d]) else
      rest ← validate_rows (set_add seen key) rows';
      Ok (MkRow (row_memberId row) (row_boardId row) d :: rest)
  end.

Definition entitled (context : FeedReadContext) (after : Z) (row : EntitledPendingDelta) : bool :=
  bool_decide (row_memberId row = ctx_memberId context)
  && match ctx_boardId context with
     | None => true
     | Some board => bool_decide (row_boardId row = board)
     end
  && (delta_generation (delta row) =? ctx_generation context)
  && (after <? undec (sequence (delta row))).

(** [lengthOrder || left.localeCompare(right)] *)
Definition cmp_row (left right : EntitledPendingDelta) : Z :=
  let lengthOrder := js_length (sequence (delta left)) - js_length (sequence (delta right)) in
  if lengthOrder =? 0 then localeCompare (sequence (delta left)) (sequence (delta right))
  else lengthOrder.

(** [list.slice(0, n)] for a positive integer [n]. *)
Definition slice_to {A} (l : list A) (n : jsnum) : list A :=
  match n with NInt z => take (Z.to_nat z) l | _ => [] end.

Definition listEntitledDeltas (rows : list EntitledPendingDelta) (cursorInput : FeedCursorPayload)
    (context : FeedReadContext) : result (list PendingActionDelta) :=
  cursor ← FeedCursorPayloadSchema cursorInput;
  throw_if (negb (bool_decide (memberId cursor = ctx_memberId context)))
    (JsError "feed cursor member mismatch" []) ≫= fun _ =>
  throw_if (negb (bool_decide (boardId cursor = ctx_boardId context)))
    (JsError "feed cursor board mismatch" []) ≫= fun _ =>
  throw_if (negb (entitlementGeneration cursor =? ctx_generation context))
    (JsError "feed cursor entitlement generation mismatch" []) ≫= fun _ =>
  throw_if (negb (isSafeInteger (limit context)) || num_lt (limit context) (NInt 1)
            || num_lt (NInt 1000) (limit context))
    (RangeError "feed limit must be between 1 and 1000" []) ≫= fun _ =>
  validated ← validate_rows [] rows;
  let after := undec (afterSequence cursor) in
  Ok (map delta (slice_to (toSorted cmp_row (filter (fun row => entitled context after row = true) validated))
                   (limit context))).

(** ** Properties of pages *)

(** When a page is served at all: the cursor is valid and was issued for this
    reader, and the limit is in range. *)
Record readable (cursor : FeedCursorPayload) (context : FeedReadContext) : Prop := {
  r_cursor : cursor_ok cursor = true;
  r_member : memberId cursor = ctx_memberId context;
  r_board : boardId cursor = ctx_boardId context;
  r_generation : entitlementGeneration cursor = ctx_generation context;
  r_limit : exists z, limit context = NInt z /\ 1 <= z <= 1000
}.

Definition rows_ok (rows : list EntitledPendingDelta) : Prop :=
  Forall (fun row => delta_ok (delta row) = true) rows /\ NoDup (map row_key rows).

(** Every delta the reader is entitled to after a position, in order. *)
Definition entitled_rows (rows : list EntitledPendingDelta) (context : FeedReadContext) (after : Z)
    : list EntitledPendingDelta :=
  toSorted cmp_row (filter (fun row => entitled context after row = true) rows).

Lemma limit_ok n : negb (isSafeInteger n) || num_lt n (NInt 1) || num_lt (NInt 1000) n = false <->
  exists z, n = NInt z /\ 1 <= z <= 1000.
Proof.
  split.
  - intros H. boolify. destruct n as [| | |z|m k]; try done. exists z. split; [done|].
    unfold num_lt, num_le in *. cbn in *. boolify. lia.
  - intros (z & -> & Hz). rewrite !orb_false_iff. unfold num_lt, num_le, isSafeInteger. cbn.
    split_and!; [apply negb_false_iff, safe_Z_spec; unfold MAX_SAFE_INTEGER; lia| |];
      apply negb_false_iff, Z.leb_le; lia.
Qed.

Lemma validate_rows_ok rows : forall seen out,
  validate_rows seen rows = Ok out <->
  out = rows /\ Forall (fun row => delta_ok (delta row) = true) rows /\ NoDup (map row_key rows) /\
  forall row, row ∈ rows -> row_key row ∉ seen.
Proof.
  induction rows as [|row rows IH]; intros seen out; cbn [validate_rows map].
  { split; [intros [= <-]|by intros (-> & _)].
    split_and!; [done..|apply NoDup_nil_2|by intros ? ?%not_elem_of_nil]. }
  unfold PendingActionDeltaSchema, parse. rewrite Forall_cons, NoDup_cons.
  destruct (delta_ok (delta row)) eqn:Ed; [|split; [done|by intros (_ & [? _] & _)]].
  cbn [mbind result_bind]. change (row_memberId row ++ _) with (row_key row).
  unfold set_has. case_bool_decide as Hs.
  { split; [done|]. intros (_ & _ & _ & Hn). by destruct (Hn row (list_elem_of_here _ _)). }
  rewrite bind_ok. setoid_rewrite IH. split.
  - intros (rest & (-> & Hf & Hd & Hn) & [= <-]). split_and!; try done; [by destruct row| |].
    + intros (r & E & Hr)%list_elem_of_fmap. apply (Hn r Hr), elem_of_set_add. by right.
    + intros r [->|Hr]%elem_of_cons; [done|]. intros Hin. apply (Hn r Hr), elem_of_set_add. by left.
  - intros (-> & [_ Hf] & [Hk Hd] & Hn). exists rows. split_and!; try done; [|by destruct row].
    intros r Hr [Hin|E]%elem_of_set_add.
    + by apply (Hn r); [apply elem_of_cons; right|].
    + apply Hk. rewrite <- E. by apply list_elem_of_fmap_2.
Qed.

Lemma listEntitledDeltas_ok rows cursor context page :
  listEntitledDeltas rows cursor context = Ok page <->
  readable cursor context /\ rows_ok rows /\
  page = map delta (slice_to (entitled_rows rows context (undec (afterSequence cursor))) (limit context)).
Proof.
  unfold listEntitledDeltas, FeedCursorPayloadSchema, rows_ok. split.
  - intros E. inv_ok.
    match goal with H : parse _ _ _ = Ok _ |- _ => apply parse_ok in H as [-> Hc] end.
    match goal with H : validate_rows _ _ = Ok _ |- _ => apply validate_rows_ok in H as (-> & Hf & Hd & _) end.
    match goal with H : _ || _ || _ = false |- _ => apply limit_ok in H end.
    boolify. by split_and!.
  - intros ([Hc Hm Hb Hg Hl] & [Hf Hd] & ->). unfold parse. rewrite Hc. cbn [mbind result_bind].
    apply limit_ok in Hl. rewrite Hm, Hb, Hg, Hl, !bool_decide_refl, Z.eqb_refl. cbn.
    by rewrite (proj2 (validate_rows_ok rows [] rows)) by (split_and!; try done; intros ? ? []%not_elem_of_nil).
Qed.

Abbreviation seq_of row := (undec (sequence (delta row))) (only parsing).

Lemma cmp_row_total a b : 0 < cmp_row a b -> cmp_row b a <= 0.
Proof.
  unfold cmp_row, localeCompare. pose proof (cmp_units_total (sequence (delta a)) (sequence (delta b))).
  repeat case_match; boolify; lia.
Qed.

Lemma cmp_row_trans a b c : cmp_row a b <= 0 -> cmp_row b c <= 0 -> cmp_row a c <= 0.
Proof.
  unfold cmp_row, localeCompare.
  pose proof (cmp_units_trans (sequence (delta a)) (sequence (delta b)) (sequence (delta c))).
  repeat case_match; boolify; lia.
Qed.

(** The comparator is the numeric order of the sequences. *)
Lemma cmp_row_numeric a b : delta_ok (delta a) = true -> delta_ok (delta b) = true ->
  (cmp_row a b <= 0 <-> seq_of a <= seq_of b).
Proof.
  unfold delta_ok. intros Ha Hb. boolify.
  assert (is_pos_dec (sequence (delta a)) = true) as Pa by done.
  assert (is_pos_dec (sequence (delta b)) = true) as Pb by done.
  unfold cmp_row, localeCompare. destruct (Z.eqb_spec (js_length (sequence (delta a)) - js_length (sequence (delta b))) 0) as [E|E].
  - pose proof (undec_cmp_same_length (sequence (delta b)) (sequence (delta a))) as Hc.
    rewrite (cmp_units_swap (sequence (delta a)) (sequence (delta b))) in Hc.
    apply pos_dec_digits in Pa, Pb. unfold js_length in E. specialize (Hc ltac:(lia) Pb Pa). lia.
  - destruct (Z.lt_ge_cases (js_length (sequence (delta a))) (js_length (sequence (delta b)))) as [Hl|Hl].
    + pose proof (undec_lt_length _ _ Pa Pb Hl). lia.
    + pose proof (undec_lt_length _ _ Pb Pa ltac:(lia)). lia.
Qed.

(** Rows of one member with the same sequence are one row. *)
Lemma rows_sequence_inj rows a b : rows_ok rows -> a ∈ rows -> b ∈ rows ->
  row_memberId a = row_memberId b -> seq_of a = seq_of b -> a = b.
Proof.
  intros [Hf Hd] Ha Hb Hm Hs. rewrite Forall_forall in Hf.
  pose proof (Hf a Ha) as Da. pose proof (Hf b Hb) as Db. unfold delta_ok in Da, Db. boolify.
  assert (sequence (delta a) = sequence (delta b)) as E by (by apply pos_dec_inj).
  assert (row_key a = row_key b) as Ek by (unfold row_key; by rewrite Hm, E).
  clear -Hd Ha Hb Ek. induction rows as [|r rows IH]; [by apply not_elem_of_nil in Ha|].
  cbn [map] in Hd. apply NoDup_cons in Hd as [Hn Hd].
  apply elem_of_cons in Ha as [->|Ha], Hb as [->|Hb]; [done| | |by apply IH].
  - destruct Hn. rewrite Ek. by apply list_elem_of_fmap_2.
  - destruct Hn. rewrite <- Ek. by apply list_elem_of_fmap_2.
Qed.

Lemma elem_entitled_rows rows context after row :
  row ∈ entitled_rows rows context after <-> row ∈ rows /\ entitled context after row = true.
Proof.
  unfold entitled_rows. rewrite (toSorted_perm cmp_row). rewrite list_elem_of_filter. tauto.
Qed.

Lemma rows_nodup rows : rows_ok rows -> NoDup rows.
Proof. intros [_ Hd]. by apply (NoDup_fmap_1 row_key). Qed.

(** Strictly ascending. *)
Lemma entitled_rows_sorted rows context after : rows_ok rows ->
  StronglySorted (fun a b => seq_of a < seq_of b) (entitled_rows rows context after).
Proof.
  intros Hr. pose proof (toSorted_sorted cmp_row cmp_row_total cmp_row_trans
    (filter (fun row => entitled context after row = true) rows)) as Hs.
  assert (NoDup (entitled_rows rows context after)) as Hn.
  { unfold entitled_rows. rewrite (toSorted_perm cmp_row). by apply NoDup_filter, rows_nodup. }
  assert (forall row, row ∈ entitled_rows rows context after ->
    row ∈ rows /\ entitled context after row = true) as Hin by (intros; by apply elem_entitled_rows).
  fold (entitled_rows rows context after) in Hs. revert Hs Hn Hin.
  induction (entitled_rows rows context after) as [|a l IH]; intros Hs Hn Hin; [constructor|].
  apply StronglySorted_inv in Hs as [Hs Ha]. apply NoDup_cons in Hn as [Hna Hn].
  constructor; [apply IH; try done; intros; apply Hin; by apply elem_of_cons; right|].
  rewrite List.Forall_forall in *. intros b Hb. specialize (Ha b Hb). apply list_elem_of_In in Hb.
  destruct (Hin a) as [Ra Ea]; [by apply elem_of_cons; left|].
  destruct (Hin b) as [Rb Eb]; [by apply elem_of_cons; right|].
  pose proof Hr as [Hf _]. rewrite Forall_forall in Hf.
  apply cmp_row_numeric in Ha; [|by apply Hf..]. unfold entitled in Ea, Eb. boolify.
  destruct (Z.eq_dec (seq_of a) (seq_of b)) as [E|]; [|lia]. destruct Hna.
  by rewrite (rows_sequence_inj rows a b Hr Ra Rb) by congruence.
Qed.

Lemma filter_all {A} (P : A -> Prop) `{!forall x, Decision (P x)} (l : list A) :
  (forall x, x ∈ l -> P x) -> filter P l = l.
Proof.
  induction l as [|x l IH]; intros Hl; [done|]. rewrite filter_cons_True by (apply Hl; left).
  f_equal. apply IH. intros y Hy. apply Hl. by right.
Qed.

Lemma filter_none {A} (P : A -> Prop) `{!forall x, Decision (P x)} (l : list A) :
  (forall x, x ∈ l -> ~ P x) -> filter P l = [].
Proof.
  induction l as [|x l IH]; intros Hl; [done|]. rewrite filter_cons_False by (apply Hl; left).
  apply IH. intros y Hy. apply Hl. by right.
Qed.

Lemma sorted_filter {A} (R : A -> A -> Prop) (P : A -> Prop) `{!forall x, Decision (P x)} (l : list A) :
  StronglySorted R l -> StronglySorted R (filter P l).
Proof.
  induction 1 as [|x l Hs IH Hx]; [constructor|]. rewrite filter_cons. case_decide; [|done].
  constructor; [done|]. rewrite List.Forall_forall in *. intros y Hy.
  apply Hx, list_elem_of_In. by apply list_elem_of_In, list_elem_of_filter in Hy as [_ Hy].
Qed.

(** In a strictly ascending list, what comes after the last of the first [n]
    items is the rest. *)
Lemma sorted_filter_drop {A} (f : A -> Z) (l : list A) n d :
  StronglySorted (fun a b => f a < f b) l -> last (take n l) = Some d ->
  filter (fun x => f d < f x) l = drop n l.
Proof.
  intros Hs [k Hk]%last_Some. rewrite <- (take_drop n l) in Hs. rewrite <- (take_drop n l) at 1.
  rewrite Hk in *. apply StronglySorted_app in Hs as (Hkd & Hk' & _).
  apply StronglySorted_app in Hk' as (Hkk & _). rewrite filter_app, filter_none, filter_all; [done| |].
  - intros x Hx. apply Hkd; [|done]. apply elem_of_app. right. by left.
  - intros x [Hx| ->%list_elem_of_singleton]%elem_of_app; [|lia].
    specialize (Hkk x d Hx (list_elem_of_here _ _)). lia.
Qed.

(** A later page starts where the earlier one ended. *)
Lemma entitled_rows_advance rows context after row : rows_ok rows ->
  row ∈ entitled_rows rows context after ->
  entitled_rows rows context (seq_of row)
  = filter (fun r => seq_of row < seq_of r) (entitled_rows rows context after).
Proof.
  intros Hr [_ Hrow]%elem_entitled_rows.
  assert (after < seq_of row) as Hlt by (unfold entitled in Hrow; boolify; lia).
  assert (forall r, r ∈ entitled_rows rows context (seq_of row) <->
    r ∈ filter (fun r => seq_of row < seq_of r) (entitled_rows rows context after)) as Hiff.
  { intros r. rewrite list_elem_of_filter, !elem_entitled_rows. unfold entitled.
    rewrite !andb_true_iff, !Z.ltb_lt. intuition lia. }
  pose proof (toSorted_sorted cmp_row cmp_row_total cmp_row_trans) as Hsort.
  apply (sorted_perm_eq cmp_row).
  - intros a b [Ra Ea]%elem_entitled_rows [Rb Eb]%elem_entitled_rows Hab Hba.
    pose proof Hr as [Hf _]. rewrite Forall_forall in Hf.
    apply cmp_row_numeric in Hab, Hba; [|by apply Hf..]. unfold entitled in Ea, Eb. boolify.
    apply (rows_sequence_inj rows); try done; [congruence|lia].
  - apply Hsort.
  - apply sorted_filter, Hsort.
  - apply NoDup_Permutation; [| |done].
    + unfold entitled_rows. rewrite (toSorted_perm cmp_row). by apply NoDup_filter, rows_nodup.
    + apply NoDup_filter. unfold entitled_rows. rewrite (toSorted_perm cmp_row). by apply NoDup_filter, rows_nodup.
Qed.

(** ** Reading the whole feed *)

Definition advance (cursor : FeedCursorPayload) (d : PendingActionDelta) : FeedCursorPayload :=
  MkCursor (memberId cursor) (boardId cursor) (entitlementGeneration cursor) (sequence d).

(** A reader that asks for the page after the last delta it was given, until
    a page is empty. *)
Fixpoint read_feed (fuel : nat) (rows : list EntitledPendingDelta) (cursor : FeedCursorPayload)
    (context : FeedReadContext) : result (list (list PendingActionDelta)) :=
  match fuel with
  | O => Throw OutOfFuel
  | S fuel =>
      page ← listEntitledDeltas rows cursor context;
      match last page with
      | None => Ok []
      | Some d => pages ← read_feed fuel rows (advance cursor d) context; Ok (page :: pages)
      end
  end.

Lemma read_feed_all rows context z fuel : forall cursor,
  limit context = NInt z -> readable cursor context -> rows_ok rows ->
  (length (entitled_rows rows context (undec (afterSequence cursor))) < fuel)%nat ->
  exists pages, read_feed fuel rows cursor context = Ok pages /\
    concat pages = map delta (entitled_rows rows context (undec (afterSequence cursor))).
Proof.
  induction fuel as [|fuel IH]; intros cursor Hz Hc Hr Hf; [lia|]. cbn [read_feed].
  set (L := entitled_rows rows context (undec (afterSequence cursor))) in *.
  rewrite (proj2 (listEntitledDeltas_ok rows cursor context _)) by done.
  cbn [mbind result_bind]. rewrite Hz. cbn [slice_to]. fold L. rewrite fmap_last.
  destruct (last (take (Z.to_nat z) L)) as [row|] eqn:El; cbn [fmap option_fmap option_map].
  2:{ exists []. split; [done|]. apply last_None in El. destruct (r_limit _ _ Hc) as (z' & E & Hz').
      rewrite Hz in E. injection E as <-. destruct L as [|r L']; [done|].
      destruct (Z.to_nat z) eqn:En; [lia|done]. }
  pose proof (entitled_rows_sorted rows context (undec (afterSequence cursor)) Hr) as Hs.
  assert (row ∈ L) as Hin.
  { apply last_Some in El as [k Hk]. rewrite <- (take_drop (Z.to_nat z) L), Hk, !elem_of_app. left. right. by left. }
  pose proof (entitled_rows_advance rows context _ row Hr Hin) as Ha. fold L in Ha.
  rewrite (sorted_filter_drop (fun r => seq_of r) L _ _ Hs El) in Ha.
  pose proof Hin as [Hrow _]%elem_entitled_rows.
  destruct (IH (advance cursor (delta row))) as (pages & -> & Hp); [done| |done| |].
  - destruct Hc as [Hc Hm Hb Hg Hl]. split; try done. destruct Hr as [Hd _].
    rewrite Forall_forall in Hd. specialize (Hd row Hrow). unfold delta_ok in Hd. unfold cursor_ok in *.
    boolify. cbn [advance memberId boardId entitlementGeneration afterSequence].
    rewrite !andb_true_iff. split_and!; try done. unfold is_nat_dec. by apply orb_true_intro; right.
  - cbn [advance afterSequence]. rewrite Ha, length_drop.
    destruct (r_limit _ _ Hc) as (z' & E & Hz'). rewrite Hz in E. injection E as <-.
    destruct L; [by apply not_elem_of_nil in Hin|]. cbn [length] in *. lia.
  - exists (map delta (take (Z.to_nat z) L) :: pages). split; [done|]. cbn [concat].
    rewrite Hp. cbn [advance afterSequence]. rewrite Ha, <- map_app. by rewrite take_drop.
Qed.

(** C35. Paging through the feed loses nothing and repeats nothing. For a valid
    cursor and consistent rows the deltas the reader is entitled to form one
    list in strictly ascending numeric order of their sequences; the page is
    its first [limit] items; and following the cursor from page to page until
    one is empty reads exactly that list. *)
Theorem feed_paging rows cursor context : readable cursor context -> rows_ok rows ->
  exists all,
    StronglySorted (fun a b => undec (sequence a) < undec (sequence b)) all /\
    (forall d, d ∈ all <-> exists row, row ∈ rows /\ delta row = d /\
       entitled context (undec (afterSequence cursor)) row = true) /\
    listEntitledDeltas rows cursor context = Ok (slice_to all (limit context)) /\
    exists pages, read_feed (S (length rows)) rows cursor context = Ok pages /\ concat pages = all.
Proof.
  intros Hc Hr. pose proof (r_limit _ _ Hc) as (z & Hz & _).
  exists (map delta (entitled_rows rows context (undec (afterSequence cursor)))). split_and!.
  - pose proof (entitled_rows_sorted rows context (undec (afterSequence cursor)) Hr) as Hs.
    induction Hs as [|a l Hs IH Ha]; cbn [map]; constructor; [done|].
    rewrite List.Forall_forall in *. by intros d (b & <- & Hb)%in_map_iff; apply Ha.
  - intros d. rewrite list_elem_of_fmap. setoid_rewrite elem_entitled_rows.
    split; intros (row & ?); exists row; intuition.
  - apply listEntitledDeltas_ok. split_and!; try done. rewrite Hz. cbn [slice_to].
    by rewrite firstn_map.
  - apply (read_feed_all rows context z); try done. unfold entitled_rows.
    rewrite (toSorted_perm cmp_row). pose proof (length_filter (fun row => entitled context (undec (afterSequence cursor)) row = true) rows) as Hl. lia.
Qed.

(** ** A concrete feed *)

Definition sample_cursor : FeedCursorPayload := MkCursor sample_id None 3 (js "8").

Definition sample_delta (n : string) : PendingActionDelta :=
  MkDelta (js n) (js "notice") (js "vote") sample_id 1 3 (js "pending") None
    [(js "deadline", SafeText (js "2026-01-01T00:00:00Z"))] (js "2026-01-01T00:00:00Z").

Definition sample_rows : list EntitledPendingDelta :=
  map (fun n => MkRow sample_id sample_id (sample_delta n)) ["11"; "8"; "9"; "100"; "10"]%string.

Definition sample_context : FeedReadContext := MkContext sample_id None 3 (NInt 3).

Example sample_page :
  map sequence (catch (listEntitledDeltas sample_rows sample_cursor sample_context) [])
  = map js ["9"; "10"; "11"]%string.
Proof. vm_compute. reflexivity. Qed.

Example sample_roundtrip :
  match @encodeFeedCursor plain_platform sample_cursor (replicate 32 7) with
  | Ok c => is_ok (@decodeFeedCursor plain_platform (@strict_text plain_platform) c (replicate 32 7))
            && negb (is_ok (@decodeFeedCursor plain_platform (@strict_text plain_platform) c (replicate 32 8)))
  | Throw _ => false
  end = true.
Proof. vm_compute. reflexivity. Qed.

Lemma feed_paging_witness : exists all,
  listEntitledDeltas sample_rows sample_cursor sample_context = Ok (slice_to all (NInt 3)) /\
  exists pages, read_feed 6 sample_rows sample_cursor sample_context = Ok pages /\ concat pages = all.
Proof.
  destruct (feed_paging sample_rows sample_cursor sample_context) as (all & _ & _ & Hp & Ha).
  - split; try (vm_compute; reflexivity). exists 3. split; [reflexivity|lia].
  - split.
    + repeat (apply List.Forall_cons; [vm_compute; reflexivity|]); apply List.Forall_nil.
    + apply (bool_decide_unpack _). vm_compute. exact I.
  - exists all. split; assumption.
Defined.
