(* ===== verification/Cursor.v ===== *)
(** * List cursors of the server

    artifacts/server/src/cursor.ts: the codec that mints the position cursor of
    a list tool and verifies it against the caller's binding and the clock. *)

From stdpp Require Import base numbers sorting strings list.
From Stdlib Require Import Lia.
From S2P Require Import Prelude JsString Encoding JsNumber Json JsonParse JsonCanon Schemas.
From S2P Require Import VotingConsent Decode Signing Codec.

Local Open Scope Z_scope.

Definition CURSOR_SCHEMA_VERSION : string := "boardagent.cursor.v1".

Record CursorPayload := MkPayload {
  organization_id : jsstr;
  member_id : jsstr;
  tool : jsstr;
  board_id : option jsstr;
  after : jsstr;
  expires_at : Z
}.

(** [/^[a-z][a-z0-9_]{1,127}$/u] *)
Definition tool_name (s : jsstr) : bool :=
  match s with
  | c :: s' => is_lower c && class_len (fun c => is_lower c || is_digit c || (c =? 95)) 1 127 s'
  | [] => false
  end.

Definition after_text (s : jsstr) : bool := in_range 1 1024 (js_length s).

Definition payload_ok (p : CursorPayload) : bool :=
  is_uuid_v7 (organization_id p) && is_uuid_v7 (member_id p) && tool_name (tool p)
  && opt_all is_uuid_v7 (board_id p) && after_text (after p) && is_safe_positive (expires_at p).

Definition CursorPayloadSchema (p : CursorPayload) : result CursorPayload :=
  parse "CursorPayload" payload_ok p.

Definition payload_json (p : CursorPayload) : json :=
  JObj [str "schema_version" (js CURSOR_SCHEMA_VERSION); str "organization_id" (organization_id p);
        str "member_id" (member_id p); str "tool" (tool p); nullable "board_id" (board_id p);
        str "after" (after p); int_member "expires_at" (expires_at p)].

Definition payload_keys : list string :=
  ["schema_version"; "organization_id"; "member_id"; "tool"; "board_id"; "after"; "expires_at"].

Definition payload_of_json (v : json) : option CursorPayload :=
  l ← members v;
  if negb (strict payload_keys l) then None else
  _ ← required l "schema_version" (dLiteral CURSOR_SCHEMA_VERSION);
  organization_id ← required l "organization_id" (dString is_uuid_v7);
  member_id ← required l "member_id" (dString is_uuid_v7);
  tool ← required l "tool" (dString tool_name);
  board_id ← required l "board_id" (dNullable (dString is_uuid_v7));
  after ← required l "after" (dString after_text);
  expires_at ← required l "expires_at" (dInt is_safe_positive);
  Some (MkPayload organization_id member_id tool board_id after expires_at).

Definition sorted_payload_json (p : CursorPayload) : json :=
  JObj [str "after" (after p); nullable "board_id" (board_id p); int_member "expires_at" (expires_at p);
        str "member_id" (member_id p); str "organization_id" (organization_id p);
        str "schema_version" (js CURSOR_SCHEMA_VERSION); str "tool" (tool p)].

Lemma sort_payload p : sort_json (payload_json p) = sorted_payload_json p.
Proof. destruct p as [o m t [b|] a e]; vm_compute; reflexivity. Qed.

#[export] Instance cursor_payload_format `{Platform} : JsonFormat CursorPayload.
Proof.
  refine {| to_json := payload_json; of_json := payload_of_json; valid := payload_ok |}.
  - intros w p Hr. unfold payload_of_json in Hr. inv_read. apply andb_true_iff; split; [|done].
    by rewrite !andb_true_iff.
  - intros w p Hd Hr. destruct w as [|b|n|t|l|l]; try done. unfold payload_of_json in Hr.
    cbn [members distinct_names] in *. inv_read. unfold payload_json. read_literal.
  - intros p Hp. unfold payload_ok in Hp. boolify. rewrite sort_payload.
    unfold payload_of_json, sorted_payload_json. cbn [members mbind option_bind].
    replace (strict _ _) with true by (destruct p as [o m t [b|] a e]; vm_compute; reflexivity).
    cbn [negb]. read_members. by destruct p.
  - intros p Hp. unfold payload_ok in Hp. boolify. unfold payload_json. obj_plain. by apply safe_positive.
Defined.

(** ** The codec *)

Record CursorBinding := MkBinding {
  organizationId : jsstr;
  memberId : jsstr;
  tool_of : jsstr;
  boardId : option jsstr
}.

Record CursorCodec := MkCodec { secret : list Z; ttlSeconds : Z }.

(** A key is given as bytes or as a string. *)
Definition createCursorCodec (key : list Z + jsstr) (ttlSeconds : jsnum) : result CursorCodec :=
  let secret := match key with inl bytes => bytes | inr text => utf8_encode text end in
  if Z.of_nat (length secret) <? 32
  then Throw (JsError "cursor HMAC key must contain at least 32 bytes" []) else
  if negb (isSafeInteger ttlSeconds) || num_lt ttlSeconds (NInt 60) || num_lt (NInt 604800) ttlSeconds
  then Throw (RangeError "cursor TTL must be 60 through 604800 seconds" []) else
  Ok (MkCodec secret (match ttlSeconds with NInt z => z | _ => 0 end)).

Section codec.
Context `{Platform} `{!NodeText} (codec : CursorCodec).

Definition mac (payload : jsstr) : list Z :=
  hmac_sha256 (secret codec) (js CURSOR_SCHEMA_VERSION ++ [0] ++ utf8_encode payload).

Definition bound_payload (binding : CursorBinding) (after : jsstr) (expires_at : Z) : CursorPayload :=
  MkPayload (organizationId binding) (memberId binding) (tool_of binding) (boardId binding) after expires_at.

Definition mint (binding : CursorBinding) (after : jsstr) (nowSeconds : Z) : result jsstr :=
  p ← CursorPayloadSchema (bound_payload binding after (nowSeconds + ttlSeconds codec));
  payload ← canonicalJson (payload_json p);
  Ok (b64url_encode (utf8_encode payload) ++ js "." ++ b64url_encode (mac payload)).

Definition invalid_cursor : exn := JsError "cursor is invalid" [].

(** [CursorPayloadSchema.parse(JSON.parse(payload))] in its [try]. *)
Definition parse_payload (payload : jsstr) : result CursorPayload :=
  match JSON_parse payload ≫= payload_of_json with
  | Some parsed => Ok parsed
  | None => Throw invalid_cursor
  end.

Definition verify_cursor (wire : jsstr) (binding : CursorBinding) (nowSeconds : Z) : result jsstr :=
  if 4096 <? js_length wire then Throw invalid_cursor else
  match split_on 46 wire with
  | [encoded; signature] =>
      if bool_decide (encoded = []) || bool_decide (signature = []) then Throw invalid_cursor else
      let payloadBytes := b64url_decode encoded in
      let received := b64url_decode signature in
      if negb (bool_decide (b64url_encode payloadBytes = encoded))
         || negb (bool_decide (b64url_encode received = signature)) then Throw invalid_cursor else
      let payload := buffer_toString payloadBytes in
      let expected := mac payload in
      if negb (Nat.eqb (length received) (length expected)) || negb (bool_decide (received = expected))
      then Throw invalid_cursor else
      parsed ← parse_payload payload;
      canonical ← canonicalJson (payload_json parsed);
      if negb (bool_decide (canonical = payload))
         || negb (bool_decide (organization_id parsed = organizationId binding))
         || negb (bool_decide (member_id parsed = memberId binding))
         || negb (bool_decide (tool parsed = tool_of binding))
         || negb (bool_decide (board_id parsed = boardId binding))
         || (expires_at parsed <=? nowSeconds)
      then Throw invalid_cursor else
      Ok (after parsed)
  | _ => Throw invalid_cursor
  end.

(** ** Lemmas *)

(** The wire of a canonical payload text. *)
Definition wire_of (text : jsstr) : jsstr :=
  b64url_encode (utf8_encode text) ++ 46 :: b64url_encode (mac text).

Lemma mint_ok binding a now wire : mint binding a now = Ok wire <->
  let p := bound_payload binding a (now + ttlSeconds codec) in
  valid p = true /\ exists text, canonicalJson (to_json p) = Ok text /\ wire = wire_of text.
Proof.
  unfold mint, CursorPayloadSchema, parse. cbn zeta.
  set (p := bound_payload binding a (now + ttlSeconds codec)).
  change (valid p) with (payload_ok p). change (to_json p) with (payload_json p).
  destruct (payload_ok p); [|split; [done|by intros []]]. cbn [mbind result_bind].
  destruct (canonicalJson _) as [text|e]; [|split; [done|by intros (_ & ? & ? & _)]].
  cbn [mbind result_bind]. split.
  - intros [= <-]. split; [done|]. by exists text.
  - intros (_ & ? & [= <-] & ->). done.
Qed.

Lemma mac_bytes text : length (mac text) = 32%nat /\ forallb is_byte (mac text) = true.
Proof. apply hmac_sha256_spec. Qed.

Lemma parse_payload_ok text p : parse_payload text = Ok p <-> JSON_parse text ≫= of_json = Some p.
Proof.
  unfold parse_payload. change (@of_json _ _ cursor_payload_format) with payload_of_json.
  destruct (_ ≫= _); split; congruence.
Qed.

Lemma verify_minted binding a now now' wire : mint binding a now = Ok wire ->
  js_length wire <= 4096 -> now' < now + ttlSeconds codec ->
  verify_cursor wire binding now' = Ok a.
Proof.
  intros (Hv & text & Et & ->)%mint_ok Hl Hn. unfold verify_cursor, wire_of in *.
  rewrite (proj2 (Z.ltb_ge _ _) Hl). destruct (payload_read_back _ text Hv Et) as (Hw & Hc & Hb & Hp).
  pose proof (utf8_encode_bytes text) as Hu. destruct (mac_bytes text) as [Hm Hmb].
  rewrite split_point, !b64url_decode_encode by done.
  rewrite (bool_decide_eq_false_2 (b64url_encode (utf8_encode text) = [])), bool_decide_eq_false_2.
  2: { intros E%b64url_encode_nil. by rewrite E in Hm. }
  2: { intros E%b64url_encode_nil%utf8_encode_nil; [|done]. subst text. by vm_compute in Hc. }
  cbn [orb]. rewrite Hb, !bool_decide_refl, Nat.eqb_refl. cbn [negb orb].
  apply parse_payload_ok in Hp. rewrite Hp. cbn [mbind result_bind].
  match goal with |- context [canonicalJson (payload_json ?p)] => change (payload_json p) with (to_json p) end.
  rewrite Et. cbn [mbind result_bind bound_payload organization_id member_id tool board_id expires_at after].
  rewrite !bool_decide_refl, (proj2 (Z.leb_gt _ _)) by lia. done.
Qed.

(** What an accepted wire consists of. *)
Lemma verify_parts wire binding now a : verify_cursor wire binding now = Ok a ->
  exists body text e, split_on 46 wire = [body; b64url_encode (mac text)] /\
    buffer_toString (b64url_decode body) = text /\ now < e /\
    let p := bound_payload binding a e in
    valid p = true /\ canonicalJson (to_json p) = Ok text /\ parse_payload text = Ok p.
Proof.
  unfold verify_cursor. intros E. destruct (4096 <? js_length wire) eqn:El; [done|].
  destruct (split_on 46 wire) as [|body [|sig [|]]] eqn:Es; try done.
  repeat match type of E with (if ?b then _ else _) = _ => destruct b eqn:?; [done|] end. inv_ok.
  repeat match type of E with (if ?b then _ else _) = _ => destruct b eqn:?; [done|] end. inv_ok. boolify.
  match goal with H : parse_payload _ = Ok ?p |- _ =>
    pose proof H as Hp; apply parse_payload_ok in H; apply bind_Some in H as (w & _ & Hv%of_json_valid);
    destruct p as [o m t b a' e] end.
  cbn [organization_id member_id tool board_id expires_at after] in *. subst.
  exists body, (buffer_toString (b64url_decode body)), e. split_and!; try done. congruence.
Qed.

Lemma verify_sound wire binding now a : verify_cursor wire binding now = Ok a ->
  exists moment text, now < moment + ttlSeconds codec /\ mint binding a moment = Ok (wire_of text) /\
    exists body, wire = body ++ 46 :: b64url_encode (mac text) /\
      buffer_toString (b64url_decode body) = text.
Proof.
  intros (body & text & e & Es & Eb & He & Hv & Et & _)%verify_parts. cbn zeta in *.
  exists (e - ttlSeconds codec), text. split_and!; [lia| |].
  - apply mint_ok. replace (e - ttlSeconds codec + ttlSeconds codec) with e by lia.
    split; [done|]. by exists text.
  - exists body. split; [by apply split_point_inv|done].
Qed.

Lemma verify_one_reader wire b1 b2 n1 n2 a1 a2 :
  verify_cursor wire b1 n1 = Ok a1 -> verify_cursor wire b2 n2 = Ok a2 -> b1 = b2 /\ a1 = a2.
Proof.
  intros (body & text & e & Es & Eb & _ & _ & _ & Ep)%verify_parts
    (body' & text' & e' & Es' & Eb' & _ & _ & _ & Ep')%verify_parts.
  assert (body = body') as -> by congruence. clear Es Es'. subst. rewrite Ep in Ep'. unfold bound_payload in Ep'.
  injection Ep' as ? ? ? ? ? ?. destruct b1, b2. cbn [organizationId memberId tool_of boardId] in *.
  by subst.
Qed.
End codec.

(** ** The length of a wire *)

(** Printable text that JSON does not escape. *)
Definition plain_char (c : Z) : bool := in_range 32 126 c && negb ((c =? 34) || (c =? 92)).
Definition plain_text (s : jsstr) : bool := forallb plain_char s.

Lemma plain_char_quote c : plain_char c = true -> quote_unit c = [c].
Proof.
  unfold plain_char, quote_unit. intros H. boolify.
  match goal with H : in_range _ _ _ = true |- _ => apply in_range_spec in H end.
  repeat case_match; boolify; done || lia.
Qed.

Lemma plain_quote s : plain_text s = true -> quote s = 34 :: s ++ [34].
Proof.
  intros H. unfold quote. do 2 f_equal. induction s as [|c s IH]; [done|].
  cbn [plain_text forallb] in H. boolify. cbn [map concat]. rewrite plain_char_quote by done.
  cbn [app]. f_equal. by apply IH.
Qed.

Lemma plain_ascii s : plain_text s = true -> is_ascii s = true.
Proof.
  unfold plain_text, is_ascii. rewrite !forallb_forall. intros H c Hc. specialize (H c Hc).
  unfold plain_char in H. boolify. apply in_range_spec.
  match goal with H : in_range _ _ _ = true |- _ => apply in_range_spec in H end. lia.
Qed.

Lemma ascii_app s t : is_ascii (s ++ t) = is_ascii s && is_ascii t.
Proof. apply forallb_app. Qed.

Lemma ascii_code_points s : is_ascii s = true -> code_points s = s.
Proof.
  induction s as [|h [|l t] IH]; try done. intros H. cbn [is_ascii forallb] in H.
  apply andb_true_iff in H as [Hh%in_range_spec H].
  change (code_points (h :: l :: t)) with
    (if is_high h && is_low l then pair_point h l :: code_points t else h :: code_points (l :: t)).
  replace (is_high h) with false by (symmetry; apply in_range_false; lia). cbn [andb]. by rewrite IH.
Qed.

Lemma utf8_ascii s : is_ascii s = true -> utf8_encode s = s.
Proof.
  intros H. unfold utf8_encode. rewrite ascii_code_points by done. unfold is_ascii in H.
  induction s as [|c s IH]; [done|]. cbn [forallb map concat] in *. boolify. rewrite IH by done.
  match goal with H : in_range _ _ _ = true |- _ => apply in_range_spec in H end.
  rewrite (proj2 (is_scalar_spec c)) by lia. unfold encode_point. by rewrite (proj2 (Z.ltb_lt _ _)) by lia.
Qed.

Lemma js_length_app s t : js_length (s ++ t) = js_length s + js_length t.
Proof. unfold js_length. rewrite length_app. lia. Qed.

(** A member that is written in ASCII within a number of characters. *)
Definition fits (n : Z) (s : jsstr) : Prop := is_ascii s = true /\ js_length s <= n.

Lemma fits_join ns l : Forall2 fits ns l -> fits (sum_by (fun n => n + 1) ns) (join [44] l).
Proof.
  induction 1 as [|n x ns l [Ha Hl] Hf IH]; [by split|].
  destruct l as [|y l].
  - apply Forall2_nil_inv_r in Hf as ->. split; [done|]. cbn. lia.
  - change (join [44] (x :: y :: l)) with (x ++ [44] ++ join [44] (y :: l)). destruct IH as [Ha' Hl']. split; [by rewrite !ascii_app, Ha, Ha'|].
    rewrite !js_length_app. cbn [sum_by foldr] in *. unfold sum_by in Hl'. change (js_length [44]) with 1. lia.
Qed.

Lemma fits_object ns l : Forall2 (fun n kv => fits n (member_text kv)) ns l ->
  fits (2 + sum_by (fun n => n + 1) ns) (stringify (JObj l)).
Proof.
  intros Hf. rewrite stringify_obj. destruct (fits_join ns (map member_text l)) as [Ha Hl].
  { by apply Forall2_fmap_r. }
  split; [cbn [is_ascii forallb]; by rewrite ascii_app, Ha|].
  rewrite js_length_cons, js_length_app. change (js_length [125]) with 1. lia.
Qed.

Lemma fits_str n key s : plain_text (js key) = true -> plain_text s = true -> js_length s <= n ->
  fits (js_length (js key) + 5 + n) (member_text (str key s)).
Proof.
  intros Hk Hs Hl. unfold member_text, str. cbn [fst snd stringify]. rewrite !plain_quote by done.
  apply plain_ascii in Hk, Hs.
  change (34 :: js key ++ [34]) with ([34] ++ js key ++ [34]).
  change (58 :: 34 :: s ++ [34]) with ([58; 34] ++ s ++ [34]).
  split; [by rewrite !ascii_app, Hk, Hs|]. rewrite !js_length_app.
  change (js_length [34]) with 1. change (js_length [58; 34]) with 2. lia.
Qed.

Lemma fits_nullable n key o : 2 <= n -> plain_text (js key) = true ->
  (forall s, o = Some s -> plain_text s = true /\ js_length s <= n) ->
  fits (js_length (js key) + 5 + n) (member_text (nullable key o)).
Proof.
  intros Hn Hk Ho. destruct o as [s|]; [by apply fits_str; [|apply Ho..]|].
  unfold member_text, nullable. cbn [fst snd stringify jopt]. rewrite plain_quote by done.
  apply plain_ascii in Hk. change (34 :: js key ++ [34]) with ([34] ++ js key ++ [34]).
  change (58 :: js "null") with ([58] ++ js "null").
  split; [by rewrite !ascii_app, Hk|]. rewrite !js_length_app.
  change (js_length [34]) with 1. change (js_length [58]) with 1. change (js_length (js "null")) with 4. lia.
Qed.

Lemma dec_signed_length z : is_safe_positive z = true -> js_length (dec_signed z) <= 16.
Proof.
  unfold is_safe_positive, dec_signed. intros [Hl Hu]%in_range_spec. rewrite (proj2 (Z.ltb_ge z 0)) by lia.
  destruct (dec_spec z) as (Hz & _ & Hp); [lia|]. specialize (Hp ltac:(lia)).
  pose proof (pos_dec_lower_bound _ Hp) as Hb. rewrite Hz in Hb.
  destruct (Z.le_gt_cases (js_length (dec z)) 16) as [|Hg]; [done|].
  pose proof (Z.pow_le_mono_r 10 16 (js_length (dec z) - 1) ltac:(lia) ltac:(lia)).
  unfold MAX_SAFE_INTEGER in Hu. lia.
Qed.

Lemma fits_int key z : plain_text (js key) = true -> is_safe_positive z = true ->
  fits (js_length (js key) + 19) (member_text (int_member key z)).
Proof.
  intros Hk Hz. unfold member_text, int_member. cbn [fst snd stringify jint num_text].
  pose proof (dec_signed_length z Hz) as Hl. assert (safe_Z z = true) as ->.
  { apply safe_Z_spec. unfold is_safe_positive in Hz. apply in_range_spec in Hz. unfold MAX_SAFE_INTEGER in *. lia. }
  rewrite plain_quote by done. apply plain_ascii in Hk.
  change (34 :: js key ++ [34]) with ([34] ++ js key ++ [34]).
  change (58 :: dec_signed z) with ([58] ++ dec_signed z).
  split; [by rewrite !ascii_app, Hk, dec_signed_ascii|]. rewrite !js_length_app.
  change (js_length [34]) with 1. change (js_length [58]) with 1. lia.
Qed.

Lemma uuid_plain s : is_uuid_v7 s = true -> plain_text s = true /\ js_length s <= 36.
Proof.
  intros H. split.
  - unfold is_uuid_v7, uuid_v7_units in H. eapply match_units_forall; [|exact H].
    assert (forall c, is_hex c = true -> plain_char c = true) as Hhex.
    { unfold is_hex, is_digit, plain_char. intros c [Hc|Hc]%orb_true_iff; apply in_range_spec in Hc;
        apply andb_true_iff; (split; [apply in_range_spec; lia|]); apply negb_true_iff, orb_false_iff;
        split; apply Z.eqb_neq; lia. }
    repeat (apply Forall_app; split); try (by apply Forall_replicate);
      try (constructor; [by intros c ->%Z.eqb_eq|constructor]).
    constructor; [|constructor]. intros c. rewrite !orb_true_iff, !Z.eqb_eq.
    intros [[[-> | ->] | ->] | ->]; done.
  - apply match_units_length in H. unfold js_length. rewrite H. vm_compute. discriminate.
Qed.

Lemma tool_plain s : tool_name s = true -> plain_text s = true /\ js_length s <= 128.
Proof.
  destruct s as [|c s]; [done|]. unfold tool_name, class_len. intros [Hc [Hl Hs]%andb_true_iff]%andb_true_iff.
  apply in_range_spec in Hl. rewrite js_length_cons. split; [|lia].
  assert (forall d, is_lower d || is_digit d || (d =? 95) = true -> plain_char d = true) as Hp.
  { unfold is_lower, is_digit, plain_char. intros d Hd. rewrite !orb_true_iff, !in_range_spec, Z.eqb_eq in Hd.
    apply andb_true_iff. split; [apply in_range_spec; lia|]. apply negb_true_iff, orb_false_iff.
    split; apply Z.eqb_neq; lia. }
  cbn [plain_text forallb]. rewrite Hp by by rewrite Hc. cbn [andb].
  rewrite forallb_forall in *. intros d Hd. by apply Hp, Hs.
Qed.

Lemma payload_fits p : payload_ok p = true -> plain_text (after p) = true ->
  fits 1600 (stringify (sort_json (payload_json p))).
Proof.
  intros Hp Ha. unfold payload_ok in Hp. boolify.
  repeat match goal with
  | H : is_uuid_v7 _ = true |- _ => apply uuid_plain in H as []
  | H : tool_name _ = true |- _ => apply tool_plain in H as []
  | H : after_text _ = true |- _ => apply in_range_spec in H
  end.
  rewrite sort_payload. unfold sorted_payload_json.
  set (room key n := js_length (js key) + n).
  pose proof (fits_object [room "after" (5 + 1024); room "board_id" (5 + 36); room "expires_at" 19;
      room "member_id" (5 + 36); room "organization_id" (5 + 36); room "schema_version" (5 + 20);
      room "tool" (5 + 128)]
    [str "after" (after p); nullable "board_id" (board_id p); int_member "expires_at" (expires_at p);
     str "member_id" (member_id p); str "organization_id" (organization_id p);
     str "schema_version" (js CURSOR_SCHEMA_VERSION); str "tool" (tool p)]) as [Hf1 Hf2].
  - unfold room. rewrite !Z.add_assoc.
    apply Forall2_cons; split; [apply fits_str; [done|done|lia]|].
    apply Forall2_cons; split; [apply fits_nullable; [done|done|intros s E; rewrite E in *; by apply uuid_plain]|].
    apply Forall2_cons; split; [by apply fits_int|].
    repeat (apply Forall2_cons; split; [by apply fits_str|]). constructor.
  - split; [done|]. etrans; [exact Hf2|]. vm_compute. discriminate.
Qed.


(** ** Properties *)

Section properties.
Context `{Platform} `{!NodeText} (codec : CursorCodec).

Lemma mint_length binding a now wire : mint codec binding a now = Ok wire -> plain_text a = true ->
  js_length wire <= 4096.
Proof.
  intros (Hv & text & Et & ->)%mint_ok Ha. destruct (payload_text_ok _ _ Hv Et) as (-> & _).
  destruct (payload_fits (bound_payload binding a (now + ttlSeconds codec)) Hv Ha) as [Hf1 Hf2].
  change (payload_json ?p) with (to_json p) in Hf1, Hf2.
  unfold wire_of. rewrite utf8_ascii by done.
  match type of Hf2 with js_length ?t <= _ => set (text := t) in * end.
  assert (forallb is_byte text = true) as Hb.
  { rewrite <- (utf8_ascii text) by done. apply utf8_encode_bytes. }
  destruct (b64url_encode_shape text Hb) as [_ Hl].
  destruct (mac_bytes codec text) as [Hm Hmb]. destruct (b64url_encode_shape _ Hmb) as [_ Hl'].
  rewrite js_length_app, js_length_cons, Hl, Hl', Hm.
  unfold js_length in Hf2. Z.to_euclidean_division_equations. lia.
Qed.

(** A list cursor is bound to its reader and its lifetime. What [mint]
    returns for a position of printable text is accepted, for the same binding
    and at every moment before it expires, as that position. Conversely an
    accepted wire carries the signature of the wire that [mint] would give for
    the same binding and position at some moment from which it has not expired;
    and no wire is accepted for two bindings or two positions. *)
Theorem cursor_bound binding a :
  (forall now wire, mint codec binding a now = Ok wire -> plain_text a = true ->
     forall now', now' < now + ttlSeconds codec -> verify_cursor codec wire binding now' = Ok a) /\
  (forall wire now, verify_cursor codec wire binding now = Ok a ->
     (exists moment text, now < moment + ttlSeconds codec /\
        mint codec binding a moment = Ok (wire_of codec text) /\
        exists body, wire = body ++ 46 :: b64url_encode (mac codec text) /\
          buffer_toString (b64url_decode body) = text) /\
     (forall binding' now' a', verify_cursor codec wire binding' now' = Ok a' ->
        binding' = binding /\ a' = a)).
Proof.
  split.
  - intros now wire Hm Ha now' Hn. eapply verify_minted; [done| |done]. by eapply mint_length.
  - intros wire now Hv. split; [by eapply verify_sound|].
    intros binding' now' a' Hv'. by eapply verify_one_reader.
Qed.
End properties.

(** ** Concrete cursors *)

Definition sample_codec : CursorCodec := MkCodec (replicate 32 7) 86400.
Definition sample_binding : CursorBinding :=
  MkBinding sample_id sample_id (js "list_votes") (Some sample_id).

Definition sample_wire (a : jsstr) : jsstr :=
  catch (@mint plain_platform sample_codec sample_binding a 1000) [].

Example sample_accepted :
  @verify_cursor plain_platform (@strict_text plain_platform) sample_codec
    (sample_wire (js "42")) sample_binding 87399 = Ok (js "42").
Proof. vm_compute. reflexivity. Qed.

Example sample_expired :
  @verify_cursor plain_platform (@strict_text plain_platform) sample_codec
    (sample_wire (js "42")) sample_binding 87400 = Throw invalid_cursor.
Proof. vm_compute. reflexivity. Qed.

(** The length check makes the hypothesis on the position necessary: a position
    that the schema admits but that JSON escapes is minted and never accepted. *)
Example escaped_position_refused :
  is_ok (@mint plain_platform sample_codec sample_binding (replicate 1024 1) 1000) = true /\
  @verify_cursor plain_platform (@strict_text plain_platform) sample_codec
    (sample_wire (replicate 1024 1)) sample_binding 1000 = Throw invalid_cursor.
Proof. vm_compute. split; reflexivity. Qed.
