(* ===== verification/DecisionPackage.v ===== *)
(** * Decision packages and the electorate

    lib/domain/src/decision-package.ts with the package schema of
    lib/contracts/src/governance.ts: the package a vote freezes, what changed
    between two packages, the plan that replaces an open vote, and the
    electorate frozen into a package. *)

From stdpp Require Import base numbers sorting strings list.
From Stdlib Require Import Lia.
From S2P Require Import Prelude JsString Encoding JsNumber Json JsonParse JsonCanon Schemas.
From S2P Require Import VotingConsent Signing.

Local Open Scope Z_scope.

(** ** The package *)

Record Component := MkComponent {
  c_type : jsstr;
  c_ordinal : Z;
  c_id : jsstr;
  c_version : Z;
  c_sha256 : jsstr
}.

Record RuleOverrideRef := MkOverrideRef { ov_id : jsstr; ov_canonicalSha256 : jsstr }.

Record DecisionPackage := MkPackage {
  voteId : jsstr;
  packageVersion : Z;
  resolutionVersionId : jsstr;
  resolutionSha256 : jsstr;
  governanceProfileVersionId : jsstr;
  governanceProfileSha256 : jsstr;
  rulesetVersionId : jsstr;
  rulesetSha256 : jsstr;
  approvalRuleId : jsstr;
  approvalRuleSha256 : jsstr;
  matterEvaluationId : jsstr;
  matterEvaluationResultSha256 : jsstr;
  selectedRulesetRuleId : jsstr;
  selectedRulesetRuleSha256 : jsstr;
  ruleOverride : option RuleOverrideRef;
  electorateSha256 : jsstr;
  closeMode : jsstr;
  deadlineAt : jsstr;
  components : list Component
}.

#[export] Instance RuleOverrideRef_eq_dec : EqDecision RuleOverrideRef.
Proof. solve_decision. Defined.
#[export] Instance Component_eq_dec : EqDecision Component.
Proof. solve_decision. Defined.

Definition component_ok (c : Component) : bool :=
  includes ["management_submission"; "document"; "question_cutoff"] (c_type c)
  && is_safe_positive (c_ordinal c) && is_uuid_v7 (c_id c) && is_safe_positive (c_version c)
  && is_hex64 (c_sha256 c).

Definition component_key (c : Component) : jsstr :=
  c_type c ++ js ":" ++ c_id c ++ js ":" ++ num_text (NInt (c_version c)).

(** The refinement: ordinals count from one and no component is listed twice. *)
Fixpoint ordinals_from (n : Z) (l : list Component) : bool :=
  match l with
  | [] => true
  | c :: l' => (c_ordinal c =? n) && ordinals_from (n + 1) l'
  end.

Definition package_refined (p : DecisionPackage) : bool :=
  ordinals_from 1 (components p) && all_distinct (map component_key (components p)).

Definition package_ok (p : DecisionPackage) : bool :=
  is_uuid_v7 (voteId p) && is_safe_positive (packageVersion p) && is_uuid_v7 (resolutionVersionId p)
  && is_hex64 (resolutionSha256 p) && is_uuid_v7 (governanceProfileVersionId p)
  && is_hex64 (governanceProfileSha256 p) && is_uuid_v7 (rulesetVersionId p)
  && is_hex64 (rulesetSha256 p) && is_uuid_v7 (approvalRuleId p) && is_hex64 (approvalRuleSha256 p)
  && is_uuid_v7 (matterEvaluationId p) && is_hex64 (matterEvaluationResultSha256 p)
  && is_uuid_v7 (selectedRulesetRuleId p) && is_hex64 (selectedRulesetRuleSha256 p)
  && opt_all (fun o => is_uuid_v7 (ov_id o) && is_hex64 (ov_canonicalSha256 o)) (ruleOverride p)
  && is_hex64 (electorateSha256 p) && includes ["automatic"; "secretariat_confirmed"] (closeMode p)
  && is_rfc3339_utc (deadlineAt p)
  && (Z.of_nat (length (components p)) <=? 10000) && forallb component_ok (components p)
  && package_refined p.

Definition DecisionPackageSchema (p : DecisionPackage) : result DecisionPackage :=
  parse "DecisionPackage" package_ok p.

Definition component_json (c : Component) : json :=
  JObj [str "type" (c_type c); int_member "ordinal" (c_ordinal c); str "id" (c_id c);
        int_member "version" (c_version c); str "sha256" (c_sha256 c)].

Definition override_ref_json (o : RuleOverrideRef) : json :=
  JObj [str "id" (ov_id o); str "canonicalSha256" (ov_canonicalSha256 o)].

Definition package_json (p : DecisionPackage) : json :=
  JObj [str "schemaVersion" (js "boardagent.decision-package.v1"); str "voteId" (voteId p);
        int_member "packageVersion" (packageVersion p);
        str "resolutionVersionId" (resolutionVersionId p); str "resolutionSha256" (resolutionSha256 p);
        str "governanceProfileVersionId" (governanceProfileVersionId p);
        str "governanceProfileSha256" (governanceProfileSha256 p);
        str "rulesetVersionId" (rulesetVersionId p); str "rulesetSha256" (rulesetSha256 p);
        str "approvalRuleId" (approvalRuleId p); str "approvalRuleSha256" (approvalRuleSha256 p);
        str "matterEvaluationId" (matterEvaluationId p);
        str "matterEvaluationResultSha256" (matterEvaluationResultSha256 p);
        str "selectedRulesetRuleId" (selectedRulesetRuleId p);
        str "selectedRulesetRuleSha256" (selectedRulesetRuleSha256 p);
        (js "ruleOverride", jopt override_ref_json (ruleOverride p));
        str "electorateSha256" (electorateSha256 p); str "closeMode" (closeMode p);
        str "deadlineAt" (deadlineAt p); (js "components", JArr (map component_json (components p)))].

(** ** What changed between two packages *)

Inductive DecisionPackageChangeClass :=
  | resolution | governance_profile | ruleset | approval_rule | electorate | close_mode | deadline
  | management_submission | document | question_cutoff.

#[export] Instance change_class_eq_dec : EqDecision DecisionPackageChangeClass.
Proof. solve_decision. Defined.

Definition class_name (c : DecisionPackageChangeClass) : string :=
  match c with
  | resolution => "resolution" | governance_profile => "governance_profile" | ruleset => "ruleset"
  | approval_rule => "approval_rule" | electorate => "electorate" | close_mode => "close_mode"
  | deadline => "deadline" | management_submission => "management_submission"
  | document => "document" | question_cutoff => "question_cutoff"
  end.

(** [a !== b] on strings. *)
Definition differ (a b : jsstr) : bool := negb (bool_decide (a = b)).

(** [if (b) changes.push(c)] *)
Definition push_if (b : bool) (c : DecisionPackageChangeClass) : list DecisionPackageChangeClass :=
  if b then [c] else [].

Section packages.
Context `{Platform}.

Definition decisionPackageHash (p : DecisionPackage) : result jsstr :=
  q ← DecisionPackageSchema p; canonicalSha256 (package_json q).

Definition components_of (p : DecisionPackage) (type : DecisionPackageChangeClass) : list Component :=
  filter (fun c => c_type c = js (class_name type)) (components p).

Definition componentDigest (p : DecisionPackage) (type : DecisionPackageChangeClass) : result jsstr :=
  canonicalSha256 (JArr (map component_json (components_of p type))).

Definition component_changed (before after : DecisionPackage) (type : DecisionPackageChangeClass)
    : result (list DecisionPackageChangeClass) :=
  a ← componentDigest before type;
  b ← componentDigest after type;
  Ok (push_if (differ a b) type).

Definition override_differs (a b : option RuleOverrideRef) : bool :=
  negb (bool_decide (ov_id <$> a = ov_id <$> b))
  || negb (bool_decide (ov_canonicalSha256 <$> a = ov_canonicalSha256 <$> b)).

(** The comparisons of the fixed parts, in the order they are pushed. *)
Definition fixed_changes (o n : DecisionPackage) (electorateChanged : bool)
    : list DecisionPackageChangeClass :=
  push_if (differ (resolutionSha256 o) (resolutionSha256 n)) resolution
  ++ push_if (differ (governanceProfileVersionId o) (governanceProfileVersionId n)
              || differ (governanceProfileSha256 o) (governanceProfileSha256 n)) governance_profile
  ++ push_if (differ (rulesetVersionId o) (rulesetVersionId n) || differ (rulesetSha256 o) (rulesetSha256 n)
              || differ (matterEvaluationId o) (matterEvaluationId n)
              || differ (matterEvaluationResultSha256 o) (matterEvaluationResultSha256 n)
              || differ (selectedRulesetRuleId o) (selectedRulesetRuleId n)
              || differ (selectedRulesetRuleSha256 o) (selectedRulesetRuleSha256 n)
              || override_differs (ruleOverride o) (ruleOverride n)) ruleset
  ++ push_if (differ (approvalRuleId o) (approvalRuleId n)
              || differ (approvalRuleSha256 o) (approvalRuleSha256 n)) approval_rule
  ++ push_if electorateChanged electorate
  ++ push_if (differ (closeMode o) (closeMode n)) close_mode
  ++ push_if (differ (deadlineAt o) (deadlineAt n)) deadline.

Definition compareDecisionPackages (before after : DecisionPackage) (electorateChanged : bool)
    : result (list DecisionPackageChangeClass) :=
  oldPackage ← DecisionPackageSchema before;
  newPackage ← DecisionPackageSchema after;
  submissions ← component_changed oldPackage newPackage management_submission;
  documents ← component_changed oldPackage newPackage document;
  cutoffs ← component_changed oldPackage newPackage question_cutoff;
  Ok (fixed_changes oldPackage newPackage electorateChanged ++ submissions ++ documents ++ cutoffs).

(** ** Replacing a vote *)

Record VoteReplacementPlan := MkPlan {
  oldVoteId : jsstr;
  newVoteId : jsstr;
  oldPackageSha256 : jsstr;
  newPackageSha256 : jsstr;
  changedComponentClasses : list DecisionPackageChangeClass;
  carriedBallotIds : list jsstr;
  carriedStageIds : list jsstr;
  carriedProxyGrantIds : list jsstr;
  revoteRequiredMemberIds : list jsstr
}.

Definition replacementPlan (before after : DecisionPackage) (priorBallotPrincipalIds newlyEligibleMemberIds : list jsstr)
    (electorateChanged : bool) : result VoteReplacementPlan :=
  oldPackage ← DecisionPackageSchema before;
  newPackage ← DecisionPackageSchema after;
  if bool_decide (voteId oldPackage = voteId newPackage)
  then Throw (JsError "replacement requires a distinct vote identifier" []) else
  changed ← compareDecisionPackages oldPackage newPackage electorateChanged;
  if Nat.eqb (length changed) 0
  then Throw (JsError "replacement requires at least one changed package component" []) else
  let eligible := set_of newlyEligibleMemberIds in
  let revote := toSorted cmp_units
    (filter (fun memberId => set_has eligible memberId = true) (set_of priorBallotPrincipalIds)) in
  oldHash ← decisionPackageHash oldPackage;
  newHash ← decisionPackageHash newPackage;
  Ok (MkPlan (voteId oldPackage) (voteId newPackage) oldHash newHash changed [] [] [] revote).

Record ReplacementConsent := MkReplacementConsent {
  rc_oldVoteId : jsstr;
  rc_newVoteId : jsstr;
  rc_newTitle : jsstr;
  rc_newResolutionVersionId : jsstr;
  rc_newResolutionSha256 : jsstr;
  rc_decisionPackageId : jsstr;
  rc_newPackageSha256 : jsstr;
  rc_reason : jsstr
}.

Definition replacement_payload (i : ReplacementConsent) : result json :=
  oldVoteId ← UuidV7Schema (rc_oldVoteId i);
  newVoteId ← UuidV7Schema (rc_newVoteId i);
  newResolutionVersionId ← UuidV7Schema (rc_newResolutionVersionId i);
  newResolutionSha256 ← Sha256HexSchema (rc_newResolutionSha256 i);
  decisionPackageId ← UuidV7Schema (rc_decisionPackageId i);
  newPackageSha256 ← Sha256HexSchema (rc_newPackageSha256 i);
  Ok (JObj [str "schemaVersion" (js "boardagent.vote-replacement-consent.v1");
            str "oldVoteId" oldVoteId; str "newVoteId" newVoteId; str "newTitle" (rc_newTitle i);
            str "newResolutionVersionId" newResolutionVersionId;
            str "newResolutionSha256" newResolutionSha256; str "decisionPackageId" decisionPackageId;
            str "newPackageSha256" newPackageSha256; str "reason" (rc_reason i)]).

Definition voteReplacementConsentHash (i : ReplacementConsent) : result jsstr :=
  replacement_payload i ≫= canonicalSha256.
End packages.

(** ** Properties of the comparison *)

(** What each class of change is about. *)
Definition class_differs (c : DecisionPackageChangeClass) (o n : DecisionPackage) (electorateChanged : bool) : Prop :=
  match c with
  | resolution => resolutionSha256 o <> resolutionSha256 n
  | governance_profile =>
      (governanceProfileVersionId o, governanceProfileSha256 o)
      <> (governanceProfileVersionId n, governanceProfileSha256 n)
  | ruleset =>
      (rulesetVersionId o, rulesetSha256 o, matterEvaluationId o, matterEvaluationResultSha256 o,
       selectedRulesetRuleId o, selectedRulesetRuleSha256 o, ruleOverride o)
      <> (rulesetVersionId n, rulesetSha256 n, matterEvaluationId n, matterEvaluationResultSha256 n,
          selectedRulesetRuleId n, selectedRulesetRuleSha256 n, ruleOverride n)
  | approval_rule => (approvalRuleId o, approvalRuleSha256 o) <> (approvalRuleId n, approvalRuleSha256 n)
  | electorate => electorateChanged = true
  | close_mode => closeMode o <> closeMode n
  | deadline => deadlineAt o <> deadlineAt n
  | management_submission | document | question_cutoff => components_of o c <> components_of n c
  end.

Definition component_bytes (p : DecisionPackage) (c : DecisionPackageChangeClass) : list Z :=
  canonical_bytes (JArr (map component_json (components_of p c))).

Section comparison.
Context `{Platform}.

Lemma differ_true a b : differ a b = true <-> a <> b.
Proof. unfold differ. by rewrite negb_true_iff, bool_decide_eq_false. Qed.

Lemma elem_push_if b c d : c ∈ push_if b d <-> b = true /\ c = d.
Proof. destruct b; cbn; rewrite ?list_elem_of_singleton, ?elem_of_nil; intuition congruence. Qed.

Lemma override_differs_true a b : override_differs a b = true <-> a <> b.
Proof.
  unfold override_differs. rewrite orb_true_iff, !negb_true_iff, !bool_decide_eq_false.
  destruct a as [[i s]|], b as [[i' s']|]; cbn; try intuition congruence.
  destruct (decide (i = i')) as [->|], (decide (s = s')) as [->|]; intuition congruence.
Qed.

Lemma component_json_plain c : component_ok c = true -> json_plain (component_json c) = true.
Proof. unfold component_ok. intros. boolify. obj_plain; by apply safe_positive. Qed.

Lemma component_json_inj a b : sort_json (component_json a) = sort_json (component_json b) -> a = b.
Proof. intros E. unfold component_json in E. split_members E. destruct a, b; cbn in *; by subst. Qed.

Lemma type_unicode s : includes ["management_submission"; "document"; "question_cutoff"] s = true ->
  unicode_ok s = true.
Proof.
  unfold includes. cbn [existsb]. rewrite !orb_true_iff, !bool_decide_eq_true.
  intros [-> | [-> | [-> | ]]]; [apply ascii_unicode_ok; vm_compute; reflexivity..|done].
Qed.

#[local] Hint Resolve type_unicode : jsdb.

Lemma component_json_ok d c : Nat.ltb d MAX_JSON_CONTAINER_DEPTH = true -> component_ok c = true ->
  json_ok d (component_json c) = true.
Proof. unfold component_ok, component_json. intros Hd Hc. boolify. obj_ok. Qed.

Lemma components_of_ok p c : package_ok p = true ->
  forall x, In x (components_of p c) -> component_ok x = true.
Proof.
  unfold package_ok. intros Hp x Hx%list_elem_of_In. boolify. unfold components_of in Hx.
  apply list_elem_of_filter in Hx as [_ Hx%list_elem_of_In].
  match goal with H : forallb component_ok _ = true |- _ => rewrite forallb_forall in H; by apply H end.
Qed.

Lemma componentDigest_some p c : package_ok p = true -> exists h, componentDigest p c = Ok h.
Proof.
  intros Hp. apply canonicalSha256_some, arr_ok; [done|]. intros x Hx.
  apply component_json_ok; [done|]. by eapply components_of_ok.
Qed.

Lemma components_plain p c : package_ok p = true ->
  json_plain (JArr (map component_json (components_of p c))) = true.
Proof. intros Hp. apply arr_plain. intros x Hx. eapply component_json_plain, components_of_ok; eassumption. Qed.

(** Equal digests: the same components, or a collision. *)
Lemma componentDigest_eq o n c h : package_ok o = true -> package_ok n = true ->
  componentDigest o c = Ok h -> componentDigest n c = Ok h ->
  components_of o c = components_of n c \/ collision (component_bytes o c) (component_bytes n c).
Proof.
  intros Ho Hn Eo En.
  destruct (canonicalSha256_plain _ _ h (components_plain o c Ho) (components_plain n c Hn) Eo En)
    as [E|Hc]; [left|by right].
  apply sort_json_arr in E. by apply (jstr_list_inj component_json); [apply component_json_inj|].
Qed.

Lemma pair_neq {A B} `{EqDecision A} (a c : A) (b d : B) : (a, b) <> (c, d) -> a <> c \/ b <> d.
Proof. intros Hd. destruct (decide (a = c)) as [->|]; [right; congruence|by left]. Qed.

(** The classes that are compared by the digest of their components. *)
Definition component_class (c : DecisionPackageChangeClass) : bool :=
  match c with management_submission | document | question_cutoff => true | _ => false end.

Lemma fixed_changes_spec o n e c : c ∈ fixed_changes o n e <->
  class_differs c o n e /\ component_class c = false.
Proof.
  unfold fixed_changes. rewrite !elem_of_app, !elem_push_if, !orb_true_iff, !differ_true, override_differs_true.
  split.
  - intros Hc. destruct c; cbn [class_differs component_class]; (split; [|intuition congruence]);
      intuition congruence.
  - intros [Hd Hc]. destruct c; try discriminate Hc; cbn [class_differs] in Hd.
    all: repeat (apply pair_neq in Hd as [Hd|Hd]); tauto.
Qed.

Lemma component_changed_spec o n c : package_ok o = true -> package_ok n = true ->
  exists l, component_changed o n c = Ok l /\
    (l = [] /\ (components_of o c = components_of n c \/ collision (component_bytes o c) (component_bytes n c))
     \/ l = [c] /\ components_of o c <> components_of n c).
Proof.
  intros Ho Hn. unfold component_changed.
  destruct (componentDigest_some o c Ho) as [a Ea]. destruct (componentDigest_some n c Hn) as [b Eb].
  rewrite Ea, Eb. cbn [mbind result_bind]. eexists. split; [done|].
  destruct (differ a b) eqn:Ed; [right|left]; (split; [done|]).
  - apply differ_true in Ed. intros E. unfold componentDigest in Ea, Eb. rewrite E in Ea. congruence.
  - unfold differ in Ed. boolify. subst b. by eapply componentDigest_eq.
Qed.

Lemma compare_spec o n e : package_ok o = true -> package_ok n = true ->
  exists changes, compareDecisionPackages o n e = Ok changes /\ forall c,
    (c ∈ changes -> class_differs c o n e) /\
    (class_differs c o n e -> c ∈ changes \/
       component_class c = true /\ collision (component_bytes o c) (component_bytes n c)).
Proof.
  intros Ho Hn. unfold compareDecisionPackages, DecisionPackageSchema, parse. rewrite Ho, Hn.
  cbn [mbind result_bind].
  destruct (component_changed_spec o n management_submission Ho Hn) as (l1 & -> & H1).
  destruct (component_changed_spec o n document Ho Hn) as (l2 & -> & H2).
  destruct (component_changed_spec o n question_cutoff Ho Hn) as (l3 & -> & H3).
  cbn [mbind result_bind]. eexists. split; [done|]. intros c. rewrite !elem_of_app, fixed_changes_spec.
  split.
  - intros [[Hd _]|Hc]; [done|].
    destruct H1 as [[-> _]|[-> D1]], H2 as [[-> _]|[-> D2]], H3 as [[-> _]|[-> D3]];
      rewrite ?list_elem_of_singleton, ?elem_of_nil in Hc;
      repeat destruct Hc as [Hc|Hc]; try done; by subst c.
  - intros Hd. destruct (component_class c) eqn:Ec; [|by left; left].
    destruct c; try done; cbn [class_differs] in Hd.
    + destruct H1 as [[-> [E|Hcol]]|[-> _]]; [done|by right|left]. right. left. by left.
    + destruct H2 as [[-> [E|Hcol]]|[-> _]]; [done|by right|left]. right. right. left. by left.
    + destruct H3 as [[-> [E|Hcol]]|[-> _]]; [done|by right|left]. right. right. right. by left.
Qed.
End comparison.

(** ** Unchanged packages *)

(** A package without its identity: which vote and which version of it it
    belongs to, the row of its resolution, and the vote-bound electorate
    digest. *)
Definition package_content (p : DecisionPackage) : DecisionPackage :=
  MkPackage [] 0 [] (resolutionSha256 p) (governanceProfileVersionId p) (governanceProfileSha256 p)
    (rulesetVersionId p) (rulesetSha256 p) (approvalRuleId p) (approvalRuleSha256 p)
    (matterEvaluationId p) (matterEvaluationResultSha256 p) (selectedRulesetRuleId p)
    (selectedRulesetRuleSha256 p) (ruleOverride p) [] (closeMode p) (deadlineAt p) (components p).

Lemma ordinals_from_ge l : forall k c, ordinals_from k l = true -> c ∈ l -> k <= c_ordinal c.
Proof.
  induction l as [|x l IH]; intros k c Ho Hc; [by apply not_elem_of_nil in Hc|].
  cbn [ordinals_from] in Ho. boolify. apply elem_of_cons in Hc as [->|Hc]; [lia|].
  match goal with H : ordinals_from _ _ = true |- _ => specialize (IH _ c H Hc) end. lia.
Qed.

Lemma ordinals_from_eq l : forall k m, ordinals_from k l = true -> ordinals_from k m = true ->
  (forall c, c ∈ l <-> c ∈ m) -> l = m.
Proof.
  induction l as [|x l IH]; intros k m Hl Hm Hiff.
  { destruct m as [|y m]; [done|]. exfalso. apply (not_elem_of_nil y), Hiff. by left. }
  destruct m as [|y m]; [exfalso; apply (not_elem_of_nil x), Hiff; by left|].
  cbn [ordinals_from] in Hl, Hm. boolify.
  assert (x = y) as <-.
  { assert (x ∈ y :: m) as Hx by (apply Hiff; by left). apply elem_of_cons in Hx as [->|Hx]; [done|].
    pose proof (ordinals_from_ge m (k + 1) x ltac:(done) Hx). lia. }
  f_equal. apply (IH (k + 1)); try done. intros c. split; intros Hc.
  - pose proof (ordinals_from_ge l (k + 1) c ltac:(done) Hc).
    assert (c ∈ x :: m) as [->|]%elem_of_cons by (apply Hiff; by right); [lia|done].
  - pose proof (ordinals_from_ge m (k + 1) c ltac:(done) Hc).
    assert (c ∈ x :: l) as [->|]%elem_of_cons by (apply Hiff; by right); [lia|done].
Qed.

Lemma component_in_class p x : package_ok p = true -> x ∈ components p ->
  exists c, component_class c = true /\ x ∈ components_of p c.
Proof.
  unfold package_ok. intros Hp Hx. boolify.
  match goal with H : forallb component_ok _ = true |- _ =>
    rewrite forallb_forall in H; specialize (H x ltac:(by apply list_elem_of_In)); rename H into Hc end.
  unfold component_ok in Hc. boolify.
  match goal with H : includes _ _ = true |- _ => unfold includes in H; cbn [existsb] in H;
    rewrite !orb_true_iff, !bool_decide_eq_true in H; destruct H as [E|[E|[E|E]]] end; try done;
    [exists management_submission|exists document|exists question_cutoff];
    (split; [done|by apply list_elem_of_filter]).
Qed.

Lemma same_components o n : package_ok o = true -> package_ok n = true ->
  (forall c, component_class c = true -> components_of o c = components_of n c) ->
  components o = components n.
Proof.
  intros Ho Hn Hc. pose proof Ho as Ro. pose proof Hn as Rn. unfold package_ok, package_refined in Ro, Rn.
  boolify. apply (ordinals_from_eq _ 1); try done. intros x. split; intros Hx.
  - destruct (component_in_class o x Ho Hx) as (c & Cc & Hin). rewrite (Hc c Cc) in Hin.
    unfold components_of in Hin. by apply list_elem_of_filter in Hin as [_ Hin].
  - destruct (component_in_class n x Hn Hx) as (c & Cc & Hin). rewrite <- (Hc c Cc) in Hin.
    unfold components_of in Hin. by apply list_elem_of_filter in Hin as [_ Hin].
Qed.

Lemma unchanged_content o n : package_ok o = true -> package_ok n = true ->
  (forall c, ~ class_differs c o n false) -> package_content o = package_content n.
Proof.
  intros Ho Hn Hd. unfold package_content.
  assert (forall c, component_class c = true -> components_of o c = components_of n c) as Hc.
  { intros c Cc. specialize (Hd c). by destruct c; try done; apply dec_stable. }
  rewrite (same_components o n Ho Hn Hc).
  assert (resolutionSha256 o = resolutionSha256 n) as E1 by exact (dec_stable (Hd resolution)).
  pose proof (dec_stable (Hd governance_profile)) as E2. pose proof (dec_stable (Hd ruleset)) as E3.
  pose proof (dec_stable (Hd approval_rule)) as E4. injection E2 as E2 E2'. injection E3 as ? ? ? ? ? ? ?.
  injection E4 as E4 E4'. assert (closeMode o = closeMode n) as E5 by exact (dec_stable (Hd close_mode)).
  assert (deadlineAt o = deadlineAt n) as E6 by exact (dec_stable (Hd deadline)).
  f_equal; assumption.
Qed.

Section exactness.
Context `{Platform}.

(** Comparing two packages is exact. It answers for exactly the pairs of
    valid packages; a reported class did change, and a class that changed is
    reported, unless the digests of its two component lists collide. When
    nothing is reported, the packages agree on everything but the identity of
    the vote, the version, the resolution row and the vote-bound electorate
    digest, unless two digests collide. *)
Theorem package_changes_exact o n electorateChanged :
  is_ok (compareDecisionPackages o n electorateChanged) = package_ok o && package_ok n /\
  forall changes, compareDecisionPackages o n electorateChanged = Ok changes ->
    (forall c, c ∈ changes -> class_differs c o n electorateChanged) /\
    (forall c, class_differs c o n electorateChanged -> c ∈ changes \/
       component_class c = true /\ collision (component_bytes o c) (component_bytes n c)) /\
    (changes = [] -> package_content o = package_content n \/
       exists c, component_class c = true /\ collision (component_bytes o c) (component_bytes n c)).
Proof.
  assert (forall changes, compareDecisionPackages o n electorateChanged = Ok changes ->
    package_ok o = true /\ package_ok n = true) as Hv.
  { unfold compareDecisionPackages, DecisionPackageSchema. intros changes E. inv_parse. done. }
  split.
  - apply eq_true_iff_eq. rewrite is_ok_true, andb_true_iff. split; [by intros [? E%Hv]|].
    intros [Ho Hn]. destruct (compare_spec o n electorateChanged Ho Hn) as (changes & E & _). by exists changes.
  - intros changes E. destruct (Hv _ E) as [Ho Hn].
    destruct (compare_spec o n electorateChanged Ho Hn) as (changes' & E' & Hc).
    rewrite E in E'. injection E' as <-. split_and!; [apply Hc..|]. intros ->.
    assert (forall c, component_class c = true -> components_of o c = components_of n c \/
      collision (component_bytes o c) (component_bytes n c)) as Hcc.
    { intros c Cc. destruct (decide (components_of o c = components_of n c)) as [|Hne]; [by left|right].
      destruct (proj2 (Hc c)) as [Hin|[_ ?]]; [by destruct c|by apply not_elem_of_nil in Hin|done]. }
    destruct (Hcc management_submission eq_refl) as [E1|]; [|by right; exists management_submission].
    destruct (Hcc document eq_refl) as [E2|]; [|by right; exists document].
    destruct (Hcc question_cutoff eq_refl) as [E3|]; [|by right; exists question_cutoff].
    left. destruct electorateChanged.
    { by destruct (proj2 (Hc electorate) eq_refl) as [Hin%not_elem_of_nil|[? _]]. }
    apply unchanged_content; try done. intros c Hd.
    destruct (proj2 (Hc c) Hd) as [Hin|[Cc _]]; [by apply not_elem_of_nil in Hin|]. by destruct c.
Qed.

Definition revote_list (prior eligible : list jsstr) : list jsstr :=
  toSorted cmp_units (filter (fun m => set_has (set_of eligible) m = true) (set_of prior)).

Lemma revote_list_spec prior eligible :
  NoDup (revote_list prior eligible) /\ StronglySorted (cmp_le cmp_units) (revote_list prior eligible) /\
  forall m, m ∈ revote_list prior eligible <-> m ∈ prior /\ m ∈ eligible.
Proof.
  unfold revote_list. split_and!.
  - rewrite (toSorted_perm cmp_units). apply NoDup_filter, set_of_spec.
  - apply sort_units_sorted.
  - intros m. rewrite (toSorted_perm cmp_units), list_elem_of_filter. unfold set_has.
    rewrite bool_decide_eq_true. destruct (set_of_spec prior) as [_ ->], (set_of_spec eligible) as [_ ->].
    tauto.
Qed.

Lemma package_json_ok p : package_ok p = true -> json_ok 0 (package_json p) = true.
Proof.
  unfold package_ok. intros Hp. boolify. unfold package_json. obj_ok.
  - apply jopt_ok. intros o E. rewrite E in *. cbn [opt_all] in *. boolify. obj_ok.
  - match goal with H : includes _ (closeMode p) = true |- _ => unfold includes in H; cbn [existsb] in H;
      rewrite !orb_true_iff, !bool_decide_eq_true in H; destruct H as [->|[->|]] end;
      [apply ascii_unicode_ok; vm_compute; reflexivity..|done].
  - apply arr_ok; [done|]. intros c Hc. apply component_json_ok; [done|].
    match goal with H : forallb component_ok _ = true |- _ => rewrite forallb_forall in H; by apply H end.
Qed.

Lemma decisionPackageHash_some p : package_ok p = true -> exists h, decisionPackageHash p = Ok h.
Proof.
  intros Hp. unfold decisionPackageHash, DecisionPackageSchema, parse. rewrite Hp.
  by apply canonicalSha256_some, package_json_ok.
Qed.

(** C30. A replacement plan is made for exactly the pairs of valid packages of
    different votes between which something changed. It carries over no
    ballot, staged action or proxy grant, it binds both package digests, and it
    asks for a new vote, in order and once each, from exactly the members who
    had voted and remain eligible. *)
Theorem replacement_plan_exact o n prior eligible electorateChanged plan :
  replacementPlan o n prior eligible electorateChanged = Ok plan <->
  voteId o <> voteId n /\ changedComponentClasses plan <> [] /\
  compareDecisionPackages o n electorateChanged = Ok (changedComponentClasses plan) /\
  decisionPackageHash o = Ok (oldPackageSha256 plan) /\ decisionPackageHash n = Ok (newPackageSha256 plan) /\
  oldVoteId plan = voteId o /\ newVoteId plan = voteId n /\
  carriedBallotIds plan = [] /\ carriedStageIds plan = [] /\ carriedProxyGrantIds plan = [] /\
  NoDup (revoteRequiredMemberIds plan) /\
  StronglySorted (cmp_le cmp_units) (revoteRequiredMemberIds plan) /\
  (forall m, m ∈ revoteRequiredMemberIds plan <-> m ∈ prior /\ m ∈ eligible).
Proof.
  unfold replacementPlan, DecisionPackageSchema. split.
  - intros E. inv_parse.
    repeat (match type of E with (if ?b then _ else _) = _ => destruct b eqn:?; [done|] end; inv_ok).
    subst plan. cbn [changedComponentClasses oldPackageSha256 newPackageSha256 oldVoteId newVoteId
      carriedBallotIds carriedStageIds carriedProxyGrantIds revoteRequiredMemberIds].
    boolify. destruct (revote_list_spec prior eligible) as (Hd & Hs & Hm).
    split_and!; try done. by intros ->.
  - intros (Hv & Hc & Ec & Eo & En & Ev & Ew & Eb & Es & Eg & Hd & Hs & Hm).
    assert (package_ok o = true /\ package_ok n = true) as [Po Pn].
    { unfold compareDecisionPackages, DecisionPackageSchema in Ec. inv_parse. done. }
    unfold parse. rewrite Po, Pn. cbn [mbind result_bind].
    rewrite bool_decide_eq_false_2, Ec by done. cbn [mbind result_bind].
    destruct (changedComponentClasses plan) as [|c cs] eqn:Ecs; [done|]. cbn [length Nat.eqb].
    rewrite Eo, En. cbn [mbind result_bind]. fold (revote_list prior eligible).
    destruct (revote_list_spec prior eligible) as (Hd' & Hs' & Hm').
    replace (revote_list prior eligible) with (revoteRequiredMemberIds plan).
    { destruct plan. cbn in *. by subst. }
    apply (sorted_perm_eq cmp_units); try done; [intros; by apply cmp_units_antisym|].
    apply NoDup_Permutation; try done. intros m. by rewrite Hm, Hm'.
Qed.
End exactness.
