(* ===== verification/Electorate.v ===== *)
(** * The electorate frozen into a vote

    lib/domain/src/decision-package.ts, second part: the canonical electorate
    of a vote and the digest of its semantic evidence, by which a replacement
    vote learns whether the electorate changed. *)

From stdpp Require Import base numbers sorting strings list.
From Stdlib Require Import Lia.
From S2P Require Import Prelude JsString Encoding JsNumber Json JsonParse JsonCanon Schemas.
From S2P Require Import VotingConsent Signing.

Local Open Scope Z_scope.

Definition MAX_VOTING_WEIGHT : Z := 1000000000.

Record VoteElectorateEntryInput := MkInput {
  in_id : jsstr;
  in_memberId : jsstr;
  in_membershipVersionId : jsstr;
  in_isChair : option bool;
  in_votingWeight : Z;
  in_eligibilitySnapshot : json
}.

Record VoteElectorateEvidenceEntry := MkEvidence {
  memberId : jsstr;
  membershipVersionId : jsstr;
  isChair : bool;
  votingWeight : Z;
  eligibilitySnapshot : json;
  eligibilitySha256 : jsstr
}.

(** A prepared entry is its storage row and its evidence. *)
Record PreparedVoteElectorateEntry := MkPrepared { id : jsstr; evidence : VoteElectorateEvidenceEntry }.

Record PreparedVoteElectorate := MkElectorate {
  voteId : jsstr;
  entries : list PreparedVoteElectorateEntry;
  electorateSha256 : jsstr
}.

Definition evidence_json (e : VoteElectorateEvidenceEntry) : json :=
  JObj [str "memberId" (memberId e); str "membershipVersionId" (membershipVersionId e);
        str "seatRole" (js "voting_member"); bool_member "isChair" (isChair e);
        int_member "votingWeight" (votingWeight e);
        (js "eligibilitySnapshot", eligibilitySnapshot e);
        str "eligibilitySha256" (eligibilitySha256 e)].

Definition by_member (left right : VoteElectorateEvidenceEntry) : Z :=
  localeCompare (memberId left) (memberId right).

Section electorate.
Context `{Platform}.

Definition parse_evidence (e : VoteElectorateEvidenceEntry) : result VoteElectorateEvidenceEntry :=
  memberId ← UuidV7Schema (memberId e);
  membershipVersionId ← UuidV7Schema (membershipVersionId e);
  eligibilitySha256 ← Sha256HexSchema (eligibilitySha256 e);
  Ok (MkEvidence memberId membershipVersionId (isChair e) (votingWeight e) (eligibilitySnapshot e)
        eligibilitySha256).

(** One iteration of the loop over the sorted entries. *)
Definition check_evidence (_ : unit) (e : VoteElectorateEvidenceEntry) : result unit :=
  let failure := TypeError "vote electorate semantic evidence is invalid" [] in
  if negb (safe_Z (votingWeight e)) || (votingWeight e <? 1) || (MAX_VOTING_WEIGHT <? votingWeight e)
  then Throw failure else
  hash ← canonicalSha256 (eligibilitySnapshot e);
  throw_if (negb (bool_decide (hash = eligibilitySha256 e))) failure.

Definition voteElectorateEvidenceHash (input : list VoteElectorateEvidenceEntry) : result jsstr :=
  parsed ← mapR parse_evidence input;
  let sorted := toSorted by_member parsed in
  if negb (all_distinct (map memberId sorted))
  then Throw (TypeError "vote electorate evidence members must be unique" []) else
  forM check_evidence tt sorted ≫= fun _ =>
  canonicalSha256 (JObj [str "schemaVersion" (js "boardagent.vote-electorate-evidence.v1");
                         (js "entries", JArr (map evidence_json sorted))]).

Definition prepare_entry (entry : VoteElectorateEntryInput) : result PreparedVoteElectorateEntry :=
  id ← UuidV7Schema (in_id entry);
  memberId ← UuidV7Schema (in_memberId entry);
  membershipVersionId ← UuidV7Schema (in_membershipVersionId entry);
  let isChair := default false (in_isChair entry) in
  if (in_votingWeight entry <? 1) || (MAX_VOTING_WEIGHT <? in_votingWeight entry)
  then Throw (RangeError "vote electorate weight must be between 1 and 1000000000" []) else
  hash ← canonicalSha256 (in_eligibilitySnapshot entry);
  Ok (MkPrepared id (MkEvidence memberId membershipVersionId isChair (in_votingWeight entry)
                       (in_eligibilitySnapshot entry) hash)).

Definition manifest_json (voteId : jsstr) (entries : list PreparedVoteElectorateEntry) : json :=
  JObj [str "schemaVersion" (js "boardagent.vote-electorate.v1"); str "voteId" voteId;
        (js "entries", JArr (map (fun e => evidence_json (evidence e)) entries))].

Definition prepareVoteElectorate (voteId : jsstr) (input : list VoteElectorateEntryInput)
    : result PreparedVoteElectorate :=
  voteId ← UuidV7Schema voteId;
  let count := Z.of_nat (length input) in
  if (count <? 1) || (10000 <? count)
  then Throw (RangeError "vote electorate must contain 1 through 10000 voting members" []) else
  prepared ← mapR prepare_entry input;
  let entries := toSorted (fun l r => by_member (evidence l) (evidence r)) prepared in
  if negb (all_distinct (map id entries))
  then Throw (TypeError "vote electorate row IDs must be unique" []) else
  if negb (all_distinct (map (fun e => memberId (evidence e)) entries))
  then Throw (TypeError "vote electorate members must be unique" []) else
  if Nat.ltb 1 (length (filter (fun e => isChair (evidence e) = true) entries))
  then Throw (TypeError "vote electorate may contain at most one chair" []) else
  hash ← canonicalSha256 (manifest_json voteId entries);
  Ok (MkElectorate voteId entries hash).
End electorate.

(** ** Lemmas *)

Lemma mapR_perm {A B} (f : A -> result B) l k l' :
  l ≡ₚ k -> mapR f l = Ok l' -> exists k', mapR f k = Ok k' /\ l' ≡ₚ k'.
Proof.
  intros Hp. revert l'. induction Hp as [|x l k Hp IH|x y l|l k m _ IH1 _ IH2]; intros l' E.
  - by exists l'.
  - cbn [mapR] in *. inv_ok. subst l'. match goal with H : mapR f l = Ok _ |- _ => destruct (IH _ H) as (k' & Ek & Hk) end.
    match goal with H : f x = Ok _ |- _ => rewrite H end. rewrite Ek. cbn. eexists. split; [done|]. by constructor.
  - cbn [mapR] in *. inv_ok. subst.
    repeat match goal with H : f _ = Ok _ |- _ => rewrite H; clear H end. cbn.
    match goal with H : mapR f l = Ok _ |- _ => rewrite H end. cbn. eexists. split; [done|]. apply perm_swap.
  - destruct (IH1 _ E) as (k' & Ek & Hk). destruct (IH2 _ Ek) as (m' & Em & Hm). exists m'. split; [done|]. by trans k'.
Qed.

Lemma by_member_total a b : 0 < by_member a b -> by_member b a <= 0.
Proof. apply cmp_units_total. Qed.
Lemma by_member_trans a b c : by_member a b <= 0 -> by_member b c <= 0 -> by_member a c <= 0.
Proof. apply cmp_units_trans. Qed.

(** Sorting by member does not depend on the order of the input, when members
    are distinct. *)
Lemma sort_by_member {A} (f : A -> VoteElectorateEvidenceEntry) l k :
  let cmp a b := by_member (f a) (f b) in
  l ≡ₚ k -> NoDup (map (fun a => memberId (f a)) l) -> toSorted cmp l = toSorted cmp k.
Proof.
  intros cmp Hp Hd. apply (sorted_perm_eq cmp).
  - intros a b Ha Hb Hab Hba. rewrite (toSorted_perm cmp) in Ha, Hb.
    pose proof (cmp_units_antisym _ _ Hab Hba) as E.
    clear -Hd Ha Hb E. induction l as [|x l IH]; [by apply not_elem_of_nil in Ha|].
    cbn [map] in Hd. apply NoDup_cons in Hd as [Hn Hd].
    apply elem_of_cons in Ha as [->|Ha], Hb as [->|Hb]; [done| | |by apply IH]; destruct Hn.
    + rewrite E. by apply (list_elem_of_fmap_2 (fun a => memberId (f a))).
    + rewrite <- E. by apply (list_elem_of_fmap_2 (fun a => memberId (f a))).
  - apply toSorted_sorted; intros *; [apply by_member_total|apply by_member_trans].
  - apply toSorted_sorted; intros *; [apply by_member_total|apply by_member_trans].
  - by rewrite !(toSorted_perm cmp).
Qed.

Section electorate_facts.
Context `{Platform}.

Lemma parse_evidence_ok e e' : parse_evidence e = Ok e' <->
  e' = e /\ is_uuid_v7 (memberId e) = true /\ is_uuid_v7 (membershipVersionId e) = true /\
  is_hex64 (eligibilitySha256 e) = true.
Proof.
  unfold parse_evidence. split.
  - intros E. inv_parse. by destruct e.
  - intros (-> & H1 & H2 & H3). unfold UuidV7Schema, Sha256HexSchema, parse. rewrite H1, H2, H3. by destruct e.
Qed.

Definition evidence_shape (e : VoteElectorateEvidenceEntry) : Prop :=
  is_uuid_v7 (memberId e) = true /\ is_uuid_v7 (membershipVersionId e) = true /\
  is_hex64 (eligibilitySha256 e) = true.

Lemma parse_evidences l k : mapR parse_evidence l = Ok k <-> k = l /\ Forall evidence_shape l.
Proof.
  revert k. induction l as [|e l IH]; intros k; cbn [mapR].
  { split; [by intros [= <-]|by intros [-> _]]. }
  rewrite Forall_cons. split.
  - intros E. inv_ok. match goal with H : parse_evidence e = Ok _ |- _ => apply parse_evidence_ok in H as [-> He] end.
    match goal with H : mapR _ l = Ok _ |- _ => apply IH in H as [-> Hl] end. by subst.
  - intros (-> & He & Hl). rewrite (proj2 (parse_evidence_ok e e)) by done.
    by rewrite (proj2 (IH l)) by done.
Qed.

Lemma distinct_sorted {A} (f : A -> VoteElectorateEvidenceEntry) l :
  all_distinct (map (fun a => memberId (f a)) (toSorted (fun a b => by_member (f a) (f b)) l)) = true ->
  NoDup (map (fun a => memberId (f a)) l).
Proof.
  intros Hd%all_distinct_spec. eapply NoDup_Permutation_proper; [|exact Hd]. symmetry. apply Permutation_map, toSorted_perm.
Qed.

Lemma prepare_perm v l k p : l ≡ₚ k -> prepareVoteElectorate v l = Ok p -> prepareVoteElectorate v k = Ok p.
Proof.
  intros Hp. unfold prepareVoteElectorate. intros E. inv_ok.
  match goal with H : UuidV7Schema v = Ok _ |- _ => rewrite H end. cbn [mbind result_bind].
  rewrite <- (Permutation_length Hp).
  match type of E with (if ?b then _ else _) = _ => destruct b; [done|] end. inv_ok.
  match goal with H : mapR _ l = Ok ?l' |- _ =>
    rename l' into pl; destruct (mapR_perm _ _ _ _ Hp H) as (k' & Ek & Hk) end.
  rewrite Ek. cbn [mbind result_bind].
  assert (NoDup (map (fun a => memberId (evidence a)) pl)) as Hd.
  { apply distinct_sorted. destruct (all_distinct (map (fun a => memberId (evidence a)) _)) eqn:Hm; [done|].
    revert E. by case (negb (all_distinct (map id _))). }
  by rewrite <- (sort_by_member evidence pl k' Hk Hd).
Qed.

Definition evidence_checked (e : VoteElectorateEvidenceEntry) : Prop :=
  1 <= votingWeight e <= MAX_VOTING_WEIGHT /\
  canonicalSha256 (eligibilitySnapshot e) = Ok (eligibilitySha256 e).

Definition evidence_payload (l : list VoteElectorateEvidenceEntry) : json :=
  JObj [str "schemaVersion" (js "boardagent.vote-electorate-evidence.v1");
        (js "entries", JArr (map evidence_json (toSorted by_member l)))].

Lemma check_evidence_ok e u u' : check_evidence u e = Ok u' <-> evidence_checked e.
Proof.
  unfold check_evidence, evidence_checked. split.
  - destruct (_ || _ || _) eqn:E; [done|]. intros Eh. inv_ok. boolify. by subst.
  - intros [Hw Hh].
    assert (safe_Z (votingWeight e) = true) as ->.
    { apply safe_Z_spec. unfold MAX_VOTING_WEIGHT, MAX_SAFE_INTEGER in *. lia. }
    rewrite !(proj2 (Z.ltb_ge _ _)), Hh by lia. cbn. rewrite bool_decide_refl. by destruct u'.
Qed.

Lemma forM_check l u : forM check_evidence tt l = Ok u <-> Forall evidence_checked l.
Proof.
  induction l as [|e l IH]; cbn [forM]; [split; [constructor|by destruct u]|].
  rewrite bind_ok, Forall_cons, <- IH. setoid_rewrite check_evidence_ok.
  split; [by intros ([] & ? & ?)|]. intros [? ?]. by exists tt.
Qed.

(** When the evidence digest is computed: valid entries of distinct members. *)
Lemma evidenceHash_ok l h : voteElectorateEvidenceHash l = Ok h <->
  Forall evidence_shape l /\ Forall evidence_checked l /\ NoDup (map memberId l) /\
  canonicalSha256 (evidence_payload l) = Ok h.
Proof.
  unfold voteElectorateEvidenceHash. rewrite bind_ok. setoid_rewrite parse_evidences. split.
  - intros (? & (-> & Hs) & E). destruct (all_distinct _) eqn:Hd; [|done]. cbn [negb] in E. inv_ok.
    apply (distinct_sorted (fun e => e)) in Hd.
    match goal with H : forM _ _ _ = Ok _ |- _ => apply forM_check in H as Hf end.
    rewrite (toSorted_perm by_member) in Hf. by split_and!.
  - intros (Hs & Hf & Hd & Eh). exists l. split; [done|].
    assert (all_distinct (map memberId (toSorted by_member l)) = true) as ->.
    { apply all_distinct_spec. eapply NoDup_Permutation_proper; [|exact Hd].
      apply Permutation_map, toSorted_perm. }
    cbn [negb]. rewrite (proj2 (forM_check _ tt)); [done|]. by rewrite (toSorted_perm by_member).
Qed.
End electorate_facts.

(** ** What the evidence digest says *)

(** The same evidence, up to the order of members in the snapshot. *)
Definition same_evidence (a b : VoteElectorateEvidenceEntry) : Prop :=
  memberId a = memberId b /\ membershipVersionId a = membershipVersionId b /\ isChair a = isChair b /\
  votingWeight a = votingWeight b /\ eligibilitySha256 a = eligibilitySha256 b /\
  sort_json (eligibilitySnapshot a) = sort_json (eligibilitySnapshot b).

(** The same electorate: the same evidence in some order. *)
Definition same_electorate (l k : list VoteElectorateEvidenceEntry) : Prop :=
  exists l' k', l ≡ₚ l' /\ k ≡ₚ k' /\ Forall2 same_evidence l' k'.

Lemma sort_insert_same a b l k : same_evidence a b -> Forall2 same_evidence l k ->
  Forall2 same_evidence (sort_insert by_member a l) (sort_insert by_member b k).
Proof.
  intros Hab. induction 1 as [|x y l k Hxy Hl IH]; cbn [sort_insert].
  { apply Forall2_cons. split; [done|constructor]. }
  unfold by_member at 1 3. destruct (proj1 Hab), (proj1 Hxy). case_match.
  - repeat (apply Forall2_cons; split; [done|]). done.
  - apply Forall2_cons. by split.
Qed.

Lemma toSorted_same l k : Forall2 same_evidence l k ->
  Forall2 same_evidence (toSorted by_member l) (toSorted by_member k).
Proof. induction 1; cbn [toSorted]; [constructor|]. by apply sort_insert_same. Qed.

Lemma evidence_json_same a b :
  sort_json (evidence_json a) = sort_json (evidence_json b) <-> same_evidence a b.
Proof.
  unfold same_evidence. split.
  - intros E. unfold evidence_json in E. split_members E. done.
  - intros (E1 & E2 & E3 & E4 & E5 & E6). unfold evidence_json. rewrite E1, E2, E3, E4, E5, !sort_json_obj.
    unfold str, bool_member, int_member, sort_member. cbn [map fst snd]. by rewrite E6.
Qed.

Section evidence_digest.
Context `{Rfc : Rfc8785}.

Lemma canonicalSha256_sorted v w h : sort_json v = sort_json w ->
  canonicalSha256 v = Ok h -> canonicalSha256 w = Ok h.
Proof.
  unfold canonicalSha256. intros E (t & [Ho ->]%canonicalJson_rfc & ->)%fmap_ok.
  apply fmap_ok. eexists. split; [|done]. apply canonicalJson_rfc. rewrite <- E. split; [|done].
  by rewrite <- (sort_json_ok 0 w), <- E, sort_json_ok.
Qed.

Lemma evidence_safe e : evidence_shape e -> evidence_checked e ->
  json_safe (eligibilitySnapshot e) = true -> json_safe (evidence_json e) = true.
Proof.
  intros (Hm & Hv & Hs) [Hw _] Hsnap. unfold evidence_json. obj_safe; try done.
  cbn [json_safe jint]. apply safe_Z_spec. unfold MAX_VOTING_WEIGHT, MAX_SAFE_INTEGER in *. lia.
Qed.

Lemma entries_same l k :
  sort_json (JArr (map evidence_json l)) = sort_json (JArr (map evidence_json k)) <->
  Forall2 same_evidence l k.
Proof.
  split.
  - intros E%sort_json_arr. revert k E. induction l as [|a l IH]; intros [|b k] E; try done.
    cbn [map] in E. apply cons_inj in E as [Ea El]. apply Forall2_cons. split; [by apply evidence_json_same|by apply IH].
  - intros Hf. cbn [sort_json]. f_equal. induction Hf as [|a b l k Hab _ IH]; [done|]. cbn [map].
    apply evidence_json_same in Hab. by rewrite Hab, IH.
Qed.

Lemma payload_sorted l k : sort_json (evidence_payload l) = sort_json (evidence_payload k) <->
  Forall2 same_evidence (toSorted by_member l) (toSorted by_member k).
Proof.
  rewrite <- entries_same. unfold evidence_payload. split.
  - intros E. by split_members E.
  - intros E. rewrite !sort_json_obj. unfold str, sort_member. cbn [map fst snd]. by rewrite E.
Qed.

Lemma payload_safe l : Forall evidence_shape l -> Forall evidence_checked l ->
  Forall (fun e => json_safe (eligibilitySnapshot e) = true) l -> json_safe (evidence_payload l) = true.
Proof.
  intros Hs Hc Hj. unfold evidence_payload. obj_safe. cbn [json_safe].
  rewrite forallb_map. apply forallb_forall. intros e He%list_elem_of_In.
  rewrite (toSorted_perm by_member) in He. rewrite Forall_forall in *. by apply evidence_safe; auto.
Qed.

Lemma same_evidence_valid a b : same_evidence a b ->
  evidence_shape a -> evidence_checked a -> evidence_shape b /\ evidence_checked b.
Proof.
  intros (Em & Ev & _ & Ew & Eh & Es) Ha Hc. unfold evidence_shape, evidence_checked in *.
  rewrite <- Em, <- Ev, <- Ew, <- Eh. split; [done|]. split; [apply Hc|].
  eapply canonicalSha256_sorted; [exact Es|apply Hc].
Qed.

Lemma evidenceHash_perm l k h : l ≡ₚ k ->
  voteElectorateEvidenceHash l = Ok h -> voteElectorateEvidenceHash k = Ok h.
Proof.
  intros Hp (Hs & Hc & Hd & Hh)%evidenceHash_ok. apply evidenceHash_ok.
  split_and!; [by rewrite <- Hp..| |].
  - eapply NoDup_Permutation_proper; [|exact Hd]. symmetry. by apply Permutation_map.
  - unfold evidence_payload in *. by rewrite <- (sort_by_member (fun e => e) l k Hp Hd : toSorted by_member l = toSorted by_member k).
Qed.

Lemma evidenceHash_forall2 l k h : Forall2 same_evidence l k ->
  voteElectorateEvidenceHash l = Ok h -> voteElectorateEvidenceHash k = Ok h.
Proof.
  intros Hf (Hs & Hc & Hd & Hh)%evidenceHash_ok. apply evidenceHash_ok.
  assert (Forall evidence_shape k /\ Forall evidence_checked k /\ map memberId k = map memberId l)
    as (Hs' & Hc' & Em).
  { clear Hd Hh. induction Hf as [|a b l k Hab _ IH]; [by repeat constructor|].
    apply Forall_cons in Hs as [Sa Sl], Hc as [Ca Cl]. destruct (IH Sl Cl) as (? & ? & Em).
    destruct (same_evidence_valid a b Hab Sa Ca). rewrite !Forall_cons. split_and!; try done.
    cbn [map]. rewrite Em. f_equal. symmetry. apply Hab. }
  rewrite Em. split_and!; try done. eapply canonicalSha256_sorted; [|exact Hh].
  by apply payload_sorted, toSorted_same.
Qed.

(** The evidence digest decides whether the electorate changed. Listing
    the same evidence in another order, or with the members of a snapshot in
    another order, gives the same digest; and two electorates with the same
    digest are the same evidence in some order, or their canonical texts are an
    explicit SHA-256 collision. Snapshots contain canonical strings and safe
    integers. *)
Theorem electorate_evidence_exact l k h :
  Forall (fun e => json_safe (eligibilitySnapshot e) = true) l ->
  Forall (fun e => json_safe (eligibilitySnapshot e) = true) k ->
  voteElectorateEvidenceHash l = Ok h ->
  (same_electorate l k -> voteElectorateEvidenceHash k = Ok h) /\
  (voteElectorateEvidenceHash k = Ok h -> same_electorate l k \/
     collision (canonical_bytes (evidence_payload l)) (canonical_bytes (evidence_payload k))).
Proof.
  intros Jl Jk Hl. split.
  { intros (l' & k' & Pl & Pk & Hf). eapply evidenceHash_perm; [symmetry; exact Pk|].
    eapply evidenceHash_forall2; [exact Hf|]. by eapply evidenceHash_perm. }
  apply evidenceHash_ok in Hl as (Sl & Cl & Dl & Hl). intros (Sk & Ck & Dk & Hk)%evidenceHash_ok.
  destruct (canonicalSha256_rfc _ _ h (payload_safe l Sl Cl Jl) (payload_safe k Sk Ck Jk) Hl Hk) as [E|E];
    [left|by right].
  apply payload_sorted in E. exists (toSorted by_member l), (toSorted by_member k).
  split_and!; [symmetry; apply toSorted_perm..|done].
Qed.
End evidence_digest.

(** ** What a prepared electorate guarantees *)

Section prepared.
Context `{Platform}.

(** The entry an input entry is prepared to. *)
Definition prepared_from (i : VoteElectorateEntryInput) (e : PreparedVoteElectorateEntry) : Prop :=
  id e = in_id i /\ memberId (evidence e) = in_memberId i /\
  membershipVersionId (evidence e) = in_membershipVersionId i /\
  isChair (evidence e) = default false (in_isChair i) /\ votingWeight (evidence e) = in_votingWeight i /\
  eligibilitySnapshot (evidence e) = in_eligibilitySnapshot i.

Lemma prepare_entry_ok i e : prepare_entry i = Ok e ->
  prepared_from i e /\ evidence_shape (evidence e) /\ evidence_checked (evidence e).
Proof.
  unfold prepare_entry. intros E. inv_parse. destruct (_ || _) eqn:Hw; [done|]. inv_ok. subst e.
  boolify. unfold prepared_from, evidence_shape, evidence_checked. cbn. split_and!; try done.
  unfold canonicalSha256 in *. match goal with H : _ <$> _ = Ok _ |- _ =>
    pose proof H as Hh; apply fmap_ok in Hh as (t & _ & ->) end. apply sha256Hex_hex64.
Qed.

Lemma ascending {A} (f : A -> jsstr) l :
  StronglySorted (fun a b => cmp_units (f a) (f b) <= 0) l -> NoDup (map f l) ->
  StronglySorted (fun a b => cmp_units (f a) (f b) < 0) l.
Proof.
  induction 1 as [|a l _ IH Ha]; intros Hd; [constructor|].
  cbn [map] in Hd. apply NoDup_cons in Hd as [Hn Hd]. constructor; [by apply IH|].
  rewrite List.Forall_forall in *. intros b Hb. specialize (Ha b Hb).
  destruct (Z.eq_dec (cmp_units (f a) (f b)) 0) as [E|]; [|lia]. apply cmp_units_eq in E.
  destruct Hn. rewrite E. by apply list_elem_of_In, in_map.
Qed.

(** The evidence can be digested as soon as the manifest can. *)
Lemma payload_of_manifest v (l : list PreparedVoteElectorateEntry) h :
  StronglySorted (fun a b => cmp_units (memberId (evidence a)) (memberId (evidence b)) < 0) l ->
  canonicalSha256 (manifest_json v l) = Ok h -> exists h', canonicalSha256 (evidence_payload (map evidence l)) = Ok h'.
Proof.
  intros Hs Hh. apply is_ok_true. rewrite canonicalSha256_is_ok.
  assert (json_ok 0 (manifest_json v l) = true) as Ho by (by rewrite <- canonicalSha256_is_ok, Hh).
  assert (toSorted by_member (map evidence l) = map evidence l) as Et.
  { apply toSorted_id. clear Ho Hh. induction Hs as [|a l _ IH Ha]; cbn [map]; constructor; [done|].
    rewrite List.Forall_forall in *. intros b (c & <- & Hc)%in_map_iff. apply Z.lt_le_incl. by apply Ha. }
  unfold evidence_payload. rewrite Et, map_map. unfold manifest_json in Ho. cbn -[js] in Ho |- *. boolify.
  repeat (apply andb_true_intro; split); try done; vm_compute; reflexivity.
Qed.

(** What is checked and built when an electorate is prepared. *)
Lemma prepared_entries v l p : prepareVoteElectorate v l = Ok p ->
  (exists l', l ≡ₚ l' /\ Forall2 prepared_from l' (entries p)) /\
  StronglySorted (fun a b => cmp_units (memberId (evidence a)) (memberId (evidence b)) < 0) (entries p) /\
  (length (filter (fun e => isChair (evidence e) = true) (entries p)) <= 1)%nat /\
  Forall (fun e => evidence_shape (evidence e) /\ evidence_checked (evidence e)) (entries p) /\
  canonicalSha256 (manifest_json (voteId p) (entries p)) = Ok (electorateSha256 p).
Proof.
  unfold prepareVoteElectorate. intros E. inv_ok.
  repeat (match type of E with (if ?b then _ else _) = _ => destruct b eqn:?; [done|] end; inv_ok).
  match goal with H : mapR prepare_entry l = Ok ?l' |- _ => rename l' into pl; apply mapR_ok in H as Hf end.
  set (cmp := fun l r => by_member (evidence l) (evidence r)) in *.
  pose proof (toSorted_perm cmp pl) as Hperm. subst p. cbn [entries voteId electorateSha256].
  split_and!; try done.
  - symmetry in Hperm. apply Forall2_flip in Hf.
    destruct (Permutation_Forall2 Hperm Hf) as (l' & Hl & Hf').
    exists l'. split; [done|]. apply Forall2_flip in Hf'. eapply Forall2_impl; [exact Hf'|].
    intros i e Hi. by apply prepare_entry_ok in Hi as [? _].
  - apply (ascending (fun e => memberId (evidence e))).
    + apply (toSorted_sorted cmp); intros *; [apply by_member_total|apply by_member_trans].
    + boolify. by apply all_distinct_spec.
  - match goal with H : Nat.ltb 1 _ = false |- _ => by apply Nat.ltb_ge in H end.
  - rewrite Hperm. clear -Hf. induction Hf as [|i e l pl Hi _ IH]; constructor; [|done].
    by apply prepare_entry_ok in Hi as [_ ?].
Qed.

(** C29. A prepared electorate does not depend on the order in which the entries
    were given. It lists exactly the given entries, by strictly ascending
    member, at most one of them as chair, and each carries a weight in range
    and the digest of its own snapshot; the digest of the electorate is that of
    its manifest, and the evidence digest of its entries can be computed. *)
Theorem electorate_prepared v l p : prepareVoteElectorate v l = Ok p ->
  (forall k, l ≡ₚ k -> prepareVoteElectorate v k = Ok p) /\
  (exists l', l ≡ₚ l' /\ Forall2 prepared_from l' (entries p)) /\
  StronglySorted (fun a b => cmp_units (memberId (evidence a)) (memberId (evidence b)) < 0) (entries p) /\
  (length (filter (fun e => isChair (evidence e) = true) (entries p)) <= 1)%nat /\
  Forall (fun e => evidence_shape (evidence e) /\ evidence_checked (evidence e)) (entries p) /\
  canonicalSha256 (manifest_json (voteId p) (entries p)) = Ok (electorateSha256 p) /\
  exists h, voteElectorateEvidenceHash (map evidence (entries p)) = Ok h.
Proof.
  intros E. split; [intros k Hp; by eapply prepare_perm|].
  destruct (prepared_entries v l p E) as (? & Hs & ? & He & Hh). split_and!; try done.
  destruct (payload_of_manifest _ _ _ Hs Hh) as (h & Hp). exists h. apply evidenceHash_ok. split_and!; [..|done].
  - apply Forall_map. eapply Forall_impl; [exact He|]. by intros e [].
  - apply Forall_map. eapply Forall_impl; [exact He|]. by intros e [].
  - rewrite map_map. clear -Hs. induction Hs as [|a k _ IH Ha]; cbn [map]; constructor; [|done].
    intros (b & Eb & Hb)%list_elem_of_fmap. rewrite List.Forall_forall in Ha.
    specialize (Ha b (proj1 (list_elem_of_In _ _) Hb)). rewrite Eb in Ha. rewrite cmp_units_refl in Ha. lia.
Qed.
End prepared.

(** ** A concrete electorate *)

Definition sample_member (n : string) : jsstr := js "01890000-0000-7000-8000-00000000000" ++ js n.

Definition sample_entry (n : string) (chair : option bool) (weight : Z) : VoteElectorateEntryInput :=
  MkInput (sample_member n) (sample_member n) sample_id chair weight
    (JObj [(js "seat", JStr (js n)); (js "eligible", JBool true)]).

Definition sample_input : list VoteElectorateEntryInput :=
  [sample_entry "2" None 3; sample_entry "1" (Some true) 1].

Definition sample_electorate : PreparedVoteElectorate :=
  catch (@prepareVoteElectorate plain_platform sample_id sample_input) (MkElectorate [] [] []).

Example sample_electorate_order :
  map id (entries sample_electorate) = [sample_member "1"; sample_member "2"].
Proof. vm_compute. reflexivity. Qed.

Lemma electorate_prepared_witness :
  @prepareVoteElectorate plain_platform sample_id (rev sample_input) = Ok sample_electorate.
Proof.
  apply (@electorate_prepared plain_platform sample_id sample_input sample_electorate).
  - vm_compute. reflexivity.
  - apply Permutation_rev.
Defined.

Definition sample_evidence : list VoteElectorateEvidenceEntry := map evidence (entries sample_electorate).

Definition sample_evidence_hash : jsstr :=
  catch (@voteElectorateEvidenceHash plain_platform sample_evidence) [].

Lemma safe_snapshots l : forallb (fun e => @json_safe plain_platform (eligibilitySnapshot e)) l = true ->
  Forall (fun e => @json_safe plain_platform (eligibilitySnapshot e) = true) l.
Proof. intros Hl. apply List.Forall_forall. rewrite forallb_forall in Hl. exact Hl. Qed.

Lemma electorate_evidence_exact_witness :
  same_electorate sample_evidence (rev sample_evidence) \/
  collision (canonical_bytes (evidence_payload sample_evidence))
    (canonical_bytes (evidence_payload (rev sample_evidence))).
Proof.
  assert (forallb (fun e => @json_safe plain_platform (eligibilitySnapshot e)) sample_evidence = true) as H1
    by (vm_compute; reflexivity).
  assert (forallb (fun e => @json_safe plain_platform (eligibilitySnapshot e)) (rev sample_evidence) = true)
    as H2 by (vm_compute; reflexivity).
  assert (@voteElectorateEvidenceHash plain_platform sample_evidence = Ok sample_evidence_hash) as Hl
    by (vm_compute; reflexivity).
  assert (@voteElectorateEvidenceHash plain_platform (rev sample_evidence) = Ok sample_evidence_hash) as Hk
    by (vm_compute; reflexivity).
  exact (proj2 (@electorate_evidence_exact plain_platform plain_rfc8785 sample_evidence
    (rev sample_evidence) sample_evidence_hash (safe_snapshots _ H1) (safe_snapshots _ H2) Hl) Hk).
Defined.
