(* ===== verification/Citations.v ===== *)
(** * Citations
    lib/contracts/src/governance.ts: the citation that reviews, questions and
    answers carry. *)

From stdpp Require Import base numbers sorting strings list.
From Stdlib Require Import Lia.
From S2P Require Import Prelude JsString Encoding JsNumber Json JsonParse JsonCanon Schemas.
From S2P Require Import Signing.

Local Open Scope Z_scope.

Record GovernanceCitation := MkCitation {
  sourceDocumentVersionId : jsstr;
  sourceDocumentSha256 : jsstr;
  clause : jsstr;
  locator : jsstr
}.

Definition citation_ok `{Platform} (c : GovernanceCitation) : bool :=
  is_uuid_v7 (sourceDocumentVersionId c) && is_hex64 (sourceDocumentSha256 c)
  && canonicalString 1 512 (clause c) && canonicalString 1 1024 (locator c).

Definition GovernanceCitationSchema `{Platform} (c : GovernanceCitation) : result GovernanceCitation :=
  parse "GovernanceCitation" citation_ok c.

Definition citation_json (c : GovernanceCitation) : json :=
  JObj [str "sourceDocumentVersionId" (sourceDocumentVersionId c);
        str "sourceDocumentSha256" (sourceDocumentSha256 c);
        str "clause" (clause c); str "locator" (locator c)].

Section citations.
Context `{Platform}.

Lemma citation_plain c : json_plain (citation_json c) = true.
Proof. obj_plain. Qed.

Lemma citation_json_ok d c : Nat.ltb d MAX_JSON_CONTAINER_DEPTH = true -> citation_ok c = true ->
  json_ok d (citation_json c) = true.
Proof. unfold citation_ok, citation_json. intros Hd Hc. boolify. obj_ok. Qed.

Lemma governance_citation_json_inj a b : sort_json (citation_json a) = sort_json (citation_json b) -> a = b.
Proof. intros E. unfold citation_json in E. split_members E. destruct a, b; cbn in *; by subst. Qed.

Lemma citations_json_inj l k :
  sort_json (JArr (map citation_json l)) = sort_json (JArr (map citation_json k)) -> l = k.
Proof. intros E%sort_json_arr. by apply (jstr_list_inj citation_json); [apply governance_citation_json_inj|]. Qed.

Lemma parse_citations l k : mapR GovernanceCitationSchema l = Ok k <->
  k = l /\ Forall (fun c => citation_ok c = true) l.
Proof.
  revert k. induction l as [|c l IH]; intros k; cbn [mapR].
  { split; [by intros [= <-]|by intros [-> _]]. }
  rewrite Forall_cons. split.
  - intros E. inv_ok. match goal with H : mapR _ l = Ok _ |- _ => apply IH in H as [-> Hl] end.
    match goal with H : GovernanceCitationSchema c = Ok _ |- _ => apply parse_ok in H as [-> Hc] end. by subst.
  - intros (-> & Hc & Hl). rewrite (proj2 (IH l)) by done. unfold GovernanceCitationSchema, parse. by rewrite Hc.
Qed.
End citations.
