(* ===== verification/Minutes.v ===== *)
(** * Minutes under review

    lib/domain/src/minutes.ts with the minutes schemas of
    lib/contracts/src/governance.ts: applying a redline to the exact text it
    was made for, deciding whether a review is resolved, and the digests of the
    action manifest. *)

From stdpp Require Import base numbers sorting strings list.
From Stdlib Require Import Lia.
From S2P Require Import Prelude JsString Encoding JsNumber Json JsonParse JsonCanon Schemas.
From S2P Require Import VotingConsent Decode Signing Citations.

Local Open Scope Z_scope.

(** ** Redlines *)

Inductive MinutesAnchor :=
  | SectionAnchor (section : jsstr)
  | LinesAnchor (startLine endLine : Z).

Inductive RedlineOperation := replace | insert_before | insert_after | delete.

#[export] Instance RedlineOperation_eq : EqDecision RedlineOperation.
Proof. solve_decision. Defined.

Record MinutesRedline := MkRedline {
  minutesId : jsstr;
  baseVersion : Z;
  baseSha256 : jsstr;
  anchor : MinutesAnchor;
  anchoredTextSha256 : jsstr;
  operation : RedlineOperation;
  proposedText : jsstr;
  rationale : jsstr;
  citations : list GovernanceCitation
}.

Definition anchor_ok `{Platform} (a : MinutesAnchor) : bool :=
  match a with
  | SectionAnchor section => canonicalString 1 512 section
  | LinesAnchor startLine endLine =>
      is_safe_positive startLine && is_safe_positive endLine && (startLine <=? endLine)
  end.

Definition redline_ok `{Platform} (r : MinutesRedline) : bool :=
  is_uuid_v7 (minutesId r) && is_safe_positive (baseVersion r) && is_hex64 (baseSha256 r)
  && anchor_ok (anchor r) && is_hex64 (anchoredTextSha256 r)
  && canonicalString 0 262144 (proposedText r) && canonicalString 1 65536 (rationale r)
  && (Z.of_nat (length (citations r)) <=? 64) && forallb citation_ok (citations r)
  && (if bool_decide (operation r = delete) then bool_decide (proposedText r = [])
      else negb (js_length (proposedText r) =? 0)).

Definition MinutesRedlineSchema `{Platform} (r : MinutesRedline) : result MinutesRedline :=
  parse "MinutesRedline" redline_ok r.

(** ** Lines *)

Definition LF : Z := 10.

(** [value.endsWith] of a line feed. *)
Definition ends_with_lf (s : jsstr) : bool :=
  match last s with Some c => c =? LF | None => false end.

Definition contentLines (value : jsstr) : list jsstr * bool :=
  let terminalLf := ends_with_lf value in
  let lines := split_on LF value in
  (if terminalLf then removelast lines else lines, terminalLf).

Fixpoint span_hashes (s : jsstr) : nat * jsstr :=
  match s with
  | c :: s' => if c =? 35 then let '(n, r) := span_hashes s' in (S n, r) else (O, s)
  | [] => (O, [])
  end.

(** The characters that a dot of a regular expression does not match. *)
Definition is_line_terminator (c : Z) : bool := (c =? 10) || (c =? 13) || (c =? 8232) || (c =? 8233).

Fixpoint take_while (p : Z -> bool) (s : jsstr) : jsstr :=
  match s with
  | c :: s' => if p c then c :: take_while p s' else []
  | [] => []
  end.

(** The text of a heading after its white space. When only white space
    follows the marks, the greedy white space gives characters back from the
    end until one is not a line terminator; the first must stay. *)
Definition heading_text (r : jsstr) : option jsstr :=
  match r with
  | c :: r' =>
      if is_space c then
        match trimStart r' with
        | [] =>
            match List.find (fun d => negb (is_line_terminator d)) (rev r') with
            | Some d => Some [d]
            | None => None
            end
        | t => Some (take_while (fun d => negb (is_line_terminator d)) t)
        end
      else None
  | [] => None
  end.

(** One to six marks, white space, text: the number of marks and the text. *)
Definition section_heading (line : jsstr) : option (nat * jsstr) :=
  let '(n, r) := span_hashes line in
  if Nat.leb 1 n && Nat.leb n 6 then pair n <$> heading_text r else None.

(** One to six marks and a white space. *)
Definition heading_level (line : jsstr) : option nat :=
  let '(n, r) := span_hashes line in
  if Nat.leb 1 n && Nat.leb n 6 then
    match r with
    | c :: _ => if is_space c then Some n else None
    | [] => None
    end
  else None.

(** The loop that looks for the section: index and level of its heading. *)
Fixpoint find_section (index : nat) (lines : list jsstr) (section : jsstr) : option (nat * nat) :=
  match lines with
  | [] => None
  | line :: lines' =>
      match section_heading line with
      | Some (level, text) =>
          if bool_decide (text = section) then Some (index, level) else find_section (S index) lines' section
      | None => find_section (S index) lines' section
      end
  end.

(** The loop that looks for its end. *)
Fixpoint section_end (index : nat) (lines : list jsstr) (level : nat) : nat :=
  match lines with
  | [] => index
  | line :: lines' =>
      match heading_level line with
      | Some n => if Nat.leb n level then index else section_end (S index) lines' level
      | None => section_end (S index) lines' level
      end
  end.

Definition lineRange (lines : list jsstr) (redline : MinutesRedline) : result (nat * nat) :=
  match anchor redline with
  | LinesAnchor startLine endLine =>
      if Z.of_nat (length lines) <? endLine
      then Throw (JsError "minutes line anchor is outside base" [])
      else Ok (Z.to_nat (startLine - 1), Z.to_nat endLine)
  | SectionAnchor section =>
      match find_section 0 lines section with
      | None => Throw (JsError "minutes section anchor is absent from base" [])
      | Some (start, level) => Ok (start, section_end (S start) (drop (S start) lines) level)
      end
  end.

(** [lines.splice(start, count, ...items)] *)
Definition splice {A} (start count : nat) (items : list A) (l : list A) : list A :=
  take start l ++ items ++ drop (start + count) l.

Section redlines.
Context `{Platform}.

Definition applyExactMinutesRedline (baseText : jsstr) (input : MinutesRedline) : result jsstr :=
  base ← canonicalText baseText;
  redline ← MinutesRedlineSchema input;
  if negb (safeHashEqual (baseSha256 redline) (sha256Hex base))
  then Throw (JsError "minutes redline base hash mismatch" []) else
  let '(lines, terminalLf) := contentLines base in
  '(start, endExclusive) ← lineRange lines redline;
  let anchored := join [LF] (take (endExclusive - start) (drop start lines)) in
  if negb (safeHashEqual (anchoredTextSha256 redline) (sha256Hex anchored))
  then Throw (JsError "minutes redline anchored text hash mismatch" []) else
  text ← canonicalText (proposedText redline);
  let proposed := (contentLines text).1 in
  let lines := match operation redline with
    | replace => splice start (endExclusive - start) proposed lines
    | delete => splice start (endExclusive - start) [] lines
    | insert_before => splice start 0 proposed lines
    | insert_after => splice endExclusive 0 proposed lines
    end in
  canonicalText (join [LF] lines ++ if terminalLf then [LF] else []).
End redlines.

(** ** Lines and their text *)

Lemma split_on_snoc c s : split_on c (s ++ [c]) = split_on c s ++ [[]].
Proof.
  induction s as [|x s IH]; cbn [app split_on]; [by rewrite Z.eqb_refl|]. rewrite IH.
  destruct (split_on_cons c s) as (l & ls & ->). cbn [app]. by destruct (x =? c).
Qed.

Lemma join_snoc (sep : jsstr) l x : l <> [] -> join sep (l ++ [x]) = join sep l ++ sep ++ x.
Proof.
  induction l as [|a l IH]; intros Hl; [done|]. destruct l as [|b l]; [done|].
  change ((a :: b :: l) ++ [x]) with (a :: b :: (l ++ [x])).
  change (join sep (a :: b :: l ++ [x])) with (a ++ sep ++ join sep ((b :: l) ++ [x])).
  change (join sep (a :: b :: l)) with (a ++ sep ++ join sep (b :: l)).
  rewrite IH by done. by rewrite <- !app_assoc.
Qed.

Lemma ends_with_lf_true s : ends_with_lf s = true <-> exists t, s = t ++ [LF].
Proof.
  unfold ends_with_lf. split.
  - destruct (last s) as [c|] eqn:E; [|done]. intros ->%Z.eqb_eq. by apply last_Some in E.
  - intros [t ->]. by rewrite last_snoc.
Qed.

(** The text of a document with the given lines. *)
Definition text_of (lines : list jsstr) (terminalLf : bool) : jsstr :=
  join [LF] lines ++ if terminalLf then [LF] else [].

Lemma contentLines_text s : text_of (contentLines s).1 (contentLines s).2 = s.
Proof.
  unfold text_of, contentLines. destruct (ends_with_lf s) eqn:E; cbn [fst snd].
  - apply ends_with_lf_true in E as [t ->]. rewrite split_on_snoc, removelast_last. by rewrite join_split.
  - by rewrite join_split, app_nil_r.
Qed.

(** The lines of a text: it is their concatenation with line feeds between
    them, closed by one more exactly when the text ends with a line feed. *)
Record document_lines (text : jsstr) (lines : list jsstr) (closed : bool) : Prop := {
  dl_text : text = text_of lines closed;
  dl_lines : lines <> [] /\ Forall (fun line => LF ∉ line) lines;
  dl_closed : closed = true <-> exists t, text = t ++ [LF]
}.

Lemma split_on_pieces c s : Forall (fun piece => c ∉ piece) (split_on c s).
Proof.
  induction s as [|x s IH]; cbn [split_on]; [constructor; [apply not_elem_of_nil|done]|].
  destruct (split_on_cons c s) as (l & ls & E). rewrite E in *.
  destruct (Z.eqb_spec x c) as [->|Hx]; [constructor; [apply not_elem_of_nil|done]|].
  apply Forall_cons in IH as [Hl Hls]. constructor; [|done]. rewrite not_elem_of_cons. by split.
Qed.

Lemma contentLines_lines s : document_lines s (contentLines s).1 (contentLines s).2.
Proof.
  pose proof (split_on_pieces LF s) as Hp. split; [by rewrite contentLines_text| |].
  - unfold contentLines. destruct (ends_with_lf s) eqn:E; cbn [fst].
    + apply ends_with_lf_true in E as [t ->]. rewrite split_on_snoc in Hp |- *. rewrite removelast_last.
      destruct (split_on_cons LF t) as (l & ls & Et). split; [by rewrite Et|]. by apply Forall_app in Hp as [? _].
    + destruct (split_on_cons LF s) as (l & ls & ->) in Hp |- *. done.
  - apply ends_with_lf_true.
Qed.

(** ** Where a redline is anchored *)

(** The line is a heading that closes a section of the given level. *)
Definition closes (level : nat) (line : jsstr) : bool :=
  match heading_level line with Some n => Nat.leb n level | None => false end.

Definition heads (section : jsstr) (line : jsstr) : bool :=
  match section_heading line with Some (_, text) => bool_decide (text = section) | None => false end.

Definition anchored_at (a : MinutesAnchor) (pre anchored post : list jsstr) : Prop :=
  match a with
  | LinesAnchor startLine endLine =>
      Z.of_nat (length pre) = startLine - 1 /\ Z.of_nat (length anchored) = endLine - startLine + 1
  | SectionAnchor section =>
      exists heading rest level, anchored = heading :: rest /\
        section_heading heading = Some (level, section) /\
        forallb (fun line => negb (heads section line)) pre = true /\
        forallb (fun line => negb (closes level line)) rest = true /\
        match post with [] => True | line :: _ => closes level line = true end
  end.

Lemma find_section_some lines section : forall index start level,
  find_section index lines section = Some (start, level) ->
  exists pre heading post, lines = pre ++ heading :: post /\ start = (index + length pre)%nat /\
    section_heading heading = Some (level, section) /\
    forallb (fun line => negb (heads section line)) pre = true.
Proof.
  induction lines as [|line lines IH]; intros index start level E; [done|]. cbn [find_section] in E.
  destruct (section_heading line) as [[n text]|] eqn:Eh; [case_bool_decide as Et|].
  - injection E as <- <-. subst text. exists [], line, lines. split_and!; try done; cbn; lia.
  - apply IH in E as (pre & heading & post & -> & -> & Hh & Hp). exists (line :: pre), heading, post.
    split_and!; try done; try (cbn; lia). cbn [forallb]. unfold heads at 1. rewrite Eh.
    by rewrite bool_decide_eq_false_2.
  - apply IH in E as (pre & heading & post & -> & -> & Hh & Hp). exists (line :: pre), heading, post.
    split_and!; try done; try (cbn; lia). cbn [forallb]. unfold heads at 1. by rewrite Eh.
Qed.

Lemma section_end_spec lines level : forall index,
  exists rest post, lines = rest ++ post /\ section_end index lines level = (index + length rest)%nat /\
    forallb (fun line => negb (closes level line)) rest = true /\
    match post with [] => True | line :: _ => closes level line = true end.
Proof.
  induction lines as [|line lines IH]; intros index; cbn [section_end].
  { exists [], []. split_and!; try done; cbn; lia. }
  destruct (closes level line) eqn:Ec; unfold closes in Ec.
  - exists [], (line :: lines). destruct (heading_level line) as [n|] eqn:En; [|done]. rewrite Ec.
    split_and!; try done; try (cbn; lia). unfold closes. by rewrite En.
  - destruct (IH (S index)) as (rest & post & -> & He & Hr & Hp). exists (line :: rest), post.
    split_and!; try done.
    + destruct (heading_level line) as [n|]; [rewrite Ec|]; rewrite He; cbn; lia.
    + cbn [forallb]. unfold closes at 1. destruct (heading_level line) as [n|]; [by rewrite Ec|done].
Qed.

Lemma lineRange_ok `{Platform} lines r start endExclusive : redline_ok r = true ->
  lineRange lines r = Ok (start, endExclusive) ->
  exists pre anchored post, lines = pre ++ anchored ++ post /\ anchored <> [] /\
    start = length pre /\ endExclusive = (length pre + length anchored)%nat /\
    anchored_at (anchor r) pre anchored post.
Proof.
  unfold redline_ok, lineRange. intros Hr E. boolify.
  destruct (anchor r) as [section|a b]; cbn [anchor_ok anchored_at] in *.
  - destruct (find_section 0 lines section) as [[st level]|] eqn:Ef; [|done]. injection E as <- <-.
    apply find_section_some in Ef as (pre & heading & post & -> & -> & Hh & Hp). cbn [Nat.add].
    assert (drop (S (length pre)) (pre ++ heading :: post) = post) as ->
      by (by rewrite <- Nat.add_1_r, drop_app_add).
    destruct (section_end_spec post level (S (length pre))) as (rest & post' & -> & He & Hr & Hc).
    exists pre, (heading :: rest), post'. split_and!; try done; try (rewrite He; cbn; lia).
    by exists heading, rest, level.
  - boolify. destruct (_ <? b) eqn:El; [done|]. injection E as <- <-. boolify.
    unfold is_safe_positive in *.
    repeat match goal with H : in_range _ _ _ = true |- _ => apply in_range_spec in H end.
    exists (take (Z.to_nat (a - 1)) lines),
      (take (Z.to_nat b - Z.to_nat (a - 1)) (drop (Z.to_nat (a - 1)) lines)), (drop (Z.to_nat b) lines).
    assert (length (take (Z.to_nat (a - 1)) lines) = Z.to_nat (a - 1)) as L1 by (rewrite length_take; lia).
    assert (length (take (Z.to_nat b - Z.to_nat (a - 1)) (drop (Z.to_nat (a - 1)) lines))
      = (Z.to_nat b - Z.to_nat (a - 1))%nat) as L2 by (rewrite length_take, length_drop; lia).
    split_and!; try lia.
    + replace (drop (Z.to_nat b) lines)
        with (drop (Z.to_nat b - Z.to_nat (a - 1)) (drop (Z.to_nat (a - 1)) lines))
        by (rewrite drop_drop; f_equal; lia).
      by rewrite !take_drop.
    + intros E0. rewrite E0 in L2. cbn in L2. lia.
Qed.

(** ** Applying a redline *)

Definition edited (r : MinutesRedline) (proposed anchored : list jsstr) : list jsstr :=
  match operation r with
  | replace => proposed
  | delete => []
  | insert_before => proposed ++ anchored
  | insert_after => anchored ++ proposed
  end.

Lemma splice_middle {A} (pre mid post items : list A) :
  splice (length pre) (length mid) items (pre ++ mid ++ post) = pre ++ items ++ post.
Proof.
  unfold splice. rewrite take_app_length. do 2 f_equal.
  by rewrite app_assoc, <- length_app, drop_app_length.
Qed.

Lemma splice_at {A} (pre post items : list A) :
  splice (length pre) 0 items (pre ++ post) = pre ++ items ++ post.
Proof. unfold splice. by rewrite take_app_length, Nat.add_0_r, drop_app_length. Qed.

Section properties.
Context `{Platform}.

Lemma redline_text_id r : redline_ok r = true -> canonicalText (proposedText r) = Ok (proposedText r).
Proof.
  unfold redline_ok, canonicalString. intros Hr. boolify.
  match goal with H : is_ok (canonicalText (proposedText r)) = true |- _ =>
    apply is_ok_true in H as [t Ht] end.
  rewrite Ht. by apply canonicalText_ok in Ht as (-> & _).
Qed.

(** The edit a redline makes. *)
Record redlined (base : jsstr) (r : MinutesRedline) (out : jsstr) (pre anchored post proposed : list jsstr)
    (closed : bool) : Prop := {
  rl_base : sha256Hex base = baseSha256 r;
  rl_lines : document_lines base (pre ++ anchored ++ post) closed;
  rl_nonempty : anchored <> [];
  rl_text : sha256Hex (join [LF] anchored) = anchoredTextSha256 r;
  rl_anchor : anchored_at (anchor r) pre anchored post;
  rl_proposed : exists closed', document_lines (proposedText r) proposed closed';
  rl_out : out = text_of (pre ++ edited r proposed anchored ++ post) closed
}.

Lemma apply_redlined base r out : applyExactMinutesRedline base r = Ok out ->
  canonicalText base = Ok base /\ redline_ok r = true /\
  exists pre anchored post proposed closed, redlined base r out pre anchored post proposed closed.
Proof.
  unfold applyExactMinutesRedline, MinutesRedlineSchema. intros E. apply bind_ok in E as (t & Et & E).
  pose proof (canonicalText_id _ _ Et) as ->. apply bind_ok in E as (r' & [-> Hr]%parse_ok & E).
  destruct (negb _) eqn:Hb in E; [done|]. apply negb_false_iff, safeHashEqual_true in Hb as [_ Hb].
  destruct (contentLines base) as [lines lf] eqn:Ec.
  apply bind_ok in E as ([start fin] & Er & E).
  destruct (lineRange_ok _ _ _ _ Hr Er) as (pre & anchored & post & -> & Hne & -> & -> & Ha).
  replace (length pre + length anchored - length pre)%nat with (length anchored) in E by lia.
  rewrite drop_app_length, take_app_length in E.
  destruct (negb _) eqn:Hx in E; [done|]. apply negb_false_iff, safeHashEqual_true in Hx as [_ Hx].
  rewrite (redline_text_id r Hr) in E. cbn [mbind result_bind] in E. apply canonicalText_id in E.
  split_and!; [done..|]. exists pre, anchored, post, (contentLines (proposedText r)).1, lf.
  split; try done; [pose proof (contentLines_lines base) as Hl; by rewrite Ec in Hl
    |eexists; apply contentLines_lines|].
  rewrite E. unfold text_of, edited. do 2 f_equal. destruct (operation r).
  - by rewrite splice_middle.
  - by rewrite splice_at, <- app_assoc.
  - rewrite <- length_app, app_assoc, splice_at. by rewrite <- !app_assoc.
  - by rewrite splice_middle.
Qed.

(** C34. A redline changes exactly the text it was made for. When it applies,
    the base has the recorded digest and its lines are cut, at the lines or at
    the section that the anchor names, into what precedes, a nonempty anchored
    part with the recorded digest, and what follows; and the result is the
    preceding lines, the edited part and the following lines, joined by line
    feeds, with one more after the last line when the base ends with one. The
    edited part is the lines of the proposed text in place of the anchored
    ones, before or after them, or nothing. No redline applies to two bases,
    unless they are an explicit SHA-256 collision. *)
Theorem redline_exact base r out : applyExactMinutesRedline base r = Ok out ->
  (exists pre anchored post proposed closed, redlined base r out pre anchored post proposed closed) /\
  forall base' out', applyExactMinutesRedline base' r = Ok out' ->
    base' = base \/ collision (utf8_encode base') (utf8_encode base).
Proof.
  intros (Tb & _ & Hr)%apply_redlined. split; [done|].
  intros base' out' (Tb' & _ & pre' & an' & post' & prop' & cl' & Hr')%apply_redlined.
  destruct Hr as (pre & an & post & prop & cl & Hr). apply sha256Hex_eq.
  - apply canonicalText_ok in Tb' as (_ & _ & _ & Hu). by apply unicode_ok_well_formed.
  - apply canonicalText_ok in Tb as (_ & _ & _ & Hu). by apply unicode_ok_well_formed.
  - by rewrite (rl_base _ _ _ _ _ _ _ _ Hr), (rl_base _ _ _ _ _ _ _ _ Hr').
Qed.
End properties.

(** ** Resolving a review *)

Inductive ReviewKind := comment | redline.

Record MinutesReviewItemRef := MkReviewItem { itemId : jsstr; kind : ReviewKind }.

Definition review_item (itemMap : list (jsstr * MinutesReviewItemRef)) (item : MinutesReviewItemRef)
    : result (list (jsstr * MinutesReviewItemRef)) :=
  if map_has itemMap (itemId item) then Throw (JsError "duplicate minutes review item" [itemId item])
  else Ok (map_set itemMap (itemId item) item).

Definition review_withdrawal (itemMap : list (jsstr * MinutesReviewItemRef)) (withdrawn : list jsstr)
    (withdrawal : jsstr) : result (list jsstr) :=
  match map_get itemMap withdrawal with
  | None => Throw (JsError "withdrawal references unknown item" [withdrawal])
  | Some item =>
      match kind item with
      | redline => Throw (JsError "redlines cannot be withdrawn" [])
      | comment =>
          if set_has withdrawn (itemId item) then Throw (JsError "duplicate withdrawal" [itemId item])
          else Ok (set_add withdrawn (itemId item))
      end
  end.

Definition review_disposition (itemMap : list (jsstr * MinutesReviewItemRef)) (withdrawn : list jsstr)
    (dispositioned : list jsstr) (disposition : jsstr) : result (list jsstr) :=
  if negb (map_has itemMap disposition)
  then Throw (JsError "disposition references unknown item" [disposition]) else
  if set_has dispositioned disposition then Throw (JsError "duplicate disposition" [disposition]) else
  if set_has withdrawn disposition then Throw (JsError "withdrawn item also dispositioned" [disposition])
  else Ok (set_add dispositioned disposition).

Definition reviewIsResolved (items : list MinutesReviewItemRef) (withdrawals dispositions : list jsstr)
    : result bool :=
  itemMap ← forM review_item [] items;
  withdrawn ← forM (review_withdrawal itemMap) [] withdrawals;
  dispositioned ← forM (review_disposition itemMap withdrawn) [] dispositions;
  Ok (forallb (fun item => set_has withdrawn (itemId item) || set_has dispositioned (itemId item)) items).

(** A consistent review: distinct items, withdrawals of distinct comments,
    dispositions of distinct items that are not withdrawn. *)
Record consistent (items : list MinutesReviewItemRef) (withdrawals dispositions : list jsstr) : Prop := {
  cs_items : NoDup (map itemId items);
  cs_withdrawals : NoDup withdrawals;
  cs_comments : forall w, w ∈ withdrawals -> exists item, item ∈ items /\ itemId item = w /\ kind item = comment;
  cs_dispositions : NoDup dispositions;
  cs_known : forall d, d ∈ dispositions -> d ∈ map itemId items;
  cs_apart : forall d, d ∈ dispositions -> d ∉ withdrawals
}.

Definition item_entry (item : MinutesReviewItemRef) : jsstr * MinutesReviewItemRef := (itemId item, item).

(** A loop that appends one entry per item and refuses a repeated key. *)
Lemma forM_append {A B} (body : list B -> A -> result (list B)) (f : A -> B) (key : B -> jsstr)
    (ok : A -> Prop) l :
  (forall s x s', body s x = Ok s' <-> ok x /\ key (f x) ∉ map key s /\ s' = s ++ [f x]) ->
  forall s s', NoDup (map key s) ->
  (forM body s l = Ok s' <-> s' = s ++ map f l /\ NoDup (map key (s ++ map f l)) /\ Forall ok l).
Proof.
  intros Hbody. induction l as [|x l IH]; intros s s' Hd; cbn [forM map].
  { rewrite app_nil_r. split; [intros [= <-]; split_and!; try done; constructor|by intros (-> & _)]. }
  rewrite bind_ok, Forall_cons. assert ((s ++ [f x]) ++ map f l = s ++ f x :: map f l) as Ea
    by by rewrite <- app_assoc. split.
  - intros (s1 & (Hx & Hk & ->)%Hbody & E). apply IH in E as (-> & Hn & Hl); [|].
    + rewrite Ea in *. done.
    + rewrite map_app. apply NoDup_app. split_and!; [done| |apply NoDup_singleton].
      intros k Hin ->%list_elem_of_singleton. done.
  - intros (-> & Hn & Hx & Hl). exists (s ++ [f x]). rewrite <- Ea in Hn.
    assert (NoDup (map key (s ++ [f x]))) as Hs.
    { rewrite map_app in Hn. by apply NoDup_app in Hn as (? & _). }
    split; [|by apply IH; rewrite Ea in *]. apply Hbody. split_and!; try done.
    rewrite map_app in Hs. apply NoDup_app in Hs as (_ & Hs & _). intros Hin. destruct (Hs _ Hin). by left.
Qed.

Lemma items_loop items m : forM review_item [] items = Ok m <->
  m = map item_entry items /\ NoDup (map itemId items).
Proof.
  rewrite (forM_append review_item item_entry fst (fun _ => True)).
  - rewrite app_nil_l, map_map. change (map (fun x => (item_entry x).1) items) with (map itemId items).
    split; [by intros (? & ? & _)|]. intros []. split_and!; try done. by apply Forall_true.
  - intros s x s'. unfold review_item. destruct (map_has s (itemId x)) eqn:Hh.
    + apply map_has_true in Hh. split; [done|by intros (_ & ? & _)].
    + apply map_has_false in Hh. rewrite map_set_fresh by done. apply map_get_none in Hh.
      split; [by intros [= <-]|by intros (_ & _ & ->)].
  - apply NoDup_nil_2.
Qed.

Lemma get_item items w : NoDup (map itemId items) ->
  forall item, map_get (map item_entry items) w = Some item <-> item ∈ items /\ itemId item = w.
Proof.
  intros Hd item. split.
  - intros Hg%map_get_in. by apply list_elem_of_fmap in Hg as (i & [= -> ->] & Hi).
  - intros [Hi <-]. apply map_get_nodup.
    + replace (map item_entry items).*1 with (map itemId items); [done|].
      clear. induction items; cbn; congruence.
    + by apply (list_elem_of_fmap_2 item_entry).
Qed.

Lemma withdrawals_loop items ws s : NoDup (map itemId items) ->
  forM (review_withdrawal (map item_entry items)) [] ws = Ok s <->
  s = ws /\ NoDup ws /\ forall w, w ∈ ws -> exists item, item ∈ items /\ itemId item = w /\ kind item = comment.
Proof.
  intros Hd. rewrite (forM_append _ (fun w => w) (fun w => w)
    (fun w => exists item, item ∈ items /\ itemId item = w /\ kind item = comment)).
  - rewrite app_nil_l, !map_id, Forall_forall. done.
  - intros t w t'. rewrite map_id. unfold review_withdrawal.
    destruct (map_get _ w) as [item|] eqn:Hg.
    + apply get_item in Hg as [Hi Hw]; [|done]. split.
      * destruct (kind item) eqn:Hk; [|done]. rewrite Hw. unfold set_has, set_add, set_has.
        case_bool_decide; [done|]. intros [= <-]. split_and!; try done. by exists item.
      * intros ((i & Hi' & Hw' & Hk) & Hn & ->).
        pose proof (proj2 (get_item items w Hd i) (conj Hi' Hw')).
        pose proof (proj2 (get_item items w Hd item) (conj Hi Hw)). replace item with i by congruence.
        rewrite Hk, Hw'. unfold set_has, set_add, set_has. by rewrite !bool_decide_eq_false_2.
    + split; [done|]. intros ((i & Hi & Hw & _) & _).
      pose proof (proj2 (get_item items w Hd i) (conj Hi Hw)). congruence.
  - apply NoDup_nil_2.
Qed.

Lemma dispositions_loop items ws ds s :
  forM (review_disposition (map item_entry items) ws) [] ds = Ok s <->
  s = ds /\ NoDup ds /\ forall d, d ∈ ds -> d ∈ map itemId items /\ d ∉ ws.
Proof.
  rewrite (forM_append _ (fun d => d) (fun d => d) (fun d => d ∈ map itemId items /\ d ∉ ws)).
  - rewrite app_nil_l, !map_id, Forall_forall. done.
  - intros t d t'. rewrite map_id. unfold review_disposition.
    assert (map_has (map item_entry items) d = true <-> d ∈ map itemId items) as Hk.
    { rewrite map_has_true. replace (map item_entry items).*1 with (map itemId items); [done|].
      clear. induction items; cbn; congruence. }
    destruct (map_has _ d) eqn:Hh; cbn [negb].
    + unfold set_has, set_add, set_has. repeat case_bool_decide; try (split; [done|tauto]).
      split; [intros [= <-]; tauto|by intros (_ & _ & ->)].
    + split; [done|]. intros ((Hin & _) & _). apply Hk in Hin. congruence.
  - apply NoDup_nil_2.
Qed.

Lemma reviewIsResolved_ok items ws ds b : reviewIsResolved items ws ds = Ok b <->
  consistent items ws ds /\
  b = forallb (fun item => set_has ws (itemId item) || set_has ds (itemId item)) items.
Proof.
  unfold reviewIsResolved. rewrite bind_ok. setoid_rewrite items_loop. split.
  - intros (m & (-> & Hi) & E). apply bind_ok in E as (w & Hw & E). apply withdrawals_loop in Hw as (-> & Hnw & Hw); [|done].
    apply bind_ok in E as (d & (-> & Hnd & Hd)%dispositions_loop & [= <-]).
    split; [|done]. split; try done; intros x Hx; by apply Hd.
  - intros ([Hi Hnw Hw Hnd Hk Ha] & ->). eexists. split; [done|].
    rewrite (proj2 (withdrawals_loop items ws ws Hi)) by done. cbn [mbind result_bind].
    rewrite (proj2 (dispositions_loop items ws ds ds)); [done|]. split_and!; try done. intros d Hd. split; auto.
Qed.

(** A review is decided exactly when it is consistent, and then it is
    resolved exactly when every item is settled. In a resolved review each
    redline has been dispositioned, and each comment has been either withdrawn
    or dispositioned, never both. *)
Theorem review_settled items ws ds :
  (is_ok (reviewIsResolved items ws ds) = true <-> consistent items ws ds) /\
  (reviewIsResolved items ws ds = Ok true -> forall item, item ∈ items ->
     match kind item with
     | redline => itemId item ∈ ds /\ itemId item ∉ ws
     | comment => (itemId item ∈ ws /\ itemId item ∉ ds) \/ (itemId item ∈ ds /\ itemId item ∉ ws)
     end).
Proof.
  split.
  - rewrite is_ok_true. setoid_rewrite reviewIsResolved_ok. split; [by intros (? & ? & _)|].
    intros Hc. by eexists.
  - intros [[Hi Hnw Hw Hnd Hk Ha] Hall]%reviewIsResolved_ok item Hin. symmetry in Hall.
    rewrite forallb_forall in Hall. specialize (Hall item ltac:(by apply list_elem_of_In)).
    unfold set_has in Hall. rewrite orb_true_iff, !bool_decide_eq_true in Hall.
    destruct (kind item) eqn:Ek; [specialize (Ha (itemId item)); tauto|].
    assert (itemId item ∉ ws) as Hn; [|tauto]. intros (i & Hi' & Ei & Ci)%Hw.
    pose proof (proj2 (get_item items (itemId item) Hi i) (conj Hi' Ei)).
    pose proof (proj2 (get_item items (itemId item) Hi item) (conj Hin eq_refl)). congruence.
Qed.

(** ** A concrete redline *)

Definition sample_base : jsstr := js "# Minutes" ++ [LF] ++ js "## Votes" ++ [LF] ++ js "old text" ++ [LF]
  ++ js "## Actions" ++ [LF] ++ js "none" ++ [LF].

Definition sample_redline : MinutesRedline :=
  MkRedline sample_id 1 (sha256Hex sample_base) (SectionAnchor (js "Votes"))
    (sha256Hex (js "## Votes" ++ [LF] ++ js "old text")) replace
    (js "## Votes" ++ [LF] ++ js "new text" ++ [LF]) (js "correction") [].

Definition sample_result : jsstr := js "# Minutes" ++ [LF] ++ js "## Votes" ++ [LF] ++ js "new text" ++ [LF]
  ++ js "## Actions" ++ [LF] ++ js "none" ++ [LF].

Lemma redline_exact_witness :
  @applyExactMinutesRedline plain_platform sample_base sample_redline = Ok sample_result /\
  exists pre anchored post proposed closed,
    redlined sample_base sample_redline sample_result pre anchored post proposed closed.
Proof.
  assert (@applyExactMinutesRedline plain_platform sample_base sample_redline = Ok sample_result) as E
    by (vm_compute; reflexivity).
  split; [exact E|]. exact (proj1 (@redline_exact plain_platform _ _ _ E)).
Defined.

Example sample_levels :
  map section_heading [js "###  Deep "; js "####### seven"; js "#"; js "#  "; js "no heading"]
  = [Some (3%nat, js "Deep "); None; None; Some (1%nat, js " "); None].
Proof. vm_compute. reflexivity. Qed.
