(* ===== verification/Document.v ===== *)
(** * Document contributions

    lib/domain/src/document.ts, with the document formats of
    lib/contracts/src/content.ts and document-schemas.ts: which bytes become a
    canonical document, and what is recorded about them. *)

From stdpp Require Import base numbers sorting strings list.
From Stdlib Require Import Lia.
From S2P Require Import Prelude JsString Encoding JsNumber Json JsonParse JsonCanon Schemas.
From S2P Require Import VotingConsent Decode Signing Citations Minutes.

Local Open Scope Z_scope.

Definition MAX_DOCUMENT_BYTES : Z := 10 * 1024 * 1024.

(** ** Media types *)

Inductive CanonicalMediaType := markdown | plain_text | json_text.

#[export] Instance CanonicalMediaType_eq : EqDecision CanonicalMediaType.
Proof. solve_decision. Defined.

Definition media_text (m : CanonicalMediaType) : jsstr :=
  match m with
  | markdown => js "text/markdown; charset=utf-8"
  | plain_text => js "text/plain; charset=utf-8"
  | json_text => js "application/json"
  end.

Definition CanonicalMediaTypeSchema (s : jsstr) : option CanonicalMediaType :=
  List.find (fun m => bool_decide (s = media_text m)) [markdown; plain_text; json_text].

(** ** Document formats *)

Definition dText (minimum maximum : Z) : json -> option jsstr :=
  dString (fun s => in_range minimum maximum (js_length s)).

Definition section_of_json (v : json) : option (jsstr * jsstr) :=
  l ← members v;
  if negb (strict ["heading"; "body"] l) then None else
  heading ← required l "heading" (dText 1 512);
  body ← required l "body" (dText 1 10485760);
  Some (heading, body).

Definition BoardPackDocumentSchema (v : json) : option (jsstr * list (jsstr * jsstr)) :=
  l ← members v;
  if negb (strict ["schemaVersion"; "title"; "sections"] l) then None else
  _ ← required l "schemaVersion" (dLiteral "boardagent.board-pack.v1");
  title ← required l "title" (dText 1 512);
  sections ← required l "sections" (dArray section_of_json);
  if in_range 1 1000 (Z.of_nat (length sections)) then Some (title, sections) else None.

Section formats.
Context `{Platform}.

Definition dCanonical (minimum maximum : Z) : json -> option jsstr := dString (canonicalString minimum maximum).

Definition citation_of_json (v : json) : option GovernanceCitation :=
  l ← members v;
  if negb (strict ["sourceDocumentVersionId"; "sourceDocumentSha256"; "clause"; "locator"] l) then None else
  sourceDocumentVersionId ← required l "sourceDocumentVersionId" (dString is_uuid_v7);
  sourceDocumentSha256 ← required l "sourceDocumentSha256" (dString is_hex64);
  clause ← required l "clause" (dCanonical 1 512);
  locator ← required l "locator" (dCanonical 1 1024);
  Some (MkCitation sourceDocumentVersionId sourceDocumentSha256 clause locator).

Definition dCitations (v : json) : option (list GovernanceCitation) :=
  l ← dArray citation_of_json v; if Z.of_nat (length l) <=? 64 then Some l else None.

Record MinutesComment := MkComment {
  mc_minutesId : jsstr;
  mc_baseVersion : Z;
  mc_baseSha256 : jsstr;
  mc_comment : jsstr;
  mc_citations : list GovernanceCitation
}.

Definition MinutesCommentSchema (v : json) : option MinutesComment :=
  l ← members v;
  if negb (strict ["schemaVersion"; "minutesId"; "baseVersion"; "baseSha256"; "comment"; "citations"] l)
  then None else
  _ ← required l "schemaVersion" (dLiteral "boardagent.minutes-comment.v1");
  minutesId ← required l "minutesId" (dString is_uuid_v7);
  baseVersion ← required l "baseVersion" (dInt is_safe_positive);
  baseSha256 ← required l "baseSha256" (dString is_hex64);
  comment ← required l "comment" (dCanonical 1 262144);
  citations ← required l "citations" dCitations;
  Some (MkComment minutesId baseVersion baseSha256 comment citations).

Definition anchor_of_json (v : json) : option MinutesAnchor :=
  l ← members v;
  kind ← required l "kind" dAny;
  if bool_decide (kind = js "section") then
    if negb (strict ["kind"; "section"] l) then None else
    section ← required l "section" (dCanonical 1 512);
    Some (SectionAnchor section)
  else if bool_decide (kind = js "lines") then
    if negb (strict ["kind"; "startLine"; "endLine"] l) then None else
    startLine ← required l "startLine" (dInt is_safe_positive);
    endLine ← required l "endLine" (dInt is_safe_positive);
    if startLine <=? endLine then Some (LinesAnchor startLine endLine) else None
  else None.

(** The redline that a JSON value stands for, with the schema of Minutes. *)
Definition redline_of_json (v : json) : option MinutesRedline :=
  l ← members v;
  if negb (strict ["schemaVersion"; "minutesId"; "baseVersion"; "baseSha256"; "anchor"; "anchoredTextSha256";
                   "operation"; "proposedText"; "rationale"; "citations"] l)
  then None else
  _ ← required l "schemaVersion" (dLiteral "boardagent.minutes-redline.v1");
  minutesId ← required l "minutesId" dAny;
  baseVersion ← required l "baseVersion" (dInt (fun _ => true));
  baseSha256 ← required l "baseSha256" dAny;
  anchor ← required l "anchor" anchor_of_json;
  anchoredTextSha256 ← required l "anchoredTextSha256" dAny;
  operation ← required l "operation" (dEnum [("replace"%string, replace); ("insert_before"%string, insert_before);
                                             ("insert_after"%string, insert_after); ("delete"%string, delete)]);
  proposedText ← required l "proposedText" dAny;
  rationale ← required l "rationale" dAny;
  citations ← required l "citations" dCitations;
  let r := MkRedline minutesId baseVersion baseSha256 anchor anchoredTextSha256 operation proposedText
             rationale citations in
  if redline_ok r then Some r else None.

Definition SUPPORTED_JSON_DOCUMENT_SCHEMAS : list jsstr :=
  [js "boardagent.board-pack.v1"; js "boardagent.minutes-comment.v1"; js "boardagent.minutes-redline.v1"].

(** The validators by name, as the verdict of [safeParse]. *)
Definition documentBodySchema (name : jsstr) : option (json -> bool) :=
  if bool_decide (name = js "boardagent.board-pack.v1") then Some (fun v => is_some (BoardPackDocumentSchema v))
  else if bool_decide (name = js "boardagent.minutes-comment.v1") then Some (fun v => is_some (MinutesCommentSchema v))
  else if bool_decide (name = js "boardagent.minutes-redline.v1") then Some (fun v => is_some (redline_of_json v))
  else None.
End formats.

(** [/^boardagent\.[a-z0-9_.-]+\.v[0-9]+$/u]: the digits at the end, after a
    point and a v, and what is left between. *)
Definition document_schema_name (s : jsstr) : bool :=
  match strip_prefix (js "boardagent.") s with
  | None => false
  | Some t =>
      let '(digits, r) := span_digits (rev t) in
      match r with
      | v :: dot :: name =>
          negb (Nat.eqb (length digits) 0) && (v =? 118) && (dot =? 46) && negb (Nat.eqb (length name) 0)
          && forallb (fun c => is_lower c || is_digit c || (c =? 95) || (c =? 46) || (c =? 45)) name
      | _ => false
      end
  end.

(** ** Preparation *)

Record DocumentContributionInput := MkInput {
  in_organizationId : jsstr;
  in_boardId : jsstr;
  in_documentId : jsstr;
  in_title : jsstr;
  in_mediaType : jsstr;
  in_documentSchema : option jsstr;
  in_body : list Z
}.

Record PreparedDocumentContribution := MkPrepared {
  pd_organizationId : jsstr;
  pd_boardId : jsstr;
  pd_documentId : jsstr;
  pd_title : jsstr;
  pd_mediaType : CanonicalMediaType;
  pd_documentSchema : option jsstr;
  canonicalBytes : list Z;
  pd_canonicalText : jsstr;
  offeredByteLength : Z;
  offeredSha256 : jsstr;
  pd_byteLength : Z;
  pd_sha256 : jsstr;
  pd_requestSha256 : jsstr
}.

(** [DocumentCanonicalMetadata] *)
Definition metadata_json (organizationId boardId documentId title : jsstr) (media : CanonicalMediaType)
    (documentSchema : option jsstr) (byteLength : Z) (sha256 : jsstr) : json :=
  JObj [str "schemaVersion" (js "boardagent.document-metadata.v1"); str "organizationId" organizationId;
        str "boardId" boardId; str "documentId" documentId; str "title" title;
        str "mediaType" (media_text media); nullable "documentSchema" documentSchema;
        str "canonicalizationVersion" (js "RFC8785+NFC-LF-v1"); int_member "byteLength" byteLength;
        str "sha256" sha256].
Definition canonicalMetadata (p : PreparedDocumentContribution) : json :=
  metadata_json (pd_organizationId p) (pd_boardId p) (pd_documentId p) (pd_title p) (pd_mediaType p)
    (pd_documentSchema p) (pd_byteLength p) (pd_sha256 p).

Section prepare.
Context `{Platform} `{!NodeText}.

Definition validateSchema (media : CanonicalMediaType) (documentSchema : option jsstr) : result (option jsstr) :=
  match media, documentSchema with
  | json_text, None => Throw (DocumentValidationError "document_schema_required")
  | json_text, Some name =>
      if negb (document_schema_name name) then Throw (DocumentValidationError "document_schema_invalid") else
      if negb (is_some (documentBodySchema name)) then Throw (DocumentValidationError "document_schema_invalid")
      else Ok (Some name)
  | _, Some _ => Throw (DocumentValidationError "document_schema_forbidden")
  | _, None => Ok None
  end.

(** The [try] around the canonicalization. *)
Definition canonical_body (media : CanonicalMediaType) (body : list Z) : result jsstr :=
  match (if bool_decide (media = json_text) then canonicalJsonFromBytes body else canonicalTextBytes body) with
  | Throw (CanonicalizationError _ _) => Throw (DocumentValidationError "invalid_canonical_content")
  | r => r
  end.

Definition check_body (documentSchema : option jsstr) (body : jsstr) : result unit :=
  match documentSchema with
  | None => Ok tt
  | Some name =>
      match documentBodySchema name with
      | None => Throw (DocumentValidationError "document_schema_invalid")
      | Some validator =>
          match JSON_parse body with
          | None => Throw (JsError "SyntaxError" [])
          | Some v => throw_if (negb (validator v)) (DocumentValidationError "document_schema_invalid")
          end
      end
  end.

(** [CanonicalDocumentSchema], of what [prepareDocumentContribution] passes. *)
Definition CanonicalDocumentSchema (documentId title : jsstr) (byteLength : Z) (sha256 body : jsstr) : bool :=
  is_uuid_v7 documentId && in_range 1 512 (js_length title) && in_range 0 10485760 byteLength
  && is_hex64 sha256 && (js_length body <=? 10485760).

Definition prepareDocumentContribution (input : DocumentContributionInput) : result PreparedDocumentContribution :=
  media ← match CanonicalMediaTypeSchema (in_mediaType input) with
          | Some m => Ok m
          | None => Throw (DocumentValidationError "machine_readable_material_required")
          end;
  let offered := Z.of_nat (length (in_body input)) in
  throw_if (offered =? 0) (DocumentValidationError "document_empty") ≫= fun _ =>
  throw_if (MAX_DOCUMENT_BYTES <? offered) (DocumentValidationError "document_too_large") ≫= fun _ =>
  organizationId ← UuidV7Schema (in_organizationId input);
  boardId ← UuidV7Schema (in_boardId input);
  documentId ← UuidV7Schema (in_documentId input);
  title ← canonicalText (in_title input);
  documentSchema ← validateSchema media (in_documentSchema input);
  body ← canonical_body media (in_body input);
  check_body documentSchema body ≫= fun _ =>
  let bytes := utf8_encode body in
  let byteLength := Z.of_nat (length bytes) in
  throw_if ((byteLength =? 0) || (MAX_DOCUMENT_BYTES <? byteLength))
    (DocumentValidationError (if byteLength =? 0 then "document_empty" else "document_too_large")) ≫= fun _ =>
  let sha256 := sha256HexBytes bytes in
  throw_if (negb (CanonicalDocumentSchema documentId title byteLength sha256 body))
    (ZodError "CanonicalDocument") ≫= fun _ =>
  requestSha256 ← canonicalSha256
    (metadata_json organizationId boardId documentId title media documentSchema byteLength sha256);
  Ok (MkPrepared organizationId boardId documentId title media documentSchema bytes body offered
        (sha256HexBytes (in_body input)) byteLength sha256 requestSha256).
End prepare.

(** ** Properties *)

Section properties.
Context `{Platform} `{!NodeText}.

(** What was tested of a prepared document. *)
Record prepared_from (i : DocumentContributionInput) (p : PreparedDocumentContribution) : Prop := {
  pf_media : CanonicalMediaTypeSchema (in_mediaType i) = Some (pd_mediaType p);
  pf_offered : 1 <= Z.of_nat (length (in_body i)) <= MAX_DOCUMENT_BYTES /\
    offeredByteLength p = Z.of_nat (length (in_body i)) /\ offeredSha256 p = sha256HexBytes (in_body i);
  pf_ids : is_uuid_v7 (in_organizationId i) = true /\ is_uuid_v7 (in_boardId i) = true /\
    is_uuid_v7 (in_documentId i) = true /\ pd_organizationId p = in_organizationId i /\
    pd_boardId p = in_boardId i /\ pd_documentId p = in_documentId i;
  pf_title : canonicalText (in_title i) = Ok (pd_title p) /\ pd_title p = in_title i;
  pf_schema : validateSchema (pd_mediaType p) (in_documentSchema i) = Ok (pd_documentSchema p) /\
    pd_documentSchema p = in_documentSchema i;
  pf_body : canonical_body (pd_mediaType p) (in_body i) = Ok (pd_canonicalText p) /\
    check_body (pd_documentSchema p) (pd_canonicalText p) = Ok tt;
  pf_bytes : canonicalBytes p = utf8_encode (pd_canonicalText p) /\
    pd_byteLength p = Z.of_nat (length (canonicalBytes p)) /\ 1 <= pd_byteLength p <= MAX_DOCUMENT_BYTES /\
    pd_sha256 p = sha256HexBytes (canonicalBytes p);
  pf_document : CanonicalDocumentSchema (pd_documentId p) (pd_title p) (pd_byteLength p) (pd_sha256 p)
    (pd_canonicalText p) = true;
  pf_request : canonicalSha256 (canonicalMetadata p) = Ok (pd_requestSha256 p)
}.

Lemma validateSchema_ok m s t : validateSchema m s = Ok t -> t = s.
Proof.
  unfold validateSchema. destruct m, s as [name|]; try done; try (by intros [= <-]).
  destruct (document_schema_name name), (documentBodySchema name); cbn; try done. by intros [= <-].
Qed.

Lemma canonical_text_same s t : canonicalText s = Ok t -> t = s.
Proof. by intros (-> & _)%canonicalText_ok. Qed.

Lemma contribution_ok i p : prepareDocumentContribution i = Ok p <-> prepared_from i p.
Proof.
  unfold prepareDocumentContribution. split.
  - intros E. inv_ok.
    destruct (CanonicalMediaTypeSchema (in_mediaType i)) as [m|] eqn:Em; [|discriminate].
    inv_ok. subst. repeat match goal with
    | Hu : UuidV7Schema _ = Ok _ |- _ => apply parse_ok in Hu as [-> Hu]
    | Hs : validateSchema _ _ = Ok _ |- _ => pose proof (validateSchema_ok _ _ _ Hs) as ->; revert Hs
    | Ht : canonicalText _ = Ok _ |- _ => pose proof (canonical_text_same _ _ Ht) as ->; revert Ht
    | u : unit |- _ => destruct u
    end. intros. boolify. split; cbn; try split_and!; try done; lia.
  - intros [Em (Ho & Eo & Es) (I1 & I2 & I3 & J1 & J2 & J3) [Et Tt] [Ev Tv] [Eb Ec] (B1 & B2 & B3 & B4) Ed Er].
    rewrite Em. cbn [mbind result_bind]. destruct Ho as [Ho1 Ho2].
    rewrite (proj2 (Z.eqb_neq _ _)), (proj2 (Z.ltb_ge _ _)) by lia. cbn [throw_if mbind result_bind].
    unfold UuidV7Schema, parse. rewrite I1, I2, I3. cbn [mbind result_bind]. rewrite Et. cbn [mbind result_bind].
    rewrite Ev. cbn [mbind result_bind]. rewrite Eb. cbn [mbind result_bind]. rewrite Ec. cbn [mbind result_bind].
    rewrite <- B1, <- B2, (proj2 (Z.eqb_neq _ _)), (proj2 (Z.ltb_ge _ _)) by lia.
    cbn [orb throw_if mbind result_bind]. rewrite <- B4, <- J3, Ed. cbn [negb throw_if mbind result_bind].
    unfold canonicalMetadata in Er. rewrite <- J1, <- J2, Er. cbn [mbind result_bind].
    destruct p; cbn in *. by subst.
Qed.

(** JSON whose numbers are safe integers and whose names are not array
    indices; any text. *)
Definition safe_source (m : CanonicalMediaType) (body : list Z) : Prop :=
  m = json_text -> forall text v, utf8_decode body = Some text -> strictParse text = Ok v ->
    json_safe v = true /\ has_index_key v = false.

Lemma canonical_body_fixed m body text : safe_source m body -> canonical_body m body = Ok text ->
  canonical_body m (utf8_encode text) = Ok text.
Proof.
  unfold canonical_body, safe_source. intros Hs. case_bool_decide as Hm.
  - specialize (Hs Hm). unfold canonicalJsonFromBytes, decodeUtf8.
    destruct (utf8_decode body) as [t|] eqn:Ed; [|done]. cbn [mbind result_bind].
    destruct (canonicalJsonFromText t) as [c|e] eqn:Ec; [|by destruct e]. intros [= <-].
    unfold canonicalJsonFromText in Ec. inv_ok.
    match goal with Hp : strictParse t = Ok ?w |- _ => destruct (Hs t w eq_refl Hp) as [Sw Iw] end.
    match goal with Hc : canonicalJson _ = Ok c |- _ => apply canonicalJson_ok in Hc as [Ow Hc]; rewrite Iw in Hc end.
    subst c. rewrite utf8_decode_encode by (apply stringify_well_formed; by rewrite sort_json_safe).
    cbn [mbind result_bind]. by rewrite canonical_fixed.
  - unfold canonicalTextBytes, decodeUtf8. destruct (utf8_decode body) as [t|] eqn:Ed; [|done].
    apply utf8_encode_decode in Ed as [Hw _]. cbn [mbind result_bind].
    destruct (canonicalText t) as [c|e] eqn:Ec; [|by destruct e]. intros [= <-].
    pose proof (canonical_text_same _ _ Ec) as ->. rewrite utf8_decode_encode by done. cbn [mbind result_bind].
    by rewrite Ec.
Qed.

(** The same contribution with the canonical bytes in place of the offered
    ones. *)
Definition with_body (i : DocumentContributionInput) (body : list Z) : DocumentContributionInput :=
  MkInput (in_organizationId i) (in_boardId i) (in_documentId i) (in_title i) (in_mediaType i)
    (in_documentSchema i) body.
Definition reoffered (p : PreparedDocumentContribution) : PreparedDocumentContribution :=
  MkPrepared (pd_organizationId p) (pd_boardId p) (pd_documentId p) (pd_title p) (pd_mediaType p)
    (pd_documentSchema p) (canonicalBytes p) (pd_canonicalText p) (pd_byteLength p) (pd_sha256 p)
    (pd_byteLength p) (pd_sha256 p) (pd_requestSha256 p).

Lemma prepare_again i p : safe_source (pd_mediaType p) (in_body i) ->
  prepared_from i p -> prepared_from (with_body i (canonicalBytes p)) (reoffered p).
Proof.
  intros Hs [Em _ Hids Ht Hv [Eb Ec] (B1 & B2 & B3 & B4) Ed Er]. split; cbn; try done.
  - rewrite <- B2. done.
  - split; [|done]. rewrite B1. by eapply canonical_body_fixed.
Qed.

Lemma media_text_inj m n : media_text m = media_text n -> m = n.
Proof. destruct m, n; try done; intros E; vm_compute in E; discriminate E. Qed.

Lemma metadata_plain i p : prepared_from i p -> json_plain (canonicalMetadata p) = true.
Proof.
  intros [_ _ _ _ _ _ (_ & _ & B & _) _ _]. unfold canonicalMetadata, metadata_json. obj_plain.
  apply safe_positive. unfold is_safe_positive, MAX_DOCUMENT_BYTES in *. apply in_range_spec.
  unfold MAX_SAFE_INTEGER. lia.
Qed.

(** The members of a request, with the digest for the content. *)
Definition request_identity (p : PreparedDocumentContribution) :=
  (pd_organizationId p, pd_boardId p, pd_documentId p, pd_title p, pd_mediaType p, pd_documentSchema p, pd_sha256 p).

Lemma metadata_inj p q : sort_json (canonicalMetadata p) = sort_json (canonicalMetadata q) ->
  request_identity p = request_identity q.
Proof.
  intros E. unfold canonicalMetadata, metadata_json, int_member in E. split_members E.
  match goal with F : media_text _ = media_text _ |- _ => apply media_text_inj in F end.
  unfold request_identity. congruence.
Qed.

(** The content of the offered bytes is the stored one: text is stored byte by
    byte; JSON is stored as the sorted serialization of the value that was
    offered, and reads back as that value with sorted members. *)
Definition same_content (m : CanonicalMediaType) (offered stored : list Z) : Prop :=
  match m with
  | json_text => exists text v, utf8_decode offered = Some text /\ strictParse text = Ok v /\
      stored = utf8_encode (stringify (sort_json v)) /\
      exists text', utf8_decode stored = Some text' /\ strictParse text' = Ok (sort_json v)
  | _ => stored = offered
  end.

Lemma canonical_body_content m body text : safe_source m body -> canonical_body m body = Ok text ->
  same_content m body (utf8_encode text).
Proof.
  unfold canonical_body, safe_source. intros Hs. case_bool_decide as Hm.
  - specialize (Hs Hm). subst m. unfold canonicalJsonFromBytes, decodeUtf8.
    destruct (utf8_decode body) as [t|] eqn:Ed; [|done]. cbn [mbind result_bind].
    destruct (canonicalJsonFromText t) as [c|e] eqn:Ec; [|by destruct e]. intros [= <-].
    unfold canonicalJsonFromText in Ec. inv_ok.
    match goal with Hp : strictParse t = Ok ?w |- _ => destruct (Hs t w eq_refl Hp) as [Sw Iw]; rename w into v end.
    match goal with Hc : canonicalJson _ = Ok c |- _ => apply canonicalJson_ok in Hc as [Ow Hc]; rewrite Iw in Hc end.
    subst c. exists t, v. split_and!; [done..|]. eexists.
    split; [apply utf8_decode_encode, stringify_well_formed; by rewrite sort_json_safe|].
    apply strictParse_stringify; by rewrite ?sort_json_safe, ?sort_json_ok.
  - unfold canonicalTextBytes, decodeUtf8. destruct (utf8_decode body) as [t|] eqn:Ed; [|done].
    apply utf8_encode_decode in Ed as [Hw Eb]. cbn [mbind result_bind].
    destruct (canonicalText t) as [c|e] eqn:Ec; [|by destruct e]. intros [= <-].
    pose proof (canonical_text_same _ _ Ec) as ->. by destruct m.
Qed.

(** C31. What is recorded of a document is its content. The stored bytes are,
    for text, exactly the offered ones, and for JSON the canonical
    serialization of the value that was offered, which reads back as that value
    with sorted members; they are within the size limit, the digest is theirs,
    and the identifiers, the title and the format are the offered ones.
    Offering the stored bytes again is prepared to the same document with the
    same request digest; and two requests with one digest are for the same
    document, title, format and bytes, or their metadata, or their bytes, are
    an explicit SHA-256 collision. JSON has safe integers and no array-index
    names. *)
Theorem document_canonical i p : prepareDocumentContribution i = Ok p ->
  safe_source (pd_mediaType p) (in_body i) ->
  same_content (pd_mediaType p) (in_body i) (canonicalBytes p) /\
  canonicalBytes p = utf8_encode (pd_canonicalText p) /\ 1 <= Z.of_nat (length (canonicalBytes p)) <= MAX_DOCUMENT_BYTES /\
  pd_sha256 p = sha256HexBytes (canonicalBytes p) /\
  request_identity p = (in_organizationId i, in_boardId i, in_documentId i, in_title i, pd_mediaType p,
    in_documentSchema i, sha256HexBytes (canonicalBytes p)) /\ media_text (pd_mediaType p) = in_mediaType i /\
  prepareDocumentContribution (with_body i (canonicalBytes p)) = Ok (reoffered p) /\
  forall j q, prepareDocumentContribution j = Ok q -> pd_requestSha256 q = pd_requestSha256 p ->
    request_identity q = request_identity p /\
      (canonicalBytes q = canonicalBytes p \/ collision (canonicalBytes q) (canonicalBytes p)) \/
    collision (canonical_bytes (canonicalMetadata q)) (canonical_bytes (canonicalMetadata p)).
Proof.
  intros Hp%contribution_ok Hs. pose proof (pf_bytes _ _ Hp) as (B1 & B2 & B3 & B4).
  pose proof (pf_body _ _ Hp) as [Hb _]. destruct (pf_ids _ _ Hp) as (_ & _ & _ & I1 & I2 & I3).
  split_and!; try done; [rewrite B1; by apply canonical_body_content|lia..| | |by apply contribution_ok, prepare_again|].
  { unfold request_identity. by rewrite I1, I2, I3, B4, (proj2 (pf_title _ _ Hp)), (proj2 (pf_schema _ _ Hp)). }
  { pose proof (pf_media _ _ Hp) as [_ Hm%bool_decide_eq_true]%List.find_some. done. }
  intros j q Hq%contribution_ok E.
  pose proof (pf_request _ _ Hp) as Rp. pose proof (pf_request _ _ Hq) as Rq. rewrite E in Rq.
  pose proof (metadata_plain _ _ Hp) as Pp. pose proof (metadata_plain _ _ Hq) as Pq.
  destruct (canonicalSha256_plain _ _ _ Pq Pp Rq Rp) as [Em|Hc]; [left|by right].
  apply metadata_inj in Em. split; [done|]. apply sha256HexBytes_eq.
  pose proof (pf_bytes _ _ Hq) as (_ & _ & _ & B5). rewrite <- B4, <- B5.
  unfold request_identity in Em. congruence.
Qed.
End properties.

(** ** Concrete documents *)

Definition sample_pack_text : jsstr :=
  js "{ `title`: `Pack`, `sections`: [ { `heading`: `One`, `body`: `Text.` } ],
 `schemaVersion`: `boardagent.board-pack.v1` }".
(** The same with double quotes. *)
Definition sample_pack : list Z := map (fun c => if c =? 96 then 34 else c) sample_pack_text.
Definition sample_canonical_pack : list Z := map (fun c => if c =? 96 then 34 else c)
  (js "{`schemaVersion`:`boardagent.board-pack.v1`,`sections`:[{`body`:`Text.`,`heading`:`One`}],`title`:`Pack`}").

Definition sample_input (body : list Z) : DocumentContributionInput :=
  MkInput sample_id sample_id sample_id (js "Board pack") (js "application/json")
    (Some (js "boardagent.board-pack.v1")) body.

Definition sample_prepared : PreparedDocumentContribution :=
  catch (@prepareDocumentContribution plain_platform (@strict_text plain_platform) (sample_input sample_pack))
    (MkPrepared [] [] [] [] markdown None [] [] 0 [] 0 [] []).

Lemma document_canonical_witness : canonicalBytes sample_prepared = sample_canonical_pack /\
  @prepareDocumentContribution plain_platform (@strict_text plain_platform) (sample_input sample_canonical_pack)
  = Ok (reoffered sample_prepared).
Proof.
  assert (@prepareDocumentContribution plain_platform (@strict_text plain_platform) (sample_input sample_pack)
          = Ok sample_prepared) as Hp by (vm_compute; reflexivity).
  assert (canonicalBytes sample_prepared = sample_canonical_pack) as Hc by (vm_compute; reflexivity).
  assert (@safe_source plain_platform (pd_mediaType sample_prepared) sample_pack) as Hs.
  { intros _ text v Ht Hv. assert (utf8_decode sample_pack = Some sample_pack) as Hd by (vm_compute; reflexivity).
    rewrite Hd in Ht. injection Ht as <-.
    destruct (@strictParse plain_platform sample_pack) as [w|] eqn:Ew; [|discriminate Hv].
    injection Hv as <-. vm_compute in Ew. injection Ew as <-. split; vm_compute; reflexivity. }
  split; [exact Hc|]. rewrite <- Hc.
  apply (@document_canonical plain_platform (@strict_text plain_platform) (sample_input sample_pack)
    sample_prepared Hp Hs).
Defined.

Example pdf_refused :
  @prepareDocumentContribution plain_platform (@strict_text plain_platform)
    (MkInput sample_id sample_id sample_id (js "Pack") (js "application/pdf") None [1]) =
  Throw (DocumentValidationError "machine_readable_material_required").
Proof. vm_compute. reflexivity. Qed.
Example duplicate_name_refused :
  @prepareDocumentContribution plain_platform (@strict_text plain_platform)
    (sample_input (map (fun c => if c =? 96 then 34 else c) (js "{`a`:1,`a`:2}"))) =
  Throw (DocumentValidationError "invalid_canonical_content").
Proof. vm_compute. reflexivity. Qed.
Example schema_names :
  map document_schema_name [js "boardagent.board-pack.v1"; js "boardagent.v1"; js "boardagent.a.v1.v22"; js "boardagent.A.v1"]
  = [true; false; true; false].
Proof. vm_compute. reflexivity. Qed.
