(* ===== verification/Transcript.v ===== *)
(** * Transcript annexes

    lib/contracts/src/transcript.ts: the two formats a meeting transcript is
    accepted in, exactly as its bytes are. *)

From stdpp Require Import base numbers sorting strings list.
From Stdlib Require Import Lia.
From S2P Require Import Prelude JsString Encoding JsNumber Json JsonParse JsonCanon Schemas.
From S2P Require Import VotingConsent Decode Signing.

Local Open Scope Z_scope.

Definition MAX_TRANSCRIPT_BYTES : Z := 10 * 1024 * 1024.

Record TranscriptTurn := MkTurn {
  turn_id : jsstr;
  speaker_member_id : option jsstr;
  speaker_label : jsstr;
  starts_at_ms : option Z;
  ends_at_ms : option Z;
  canonical_text : jsstr
}.

(** The refinement of a turn: both times or neither, and a positive length. *)
Definition turn_timed (starts ends : option Z) : bool :=
  match starts, ends with
  | Some s, Some e => negb (e <=? s)
  | None, None => true
  | _, _ => false
  end.

Section transcripts.
Context `{Platform} `{!NodeText}.

Definition canonicalTranscriptString (maximum : Z) : json -> option jsstr :=
  dString (canonicalString 1 maximum).

Definition TranscriptTurnSchema (v : json) : option TranscriptTurn :=
  l ← members v;
  if negb (strict ["turn_id"; "speaker_member_id"; "speaker_label"; "starts_at_ms"; "ends_at_ms";
                   "canonical_text"] l)
  then None else
  turn_id ← required l "turn_id" (dString is_uuid_v7);
  speaker_member_id ← dDefaultNull l "speaker_member_id" (dString is_uuid_v7);
  speaker_label ← required l "speaker_label" (canonicalTranscriptString 512);
  starts_at_ms ← dDefaultNull l "starts_at_ms" (dInt is_safe_nonnegative);
  ends_at_ms ← dDefaultNull l "ends_at_ms" (dInt is_safe_nonnegative);
  canonical_text ← required l "canonical_text" (canonicalTranscriptString 1048576);
  if turn_timed starts_at_ms ends_at_ms
  then Some (MkTurn turn_id speaker_member_id speaker_label starts_at_ms ends_at_ms canonical_text)
  else None.

Definition turns_of_json (v : json) : option (list TranscriptTurn) :=
  l ← members v;
  if negb (strict ["turns"] l) then None else
  turns ← required l "turns" (dArray TranscriptTurnSchema);
  if in_range 1 10000 (Z.of_nat (length turns)) then Some turns else None.

Definition TranscriptTurnsDocumentSchema (v : json) : option (list TranscriptTurn) :=
  l ← members v;
  if negb (strict ["schema_version"; "values"] l) then None else
  _ ← required l "schema_version" (dLiteral "boardagent.transcript-turns.v1");
  turns ← required l "values" turns_of_json;
  if all_distinct (map turn_id turns) then Some turns else None.

Inductive TranscriptMediaType := transcript_json | transcript_markdown.

(** The canonical schema is that of the media type; Markdown has no turns. *)
Record ParsedTranscriptAnnex := MkAnnex {
  canonicalSchema : TranscriptMediaType;
  canonicalBody : jsstr;
  turns : list TranscriptTurn
}.

Definition parseTranscriptAnnex (mediaType : TranscriptMediaType) (value : jsstr) : result ParsedTranscriptAnnex :=
  body ← canonicalText value;
  let byteLength := Z.of_nat (length (utf8_encode body)) in
  throw_if ((byteLength <? 1) || (MAX_TRANSCRIPT_BYTES <? byteLength))
    (RangeError "transcript annex must contain 1 through 10485760 UTF-8 bytes" []) ≫= fun _ =>
  match mediaType with
  | transcript_markdown => Ok (MkAnnex transcript_markdown body [])
  | transcript_json =>
      canonical ← canonicalJsonFromText body;
      throw_if (bool_decide (canonical <> body))
        (TypeError "JSON transcript annex must already use the exact canonical encoding" []) ≫= fun _ =>
      match JSON_parse canonical with
      | None => Throw (JsError "SyntaxError" [])
      | Some v =>
          match TranscriptTurnsDocumentSchema v with
          | Some turns => Ok (MkAnnex transcript_json canonical turns)
          | None => Throw (ZodError "TranscriptTurnsDocument")
          end
      end
  end.

(** ** Properties *)

Record turn_ok (t : TranscriptTurn) : Prop := {
  tk_id : is_uuid_v7 (turn_id t) = true;
  tk_speaker : forall m, speaker_member_id t = Some m -> is_uuid_v7 m = true;
  tk_label : canonicalString 1 512 (speaker_label t) = true;
  tk_text : canonicalString 1 1048576 (canonical_text t) = true;
  (** The times are both absent, or an interval of positive length. *)
  tk_times : (starts_at_ms t = None /\ ends_at_ms t = None) \/
    exists s e, starts_at_ms t = Some s /\ ends_at_ms t = Some e /\ 0 <= s < e /\ e <= MAX_SAFE_INTEGER
}.

Lemma default_null_some {A} l key (d : json -> option A) o : dDefaultNull l key d = Some o ->
  o = None \/ exists v a, d v = Some a /\ o = Some a.
Proof.
  unfold dDefaultNull. destruct (map_get l (js key)) as [v|]; [|intros [= <-]; by left].
  intros [->|(a & -> & Ha)]%dNullable_some; [by left|right; by exists v, a].
Qed.

Lemma turn_schema_ok v t : TranscriptTurnSchema v = Some t -> turn_ok t.
Proof.
  unfold TranscriptTurnSchema, canonicalTranscriptString. intros E. inv_decode. split; cbn; try done.
  { match goal with Hm : dDefaultNull _ "speaker_member_id" _ = Some ?o |- forall m, ?o = _ -> _ =>
      apply default_null_some in Hm as [->|(w & a & Ha & ->)] end; [done|]. intros m [= <-].
    by apply dString_some in Ha as [_ ?]. }
  match goal with Hs : dDefaultNull _ "starts_at_ms" _ = Some ?s, He : dDefaultNull _ "ends_at_ms" _ = Some ?e,
    Ht : turn_timed ?s ?e = true |- _ =>
    apply default_null_some in Hs as [->|(v1 & a & Ha & ->)]; apply default_null_some in He as [->|(v2 & b & Hb & ->)];
    cbn in Ht; try discriminate Ht; [by left|right; exists a, b]
  end.
  apply dInt_some in Ha as [_ Ha], Hb as [_ Hb]. unfold is_safe_nonnegative in *.
  rewrite in_range_spec in Ha, Hb. boolify. split_and!; try done; lia.
Qed.

Lemma array_some {A} (d : json -> option A) v l : dArray d v = Some l ->
  exists k, v = JArr k /\ Forall2 (fun w a => d w = Some a) k l.
Proof.
  unfold dArray. destruct v as [| | | |k|]; try done. intros Hl. exists k. split; [done|].
  by apply mapM_Some_1.
Qed.

Lemma turns_ok v l : turns_of_json v = Some l -> Forall turn_ok l /\ 1 <= Z.of_nat (length l) <= 10000.
Proof.
  unfold turns_of_json. intros E. inv_decode.
  match goal with Harr : dArray _ _ = Some _ |- _ => destruct (array_some _ _ _ Harr) as (k & _ & Ha) end.
  match goal with Hr : in_range _ _ _ = true |- _ => apply in_range_spec in Hr end.
  split; [|done]. clear -Ha.
  induction Ha as [|w t k' ts Ht _ IH]; constructor; [by eapply turn_schema_ok|done].
Qed.

Definition turn_json (t : TranscriptTurn) : json :=
  JObj [str "turn_id" (turn_id t); nullable "speaker_member_id" (speaker_member_id t);
        str "speaker_label" (speaker_label t); (js "starts_at_ms", jopt jint (starts_at_ms t));
        (js "ends_at_ms", jopt jint (ends_at_ms t)); str "canonical_text" (canonical_text t)].
Definition annex_json (turns : list TranscriptTurn) : json :=
  JObj [str "schema_version" (js "boardagent.transcript-turns.v1");
        (js "values", JObj [(js "turns", JArr (map turn_json turns))])].
Definition annex_text (turns : list TranscriptTurn) : jsstr := stringify (sort_json (annex_json turns)).

Definition sorted_turn_json (t : TranscriptTurn) : json :=
  JObj [str "canonical_text" (canonical_text t); (js "ends_at_ms", jopt jint (ends_at_ms t));
        str "speaker_label" (speaker_label t); nullable "speaker_member_id" (speaker_member_id t);
        (js "starts_at_ms", jopt jint (starts_at_ms t)); str "turn_id" (turn_id t)].

Lemma sort_turn t : sort_json (turn_json t) = sorted_turn_json t.
Proof. destruct t as [i [m|] l [s|] [e|] c]; vm_compute; reflexivity. Qed.

Lemma sort_annex turns : sort_json (annex_json turns) =
  JObj [str "schema_version" (js "boardagent.transcript-turns.v1");
        (js "values", JObj [(js "turns", JArr (map sorted_turn_json turns))])].
Proof.
  transitivity (JObj [str "schema_version" (js "boardagent.transcript-turns.v1");
    (js "values", JObj [(js "turns", JArr (map sort_json (map turn_json turns)))])]); [reflexivity|].
  by rewrite map_map, (map_ext _ _ sort_turn).
Qed.

Lemma default_here {A} l key v (d : json -> option A) : dDefaultNull ((js key, v) :: l) key d = dNullable d v.
Proof. unfold dDefaultNull. cbn [map_get]. by rewrite decide_True. Qed.
Lemma default_next {A} l key k v (d : json -> option A) : bool_decide (js key = k) = false ->
  dDefaultNull ((k, v) :: l) key d = dDefaultNull l key d.
Proof. intros Hk%bool_decide_eq_false. unfold dDefaultNull. cbn [map_get]. by rewrite decide_False. Qed.
Lemma nullable_int_intro p o : opt_all p o = true -> dNullable (dInt p) (jopt jint o) = Some o.
Proof. destruct o as [z|]; [|done]. cbn. by intros ->. Qed.

Lemma turn_times_ok t : turn_ok t -> opt_all is_safe_nonnegative (starts_at_ms t) = true /\
  opt_all is_safe_nonnegative (ends_at_ms t) = true /\ turn_timed (starts_at_ms t) (ends_at_ms t) = true.
Proof.
  intros [_ _ _ _ [[-> ->]|(a & b & -> & -> & Hab & Hb)]]; [done|]. unfold turn_timed. cbn [opt_all].
  rewrite (proj2 (Z.leb_gt b a)) by lia. split_and!; [apply in_range_spec; lia..|done].
Qed.

Lemma turn_read_back t : turn_ok t -> TranscriptTurnSchema (sorted_turn_json t) = Some t.
Proof.
  intros Hok. pose proof (turn_times_ok t Hok) as (Hs & He & Htimes). destruct Hok as [Hi Hsp Hl Ht _].
  assert (opt_all is_uuid_v7 (speaker_member_id t) = true) as Hm by (destruct (speaker_member_id t) as [m|]; [by apply Hsp|done]).
  unfold TranscriptTurnSchema, sorted_turn_json, canonicalTranscriptString.
  cbn [members mbind option_bind].
  replace (strict _ _) with true by (destruct t as [i [m|] l [s|] [e|] c]; vm_compute; reflexivity).
  cbn [negb]. unfold str, nullable.
  repeat (rewrite ?required_next, ?default_next by (vm_compute; reflexivity); rewrite ?required_here, ?default_here;
    first [rewrite dString_intro by done|rewrite dNullable_intro by done
          |rewrite nullable_int_intro by done]; cbn [mbind option_bind]).
  rewrite Htimes. by destruct t.
Qed.

Lemma turns_read_back turns : Forall turn_ok turns ->
  mapM TranscriptTurnSchema (map sorted_turn_json turns) = Some turns.
Proof.
  induction 1 as [|t turns Ht _ IH]; [done|]. cbn [map mapM]. rewrite turn_read_back by done.
  cbn [mbind option_bind]. by rewrite IH.
Qed.

Lemma annex_read_back turns : Forall turn_ok turns -> NoDup (map turn_id turns) ->
  1 <= Z.of_nat (length turns) <= 10000 ->
  TranscriptTurnsDocumentSchema (sort_json (annex_json turns)) = Some turns.
Proof.
  intros Ht Hd Hn. rewrite sort_annex. unfold TranscriptTurnsDocumentSchema. cbn [members mbind option_bind].
  change (strict ["schema_version"%string; "values"%string] _) with true. cbn [negb].
  unfold str. rewrite required_here, dLiteral_intro. cbn [mbind option_bind].
  rewrite required_next by (vm_compute; reflexivity). rewrite required_here.
  unfold turns_of_json. cbn [members mbind option_bind].
  change (strict ["turns"%string] _) with true. cbn [negb]. rewrite required_here. cbn [dArray].
  rewrite turns_read_back by done. cbn [mbind option_bind].
  rewrite (proj2 (in_range_spec _ _ _)) by done. cbn [mbind option_bind].
  by rewrite (proj2 (all_distinct_spec _)).
Qed.

Lemma transcript_turn_plain t : turn_ok t -> json_plain (turn_json t) = true.
Proof.
  intros [_ _ _ _ Htimes]. unfold turn_json.
  obj_plain; (destruct Htimes as [[E1 E2]|(a & b & E1 & E2 & Hab & Hb)]; rewrite ?E1, ?E2; [done|]);
    cbn; apply in_range_spec; lia.
Qed.

Lemma annex_plain turns : Forall turn_ok turns -> json_plain (annex_json turns) = true.
Proof.
  intros Ht. unfold annex_json. obj_plain. obj_plain. apply arr_plain. intros t Hin.
  rewrite List.Forall_forall in Ht. by apply transcript_turn_plain, Ht.
Qed.

Lemma turn_accepted d t : Nat.ltb d MAX_JSON_CONTAINER_DEPTH = true -> turn_ok t -> json_ok d (turn_json t) = true.
Proof.
  intros Hd [Hi Hm Hl Ht _]. unfold turn_json. obj_ok.
  - apply jopt_ok. intros m Em. cbn [json_ok]. by apply uuid_unicode, Hm.
  - by apply jopt_ok.
  - by apply jopt_ok.
Qed.
Lemma annex_accepted l : Forall turn_ok l -> json_ok 0 (annex_json l) = true.
Proof.
  intros Hl. unfold annex_json. obj_ok. obj_ok. apply arr_ok; [done|].
  intros t Ht. rewrite List.Forall_forall in Hl. by apply turn_accepted; [|apply Hl].
Qed.

(** C32. A transcript annex is accepted exactly as it is. An accepted annex has
    its very text as the canonical body, within the size limit; Markdown has no
    turns; JSON is its own canonical encoding, and its turns, between one and
    ten thousand with distinct identifiers, are well formed: identifiers of the
    turn and of its speaker, if named, canonical label and text, and no times
    or an interval of positive length. Conversely the canonical text of such
    turns, when it is within the size limit and in normal form as a whole, is
    accepted and gives these turns back. *)
Theorem transcript_exact :
  (forall media value a, parseTranscriptAnnex media value = Ok a ->
     canonicalBody a = value /\ canonicalSchema a = media /\
     1 <= Z.of_nat (length (utf8_encode value)) <= MAX_TRANSCRIPT_BYTES /\
     match media with
     | transcript_markdown => turns a = []
     | transcript_json => canonicalJsonFromText value = Ok value /\ Forall turn_ok (turns a) /\
         NoDup (map turn_id (turns a)) /\ 1 <= Z.of_nat (length (turns a)) <= 10000
     end) /\
  (forall l, Forall turn_ok l -> NoDup (map turn_id l) -> 1 <= Z.of_nat (length l) <= 10000 ->
     canonicalText (annex_text l) = Ok (annex_text l) ->
     1 <= Z.of_nat (length (utf8_encode (annex_text l))) <= MAX_TRANSCRIPT_BYTES ->
     parseTranscriptAnnex transcript_json (annex_text l) = Ok (MkAnnex transcript_json (annex_text l) l)).
Proof.
  split.
  - intros media value a. unfold parseTranscriptAnnex. intros E. inv_ok.
    match goal with Ht : canonicalText value = Ok _ |- _ => apply canonicalText_ok in Ht as (-> & _) end. boolify.
    destruct media; inv_ok.
    + match goal with Hb : bool_decide (_ <> _) = false |- _ => apply bool_decide_eq_false, dec_stable in Hb as -> end.
      destruct (JSON_parse value) as [v|]; [|done].
      destruct (TranscriptTurnsDocumentSchema v) as [ts|] eqn:Ev; [|done]. injection E as <-. cbn.
      unfold TranscriptTurnsDocumentSchema in Ev. inv_decode.
      match goal with Hd : all_distinct _ = true |- _ => apply all_distinct_spec in Hd end.
      match goal with Hv : turns_of_json _ = Some _ |- _ => apply turns_ok in Hv as [? ?] end.
      split_and!; try done; lia.
    + subst. cbn. split_and!; try done; lia.
  - intros l Hok Hd Hn Ht Hb. pose proof (annex_accepted l Hok) as Ho. unfold parseTranscriptAnnex. rewrite Ht. cbn [mbind result_bind].
    rewrite (proj2 (Z.ltb_ge _ _)), (proj2 (Z.ltb_ge _ _)) by lia. cbn [orb throw_if mbind result_bind].
    pose proof (annex_plain l Hok) as Hp. pose proof (plain_index _ Hp) as Hi.
    pose proof (plain_ok_safe 0 _ Hp Ho) as Hs.
    assert (canonicalJsonFromText (annex_text l) = Ok (annex_text l)) as ->
      by (by apply canonical_fixed).
    cbn [mbind result_bind]. rewrite bool_decide_eq_false_2 by (intros Hne; by apply Hne).
    cbn [throw_if mbind result_bind].
    assert (JSON_parse (annex_text l) = Some (sort_json (annex_json l))) as ->
      by (apply JSON_parse_stringify; by rewrite ?sort_json_safe, ?sort_json_index).
    by rewrite annex_read_back.
Qed.
End transcripts.

(** ** A concrete annex *)

Definition sample_turns : list TranscriptTurn :=
  [MkTurn sample_id None (js "Chair") (Some 0) (Some 1500) (js "Welcome.");
   MkTurn (js "01890000-0000-7000-8000-000000000002") (Some sample_id) (js "Member") None None (js "Thanks.")].

Lemma sample_turns_ok : Forall (@turn_ok plain_platform) sample_turns.
Proof.
  apply Forall_cons. split; [|apply Forall_cons; split; [|constructor]].
  - split; [vm_compute; reflexivity|done|vm_compute; reflexivity..|].
    right. exists 0, 1500. unfold MAX_SAFE_INTEGER. split_and!; [done..|lia|lia|lia].
  - split; [vm_compute; reflexivity|intros m [= <-]; vm_compute; reflexivity|vm_compute; reflexivity..|by left].
Qed.

Lemma transcript_exact_witness :
  @parseTranscriptAnnex plain_platform (@strict_text plain_platform) transcript_json (annex_text sample_turns)
  = Ok (MkAnnex transcript_json (annex_text sample_turns) sample_turns).
Proof.
  apply (proj2 (@transcript_exact plain_platform (@strict_text plain_platform))).
  - exact sample_turns_ok.
  - apply all_distinct_spec. vm_compute. reflexivity.
  - vm_compute. split; discriminate.
  - vm_compute. reflexivity.
  - vm_compute. split; discriminate.
Defined.
Example sample_spaced_annex :
  @parseTranscriptAnnex plain_platform (@strict_text plain_platform) transcript_json (32 :: annex_text sample_turns)
  = Throw (TypeError "JSON transcript annex must already use the exact canonical encoding" []).
Proof. vm_compute. reflexivity. Qed.
