(* ===== verification/ActionManifest.v ===== *)
(** * The action manifest of minutes

    lib/domain/src/minutes.ts, last part, with the manifest schemas of
    lib/contracts/src/governance.ts: the digest of a manifest and the digest by
    which the draft tasks of a manifest are activated. *)

From stdpp Require Import base numbers sorting strings list.
From Stdlib Require Import Lia.
From S2P Require Import Prelude JsString Encoding JsNumber Json JsonParse JsonCanon Schemas.
From S2P Require Import VotingConsent Signing.

Local Open Scope Z_scope.

Record MinutesActionItem := MkItem {
  itemId : jsstr;
  ownerMemberId : jsstr;
  dueAt : jsstr;
  section : jsstr;
  line : Z;
  description : jsstr;
  requiredEvidence : jsstr;
  visibility : jsstr
}.

(** [items] is absent exactly in a manifest that declares no action items. *)
Record MinutesActionManifest := MkManifest {
  minutesId : jsstr;
  minutesVersion : Z;
  minutesSha256 : jsstr;
  items : option (list MinutesActionItem)
}.

Definition item_ok `{Platform} (i : MinutesActionItem) : bool :=
  is_uuid_v7 (itemId i) && is_uuid_v7 (ownerMemberId i) && is_rfc3339_utc (dueAt i)
  && canonicalString 1 512 (section i) && is_safe_positive (line i)
  && canonicalString 1 262144 (description i) && canonicalString 1 262144 (requiredEvidence i)
  && includes ["board"; "secretariat_management"] (visibility i).

Definition manifest_ok `{Platform} (m : MinutesActionManifest) : bool :=
  is_uuid_v7 (minutesId m) && is_safe_positive (minutesVersion m) && is_hex64 (minutesSha256 m)
  && opt_all (fun l => in_range 1 1000 (Z.of_nat (length l)) && forallb item_ok l
       && all_distinct (map itemId l)) (items m).

Definition MinutesActionManifestSchema `{Platform} (m : MinutesActionManifest) : result MinutesActionManifest :=
  parse "MinutesActionManifest" manifest_ok m.

Definition item_json (i : MinutesActionItem) : json :=
  JObj [str "itemId" (itemId i); str "ownerMemberId" (ownerMemberId i); str "dueAt" (dueAt i);
        (js "sourceLocator", JObj [str "section" (section i); int_member "line" (line i)]);
        str "description" (description i); str "requiredEvidence" (requiredEvidence i);
        str "visibility" (visibility i)].

Definition manifest_json (m : MinutesActionManifest) : json :=
  JObj ([str "schemaVersion" (js "boardagent.minutes-action-manifest.v1"); str "minutesId" (minutesId m);
         int_member "minutesVersion" (minutesVersion m); str "minutesSha256" (minutesSha256 m)]
        ++ match items m with
           | None => [str "declaration" (js "no_action_items")]
           | Some l => [str "declaration" (js "items_logged"); (js "items", JArr (map item_json l))]
           end).

Record DraftActionRef := MkDraft { taskId : jsstr; sourceMinutesSha256 : jsstr }.

Section manifests.
Context `{Platform}.

Definition minutesActionManifestHash (manifest : MinutesActionManifest) : result jsstr :=
  m ← MinutesActionManifestSchema manifest; canonicalSha256 (manifest_json m).

(** [list.toSorted()] of strings, as a JSON value. *)
Definition ids_json (l : list jsstr) : json := JArr (map JStr l).

Definition expected_ids (m : MinutesActionManifest) : list jsstr :=
  match items m with
  | Some l => toSorted cmp_units (map itemId l)
  | None => []
  end.

Definition activation_json (manifestSha256 : jsstr) (taskIds : list jsstr) : json :=
  JObj [str "schemaVersion" (js "boardagent.minutes-action-activation.v1");
        str "manifestSha256" manifestSha256; (js "taskIds", ids_json taskIds)].

Definition activationManifestHash (manifestInput : MinutesActionManifest) (tasks : list DraftActionRef)
    : result jsstr :=
  manifest ← MinutesActionManifestSchema manifestInput;
  let expectedIds := expected_ids manifest in
  let actualIds := toSorted cmp_units (map taskId tasks) in
  expectedHash ← canonicalSha256 (ids_json expectedIds);
  actualHash ← canonicalSha256 (ids_json actualIds);
  if negb (bool_decide (expectedHash = actualHash))
  then Throw (JsError "draft tasks do not match the exact action manifest" []) else
  forM (fun _ task => throw_if (negb (safeHashEqual (sourceMinutesSha256 task) (minutesSha256 manifest)))
          (JsError "draft task source minutes hash mismatch" [])) tt tasks ≫= fun _ =>
  manifestSha256 ← minutesActionManifestHash manifest;
  canonicalSha256 (activation_json manifestSha256 actualIds).

(** ** Properties *)

Lemma ids_plain l : json_plain (ids_json l) = true.
Proof. by apply arr_plain. Qed.

Lemma ids_json_inj l k : sort_json (ids_json l) = sort_json (ids_json k) -> l = k.
Proof.
  intros E%sort_json_arr. apply (jstr_list_inj JStr); [apply sort_str_inj|done].
Qed.

Lemma sources_checked h tasks u :
  forM (fun _ task => throw_if (negb (safeHashEqual (sourceMinutesSha256 task) h))
          (JsError "draft task source minutes hash mismatch" [])) tt tasks = Ok u ->
  Forall (fun t => sourceMinutesSha256 t = h) tasks.
Proof.
  intros E. apply (forM_inv (fun done _ => Forall (fun t => sourceMinutesSha256 t = h) done)) in E; [done| |].
  - constructor.
  - intros done [] t [] Hd Ht. apply throw_if_ok, negb_false_iff, safeHashEqual_true in Ht as [_ Ht].
    apply Forall_app. split; [done|]. by constructor.
Qed.

Lemma item_json_inj a b : sort_json (item_json a) = sort_json (item_json b) -> a = b.
Proof.
  intros E. unfold item_json in E. split_members E.
  match goal with F : sort_json (JObj _) = sort_json (JObj _) |- _ => split_members F end.
  destruct a, b; cbn in *; by subst.
Qed.

Lemma item_plain i : item_ok i = true -> json_plain (item_json i) = true.
Proof.
  unfold item_ok. intros Hi. boolify. obj_plain. obj_plain. by apply safe_positive.
Qed.

Lemma manifest_plain m : manifest_ok m = true -> json_plain (manifest_json m) = true.
Proof.
  unfold manifest_ok. intros Hm. boolify. unfold manifest_json. destruct (items m) as [l|] eqn:El.
  - cbn [app opt_all] in *. boolify. obj_plain; [by apply safe_positive|]. apply arr_plain.
    intros i Hi. apply item_plain. match goal with H : forallb item_ok l = true |- _ =>
      rewrite forallb_forall in H; by apply H end.
  - cbn [app]. obj_plain. by apply safe_positive.
Qed.

Lemma manifest_json_inj m n : sort_json (manifest_json m) = sort_json (manifest_json n) -> m = n.
Proof.
  unfold manifest_json. destruct m as [i v s [l|]], n as [i' v' s' [l'|]]; cbn [items app]; intros E.
  - split_members E. match goal with F : sort_json (JArr _) = _ |- _ => apply sort_json_arr in F end.
    f_equal; try assumption. f_equal. by apply (jstr_list_inj item_json); [apply item_json_inj|].
  - apply sort_json_obj_length in E. discriminate E.
  - apply sort_json_obj_length in E. discriminate E.
  - split_members E. by f_equal.
Qed.

(** What the activation digest is taken of. *)
Definition activation_payload (i : MinutesActionManifest * list DraftActionRef) : result json :=
  hash ← minutesActionManifestHash i.1;
  Ok (activation_json hash (toSorted cmp_units (map taskId i.2))).

Lemma sorted_ids_perm l k : toSorted cmp_units l = toSorted cmp_units k -> l ≡ₚ k.
Proof. intros E. by rewrite <- (toSorted_perm cmp_units l), E, (toSorted_perm cmp_units k). Qed.

Lemma activation_steps m tasks h : activationManifestHash m tasks = Ok h ->
  manifest_ok m = true /\
  (exists e, canonicalSha256 (ids_json (expected_ids m)) = Ok e /\
     canonicalSha256 (ids_json (toSorted cmp_units (map taskId tasks))) = Ok e) /\
  Forall (fun t => sourceMinutesSha256 t = minutesSha256 m) tasks /\
  exists mh, canonicalSha256 (manifest_json m) = Ok mh /\ minutesActionManifestHash m = Ok mh /\
    canonicalSha256 (activation_json mh (toSorted cmp_units (map taskId tasks))) = Ok h.
Proof.
  unfold activationManifestHash, MinutesActionManifestSchema. intros E. inv_parse.
  match type of E with (if ?b then _ else _) = _ => destruct b eqn:Hb; [done|] end. inv_ok. boolify. subst.
  split_and!; try done.
  - by eexists.
  - by eapply sources_checked.
  - eexists. split_and!; [|done|done]. unfold minutesActionManifestHash, MinutesActionManifestSchema in *.
    by inv_parse.
Qed.

(** Tasks are activated only for exactly the items of the manifest. When an
    activation digest is computed, the draft tasks are the items the manifest
    lists, each as often as it is listed, and all of them were drafted from the
    minutes it binds; and two activations with one digest are of the same
    manifest and the same tasks in some order. The comparisons are of digests:
    each conclusion holds unless the texts compared are an explicit SHA-256
    collision. *)
Theorem activation_exact m tasks h : activationManifestHash m tasks = Ok h ->
  (map taskId tasks ≡ₚ match items m with Some l => map itemId l | None => [] end \/
   collision (canonical_bytes (ids_json (expected_ids m)))
     (canonical_bytes (ids_json (toSorted cmp_units (map taskId tasks))))) /\
  Forall (fun t => sourceMinutesSha256 t = minutesSha256 m) tasks /\
  forall m' tasks', activationManifestHash m' tasks' = Ok h ->
    m' = m /\ map taskId tasks' ≡ₚ map taskId tasks \/
    colliding activation_payload (m', tasks') (m, tasks) \/
    collision (canonical_bytes (manifest_json m')) (canonical_bytes (manifest_json m)).
Proof.
  intros (Hm & (e & He & Ha) & Hs & mh & Hh & Hp & Hx)%activation_steps. split_and!; [|done|].
  - destruct (canonicalSha256_plain _ _ _ (ids_plain _) (ids_plain _) He Ha) as [E|Hc]; [left|by right].
    apply ids_json_inj in E. unfold expected_ids in E. symmetry. destruct (items m) as [l|].
    + by apply sorted_ids_perm.
    + by rewrite <- (toSorted_perm cmp_units (map taskId tasks)), <- E.
  - intros m' tasks' (Hm' & _ & _ & mh' & Hh' & Hp' & Hx')%activation_steps.
    assert (forall mh l, json_plain (activation_json mh l) = true) as Hpl.
    { intros. obj_plain. apply ids_plain. }
    destruct (canonicalSha256_plain _ _ _ (Hpl _ _) (Hpl _ _) Hx' Hx) as [E|Hc].
    + unfold activation_json in E. split_members E.
      match goal with F : sort_json (ids_json _) = _ |- _ => apply ids_json_inj, sorted_ids_perm in F end.
      subst mh'. destruct (canonicalSha256_plain _ _ _ (manifest_plain _ Hm') (manifest_plain _ Hm) Hh' Hh)
        as [E|Hc]; [left|by right; right]. split; [by apply manifest_json_inj|done].
    + right; left. exists (activation_json mh' (toSorted cmp_units (map taskId tasks'))),
        (activation_json mh (toSorted cmp_units (map taskId tasks))).
      unfold activation_payload. cbn [fst snd]. by rewrite Hp, Hp'.
Qed.
End manifests.

(** ** A concrete manifest *)

Definition sample_item : MinutesActionItem :=
  MkItem sample_id sample_id (js "2026-02-01T00:00:00Z") (js "Actions") 3 (js "File the report")
    (js "Receipt") (js "board").

Definition sample_manifest : MinutesActionManifest := MkManifest sample_id 1 sample_hash (Some [sample_item]).

Definition sample_activation : jsstr :=
  catch (@activationManifestHash plain_platform sample_manifest [MkDraft sample_id sample_hash]) [].

Lemma activation_exact_witness :
  @activationManifestHash plain_platform sample_manifest [MkDraft sample_id sample_hash] = Ok sample_activation /\
  Forall (fun t => sourceMinutesSha256 t = minutesSha256 sample_manifest) [MkDraft sample_id sample_hash].
Proof.
  assert (@activationManifestHash plain_platform sample_manifest [MkDraft sample_id sample_hash]
          = Ok sample_activation) as E by (vm_compute; reflexivity).
  split; [exact E|]. exact (proj1 (proj2 (@activation_exact plain_platform _ _ _ E))).
Defined.
