(* ===== verification/Question.v ===== *)
(** * Management questions

    lib/domain/src/question.ts: the canonical form of a question to management
    and of a turn of its discussion. Owners and visibility grants are sets
    written as lists; the canonical form forgets their order and repetitions. *)

From stdpp Require Import base numbers sorting strings list sets.
From Stdlib Require Import Lia.
From S2P Require Import Prelude JsString Encoding JsNumber Json JsonParse JsonCanon Schemas.
From S2P Require Import VotingConsent Signing Citations.

Local Open Scope Z_scope.

Inductive QuestionVisibilityGrant :=
  | MemberGrant (memberId : jsstr)
  | SeatRoleGrant (seatRole : jsstr).

#[export] Instance grant_eq_dec : EqDecision QuestionVisibilityGrant.
Proof. solve_decision. Defined.

Record ManagementQuestionInput := MkQuestion {
  questionId : jsstr;
  boardId : jsstr;
  question : jsstr;
  assignedOwnerIds : list jsstr;
  dueAt : jsstr;
  citations : list GovernanceCitation;
  visibility : list QuestionVisibilityGrant
}.

Record PreparedManagementQuestion := MkPrepared {
  prepared : ManagementQuestionInput;
  textSha256 : jsstr;
  canonicalPayload : list Z;
  requestSha256 : jsstr
}.

Definition seatRoles : list string := ["voting_member"; "management"; "observer"].

Definition grant_key (g : QuestionVisibilityGrant) : jsstr :=
  match g with
  | MemberGrant memberId => js "member:" ++ memberId
  | SeatRoleGrant seatRole => js "seat_role:" ++ seatRole
  end.

Definition grant_json (g : QuestionVisibilityGrant) : json :=
  match g with
  | MemberGrant memberId => JObj [str "granteeType" (js "member"); str "memberId" memberId]
  | SeatRoleGrant seatRole => JObj [str "granteeType" (js "seat_role"); str "seatRole" seatRole]
  end.

Section questions.
Context `{Platform}.

Definition normalizedCitations (citations : list GovernanceCitation) : result (list GovernanceCitation) :=
  if 64 <? Z.of_nat (length citations)
  then Throw (RangeError "question citations cannot exceed 64 entries" [])
  else mapR GovernanceCitationSchema citations.

(** One iteration of the loop over the grants. *)
Definition normalize_grant (normalized : list (jsstr * QuestionVisibilityGrant)) (g : QuestionVisibilityGrant)
    : result (list (jsstr * QuestionVisibilityGrant)) :=
  match g with
  | MemberGrant id =>
      memberId ← UuidV7Schema id;
      Ok (map_set normalized (js "member:" ++ memberId) (MemberGrant memberId))
  | SeatRoleGrant seatRole =>
      if negb (includes seatRoles seatRole)
      then Throw (TypeError "question visibility grant is invalid" [])
      else Ok (map_set normalized (js "seat_role:" ++ seatRole) (SeatRoleGrant seatRole))
  end.

Definition by_key (left right : jsstr * QuestionVisibilityGrant) : Z := localeCompare left.1 right.1.

Definition normalizedVisibility (visibility : list QuestionVisibilityGrant)
    : result (list QuestionVisibilityGrant) :=
  let count := Z.of_nat (length visibility) in
  if (count <? 1) || (1003 <? count)
  then Throw (RangeError "question visibility must contain 1 through 1003 grants" []) else
  normalized ← forM normalize_grant [] visibility;
  Ok (map snd (toSorted by_key normalized)).

Definition normalizedOwners (ownerIds : list jsstr) : result (list jsstr) :=
  let count := Z.of_nat (length ownerIds) in
  if (count <? 1) || (1000 <? count)
  then Throw (RangeError "assigned owner IDs must contain 1 through 1000 entries" []) else
  parsed ← mapR UuidV7Schema ownerIds;
  Ok (toSorted cmp_units (set_of parsed)).

Definition canonicalNonblank (value : jsstr) (label : string) : result jsstr :=
  canonical ← canonicalText value;
  if 1048576 <? js_length canonical then Throw (RangeError "exceeds 1 MiB" [js label]) else
  if js_length (trim canonical) =? 0 then Throw (TypeError "must be nonblank" [js label]) else
  Ok canonical.

Definition question_json (q : ManagementQuestionInput) : json :=
  JObj [str "schemaVersion" (js "boardagent.management-question.v1"); str "questionId" (questionId q);
        str "boardId" (boardId q); str "question" (question q);
        (js "assignedOwnerIds", JArr (map JStr (assignedOwnerIds q))); str "dueAt" (dueAt q);
        (js "citations", JArr (map citation_json (citations q)));
        (js "aclPolicy", JObj [str "schemaVersion" (js "boardagent.question-acl.v1");
                               (js "grants", JArr (map grant_json (visibility q)))])].

Definition prepareManagementQuestion (input : ManagementQuestionInput) : result PreparedManagementQuestion :=
  questionId ← UuidV7Schema (questionId input);
  boardId ← UuidV7Schema (boardId input);
  question ← canonicalNonblank (question input) "management question";
  assignedOwnerIds ← normalizedOwners (assignedOwnerIds input);
  dueAt ← Rfc3339UtcSchema (dueAt input);
  citations ← normalizedCitations (citations input);
  visibility ← normalizedVisibility (visibility input);
  let q := MkQuestion questionId boardId question assignedOwnerIds dueAt citations visibility in
  payload ← canonicalJson (question_json q);
  request ← canonicalSha256 (question_json q);
  Ok (MkPrepared q (sha256Hex question) (utf8_encode payload) request).

(** ** Turns *)

Inductive TurnKind := answer | follow_up (dueAt : jsstr).

Record ManagementQuestionTurnInput := MkTurn {
  turn_questionId : jsstr;
  text : jsstr;
  turn_citations : list GovernanceCitation;
  turnKind : TurnKind
}.

Record PreparedManagementQuestionTurn := MkPreparedTurn {
  prepared_turn : ManagementQuestionTurnInput;
  turn_textSha256 : jsstr;
  turn_canonicalPayload : list Z;
  turn_requestSha256 : jsstr
}.

Definition turn_dueAt (k : TurnKind) : option jsstr :=
  match k with answer => None | follow_up dueAt => Some dueAt end.

Definition turn_json (t : ManagementQuestionTurnInput) : json :=
  JObj [str "schemaVersion" (js "boardagent.management-question-turn.v1");
        str "questionId" (turn_questionId t);
        str "turnKind" (match turnKind t with answer => js "answer" | follow_up _ => js "follow_up" end);
        str "text" (text t); (js "citations", JArr (map citation_json (turn_citations t)));
        nullable "dueAt" (turn_dueAt (turnKind t))].

Definition prepareManagementQuestionTurn (input : ManagementQuestionTurnInput)
    : result PreparedManagementQuestionTurn :=
  questionId ← UuidV7Schema (turn_questionId input);
  text ← canonicalNonblank (text input) "management question turn";
  citations ← normalizedCitations (turn_citations input);
  kind ← match turnKind input with
         | follow_up dueAt => follow_up <$> Rfc3339UtcSchema dueAt
         | answer => Ok answer
         end;
  let t := MkTurn questionId text citations kind in
  payload ← canonicalJson (turn_json t);
  request ← canonicalSha256 (turn_json t);
  Ok (MkPreparedTurn t (sha256Hex text) (utf8_encode payload) request).
End questions.

(** ** Lemmas *)

Lemma map_set_same {V} (m : list (jsstr * V)) k v : map_get m k = Some v -> map_set m k v = m.
Proof.
  induction m as [|[k' v'] m IH]; cbn [map_get map_set]; [done|].
  case_decide as Hk; [by intros [= ->]; subst|]. intros Hg. by rewrite IH.
Qed.

Lemma grant_key_inj g h : grant_key g = grant_key h -> g = h.
Proof.
  destruct g as [a|a], h as [b|b]; cbn [grant_key]; intros E; try done.
  - apply app_inv_head in E. by subst.
  - apply app_inv_head in E. by subst.
Qed.

Definition grant_ok (g : QuestionVisibilityGrant) : bool :=
  match g with MemberGrant id => is_uuid_v7 id | SeatRoleGrant role => includes seatRoles role end.

Definition grant_entry (g : QuestionVisibilityGrant) : jsstr * QuestionVisibilityGrant := (grant_key g, g).

(** The sorted grants of a list: each once. *)
Definition grants_of (l : list QuestionVisibilityGrant) (k : list QuestionVisibilityGrant) : Prop :=
  NoDup k /\ StronglySorted (fun a b => cmp_units (grant_key a) (grant_key b) <= 0) k /\
  forall g, g ∈ k <-> g ∈ l.

Lemma grants_of_unique l l' k k' : (forall g, g ∈ l <-> g ∈ l') -> grants_of l k -> grants_of l' k' -> k = k'.
Proof.
  intros Hl (Hd & Hs & Hin) (Hd' & Hs' & Hin').
  apply (sorted_perm_eq (fun a b => cmp_units (grant_key a) (grant_key b))); try done.
  - intros a b _ _ Hab Hba. by apply grant_key_inj, cmp_units_antisym.
  - apply NoDup_Permutation; try done. intros g. by rewrite Hin, Hin'.
Qed.

Section question_facts.
Context `{Platform}.

Lemma normalize_grant_ok m g m' : normalize_grant m g = Ok m' <->
  grant_ok g = true /\ m' = map_set m (grant_key g) g.
Proof.
  destruct g as [id|role]; cbn [normalize_grant grant_ok grant_key].
  - unfold UuidV7Schema, parse. destruct (is_uuid_v7 id); cbn; [|split; [done|by intros []]].
    split; [by intros [= <-]|by intros [_ ->]].
  - destruct (includes seatRoles role); cbn [negb]; [|split; [done|by intros []]].
    split; [by intros [= <-]|by intros [_ ->]].
Qed.

(** The loop collects an entry per grant, in the order of first occurrence. *)
Lemma grants_loop l : forall s m, forM normalize_grant (map grant_entry s) l = Ok m ->
  NoDup s -> Forall (fun g => grant_ok g = true) l /\
  exists k, m = map grant_entry k /\ NoDup k /\ forall g, g ∈ k <-> g ∈ s \/ g ∈ l.
Proof.
  induction l as [|g l IH]; intros s m E Hd; cbn [forM] in E.
  { injection E as <-. split; [constructor|]. exists s. split_and!; try done. intros h. set_solver. }
  apply bind_ok in E as (m1 & [Hg ->]%normalize_grant_ok & E).
  assert (exists s', map_set (map grant_entry s) (grant_key g) g = map grant_entry s' /\ NoDup s' /\
    forall h, h ∈ s' <-> h ∈ s \/ h = g) as (s' & Es & Hd' & Hs').
  { destruct (decide (g ∈ s)) as [Hin|Hin].
    - exists s. split_and!; [|done|set_solver]. apply map_set_same, map_get_nodup.
      + rewrite <- list_fmap_compose. apply NoDup_fmap_2; [|done]. intros a b. apply grant_key_inj.
      + by apply (list_elem_of_fmap_2 grant_entry).
    - exists (s ++ [g]). split_and!.
      + rewrite map_set_fresh, map_app; [done|]. apply map_get_none. rewrite <- list_fmap_compose.
        intros (h & Eh & Hh)%list_elem_of_fmap. cbn in Eh. apply grant_key_inj in Eh. by subst.
      + apply NoDup_app. split_and!; [done| |apply NoDup_singleton]. set_solver.
      + set_solver. }
  rewrite Es in E. destruct (IH s' m E Hd') as (Hl & k & -> & Hk & Hin). split; [by constructor|].
  exists k. split_and!; try done. intros h. rewrite Hin, Hs'. set_solver.
Qed.

Lemma grants_loop_total l : Forall (fun g => grant_ok g = true) l ->
  forall m, exists m', forM normalize_grant m l = Ok m'.
Proof.
  induction 1 as [|g l Hg _ IH]; intros m; [by exists m|]. cbn [forM].
  rewrite (proj2 (normalize_grant_ok m g _)) by done. apply IH.
Qed.

Lemma normalizedVisibility_ok l k : normalizedVisibility l = Ok k <->
  (1 <= length l <= 1003)%nat /\ Forall (fun g => grant_ok g = true) l /\ grants_of l k.
Proof.
  assert (forall m, forM normalize_grant [] l = Ok m -> Forall (fun g => grant_ok g = true) l /\
    grants_of l (map snd (toSorted by_key m))) as Hloop.
  { intros m Em. destruct (grants_loop l [] m Em NoDup_nil_2) as (Hg & s & -> & Hd & Hin). split; [done|].
    assert (map snd (toSorted by_key (map grant_entry s)) ≡ₚ s) as Hp.
    { rewrite (Permutation_map snd (toSorted_perm by_key _)), map_map. by rewrite map_id. }
    split_and!; [by rewrite Hp| |intros g; rewrite Hp, Hin; set_solver].
    assert (forall kv, kv ∈ toSorted by_key (map grant_entry s) -> kv.1 = grant_key kv.2) as Hkv.
    { intros kv. rewrite (toSorted_perm by_key). by intros (g & -> & _)%list_elem_of_fmap. }
    pose proof (toSorted_sorted by_key ltac:(intros *; apply cmp_units_total)
      ltac:(intros *; apply cmp_units_trans) (map grant_entry s)) as Hs.
    revert Hkv Hs. generalize (toSorted by_key (map grant_entry s)). clear. intros sorted Hkv Hs.
    induction Hs as [|a t Hs IH Ha]; cbn [map]; constructor.
    - apply IH. intros kv Hin'. apply Hkv. by right.
    - rewrite List.Forall_forall in *. intros g (b & <- & Hb)%in_map_iff. specialize (Ha b Hb).
      unfold cmp_le, by_key, localeCompare in Ha. rewrite !Hkv in Ha; [done| |by left].
      right. by apply list_elem_of_In. }
  unfold normalizedVisibility. split.
  - destruct (_ || _) eqn:Hc; [done|]. intros E. apply bind_ok in E as (m & Em & [= <-]). boolify.
    destruct (Hloop m Em). split_and!; try done; lia.
  - intros (Hl & Hg & Hk). destruct (grants_loop_total l Hg []) as [m Em]. rewrite Em.
    replace (_ || _) with false by (symmetry; apply orb_false_iff; rewrite !Z.ltb_ge; lia).
    cbn. f_equal. destruct (Hloop m Em) as [_ Hk']. by eapply grants_of_unique.
Qed.

Lemma uuids_parsed l k : mapR UuidV7Schema l = Ok k <-> k = l /\ Forall (fun s => is_uuid_v7 s = true) l.
Proof.
  revert k. induction l as [|c l IH]; intros k; cbn [mapR].
  { split; [by intros [= <-]|by intros [-> _]]. }
  rewrite Forall_cons. split.
  - intros E. inv_ok. match goal with H : mapR _ l = Ok _ |- _ => apply IH in H as [-> Hl] end.
    match goal with H : UuidV7Schema c = Ok _ |- _ => apply parse_ok in H as [-> Hc] end. by subst.
  - intros (-> & Hc & Hl). rewrite (proj2 (IH l)) by done. unfold UuidV7Schema, parse. by rewrite Hc.
Qed.

(** The sorted owners of a list: each once. *)
Definition owners_of (l k : list jsstr) : Prop :=
  NoDup k /\ StronglySorted (cmp_le cmp_units) k /\ forall m, m ∈ k <-> m ∈ l.

Lemma owners_of_unique l l' k k' : (forall m, m ∈ l <-> m ∈ l') -> owners_of l k -> owners_of l' k' -> k = k'.
Proof.
  intros Hl (Hd & Hs & Hin) (Hd' & Hs' & Hin'). apply (sorted_perm_eq cmp_units); try done.
  - intros a b _ _. apply cmp_units_antisym.
  - apply NoDup_Permutation; try done. intros m. by rewrite Hin, Hin'.
Qed.

Lemma normalizedOwners_ok l k : normalizedOwners l = Ok k <->
  (1 <= length l <= 1000)%nat /\ Forall (fun s => is_uuid_v7 s = true) l /\ owners_of l k.
Proof.
  assert (owners_of l (toSorted cmp_units (set_of l))) as Ho.
  { destruct (set_of_spec l) as [Hd Hin]. split_and!.
    - by rewrite (toSorted_perm cmp_units).
    - apply sort_units_sorted.
    - intros m. by rewrite (toSorted_perm cmp_units). }
  unfold normalizedOwners. split.
  - destruct (_ || _) eqn:Hc; [done|]. intros E. apply bind_ok in E as (m & [-> Hu]%uuids_parsed & [= <-]).
    boolify. split_and!; try done; lia.
  - intros (Hl & Hu & Hk).
    replace (_ || _) with false by (symmetry; apply orb_false_iff; rewrite !Z.ltb_ge; lia).
    rewrite (proj2 (uuids_parsed l l)) by done. cbn. f_equal. by eapply owners_of_unique.
Qed.

Lemma canonicalNonblank_ok s label t : canonicalNonblank s label = Ok t ->
  t = s /\ forallb is_space s = false.
Proof.
  unfold canonicalNonblank. intros E. apply bind_ok in E as (u & Hu & E).
  pose proof (canonicalText_id _ _ Hu) as ->. repeat case_match; try done. injection E as <-. split; [done|].
  apply not_true_is_false. intros Hb%trim_nil. match goal with H : (js_length (trim s) =? 0) = false |- _ =>
    rewrite Hb in H; done end.
Qed.

Lemma normalizedCitations_ok l k : normalizedCitations l = Ok k -> k = l.
Proof. unfold normalizedCitations. case_match; [done|]. by intros [-> _]%parse_citations. Qed.

(** The same question up to the order and repetition of owners and grants. *)
Record same_question (a b : ManagementQuestionInput) : Prop := {
  sq_id : questionId a = questionId b;
  sq_board : boardId a = boardId b;
  sq_text : question a = question b;
  sq_due : dueAt a = dueAt b;
  sq_citations : citations a = citations b;
  sq_owners : forall m, m ∈ assignedOwnerIds a <-> m ∈ assignedOwnerIds b;
  sq_grants : forall g, g ∈ visibility a <-> g ∈ visibility b
}.

Definition within_limits (i : ManagementQuestionInput) : Prop :=
  (length (assignedOwnerIds i) <= 1000)%nat /\ (length (visibility i) <= 1003)%nat.

Lemma prepare_ok i p : prepareManagementQuestion i = Ok p -> same_question i (prepared p) /\
  owners_of (assignedOwnerIds i) (assignedOwnerIds (prepared p)) /\
  grants_of (visibility i) (visibility (prepared p)) /\
  forallb is_space (question i) = false /\ textSha256 p = sha256Hex (question i) /\
  exists s, canonicalJson (question_json (prepared p)) = Ok s /\ canonicalPayload p = utf8_encode s /\
    requestSha256 p = sha256Hex s.
Proof.
  unfold prepareManagementQuestion, UuidV7Schema, Rfc3339UtcSchema. intros E.
  repeat (apply bind_ok in E as (? & ? & E)).
  repeat match goal with
  | H : parse _ _ _ = Ok _ |- _ => apply parse_ok in H as [-> _]
  | H : canonicalNonblank _ _ = Ok _ |- _ => apply canonicalNonblank_ok in H as [-> ?]
  | H : normalizedCitations _ = Ok _ |- _ => apply normalizedCitations_ok in H as ->
  | H : normalizedOwners _ = Ok _ |- _ => apply normalizedOwners_ok in H as (_ & _ & Ho)
  | H : normalizedVisibility _ = Ok _ |- _ => apply normalizedVisibility_ok in H as (_ & _ & Hv)
  end.
  injection E as <-. cbn [prepared textSha256 canonicalPayload requestSha256 assignedOwnerIds visibility].
  match goal with H : canonicalSha256 _ = Ok _ |- _ =>
    unfold canonicalSha256 in H; apply fmap_ok in H as (t & Ht & ->) end.
  split_and!; try done.
  - split; try done; intros x; symmetry; [apply Ho|apply Hv].
  - match goal with H : canonicalJson _ = Ok ?u |- context [utf8_encode ?u] =>
      assert (u = t) as -> by congruence end. by exists t.
Qed.

Lemma same_nonempty {A} (l k : list A) : (forall x, x ∈ l <-> x ∈ k) -> (1 <= length l)%nat -> (1 <= length k)%nat.
Proof.
  destruct l as [|x l], k as [|y k]; cbn; try lia. intros Hl. exfalso.
  apply (not_elem_of_nil x), Hl. by left.
Qed.

Lemma same_forall {A} (P : A -> Prop) l k : (forall x, x ∈ l <-> x ∈ k) -> Forall P l -> Forall P k.
Proof. rewrite !Forall_forall. intros Hl Hp x Hx. by apply Hp, Hl. Qed.

Lemma owners_same l l' k : (forall m, m ∈ l <-> m ∈ l') -> (length l' <= 1000)%nat ->
  normalizedOwners l = Ok k -> normalizedOwners l' = Ok k.
Proof.
  intros Hs Hl (Hn & Hu & Ho)%normalizedOwners_ok. apply normalizedOwners_ok. split_and!; [|done| |].
  - apply (same_nonempty l l' Hs). lia.
  - by eapply same_forall.
  - destruct Ho as (Hd & Hsort & Hin). split_and!; try done. intros m. by rewrite Hin.
Qed.

Lemma grants_same l l' k : (forall g, g ∈ l <-> g ∈ l') -> (length l' <= 1003)%nat ->
  normalizedVisibility l = Ok k -> normalizedVisibility l' = Ok k.
Proof.
  intros Hs Hl (Hn & Hu & Ho)%normalizedVisibility_ok. apply normalizedVisibility_ok. split_and!; [|done| |].
  - apply (same_nonempty l l' Hs). lia.
  - by eapply same_forall.
  - destruct Ho as (Hd & Hsort & Hin). split_and!; try done. intros m. by rewrite Hin.
Qed.

Lemma prepare_same i j p : same_question i j -> within_limits j ->
  prepareManagementQuestion i = Ok p -> prepareManagementQuestion j = Ok p.
Proof.
  intros [E1 E2 E3 E4 E5 Ho Hg] [Lo Lv]. unfold prepareManagementQuestion.
  rewrite E1, E2, E3, E4, E5. intros E.
  repeat (apply bind_ok in E as (? & ? & E)).
  repeat match goal with
  | H : normalizedOwners (assignedOwnerIds i) = Ok _ |- _ => apply (owners_same _ _ _ Ho Lo) in H
  | H : normalizedVisibility (visibility i) = Ok _ |- _ => apply (grants_same _ _ _ Hg Lv) in H
  end.
  repeat match goal with H : ?m = Ok _ |- context [?m] => rewrite H; cbn [mbind result_bind]; clear H end.
  done.
Qed.

(** ** The digest *)

Lemma grant_json_plain g : json_plain (grant_json g) = true.
Proof. destruct g; cbn [grant_json]; obj_plain. Qed.

Lemma grant_json_inj a b : sort_json (grant_json a) = sort_json (grant_json b) -> a = b.
Proof.
  destruct a as [x|x], b as [y|y]; cbn [grant_json]; intros E.
  - split_members E. by subst.
  - exfalso. apply (sort_json_obj_get _ _ (js "granteeType")) in E; [vm_compute in E; discriminate E|..];
      apply (bool_decide_unpack _); vm_compute; exact I.
  - exfalso. apply (sort_json_obj_get _ _ (js "granteeType")) in E; [vm_compute in E; discriminate E|..];
      apply (bool_decide_unpack _); vm_compute; exact I.
  - split_members E. by subst.
Qed.

Lemma question_plain q : json_plain (question_json q) = true.
Proof.
  obj_plain.
  - apply arr_plain. done.
  - apply arr_plain. intros. apply citation_plain.
  - obj_plain. apply arr_plain. intros. apply grant_json_plain.
Qed.

Lemma question_json_inj a b : sort_json (question_json a) = sort_json (question_json b) -> a = b.
Proof.
  intros E. unfold question_json in E. split_members E.
  match goal with F : sort_json (JObj _) = sort_json (JObj _) |- _ => split_members F end.
  repeat match goal with
  | F : sort_json (JArr (map JStr _)) = _ |- _ => apply sort_json_arr, (jstr_list_inj JStr _ _ sort_str_inj) in F
  | F : sort_json (JArr (map citation_json _)) = _ |- _ => apply citations_json_inj in F
  | F : sort_json (JArr (map grant_json _)) = _ |- _ =>
      apply sort_json_arr, (jstr_list_inj grant_json _ _ grant_json_inj) in F
  end.
  destruct a, b; cbn in *; by subst.
Qed.

(** A prepared question is a set-like canonical form. Its owners and its
    grants are those of the input, in order and once each; the payload is what
    the request digest is taken of; the same question with owners and grants in
    any order and repetition, within the limits, is prepared to the same value;
    and two prepared questions with one digest are the same, or their payloads
    are an explicit SHA-256 collision. *)
Theorem question_canonical i p : prepareManagementQuestion i = Ok p ->
  owners_of (assignedOwnerIds i) (assignedOwnerIds (prepared p)) /\
  grants_of (visibility i) (visibility (prepared p)) /\
  sha256HexBytes (canonicalPayload p) = requestSha256 p /\
  (forall j, same_question i j -> within_limits j -> prepareManagementQuestion j = Ok p) /\
  (forall j q, prepareManagementQuestion j = Ok q -> requestSha256 q = requestSha256 p ->
     q = p \/ collision (canonicalPayload q) (canonicalPayload p)).
Proof.
  intros E. pose proof (prepare_ok _ _ E) as (Hq & Ho & Hg & _ & Et & s & Es & Ep & Er).
  split_and!; try done; [by rewrite Ep, Er|by intros j Hj Hl; eapply prepare_same|].
  intros j q (Hq' & _ & _ & _ & Et' & s' & Es' & Ep' & Er')%prepare_ok Eh. rewrite Ep, Ep'.
  pose proof (question_plain (prepared p)) as Pp. pose proof (question_plain (prepared q)) as Pq.
  destruct (canonical_bytes_text _ _ Pp Es) as [Bp Dp]. destruct (canonical_bytes_text _ _ Pq Es') as [Bq Dq].
  rewrite <- Er in Dp. rewrite <- Er', Eh in Dq. rewrite <- Bp, <- Bq.
  destruct (canonicalSha256_plain _ _ _ Pq Pp Dq Dp) as [E'|Hc]; [left|by right].
  apply question_json_inj in E'. assert (question i = question j) as Ex.
  { rewrite (sq_text _ _ Hq), (sq_text _ _ Hq'). by rewrite E'. }
  rewrite E' in Es'. assert (s' = s) as -> by congruence.
  destruct p, q. cbn in *. congruence.
Qed.

(** ** Turns *)

Lemma turn_plain t : json_plain (turn_json t) = true.
Proof. obj_plain. apply arr_plain. intros. apply citation_plain. Qed.

Lemma turn_json_inj a b : sort_json (turn_json a) = sort_json (turn_json b) -> a = b.
Proof.
  intros E. unfold turn_json in E. split_members E.
  match goal with F : sort_json (JArr _) = _ |- _ => apply citations_json_inj in F end.
  destruct a as [q t c [|d]], b as [q' t' c' [|d']]; cbn in *; by simplify_eq.
Qed.

(** A prepared turn is its input; its request digest is taken of its payload
    and determines it, up to an explicit collision. *)
Theorem turn_canonical i p : prepareManagementQuestionTurn i = Ok p ->
  prepared_turn p = i /\ forallb is_space (text i) = false /\
  sha256HexBytes (turn_canonicalPayload p) = turn_requestSha256 p /\
  (forall j q, prepareManagementQuestionTurn j = Ok q -> turn_requestSha256 q = turn_requestSha256 p ->
     j = i \/ collision (turn_canonicalPayload q) (turn_canonicalPayload p)).
Proof.
  assert (forall i p, prepareManagementQuestionTurn i = Ok p -> prepared_turn p = i /\
    forallb is_space (text i) = false /\
    turn_canonicalPayload p = canonical_bytes (turn_json i) /\
    canonicalSha256 (turn_json i) = Ok (turn_requestSha256 p)) as Hprep.
  { clear. intros i p E. unfold prepareManagementQuestionTurn, UuidV7Schema in E.
    repeat (apply bind_ok in E as (? & ? & E)).
    repeat match goal with
    | H : parse _ _ _ = Ok _ |- _ => apply parse_ok in H as [-> _]
    | H : canonicalNonblank _ _ = Ok _ |- _ => apply canonicalNonblank_ok in H as [-> ?]
    | H : normalizedCitations _ = Ok _ |- _ => apply normalizedCitations_ok in H as ->
    end.
    match goal with H : match turnKind i with _ => _ end = Ok ?k |- _ =>
      assert (k = turnKind i) as -> by (destruct (turnKind i); inv_parse; done) end.
    injection E as <-. cbn [prepared_turn turn_canonicalPayload turn_requestSha256].
    replace (MkTurn (turn_questionId i) (text i) (turn_citations i) (turnKind i)) with i in * by by destruct i.
    split_and!; try done.
    match goal with H : canonicalJson _ = Ok _ |- _ => by apply canonical_bytes_text in H as [-> _]; [|apply turn_plain] end. }
  intros (Ei & Hb & Ep & Er)%Hprep. split_and!; try done.
  - unfold canonicalSha256 in Er. apply fmap_ok in Er as (t & Ht & ->).
    destruct (canonical_bytes_text _ _ (turn_plain i) Ht) as [Bt _]. by rewrite Ep, Bt.
  - intros j q (_ & _ & Eq & Er')%Hprep Eh. rewrite Ep, Eq. rewrite Eh in Er'.
    destruct (canonicalSha256_plain _ _ _ (turn_plain j) (turn_plain i) Er' Er) as [E|]; [left|by right].
    by apply turn_json_inj.
Qed.
End question_facts.

(** ** A concrete question *)

Definition sample_question : ManagementQuestionInput :=
  MkQuestion sample_id sample_id (js "What changed?") [sample_id; sample_id] (js "2026-02-01T00:00:00Z") []
    [SeatRoleGrant (js "observer"); MemberGrant sample_id; SeatRoleGrant (js "management");
     SeatRoleGrant (js "observer")].

Definition sample_prepared : PreparedManagementQuestion :=
  catch (@prepareManagementQuestion plain_platform sample_question) (MkPrepared sample_question [] [] []).

Lemma question_canonical_witness :
  visibility (prepared sample_prepared)
  = [MemberGrant sample_id; SeatRoleGrant (js "management"); SeatRoleGrant (js "observer")] /\
  sha256HexBytes (canonicalPayload sample_prepared) = requestSha256 sample_prepared.
Proof.
  assert (@prepareManagementQuestion plain_platform sample_question = Ok sample_prepared) as E
    by (vm_compute; reflexivity).
  split; [vm_compute; reflexivity|].
  exact (proj1 (proj2 (proj2 (@question_canonical plain_platform sample_question sample_prepared E)))).
Defined.
