(* ===== verification/Request.v ===== *)
(** * Database transactions of a request

    lib/db/src/context.ts and transactions/request-context.ts: the context a
    request transaction is bound to, its settings, one attempt at the
    transaction, and the replay of conflicting attempts. *)

From stdpp Require Import base numbers sorting strings list.
From Stdlib Require Import Lia.
From S2P Require Import Prelude JsString Encoding JsNumber Json JsonParse JsonCanon Schemas.

Local Open Scope Z_scope.

(** ** The context *)

Record RequestDatabaseContext := MkContext {
  organizationId : jsstr;
  memberId : jsstr;
  clientId : jsstr;
  tokenJti : jsstr;
  boardIds : list jsstr
}.

Definition context_json (c : RequestDatabaseContext) : json :=
  JObj [str "organizationId" (organizationId c); str "memberId" (memberId c);
        str "clientId" (clientId c); str "tokenJti" (tokenJti c);
        (js "boardIds", JArr (map JStr (boardIds c)))].

Definition normalizeRequestDatabaseContext `{Platform} (context : RequestDatabaseContext)
    : result (RequestDatabaseContext * jsstr) :=
  organization ← UuidV7Schema (organizationId context);
  member ← UuidV7Schema (memberId context);
  client ← UuidV7Schema (clientId context);
  jti ← UuidV7Schema (tokenJti context);
  boards ← mapR UuidV7Schema (boardIds context);
  let boards := toSorted cmp_units (set_of boards) in
  throw_if (25 <? Z.of_nat (length boards))
    (RangeError "request context exceeds the 25-board deployment limit" []) ≫= fun _ =>
  let normalized := MkContext organization member client jti boards in
  sha256 ← canonicalSha256 (context_json normalized);
  Ok (normalized, sha256).

(** ** The settings of a transaction *)

(** The settings [set_config] installs, with the clock of the transaction. A
    setting that was not installed reads as the empty text. *)
Record Session := MkSession {
  transaction_timestamp : Z;
  set_organization_id : jsstr;
  set_member_id : jsstr;
  set_client_id : jsstr;
  set_token_jti : jsstr;
  set_board_ids : list jsstr;
  set_context_sha256 : jsstr;
  transaction_scope : jsstr
}.

(** The session before any setting is installed. *)
Definition new_session (clock : Z) : Session := MkSession clock [] [] [] [] [] [] [].

Definition installLocalContext (clock : Z) (context : RequestDatabaseContext * jsstr) : Session :=
  let '(c, sha256) := context in
  MkSession clock (organizationId c) (memberId c) (clientId c) (tokenJti c) (boardIds c) sha256
    (js "request").

(** [boardagent_context_uuid]: lower case, any version, RFC variant. *)
Definition uuid_units : list (Z -> bool) :=
  replicate 8 is_hex ++ [is_char 45] ++ replicate 4 is_hex ++ [is_char 45]
  ++ replicate 4 is_hex ++ [is_char 45]
  ++ [fun c => (c =? 56) || (c =? 57) || (c =? 97) || (c =? 98)] ++ replicate 3 is_hex
  ++ [is_char 45] ++ replicate 12 is_hex.

Definition boardagent_context_uuid (setting : jsstr) : option jsstr :=
  if match_units uuid_units setting then Some setting else None.

(** [board_exclusions]: one version of the recusal of a member from a board. *)
Record BoardExclusion := MkBoardExclusion {
  be_organization : jsstr;
  be_board : jsstr;
  be_member : jsstr;
  be_version : Z;
  be_excluded : bool
}.

(** [order by version desc limit 1] *)
Fixpoint latest {A} (version : A -> Z) (rows : list A) : option A :=
  match rows with
  | [] => None
  | r :: rows' =>
      match latest version rows' with
      | Some q => if version r <? version q then Some q else Some r
      | None => Some r
      end
  end.

(** Of the current organization; a setting that is not there matches no row. *)
Definition boardagent_member_board_recused (exclusions : list BoardExclusion) (session : Session)
    (board : jsstr) (member : option jsstr) : bool :=
  match latest be_version
          (List.filter (fun e => bool_decide (Some (be_organization e) = boardagent_context_uuid (set_organization_id session))
                          && bool_decide (be_board e = board) && bool_decide (Some (be_member e) = member)) exclusions) with
  | Some e => be_excluded e
  | None => false
  end.

(** After migration 0148. *)
Definition boardagent_context_board_allowed (exclusions : list BoardExclusion) (session : Session)
    (board : option jsstr) : bool :=
  match board with
  | Some b => negb (boardagent_member_board_recused exclusions session b
                      (boardagent_context_uuid (set_member_id session)))
              && bool_decide (b ∈ set_board_ids session)
  | None => false
  end.

Record ActiveRequestContext := MkActive {
  ac_organizationId : jsstr;
  ac_memberId : jsstr;
  ac_clientId : jsstr;
  ac_tokenJti : jsstr
}.

Definition readRequestContext (session : Session) : result ActiveRequestContext :=
  match boardagent_context_uuid (set_organization_id session), boardagent_context_uuid (set_member_id session),
        boardagent_context_uuid (set_client_id session), boardagent_context_uuid (set_token_jti session) with
  | Some organization, Some member, Some client, Some jti => Ok (MkActive organization member client jti)
  | _, _, _, _ => Throw (JsError "managed request context is unavailable" [])
  end.

Definition currentContextSha256 (session : Session) : result jsstr :=
  match set_context_sha256 session with
  | [] => Throw (JsError "managed request context hash is unavailable" [])
  | value => Sha256HexSchema value
  end.

(** ** Transactions *)

(** Code that runs in a transaction: it reads the session, and reads and writes
    the database. What throws leaves no database: the transaction rolls back. *)
Definition Tx (Db A : Type) : Type := Session -> Db -> result (A * Db).

Section tx.
Context {Db : Type}.

#[export] Instance tx_ret : MRet (Tx Db) := fun A a _ db => Ok (a, db).
#[export] Instance tx_bind : MBind (Tx Db) := fun A B f m session db =>
  match m session db with
  | Ok (a, db') => f a session db'
  | Throw e => Throw e
  end.

Definition lift {A} (r : result A) : Tx Db A := fun _ db => a ← r; Ok (a, db).
Definition ask : Tx Db Session := fun session db => Ok (session, db).
Definition get : Tx Db Db := fun _ db => Ok (db, db).
Definition put (db : Db) : Tx Db unit := fun _ _ => Ok (tt, db).
Definition fail {A} (e : exn) : Tx Db A := fun _ _ => Throw e.
Definition fail_if (b : bool) (e : exn) : Tx Db unit := if b then fail e else mret tt.
(** A constraint or a policy of the database, with its SQLSTATE. *)
Definition db_check (b : bool) (code : string) : Tx Db unit := fail_if (negb b) (DatabaseError code).
End tx.

(** ** Running them *)

Inductive Isolation := read_committed | repeatable_read | serializable.

#[export] Instance Isolation_eq : EqDecision Isolation.
Proof. solve_decision. Defined.

Record TransactionOptions := MkOptions {
  isolation : option Isolation;
  lockTimeoutMs : option jsnum;
  statementTimeoutMs : option jsnum;
  retryConflicts : option bool
}.

Definition or_else {A} (o : option A) (d : A) : A := match o with Some a => a | None => d end.

Definition boundedMilliseconds (value : option jsnum) (fallback : Z) : result jsnum :=
  let selected := or_else value (NInt fallback) in
  throw_if (negb (isSafeInteger selected) || num_lt selected (NInt 1) || num_lt (NInt 60000) selected)
    (RangeError "database timeout must be an integer from 1 through 60000 milliseconds" []) ≫= fun _ =>
  Ok selected.

Definition SERIALIZABLE_ATTEMPT_LIMIT : nat := 100.

Definition retryableTransactionError (e : exn) : bool :=
  match e with
  | DatabaseError code => bool_decide (code = "40001"%string) || bool_decide (code = "40P01"%string)
  | _ => false
  end.

(** What surrounds one attempt: the clock and the database it starts on, its
    connection (what [connect], [begin] and the settings answer), the runtime
    lease, the health of the connection before the commit, and the commit. *)
Record Attempt (Db : Type) := MkAttempt {
  at_clock : Z;
  at_database : Db;
  at_begin : result unit;
  at_lease : result unit;
  at_available : result unit;
  at_commit : result unit
}.
Arguments MkAttempt {Db} _ _ _ _ _ _.
Arguments at_clock {Db} _.
Arguments at_database {Db} _.
Arguments at_begin {Db} _.
Arguments at_lease {Db} _.
Arguments at_available {Db} _.
Arguments at_commit {Db} _.

Section runner.
Context {Db A : Type}.

(** One transaction, from [begin] to [commit]: [setup] are the settings it
    installs before it runs. What throws rolls back, so that the database the
    attempt started on is the database it leaves. *)
Definition run_attempt (at_ : Attempt Db) (setup : Z -> result Session) (run : Tx Db A) : result (A * Db) :=
  at_begin at_ ≫= fun _ =>
  at_lease at_ ≫= fun _ =>
  session ← setup (at_clock at_);
  r ← run session (at_database at_);
  at_available at_ ≫= fun _ =>
  at_commit at_ ≫= fun _ =>
  Ok r.

Definition runRequestTransactionAttempt (at_ : Attempt Db) (context : RequestDatabaseContext * jsstr)
    (run : Tx Db A) : result (A * Db) :=
  run_attempt at_ (fun clock => Ok (installLocalContext clock context)) run.

(** The loop over the attempts number [attempt], [attempt + 1], .. with [limit]
    of them left; the number of the last attempt comes with the outcome. *)
Fixpoint replay (limit attempt : nat) (once : nat -> result (A * Db)) : result (A * Db) * nat :=
  match limit with
  | O => (Throw (JsError "transaction exhausted without a result" []), attempt)
  | S limit' =>
      match once attempt with
      | Ok r => (Ok r, attempt)
      | Throw e =>
          if (limit' =? 0)%nat || negb (retryableTransactionError e) then (Throw e, attempt)
          else replay limit' (S attempt) once
      end
  end.

Definition attempt_limit (options : TransactionOptions) : nat :=
  if bool_decide (or_else (isolation options) read_committed = serializable)
     || or_else (retryConflicts options) false
  then SERIALIZABLE_ATTEMPT_LIMIT else 1.

(** The number of attempts is zero when the context or an option is refused. *)
Definition withRequestTransaction `{Platform} (attempts : nat -> Attempt Db)
    (rawContext : RequestDatabaseContext) (run : Tx Db A) (options : TransactionOptions)
    : result (A * Db) * nat :=
  match context ← normalizeRequestDatabaseContext rawContext;
        boundedMilliseconds (lockTimeoutMs options) 10000 ≫= fun _ =>
        boundedMilliseconds (statementTimeoutMs options) 30000 ≫= fun _ =>
        Ok context with
  | Throw e => (Throw e, 0%nat)
  | Ok context =>
      replay (attempt_limit options) 1
        (fun attempt => runRequestTransactionAttempt (attempts attempt) context run)
  end.

Definition withWorkerTransaction (at_ : Attempt Db) (run : Tx Db A) (options : TransactionOptions)
    : result (A * Db) :=
  boundedMilliseconds (lockTimeoutMs options) 10000 ≫= fun _ =>
  boundedMilliseconds (statementTimeoutMs options) 30000 ≫= fun _ =>
  run_attempt at_ (fun clock => Ok (MkSession clock [] [] [] [] [] [] (js "worker"))) run.

Inductive ScopedTransaction := bootstrap_scope | identity_scope.

(** The settings of a scoped transaction: a bootstrap has no context. *)
Definition scoped_session (scope : ScopedTransaction) (context : option (jsstr * list jsstr)) (clock : Z)
    : result Session :=
  let name := match scope with bootstrap_scope => js "bootstrap" | identity_scope => js "identity" end in
  match context with
  | None => Ok (MkSession clock [] [] [] [] [] [] name)
  | Some (organization, boards) =>
      organization ← UuidV7Schema organization;
      boards ← mapR UuidV7Schema boards;
      let boards := toSorted cmp_units (set_of boards) in
      throw_if (25 <? Z.of_nat (length boards))
        (RangeError "identity context exceeds the 25-board deployment limit" []) ≫= fun _ =>
      Ok (MkSession clock organization [] [] [] boards [] name)
  end.

Definition withScopedTransaction (scope : ScopedTransaction) (context : option (jsstr * list jsstr))
    (attempts : nat -> Attempt Db) (run : Tx Db A) (options : TransactionOptions)
    : result (A * Db) * nat :=
  let isolation := match scope with
                   | identity_scope => or_else (isolation options) serializable
                   | bootstrap_scope => serializable
                   end in
  match boundedMilliseconds (lockTimeoutMs options) 10000 ≫= fun _ =>
        boundedMilliseconds (statementTimeoutMs options) 30000 with
  | Throw e => (Throw e, 0%nat)
  | Ok _ =>
      replay (if bool_decide (isolation = serializable) then SERIALIZABLE_ATTEMPT_LIMIT else 1) 1
        (fun attempt => run_attempt (attempts attempt) (scoped_session scope context) run)
  end.
End runner.

(** ** Properties *)

Lemma match_units_impl ps qs s :
  Forall2 (fun p q : Z -> bool => forall c, p c = true -> q c = true) ps qs ->
  match_units ps s = true -> match_units qs s = true.
Proof.
  intros Hpq. revert s. induction Hpq as [|p q ps qs Hp _ IH]; intros [|c s]; try done.
  cbn. rewrite !andb_true_iff. intros [Hc Hs]. split; [by apply Hp|by apply IH].
Qed.

(** Every identifier a schema accepted is a setting SQL reads. *)
Lemma uuid_v7_setting s : is_uuid_v7 s = true -> boardagent_context_uuid s = Some s.
Proof.
  intros H. unfold boardagent_context_uuid. rewrite (match_units_impl uuid_v7_units uuid_units s); [done| |done].
  unfold uuid_v7_units, uuid_units. cbn [replicate app].
  repeat (constructor; [intros c; first [exact id|by intros ->%Z.eqb_eq]|]). constructor.
Qed.

Lemma replay_spec {Db A} (once : nat -> result (A * Db)) limit attempt : (0 < limit)%nat ->
  let '(r, n) := replay limit attempt once in
  (attempt <= n < attempt + limit)%nat /\ r = once n /\
  (forall k, (attempt <= k < n)%nat -> exists e, once k = Throw e /\ retryableTransactionError e = true) /\
  (forall e, r = Throw e -> retryableTransactionError e = true -> n = (attempt + limit - 1)%nat).
Proof.
  revert attempt. induction limit as [|limit IH]; intros attempt; [lia|]. intros _. cbn [replay].
  destruct (once attempt) as [a|e] eqn:Eo.
  { split_and!; [lia|lia|done|intros; lia|done]. }
  destruct (Nat.eqb_spec limit 0) as [->|Hl]; cbn [orb].
  { split_and!; [lia|lia|done|intros; lia|intros; lia]. }
  destruct (retryableTransactionError e) eqn:Er; cbn [negb].
  - specialize (IH (S attempt) ltac:(lia)). destruct (replay limit (S attempt) once) as [r n].
    destruct IH as ([] & -> & Hk & He). split_and!; [lia|lia|done| |].
    + intros k Hkn. destruct (decide (k = attempt)) as [->|]; [by exists e|apply Hk; lia].
    + intros e' He' Hr'. rewrite (He e' He' Hr'). lia.
  - split_and!; [lia|lia|done|intros; lia|]. intros e' [= <-] Hr. congruence.
Qed.

(** ** Inversion of transactional code *)

Section tx_lemmas.
Context {Db : Type}.
Implicit Types (s : Session) (db : Db).

Lemma tx_bind_ok {A B} (m : Tx Db A) (f : A -> Tx Db B) s db r :
  (m ≫= f) s db = Ok r <-> exists a db1, m s db = Ok (a, db1) /\ f a s db1 = Ok r.
Proof.
  unfold mbind, tx_bind. destruct (m s db) as [[a db1]|e].
  - split; [intros Hf; by exists a, db1|by intros (? & ? & [= <- <-] & ?)].
  - split; [done|by intros (? & ? & ? & ?)].
Qed.

Lemma tx_ret_ok {A} (a : A) s db r : @mret (Tx Db) _ A a s db = Ok r <-> r = (a, db).
Proof. unfold mret, tx_ret. split; [by intros [= <-]|by intros ->]. Qed.

Lemma lift_ok {A} (m : result A) s db r : lift m s db = Ok r <-> exists a, m = Ok a /\ r = (a, db).
Proof.
  unfold lift. rewrite bind_ok. split; intros (a & -> & E); exists a; (split; [done|]); by inversion E.
Qed.

Lemma ask_ok s db r : ask s db = Ok r <-> r = (s, db).
Proof. unfold ask. split; [by intros [= <-]|by intros ->]. Qed.
Lemma get_ok s db r : get s db = Ok r <-> r = (db, db).
Proof. unfold get. split; [by intros [= <-]|by intros ->]. Qed.
Lemma put_ok s db db' r : put db' s db = Ok r <-> r = (tt, db').
Proof. unfold put. split; [by intros [= <-]|by intros ->]. Qed.

Lemma fail_if_ok b e s db r : fail_if b e s db = Ok r <-> b = false /\ r = (tt, db).
Proof.
  unfold fail_if. destruct b; [by split; [|intros []]|]. rewrite tx_ret_ok. naive_solver.
Qed.

Lemma db_check_ok b code s db r : db_check b code s db = Ok r <-> b = true /\ r = (tt, db).
Proof. unfold db_check. by rewrite fail_if_ok, negb_false_iff. Qed.
End tx_lemmas.

(** Takes a transaction that returned apart, statement by statement. *)
Ltac inv_tx :=
  repeat match goal with
  | H : fail _ _ _ = Ok _ |- _ => discriminate H
  | H : (_, _) = (_, _) |- _ => injection H as ? ?; subst
  | H : mbind _ _ _ _ = Ok _ |- _ => apply tx_bind_ok in H as (? & ? & ? & H)
  | H : mret _ _ _ = Ok _ |- _ => apply tx_ret_ok in H
  | H : lift _ _ _ = Ok _ |- _ => apply lift_ok in H as (? & ? & H)
  | H : ask _ _ = Ok _ |- _ => apply ask_ok in H
  | H : get _ _ = Ok _ |- _ => apply get_ok in H
  | H : put _ _ _ = Ok _ |- _ => apply put_ok in H
  | H : fail_if _ _ _ _ = Ok _ |- _ => apply fail_if_ok in H as [? H]
  | H : db_check _ _ _ _ = Ok _ |- _ => apply db_check_ok in H as [? H]
  end.

(** ** Replay *)

Section replayed.
Context `{Platform} {Db A : Type}.

Lemma mapR_uuids l k : mapR UuidV7Schema l = Ok k -> k = l.
Proof.
  intros Hm%mapR_ok. induction Hm as [|x y l k Hxy _ IH]; [done|]. apply parse_ok in Hxy as [-> _]. by rewrite IH.
Qed.

(** What the transaction of a request is bound to: the identifiers of the
    request, its boards as a set of at most 25, and the digest of both. *)
Record bound_session (raw : RequestDatabaseContext) (clock : Z) (s : Session) : Prop := {
  bs_context : readRequestContext s = Ok (MkActive (organizationId raw) (memberId raw) (clientId raw) (tokenJti raw));
  bs_boards : NoDup (set_board_ids s) /\ (forall b, b ∈ set_board_ids s <-> b ∈ boardIds raw) /\
    Z.of_nat (length (set_board_ids s)) <= 25;
  bs_sha256 : canonicalSha256 (context_json (MkContext (organizationId raw) (memberId raw) (clientId raw)
                (tokenJti raw) (set_board_ids s))) = Ok (set_context_sha256 s);
  bs_scope : transaction_scope s = js "request";
  bs_clock : transaction_timestamp s = clock
}.

Lemma normalize_context_ok raw context sha clock : normalizeRequestDatabaseContext raw = Ok (context, sha) ->
  bound_session raw clock (installLocalContext clock (context, sha)).
Proof.
  unfold normalizeRequestDatabaseContext. intros E. inv_ok. boolify.
  match goal with Hm : mapR _ _ = Ok _ |- _ => apply mapR_uuids in Hm as -> end.
  repeat match goal with Hp : UuidV7Schema _ = Ok _ |- _ => apply parse_ok in Hp as [-> Hp]; apply uuid_v7_setting in Hp end.
  simplify_eq. destruct (set_of_spec (boardIds raw)) as [Hd Hin]. split; cbn; try done.
  - unfold readRequestContext. cbn.
    repeat match goal with Hp : boardagent_context_uuid _ = Some _ |- _ => rewrite Hp; clear Hp end. done.
  - split_and!; [by rewrite (toSorted_perm cmp_units)| |done].
    intros b. by rewrite (toSorted_perm cmp_units).
Qed.

(** A timeout of one millisecond to one minute, if there is one. *)
Definition timeout_ok (value : option jsnum) : Prop :=
  value = None \/ exists z, value = Some (NInt z) /\ 1 <= z <= 60000.

Lemma bounded_timeout value fallback : 1 <= fallback <= 60000 ->
  (exists n, boundedMilliseconds value fallback = Ok n) <-> timeout_ok value.
Proof.
  intros Hf. unfold boundedMilliseconds, timeout_ok.
  assert (forall z, negb (isSafeInteger (NInt z)) || num_lt (NInt z) (NInt 1) || num_lt (NInt 60000) (NInt z) = false
    <-> 1 <= z <= 60000) as Hz.
  { intros z. unfold num_lt, num_le, isSafeInteger. cbn. rewrite !orb_false_iff, !negb_false_iff, !Z.leb_le.
    rewrite safe_Z_spec. unfold MAX_SAFE_INTEGER. lia. }
  destruct value as [[|b| |z|m k]|]; cbn [or_else]; split; try (intros [n E]; inv_ok; done);
    try (by intros [[=]|(z' & [=] & _)]).
  - intros [n E]. inv_ok. right. exists z. split; [done|]. by apply Hz.
  - intros [[=]|(z' & [= <-] & Hb)]. rewrite (proj2 (Hz z) Hb). by eexists.
  - intros _. by left.
  - intros _. rewrite (proj2 (Hz fallback) Hf). by eexists.
Qed.

(** What one attempt answers: everything around the transaction worked, and its
    result is the one of the run on the database it started on; or something
    failed, with that error. *)
Inductive attempt_answers (at_ : Attempt Db) (s : Session) (run : Tx Db A) : result (A * Db) -> Prop :=
  | attempt_commits a db : at_begin at_ = Ok tt -> at_lease at_ = Ok tt -> run s (at_database at_) = Ok (a, db) ->
      at_available at_ = Ok tt -> at_commit at_ = Ok tt -> attempt_answers at_ s run (Ok (a, db))
  | attempt_fails e : at_begin at_ = Throw e \/ at_lease at_ = Throw e \/ run s (at_database at_) = Throw e \/
      at_available at_ = Throw e \/ at_commit at_ = Throw e -> attempt_answers at_ s run (Throw e).

Lemma attempt_answers_ok at_ context run :
  attempt_answers at_ (installLocalContext (at_clock at_) context) run (runRequestTransactionAttempt at_ context run).
Proof.
  unfold runRequestTransactionAttempt, run_attempt. cbn.
  destruct (at_begin at_) as [[]|e] eqn:E1; [|apply attempt_fails; tauto].
  destruct (at_lease at_) as [[]|e] eqn:E2; [|apply attempt_fails; tauto].
  destruct (run _ _) as [[a db]|e] eqn:E3; [|apply attempt_fails; tauto].
  destruct (at_available at_) as [[]|e] eqn:E4; [|apply attempt_fails; tauto].
  destruct (at_commit at_) as [[]|e] eqn:E5; [|apply attempt_fails; tauto]. by constructor.
Qed.

(** A serialization failure or a deadlock. *)
Definition conflict (e : exn) : Prop := e = DatabaseError "40001" \/ e = DatabaseError "40P01".

Lemma conflict_spec e : retryableTransactionError e = true <-> conflict e.
Proof.
  unfold conflict. destruct e; cbn; try (split; [done|by intros []]).
  rewrite orb_true_iff, !bool_decide_eq_true. split; intros [E|E]; [left|right|left|right]; congruence.
Qed.

Definition replayable (options : TransactionOptions) : Prop :=
  isolation options = Some serializable \/ retryConflicts options = Some true.

Lemma attempt_limit_spec options : (replayable options /\ attempt_limit options = 100%nat) \/
  (~ replayable options /\ attempt_limit options = 1%nat).
Proof.
  unfold replayable, attempt_limit, SERIALIZABLE_ATTEMPT_LIMIT.
  destruct (isolation options) as [[]|], (retryConflicts options) as [[]|]; cbn; naive_solver.
Qed.

(** C24. A request transaction runs once, or up to a hundred times when it is
    serializable or asks for replay, and only its last attempt counts. It makes
    no attempt exactly because the context or a timeout is refused. Otherwise
    every attempt is bound to the normalized context, which the transaction
    reads back from its settings: the same four identifiers, the request's
    boards as at most 25 distinct ones, and the digest of both. All attempts
    but the last failed with a serialization failure or a deadlock; the answer
    is the one of the last, which begins, holds the lease, runs and commits, or
    fails with its error; and it fails with such a conflict only when no
    further attempt is allowed. *)
Theorem transaction_replayed (attempts : nat -> Attempt Db) raw (run : Tx Db A) options :
  let '(r, n) := withRequestTransaction attempts raw run options in
  (n <= 100)%nat /\ (~ replayable options -> n <= 1)%nat /\
  ((n = 0%nat /\ exists e, r = Throw e /\ (normalizeRequestDatabaseContext raw = Throw e \/
      ~ timeout_ok (lockTimeoutMs options) \/ ~ timeout_ok (statementTimeoutMs options))) \/
   (0 < n)%nat /\ timeout_ok (lockTimeoutMs options) /\ timeout_ok (statementTimeoutMs options) /\
   exists session, (forall k, bound_session raw (at_clock (attempts k)) (session k)) /\
     attempt_answers (attempts n) (session n) run r /\
     (forall k, (0 < k < n)%nat -> exists e, attempt_answers (attempts k) (session k) run (Throw e) /\ conflict e) /\
     (forall e, r = Throw e -> conflict e -> n = 100%nat \/ (~ replayable options /\ n = 1%nat))).
Proof.
  unfold withRequestTransaction.
  pose proof (bounded_timeout (lockTimeoutMs options) 10000 ltac:(lia)) as Hlock.
  pose proof (bounded_timeout (statementTimeoutMs options) 30000 ltac:(lia)) as Hstatement.
  destruct (normalizeRequestDatabaseContext raw) as [[context sha]|e] eqn:En; cbn [mbind result_bind];
    [|split_and!; [lia..|left; split; [done|]; exists e; tauto]].
  destruct (boundedMilliseconds (lockTimeoutMs options) 10000) as [x|e]; cbn [mbind result_bind];
    [|split_and!; [lia..|left; split; [done|]; exists e; rewrite <- Hlock; naive_solver]].
  destruct (boundedMilliseconds (statementTimeoutMs options) 30000) as [y|e]; cbn [mbind result_bind];
    [|split_and!; [lia..|left; split; [done|]; exists e; rewrite <- Hstatement; naive_solver]].
  pose proof (replay_spec (fun k => runRequestTransactionAttempt (attempts k) (context, sha) run)
    (attempt_limit options) 1) as Hs.
  destruct (attempt_limit_spec options) as [[Hr El]|[Hr El]]; rewrite El in Hs |- *; specialize (Hs ltac:(lia));
    destruct (replay _ _ _) as [r n]; destruct Hs as (Hn & -> & Hk & He);
    (split_and!; [lia|done || lia|right; split_and!; [lia|by apply Hlock; eexists|by apply Hstatement; eexists|]]);
    exists (fun k => installLocalContext (at_clock (attempts k)) (context, sha));
    (split_and!; [by intros k; apply normalize_context_ok|apply attempt_answers_ok| |]).
  1,3: intros k Hkn; destruct (Hk k ltac:(lia)) as (e & Ek & Hc); exists e; rewrite <- Ek;
    (split; [apply attempt_answers_ok|by apply conflict_spec]).
  - intros e Ee Hc%conflict_spec. left. rewrite (He e Ee Hc). lia.
  - intros e Ee Hc%conflict_spec. right. split; [done|]. rewrite (He e Ee Hc). lia.
Qed.
End replayed.
