(* ===== verification/Database.v ===== *)
(** * The tables behind staged actions and the audit chain

    lib/db/migrations 0002, 0005, 0010, 0011, 0024 and 0034: the rows a request
    transaction reads and writes when it stages and confirms an action, with
    their constraints and triggers; lib/db/src/transactions/audit.ts: appending
    to the audit chain. A digest is kept as its hexadecimal text, a timestamp as
    microseconds. *)

From stdpp Require Import base numbers sorting strings list.
From Stdlib Require Import Lia.
From S2P Require Import Prelude JsString Encoding JsNumber Json JsonParse JsonCanon Schemas.
From S2P Require Import Decode VotingConsent KeyLifecycle EventIds AuditEvent Request.

Local Open Scope Z_scope.

(** ** Rows *)

(** [action_stages.state] *)
Inductive StageState :=
  | stage_active | stage_replaced | stage_confirmed | stage_rejected | stage_expired | stage_cancelled.

(** [input_required_attempts.state] *)
Inductive AttemptState :=
  | prepared | retry_received | attempt_accepted | attempt_declined | attempt_cancelled
  | attempt_expired | attempt_confirmed.

#[export] Instance StageState_eq : EqDecision StageState.
Proof. solve_decision. Defined.
#[export] Instance AttemptState_eq : EqDecision AttemptState.
Proof. solve_decision. Defined.

(** What a stage binds: the columns no update may change. *)
Record StageBinding := MkBinding {
  st_id : jsstr;
  st_organization : jsstr;
  st_board : option jsstr;
  st_actor : jsstr;
  st_actingFor : option jsstr;
  st_actionCode : jsstr;
  st_targetType : jsstr;
  st_targetId : option jsstr;
  st_canonicalSchema : jsstr;
  st_canonicalPayload : list Z;
  st_payloadSha256 : jsstr;
  st_packageSha256 : option jsstr;
  st_nonceSha256 : jsstr;
  st_protectedCodeSha256 : jsstr;
  st_client : jsstr;
  st_accessToken : jsstr;
  st_tokenJti : jsstr;
  st_exactOrigin : jsstr;
  st_contextSha256 : jsstr;
  st_replaces : option jsstr;
  st_expiresAt : Z;
  st_createdAt : Z
}.

(** [action_stages] *)
Record StageRow := MkStage {
  binding : StageBinding;
  st_state : StageState;
  st_confirmedAt : option Z;
  st_rejectedAt : option Z;
  st_cancelledAt : option Z
}.

(** [input_required_attempts], without the constant protocol columns. *)
Record AttemptRow := MkAttemptRow {
  at_id : jsstr;
  at_organization : jsstr;
  at_stage : jsstr;
  at_wizardDraft : option jsstr;
  at_originalName : jsstr;
  at_originalArgumentsSha256 : jsstr;
  at_capabilitiesSha256 : jsstr;
  at_embeddedFormSha256 : jsstr;
  at_embeddedResultSha256 : jsstr;
  at_requestState : list Z;
  at_requestStateSha256 : jsstr;
  at_preparedRequestId : list Z;
  at_retryRequestId : option (list Z);
  at_inputResponseSha256 : option jsstr;
  at_responseAction : option jsstr;
  at_state : AttemptState;
  at_completedAt : option Z
}.

(** [consent_records] *)
Record ConsentRow := MkConsent {
  cn_id : jsstr;
  cn_organization : jsstr;
  cn_board : option jsstr;
  cn_stage : jsstr;
  cn_attempt : jsstr;
  cn_actor : jsstr;
  cn_actingFor : option jsstr;
  cn_actionCode : jsstr;
  cn_targetType : jsstr;
  cn_targetId : option jsstr;
  cn_payloadSha256 : jsstr;
  cn_packageSha256 : option jsstr;
  cn_protectedCodeRecordSha256 : jsstr;
  cn_accessToken : jsstr;
  cn_tokenJti : jsstr;
  cn_client : jsstr;
  cn_exactOrigin : jsstr;
  cn_stagedAt : Z;
  cn_confirmedAt : Z;
  cn_recordSha256 : jsstr
}.

(** [access_token_records] *)
Record TokenRow := MkToken {
  tk_id : jsstr;
  tk_organization : jsstr;
  tk_member : jsstr;
  tk_client : jsstr;
  tk_jti : jsstr;
  tk_resource : jsstr;
  tk_revokedAt : option Z;
  tk_expiresAt : Z
}.

(** [audit_events] *)
Record AuditRow := MkAuditRow {
  au_id : jsstr;
  au_sequence : Z;
  au_organization : jsstr;
  au_board : option jsstr;
  au_eventType : jsstr;
  au_actor : option jsstr;
  au_actingFor : option jsstr;
  au_client : option jsstr;
  au_tokenJti : option jsstr;
  au_consent : option jsstr;
  au_objectType : jsstr;
  au_objectId : option jsstr;
  au_objectVersion : option Z;
  au_canonicalPayload : list Z;
  au_previousSha256 : jsstr;
  au_eventSha256 : jsstr
}.

(** The tables of the staged actions and the audit chain, the keys other tables
    contribute to their foreign keys, and the rest of the database. *)
Record Database (W : Type) := MkDatabase {
  action_stages : list StageRow;
  input_required_attempts : list AttemptRow;
  consent_records : list ConsentRow;
  access_token_records : list TokenRow;
  (** the identifier and whether the state is [active] *)
  oauth_clients : list (jsstr * bool);
  (** the organization and its resource *)
  system_instance : list (jsstr * jsstr);
  (** the organization and the identifier *)
  boards : list (jsstr * jsstr);
  members_table : list (jsstr * jsstr);
  wizard_drafts : list jsstr;
  board_exclusions : list BoardExclusion;
  (** the last sequence and the last hash *)
  audit_chain_head : Z * jsstr;
  audit_events : list AuditRow;
  rest : W
}.
Arguments MkDatabase {W} _ _ _ _ _ _ _ _ _ _ _ _ _.
Arguments action_stages {W} _.
Arguments input_required_attempts {W} _.
Arguments consent_records {W} _.
Arguments access_token_records {W} _.
Arguments oauth_clients {W} _.
Arguments system_instance {W} _.
Arguments boards {W} _.
Arguments members_table {W} _.
Arguments wizard_drafts {W} _.
Arguments board_exclusions {W} _.
Arguments audit_chain_head {W} _.
Arguments audit_events {W} _.
Arguments rest {W} _.

Definition with_stages {W} (db : Database W) stages : Database W :=
  MkDatabase stages (input_required_attempts db) (consent_records db) (access_token_records db)
    (oauth_clients db) (system_instance db) (boards db) (members_table db) (wizard_drafts db)
    (board_exclusions db) (audit_chain_head db) (audit_events db) (rest db).
Definition with_attempts {W} (db : Database W) attempts : Database W :=
  MkDatabase (action_stages db) attempts (consent_records db) (access_token_records db)
    (oauth_clients db) (system_instance db) (boards db) (members_table db) (wizard_drafts db)
    (board_exclusions db) (audit_chain_head db) (audit_events db) (rest db).
Definition with_consents {W} (db : Database W) consents : Database W :=
  MkDatabase (action_stages db) (input_required_attempts db) consents (access_token_records db)
    (oauth_clients db) (system_instance db) (boards db) (members_table db) (wizard_drafts db)
    (board_exclusions db) (audit_chain_head db) (audit_events db) (rest db).
Definition with_audit {W} (db : Database W) head events : Database W :=
  MkDatabase (action_stages db) (input_required_attempts db) (consent_records db)
    (access_token_records db) (oauth_clients db) (system_instance db) (boards db) (members_table db)
    (wizard_drafts db) (board_exclusions db) head events (rest db).

(** The clock's text, [to_char(t at time zone 'UTC', ..)] with microseconds. *)
Class PgClock := { to_char_utc : Z -> jsstr }.

(** The SQL functions of the administrative surfaces that the policies and the
    verifier of confirmations consult. *)
Class SqlAuthority (W : Type) := {
  boardagent_owned_administrative_stage : Database W -> Session -> StageBinding -> bool;
  boardagent_owned_administrative_audit : Database W -> Session -> AuditRow -> bool;
  administrative_snapshot_current : Database W -> Session -> StageBinding -> json -> bool
}.

(** ** Appending to the audit chain *)

Definition MAX_CANONICAL_AUDIT_BYTES : Z := 10 * 1024 * 1024.
Definition MAX_BIGINT : Z := 9223372036854775807.

(** The event comes without its [occurredAt], which the clock gives. *)
Record AuditAppendInput := MkAppend {
  ap_organizationId : jsstr;
  ap_event : AuditEventBody;
  ap_actingForMemberId : option jsstr;
  ap_consentRecordId : option jsstr;
  ap_objectVersion : option Z
}.

Definition optionalUuid (value : option jsstr) : result (option jsstr) := parse_nullable UuidV7Schema value.

Definition objectVersion (value : option Z) : result (option Z) :=
  match value with
  | None => Ok None
  | Some v =>
      if (v <? 1) || (MAX_BIGINT <? v)
      then Throw (RangeError "audit object version must fit a positive PostgreSQL bigint" [])
      else Ok (Some v)
  end.

Definition normalize_input (i : AuditAppendInput) : result AuditAppendInput :=
  organizationId ← UuidV7Schema (ap_organizationId i);
  actingForMemberId ← optionalUuid (ap_actingForMemberId i);
  consentRecordId ← optionalUuid (ap_consentRecordId i);
  version ← objectVersion (ap_objectVersion i);
  Ok (MkAppend organizationId (ap_event i) actingForMemberId consentRecordId version).

Definition at_clock_time (b : AuditEventBody) (clock : jsstr) : AuditEventBody :=
  MkBody (eventId b) (eventType b) (actorMemberId b) (actorClientId b) (AuditEvent.tokenJti b)
    (entityType b) (entityId b) (boardId b) clock (origin b) (details b).

(** The row of an event. *)
Definition audit_row (i : AuditAppendInput) (body : AuditEventBody) (sequence : Z) (payload : list Z)
    (previousHash nextHash : jsstr) : AuditRow :=
  MkAuditRow (eventId body) sequence (ap_organizationId i) (boardId body) (eventType body)
    (actorMemberId body) (ap_actingForMemberId i) (actorClientId body) (AuditEvent.tokenJti body)
    (ap_consentRecordId i) (entityType body)
    (if is_uuid_v7 (entityId body) then Some (entityId body) else None) (ap_objectVersion i) payload
    previousHash nextHash.

(** Row security on [organization_id] and [board_id]. *)
Definition scoped {W} (db : Database W) (session : Session) (organization : jsstr) (board : option jsstr) : bool :=
  bool_decide (boardagent_context_uuid (set_organization_id session) = Some organization)
  && (is_null board || boardagent_context_board_allowed (board_exclusions db) session board).

(** Length of a text in SQL: its characters. *)
Definition sql_length (s : jsstr) : Z := Z.of_nat (length (code_points s)).

(** The text parameters as PostgreSQL gets them. *)
Definition pg_text (s : jsstr) : jsstr := or_else (utf8_decode (utf8_encode s)) s.

(** No text of PostgreSQL holds a NUL character. *)
Definition pg_takes (s : jsstr) : bool := negb (existsb (Z.eqb 0) s).

(** What [jsonb] does not take: a text with a NUL character. *)
Fixpoint has_nul (v : json) : bool :=
  match v with
  | JStr s => existsb (Z.eqb 0) s
  | JArr l => existsb has_nul l
  | JObj l => existsb (fun '(k, x) => existsb (Z.eqb 0) k || has_nul x) l
  | _ => false
  end.

Section audit.
Context `{Platform} `{IsoTime} {W : Type} `{!PgClock} `{!SqlAuthority W}.

(** [boardagent_lock_audit_head] *)
Definition audit_scopes : list jsstr := map js ["request"; "migration"; "worker"; "bootstrap"; "identity"].

Definition boardagent_lock_audit_head : Tx (Database W) (Z * jsstr * jsstr) :=
  session ← ask;
  db ← get;
  db_check (bool_decide (transaction_scope session ∈ audit_scopes)) "25000" ≫= fun _ =>
  mret (audit_chain_head db, to_char_utc (transaction_timestamp session)).

(** The foreign keys of a row. *)
Definition audit_references (db : Database W) (row : AuditRow) : bool :=
  let organization := au_organization row in
  opt_all (fun b => bool_decide ((organization, b) ∈ boards db)) (au_board row)
  && opt_all (fun m => bool_decide ((organization, m) ∈ members_table db)) (au_actor row)
  && opt_all (fun m => bool_decide ((organization, m) ∈ members_table db)) (au_actingFor row)
  && opt_all (fun c => bool_decide (c ∈ map fst (oauth_clients db))) (au_client row)
  && opt_all (fun c => bool_decide (c ∈ map cn_id (consent_records db))) (au_consent row).

(** The [insert], with row security, the trigger [boardagent_advance_audit_head]
    and the constraints of the table. *)
Definition insert_audit_event (row : AuditRow) : Tx (Database W) unit :=
  session ← ask;
  db ← get;
  let '(last, head) := audit_chain_head db in
  db_check (au_sequence row <=? MAX_BIGINT) "22003" ≫= fun _ =>
  db_check (au_sequence row =? last + 1) "23514" ≫= fun _ =>
  db_check (bool_decide (au_previousSha256 row = head)) "23514" ≫= fun _ =>
  db_check (scoped db session (au_organization row) (au_board row)
            || boardagent_owned_administrative_audit db session row) "42501" ≫= fun _ =>
  db_check ((0 <? au_sequence row) && ((1 <? au_sequence row) || bool_decide (head = GENESIS_HASH))
            && in_range 2 10485760 (Z.of_nat (length (au_canonicalPayload row)))) "23514" ≫= fun _ =>
  db_check (bool_decide (au_id row ∉ map au_id (audit_events db))
            && bool_decide (au_sequence row ∉ map au_sequence (audit_events db))
            && bool_decide (au_eventSha256 row ∉ map au_eventSha256 (audit_events db))) "23505" ≫= fun _ =>
  db_check (audit_references db row) "23503" ≫= fun _ =>
  put (with_audit db (au_sequence row, au_eventSha256 row) (audit_events db ++ [row])).

Fixpoint append_rows (sequence : Z) (previousHash occurredAt : jsstr) (inputs : list AuditAppendInput)
    : Tx (Database W) (list AuditEvent) :=
  match inputs with
  | [] => mret []
  | input :: inputs' =>
      let sequence := sequence + 1 in
      body ← lift (AuditEventBodySchema (at_clock_time (ap_event input) occurredAt));
      text ← lift (canonicalJson (body_json body));
      let payload := utf8_encode text in
      fail_if (MAX_CANONICAL_AUDIT_BYTES <? Z.of_nat (length payload))
        (RangeError "canonical audit event exceeds the 10 MiB evidence limit" []) ≫= fun _ =>
      nextHash ← lift (eventHash sequence previousHash body);
      insert_audit_event (audit_row input body sequence payload previousHash nextHash) ≫= fun _ =>
      events ← append_rows sequence nextHash occurredAt inputs';
      mret (MkEvent body sequence previousHash nextHash :: events)
  end.

Definition appendAuditEventsInTransaction (inputs : list AuditAppendInput)
    : Tx (Database W) (list AuditEvent) :=
  match inputs with
  | [] => mret []
  | _ =>
      normalized ← lift (mapR normalize_input inputs);
      head ← boardagent_lock_audit_head;
      let '(sequence, previousHash, occurredAt) := head in
      fail_if (negb (js_length previousHash =? 64))
        (JsError "audit chain head returned an invalid shape" []) ≫= fun _ =>
      append_rows sequence previousHash occurredAt normalized
  end.
End audit.
