(* ===== verification/AuditAppend.v ===== *)
(** * The persisted audit chain

    What appending establishes: the rows of [audit_events] are the events of a
    chain from its genesis whose head is [audit_chain_head]. *)

From stdpp Require Import base numbers sorting strings list.
From Stdlib Require Import Lia.
From S2P Require Import Prelude JsString Encoding JsNumber Json JsonParse JsonCanon Schemas.
From S2P Require Import Decode VotingConsent KeyLifecycle EventIds AuditEvent Request Database.

Local Open Scope Z_scope.

Section audit_log.
Context `{Platform} `{IsoTime} {W : Type} `{!PgClock} `{!SqlAuthority W}.
Implicit Types (db : Database W) (s : Session).

(** ** Rows and events *)

(** The row holds the event, its body as canonical bytes. *)
Record row_holds (row : AuditRow) (e : AuditEvent) : Prop := {
  holds_sequence : au_sequence row = sequence e;
  holds_previous : au_previousSha256 row = previousHash e;
  holds_hash : au_eventSha256 row = event_hash e;
  holds_id : au_id row = eventId (event_body e);
  holds_type : au_eventType row = eventType (event_body e);
  holds_payload : exists text, canonicalJson (body_json (event_body e)) = Ok text /\
    au_canonicalPayload row = utf8_encode text
}.

(** The rows are a chain from its genesis, and the head row is its head. *)
Definition audit_chain (db : Database W) (events : list AuditEvent) : Prop :=
  Forall2 row_holds (audit_events db) events /\ chain 1 GENESIS_HASH events /\
  audit_chain_head db = (Z.of_nat (length events), last_hash GENESIS_HASH events).

Definition audit_ok (db : Database W) : Prop := exists events, audit_chain db events.

(** Only the audit chain grew. *)
Definition audit_only (db db' : Database W) : Prop :=
  db' = with_audit db (audit_chain_head db') (audit_events db').

(** [new] are the events the chain grew by. *)
Definition grows (db db' : Database W) (new : list AuditEvent) : Prop :=
  (exists rows, audit_events db' = audit_events db ++ rows /\ Forall2 row_holds rows new) /\
  forall events, audit_chain db events -> audit_chain db' (events ++ new).

Lemma audit_only_refl db : audit_only db db.
Proof. by destruct db. Qed.
Lemma audit_only_trans db1 db2 db3 : audit_only db1 db2 -> audit_only db2 db3 -> audit_only db1 db3.
Proof. unfold audit_only. intros E1 E2. rewrite E2 at 1. rewrite E1. by destruct db3. Qed.

Lemma grows_refl db : grows db db [].
Proof. split; [exists []; by rewrite app_nil_r|]. intros events He. by rewrite app_nil_r. Qed.
Lemma grows_trans db1 db2 db3 n1 n2 : grows db1 db2 n1 -> grows db2 db3 n2 -> grows db1 db3 (n1 ++ n2).
Proof.
  intros [(r1 & E1 & F1) G1] [(r2 & E2 & F2) G2]. split.
  - exists (r1 ++ r2). rewrite E2, E1, app_assoc. split; [done|by apply Forall2_app].
  - intros events Hc. rewrite app_assoc. by apply G2, G1.
Qed.
Lemma grows_ok db db' new : grows db db' new -> audit_ok db -> audit_ok db'.
Proof. intros [_ G] [events He]. eexists. by apply G. Qed.

Lemma audit_row_holds input body seq text prev next :
  canonicalJson (body_json body) = Ok text ->
  row_holds (audit_row input body seq (utf8_encode text) prev next) (MkEvent body seq prev next).
Proof. intros Ht. split; try done. by exists text. Qed.

(** The trigger admits only the next event of the chain. *)
Lemma insert_audit_event_ok s db row r : insert_audit_event row s db = Ok r ->
  r = (tt, with_audit db (au_sequence row, au_eventSha256 row) (audit_events db ++ [row])) /\
  au_sequence row = (audit_chain_head db).1 + 1 /\ au_previousSha256 row = (audit_chain_head db).2.
Proof.
  unfold insert_audit_event. intros E. inv_tx. destruct (audit_chain_head db) as [last hd] eqn:Eh.
  inv_tx. boolify. done.
Qed.

Lemma chain_app seq prev es fs : chain seq prev (es ++ fs) <->
  chain seq prev es /\ chain (seq + Z.of_nat (length es)) (last_hash prev es) fs.
Proof.
  revert seq prev. induction es as [|e es IH]; intros seq prev; cbn [app chain last_hash length].
  - rewrite Z.add_0_r. tauto.
  - rewrite IH. replace (seq + Z.of_nat (S (length es))) with (seq + 1 + Z.of_nat (length es)) by lia. tauto.
Qed.
Lemma last_hash_app prev es fs : last_hash prev (es ++ fs) = last_hash (last_hash prev es) fs.
Proof. revert prev. induction es as [|e es IH]; intros prev; [done|]. apply IH. Qed.

(** The events of an append, with what they were made from. *)
Definition appended_from (occurredAt : jsstr) (e : AuditEvent) (i : AuditAppendInput) : Prop :=
  event_body e = at_clock_time (ap_event i) occurredAt.

Lemma append_rows_ok inputs seq prev occurredAt s db events db' :
  append_rows seq prev occurredAt inputs s db = Ok (events, db') -> audit_chain_head db = (seq, prev) ->
  audit_only db db' /\ chain (seq + 1) prev events /\
  audit_chain_head db' = (seq + Z.of_nat (length events), last_hash prev events) /\
  (exists rows, audit_events db' = audit_events db ++ rows /\ Forall2 row_holds rows events) /\
  Forall2 (appended_from occurredAt) events inputs.
Proof.
  revert seq prev db events. induction inputs as [|i inputs IH]; intros seq prev db events E Eh;
    cbn [append_rows] in E; inv_tx.
  { rewrite Z.add_0_r. split_and!; [apply audit_only_refl|done|done|exists []; by rewrite app_nil_r|done]. }
  match goal with Hi : insert_audit_event _ _ _ = Ok _ |- _ => apply insert_audit_event_ok in Hi as (Hi & _ & _) end.
  inv_tx. match goal with Hb : AuditEventBodySchema _ = Ok ?b |- _ =>
    rename b into body; pose proof (schema_same _ _ Hb) as -> end.
  match goal with Hr : append_rows _ ?next _ _ _ _ = Ok (?es, _) |- _ =>
    rename next into hash; rename es into more;
    destruct (IH _ _ _ _ Hr eq_refl) as (A & C & Hh & (rows & Er & F) & Ff) end.
  split_and!.
  - eapply audit_only_trans; [|exact A]. by destruct db.
  - cbn [chain]. split; [done|]. exact C.
  - rewrite Hh. cbn [length last_hash]. f_equal. lia.
  - eexists (_ :: rows). rewrite Er. cbn [with_audit audit_events]. rewrite <- app_assoc. split; [done|].
    constructor; [|done]. by apply audit_row_holds.
  - by constructor.
Qed.

(** ** Appending *)

Lemma normalize_same i j : normalize_input i = Ok j -> j = i.
Proof.
  unfold normalize_input, optionalUuid, objectVersion. intros E. inv_ok. destruct i as [o b a c v]. cbn in *.
  repeat match goal with
  | Hp : UuidV7Schema _ = Ok _ |- _ => apply parse_ok in Hp as [-> _]
  | Hp : parse_nullable _ _ = Ok _ |- _ =>
      apply parse_nullable_ok in Hp as [-> _]; [|by intros ? ? [-> _]%parse_ok]
  end.
  subst. destruct v as [v|]; [|by match goal with Hv : Ok _ = Ok _ |- _ => injection Hv as <- end].
  match goal with Hv : (if ?b then _ else _) = Ok _ |- _ => destruct b; [done|by injection Hv as <-] end.
Qed.

Lemma normalize_all inputs normalized : mapR normalize_input inputs = Ok normalized -> normalized = inputs.
Proof.
  intros Hm%mapR_ok. induction Hm as [|i j inputs normalized Hi _ IH]; [done|].
  by rewrite (normalize_same _ _ Hi), IH.
Qed.

Record appended (s : Session) (db db' : Database W) (inputs : list AuditAppendInput)
    (events : list AuditEvent) : Prop := {
  ad_only : audit_only db db';
  ad_grows : grows db db' events;
  ad_events : Forall2 (appended_from (to_char_utc (transaction_timestamp s))) events inputs;
  ad_sequences : map sequence events =
    map (fun k => (audit_chain_head db).1 + 1 + Z.of_nat k) (seq 0 (length inputs))
}.

Lemma chain_sequences n prev events : chain n prev events ->
  map sequence events = map (fun k => n + Z.of_nat k) (seq 0 (length events)).
Proof.
  revert n prev. induction events as [|e events IH]; intros n prev; [done|].
  cbn [chain map length seq]. intros [(Hs & _) Hc]. rewrite Hs, (IH _ _ Hc). f_equal; [lia|].
  rewrite <- seq_shift, map_map. apply map_ext. intros k. lia.
Qed.

Lemma append_ok inputs s db events db' :
  appendAuditEventsInTransaction inputs s db = Ok (events, db') -> appended s db db' inputs events.
Proof.
  destruct inputs as [|i inputs].
  { intros [= <- <-]. split; [apply audit_only_refl|apply grows_refl|done..]. }
  unfold appendAuditEventsInTransaction. intros E. inv_tx.
  unfold boardagent_lock_audit_head in *. inv_tx. destruct (audit_chain_head db) as [n prev] eqn:Eh. inv_tx.
  match goal with Hm : mapR _ _ = Ok _ |- _ => apply normalize_all in Hm as -> end.
  match goal with Hr : append_rows _ _ _ _ _ _ = Ok _ |- _ =>
    destruct (append_rows_ok _ _ _ _ _ _ _ _ Hr Eh) as (A & C & Hh & R & F) end.
  split; [done| |done|].
  - split; [done|]. intros es (He & Hc & Hd). rewrite Eh in Hd. injection Hd as -> ->.
    destruct R as (rows & Er & Fr). split_and!; [rewrite Er; by apply Forall2_app| |].
    + apply chain_app. split; [done|]. by replace (1 + Z.of_nat (length es)) with (Z.of_nat (length es) + 1) by lia.
    + rewrite Hh, last_hash_app, length_app. f_equal. lia.
  - rewrite Eh. cbn [fst]. rewrite (chain_sequences _ _ _ C), (Forall2_length _ _ _ F). done.
Qed.

End audit_log.

(** ** Properties *)

Section appended_chain.
Context `{Platform} `{IsoTime} {W : Type} `{!PgClock} `{!SqlAuthority W}.

(** C11. Appending extends the persisted chain and nothing else. If the rows are
    the events of a chain with the persisted head, the rows afterwards are
    those events followed by one event per input, in order: each is its input
    at the clock of the transaction, the sequence numbers continue without a
    gap, and the verifier accepts the whole chain against the new head. *)
Theorem appended_evidence inputs s (db : Database W) events new db' : audit_chain db events ->
  appendAuditEventsInTransaction inputs s db = Ok (new, db') ->
  audit_chain db' (events ++ new) /\ audit_only db db' /\
  Forall2 (appended_from (to_char_utc (transaction_timestamp s))) new inputs /\
  map sequence new = map (fun k => (audit_chain_head db).1 + 1 + Z.of_nat k) (seq 0 (length inputs)) /\
  verifyChain (events ++ new) (Some (audit_chain_head db')) =
    Valid (Z.of_nat (length (events ++ new))) (audit_chain_head db').2.
Proof.
  intros Hc [Ho [_ G] F Hs]%append_ok. specialize (G _ Hc). split_and!; try done.
  destruct G as (_ & C & ->). rewrite verifyChain_chain, (proj2 (matches_expected_none _ _ C)); [done| |done].
  by intros ? ? [= <- <-].
Qed.
End appended_chain.

(** ** A concrete append *)

Definition sample_append_clock : PgClock := {| to_char_utc _ := js "2026-01-02T03:04:05.000000Z" |}.
Definition sample_append_sql : SqlAuthority unit :=
  {| boardagent_owned_administrative_stage _ _ _ := false;
     boardagent_owned_administrative_audit _ _ _ := false;
     administrative_snapshot_current _ _ _ _ := false |}.
Definition append_id (n : string) : jsstr := js "01890000-0000-7000-8000-0000000000" ++ js n.
Definition sample_append_session : Session :=
  installLocalContext 0 (Request.MkContext (append_id "01") (append_id "02") (append_id "03") (append_id "04") [],
    replicate 64 97).
Definition sample_append_db : Database unit :=
  MkDatabase [] [] [] [] [] [] [] [] [] [] (0, GENESIS_HASH) [] tt.
Definition sample_append : AuditAppendInput :=
  MkAppend (append_id "01")
    (MkBody (append_id "05") (js "context_read") None None None (js "vote") (append_id "06") None [] (js "mcp") [])
    None None None.

Lemma appended_evidence_witness : exists new db',
  @appendAuditEventsInTransaction plain_platform plain_time unit sample_append_clock sample_append_sql [sample_append]
    sample_append_session sample_append_db = Ok (new, db') /\ map sequence new = [1].
Proof.
  assert (is_ok (@appendAuditEventsInTransaction plain_platform plain_time unit sample_append_clock sample_append_sql
    [sample_append] sample_append_session sample_append_db) = true) as Hok by (vm_compute; reflexivity).
  destruct (appendAuditEventsInTransaction _ _ _) as [[new db']|e] eqn:E; [|discriminate Hok].
  assert (@audit_chain plain_platform plain_time unit sample_append_db []) as Hc by (split_and!; constructor).
  exists new, db'. split; [reflexivity|].
  exact (proj1 (proj2 (proj2 (proj2 (@appended_evidence plain_platform plain_time unit sample_append_clock
    sample_append_sql [sample_append] sample_append_session sample_append_db [] new db' Hc E))))).
Defined.
