(* ===== verification/StagedAction.v ===== *)
(** * Staging and confirming an action

    lib/db/src/transactions/consent.ts: the two transactions every governed
    action goes through, with the SQL they run and the verifier
    [boardagent_record_confirmed_consent] of migration 0097. *)

From stdpp Require Import base numbers sorting strings list.
From Stdlib Require Import Lia.
From S2P Require Import Prelude JsString Encoding JsNumber Json JsonParse JsonCanon Schemas.
From S2P Require Import Decode VotingConsent KeyLifecycle AuditEvent Request Database.

Local Open Scope Z_scope.

(** ** Schemas *)

(** [/^[a-z][a-z0-9_]{1,127}$/u] and [/^[a-z][a-z0-9_]{1,63}$/u] *)
Definition code_text (longest : Z) (s : jsstr) : bool :=
  match s with
  | c :: t => is_lower c && class_len (fun c => is_lower c || is_digit c || (c =? 95)) 1 longest t
  | [] => false
  end.
Definition ActionCodeSchema (s : jsstr) : result jsstr := parse "ActionCode" (code_text 127) s.
Definition TargetTypeSchema (s : jsstr) : result jsstr := parse "TargetType" (code_text 63) s.

(** [/^boardagent\.[a-z0-9_.-]+\.v[0-9]+$/u]: the digits at the end, after a
    point and a v, and what is left between. *)
Definition schema_name (s : jsstr) : bool :=
  match strip_prefix (js "boardagent.") s with
  | None => false
  | Some t =>
      let '(digits, r) := span_digits (rev t) in
      match r with
      | v :: dot :: name =>
          negb (Nat.eqb (length digits) 0) && (v =? 118) && (dot =? 46) && negb (Nat.eqb (length name) 0)
          && forallb (fun c => is_lower c || is_digit c || (c =? 95) || (c =? 46) || (c =? 45)) name
      | _ => false
      end
  end.
Definition CanonicalSchemaNameSchema (s : jsstr) : result jsstr := parse "CanonicalSchemaName" schema_name s.

(** The answer to the form, read from JSON. *)
Definition AcceptedInputResponseSchema (v : json) : option (bool * jsstr) :=
  l ← members v;
  if negb (strict ["approve"; "confirmation_code"] l) then None else
  approve ← required l "approve" (fun v => match v with JBool b => Some b | _ => None end);
  code ← required l "confirmation_code" (dString (fun s => js_length s =? 8));
  Some (approve, code).

(** Form-mode elicitation: [form] declared, or neither [form] nor [url]. *)
Definition FormElicitationCapabilities (v : json) : bool :=
  match members v ≫= fun l => map_get l (js "elicitation") ≫= members with
  | None => false
  | Some e =>
      match map_get e (js "form") with
      | Some (JObj []) => true
      | Some _ => false
      | None => negb (map_has e (js "url"))
      end
  end.
Definition FormElicitationCapabilitiesSchema (v : json) : result json :=
  parse "FormElicitationCapabilities" FormElicitationCapabilities v.

Definition boundedBytes (value : list Z) (label : string) (minimum maximum : Z) : result (list Z) :=
  throw_if (negb (in_range minimum maximum (Z.of_nat (length value))))
    (RangeError "must contain a bounded number of bytes" [js label]) ≫= fun _ => Ok value.

(** The URL parser of the platform: protocol, origin and path name. *)
Record ParsedUrl := MkUrl { protocol : jsstr; url_origin : jsstr; pathname : jsstr }.
Class UrlParser := { parse_url : jsstr -> option ParsedUrl }.

Definition exactHttpsOrigin `{UrlParser} (value : jsstr) : result jsstr :=
  match parse_url value with
  | None => Throw (TypeError "exact origin must be an absolute URL origin" [])
  | Some u =>
      throw_if (negb (bool_decide (protocol u = js "https:")) || negb (bool_decide (url_origin u = value))
                || negb (bool_decide (pathname u = js "/")))
        (TypeError "exact origin must be one canonical HTTPS origin" []) ≫= fun _ => Ok value
  end.

Definition optionalHash (value : option jsstr) : result (option jsstr) := parse_nullable Sha256HexSchema value.

#[export] Instance StageBinding_eq : EqDecision StageBinding.
Proof. solve_decision. Defined.

(** ** Inputs and outcomes *)

Record StageActionInput := MkStageInput {
  si_stageId : jsstr;
  si_inputRequiredAttemptId : jsstr;
  si_wizardDraftId : option jsstr;
  si_boardId : option jsstr;
  si_actingForMemberId : option jsstr;
  si_actionCode : jsstr;
  si_targetType : jsstr;
  si_targetId : option jsstr;
  si_canonicalSchema : jsstr;
  si_canonicalPayload : json;
  si_packageSha256 : option jsstr;
  si_nonce : list Z;
  si_confirmationCode : jsstr;
  si_accessTokenRecordId : jsstr;
  si_exactOrigin : jsstr;
  si_originalName : jsstr;
  si_originalArguments : json;
  si_clientCapabilities : json;
  si_embeddedForm : json;
  si_embeddedResult : json;
  si_requestStateBytes : list Z;
  si_preparedRequestId : list Z;
  si_stageReplacedEvent : jsstr;
  si_stageCreatedEvent : jsstr;
  si_elicitationSentEvent : jsstr
}.

Record StagedAction := MkStaged {
  sd_stageId : jsstr;
  sd_inputRequiredAttemptId : jsstr;
  sd_replacedStageId : option jsstr;
  sd_payloadSha256 : jsstr;
  sd_packageSha256 : option jsstr;
  sd_requestStateSha256 : jsstr;
  sd_originalArgumentsSha256 : jsstr;
  sd_capabilitiesSha256 : jsstr;
  sd_expiresAt : jsstr;
  sd_auditSequences : list Z
}.

Inductive ResponseAction := accept | decline | cancel.

#[export] Instance ResponseAction_eq : EqDecision ResponseAction.
Proof. solve_decision. Defined.

Definition response_text (a : ResponseAction) : jsstr :=
  match a with accept => js "accept" | decline => js "decline" | cancel => js "cancel" end.

Inductive ConfirmationFailureReason :=
  | stage_unavailable | context_mismatch | stage_not_active | expired | declined
  | retry_request_reused | request_mismatch | capabilities_mismatch | state_mismatch
  | canonical_stale | code_mismatch.

Definition reason_text (r : ConfirmationFailureReason) : jsstr :=
  js match r with
     | stage_unavailable => "stage_unavailable"
     | context_mismatch => "context_mismatch"
     | stage_not_active => "stage_not_active"
     | expired => "expired"
     | declined => "declined"
     | retry_request_reused => "retry_request_reused"
     | request_mismatch => "request_mismatch"
     | capabilities_mismatch => "capabilities_mismatch"
     | state_mismatch => "state_mismatch"
     | canonical_stale => "canonical_stale"
     | code_mismatch => "code_mismatch"
     end.

Record ConfirmStagedActionInput := MkConfirmInput {
  ci_stageId : jsstr;
  ci_consentRecordId : jsstr;
  ci_retryRequestId : list Z;
  ci_originalArguments : json;
  ci_clientCapabilities : json;
  ci_exactOrigin : jsstr;
  ci_requestStateBytes : list Z;
  ci_responseAction : ResponseAction;
  ci_inputResponse : json;
  ci_consentRecordedEvent : jsstr;
  ci_consentRejectedEvent : jsstr
}.

Record CurrentActionBindings := MkBindings {
  cb_payloadSha256 : jsstr;
  cb_packageSha256 : option jsstr
}.

Record ConfirmStagedActionOptions := MkConfirmOptions {
  appendConsentBeforeAct : bool;
  exposeConfirmedProjectionToAct : bool
}.

(** ** Reading *)

(** The [is not distinct from] of nullable columns is equality of options. *)
Definition same_key (a b : StageBinding) : bool :=
  bool_decide (st_actor a = st_actor b) && bool_decide (st_client a = st_client b)
  && bool_decide (st_actionCode a = st_actionCode b) && bool_decide (st_targetType a = st_targetType b)
  && bool_decide (st_targetId a = st_targetId b).

Section actions.
Context `{Platform} `{IsoTime} {W : Type} `{!NodeText} `{!PgClock} `{!SqlAuthority W} `{!UrlParser}.
Abbreviation DB := (Database W).

(** The stages the row policies show. *)
Definition stage_visible (db : DB) (session : Session) (b : StageBinding) : bool :=
  scoped db session (st_organization b) (st_board b) || boardagent_owned_administrative_stage db session b.
Definition attempt_visible (session : Session) (a : AttemptRow) : bool :=
  bool_decide (boardagent_context_uuid (set_organization_id session) = Some (at_organization a)).

(** [current access token]: the token, its client and its instance. *)
Definition token_current (db : DB) (clock : Z) (id organization member client jti : jsstr) (t : TokenRow)
    : bool :=
  bool_decide (tk_id t = id) && bool_decide (tk_organization t = organization)
  && bool_decide (tk_member t = member) && bool_decide (tk_client t = client)
  && bool_decide (tk_jti t = jti) && is_null (tk_revokedAt t) && (clock <? tk_expiresAt t)
  && bool_decide ((tk_client t, true) ∈ oauth_clients db)
  && bool_decide ((tk_organization t, tk_resource t) ∈ system_instance db).

Definition assertCurrentToken (id : jsstr) (context : ActiveRequestContext) : Tx DB unit :=
  session ← ask;
  db ← get;
  let found := List.filter (token_current db (transaction_timestamp session) id (ac_organizationId context)
                 (ac_memberId context) (ac_clientId context) (ac_tokenJti context))
                 (access_token_records db) in
  fail_if (negb (Nat.eqb (length found) 1)) (JsError "current access token is unavailable" []).

(** ** Staging *)

Definition new_event (eventId eventType : jsstr) (context : ActiveRequestContext) (entityType entityId : jsstr)
    (board : option jsstr) (details : list (jsstr * json)) : AuditEventBody :=
  MkBody eventId eventType (Some (ac_memberId context)) (Some (ac_clientId context))
    (Some (ac_tokenJti context)) entityType entityId board [] (js "mcp") details.

Definition STAGE_LIFETIME : Z := 600 * 1000000.

(** The trigger of migration 0024 on an insert: the clock of the database and
    exactly ten minutes. *)
Definition stage_insert_guard (clock : Z) (r : StageRow) : bool :=
  bool_decide (st_state r = stage_active) && (st_createdAt (binding r) =? clock)
  && (st_expiresAt (binding r) =? st_createdAt (binding r) + STAGE_LIFETIME)
  && is_null (st_confirmedAt r) && is_null (st_rejectedAt r) && is_null (st_cancelledAt r).

(** The trigger on an update: one transition from active, at the clock of the
    database, with the binding as it was. *)
Definition stage_update_guard (clock : Z) (old new : StageRow) : bool :=
  bool_decide (binding new = binding old)
  && bool_decide (st_state old = stage_active) && negb (bool_decide (st_state new = st_state old))
  && match st_state new with
     | stage_confirmed =>
         bool_decide (st_confirmedAt new = Some clock) && is_null (st_rejectedAt new) && is_null (st_cancelledAt new)
     | stage_rejected =>
         bool_decide (st_rejectedAt new = Some clock) && is_null (st_confirmedAt new) && is_null (st_cancelledAt new)
     | stage_cancelled =>
         bool_decide (st_cancelledAt new = Some clock) && is_null (st_confirmedAt new) && is_null (st_rejectedAt new)
     | stage_replaced | stage_expired =>
         is_null (st_confirmedAt new) && is_null (st_rejectedAt new) && is_null (st_cancelledAt new)
     | stage_active => false
     end.

(** [where id=$1 and state='active']: the new rows and the number changed. *)
Definition change_stage (id : jsstr) (change : StageRow -> StageRow) (rows : list StageRow)
    : list StageRow * nat :=
  let hit r := bool_decide (st_id (binding r) = id) && bool_decide (st_state r = stage_active) in
  (map (fun r => if hit r then change r else r) rows, length (List.filter hit rows)).

Definition set_stage_state (state : StageState) (clock : Z) (r : StageRow) : StageRow :=
  MkStage (binding r) state
    (if bool_decide (state = stage_confirmed) then Some clock else st_confirmedAt r)
    (if bool_decide (state = stage_rejected) then Some clock else st_rejectedAt r)
    (if bool_decide (state = stage_cancelled) then Some clock else st_cancelledAt r).

Definition update_stage (id : jsstr) (state : StageState) : Tx DB nat :=
  session ← ask;
  db ← get;
  let clock := transaction_timestamp session in
  let '(rows, count) := change_stage id (set_stage_state state clock) (action_stages db) in
  db_check (forallb (fun r => negb (bool_decide (st_id (binding r) = id))
              || negb (bool_decide (st_state r = stage_active))
              || stage_update_guard clock r (set_stage_state state clock r)) (action_stages db))
    "23514" ≫= fun _ =>
  put (with_stages db rows) ≫= fun _ => mret count.

(** [where id=$1 and state='prepared'] *)
Definition change_attempt (id : jsstr) (change : AttemptRow -> AttemptRow) (rows : list AttemptRow)
    : list AttemptRow * nat :=
  let hit r := bool_decide (at_id r = id) && bool_decide (at_state r = prepared) in
  (map (fun r => if hit r then change r else r) rows, length (List.filter hit rows)).

Definition answer_attempt (retry : list Z) (responseSha256 action : jsstr) (state : AttemptState) (clock : Z)
    (a : AttemptRow) : AttemptRow :=
  MkAttemptRow (at_id a) (at_organization a) (at_stage a) (at_wizardDraft a) (at_originalName a)
    (at_originalArgumentsSha256 a) (at_capabilitiesSha256 a) (at_embeddedFormSha256 a)
    (at_embeddedResultSha256 a) (at_requestState a) (at_requestStateSha256 a) (at_preparedRequestId a)
    (Some retry) (Some responseSha256) (Some action) state (Some clock).

Definition update_attempt (id : jsstr) (retry : list Z) (responseSha256 action : jsstr) (state : AttemptState)
    : Tx DB nat :=
  session ← ask;
  db ← get;
  let '(rows, count) := change_attempt id
                          (answer_attempt retry responseSha256 action state (transaction_timestamp session))
                          (input_required_attempts db) in
  put (with_attempts db rows) ≫= fun _ => mret count.

(** [^https://[^/?#]+$] *)
Definition https_origin_text (s : jsstr) : bool :=
  match strip_prefix (js "https://") s with
  | Some host => negb (Nat.eqb (length host) 0)
                 && forallb (fun c => negb ((c =? 47) || (c =? 63) || (c =? 35))) host
  | None => false
  end.

(** The checks of the columns of [action_stages] in migration 0005; those of
    the state hold by the trigger. *)
Definition stage_checks (b : StageBinding) : bool :=
  is_uuid_v7 (st_id b) && code_text 127 (st_actionCode b) && code_text 63 (st_targetType b)
  && schema_name (st_canonicalSchema b)
  && in_range 2 10485760 (Z.of_nat (length (st_canonicalPayload b)))
  && is_hex64 (st_payloadSha256 b) && opt_all is_hex64 (st_packageSha256 b) && is_hex64 (st_nonceSha256 b)
  && is_hex64 (st_protectedCodeSha256 b) && https_origin_text (st_exactOrigin b)
  && is_hex64 (st_contextSha256 b)
  && (st_createdAt b <? st_expiresAt b) && (st_expiresAt b <=? st_createdAt b + STAGE_LIFETIME).

(** The constraints of [action_stages] on an insert. *)
Definition insert_stage (b : StageBinding) : Tx DB unit :=
  session ← ask;
  db ← get;
  let rows := action_stages db in
  let row := MkStage b stage_active None None None in
  db_check (stage_insert_guard (transaction_timestamp session) row) "23514" ≫= fun _ =>
  db_check (stage_visible db session b) "42501" ≫= fun _ =>
  db_check (stage_checks b) "23514" ≫= fun _ =>
  db_check (forallb (fun r => negb (bool_decide (st_id (binding r) = st_id b))
              && negb (bool_decide (st_nonceSha256 (binding r) = st_nonceSha256 b))
              && negb (bool_decide (st_protectedCodeSha256 (binding r) = st_protectedCodeSha256 b))
              && negb (bool_decide (st_state r = stage_active) && same_key (binding r) b)) rows)
    "23505" ≫= fun _ =>
  db_check (opt_all (fun board => bool_decide ((st_organization b, board) ∈ boards db)) (st_board b)
            && bool_decide ((st_organization b, st_actor b) ∈ members_table db)
            && opt_all (fun m => bool_decide ((st_organization b, m) ∈ members_table db)) (st_actingFor b)
            && bool_decide (st_client b ∈ map fst (oauth_clients db))
            && bool_decide (st_accessToken b ∈ map tk_id (access_token_records db))
            && opt_all (fun s => bool_decide (s ∈ map (fun r => st_id (binding r)) rows)) (st_replaces b))
    "23503" ≫= fun _ =>
  put (with_stages db (rows ++ [row])).

(** The checks of the columns of [input_required_attempts] for a new row. *)
Definition attempt_checks (a : AttemptRow) : bool :=
  is_uuid_v7 (at_id a) && code_text 127 (at_originalName a) && is_hex64 (at_originalArgumentsSha256 a)
  && is_hex64 (at_capabilitiesSha256 a) && is_hex64 (at_embeddedFormSha256 a)
  && is_hex64 (at_embeddedResultSha256 a) && in_range 32 4096 (Z.of_nat (length (at_requestState a)))
  && is_hex64 (at_requestStateSha256 a) && in_range 1 1024 (Z.of_nat (length (at_preparedRequestId a))).

(** The constraints of [input_required_attempts] on an insert. *)
Definition insert_attempt (a : AttemptRow) : Tx DB unit :=
  session ← ask;
  db ← get;
  let rows := input_required_attempts db in
  db_check (attempt_visible session a) "42501" ≫= fun _ =>
  db_check (attempt_checks a) "23514" ≫= fun _ =>
  db_check (forallb (fun r => negb (bool_decide (at_id r = at_id a))
              && negb (bool_decide (at_requestStateSha256 r = at_requestStateSha256 a))
              && negb (bool_decide (at_stage r = at_stage a)
                       && bool_decide (at_preparedRequestId r = at_preparedRequestId a))) rows)
    "23505" ≫= fun _ =>
  db_check (bool_decide ((at_organization a, at_stage a) ∈
              map (fun r => (st_organization (binding r), st_id (binding r))) (action_stages db))
            && opt_all (fun d => bool_decide (d ∈ wizard_drafts db)) (at_wizardDraft a)) "23503" ≫= fun _ =>
  put (with_attempts db (rows ++ [a])).

Definition replace_active (replacedStageId : option jsstr) : Tx DB unit :=
  match replacedStageId with
  | None => mret tt
  | Some id =>
      count ← update_stage id stage_replaced;
      fail_if (negb (Nat.eqb count 1)) (JsError "active action stage changed during replacement" [])
  end.

Definition replaced_events (input : StageActionInput) (context : ActiveRequestContext)
    (replacedStageId : option jsstr) (stageId : jsstr) (boardId : option jsstr) (actionCode targetType : jsstr)
    : result (list AuditAppendInput) :=
  match replacedStageId with
  | None => Ok []
  | Some id =>
      eventId ← UuidV7Schema (si_stageReplacedEvent input);
      Ok [MkAppend (ac_organizationId context)
        (new_event eventId (js "stage_replaced") context (js "action_stage") id boardId
           [str "replacementStageId" stageId; str "actionCode" actionCode; str "targetType" targetType])
        None None None]
  end.

Definition stageActionInTransaction (input : StageActionInput) (lockAndAuthorizeAggregate : Tx DB unit)
    : Tx DB StagedAction :=
  lockAndAuthorizeAggregate ≫= fun _ =>
  session ← ask;
  context ← lift (readRequestContext session);
  stageId ← lift (UuidV7Schema (si_stageId input));
  inputRequiredAttemptId ← lift (UuidV7Schema (si_inputRequiredAttemptId input));
  wizardDraftId ← lift (optionalUuid (si_wizardDraftId input));
  boardId ← lift (optionalUuid (si_boardId input));
  actingForMemberId ← lift (optionalUuid (si_actingForMemberId input));
  actionCode ← lift (ActionCodeSchema (si_actionCode input));
  targetType ← lift (TargetTypeSchema (si_targetType input));
  targetId ← lift (optionalUuid (si_targetId input));
  canonicalSchema ← lift (CanonicalSchemaNameSchema (si_canonicalSchema input));
  payload ← lift (canonicalJson (si_canonicalPayload input));
  let canonicalPayload := utf8_encode payload in
  let payloadSha256 := sha256HexBytes canonicalPayload in
  packageSha256 ← lift (optionalHash (si_packageSha256 input));
  nonce ← lift (boundedBytes (si_nonce input) "nonce" 16 1024);
  fail_if (negb (js_length (si_confirmationCode input) =? 8))
    (RangeError "confirmation code must contain exactly 8 characters" []) ≫= fun _ =>
  let protectedCodeSha256 := sha256Hex (si_confirmationCode input) in
  accessTokenRecordId ← lift (UuidV7Schema (si_accessTokenRecordId input));
  exactOrigin ← lift (exactHttpsOrigin (si_exactOrigin input));
  originalName ← lift (ActionCodeSchema (si_originalName input));
  originalArgumentsSha256 ← lift (canonicalSha256 (si_originalArguments input));
  lift (FormElicitationCapabilitiesSchema (si_clientCapabilities input)) ≫= fun _ =>
  capabilitiesSha256 ← lift (canonicalSha256 (si_clientCapabilities input));
  embeddedFormSha256 ← lift (canonicalSha256 (si_embeddedForm input));
  embeddedResultSha256 ← lift (canonicalSha256 (si_embeddedResult input));
  requestStateBytes ← lift (boundedBytes (si_requestStateBytes input) "request state" 32 4096);
  let requestStateSha256 := sha256HexBytes requestStateBytes in
  preparedRequestId ← lift (boundedBytes (si_preparedRequestId input) "prepared request ID" 1 1024);
  contextSha256 ← lift (currentContextSha256 session);
  assertCurrentToken accessTokenRecordId context ≫= fun _ =>
  let organization := ac_organizationId context in
  let clock := transaction_timestamp session in
  let wanted replaces :=
    MkBinding stageId organization boardId (ac_memberId context) actingForMemberId actionCode targetType
      targetId canonicalSchema canonicalPayload payloadSha256 packageSha256 (sha256HexBytes nonce)
      protectedCodeSha256 (ac_clientId context) accessTokenRecordId (ac_tokenJti context) exactOrigin
      contextSha256 replaces (clock + STAGE_LIFETIME) clock in
  db ← get;
  let active := List.filter (fun r => stage_visible db session (binding r)
                               && bool_decide (st_state r = stage_active)
                               && same_key (binding r) (wanted None)) (action_stages db) in
  fail_if (Nat.ltb 1 (length active))
    (JsError "multiple active action stages violate uniqueness" []) ≫= fun _ =>
  let replacedStageId := (fun r => st_id (binding r)) <$> head active in
  replace_active replacedStageId ≫= fun _ =>
  insert_stage (wanted replacedStageId) ≫= fun _ =>
  insert_attempt (MkAttemptRow inputRequiredAttemptId organization stageId wizardDraftId originalName
    originalArgumentsSha256 capabilitiesSha256 embeddedFormSha256 embeddedResultSha256 requestStateBytes
    requestStateSha256 preparedRequestId None None None prepared None) ≫= fun _ =>
  replacedEvents ← lift (replaced_events input context replacedStageId stageId boardId actionCode targetType);
  stageCreated ← lift (UuidV7Schema (si_stageCreatedEvent input));
  elicitationSent ← lift (UuidV7Schema (si_elicitationSentEvent input));
  audits ← appendAuditEventsInTransaction (replacedEvents ++
    [MkAppend organization
       (new_event stageCreated (js "stage_created") context (js "action_stage") stageId boardId
          [str "actionCode" actionCode; str "targetType" targetType; nullable "targetId" targetId;
           str "payloadSha256" payloadSha256; nullable "packageSha256" packageSha256]) None None None;
     MkAppend organization
       (new_event elicitationSent (js "elicitation_sent") context (js "input_required_attempt")
          inputRequiredAttemptId boardId
          [str "stageId" stageId; str "originalName" originalName;
           str "originalArgumentsSha256" originalArgumentsSha256;
           str "capabilitiesSha256" capabilitiesSha256;
           str "requestStateSha256" requestStateSha256]) None None None]);
  mret (MkStaged stageId inputRequiredAttemptId replacedStageId payloadSha256 packageSha256
          requestStateSha256 originalArgumentsSha256 capabilitiesSha256
          (to_char_utc (clock + STAGE_LIFETIME)) (map sequence audits)).

(** ** Reading what a confirmation is about *)

Definition readConfirmationRow (stageId : jsstr) : Tx DB (option (StageRow * AttemptRow)) :=
  session ← ask;
  db ← get;
  let stages := List.filter (fun r => bool_decide (st_id (binding r) = stageId)
                               && stage_visible db session (binding r)) (action_stages db) in
  let found := flat_map (fun s =>
    map (fun a => (s, a)) (List.filter (fun a => bool_decide (at_stage a = st_id (binding s))
                                      && attempt_visible session a) (input_required_attempts db))) stages in
  fail_if (Nat.ltb 1 (length found)) (JsError "action stage has multiple MRTR attempts" []) ≫= fun _ =>
  mret (head found).

(** What a confirmation presents, digested. *)
Record Presented := MkPresented {
  pr_argumentsSha256 : jsstr;
  pr_capabilitiesSha256 : jsstr;
  pr_exactOrigin : jsstr;
  pr_responseSha256 : jsstr
}.

Definition response_json (action : ResponseAction) (content : json) : json :=
  JObj [str "action" (response_text action); (js "content", content)].

(** The reason to refuse an attempt at an active stage, if there is one. *)
Definition judge (input : ConfirmStagedActionInput) (presented : Presented) (current : CurrentActionBindings)
    (clock : Z) (s : StageRow) (a : AttemptRow) : option ConfirmationFailureReason :=
  let b := binding s in
  if st_expiresAt b <=? clock then Some expired else
  if negb (bool_decide (ci_responseAction input = accept)) then Some declined else
  if bool_decide (at_preparedRequestId a = ci_retryRequestId input) then Some retry_request_reused else
  if negb (safeHashEqual (at_originalArgumentsSha256 a) (pr_argumentsSha256 presented))
  then Some request_mismatch else
  if negb (safeHashEqual (at_capabilitiesSha256 a) (pr_capabilitiesSha256 presented))
  then Some capabilities_mismatch else
  if negb (safeHashEqual (at_requestStateSha256 a) (sha256HexBytes (ci_requestStateBytes input)))
  then Some state_mismatch else
  if negb (safeHashEqual (st_payloadSha256 b) (cb_payloadSha256 current))
     || negb (bool_decide (st_packageSha256 b = cb_packageSha256 current))
  then Some canonical_stale else
  match AcceptedInputResponseSchema (ci_inputResponse input) with
  | None => Some declined
  | Some (approve, code) =>
      if negb approve then Some declined else
      if negb (safeHashEqual (st_protectedCodeSha256 b) (sha256Hex code)) then Some code_mismatch
      else None
  end.

(** ** Refusing *)

Definition consent_event (eventId eventType entityType entityId : jsstr) (b : StageBinding)
    (details : list (jsstr * json)) : AuditEventBody :=
  MkBody eventId eventType (Some (st_actor b)) (Some (st_client b)) (Some (st_tokenJti b)) entityType entityId
    (st_board b) [] (js "mcp") details.

Definition rejectConfirmation (s : StageRow) (a : AttemptRow) (input : ConfirmStagedActionInput)
    (reason : ConfirmationFailureReason) (responseSha256 : jsstr) : Tx DB unit :=
  let b := binding s in
  let retry := ci_retryRequestId input in
  let action := response_text (ci_responseAction input) in
  match reason with
  | expired =>
      update_stage (st_id b) stage_expired ≫= fun _ =>
      update_attempt (at_id a) retry responseSha256 action attempt_expired ≫= fun _ => mret tt
  | _ =>
      let cancelled := bool_decide (ci_responseAction input = cancel) in
      update_stage (st_id b) (if cancelled then stage_cancelled else stage_rejected) ≫= fun _ =>
      update_attempt (at_id a) retry responseSha256 action
        (if cancelled then attempt_cancelled
         else if bool_decide (ci_responseAction input = decline) then attempt_declined
         else attempt_accepted) ≫= fun _ => mret tt
  end ≫= fun _ =>
  eventId ← lift (UuidV7Schema (ci_consentRejectedEvent input));
  appendAuditEventsInTransaction
    [MkAppend (st_organization b)
       (consent_event eventId (js "consent_rejected") (js "action_stage") (st_id b) b
          [str "actionCode" (st_actionCode b); str "targetType" (st_targetType b);
           nullable "targetId" (st_targetId b); str "reason" (reason_text reason);
           str "inputResponseSha256" responseSha256]) None None None] ≫= fun _ => mret tt.

(** ** The record of a consent *)

Definition protected_record (stageId protectedCodeSha256 : jsstr) : json :=
  JObj [str "schemaVersion" (js "boardagent.protected-code-record.v1"); str "stageId" stageId;
        str "protectedCodeSha256" protectedCodeSha256].

Definition consent_record_json (consentId : jsstr) (b : StageBinding) (attemptId protectedRecordSha256 : jsstr)
    (stagedAt confirmedAt responseSha256 : jsstr) : json :=
  JObj [str "schemaVersion" (js "boardagent.consent-record.v1"); str "id" consentId;
        str "stageId" (st_id b); str "inputRequiredAttemptId" attemptId; str "actorMemberId" (st_actor b);
        nullable "actingForMemberId" (st_actingFor b); str "actionCode" (st_actionCode b);
        str "targetType" (st_targetType b); nullable "targetId" (st_targetId b);
        str "payloadSha256" (st_payloadSha256 b); nullable "packageSha256" (st_packageSha256 b);
        str "protectedCodeRecordSha256" protectedRecordSha256;
        str "accessTokenRecordId" (st_accessToken b); str "tokenJti" (st_tokenJti b);
        str "clientId" (st_client b); str "exactOrigin" (st_exactOrigin b); str "stagedAt" stagedAt;
        str "confirmedAt" confirmedAt; str "inputResponseSha256" responseSha256].

(** The row of a consent. *)
Definition consent_row (consentId : jsstr) (b : StageBinding) (attemptId protectedRecordSha256 : jsstr)
    (clock : Z) (recordSha256 : jsstr) : ConsentRow :=
  MkConsent consentId (st_organization b) (st_board b) (st_id b) attemptId (st_actor b) (st_actingFor b)
    (st_actionCode b) (st_targetType b) (st_targetId b) (st_payloadSha256 b) (st_packageSha256 b)
    protectedRecordSha256 (st_accessToken b) (st_tokenJti b) (st_client b) (st_exactOrigin b) (st_createdAt b)
    clock recordSha256.

(** [::jsonb] of the canonical texts the caller sends: a text with a NUL
    character is refused, as another error than the verifier's own. *)
Definition to_jsonb (bytes : list Z) : result json :=
  match utf8_decode bytes with
  | None => Throw (DatabaseError "42501")
  | Some text =>
      match strictParse text with
      | Throw _ => Throw (DatabaseError "42501")
      | Ok v => if has_nul v then Throw (DatabaseError "22P05") else Ok v
      end
  end.

Definition response_code (response : json) : option jsstr :=
  l ← members response;
  content ← required l "content" members;
  required content "confirmation_code" dAny.

(** The text SQL builds from string scalars in the order of the names. *)
Definition ordered_text (record : json) : list Z := utf8_encode (stringify (sort_json record)).

Definition administrative_actions : list jsstr :=
  map js ["manage_company_admin"; "manage_member_admin_delegation"].

(** What the stage and its attempt must be for the verifier of migration 0097. *)
Definition verifier_accepts (db : DB) (session : Session) (context : ActiveRequestContext) (s : StageRow)
    (a : AttemptRow) (code : jsstr) (retry arguments capabilities requestState : list Z) : bool :=
  let b := binding s in
  let clock := transaction_timestamp session in
  bool_decide (st_state s = stage_active) && (st_createdAt b <=? clock) && (clock <? st_expiresAt b)
  && bool_decide (st_contextSha256 b = set_context_sha256 session)
  && bool_decide (st_payloadSha256 b = sha256HexBytes (st_canonicalPayload b))
  && bool_decide (st_protectedCodeSha256 b = sha256Hex code)
  && bool_decide (at_organization a = ac_organizationId context) && bool_decide (at_state a = prepared)
  && bool_decide (at_originalName a = st_actionCode b)
  && negb (bool_decide (at_preparedRequestId a = retry))
  && bool_decide (at_originalArgumentsSha256 a = sha256HexBytes arguments)
  && bool_decide (at_capabilitiesSha256 a = sha256HexBytes capabilities)
  && bool_decide (at_requestState a = requestState)
  && bool_decide (at_requestStateSha256 a = sha256HexBytes requestState)
  && is_null (at_retryRequestId a) && is_null (at_inputResponseSha256 a) && is_null (at_responseAction a)
  && is_null (at_completedAt a)
  && existsb (token_current db clock (st_accessToken b) (ac_organizationId context) (ac_memberId context)
                (ac_clientId context) (ac_tokenJti context)) (access_token_records db)
  && negb (bool_decide (st_id b ∈ map cn_stage (consent_records db))).

(** [boardagent_record_confirmed_consent] *)
Definition boardagent_record_confirmed_consent (stageId consentId : jsstr)
    (retry arguments capabilities requestState response record : list Z) : Tx DB unit :=
  session ← ask;
  db ← get;
  let size (lo hi : Z) (bytes : list Z) := in_range lo hi (Z.of_nat (length bytes)) in
  context ← match readRequestContext session with Ok c => mret c | Throw _ => fail (DatabaseError "42501") end;
  db_check (bool_decide (transaction_scope session = js "request") && is_uuid_v7 stageId
            && is_uuid_v7 consentId && size 1 1024 retry && size 2 10485760 arguments
            && size 2 10485760 capabilities && size 32 4096 requestState && size 2 512 response
            && size 2 8192 record) "42501" ≫= fun _ =>
  s ← match List.find (fun r => bool_decide (st_id (binding r) = stageId)
              && bool_decide (st_organization (binding r) = ac_organizationId context)
              && bool_decide (st_actor (binding r) = ac_memberId context)
              && bool_decide (st_client (binding r) = ac_clientId context)
              && bool_decide (st_tokenJti (binding r) = ac_tokenJti context)) (action_stages db) with
      | Some s => mret s
      | None => fail (DatabaseError "42501")
      end;
  let b := binding s in
  request ← lift (to_jsonb arguments);
  answer ← lift (to_jsonb response);
  code ← match response_code answer with Some c => mret c | None => fail (DatabaseError "42501") end;
  db_check ((js_length code =? 8) && bool_decide (response = ordered_text (response_json accept
              (JObj [bool_member "approve" true; str "confirmation_code" code])))) "42501" ≫= fun _ =>
  db_check (negb (bool_decide (st_actionCode b ∈ administrative_actions))
            || administrative_snapshot_current db session b request) "42501" ≫= fun _ =>
  a ← match List.filter (fun a => bool_decide (at_stage a = st_id b)) (input_required_attempts db) with
      | [a] => mret a
      | _ => fail (DatabaseError "42501")
      end;
  db_check (verifier_accepts db session context s a code retry arguments capabilities requestState)
    "42501" ≫= fun _ =>
  let protectedSha256 := sha256HexBytes (ordered_text (protected_record (st_id b) (st_protectedCodeSha256 b))) in
  let clock := transaction_timestamp session in
  db_check (bool_decide (record = ordered_text (consent_record_json consentId b (at_id a) protectedSha256
              (to_char_utc (st_createdAt b)) (to_char_utc clock) (sha256HexBytes response))))
    "42501" ≫= fun _ =>
  let recordSha256 := sha256HexBytes record in
  db_check (forallb (fun c => negb (bool_decide (cn_id c = consentId))
              && negb (bool_decide (cn_stage c = st_id b)) && negb (bool_decide (cn_attempt c = at_id a))
              && negb (bool_decide (cn_recordSha256 c = recordSha256))) (consent_records db))
    "23505" ≫= fun _ =>
  put (with_consents db (consent_records db ++ [consent_row consentId b (at_id a) protectedSha256 clock recordSha256])).

(** ** Confirming *)

Record ConfirmedAct (T : Type) := MkAct {
  act_value : T;
  act_auditEvents : list AuditAppendInput;
  act_preappendedAuditSequences : list Z;
  act_finalizeAfterAudit : option (Tx DB unit)
}.
Arguments MkAct {T} _ _ _ _.
Arguments act_value {T} _.
Arguments act_auditEvents {T} _.
Arguments act_preappendedAuditSequences {T} _.
Arguments act_finalizeAfterAudit {T} _.

Inductive StagedActionResolution (T : Type) :=
  | Confirmed (value : T) (consentRecordId consentRecordSha256 : jsstr) (auditSequences : list Z)
  | NotConfirmed (reason : ConfirmationFailureReason).
Arguments Confirmed {T} _ _ _ _.
Arguments NotConfirmed {T} _.

Definition confirmProjection (s : StageRow) (a : AttemptRow) (retry : list Z) (responseSha256 : jsstr)
    : Tx DB unit :=
  stages ← update_stage (st_id (binding s)) stage_confirmed;
  attempts ← update_attempt (at_id a) retry responseSha256 (js "accept") attempt_confirmed;
  fail_if (negb (Nat.eqb stages 1) || negb (Nat.eqb attempts 1))
    (JsError "confirmation state changed before commit" []).

Definition consent_audit (eventId consentId recordSha256 : jsstr) (b : StageBinding) (attemptId : jsstr)
    : AuditAppendInput :=
  MkAppend (st_organization b)
    (consent_event eventId (js "consent_recorded") (js "consent_record") consentId b
       [str "stageId" (st_id b); str "inputRequiredAttemptId" attemptId; str "actionCode" (st_actionCode b);
        str "payloadSha256" (st_payloadSha256 b); nullable "packageSha256" (st_packageSha256 b);
        str "recordSha256" recordSha256]) (st_actingFor b) (Some consentId) None.

Definition tx_when (b : bool) (m : Tx DB unit) : Tx DB unit := if b then m else mret tt.

(** What follows a judgement without a reason to refuse. *)
Definition performConfirmation {T} (input : ConfirmStagedActionInput) (consentRecordId responseSha256 : jsstr)
    (s : StageRow) (a : AttemptRow) (act : jsstr -> Tx DB (ConfirmedAct T))
    (options : ConfirmStagedActionOptions) : Tx DB (StagedActionResolution T) :=
  session ← ask;
  let b := binding s in
  let confirmedAt := to_char_utc (transaction_timestamp session) in
  protectedSha256 ← lift (canonicalSha256 (protected_record (st_id b) (st_protectedCodeSha256 b)));
  let record := consent_record_json consentRecordId b (at_id a) protectedSha256
                  (to_char_utc (st_createdAt b)) confirmedAt responseSha256 in
  recordSha256 ← lift (canonicalSha256 record);
  arguments ← lift (canonicalJson (ci_originalArguments input));
  capabilities ← lift (canonicalJson (ci_clientCapabilities input));
  response ← lift (canonicalJson (response_json (ci_responseAction input) (ci_inputResponse input)));
  record_text ← lift (canonicalJson record);
  boardagent_record_confirmed_consent (st_id b) consentRecordId (ci_retryRequestId input)
    (utf8_encode arguments) (utf8_encode capabilities) (ci_requestStateBytes input) (utf8_encode response)
    (utf8_encode record_text) ≫= fun _ =>
  fail_if (exposeConfirmedProjectionToAct options && negb (appendConsentBeforeAct options))
    (JsError "early confirmed projection requires consent-before-act audit ordering" []) ≫= fun _ =>
  let projection := confirmProjection s a (ci_retryRequestId input) responseSha256 in
  tx_when (exposeConfirmedProjectionToAct options) projection ≫= fun _ =>
  eventId ← lift (UuidV7Schema (ci_consentRecordedEvent input));
  let consentAudit := consent_audit eventId consentRecordId recordSha256 b (at_id a) in
  consentAudits ← appendAuditEventsInTransaction
                    (if appendConsentBeforeAct options then [consentAudit] else []);
  confirmedAct ← act consentRecordId;
  fail_if (negb (appendConsentBeforeAct options)
           && negb (Nat.eqb (length (act_preappendedAuditSequences confirmedAct)) 0))
    (JsError "preappended action audits require consent-before-act ordering" []) ≫= fun _ =>
  trailingAudits ← appendAuditEventsInTransaction
    ((if appendConsentBeforeAct options then [] else [consentAudit]) ++ act_auditEvents confirmedAct);
  match act_finalizeAfterAudit confirmedAct with Some finalize => finalize | None => mret tt end ≫= fun _ =>
  tx_when (negb (exposeConfirmedProjectionToAct options)) projection ≫= fun _ =>
  mret (Confirmed (act_value confirmedAct) consentRecordId recordSha256
          (map sequence consentAudits ++ act_preappendedAuditSequences confirmedAct
           ++ map sequence trailingAudits)).

(** The comparison of the stage with the request that presents it. *)
Definition context_matches (context : ActiveRequestContext) (exactOrigin : jsstr) (b : StageBinding) : bool :=
  bool_decide (st_organization b = ac_organizationId context)
  && bool_decide (st_actor b = ac_memberId context) && bool_decide (st_client b = ac_clientId context)
  && bool_decide (st_tokenJti b = ac_tokenJti context) && bool_decide (st_exactOrigin b = exactOrigin).

(** What is decided about the row that was read. *)
Definition decideConfirmation {T} (input : ConfirmStagedActionInput) (consentRecordId : jsstr)
    (presented : Presented) (current : CurrentActionBindings) (s : StageRow) (a : AttemptRow)
    (act : jsstr -> Tx DB (ConfirmedAct T)) (options : ConfirmStagedActionOptions)
    : Tx DB (StagedActionResolution T) :=
  session ← ask;
  context ← lift (readRequestContext session);
  let b := binding s in
  if negb (context_matches context (pr_exactOrigin presented) b) then mret (NotConfirmed context_mismatch) else
  contextSha256 ← lift (currentContextSha256 session);
  if negb (safeHashEqual (st_contextSha256 b) contextSha256) then mret (NotConfirmed context_mismatch) else
  if negb (bool_decide (st_state s = stage_active)) || negb (bool_decide (at_state a = prepared))
  then mret (NotConfirmed stage_not_active) else
  assertCurrentToken (st_accessToken b) context ≫= fun _ =>
  match judge input presented current (transaction_timestamp session) s a with
  | Some reason =>
      rejectConfirmation s a input reason (pr_responseSha256 presented) ≫= fun _ =>
      mret (NotConfirmed reason)
  | None => performConfirmation input consentRecordId (pr_responseSha256 presented) s a act options
  end.

(** The digests of what is presented, or what is wrong with it. *)
Definition present (input : ConfirmStagedActionInput) : result (jsstr * jsstr * Presented) :=
  stageId ← UuidV7Schema (ci_stageId input);
  consentRecordId ← UuidV7Schema (ci_consentRecordId input);
  _ ← boundedBytes (ci_retryRequestId input) "retry request ID" 1 1024;
  _ ← boundedBytes (ci_requestStateBytes input) "request state" 32 4096;
  argumentsSha256 ← canonicalSha256 (ci_originalArguments input);
  _ ← FormElicitationCapabilitiesSchema (ci_clientCapabilities input);
  capabilitiesSha256 ← canonicalSha256 (ci_clientCapabilities input);
  exactOrigin ← exactHttpsOrigin (ci_exactOrigin input);
  responseSha256 ← canonicalSha256 (response_json (ci_responseAction input) (ci_inputResponse input));
  Ok (stageId, consentRecordId, MkPresented argumentsSha256 capabilitiesSha256 exactOrigin responseSha256).

Definition confirmStagedActionInTransaction {T} (input : ConfirmStagedActionInput)
    (lockAuthorizeAndReadBindings : Tx DB CurrentActionBindings) (act : jsstr -> Tx DB (ConfirmedAct T))
    (options : ConfirmStagedActionOptions) : Tx DB (StagedActionResolution T) :=
  presented ← lift (present input);
  let '(stageId, consentRecordId, presented) := presented in
  bindings ← lockAuthorizeAndReadBindings;
  payloadSha256 ← lift (Sha256HexSchema (cb_payloadSha256 bindings));
  packageSha256 ← lift (optionalHash (cb_packageSha256 bindings));
  session ← ask;
  lift (readRequestContext session) ≫= fun _ =>
  row ← readConfirmationRow stageId;
  match row with
  | None => mret (NotConfirmed stage_unavailable)
  | Some (s, a) =>
      decideConfirmation input consentRecordId presented (MkBindings payloadSha256 packageSha256) s a act
        options
  end.
End actions.
Arguments MkAct {W T} _ _ _ _.
Arguments act_value {W T} _.
Arguments act_auditEvents {W T} _.
Arguments act_preappendedAuditSequences {W T} _.
Arguments act_finalizeAfterAudit {W T} _.
Arguments Confirmed {T} _ _ _ _.
Arguments NotConfirmed {T} _.
