(* ===== verification/StagedMoves.v ===== *)
(** * What a transaction does to the stages

    The frame of the code that surrounds a confirmation, and the exact effect of
    staging, refusing and confirming on the tables. *)

From stdpp Require Import base numbers sorting strings list.
From Stdlib Require Import Lia.
From S2P Require Import Prelude JsString Encoding JsNumber Json JsonParse JsonCanon Schemas.
From S2P Require Import Decode VotingConsent KeyLifecycle AuditEvent Request Database AuditAppend StagedAction.

Local Open Scope Z_scope.

Definition stage_id (r : StageRow) : jsstr := st_id (binding r).

(** ** Moving rows *)

(** The binding of a stage never changes; its state changes at most once, away
    from active, into a state that is [allowed] for it. *)
Definition row_moved (allowed : jsstr -> StageState -> Prop) (r r' : StageRow) : Prop :=
  binding r' = binding r /\
  (r' = r \/ (st_state r = stage_active /\ st_state r' <> stage_active /\ allowed (stage_id r) (st_state r'))).
Abbreviation rows_moved allowed := (Forall2 (row_moved allowed)) (only parsing).

(** What code outside this protocol may do to a stage. *)
Definition not_confirming (_ : jsstr) (state : StageState) : Prop := state <> stage_confirmed.
(** What the confirmation of one stage may do. *)
Definition confirming_only (id : jsstr) (i : jsstr) (state : StageState) : Prop :=
  state = stage_confirmed -> i = id.

Lemma row_moved_refl allowed r : row_moved allowed r r.
Proof. split; [done|by left]. Qed.
Lemma row_moved_trans allowed r1 r2 r3 :
  row_moved allowed r1 r2 -> row_moved allowed r2 r3 -> row_moved allowed r1 r3.
Proof.
  intros [B1 M1] [B2 M2]. split; [congruence|].
  destruct M1 as [->|(A1 & N1 & P1)]; [done|]. destruct M2 as [->|(A2 & _)]; [by right|done].
Qed.
Lemma row_moved_weaken (allowed allowed' : jsstr -> StageState -> Prop) r r' :
  (forall i st, allowed i st -> allowed' i st) -> row_moved allowed r r' -> row_moved allowed' r r'.
Proof. intros Hw [B [->|(A & N & P)]]; split; try done; [by left|right; auto]. Qed.
Lemma row_moved_id allowed r r' : row_moved allowed r r' -> stage_id r' = stage_id r.
Proof. unfold stage_id. by intros [-> _]. Qed.
Lemma row_moved_still allowed r r' : row_moved allowed r r' -> st_state r <> stage_active -> r' = r.
Proof. intros [_ [->|(A & _)]]; done. Qed.

Lemma rows_moved_refl allowed rows : rows_moved allowed rows rows.
Proof. induction rows; constructor; [apply row_moved_refl|done]. Qed.
Lemma rows_moved_trans allowed l1 l2 l3 :
  rows_moved allowed l1 l2 -> rows_moved allowed l2 l3 -> rows_moved allowed l1 l3.
Proof.
  intros H1. revert l3. induction H1 as [|r1 r2 l1 l2 Hr _ IH]; intros l3 H2; inversion H2; subst; constructor.
  - by eapply row_moved_trans.
  - by apply IH.
Qed.
Lemma rows_moved_weaken (allowed allowed' : jsstr -> StageState -> Prop) l l' :
  (forall i st, allowed i st -> allowed' i st) -> rows_moved allowed l l' -> rows_moved allowed' l l'.
Proof. intros Hw Hl. eapply Forall2_impl; [exact Hl|]. intros r r'. by apply row_moved_weaken. Qed.
Lemma rows_moved_ids allowed l l' : rows_moved allowed l l' -> map stage_id l' = map stage_id l.
Proof. induction 1 as [|r r' l l' Hr _ IH]; cbn; [done|]. by rewrite (row_moved_id _ _ _ Hr), IH. Qed.

Lemma not_confirming_only id i st : not_confirming i st -> confirming_only id i st.
Proof. intros Hn Hc. by destruct Hn. Qed.
#[export] Hint Resolve row_moved_refl rows_moved_refl not_confirming_only : jsdb.

(** ** The update of one stage *)

Lemma change_stage_moved id state clock rows : state <> stage_active ->
  rows_moved (fun i st => i = id /\ st = state) rows (change_stage id (set_stage_state state clock) rows).1.
Proof.
  intros Hs. unfold change_stage. cbn [fst]. induction rows as [|r rows IH]; cbn [map]; constructor; [|done].
  destruct (bool_decide _ && bool_decide _) eqn:E; [|apply row_moved_refl]. boolify.
  split; [done|]. right. by split_and!.
Qed.

Lemma unique_row rows r r' :
  NoDup (map stage_id rows) -> r ∈ rows -> r' ∈ rows -> stage_id r = stage_id r' -> r = r'.
Proof.
  intros Hd (i & Hi)%list_elem_of_lookup (j & Hj)%list_elem_of_lookup E.
  assert (i = j) as ->; [|congruence]. eapply (NoDup_lookup (map stage_id rows)); [done|..];
    rewrite list_lookup_fmap, ?Hi, ?Hj; cbn; by rewrite ?E.
Qed.

(** The row of an active stage, and what becomes of it. *)
Lemma change_stage_hit id state clock rows r r' : NoDup (map stage_id rows) ->
  r ∈ rows -> stage_id r = id -> st_state r = stage_active ->
  r' ∈ (change_stage id (set_stage_state state clock) rows).1 -> stage_id r' = id ->
  r' = set_stage_state state clock r.
Proof.
  intros Hd Hr Hid Ha (q & -> & Hq)%list_elem_of_fmap Hid'.
  assert (stage_id q = id) as Hqi by (unfold stage_id in *; by destruct (_ && _)).
  assert (q = r) as -> by (eapply unique_row; [done..|congruence]).
  by rewrite !bool_decide_eq_true_2.
Qed.

Lemma change_stage_counted id change rows : (0 < (change_stage id change rows).2)%nat ->
  exists r, r ∈ rows /\ stage_id r = id /\ st_state r = stage_active.
Proof.
  unfold change_stage. cbn [snd]. intros Hn. destruct (List.filter _ rows) as [|r l] eqn:E; [cbn in Hn; lia|].
  exists r. assert (List.In r (r :: l)) as Hin by (by left). rewrite <- E in Hin.
  apply List.filter_In in Hin as [Hin Ht]. boolify. by rewrite list_elem_of_In.
Qed.

(** ** The answer to one attempt *)

(** Attempts change only by being answered. *)
Definition attempt_moved (id : jsstr) (state : AttemptState) (a a' : AttemptRow) : Prop :=
  a' = a \/ (at_id a = id /\ at_state a = prepared /\
             exists retry response action clock, a' = answer_attempt retry response action state clock a).

Lemma change_attempt_moved id retry response action state clock rows :
  Forall2 (attempt_moved id state) rows
    (change_attempt id (answer_attempt retry response action state clock) rows).1.
Proof.
  unfold change_attempt. cbn [fst]. induction rows as [|a rows IH]; cbn [map]; constructor; [|done].
  destruct (bool_decide _ && bool_decide _) eqn:E; [|by left]. boolify. right. split_and!; [done..|].
  by exists retry, response, action, clock.
Qed.

Lemma attempt_moved_same id state a a' : attempt_moved id state a a' ->
  at_id a' = at_id a /\ at_stage a' = at_stage a /\ at_organization a' = at_organization a.
Proof. intros [->|(_ & _ & ? & ? & ? & ? & ->)]; done. Qed.

Section effects.
Context `{Platform} `{IsoTime} {W : Type} `{!NodeText} `{!PgClock} `{!SqlAuthority W} `{!UrlParser}.
Implicit Types (db : Database W) (s : Session).

(** ** The frame of foreign code *)

(** Code outside the protocol, the callbacks included, may retire other stages
    and append audit events; it writes neither attempts nor consents. *)
Record foreign (db db' : Database W) : Prop := {
  fr_stages : rows_moved not_confirming (action_stages db) (action_stages db');
  fr_attempts : input_required_attempts db' = input_required_attempts db;
  fr_consents : consent_records db' = consent_records db;
  fr_audit : exists new, grows db db' new
}.

Definition honest {A} (m : Tx (Database W) A) : Prop :=
  forall s db a db', m s db = Ok (a, db') -> foreign db db'.

Lemma foreign_refl db : foreign db db.
Proof. split; [apply rows_moved_refl|done|done|]. exists []. apply grows_refl. Qed.
Lemma foreign_trans db1 db2 db3 : foreign db1 db2 -> foreign db2 db3 -> foreign db1 db3.
Proof.
  intros [S1 A1 C1 (n1 & G1)] [S2 A2 C2 (n2 & G2)]. split; [by eapply rows_moved_trans|congruence..|].
  exists (n1 ++ n2). by eapply grows_trans.
Qed.

Lemma audit_only_foreign db db' new : audit_only db db' -> grows db db' new -> foreign db db'.
Proof.
  intros E G. unfold audit_only in E. split; [..|by exists new]; rewrite E; [apply rows_moved_refl|done..].
Qed.

Lemma append_foreign inputs s db events db' :
  appendAuditEventsInTransaction inputs s db = Ok (events, db') -> foreign db db' /\ grows db db' events.
Proof. intros [A G _ _]%append_ok. split; [by eapply audit_only_foreign|done]. Qed.

(** ** The statements *)

Lemma update_stage_ok id state s db n db' : update_stage id state s db = Ok (n, db') ->
  let change := change_stage id (set_stage_state state (transaction_timestamp s)) (action_stages db) in
  n = change.2 /\ db' = with_stages db change.1.
Proof.
  unfold update_stage. intros E. inv_tx. destruct (change_stage _ _ _) as [rows count] eqn:Ec. by inv_tx.
Qed.

Lemma update_attempt_ok id retry response action state s db n db' :
  update_attempt id retry response action state s db = Ok (n, db') ->
  let change := change_attempt id (answer_attempt retry response action state (transaction_timestamp s))
                  (input_required_attempts db) in
  n = change.2 /\ db' = with_attempts db change.1.
Proof.
  unfold update_attempt. intros E. inv_tx. destruct (change_attempt _ _ _) as [rows count] eqn:Ec. by inv_tx.
Qed.

Lemma grows_same_audit db db' : audit_events db' = audit_events db ->
  audit_chain_head db' = audit_chain_head db -> grows db db' [].
Proof.
  intros Ee Eh. split; [exists []; by rewrite app_nil_r|]. intros events (F & C & E). rewrite app_nil_r.
  unfold audit_chain. by rewrite Ee, Eh.
Qed.
End effects.
