(* ===== verification/StagedEffects.v ===== *)
(** * The invariant of staged actions

    The relation between stages, attempts, consents and the audit chain, and
    that staging, refusing and confirming keep it. *)

From stdpp Require Import base numbers sorting strings list.
From Stdlib Require Import Lia.
From S2P Require Import Prelude JsString Encoding JsNumber Json JsonParse JsonCanon Schemas.
From S2P Require Import Decode VotingConsent KeyLifecycle AuditEvent Request Database AuditAppend StagedAction.
From S2P Require Import StagedMoves.

Local Open Scope Z_scope.

(** A stage and its one attempt. A replaced or expired stage leaves the attempt
    as it was prepared. *)
Record paired (r : StageRow) (a : AttemptRow) : Prop := {
  pd_stage : at_stage a = stage_id r;
  pd_confirmed : at_state a = attempt_confirmed <-> st_state r = stage_confirmed;
  pd_active : st_state r = stage_active -> at_state a = prepared
}.

Section invariant.
Context `{Platform} `{IsoTime} {W : Type} `{!NodeText} `{!PgClock} `{!SqlAuthority W} `{!UrlParser}.
Implicit Types (db : Database W) (s : Session).

(** Every stage has exactly one attempt; among the active stages there is one
    per key; a stage is confirmed exactly when there is a consent for it, and
    then there is one; the audit rows are a chain from its genesis. *)
Record wf (db : Database W) : Prop := {
  wf_ids : NoDup (map stage_id (action_stages db));
  wf_attempt_ids : NoDup (map at_id (input_required_attempts db));
  wf_paired : Forall2 paired (action_stages db) (input_required_attempts db);
  wf_active : forall r r', r ∈ action_stages db -> r' ∈ action_stages db ->
    st_state r = stage_active -> st_state r' = stage_active ->
    same_key (binding r) (binding r') = true -> r = r';
  wf_consent_once : NoDup (map cn_stage (consent_records db));
  wf_consents : forall id, id ∈ map cn_stage (consent_records db) <->
    exists r, r ∈ action_stages db /\ stage_id r = id /\ st_state r = stage_confirmed;
  wf_audit : audit_ok db
}.

(** ** Moving the stages *)

Lemma rows_moved_in allowed rows rows' r' : Forall2 (row_moved allowed) rows rows' -> r' ∈ rows' ->
  exists r, r ∈ rows /\ row_moved allowed r r'.
Proof.
  intros Hm (i & Hi)%list_elem_of_lookup. destruct (Forall2_lookup_r _ _ _ _ _ Hm Hi) as (r & Hr & Hrr).
  exists r. split; [by eapply list_elem_of_lookup_2|done].
Qed.

Lemma rows_moved_from allowed rows rows' r : Forall2 (row_moved allowed) rows rows' -> r ∈ rows ->
  exists r', r' ∈ rows' /\ row_moved allowed r r'.
Proof.
  intros Hm (i & Hi)%list_elem_of_lookup. destruct (Forall2_lookup_l _ _ _ _ _ Hm Hi) as (r' & Hr & Hrr).
  exists r'. split; [by eapply list_elem_of_lookup_2|done].
Qed.

Lemma row_moved_active allowed r r' : row_moved allowed r r' -> st_state r' = stage_active -> r' = r.
Proof. by intros [_ [->|(_ & N & _)]]. Qed.

Lemma moved_active_key allowed db db' : wf db ->
  Forall2 (row_moved allowed) (action_stages db) (action_stages db') ->
  forall r r', r ∈ action_stages db' -> r' ∈ action_stages db' ->
  st_state r = stage_active -> st_state r' = stage_active ->
  same_key (binding r) (binding r') = true -> r = r'.
Proof.
  intros Hw Hm r r' Hr Hr' Ha Ha' Hk.
  destruct (rows_moved_in _ _ _ _ Hm Hr) as (q & Hq & Hqr).
  destruct (rows_moved_in _ _ _ _ Hm Hr') as (q' & Hq' & Hqr').
  pose proof (row_moved_active _ _ _ Hqr Ha) as ->. pose proof (row_moved_active _ _ _ Hqr' Ha') as ->.
  by eapply wf_active.
Qed.

Lemma foreign_confirmed allowed rows rows' id : Forall2 (row_moved allowed) rows rows' ->
  (forall i st, allowed i st -> st <> stage_confirmed) ->
  (exists r, r ∈ rows /\ stage_id r = id /\ st_state r = stage_confirmed) <->
  (exists r, r ∈ rows' /\ stage_id r = id /\ st_state r = stage_confirmed).
Proof.
  intros Hm Hn. split.
  - intros (r & Hr & Hi & Hc). destruct (rows_moved_from _ _ _ _ Hm Hr) as (r' & Hr' & M).
    assert (r' = r) as -> by (eapply row_moved_still; [done|congruence]). by exists r.
  - intros (r & Hr & Hi & Hc). destruct (rows_moved_in _ _ _ _ Hm Hr) as (q & Hq & [B [->|(A & N & P)]]).
    + by exists q.
    + by destruct (Hn _ _ P).
Qed.

Lemma paired_moved r r' a : row_moved not_confirming r r' -> paired r a -> paired r' a.
Proof.
  intros M [Ps Pc Pa]. pose proof (row_moved_id _ _ _ M) as E. destruct M as [_ [->|(A & N & P)]]; [done|].
  split; [by rewrite E| |by intros ?].
  rewrite (Pa A). split; [done|by intros ?].
Qed.

Lemma wf_foreign db db' : foreign db db' -> wf db -> wf db'.
Proof.
  intros [S A C (new & G)] Hw. split.
  - rewrite (rows_moved_ids _ _ _ S). by apply wf_ids.
  - rewrite A. by apply wf_attempt_ids.
  - rewrite A. pose proof (wf_paired _ Hw) as Hp. revert S Hp. generalize (action_stages db').
    generalize (input_required_attempts db). generalize (action_stages db). clear.
    intros rows attempts rows' S. revert attempts. induction S as [|r r' rows rows' M _ IH]; intros attempts Hp;
      inversion Hp; subst; constructor; [by eapply paired_moved|by apply IH].
  - by eapply moved_active_key.
  - rewrite C. by apply wf_consent_once.
  - intros id. rewrite C, (wf_consents _ Hw). by eapply foreign_confirmed; [|intros i st].
  - eapply grows_ok; [exact G|by apply wf_audit].
Qed.

(** ** Staging *)

(** The stages before the insert; the new stage and its attempt. *)
Record staged_as (db db' : Database W) (rows : list StageRow) (b : StageBinding) (a : AttemptRow) : Prop := {
  sg_moved : Forall2 (row_moved not_confirming) (action_stages db) rows;
  sg_rows : action_stages db' = rows ++ [MkStage b stage_active None None None];
  sg_fresh : Forall (fun r => stage_id r <> st_id b /\
    (st_state r = stage_active -> same_key (binding r) b = false)) rows;
  sg_attempts : input_required_attempts db' = input_required_attempts db ++ [a];
  sg_attempt_fresh : at_id a ∉ map at_id (input_required_attempts db);
  sg_attempt : at_stage a = st_id b /\ at_state a = prepared;
  sg_consents : consent_records db' = consent_records db;
  sg_audit : exists new, grows db db' new
}.

Lemma insert_stage_ok b s db r : insert_stage b s db = Ok r ->
  r = (tt, with_stages db (action_stages db ++ [MkStage b stage_active None None None])) /\
  Forall (fun r => stage_id r <> st_id b /\ (st_state r = stage_active -> same_key (binding r) b = false))
    (action_stages db).
Proof.
  unfold insert_stage. intros E. inv_tx. split; [done|].
  match goal with Hf : forallb _ _ = true |- _ => rewrite forallb_forall in Hf; rename Hf into Hall end.
  apply List.Forall_forall. intros q Hq. specialize (Hall q Hq). boolify. split; [done|]. intros Ha.
  match goal with Hk : _ && _ = false |- _ => rewrite Ha in Hk; by rewrite bool_decide_refl in Hk end.
Qed.

Lemma insert_attempt_ok a s db r : insert_attempt a s db = Ok r ->
  r = (tt, with_attempts db (input_required_attempts db ++ [a])) /\
  at_id a ∉ map at_id (input_required_attempts db).
Proof.
  unfold insert_attempt. intros E. inv_tx. split; [done|].
  match goal with Hf : forallb _ _ = true |- _ => rewrite forallb_forall in Hf; rename Hf into Hall end.
  intros (q & Hi & Hq)%list_elem_of_fmap. apply list_elem_of_In in Hq. specialize (Hall q Hq). boolify.
  congruence.
Qed.

Lemma foreign_moved db db' : foreign db db' -> exists new, grows db db' new.
Proof. by intros []. Qed.

Lemma replace_moved id s db u db' : replace_active id s db = Ok (u, db') -> foreign db db'.
Proof.
  destruct id as [id|]; cbn [replace_active]; intros E; inv_tx; [|apply foreign_refl].
  match goal with Hu : update_stage _ _ _ _ = Ok _ |- _ => apply update_stage_ok in Hu as [_ ->] end.
  split; [|done|done|exists []; by apply grows_same_audit].
  eapply rows_moved_weaken; [|by apply change_stage_moved]. by intros i st [_ ->].
Qed.

Lemma stage_effect input lock s db r db' : honest lock ->
  stageActionInTransaction input lock s db = Ok (r, db') ->
  exists rows b a, staged_as db db' rows b a /\ st_id b = sd_stageId r /\
    at_id a = sd_inputRequiredAttemptId r.
Proof.
  intros Hlock E. unfold stageActionInTransaction, assertCurrentToken in E.
  apply tx_bind_ok in E as (u & db1 & Hl%Hlock & E). inv_tx.
  match goal with Hr : replace_active _ _ _ = Ok _ |- _ => apply replace_moved in Hr end.
  match goal with Hi : insert_stage _ _ _ = Ok _ |- _ => apply insert_stage_ok in Hi as [Hi Hfresh] end.
  match goal with Hi : insert_attempt _ _ _ = Ok _ |- _ => apply insert_attempt_ok in Hi as [Hi Hafresh] end.
  match goal with Hi : appendAuditEventsInTransaction _ _ _ = Ok _ |- _ => apply append_ok in Hi as [AO GA _ _] end.
  inv_tx.
  match goal with Hr : foreign ?d ?d' |- _ => lazymatch d with db => fail | _ =>
    pose proof (foreign_trans _ _ _ Hl Hr) as [S A C (n & G)] end end.
  eexists _, _, _. split.
  { split.
    - exact S.
    - rewrite AO. reflexivity.
    - exact Hfresh.
    - rewrite AO. cbn [with_audit with_attempts with_stages input_required_attempts]. rewrite A. reflexivity.
    - cbn [with_stages input_required_attempts] in Hafresh. by rewrite <- A.
    - done.
    - rewrite AO. exact C.
    - eexists. eapply grows_trans; [exact G|]. exact GA. }
  split; reflexivity.
Qed.

Lemma map_snoc_nodup {A B} (f : A -> B) l x : NoDup (map f l) -> f x ∉ map f l -> NoDup (map f (l ++ [x])).
Proof.
  intros Hd Hx. rewrite map_app. apply NoDup_app. split_and!; [done| |apply NoDup_singleton].
  intros y Hy ->%list_elem_of_singleton. done.
Qed.

Lemma fresh_id b rows : Forall (fun r => stage_id r <> st_id b /\
    (st_state r = stage_active -> same_key (binding r) b = false)) rows -> st_id b ∉ map stage_id rows.
Proof.
  rewrite List.Forall_forall. intros Hf (r & E & Hr)%list_elem_of_fmap. apply list_elem_of_In in Hr.
  by destruct (Hf r Hr) as [Hn _].
Qed.

Lemma same_key_sym a b : same_key a b = same_key b a.
Proof.
  unfold same_key. f_equal; [f_equal; [f_equal; [f_equal|]|]|]; apply bool_decide_ext; split; congruence.
Qed.

Lemma wf_staged db db' rows b a : staged_as db db' rows b a -> wf db -> wf db'.
Proof.
  intros [S E F A Af [Aa Ap] C (new & G)] Hw.
  assert (wf (with_stages db rows)) as Hm.
  { apply (wf_foreign db); [|done]. split; [done..|]. exists []. by apply grows_same_audit. }
  destruct Hm as [Hi Hai Hp Ha Hc Hcs Hau]. cbn [with_stages action_stages input_required_attempts
    consent_records] in *. split.
  - rewrite E. apply map_snoc_nodup; [done|]. by apply fresh_id.
  - rewrite A. by apply map_snoc_nodup.
  - rewrite E, A. apply Forall2_app; [done|]. constructor; [|done]. split; cbn; [done|by rewrite Ap|done].
  - rewrite List.Forall_forall in F. intros r r'. rewrite E, !elem_of_app, !list_elem_of_singleton.
    intros [Hr| ->] [Hr'| ->] Sr Sr'; [by apply Ha| | |done]; cbn [binding] in *; intros Hk;
      match goal with Hq : ?q ∈ rows |- _ => apply list_elem_of_In in Hq; destruct (F q Hq) as [_ Hk'] end.
    + by rewrite Hk' in Hk.
    + by rewrite same_key_sym, Hk' in Hk.
  - by rewrite C.
  - intros id. rewrite C, Hcs, E. setoid_rewrite elem_of_app. setoid_rewrite list_elem_of_singleton.
    split; [intros (r & ? & ?); exists r; auto|]. intros (r & [Hr| ->] & Hid & Hst); [by exists r|done].
  - eapply grows_ok; [exact G|by apply wf_audit].
Qed.

(** ** Settling one stage *)

(** The stage ends in [state] and its attempt in [astate]; other code may have
    retired other stages. *)
Definition row_settled (id : jsstr) (state : StageState) (r r' : StageRow) : Prop :=
  binding r' = binding r /\ if decide (stage_id r = id) then st_state r' = state else row_moved not_confirming r r'.
Definition attempt_settled (id : jsstr) (state : AttemptState) (a a' : AttemptRow) : Prop :=
  at_id a' = at_id a /\ at_stage a' = at_stage a /\
  if decide (at_id a = id) then at_state a' = state else a' = a.

Record settled (db db' : Database W) (r : StageRow) (a : AttemptRow) (state : StageState)
    (astate : AttemptState) : Prop := {
  se_read : r ∈ action_stages db /\ a ∈ input_required_attempts db;
  se_attempt : at_stage a = stage_id r;
  se_was : st_state r = stage_active;
  se_stages : Forall2 (row_settled (stage_id r) state) (action_stages db) (action_stages db');
  se_attempts : Forall2 (attempt_settled (at_id a) astate) (input_required_attempts db)
                  (input_required_attempts db');
  se_state : state <> stage_active /\ (astate = attempt_confirmed <-> state = stage_confirmed)
}.

Lemma settled_ids id state rows rows' : Forall2 (row_settled id state) rows rows' ->
  map stage_id rows' = map stage_id rows.
Proof.
  induction 1 as [|r r' rows rows' [B _] _ IH]; cbn; [done|]. rewrite IH. unfold stage_id. by rewrite B.
Qed.
Lemma settled_attempt_ids id state rows rows' : Forall2 (attempt_settled id state) rows rows' ->
  map at_id rows' = map at_id rows.
Proof. induction 1 as [|a a' rows rows' [E _] _ IH]; cbn; [done|]. by rewrite IH, E. Qed.

Lemma paired_attempt_unique rows attempts a a' : NoDup (map stage_id rows) -> Forall2 paired rows attempts ->
  a ∈ attempts -> a' ∈ attempts -> at_stage a = at_stage a' -> a = a'.
Proof.
  intros Hd Hp (i & Hi)%list_elem_of_lookup (j & Hj)%list_elem_of_lookup E.
  destruct (Forall2_lookup_r _ _ _ _ _ Hp Hi) as (r & Hr & [Pr _ _]).
  destruct (Forall2_lookup_r _ _ _ _ _ Hp Hj) as (r' & Hr' & [Pr' _ _]).
  assert (i = j) as ->; [|congruence]. apply (NoDup_lookup (map stage_id rows) i j (stage_id r)); [done|..];
    rewrite list_lookup_fmap, ?Hr, ?Hr'; cbn; congruence.
Qed.

Lemma settled_paired db db' r a state astate : wf db -> settled db db' r a state astate ->
  Forall2 paired (action_stages db') (input_required_attempts db').
Proof.
  intros Hw [[Hr Ha] Hs Hact S A [Hn Hc]]. pose proof (wf_paired _ Hw) as Hp. pose proof (wf_ids _ Hw) as Hd.
  pose proof (wf_attempt_ids _ Hw) as Hda.
  apply Forall2_same_length_lookup. split.
  { rewrite <- (Forall2_length _ _ _ S), <- (Forall2_length _ _ _ A). by eapply Forall2_length. }
  intros i q b Hq Hb. destruct (Forall2_lookup_r _ _ _ _ _ S Hq) as (q0 & Hq0 & [B M]).
  destruct (Forall2_lookup_r _ _ _ _ _ A Hb) as (b0 & Hb0 & (Eb & Es & N)).
  pose proof (Forall2_lookup_lr _ _ _ _ _ _ Hp Hq0 Hb0) as P.
  assert (stage_id q = stage_id q0) as Eq by (unfold stage_id; by rewrite B).
  assert (stage_id q0 = stage_id r <-> at_id b0 = at_id a) as Hiff.
  { pose proof (list_elem_of_lookup_2 _ _ _ Hb0) as Hb0'. split; intros E.
    - f_equal. eapply paired_attempt_unique; [exact Hd|exact Hp|done..|]. rewrite (pd_stage _ _ P). congruence.
    - assert (b0 = a) as ->; [|rewrite <- (pd_stage _ _ P); congruence].
      apply list_elem_of_lookup in Ha as (j & Hj).
      assert (i = j) as ->; [|congruence]. apply (NoDup_lookup (map at_id (input_required_attempts db)) i j (at_id a));
        [done|..]; rewrite list_lookup_fmap, ?Hb0, ?Hj; cbn; congruence. }
  destruct (decide (stage_id q0 = stage_id r)) as [E|E].
  - rewrite decide_True in N by tauto. split; [rewrite Eq, Es; by apply pd_stage|rewrite N, M; tauto|congruence].
  - rewrite decide_False in N by tauto. subst b. by eapply paired_moved.
Qed.

Lemma settled_row_in id state rows rows' q' : Forall2 (row_settled id state) rows rows' -> q' ∈ rows' ->
  exists q, q ∈ rows /\ stage_id q = stage_id q' /\ row_settled id state q q'.
Proof.
  intros Hm (i & Hi)%list_elem_of_lookup. destruct (Forall2_lookup_r _ _ _ _ _ Hm Hi) as (q & Hq & Hqq).
  exists q. split_and!; [by eapply list_elem_of_lookup_2| |done]. destruct Hqq as [B _]. unfold stage_id. by rewrite B.
Qed.
Lemma settled_row_from id state rows rows' q : Forall2 (row_settled id state) rows rows' -> q ∈ rows ->
  exists q', q' ∈ rows' /\ stage_id q = stage_id q' /\ row_settled id state q q'.
Proof.
  intros Hm (i & Hi)%list_elem_of_lookup. destruct (Forall2_lookup_l _ _ _ _ _ Hm Hi) as (q' & Hq & Hqq).
  exists q'. split_and!; [by eapply list_elem_of_lookup_2| |done]. destruct Hqq as [B _]. unfold stage_id. by rewrite B.
Qed.

Lemma settled_active id state q q' : row_settled id state q q' -> state <> stage_active ->
  st_state q' = stage_active -> q' = q.
Proof. intros [_ M] Hn Ha. case_decide; [congruence|by eapply row_moved_active]. Qed.

(** Which stages are confirmed afterwards. *)
Lemma settled_confirmed db db' r a state astate i : wf db -> settled db db' r a state astate ->
  (exists q, q ∈ action_stages db' /\ stage_id q = i /\ st_state q = stage_confirmed) <->
  (exists q, q ∈ action_stages db /\ stage_id q = i /\ st_state q = stage_confirmed) \/
  (i = stage_id r /\ state = stage_confirmed).
Proof.
  intros Hw [[Hr _] _ Hact S _ _]. split.
  - intros (q' & Hq' & Hi & Hc). destruct (settled_row_in _ _ _ _ _ S Hq') as (q & Hq & Eq & [B M]).
    case_decide as Hd; [right; split; congruence|left]. exists q. split_and!; [done|congruence|].
    destruct M as [_ [->|(_ & _ & N)]]; [done|by destruct N].
  - intros [(q & Hq & Hi & Hc)|[-> ->]].
    + destruct (settled_row_from _ _ _ _ _ S Hq) as (q' & Hq' & Eq & [B M]). exists q'.
      split_and!; [done|congruence|]. case_decide as Hd.
      * assert (q = r) as -> by (eapply unique_row; [by apply wf_ids|done..]). congruence.
      * destruct M as [_ [->|(M & _)]]; [done|congruence].
    + destruct (settled_row_from _ _ _ _ _ S Hr) as (q' & Hq' & Eq & [B M]). exists q'.
      rewrite decide_True in M by done. by split_and!.
Qed.

Lemma wf_settled db db' r a state astate : wf db -> settled db db' r a state astate ->
  (exists new, grows db db' new) -> NoDup (map cn_stage (consent_records db')) ->
  (forall i, i ∈ map cn_stage (consent_records db') <->
     i ∈ map cn_stage (consent_records db) \/ (i = stage_id r /\ state = stage_confirmed)) -> wf db'.
Proof.
  intros Hw Hs [new G] Hd Hc. pose proof Hs as [_ _ _ S A [Hn _]]. split.
  - rewrite (settled_ids _ _ _ _ S). by apply wf_ids.
  - rewrite (settled_attempt_ids _ _ _ _ A). by apply wf_attempt_ids.
  - by eapply settled_paired.
  - intros q q' Hq Hq' Sq Sq' Hk.
    destruct (settled_row_in _ _ _ _ _ S Hq) as (p & Hp & _ & M).
    destruct (settled_row_in _ _ _ _ _ S Hq') as (p' & Hp' & _ & M').
    pose proof (settled_active _ _ _ _ M Hn Sq) as ->. pose proof (settled_active _ _ _ _ M' Hn Sq') as ->.
    by eapply wf_active.
  - done.
  - intros i. rewrite Hc, (wf_consents _ Hw). symmetry. by apply (settled_confirmed db db' r a state astate).
  - eapply grows_ok; [exact G|by apply wf_audit].
Qed.

Lemma wf_refused db db' r a state astate : wf db -> settled db db' r a state astate ->
  state <> stage_confirmed -> consent_records db' = consent_records db -> (exists new, grows db db' new) -> wf db'.
Proof.
  intros Hw Hs Hn C G. apply (wf_settled db db' r a state astate); [done..|rewrite C; by apply wf_consent_once|]. intros i. rewrite C. tauto.
Qed.

Lemma wf_confirmed db db' r a c : wf db -> settled db db' r a stage_confirmed attempt_confirmed ->
  consent_records db' = consent_records db ++ [c] -> cn_stage c = stage_id r ->
  (exists new, grows db db' new) -> wf db'.
Proof.
  intros Hw Hs C Hc G. apply (wf_settled db db' r a stage_confirmed attempt_confirmed); [done..| |].
  - rewrite C. apply map_snoc_nodup; [by apply wf_consent_once|]. rewrite Hc, (wf_consents _ Hw).
    intros (q & Hq & Hi & Hst). pose proof (se_was _ _ _ _ _ _ Hs). destruct (se_read _ _ _ _ _ _ Hs) as [Hr _].
    assert (q = r) as -> by (eapply unique_row; [by apply wf_ids|done..]). congruence.
  - intros i. rewrite C, map_app, elem_of_app. cbn [map]. rewrite list_elem_of_singleton, Hc. tauto.
Qed.

(** ** Reading, refusing and confirming *)

(** A stage of this identifier with an attempt, as the request sees it. *)
Record presented_stage (id : jsstr) (s : Session) (db : Database W) (r : StageRow) (a : AttemptRow) : Prop := {
  ps_stage : r ∈ action_stages db;
  ps_attempt : a ∈ input_required_attempts db;
  ps_id : stage_id r = id;
  ps_of : at_stage a = stage_id r;
  ps_visible : stage_visible db s (binding r) = true /\ attempt_visible s a = true
}.

Lemma readConfirmationRow_ok id s db o db' : readConfirmationRow id s db = Ok (o, db') ->
  db' = db /\ match o with
               | Some (r, a) => presented_stage id s db r a
               | None => forall r a, ~ presented_stage id s db r a
               end.
Proof.
  unfold readConfirmationRow. intros E. inv_tx. split; [done|]. destruct (head _) as [[r a]|] eqn:Eh.
  - apply head_Some_elem_of in Eh.
    apply list_elem_of_In, in_flat_map in Eh as (q & Hq & Hp).
    apply List.filter_In in Hq as [Hq Tq]. apply in_map_iff in Hp as (b & [= -> ->] & Hb).
    apply List.filter_In in Hb as [Hb Tb]. boolify. split; rewrite ?list_elem_of_In; done.
  - apply head_None in Eh. intros r a [Hr Ha Hid Hof [Vr Va]].
    assert ((r, a) ∈ []) as []%elem_of_nil. rewrite <- Eh. apply list_elem_of_In, in_flat_map. exists r. split.
    + apply List.filter_In. split; [by apply list_elem_of_In|]. rewrite Vr. by rewrite bool_decide_eq_true_2.
    + apply in_map_iff. exists a. split; [done|]. apply List.filter_In. split; [by apply list_elem_of_In|].
      rewrite Va. by rewrite bool_decide_eq_true_2.
Qed.

Lemma change_attempt_settled id retry response action state clock rows :
  (forall a, a ∈ rows -> at_id a = id -> at_state a = prepared) ->
  Forall2 (attempt_settled id state) rows
    (change_attempt id (answer_attempt retry response action state clock) rows).1.
Proof.
  unfold change_attempt. cbn [fst]. induction rows as [|a rows IH]; intros Hp; cbn [map]; constructor.
  - destruct (decide (at_id a = id)) as [E|E].
    + rewrite !bool_decide_eq_true_2 by first [done|apply Hp; [by left|done]].
      split; [done|split; [done|]]. by rewrite decide_True.
    + rewrite bool_decide_eq_false_2 by done. split; [done|split; [done|]]. by rewrite decide_False.
  - apply IH. intros b Hb. apply Hp. by right.
Qed.

(** The stage whose attempt was read is active and its attempt prepared. *)
Record readable (db : Database W) (r : StageRow) (a : AttemptRow) : Prop := {
  rd_stage : r ∈ action_stages db;
  rd_attempt : a ∈ input_required_attempts db;
  rd_of : at_stage a = stage_id r;
  rd_active : st_state r = stage_active;
  rd_prepared : at_state a = prepared
}.

Lemma readable_attempt db r a : wf db -> readable db r a ->
  forall b, b ∈ input_required_attempts db -> at_id b = at_id a -> at_state b = prepared.
Proof.
  intros Hw [Hr Ha _ _ Hp] b Hb E. assert (b = a) as ->; [|done].
  apply list_elem_of_lookup in Hb as (i & Hi). apply list_elem_of_lookup in Ha as (j & Hj).
  assert (i = j) as ->; [|congruence].
  apply (NoDup_lookup (map at_id (input_required_attempts db)) i j (at_id a)); [by apply wf_attempt_ids|..];
    rewrite list_lookup_fmap, ?Hi, ?Hj; cbn; congruence.
Qed.

Lemma change_stage_settled rows r state clock : NoDup (map stage_id rows) -> r ∈ rows ->
  st_state r = stage_active ->
  Forall2 (row_settled (stage_id r) state) rows
    (change_stage (stage_id r) (set_stage_state state clock) rows).1.
Proof.
  intros Hd Hr Ha. unfold change_stage. cbn [fst].
  assert (forall q, q ∈ rows -> stage_id q = stage_id r -> q = r) as Hu
    by (intros q Hq E; by eapply unique_row).
  clear Hr Hd. induction rows as [|q rows IH]; cbn [map]; constructor.
  - destruct (decide (stage_id q = stage_id r)) as [E|E].
    + rewrite (Hu q) by first [done|by left]. rewrite !bool_decide_eq_true_2 by done. cbn.
      split; [done|]. by rewrite decide_True.
    + rewrite bool_decide_eq_false_2 by done. cbn. split; [done|]. rewrite decide_False by done.
      apply row_moved_refl.
  - apply IH. intros p Hp. apply Hu. by right.
Qed.

(** ** Refusing *)

(** What a refused stage and its attempt become. *)
Definition refused_as (reason : ConfirmationFailureReason) (action : ResponseAction) : StageState * AttemptState :=
  match reason, action with
  | expired, _ => (stage_expired, attempt_expired)
  | _, cancel => (stage_cancelled, attempt_cancelled)
  | _, decline => (stage_rejected, attempt_declined)
  | _, accept => (stage_rejected, attempt_accepted)
  end.

(** The event of a refusal. *)
Record rejection_recorded (reason : ConfirmationFailureReason) (sha : jsstr) (r : StageRow) (event : AuditEvent)
    : Prop := {
  rj_type : eventType (event_body event) = js "consent_rejected";
  rj_entity : entityId (event_body event) = stage_id r;
  rj_actor : actorMemberId (event_body event) = Some (st_actor (binding r));
  rj_details : details (event_body event) =
    [str "actionCode" (st_actionCode (binding r)); str "targetType" (st_targetType (binding r));
     nullable "targetId" (st_targetId (binding r)); str "reason" (reason_text reason);
     str "inputResponseSha256" sha]
}.

(** The two updates of a refusal. *)
Lemma refuse_updates r a input reason sha s db db1 db2 n m state astate :
  refused_as reason (ci_responseAction input) = (state, astate) ->
  wf db -> readable db r a ->
  update_stage (stage_id r) state s db = Ok (n, db1) ->
  update_attempt (at_id a) (ci_retryRequestId input) sha (response_text (ci_responseAction input)) astate s db1
  = Ok (m, db2) ->
  settled db db2 r a state astate /\ consent_records db2 = consent_records db /\ grows db db2 [].
Proof.
  intros Es Hw Hread [_ ->]%update_stage_ok [_ ->]%update_attempt_ok.
  assert (state <> stage_active /\ state <> stage_confirmed /\ astate <> attempt_confirmed) as (N1 & N2 & N3)
    by (unfold refused_as in Es; destruct reason, (ci_responseAction input); by injection Es as <- <-).
  destruct Hread as [Hr Ha Hof Hact Hp] eqn:Eq. split_and!; [|done|by apply grows_same_audit].
  split; [done..| | |tauto]; cbn [with_attempts with_stages action_stages input_required_attempts].
  - apply change_stage_settled; [by apply wf_ids|done..].
  - apply change_attempt_settled. by eapply readable_attempt.
Qed.

Lemma reject_effect r a input reason sha s db u db' : wf db -> readable db r a ->
  rejectConfirmation r a input reason sha s db = Ok (u, db') ->
  let '(state, astate) := refused_as reason (ci_responseAction input) in
  settled db db' r a state astate /\ consent_records db' = consent_records db /\
  exists event, grows db db' [event] /\ rejection_recorded reason sha r event.
Proof.
  intros Hw Hread E. destruct (refused_as _ _) as [state astate] eqn:Es.
  unfold rejectConfirmation in E. apply tx_bind_ok in E as (v & d & Hu & E). inv_tx.
  assert (settled db d r a state astate /\ consent_records d = consent_records db /\ grows db d []) as (S & C & G).
  { pose proof (refuse_updates r a input reason sha s db) as Hu'. rewrite Es in Hu'.
    destruct reason; inv_tx;
      match goal with
      | Hq : update_stage _ _ _ _ = Ok _, Hq' : update_attempt _ _ _ _ _ _ _ = Ok _ |- _ =>
          unfold refused_as in Es; destruct (ci_responseAction input); injection Es as <- <-;
          exact (Hu' _ _ _ _ _ _ eq_refl Hw Hread Hq Hq')
      end. }
  match goal with Ha : appendAuditEventsInTransaction _ _ _ = Ok _ |- _ => apply append_ok in Ha as [AO GA EA _] end.
  apply Forall2_cons_inv_r in EA as (event & rest & Ee & ->%Forall2_nil_inv_r & ->).
  split_and!.
  - destruct S. split; try done; by rewrite AO.
  - by rewrite AO.
  - exists event. split; [by apply (grows_trans _ _ _ [] [event] G)|]. unfold appended_from in Ee.
    split; by rewrite Ee.
Qed.

(** ** Confirming *)

Lemma moved_settled id state r1 r2 r3 :
  row_moved not_confirming r1 r2 -> row_settled id state r2 r3 -> row_settled id state r1 r3.
Proof.
  intros M1 [B2 M2]. pose proof (row_moved_id _ _ _ M1) as E. destruct (M1) as [B1 _].
  split; [congruence|]. rewrite E in M2. case_decide; [done|]. by eapply row_moved_trans.
Qed.
Lemma settled_moved id state r1 r2 r3 : state <> stage_active ->
  row_settled id state r1 r2 -> row_moved not_confirming r2 r3 -> row_settled id state r1 r3.
Proof.
  intros Hn [B2 M2] M3. destruct (M3) as [B3 _]. split; [congruence|]. case_decide.
  - rewrite (row_moved_still _ _ _ M3); [done|congruence].
  - by eapply row_moved_trans.
Qed.

Lemma Forall2_comp {A} (P Q R : A -> A -> Prop) l1 l2 l3 : (forall x y z, P x y -> Q y z -> R x z) ->
  Forall2 P l1 l2 -> Forall2 Q l2 l3 -> Forall2 R l1 l3.
Proof.
  intros Hc HP. revert l3. induction HP as [|x y l1 l2 Hxy _ IH]; intros l3 HQ; inversion HQ; subst;
    constructor; [by eapply Hc|by apply IH].
Qed.

(** What the verifier of consents recorded. *)
Record consented (s : Session) (db db' : Database W) (r : StageRow) (a : AttemptRow) (consentId code : jsstr)
    (retry arguments capabilities requestState response record : list Z) : Prop := {
  cs_context : exists context, readRequestContext s = Ok context /\
    st_organization (binding r) = ac_organizationId context /\ st_actor (binding r) = ac_memberId context /\
    st_client (binding r) = ac_clientId context /\ st_tokenJti (binding r) = ac_tokenJti context /\
    verifier_accepts db s context r a code retry arguments capabilities requestState = true;
  cs_code : js_length code = 8;
  cs_response : response = ordered_text (response_json accept
    (JObj [bool_member "approve" true; str "confirmation_code" code]));
  cs_record : record = ordered_text (consent_record_json consentId (binding r) (at_id a)
    (sha256HexBytes (ordered_text (protected_record (stage_id r) (st_protectedCodeSha256 (binding r)))))
    (to_char_utc (st_createdAt (binding r))) (to_char_utc (transaction_timestamp s)) (sha256HexBytes response));
  cs_after : db' = with_consents db (consent_records db ++ [consent_row consentId (binding r) (at_id a)
    (sha256HexBytes (ordered_text (protected_record (stage_id r) (st_protectedCodeSha256 (binding r)))))
    (transaction_timestamp s) (sha256HexBytes record)])
}.

Lemma record_confirmed_ok consentId retry arguments capabilities requestState response record s db r a u db' :
  wf db -> readable db r a ->
  boardagent_record_confirmed_consent (stage_id r) consentId retry arguments capabilities requestState response
    record s db = Ok (u, db') ->
  exists code, consented s db db' r a consentId code retry arguments capabilities requestState response record.
Proof.
  intros Hw Hread E. unfold boardagent_record_confirmed_consent in E. inv_tx.
  destruct (readRequestContext s) as [context|] eqn:Ec; inv_tx.
  match goal with Hf : match List.find ?f ?l with _ => _ end _ _ = Ok _ |- _ =>
    destruct (List.find f l) as [q|] eqn:Eq; inv_tx end.
  apply List.find_some in Eq as [Hq Tq]. boolify.
  assert (q = r) as -> by (eapply unique_row; [by apply wf_ids|by apply list_elem_of_In|by apply Hread|done]).
  match goal with Hf : match response_code ?v with _ => _ end _ _ = Ok _ |- _ =>
    destruct (response_code v) as [code|] eqn:Ecode; inv_tx end.
  match goal with Hf : match ?l with _ => _ end _ _ = Ok _ |- _ =>
    destruct l as [|b [|? ?]] eqn:Eb; inv_tx end.
  assert (b = a) as ->.
  { assert (List.In b [b]) as Hb by (by left). rewrite <- Eb in Hb. apply List.filter_In in Hb as [Hb Tb]. boolify.
    eapply paired_attempt_unique; [by apply wf_ids|by apply wf_paired|by apply list_elem_of_In|by apply Hread|].
    rewrite Tb. symmetry. apply Hread. }
  exists code. boolify. split; [|done..]. exists context. by split_and!.
Qed.

Lemma projection_ok r a retry sha s (d : Database W) u d' : confirmProjection r a retry sha s d = Ok (u, d') ->
  d' = with_attempts (with_stages d
         (change_stage (stage_id r) (set_stage_state stage_confirmed (transaction_timestamp s)) (action_stages d)).1)
         (change_attempt (at_id a)
            (answer_attempt retry sha (js "accept") attempt_confirmed (transaction_timestamp s))
            (input_required_attempts d)).1 /\
  exists q, q ∈ action_stages d /\ stage_id q = stage_id r /\ st_state q = stage_active.
Proof.
  unfold confirmProjection. intros E. inv_tx.
  match goal with
  | Hs : update_stage _ _ _ _ = Ok _, Ha : update_attempt _ _ _ _ _ _ _ = Ok _ |- _ =>
      apply update_stage_ok in Hs as [-> ->]; apply update_attempt_ok in Ha as [-> ->]
  end. boolify. split; [done|]. eapply (change_stage_counted _
    (set_stage_state stage_confirmed (transaction_timestamp s))).
  repeat match goal with Hn : Nat.eqb _ 1 = true |- _ => apply Nat.eqb_eq in Hn end. unfold stage_id. lia.
Qed.

(** The projection inside code that leaves the attempts alone. *)
Lemma projection_settled db (d : Database W) r a retry sha s u d' : wf db -> readable db r a ->
  Forall2 (row_moved not_confirming) (action_stages db) (action_stages d) ->
  input_required_attempts d = input_required_attempts db ->
  confirmProjection r a retry sha s d = Ok (u, d') ->
  Forall2 (row_settled (stage_id r) stage_confirmed) (action_stages db) (action_stages d') /\
  Forall2 (attempt_settled (at_id a) attempt_confirmed) (input_required_attempts db)
    (input_required_attempts d') /\
  consent_records d' = consent_records d /\ grows d d' [].
Proof.
  intros Hw Hread M A (-> & q & Hq & Eq & Aq)%projection_ok.
  cbn [with_attempts with_stages action_stages input_required_attempts consent_records]. split_and!.
  - eapply Forall2_comp; [|exact M|rewrite <- Eq; apply change_stage_settled; [|done..]].
    + intros x y z. rewrite Eq. apply moved_settled.
    + rewrite (rows_moved_ids _ _ _ M). by apply wf_ids.
  - rewrite A. apply change_attempt_settled. by eapply readable_attempt.
  - done.
  - by apply grows_same_audit.
Qed.

Record acts_honestly {T} (act : jsstr -> Tx (Database W) (ConfirmedAct T)) : Prop := {
  ah_act : forall consentId, honest (act consentId);
  ah_finalize : forall consentId s db c db' (f : Tx (Database W) unit), act consentId s db = Ok (c, db') ->
    act_finalizeAfterAudit c = Some f -> honest f
}.

(** What a confirmation did. *)
Record performed (input : ConfirmStagedActionInput) (consentId sha recordSha : jsstr) (s : Session)
    (db db' : Database W) (r : StageRow) (a : AttemptRow) : Prop := {
  pf_consent : exists recorded code arguments capabilities response record,
    consented s db recorded r a consentId code (ci_retryRequestId input) (utf8_encode arguments)
      (utf8_encode capabilities) (ci_requestStateBytes input) (utf8_encode response) (utf8_encode record) /\
    canonicalJson (ci_originalArguments input) = Ok arguments /\
    canonicalJson (ci_clientCapabilities input) = Ok capabilities /\
    canonicalJson (response_json (ci_responseAction input) (ci_inputResponse input)) = Ok response /\
    recordSha = sha256Hex record /\ consent_records db' = consent_records recorded;
  pf_settled : settled db db' r a stage_confirmed attempt_confirmed;
  pf_audit : exists before event after, grows db db' (before ++ event :: after) /\
    event_body event = at_clock_time (ap_event (consent_audit (ci_consentRecordedEvent input) consentId recordSha
                         (binding r) (at_id a))) (to_char_utc (transaction_timestamp s))
}.

Lemma tx_when_ok b (m : Tx (Database W) unit) s db u db' : tx_when b m s db = Ok (u, db') ->
  if b then m s db = Ok (u, db') else db' = db.
Proof. destruct b; [done|]. intros [= <- <-]. done. Qed.

(** The audit event of the consent, whichever of the two appends holds it. *)
Lemma middle_ok (before_act : bool) consent more s (d1 d2 d3 d4 d5 : Database W) e1 e2 :
  appendAuditEventsInTransaction (if before_act then [consent] else []) s d1 = Ok (e1, d2) -> foreign d2 d3 ->
  appendAuditEventsInTransaction ((if before_act then [] else [consent]) ++ more) s d3 = Ok (e2, d4) ->
  foreign d4 d5 ->
  foreign d1 d5 /\ exists before event after, grows d1 d5 (before ++ event :: after) /\
    event_body event = at_clock_time (ap_event consent) (to_char_utc (transaction_timestamp s)).
Proof.
  intros A1%append_ok F1 A2%append_ok F2. pose proof (ad_grows _ _ _ _ _ A1) as G1.
  pose proof (ad_grows _ _ _ _ _ A2) as G2. pose proof (ad_events _ _ _ _ _ A1) as E1.
  pose proof (ad_events _ _ _ _ _ A2) as E2. split.
  - eapply foreign_trans; [by eapply audit_only_foreign; [apply A1|]|].
    eapply foreign_trans; [exact F1|]. eapply foreign_trans; [by eapply audit_only_foreign; [apply A2|]|done].
  - destruct F1 as [_ _ _ (n1 & H1f)], F2 as [_ _ _ (n2 & H2f)].
    pose proof (grows_trans _ _ _ _ _ G1 (grows_trans _ _ _ _ _ H1f (grows_trans _ _ _ _ _ G2 H2f))) as G.
    destruct before_act; cbn [app] in *.
    + inversion E1 as [|ev ? l ? He Hl]; subst. inversion Hl; subst.
      exists [], ev, (n1 ++ e2 ++ n2). by split.
    + inversion E1; subst. inversion E2 as [|ev ? l ? He Hl]; subst.
      exists n1, ev, (l ++ n2). split; [|done]. by cbn [app] in G.
Qed.

Lemma finalize_foreign (o : option (Tx (Database W) unit)) s d u d' : (forall f, o = Some f -> honest f) ->
  match o with Some finalize => finalize | None => mret tt end s d = Ok (u, d') -> foreign d d'.
Proof. intros Hf E. destruct o as [f|]; [by eapply Hf|]. inv_tx. apply foreign_refl. Qed.

Lemma perform_effect {T} input consentId sha r a (act : jsstr -> Tx (Database W) (ConfirmedAct T)) options
    s db res db' : wf db -> readable db r a -> acts_honestly act ->
  performConfirmation input consentId sha r a act options s db = Ok (res, db') ->
  exists value recordSha sequences, res = Confirmed value consentId recordSha sequences /\
    performed input consentId sha recordSha s db db' r a.
Proof.
  intros Hw Hread [Hact Hfin] E. unfold performConfirmation in E. inv_tx. eexists _, _, _. split; [done|].
  match goal with |- performed _ _ _ _ _ _ ?d _ _ => rename d into db' end.
  match goal with Hi : UuidV7Schema _ = Ok _ |- _ => apply parse_ok in Hi as [-> _] end.
  match goal with Hr : boardagent_record_confirmed_consent _ _ _ _ _ _ _ _ _ _ = Ok (_, ?d) |- _ =>
    rename d into recorded; destruct (record_confirmed_ok _ _ _ _ _ _ _ _ _ _ _ _ _ Hw Hread Hr) as (code & C) end.
  match goal with
  | Ha : appendAuditEventsInTransaction _ _ ?d = Ok (_, ?d2), Hb : act _ _ ?d2 = Ok (?ca, ?d3) |- _ =>
      pose proof (Hact _ _ _ _ _ Hb) as F1; pose proof (fun f => Hfin _ _ _ _ _ f Hb) as F2
  end.
  match goal with
  | Hd : _ _ ?d4 = Ok (_, ?d5), Hc : appendAuditEventsInTransaction _ _ ?d3 = Ok (_, ?d4), _ : foreign ?d2 ?d3,
    Ha : appendAuditEventsInTransaction _ _ ?d1 = Ok (_, ?d2) |- _ =>
      pose proof (finalize_foreign _ _ _ _ _ F2 Hd) as F3;
      destruct (middle_ok _ _ _ _ _ _ _ _ _ _ _ Ha F1 Hc F3) as [Fm (before & ev & later & Gm & Em)];
      rename d1 into e1; rename d5 into e2
  end.
  assert (Forall2 (row_settled (stage_id r) stage_confirmed) (action_stages db) (action_stages db') /\
    Forall2 (attempt_settled (at_id a) attempt_confirmed) (input_required_attempts db)
      (input_required_attempts db') /\ consent_records db' = consent_records recorded /\
    grows db db' (before ++ ev :: later)) as (S & A & Cn & G).
  { pose proof (cs_after _ _ _ _ _ _ _ _ _ _ _ _ _ C) as Er.
    assert (grows db recorded []) as Gr by (apply grows_same_audit; by rewrite Er).
    assert (action_stages recorded = action_stages db) as ES by (by rewrite Er).
    assert (input_required_attempts recorded = input_required_attempts db) as EA by (by rewrite Er). clear Er.
    repeat match goal with Hp : tx_when _ _ _ _ = Ok _ |- _ => apply tx_when_ok in Hp end.
    destruct (exposeConfirmedProjectionToAct options); cbn [negb] in *; subst.
    - match goal with Hp : confirmProjection _ _ _ _ _ _ = Ok _ |- _ =>
        destruct (fun M A => projection_settled db _ r a _ _ _ _ _ Hw Hread M A Hp) as (S & A & Cc & Gp);
          [rewrite ES; apply rows_moved_refl|done|] end.
      destruct Fm as [Sm Am Cm _]. split_and!.
      + eapply Forall2_comp; [|exact S|exact Sm]. intros x y z. by apply settled_moved.
      + by rewrite Am.
      + by rewrite Cm.
      + eapply (grows_trans _ _ _ []); [exact Gr|]. eapply (grows_trans _ _ _ []); [exact Gp|exact Gm].
    - match goal with Hp : confirmProjection _ _ _ _ _ _ = Ok _ |- _ =>
        destruct Fm as [Sm Am Cm _]; rewrite ES in Sm; rewrite EA in Am;
        destruct (projection_settled db _ r a _ _ _ _ _ Hw Hread Sm Am Hp) as (S & A & Cc & Gp) end.
      split_and!; [done..|by rewrite Cc|]. eapply (grows_trans _ _ _ []); [exact Gr|].
      rewrite <- (app_nil_r (before ++ _)). by eapply grows_trans. }
  split; [| |by exists before, ev, later].
  - match goal with Hs : canonicalSha256 (consent_record_json _ _ _ _ _ _ _) = Ok _ |- _ =>
      apply fmap_ok in Hs as (text & Ht & ->) end.
    match goal with Hc : canonicalJson (consent_record_json _ _ _ _ _ _ _) = Ok ?t |- _ =>
      assert (text = t) as -> by congruence end.
    eexists _, _, _, _, _, _. split_and!; [exact C|done..].
  - destruct Hread as [Hr Ha Hof Hst Hp] eqn:Eq. by split.
Qed.

End invariant.
