(* ===== verification/StagedHistory.v ===== *)
(** * Histories of staged actions

    Any sequence of staging, confirming and other transactions: the invariant
    of the tables, the single use of a stage, what a confirmation binds and the
    order of the reasons for a refusal. *)

From stdpp Require Import base numbers sorting strings list relations.
From Stdlib Require Import Lia.
From S2P Require Import Prelude JsString Encoding JsNumber Json JsonParse JsonCanon Schemas.
From S2P Require Import Decode VotingConsent KeyLifecycle AuditEvent Request Database AuditAppend StagedAction.
From S2P Require Import StagedMoves StagedEffects.

Local Open Scope Z_scope.

Section histories.
Context `{Platform} `{IsoTime} {W : Type} `{!NodeText} `{!PgClock} `{!SqlAuthority W} `{!UrlParser}.
Implicit Types (db : Database W) (s : Session).

(** ** What a confirmation can do *)

(** The answers that leave the stage as it is. *)
Definition leaves_stage (reason : ConfirmationFailureReason) : Prop :=
  reason = stage_unavailable \/ reason = context_mismatch \/ reason = stage_not_active.

(** The row that is judged, and what it is judged against. *)
Record judged (input : ConfirmStagedActionInput) (s : Session) (db : Database W) (presented : Presented)
    (current : CurrentActionBindings) (r : StageRow) (a : AttemptRow) : Prop := {
  jd_read : readable db r a;
  jd_id : stage_id r = ci_stageId input;
  jd_context : exists context, readRequestContext s = Ok context /\
    context_matches context (pr_exactOrigin presented) (binding r) = true;
  jd_sha : set_context_sha256 s = st_contextSha256 (binding r)
}.

(** What the request presents, digested. *)
Record presents (input : ConfirmStagedActionInput) (presented : Presented) : Prop := {
  pn_arguments : canonicalSha256 (ci_originalArguments input) = Ok (pr_argumentsSha256 presented);
  pn_capabilities : canonicalSha256 (ci_clientCapabilities input) = Ok (pr_capabilitiesSha256 presented);
  pn_origin : exactHttpsOrigin (ci_exactOrigin input) = Ok (pr_exactOrigin presented);
  pn_response : canonicalSha256 (response_json (ci_responseAction input) (ci_inputResponse input))
    = Ok (pr_responseSha256 presented)
}.

(** The stage belongs to the request that presents it. *)
Definition same_context (input : ConfirmStagedActionInput) (s : Session) (b : StageBinding) : Prop :=
  readRequestContext s = Ok (MkActive (st_organization b) (st_actor b) (st_client b) (st_tokenJti b)) /\
  exactHttpsOrigin (ci_exactOrigin input) = Ok (st_exactOrigin b) /\ set_context_sha256 s = st_contextSha256 b.

(** Why a stage is left as it is. *)
Inductive left_alone (input : ConfirmStagedActionInput) (s : Session) (db : Database W)
    : ConfirmationFailureReason -> Prop :=
  | alone_unavailable : (forall r a, ~ presented_stage (ci_stageId input) s db r a) ->
      left_alone input s db stage_unavailable
  | alone_elsewhere r a : presented_stage (ci_stageId input) s db r a -> ~ same_context input s (binding r) ->
      left_alone input s db context_mismatch
  | alone_settled r a : presented_stage (ci_stageId input) s db r a -> same_context input s (binding r) ->
      ~ (st_state r = stage_active /\ at_state a = prepared) -> left_alone input s db stage_not_active.

Lemma left_alone_leaves input s db reason : left_alone input s db reason -> leaves_stage reason.
Proof. unfold leaves_stage. destruct 1; auto. Qed.

Inductive confirm_outcome {T} (input : ConfirmStagedActionInput) (s : Session) (db db' : Database W)
    (presented : Presented) (current : CurrentActionBindings) : StagedActionResolution T -> Prop :=
  | outcome_untouched reason : left_alone input s db reason -> db' = db ->
      confirm_outcome input s db db' presented current (NotConfirmed reason)
  | outcome_refused r a reason state astate event : judged input s db presented current r a ->
      presented_stage (ci_stageId input) s db r a ->
      judge input presented current (transaction_timestamp s) r a = Some reason ->
      refused_as reason (ci_responseAction input) = (state, astate) -> settled db db' r a state astate ->
      consent_records db' = consent_records db -> grows db db' [event] ->
      rejection_recorded reason (pr_responseSha256 presented) r event ->
      confirm_outcome input s db db' presented current (NotConfirmed reason)
  | outcome_confirmed r a value recordSha sequences : judged input s db presented current r a ->
      judge input presented current (transaction_timestamp s) r a = None ->
      performed input (ci_consentRecordId input) (pr_responseSha256 presented) recordSha s db db' r a ->
      confirm_outcome input s db db' presented current
        (Confirmed value (ci_consentRecordId input) recordSha sequences).

Lemma present_ok input stageId consentId presented : present input = Ok (stageId, consentId, presented) ->
  stageId = ci_stageId input /\ consentId = ci_consentRecordId input /\ presents input presented.
Proof.
  unfold present. intros E. inv_ok.
  repeat match goal with Hp : UuidV7Schema _ = Ok _ |- _ => apply parse_ok in Hp as [-> _] end.
  subst. by split_and!.
Qed.

Lemma exact_origin_same value o : exactHttpsOrigin value = Ok o -> o = value.
Proof. unfold exactHttpsOrigin. destruct (parse_url value) as [u|]; intros E; by inv_ok. Qed.

Lemma context_matches_spec context o b :
  context_matches context o b = true <->
  context = MkActive (st_organization b) (st_actor b) (st_client b) (st_tokenJti b) /\ st_exactOrigin b = o.
Proof.
  unfold context_matches. destruct context. cbn. rewrite !andb_true_iff, !bool_decide_eq_true. naive_solver.
Qed.

Lemma refused_not_confirmed reason action state astate : refused_as reason action = (state, astate) ->
  state <> stage_confirmed.
Proof. destruct reason, action; cbn; by intros [= <- <-]. Qed.

Lemma decide_outcome {T} input presented current r a (act : jsstr -> Tx (Database W) (ConfirmedAct T)) options
    s db res db' : wf db -> acts_honestly act -> presents input presented ->
  presented_stage (ci_stageId input) s db r a ->
  decideConfirmation input (ci_consentRecordId input) presented current r a act options s db = Ok (res, db') ->
  confirm_outcome input s db db' presented current res.
Proof.
  intros Hw Hact Hpr Hps E. destruct (Hps) as [Hr Ha Hid Hof _]. pose proof (pn_origin _ _ Hpr) as Horigin.
  unfold decideConfirmation in E. inv_tx.
  match goal with Hc : readRequestContext s = Ok ?c |- _ => rename Hc into Hctx; rename c into context end.
  destruct (negb (context_matches _ _ _)) eqn:Ec; inv_tx.
  { constructor; [|done]. apply (alone_elsewhere _ _ _ r a Hps). intros (Ex & Eo & _).
    apply negb_true_iff, not_true_iff_false in Ec. apply Ec, context_matches_spec. split; congruence. }
  match goal with Hc : currentContextSha256 _ = Ok _ |- _ =>
    assert (is_hex64 (set_context_sha256 s) = true) as Hhex
      by (unfold currentContextSha256 in Hc; destruct (set_context_sha256 s); [done|by apply parse_ok in Hc as [_ ?]]);
    assert (currentContextSha256 s = Ok (set_context_sha256 s)) as Hset
      by (rewrite Hc; f_equal; unfold currentContextSha256 in Hc; destruct (set_context_sha256 s);
          [done|by apply parse_ok in Hc as [-> _]]);
    rewrite Hset in Hc; injection Hc as <- end.
  assert (same_context input s (binding r) <-> set_context_sha256 s = st_contextSha256 (binding r)) as Hsame.
  { unfold same_context. apply negb_false_iff, context_matches_spec in Ec as [-> Eo]. rewrite Hctx, Horigin, Eo.
    naive_solver. }
  destruct (negb (safeHashEqual _ _)) eqn:Es; inv_tx.
  { constructor; [|done]. apply (alone_elsewhere _ _ _ r a Hps). rewrite Hsame. intros Eset.
    rewrite <- Eset, safeHashEqual_refl in Es; done. }
  apply negb_false_iff, safeHashEqual_true in Es as [_ Es].
  destruct (negb (bool_decide _) || _) eqn:Ea; inv_tx.
  { constructor; [|done]. apply (alone_settled _ _ _ r a Hps); [by apply Hsame|]. intros [Eactive Eprep].
    rewrite Eactive, Eprep in Ea. by rewrite !bool_decide_refl in Ea. }
  boolify. unfold assertCurrentToken in *. inv_tx.
  assert (judged input s db presented current r a) as J by (split; [by split|done|by exists context|done]).
  destruct (judge _ _ _ _ _ _) as [reason|] eqn:Ej; inv_tx.
  - match goal with Hj : rejectConfirmation _ _ _ _ _ _ _ = Ok _ |- _ =>
      pose proof (reject_effect _ _ _ _ _ _ _ _ _ Hw (jd_read _ _ _ _ _ _ _ J) Hj) as Hrej end.
    destruct (refused_as _ _) as [st ast] eqn:Eref. destruct Hrej as (? & ? & event & ? & ?). by econstructor.
  - destruct (perform_effect _ _ _ _ _ _ _ _ _ _ _ Hw (jd_read _ _ _ _ _ _ _ J) Hact E) as (? & ? & ? & -> & ?).
    by econstructor.
Qed.

(** A confirmation: what the aggregate's lock did, and then the outcome. *)
Lemma confirm_cases {T} input lock (act : jsstr -> Tx (Database W) (ConfirmedAct T)) options s db res db' :
  wf db -> honest lock -> acts_honestly act ->
  confirmStagedActionInTransaction input lock act options s db = Ok (res, db') ->
  exists presented current locked, present input = Ok (ci_stageId input, ci_consentRecordId input, presented) /\
    lock s db = Ok (current, locked) /\ foreign db locked /\
    is_hex64 (cb_payloadSha256 current) = true /\
    confirm_outcome input s locked db' presented current res.
Proof.
  intros Hw Hlock Hact E. unfold confirmStagedActionInTransaction in E. inv_tx.
  match goal with Hp : present _ = Ok ?p |- _ => destruct p as [[stageId consentId] presented];
    destruct (present_ok _ _ _ _ Hp) as (-> & -> & Hpr) end. inv_tx.
  match goal with Hl : lock _ _ = Ok (?c, ?d) |- _ =>
    rename c into current; rename d into locked; pose proof (Hlock _ _ _ _ Hl) as F end.
  match goal with Hs : Sha256HexSchema _ = Ok _ |- _ => apply parse_ok in Hs as [-> Hhex] end.
  match goal with Hs : optionalHash _ = Ok _ |- _ =>
    apply parse_nullable_ok in Hs as [-> _]; [|by intros ? ? [-> _]%parse_ok] end.
  match goal with Hr : readConfirmationRow _ _ _ = Ok (?o, _) |- _ =>
    apply readConfirmationRow_ok in Hr as [-> Hrow]; destruct o as [[r a]|] end.
  - exists presented, current, locked.
    split_and!; [done..|]. replace current with (MkBindings (cb_payloadSha256 current) (cb_packageSha256 current))
      by (by destruct current).
    eapply decide_outcome; [by eapply wf_foreign|done..|exact E].
  - inv_tx. exists presented, current, locked. split_and!; [done..|]. constructor; [by constructor|done].
Qed.

Lemma outcome_wf {T} input s db db' presented current (res : StagedActionResolution T) : wf db ->
  confirm_outcome input s db db' presented current res -> wf db'.
Proof.
  intros Hw O. destruct O as [reason _ ->|r a reason st ast event J _ _ N S C G _|r a value sha seqs J _ P].
  - done.
  - eapply wf_refused; [done|exact S|by eapply refused_not_confirmed|done|by exists [event]].
  - destruct (pf_consent _ _ _ _ _ _ _ _ _ P) as (recorded & ? & ? & ? & ? & ? & C & _ & _ & _ & _ & Ec).
    destruct (pf_audit _ _ _ _ _ _ _ _ _ P) as (? & ? & ? & G & _).
    eapply wf_confirmed; [done|by apply (pf_settled _ _ _ _ _ _ _ _ _ P)| | |by eexists].
    + rewrite Ec, (cs_after _ _ _ _ _ _ _ _ _ _ _ _ _ C). done.
    + done.
Qed.

(** ** Histories *)

(** One committed transaction: a staging, a confirmation, or any other one. *)
Inductive step (db db' : Database W) : Prop :=
  | step_stage s input lock r : honest lock ->
      stageActionInTransaction input lock s db = Ok (r, db') -> step db db'
  | step_confirm T s input lock (act : jsstr -> Tx (Database W) (ConfirmedAct T)) options res :
      honest lock -> acts_honestly act ->
      confirmStagedActionInTransaction input lock act options s db = Ok (res, db') -> step db db'
  | step_other A s (m : Tx (Database W) A) a : honest m -> m s db = Ok (a, db') -> step db db'.

Lemma step_wf db db' : step db db' -> wf db -> wf db'.
Proof.
  intros [s input lock r Hl E|T s input lock act options res Hl Ha E|A s m a Hm E] Hw.
  - destruct (stage_effect _ _ _ _ _ _ Hl E) as (rows & b & at_ & S & _). by eapply wf_staged.
  - destruct (confirm_cases _ _ _ _ _ _ _ _ Hw Hl Ha E) as (p & c & locked & _ & _ & F & _ & O).
    eapply outcome_wf; [|exact O]. by eapply wf_foreign.
  - eapply wf_foreign; [|done]. by eapply Hm.
Qed.

(** A stage that is no longer active stays what it is. *)
Definition keeps_settled (db db' : Database W) : Prop :=
  forall r, r ∈ action_stages db -> st_state r <> stage_active -> r ∈ action_stages db'.

Lemma moved_keeps allowed db db' : Forall2 (row_moved allowed) (action_stages db) (action_stages db') ->
  keeps_settled db db'.
Proof.
  intros M r Hr Hn. destruct (rows_moved_from _ _ _ _ M Hr) as (r' & Hr' & Hm).
  by rewrite <- (row_moved_still _ _ _ Hm).
Qed.

Lemma settled_keeps db db' r a state astate : wf db -> settled db db' r a state astate -> keeps_settled db db'.
Proof.
  intros Hw S q Hq Hn. destruct (settled_row_from _ _ _ _ _ (se_stages _ _ _ _ _ _ S) Hq) as (q' & Hq' & _ & [B M]).
  case_decide as Hd; [|by rewrite <- (row_moved_still _ _ _ M)].
  destruct Hn. assert (q = r) as -> by (apply (unique_row (action_stages db)); [by apply wf_ids|done|apply (se_read _ _ _ _ _ _ S)|done]).
  by apply (se_was _ _ _ _ _ _ S).
Qed.

Lemma outcome_keeps {T} input s db db' presented current (res : StagedActionResolution T) : wf db ->
  confirm_outcome input s db db' presented current res -> keeps_settled db db'.
Proof.
  intros Hw O. destruct O as [reason _ ->|r a reason st ast event J _ _ N S C G _|r a value sha seqs J _ P].
  - by intros r Hr _.
  - by eapply settled_keeps.
  - by eapply settled_keeps, P.
Qed.

Lemma step_keeps db db' : step db db' -> wf db -> keeps_settled db db'.
Proof.
  intros [s input lock r Hl E|T s input lock act options res Hl Ha E|A s m a Hm E] Hw.
  - destruct (stage_effect _ _ _ _ _ _ Hl E) as (rows & b & at_ & [S Er _ _ _ _ _ _] & _).
    intros q Hq Hn. rewrite Er. apply elem_of_app. left.
    destruct (rows_moved_from _ _ _ _ S Hq) as (q' & Hq' & M). by rewrite <- (row_moved_still _ _ _ M).
  - destruct (confirm_cases _ _ _ _ _ _ _ _ Hw Hl Ha E) as (p & c & locked & _ & _ & F & _ & O).
    intros q Hq Hn. eapply outcome_keeps; [by eapply wf_foreign|exact O| |done].
    eapply moved_keeps; [apply F|done..].
  - eapply moved_keeps. by eapply Hm.
Qed.

Lemma history_wf db db' : rtc step db db' -> wf db -> wf db'.
Proof. induction 1 as [|db1 db2 db3 S _ IH]; [done|]. intros Hw. by apply IH, (step_wf db1). Qed.

Lemma history_keeps db db' : rtc step db db' -> wf db -> keeps_settled db db'.
Proof.
  induction 1 as [|db1 db2 db3 S _ IH]; intros Hw r Hr Hn; [done|].
  apply IH; [by apply (step_wf db1)|by apply (step_keeps db1)|done].
Qed.

(** Consent records stay. *)
Definition keeps_consents (db db' : Database W) : Prop :=
  forall c, c ∈ consent_records db -> c ∈ consent_records db'.

Lemma outcome_consents {T} input s db db' presented current (res : StagedActionResolution T) :
  confirm_outcome input s db db' presented current res -> keeps_consents db db'.
Proof.
  intros O c Hc. destruct O as [reason _ ->|r a reason st ast event J _ _ N S C G _|r a value sha seqs J _ P].
  - done.
  - by rewrite C.
  - destruct (pf_consent _ _ _ _ _ _ _ _ _ P) as (recorded & ? & ? & ? & ? & ? & C & _ & _ & _ & _ & ->).
    rewrite (cs_after _ _ _ _ _ _ _ _ _ _ _ _ _ C). apply elem_of_app. by left.
Qed.

Lemma step_consents db db' : step db db' -> wf db -> keeps_consents db db'.
Proof.
  intros [s input lock r Hl E|T s input lock act options res Hl Ha E|A s m a Hm E] Hw c.
  - destruct (stage_effect _ _ _ _ _ _ Hl E) as (rows & b & at_ & [_ _ _ _ _ _ -> _] & _). done.
  - destruct (confirm_cases _ _ _ _ _ _ _ _ Hw Hl Ha E) as (p & cu & locked & _ & _ & F & _ & O).
    rewrite <- (fr_consents _ _ F). by eapply outcome_consents.
  - by rewrite (fr_consents _ _ (Hm _ _ _ _ E)).
Qed.

Lemma history_consents db db' : rtc step db db' -> wf db -> keeps_consents db db'.
Proof.
  induction 1 as [|db1 db2 db3 S _ IH]; intros Hw c Hc; [done|].
  apply IH; [by apply (step_wf db1)|by apply (step_consents db1)].
Qed.

Lemma only_consent db c : wf db -> c ∈ consent_records db ->
  List.filter (fun c' => bool_decide (cn_stage c' = cn_stage c)) (consent_records db) = [c].
Proof.
  intros Hw. pose proof (wf_consent_once _ Hw) as Hd. revert Hd. generalize (consent_records db) as l. clear.
  assert (forall l, cn_stage c ∉ map cn_stage l ->
    List.filter (fun c' => bool_decide (cn_stage c' = cn_stage c)) l = []) as Hnone.
  { induction l as [|x l IH]; [done|]. cbn [map List.filter]. rewrite not_elem_of_cons. intros [Hx Hl].
    rewrite bool_decide_eq_false_2 by congruence. by apply IH. }
  induction l as [|x l IH]; cbn [map]; [by intros _ ?%elem_of_nil|]. intros [Hx Hd]%NoDup_cons [->|Hc]%elem_of_cons;
    cbn [List.filter].
  - rewrite bool_decide_eq_true_2 by done. by rewrite Hnone.
  - rewrite bool_decide_eq_false_2; [by apply IH|]. intros E. apply Hx. rewrite E.
    by apply list_elem_of_fmap_2.
Qed.

(** What a confirmation leaves behind. *)
Lemma confirmed_leaves {T} input lock (act : jsstr -> Tx (Database W) (ConfirmedAct T)) options s
    value consentId recordSha sequences db db' : wf db -> honest lock -> acts_honestly act ->
  confirmStagedActionInTransaction input lock act options s db
  = Ok (Confirmed value consentId recordSha sequences, db') ->
  wf db' /\ (exists r, r ∈ action_stages db' /\ stage_id r = ci_stageId input /\ st_state r = stage_confirmed) /\
  exists c, c ∈ consent_records db' /\ cn_stage c = ci_stageId input /\ cn_id c = consentId.
Proof.
  intros Hw Hl Ha E. destruct (confirm_cases _ _ _ _ _ _ _ _ Hw Hl Ha E) as (p & cu & locked & _ & _ & F & _ & O).
  pose proof (wf_foreign _ _ F Hw) as Hwl. split; [by eapply outcome_wf|].
  inversion O as [| |r a v sha seqs J _ P]; subst. pose proof (jd_id _ _ _ _ _ _ _ J) as Hid.
  destruct (pf_consent _ _ _ _ _ _ _ _ _ P) as (recorded & ? & ? & ? & ? & ? & C & _ & _ & _ & _ & Ec).
  rewrite Ec, (cs_after _ _ _ _ _ _ _ _ _ _ _ _ _ C). split.
  - apply (settled_confirmed _ _ _ _ _ _ _ Hwl (pf_settled _ _ _ _ _ _ _ _ _ P)). by right.
  - eexists. split; [apply elem_of_app; right; by apply list_elem_of_singleton|done].
Qed.

(** ** Properties *)

(** C10. The tables keep their invariant through any history of stagings,
    confirmations and other transactions: every stage has exactly one attempt,
    at most one stage is active per actor, client, action and target, a stage
    has a consent record exactly when it is confirmed and then just one, and
    the audit rows are an unbroken chain from its genesis, which the verifier
    accepts against the persisted head. *)
Theorem history_invariant db db' : wf db -> rtc step db db' ->
  wf db' /\ exists events, Forall2 row_holds (audit_events db') events /\
    verifyChain events (Some (audit_chain_head db')) =
    Valid (audit_chain_head db').1 (audit_chain_head db').2.
Proof.
  intros Hw Hh. pose proof (history_wf _ _ Hh Hw) as Hw'. split; [done|].
  destruct (wf_audit _ Hw') as (events & F & C & ->). exists events. split; [done|].
  rewrite verifyChain_chain, (proj2 (matches_expected_none _ _ C)); [done| |done]. by intros ? ? [= <- <-].
Qed.

(** C7. A stage is used once. After it has been confirmed, whatever happens in
    between, another confirmation of it is answered without touching the tables
    of the protocol (the stage is unavailable, presented in another context, or
    no longer active), and its only consent record is the one of the first. *)
Theorem stage_confirmed_once {T T'} input input' lock lock' act act' options options' s s'
    (value : T) consentId recordSha sequences (res : StagedActionResolution T') db db1 db2 db3 :
  wf db -> honest lock -> acts_honestly act -> honest lock' -> acts_honestly act' ->
  confirmStagedActionInTransaction input lock act options s db
  = Ok (Confirmed value consentId recordSha sequences, db1) ->
  rtc step db1 db2 -> ci_stageId input' = ci_stageId input ->
  confirmStagedActionInTransaction input' lock' act' options' s' db2 = Ok (res, db3) ->
  (exists reason, res = NotConfirmed reason /\ leaves_stage reason) /\ foreign db2 db3 /\
  exists c, List.filter (fun c => bool_decide (cn_stage c = ci_stageId input)) (consent_records db3) = [c] /\
    cn_id c = consentId.
Proof.
  intros Hw Hl Ha Hl' Ha' E Hh Hid E'.
  destruct (confirmed_leaves _ _ _ _ _ _ _ _ _ _ _ Hw Hl Ha E) as (Hw1 & (q & Hq & Hqi & Hqs) & c & Hc & Hci & Hcc).
  pose proof (history_wf _ _ Hh Hw1) as Hw2.
  destruct (confirm_cases _ _ _ _ _ _ _ _ Hw2 Hl' Ha' E') as (p & cu & locked & _ & _ & F & _ & O).
  pose proof (wf_foreign _ _ F Hw2) as Hwl.
  assert (q ∈ action_stages locked) as Hql.
  { eapply moved_keeps; [apply F|eapply history_keeps; [exact Hh|done..|congruence]|congruence]. }
  assert (forall r a, judged input' s' locked p cu r a -> False) as Hno.
  { intros r a J. destruct (jd_read _ _ _ _ _ _ _ J) as [Hr _ _ Hs _]. pose proof (jd_id _ _ _ _ _ _ _ J).
    assert (q = r) as -> by (apply (unique_row (action_stages locked)); [by apply wf_ids|done..|congruence]).
    congruence. }
  inversion O as [reason Hreason Hdb|r a reason st ast event J|r a v sha seqs J]; subst; [|by destruct (Hno r a)..].
  split; [exists reason; split; [done|by eapply left_alone_leaves]|]. split; [done|]. exists c. split; [|done]. rewrite <- Hci. apply only_consent; [done|].
  rewrite (fr_consents _ _ F). by eapply history_consents.
Qed.

(** What a confirmed answer was about: a live stage of this very request, whose
    content is what the aggregate is now, with the arguments, capabilities and
    state it was prepared with, and the code that was handed out for it. *)
Record binds (input : ConfirmStagedActionInput) (s : Session) (current : CurrentActionBindings)
    (r : StageRow) (a : AttemptRow) (code : jsstr) : Prop := {
  bd_live : st_state r = stage_active /\ at_state a = prepared /\
    st_createdAt (binding r) <= transaction_timestamp s < st_expiresAt (binding r);
  bd_payload : st_payloadSha256 (binding r) = cb_payloadSha256 current /\
    st_payloadSha256 (binding r) = sha256HexBytes (st_canonicalPayload (binding r)) /\
    st_packageSha256 (binding r) = cb_packageSha256 current;
  bd_request : canonicalSha256 (ci_originalArguments input) = Ok (at_originalArgumentsSha256 a) /\
    canonicalSha256 (ci_clientCapabilities input) = Ok (at_capabilitiesSha256 a) /\
    at_requestState a = ci_requestStateBytes input;
  bd_fresh : at_preparedRequestId a <> ci_retryRequestId input;
  bd_context : readRequestContext s = Ok (MkActive (st_organization (binding r)) (st_actor (binding r))
                 (st_client (binding r)) (st_tokenJti (binding r))) /\
    exactHttpsOrigin (ci_exactOrigin input) = Ok (st_exactOrigin (binding r)) /\
    set_context_sha256 s = st_contextSha256 (binding r);
  bd_answer : ci_responseAction input = accept /\
    AcceptedInputResponseSchema (ci_inputResponse input) = Some (true, code) /\
    sha256Hex code = st_protectedCodeSha256 (binding r)
}.

(** The conditions of acceptance, in the order in which they are reported. *)
Definition judge_conditions (input : ConfirmStagedActionInput) (presented : Presented)
    (current : CurrentActionBindings) (clock : Z) (r : StageRow) (a : AttemptRow)
    : list (ConfirmationFailureReason * Prop) :=
  let b := binding r in
  [(expired, clock < st_expiresAt b);
   (declined, ci_responseAction input = accept);
   (retry_request_reused, at_preparedRequestId a <> ci_retryRequestId input);
   (request_mismatch, is_hex64 (at_originalArgumentsSha256 a) = true /\
      pr_argumentsSha256 presented = at_originalArgumentsSha256 a);
   (capabilities_mismatch, is_hex64 (at_capabilitiesSha256 a) = true /\
      pr_capabilitiesSha256 presented = at_capabilitiesSha256 a);
   (state_mismatch, sha256HexBytes (ci_requestStateBytes input) = at_requestStateSha256 a);
   (canonical_stale, (is_hex64 (st_payloadSha256 b) = true /\ cb_payloadSha256 current = st_payloadSha256 b) /\
      st_packageSha256 b = cb_packageSha256 current);
   (declined, exists code, AcceptedInputResponseSchema (ci_inputResponse input) = Some (true, code));
   (code_mismatch, forall approve code, AcceptedInputResponseSchema (ci_inputResponse input) = Some (approve, code) ->
      sha256Hex code = st_protectedCodeSha256 b)].

Fixpoint first_failing (reason : ConfirmationFailureReason) (l : list (ConfirmationFailureReason * Prop)) : Prop :=
  match l with
  | [] => False
  | (r, P) :: l' => (r = reason /\ ~ P) \/ (P /\ first_failing reason l')
  end.

(** The first test of a cascade that fails. *)
Fixpoint cascade (l : list (ConfirmationFailureReason * bool)) : option ConfirmationFailureReason :=
  match l with
  | [] => None
  | (r, b) :: l' => if b then cascade l' else Some r
  end.

Lemma cascade_spec l k :
  Forall2 (fun (x : ConfirmationFailureReason * bool) (y : ConfirmationFailureReason * Prop) =>
             x.1 = y.1 /\ (x.2 = true <-> y.2)) l k ->
  match cascade l with
  | None => Forall (fun y => y.2) k
  | Some reason => first_failing reason k
  end.
Proof.
  induction 1 as [|[r b] [r' P] l k [E Hb] _ IH]; [constructor|]. cbn in *. subst r'. destruct b.
  - destruct (cascade l); [right|constructor]; tauto.
  - left. split; [done|]. intros HP%Hb. done.
Qed.

Definition judge_tests (input : ConfirmStagedActionInput) (presented : Presented)
    (current : CurrentActionBindings) (clock : Z) (r : StageRow) (a : AttemptRow)
    : list (ConfirmationFailureReason * bool) :=
  let b := binding r in
  [(expired, negb (st_expiresAt b <=? clock));
   (declined, bool_decide (ci_responseAction input = accept));
   (retry_request_reused, negb (bool_decide (at_preparedRequestId a = ci_retryRequestId input)));
   (request_mismatch, safeHashEqual (at_originalArgumentsSha256 a) (pr_argumentsSha256 presented));
   (capabilities_mismatch, safeHashEqual (at_capabilitiesSha256 a) (pr_capabilitiesSha256 presented));
   (state_mismatch, safeHashEqual (at_requestStateSha256 a) (sha256HexBytes (ci_requestStateBytes input)));
   (canonical_stale, safeHashEqual (st_payloadSha256 b) (cb_payloadSha256 current)
      && bool_decide (st_packageSha256 b = cb_packageSha256 current));
   (declined, match AcceptedInputResponseSchema (ci_inputResponse input) with
              | Some (approve, _) => approve | None => false end);
   (code_mismatch, match AcceptedInputResponseSchema (ci_inputResponse input) with
                   | Some (_, code) => safeHashEqual (st_protectedCodeSha256 b) (sha256Hex code) | None => true end)].

Lemma judge_cascade input presented current clock r a :
  judge input presented current clock r a = cascade (judge_tests input presented current clock r a).
Proof.
  unfold judge, judge_tests. cbn [cascade].
  destruct (st_expiresAt _ <=? clock); [done|]. destruct (bool_decide (ci_responseAction input = accept)); [|done].
  destruct (bool_decide (at_preparedRequestId a = _)); [done|]. cbn [negb].
  destruct (safeHashEqual (at_originalArgumentsSha256 a) _); [|done].
  destruct (safeHashEqual (at_capabilitiesSha256 a) _); [|done].
  destruct (safeHashEqual (at_requestStateSha256 a) _); [|done].
  destruct (safeHashEqual (st_payloadSha256 _) _); [|done]. destruct (bool_decide _); [|done]. cbn [negb orb andb].
  destruct (AcceptedInputResponseSchema _) as [[approve code]|]; [|done]. destruct approve; [|done]. cbn [negb].
  by destruct (safeHashEqual _ _).
Qed.

Lemma hash_tested a b : safeHashEqual a b = true <-> is_hex64 a = true /\ b = a.
Proof. rewrite safeHashEqual_true. naive_solver. Qed.
Lemma bytes_tested h bytes : safeHashEqual h (sha256HexBytes bytes) = true <-> sha256HexBytes bytes = h.
Proof.
  rewrite safeHashEqual_true. split; [by intros [_ ->]|]. intros <-. split; [|done]. apply sha256HexBytes_hex64.
Qed.

Lemma judge_spec input presented current clock r a :
  match judge input presented current clock r a with
  | None => Forall (fun y => y.2) (judge_conditions input presented current clock r a)
  | Some reason => first_failing reason (judge_conditions input presented current clock r a)
  end.
Proof.
  rewrite judge_cascade. apply cascade_spec. unfold judge_tests, judge_conditions.
  repeat (constructor; [split; [done|cbn [snd]]|]); [..|constructor].
  - rewrite negb_true_iff, Z.leb_gt. done.
  - apply bool_decide_eq_true.
  - by rewrite negb_true_iff, bool_decide_eq_false.
  - apply hash_tested.
  - apply hash_tested.
  - apply bytes_tested.
  - by rewrite andb_true_iff, hash_tested, bool_decide_eq_true.
  - destruct (AcceptedInputResponseSchema _) as [[[] code]|]; [|by split; [|intros [? [=]]]..]. by split; [exists code|].
  - destruct (AcceptedInputResponseSchema _) as [[approve code]|]; [|by split].
    unfold sha256Hex. rewrite bytes_tested. split; [by intros E ? ? [= <- <-]|intros E; by eapply E].
Qed.

Lemma confirmed_binds input s locked presented current r a recorded code arguments capabilities response record :
  present input = Ok (ci_stageId input, ci_consentRecordId input, presented) ->
  judged input s locked presented current r a ->
  judge input presented current (transaction_timestamp s) r a = None ->
  consented s locked recorded r a (ci_consentRecordId input) code (ci_retryRequestId input)
    (utf8_encode arguments) (utf8_encode capabilities) (ci_requestStateBytes input) (utf8_encode response)
    (utf8_encode record) ->
  canonicalJson (ci_originalArguments input) = Ok arguments ->
  canonicalJson (ci_clientCapabilities input) = Ok capabilities ->
  exists code, binds input s current r a code.
Proof.
  intros Hp J Hj C Ea Ec. pose proof (judge_spec input presented current (transaction_timestamp s) r a) as Hc.
  rewrite Hj in Hc. unfold judge_conditions in Hc.
  repeat match goal with Hf : Forall _ (_ :: _) |- _ => apply Forall_cons in Hf as [? Hf] end. cbn [snd] in *.
  match goal with Hf : exists _, _ |- _ => destruct Hf as (answer & Hans) end.
  destruct J as [Hr Hid (context & Hctx & Hm) Hsha]. destruct Hr as [_ _ _ Hst Hpr].
  destruct (cs_context _ _ _ _ _ _ _ _ _ _ _ _ _ C) as (context' & Hctx' & _ & _ & _ & _ & V).
  assert (context' = context) as -> by congruence.
  unfold context_matches in Hm. unfold verifier_accepts in V. boolify.
  exists answer. split.
  - split_and!; [done..|lia|lia].
  - split_and!; naive_solver.
  - unfold canonicalSha256. rewrite Ea, Ec. cbn. split_and!; [f_equal; symmetry; done..|done].
  - done.
  - split_and!; [|unfold present in Hp; inv_ok|done].
    + rewrite Hctx. f_equal. destruct context; cbn in *. congruence.
    + naive_solver.
  - split_and!; [done..|naive_solver].
Qed.

(** C8. A confirmation binds what it confirms. When an action is confirmed, the
    stage was active and within its ten minutes, belongs to the member, client,
    token, organization, origin and context of the request, carries exactly the
    payload and package the locked aggregate has now, was prepared with the
    arguments, capabilities and state presented now but under another request
    identifier, and the answer approves with the code handed out for it. The
    consent record holds the stage's own values under the digest of its
    canonical record, and an audit event with that digest was appended. *)
Theorem confirmation_bound {T} input lock (act : jsstr -> Tx (Database W) (ConfirmedAct T)) options s
    value consentId recordSha sequences db db' : wf db -> honest lock -> acts_honestly act ->
  confirmStagedActionInTransaction input lock act options s db
  = Ok (Confirmed value consentId recordSha sequences, db') ->
  exists current locked r a code record protectedSha,
    lock s db = Ok (current, locked) /\ r ∈ action_stages locked /\ a ∈ input_required_attempts locked /\
    stage_id r = ci_stageId input /\ at_stage a = stage_id r /\ binds input s current r a code /\
    consent_records db' = consent_records db ++
      [consent_row consentId (binding r) (at_id a) protectedSha (transaction_timestamp s) recordSha] /\
    protectedSha = sha256HexBytes (ordered_text (protected_record (stage_id r) (sha256Hex code))) /\
    recordSha = sha256Hex record /\
    (exists responseSha, canonicalSha256 (response_json accept (ci_inputResponse input)) = Ok responseSha /\
      utf8_encode record = ordered_text (consent_record_json consentId (binding r) (at_id a) protectedSha
        (to_char_utc (st_createdAt (binding r))) (to_char_utc (transaction_timestamp s)) responseSha)) /\
    exists before event later, grows locked db' (before ++ event :: later) /\
      eventType (event_body event) = js "consent_recorded" /\ entityId (event_body event) = consentId /\
      str "recordSha256" recordSha ∈ details (event_body event).
Proof.
  intros Hw Hl Ha E. destruct (confirm_cases _ _ _ _ _ _ _ _ Hw Hl Ha E) as (p & cu & locked & Hp & Hlk & F & _ & O).
  inversion O as [| |r a v sha seqs J Hj P]; subst.
  destruct (pf_consent _ _ _ _ _ _ _ _ _ P)
    as (recorded & code & args & caps & response & record & C & Ea & Ec & Er & -> & Ecs).
  destruct (confirmed_binds _ _ _ _ _ _ _ _ _ _ _ _ _ Hp J Hj C Ea Ec) as (answer & B).
  destruct (pf_audit _ _ _ _ _ _ _ _ _ P) as (before & ev & later & G & Eev).
  pose proof (jd_read _ _ _ _ _ _ _ J) as R. destruct (bd_answer _ _ _ _ _ _ B) as (Hacc & _ & Hcode).
  exists cu, locked, r, a, answer, record, (sha256HexBytes (ordered_text (protected_record (stage_id r) (sha256Hex answer)))).
  rewrite Hcode. split_and!; try done; try apply R.
  - by apply (jd_id _ _ _ _ _ _ _ J).
  - rewrite Ecs, (cs_after _ _ _ _ _ _ _ _ _ _ _ _ _ C). cbn [with_consents consent_records].
    by rewrite (fr_consents _ _ F).
  - exists (sha256Hex response). split.
    + unfold canonicalSha256. rewrite <- Hacc, Er. done.
    + apply (cs_record _ _ _ _ _ _ _ _ _ _ _ _ _ C).
  - exists before, ev, later. rewrite Eev. split_and!; try done. cbn. repeat (first [by left|right]).
Qed.

End histories.

(** ** A concrete history *)

Definition sample_clock : PgClock := {| to_char_utc _ := js "2026-01-02T03:04:05.000000Z" |}.
Definition sample_sql : SqlAuthority unit :=
  {| boardagent_owned_administrative_stage _ _ _ := false;
     boardagent_owned_administrative_audit _ _ _ := false;
     administrative_snapshot_current _ _ _ _ := false |}.
(** A URL parser that knows one origin. *)
Definition sample_urls : UrlParser :=
  {| parse_url s := if bool_decide (s = js "https://board.example")
                    then Some (MkUrl (js "https:") s (js "/")) else None |}.

Definition uuid (n : string) : jsstr := js "01890000-0000-7000-8000-0000000000" ++ js n.

Definition sample_session : Session :=
  installLocalContext 1000000 (MkContext (uuid "01") (uuid "02") (uuid "03") (uuid "04") [], replicate 64 97).

Definition sample_empty : Database unit :=
  MkDatabase [] [] []
    [MkToken (uuid "05") (uuid "01") (uuid "02") (uuid "03") (uuid "04") (js "https://board.example") None 9000000]
    [(uuid "03", true)] [(uuid "01", js "https://board.example")] [] [(uuid "01", uuid "02")] []
    [] (0, GENESIS_HASH) [] tt.

Definition sample_capabilities : json := JObj [(js "elicitation", JObj [])].

Definition sample_stage_input : StageActionInput :=
  MkStageInput (uuid "10") (uuid "11") None None None (js "close_vote") (js "vote") (Some (uuid "06"))
    (js "boardagent.vote-close-consent.v1") (JObj []) None (replicate 16 7) (js "ABCDEFGH") (uuid "05")
    (js "https://board.example") (js "close_vote") (JObj []) sample_capabilities (JObj []) (JObj [])
    (replicate 32 1) [1] (uuid "12") (uuid "13") (uuid "14").

Definition sample_answer (code : string) : json :=
  JObj [bool_member "approve" true; str "confirmation_code" (js code)].

Definition sample_confirm_input (code : string) : ConfirmStagedActionInput :=
  MkConfirmInput (uuid "10") (uuid "20") [2] (JObj []) sample_capabilities (js "https://board.example")
    (replicate 32 1) accept (sample_answer code) (uuid "21") (uuid "22").

(** An aggregate that is what was staged, and an action without effects. *)
Definition sample_lock : Tx (Database unit) CurrentActionBindings :=
  mret (MkBindings (sha256Hex (js "{}")) None).
Definition sample_act (_ : jsstr) : Tx (Database unit) (@ConfirmedAct unit unit) := mret (MkAct tt [] [] None).

Definition sample_stage :=
  @stageActionInTransaction plain_platform plain_time unit sample_clock sample_sql sample_urls sample_stage_input
    (mret tt) sample_session sample_empty.
Definition after {A} (r : result (A * Database unit)) : Database unit :=
  match r with Ok (_, db) => db | Throw _ => sample_empty end.
Definition sample_staged : Database unit := after sample_stage.

Definition sample_confirm (code : string) (db : Database unit) :=
  @confirmStagedActionInTransaction plain_platform plain_time unit sample_clock sample_sql sample_urls unit
    (sample_confirm_input code) sample_lock sample_act (MkConfirmOptions false false) sample_session db.

Definition answer_of {T} (r : result (StagedActionResolution T * Database unit))
    : option (ConfirmationFailureReason + list Z) :=
  match r with
  | Ok (Confirmed _ _ _ sequences, _) => Some (inr sequences)
  | Ok (NotConfirmed reason, _) => Some (inl reason)
  | Throw _ => None
  end.

Example sample_history :
  answer_of (sample_confirm "ABCDEFGH" sample_staged) = Some (inr [3]) /\
  answer_of (sample_confirm "ABCDEFGH" (after (sample_confirm "ABCDEFGH" sample_staged)))
  = Some (inl stage_not_active) /\
  answer_of (sample_confirm "ABCDEFGX" sample_staged) = Some (inl code_mismatch).
Proof. vm_compute. split_and!; reflexivity. Qed.

(** The stores of the sample are well formed, and its code is honest. *)
Section sample_facts.
Let platform := plain_platform.
#[local] Existing Instances plain_platform plain_time sample_clock sample_sql sample_urls.
#[local] Instance sample_text : NodeText := @strict_text plain_platform.

Lemma ret_honest {A} (a : A) : @honest plain_platform plain_time unit A (mret a).
Proof. intros s db b db' E. inv_tx. apply foreign_refl. Qed.
Lemma sample_act_honest : acts_honestly sample_act.
Proof. split; [intros c; apply ret_honest|]. intros c s db x db' f E Hf. unfold sample_act in E. by inv_tx. Qed.

Lemma sample_empty_wf : wf sample_empty.
Proof.
  split; cbn; [constructor..|by intros r r' ?%elem_of_nil|constructor|intros id|].
  - split; [by intros ?%elem_of_nil|by intros (r & ?%elem_of_nil & _)].
  - exists []. split_and!; [constructor|done|done].
Qed.

Lemma answer_confirmed {T} (r : result (StagedActionResolution T * Database unit)) l :
  answer_of r = Some (inr l) -> exists value c sha, r = Ok (Confirmed value c sha l, after r).
Proof. destruct r as [[[value c sha seqs|reason] db]|e]; cbn; try discriminate. intros [= ->]. by eexists _, _, _. Qed.
Lemma answer_refused {T} (r : result (StagedActionResolution T * Database unit)) reason :
  answer_of r = Some (inl reason) -> r = Ok (NotConfirmed reason, after r).
Proof. destruct r as [[[value c sha seqs|why] db]|e]; cbn; try discriminate. by intros [= ->]. Qed.
Lemma ok_after {A} (r : result (A * Database unit)) : is_ok r = true -> exists a, r = Ok (a, after r).
Proof. destruct r as [[a db]|e]; cbn; [by exists a|discriminate]. Qed.

Lemma sample_staged_step : step sample_empty sample_staged.
Proof.
  destruct (ok_after sample_stage) as (r & E); [vm_compute; reflexivity|].
  unfold sample_staged. unfold sample_stage in *.
  exact (step_stage _ _ sample_session sample_stage_input (mret tt) r (ret_honest _) E).
Qed.
Lemma sample_staged_wf : wf sample_staged.
Proof. exact (step_wf _ _ sample_staged_step sample_empty_wf). Qed.

Definition sample_done : Database unit := after (sample_confirm "ABCDEFGH" sample_staged).

Lemma history_invariant_witness : wf sample_empty /\ wf sample_staged.
Proof.
  split; [apply sample_empty_wf|].
  apply (history_invariant sample_empty sample_staged sample_empty_wf).
  apply rtc_once, sample_staged_step.
Defined.

Lemma stage_confirmed_once_witness :
  (exists value c sha, sample_confirm "ABCDEFGH" sample_staged = Ok (Confirmed value c sha [3], sample_done)) /\
  exists reason, NotConfirmed (T := unit) stage_not_active = NotConfirmed reason /\ leaves_stage reason.
Proof.
  destruct (answer_confirmed _ _ (proj1 sample_history)) as (value & c & sha & E).
  split; [exists value, c, sha; exact E|].
  pose proof (answer_refused _ _ (proj1 (proj2 sample_history))) as E'. pose proof sample_staged_wf as Hw.
  revert Hw E E'. generalize (after (sample_confirm "ABCDEFGH" (after (sample_confirm "ABCDEFGH" sample_staged)))).
  generalize (after (sample_confirm "ABCDEFGH" sample_staged)). generalize sample_staged. unfold sample_confirm.
  intros db db1 db2 Hw E E'.
  exact (proj1 (stage_confirmed_once (T := unit) (T' := unit) (sample_confirm_input "ABCDEFGH")
    (sample_confirm_input "ABCDEFGH") sample_lock sample_lock sample_act sample_act
    (MkConfirmOptions false false) (MkConfirmOptions false false) sample_session sample_session value c sha [3]
    (NotConfirmed stage_not_active) db db1 db1 db2
    Hw (ret_honest _) sample_act_honest (ret_honest _) sample_act_honest E (rtc_refl _ _) eq_refl E')).
Defined.

Lemma confirmation_bound_witness : exists current locked r a code,
  sample_lock sample_session sample_staged = Ok (current, locked) /\ r ∈ action_stages locked /\
  binds (sample_confirm_input "ABCDEFGH") sample_session current r a code.
Proof.
  destruct (answer_confirmed _ _ (proj1 sample_history)) as (value & c & sha & E).
  destruct (confirmation_bound _ _ _ _ _ _ _ _ _ _ _ sample_staged_wf (ret_honest _) sample_act_honest E)
    as (cu & locked & r & a & code & record & psha & Hl & Hr & _ & _ & _ & B & _).
  exists cu, locked, r, a, code. exact (conj Hl (conj Hr B)).
Defined.

End sample_facts.
