(* ===== verification/Jobs.v ===== *)
(** * Typed jobs and their leases

    lib/db/src/jobs.ts: the closed union of job envelopes, enqueueing, claiming,
    extending, completing and reaping jobs, with the SQL functions these call
    in their last versions (lib/db/migrations/0030, 0107, 0111 and 0160) on the
    tables [jobs] and [job_attempt_results]. *)

From stdpp Require Import base numbers sorting strings list.
From Stdlib Require Import Lia.
From S2P Require Import Prelude JsString Encoding JsNumber Json JsonParse JsonCanon Schemas.
From S2P Require Import StateMachines SqlStates Decode Signing Codec VotingConsent KeyLifecycle AuditEvent Request Database.

Local Open Scope Z_scope.

(** ** The envelope *)

Inductive JobType :=
  | action_due_scan | action_stage_expiry | audit_checkpoint | audit_verify | automatic_vote_close
  | backup_receipt_verify | backup_trigger | certificate_recovery | clock_health | compatibility_alert
  | dependency_compatibility_alert | export_artifact_expiry | export_build | export_reconcile
  | feed_consistency_check | feed_reconcile | job_lease_reaper | job_retention | key_compatibility_alert
  | log_retention | notice_fanout | notification_dead_letter_alert | notification_lease_reaper
  | notification_retry | oauth_ephemera_expiry | protocol_compatibility_alert | question_due_scan
  | rate_bucket_retention | refresh_session_revocation | restore_due_alert | task_due_scan
  | vote_deadline_scan | webhook_delivery | wizard_expiry.

#[export] Instance JobType_eq : EqDecision JobType.
Proof. solve_decision. Defined.

Definition TYPED_JOB_TYPES : list (string * JobType) :=
  [("action_due_scan", action_due_scan); ("action_stage_expiry", action_stage_expiry);
   ("audit_checkpoint", audit_checkpoint); ("audit_verify", audit_verify);
   ("automatic_vote_close", automatic_vote_close); ("backup_receipt_verify", backup_receipt_verify);
   ("backup_trigger", backup_trigger); ("certificate_recovery", certificate_recovery);
   ("clock_health", clock_health); ("compatibility_alert", compatibility_alert);
   ("dependency_compatibility_alert", dependency_compatibility_alert);
   ("export_artifact_expiry", export_artifact_expiry); ("export_build", export_build);
   ("export_reconcile", export_reconcile); ("feed_consistency_check", feed_consistency_check);
   ("feed_reconcile", feed_reconcile); ("job_lease_reaper", job_lease_reaper);
   ("job_retention", job_retention); ("key_compatibility_alert", key_compatibility_alert);
   ("log_retention", log_retention); ("notice_fanout", notice_fanout);
   ("notification_dead_letter_alert", notification_dead_letter_alert);
   ("notification_lease_reaper", notification_lease_reaper); ("notification_retry", notification_retry);
   ("oauth_ephemera_expiry", oauth_ephemera_expiry);
   ("protocol_compatibility_alert", protocol_compatibility_alert); ("question_due_scan", question_due_scan);
   ("rate_bucket_retention", rate_bucket_retention);
   ("refresh_session_revocation", refresh_session_revocation); ("restore_due_alert", restore_due_alert);
   ("task_due_scan", task_due_scan); ("vote_deadline_scan", vote_deadline_scan);
   ("webhook_delivery", webhook_delivery); ("wizard_expiry", wizard_expiry)].

Definition job_type_text (t : JobType) : string :=
  match List.find (fun e => bool_decide (e.2 = t)) TYPED_JOB_TYPES with Some e => e.1 | None => "" end.

Definition organizationJobTypes : list JobType :=
  [action_stage_expiry; audit_checkpoint; audit_verify; backup_receipt_verify; backup_trigger; clock_health;
   compatibility_alert; dependency_compatibility_alert; export_artifact_expiry; export_reconcile;
   feed_consistency_check; job_lease_reaper; job_retention; key_compatibility_alert; log_retention;
   notification_lease_reaper; oauth_ephemera_expiry; protocol_compatibility_alert; rate_bucket_retention;
   refresh_session_revocation; restore_due_alert; wizard_expiry].

Definition board_scans : list JobType := [action_due_scan; question_due_scan; task_due_scan; vote_deadline_scan].
Definition notification_types : list JobType := [webhook_delivery; notification_retry; notification_dead_letter_alert].

(** The subject of a type, and the name of its parameter if it has one. *)
Definition subject_type (t : JobType) : string :=
  if bool_decide (t ∈ organizationJobTypes) then "organization"
  else if bool_decide (t ∈ board_scans) then "board"
  else if bool_decide (t ∈ notification_types) then "notification_job"
  else match t with
       | notice_fanout => "notice"
       | export_build => "export_request"
       | feed_reconcile => "member"
       | _ => "vote"
       end.

Definition parameter_key (t : JobType) : option string :=
  if bool_decide (t ∈ board_scans) then Some "through"
  else if bool_decide (t ∈ notification_types) then Some "notificationJobId"
  else match t with
       | audit_checkpoint => Some "throughSequence"
       | notice_fanout => Some "noticeId"
       | export_build => Some "exportRequestId"
       | feed_reconcile => Some "memberId"
       | automatic_vote_close | certificate_recovery => Some "voteId"
       | _ => None
       end.

(** The two schemas of the schema library that the sources use here,
    [z.iso.datetime({ offset: true })] and [z.uuid()]. *)
Class JobText := {
  iso_datetime_offset : jsstr -> bool;
  zod_uuid : jsstr -> bool
}.

Record TypedJobEnvelope := MkEnvelope {
  jobType : JobType;
  organizationId : jsstr;
  boardId : option jsstr;
  subjectId : jsstr;
  parameter : option jsstr
}.

Definition schema_version (t : JobType) : string := "boardagent.job." +:+ job_type_text t +:+ ".v1".

Definition envelope_json (e : TypedJobEnvelope) : json :=
  JObj [str "schemaVersion" (js (schema_version (jobType e)));
        str "organizationId" (organizationId e);
        nullable "boardId" (boardId e);
        str "jobType" (js (job_type_text (jobType e)));
        str "subjectType" (js (subject_type (jobType e)));
        str "subjectId" (subjectId e);
        (js "parameters",
         JObj match parameter_key (jobType e), parameter e with
              | Some key, Some value => [str key value]
              | _, _ => []
              end)].

Section envelope.
Context `{!JobText}.

Definition parameter_ok (t : JobType) (value : jsstr) : bool :=
  if bool_decide (t ∈ board_scans) then iso_datetime_offset value
  else if bool_decide (t = audit_checkpoint) then is_pos_dec value
  else is_uuid_v7 value.

(** The strict object of the parameters; an object has a name once. *)
Definition parameters_of_json (t : JobType) (v : json) : option (option jsstr) :=
  l ← members v;
  match parameter_key t, l with
  | None, [] => Some None
  | Some key, [(name, JStr value)] =>
      if bool_decide (name = js key) && parameter_ok t value then Some (Some value) else None
  | _, _ => None
  end.

(** [z.discriminatedUnion("jobType", ..)]: the member named by [jobType]. *)
Definition typedJobUnion (v : json) : option TypedJobEnvelope :=
  l ← members v;
  t ← required l "jobType" (dEnum TYPED_JOB_TYPES);
  if negb (strict ["schemaVersion"; "organizationId"; "boardId"; "jobType"; "subjectType"; "subjectId";
                   "parameters"] l) then None else
  _ ← required l "schemaVersion" (dLiteral (schema_version t));
  organization ← required l "organizationId" (dString is_uuid_v7);
  board ← required l "boardId" (dNullable (dString is_uuid_v7));
  _ ← required l "jobType" (dLiteral (job_type_text t));
  _ ← required l "subjectType" (dLiteral (subject_type t));
  subject ← required l "subjectId" (dString is_uuid_v7);
  parameters ← required l "parameters" (parameters_of_json t);
  Some (MkEnvelope t organization board subject parameters).

(** The refinement. *)
Definition envelope_bound (e : TypedJobEnvelope) : bool :=
  if bool_decide (jobType e ∈ organizationJobTypes)
  then is_null (boardId e) && bool_decide (subjectId e = organizationId e)
  else if bool_decide (jobType e ∈ board_scans)
  then is_some (boardId e) && bool_decide (Some (subjectId e) = boardId e)
  else (is_some (boardId e) || bool_decide (jobType e = export_build) || bool_decide (jobType e = webhook_delivery))
       && match parameter e with Some p => bool_decide (p = subjectId e) | None => false end.

Definition TypedJobEnvelopeSchema (v : json) : option TypedJobEnvelope :=
  e ← typedJobUnion v;
  if envelope_bound e then Some e else None.

(** The same as a test of the record. *)
Definition envelope_ok (e : TypedJobEnvelope) : bool :=
  is_uuid_v7 (organizationId e) && opt_all is_uuid_v7 (boardId e) && is_uuid_v7 (subjectId e)
  && match parameter_key (jobType e), parameter e with
     | None, None => true
     | Some _, Some value => parameter_ok (jobType e) value
     | _, _ => false
     end
  && envelope_bound e.
End envelope.

(** ** The tables *)

(** A lease is there as a whole or not at all ([jobs_lease_projection_ck]). *)
Record Lease := MkLease {
  lease_owner : jsstr;
  lease_token : jsstr;
  lease_started_at : Z;
  lease_expires_at : Z
}.

(** What an update of a job never changes. *)
Record JobBinding := MkJobBinding {
  jb_id : jsstr;
  jb_organization : jsstr;
  jb_board : option jsstr;
  jb_type : jsstr;
  jb_schemaVersion : jsstr;
  jb_subjectType : jsstr;
  jb_subjectId : option jsstr;
  jb_canonicalPayload : list Z;
  jb_payloadSha256 : jsstr;
  jb_idempotencyKey : jsstr
}.

(** [jobs] *)
Record JobRow := MkJob {
  job : JobBinding;
  jb_state : JobState;
  jb_attempts : Z;
  jb_availableAt : Z;
  jb_lease : option Lease;
  jb_lastErrorClass : option jsstr;
  jb_completedAt : option Z
}.

Definition job_id (r : JobRow) : jsstr := jb_id (job r).

Inductive ResultClass := result_succeeded | retryable_failure | permanent_failure | result_lease_expired.

#[export] Instance ResultClass_eq : EqDecision ResultClass.
Proof. solve_decision. Defined.

Definition result_text (r : ResultClass) : jsstr :=
  js match r with
     | result_succeeded => "succeeded"
     | retryable_failure => "retryable_failure"
     | permanent_failure => "permanent_failure"
     | result_lease_expired => "lease_expired"
     end.

(** [job_attempt_results] *)
Record AttemptResult := MkResult {
  ar_job : jsstr;
  ar_attempt : Z;
  ar_token : jsstr;
  ar_owner : jsstr;
  ar_class : ResultClass;
  ar_sha256 : jsstr;
  ar_errorClass : option jsstr;
  ar_state : JobState;
  ar_startedAt : Z;
  ar_completedAt : Z
}.

(** The tables, and the rest of the database. *)
Record JobStore (W : Type) := MkStore {
  jobs : list JobRow;
  job_attempt_results : list AttemptResult;
  job_world : W
}.
Arguments MkStore {W} _ _ _.
Arguments jobs {W} _.
Arguments job_attempt_results {W} _.
Arguments job_world {W} _.

(** What a statement of a worker meets outside the tables: [clock_timestamp()],
    [gen_random_uuid()], and the rows that other transactions hold locked. *)
Record Instant := MkInstant {
  clock_timestamp : Z;
  gen_random_uuid : jsstr;
  locked : jsstr -> bool
}.

(** What the guard of an insert asks other tables and PostgreSQL: the recusals
    from boards, whether the subject of the job is there and eligible, the foreign
    keys, and the reading of a timestamp. *)
Class JobSubjects (W : Type) := {
  job_exclusions : W -> list BoardExclusion;
  subject_eligible : Session -> Instant -> W -> JobBinding -> bool;
  job_references : W -> JobBinding -> bool;
  timestamptz : jsstr -> option Z
}.

(** ** SQL: inserting a job *)

Section sql.
Context `{Platform} {W : Type} `{!JobSubjects W}.

Abbreviation JDB := (JobStore W).

Definition with_jobs (db : JDB) rows : JDB := MkStore rows (job_attempt_results db) (job_world db).
Definition with_results (db : JDB) rows : JDB := MkStore (jobs db) rows (job_world db).

(** [payload->>name] of a string or null member. *)
Definition text_of (l : list (jsstr * json)) (name : string) : option jsstr :=
  match map_get l (js name) with Some (JStr s) => Some s | _ => None end.

(** The text of the parameters: exactly the named one, of this value, or none. *)
Definition parameters_are (p : list (jsstr * json)) (key : string) (value : option jsstr) : bool :=
  strict [key] p && bool_decide (text_of p key = value).

(** The reserved producer names. *)
Definition reserved_key (key : jsstr) : bool := starts_with (js "worker-v2:") key.

(** What [boardagent_guard_typed_job_insert] (after migration 0160) asks of the
    row itself. The cast to [jsonb] is the strict reader of JSON text, which also
    refuses a member given twice; no producer writes one, since every payload is
    canonical text. *)
Definition typed_job_row (n : JobBinding) : bool :=
  match utf8_decode (jb_canonicalPayload n) with
  | None => false
  | Some text =>
  match strictParse text with
  | Ok (JObj payload) =>
      negb (has_nul (JObj payload))
      && strict ["schemaVersion"; "organizationId"; "boardId"; "jobType"; "subjectType"; "subjectId"; "parameters"]
        payload
      && bool_decide (sha256HexBytes (jb_canonicalPayload n) = jb_payloadSha256 n)
      && bool_decide (jb_type n ∈ map (fun e => js e.1) TYPED_JOB_TYPES)
      && bool_decide (jb_schemaVersion n = js "boardagent.job." ++ jb_type n ++ js ".v1")
      && bool_decide (text_of payload "schemaVersion" = Some (jb_schemaVersion n))
      && bool_decide (text_of payload "organizationId" = Some (jb_organization n))
      && bool_decide (text_of payload "jobType" = Some (jb_type n))
      && bool_decide (text_of payload "subjectType" = Some (jb_subjectType n))
      && bool_decide (text_of payload "subjectId" = jb_subjectId n)
      && match map_get payload (js "boardId"), jb_board n with
         | Some JNull, None => true
         | Some (JStr board), Some b => bool_decide (board = b)
         | _, _ => false
         end
      && is_some (jb_subjectId n)
      && match map_get payload (js "parameters") with
         | Some (JObj p) =>
             let type_is t := bool_decide (jb_type n = js t) in
             let subject t := bool_decide (jb_subjectType n = js t) in
             if type_is "action_due_scan" || type_is "question_due_scan" || type_is "task_due_scan" || type_is "vote_deadline_scan"
             then subject "board" && bool_decide (jb_subjectId n = jb_board n) && strict ["through"] p
                  && match text_of p "through" with
                     | Some through => in_range 20 35 (sql_length through) && is_some (timestamptz through)
                     | None => false
                     end
             else if type_is "automatic_vote_close" || type_is "certificate_recovery"
             then subject "vote" && is_some (jb_board n) && parameters_are p "voteId" (jb_subjectId n)
             else if type_is "notice_fanout"
             then subject "notice" && is_some (jb_board n) && parameters_are p "noticeId" (jb_subjectId n)
             else if type_is "webhook_delivery" || type_is "notification_retry" || type_is "notification_dead_letter_alert"
             then subject "notification_job" && parameters_are p "notificationJobId" (jb_subjectId n)
             else if type_is "export_build"
             then subject "export_request" && parameters_are p "exportRequestId" (jb_subjectId n)
             else if type_is "feed_reconcile"
             then subject "member" && is_some (jb_board n) && parameters_are p "memberId" (jb_subjectId n)
             else subject "organization" && is_null (jb_board n)
                  && bool_decide (jb_subjectId n = Some (jb_organization n))
                  && (if type_is "audit_checkpoint"
                      then strict ["throughSequence"] p
                           && match text_of p "throughSequence" with Some z => is_pos_dec z | None => false end
                      else match p with [] => true | _ => false end)
         | _ => false
         end
  | _ => false
  end
  end.

Definition boardagent_guard_typed_job_insert (session : Session) (now : Instant) (db : JDB) (n : JobBinding) : bool :=
  typed_job_row n && subject_eligible session now (job_world db) n.

(** The constraints of the columns of a new job. *)
Definition job_check (n : JobBinding) : bool :=
  is_uuid_v7 (jb_id n) && in_range 2 1048576 (Z.of_nat (length (jb_canonicalPayload n)))
  && is_hex64 (jb_payloadSha256 n) && in_range 16 256 (sql_length (jb_idempotencyKey n)).

Definition same_job_key (a b : JobBinding) : bool :=
  bool_decide (jb_organization a = jb_organization b) && bool_decide (jb_type a = jb_type b)
  && bool_decide (jb_idempotencyKey a = jb_idempotencyKey b).

(** [boardagent_enqueue_request_job], after migration 0107: the stored row and
    whether it was there before. *)
Definition boardagent_enqueue_request_job (now : Instant) (n : JobBinding) (availableAt : option Z)
    : Tx JDB (JobRow * bool) :=
  session ← ask;
  db ← get;
  db_check (bool_decide (transaction_scope session = js "request")) "25000" ≫= fun _ =>
  db_check (bool_decide (boardagent_context_uuid (set_organization_id session) = Some (jb_organization n))
            && (is_null (jb_board n) || boardagent_context_board_allowed (job_exclusions (job_world db)) session (jb_board n))) "42501" ≫= fun _ =>
  db_check (negb (reserved_key (jb_idempotencyKey n))) "42501" ≫= fun _ =>
  db_check (boardagent_guard_typed_job_insert session now db n) "23514" ≫= fun _ =>
  db_check (job_check n) "23514" ≫= fun _ =>
  match List.find (fun r => same_job_key (job r) n) (jobs db) with
  | Some stored => mret (stored, true)
  | None =>
      db_check (forallb (fun r => negb (bool_decide (job_id r = jb_id n))) (jobs db)) "23505" ≫= fun _ =>
      db_check (job_references (job_world db) n) "23503" ≫= fun _ =>
      let stored := MkJob n JobState_queued 0 (or_else availableAt (clock_timestamp now)) None None None in
      put (with_jobs db (jobs db ++ [stored])) ≫= fun _ =>
      mret (stored, false)
  end.

(** ** SQL: leases *)

(** [^[A-Za-z0-9._:-]{1,128}$] and [^[a-z][a-z0-9_.-]{1,127}$] *)
Definition lease_owner_text : jsstr -> bool :=
  class_len (fun c => is_lower c || is_upper c || is_digit c || (c =? 46) || (c =? 95) || (c =? 58) || (c =? 45))
    1 128.
Definition error_class_text (s : jsstr) : bool :=
  match s with
  | c :: t => is_lower c
      && class_len (fun c => is_lower c || is_digit c || (c =? 95) || (c =? 46) || (c =? 45)) 1 127 t
  | [] => false
  end.

Definition seconds (n : Z) : Z := n * 1000000.

(** An update of one job: the guard of its state, its new row. *)
Definition update_job (id : jsstr) (change : JobRow -> JobRow) : Tx JDB unit :=
  db ← get;
  db_check (forallb (fun r => negb (bool_decide (job_id r = id))
              || boardagent_guard_state_transition "jobs" (state_name (jb_state r)) (state_name (jb_state (change r))))
              (jobs db)) "23514" ≫= fun _ =>
  put (with_jobs db (map (fun r => if bool_decide (job_id r = id) then change r else r) (jobs db))).

(** Lexicographic comparison. *)
Definition cmp_then (a b : Z) : Z := if a =? 0 then b else a.

(** The order in which jobs are claimed: protected checkpoint work first. *)
Definition claim_class (r : JobRow) : Z :=
  if bool_decide (jb_type (job r) = js "audit_checkpoint")
     && starts_with (js "worker-v2:checkpoint:") (jb_idempotencyKey (job r)) then 0 else 1.
Definition cmp_claim (a b : JobRow) : Z :=
  cmp_then (claim_class a - claim_class b)
    (cmp_then (jb_availableAt a - jb_availableAt b) (cmp_units (job_id a) (job_id b))).

Definition claimable (now : Z) (r : JobRow) : bool :=
  bool_decide (jb_state r ∈ [JobState_queued; JobState_retry]) && (jb_availableAt r <=? now) && (jb_attempts r <? 10).

Definition leased_job (lease : Lease) (r : JobRow) : JobRow :=
  MkJob (job r) JobState_leased (jb_attempts r + 1) (jb_availableAt r) (Some lease) (jb_lastErrorClass r)
    (jb_completedAt r).

Definition worker_scope : Tx JDB unit :=
  session ← ask; db_check (bool_decide (transaction_scope session = js "worker")) "25000".

(** [boardagent_claim_typed_job], after migration 0111. *)
Definition boardagent_claim_typed_job (now : Instant) (owner : jsstr) (leaseSeconds : Z)
    : Tx JDB (option (JobRow * Lease)) :=
  worker_scope ≫= fun _ =>
  db_check (lease_owner_text owner && in_range 5 300 leaseSeconds) "22023" ≫= fun _ =>
  db ← get;
  let clock := clock_timestamp now in
  let candidates := List.filter (fun r => claimable clock r && negb (locked now (job_id r))) (jobs db) in
  match toSorted cmp_claim candidates with
  | [] => mret None
  | candidate :: _ =>
      let lease := MkLease owner (gen_random_uuid now) clock (clock + seconds leaseSeconds) in
      update_job (job_id candidate) (leased_job lease) ≫= fun _ =>
      mret (Some (leased_job lease candidate, lease))
  end.

(** The lease that an owner, an attempt and a token name, if it is still on. *)
Definition holds_lease (clock : Z) (owner token : jsstr) (attempt : Z) (r : JobRow) : bool :=
  bool_decide (jb_state r = JobState_leased) && (jb_attempts r =? attempt)
  && match jb_lease r with
     | Some lease => bool_decide (lease_owner lease = owner) && bool_decide (lease_token lease = token)
                     && (clock <? lease_expires_at lease)
     | None => false
     end.

Definition find_job (db : JDB) (id : jsstr) : option JobRow :=
  List.find (fun r => bool_decide (job_id r = id)) (jobs db).

Definition extend_lease (until : Z) (r : JobRow) : JobRow :=
  MkJob (job r) (jb_state r) (jb_attempts r) (jb_availableAt r)
    ((fun l => MkLease (lease_owner l) (lease_token l) (lease_started_at l) (Z.max (lease_expires_at l) until))
       <$> jb_lease r)
    (jb_lastErrorClass r) (jb_completedAt r).

(** [boardagent_heartbeat_typed_job] *)
Definition boardagent_heartbeat_typed_job (now : Instant) (id owner : jsstr) (attempt : Z) (token : jsstr)
    (leaseSeconds : Z) : Tx JDB (option Z) :=
  worker_scope ≫= fun _ =>
  db_check (lease_owner_text owner && in_range 1 100 attempt && in_range 5 300 leaseSeconds) "22023" ≫= fun _ =>
  db ← get;
  let clock := clock_timestamp now in
  match find_job db id with
  | None => mret None
  | Some r =>
      if negb (holds_lease clock owner token attempt r) then mret None else
      let extended := extend_lease (clock + seconds leaseSeconds) r in
      update_job id (fun _ => extended) ≫= fun _ =>
      mret (lease_expires_at <$> jb_lease extended)
  end.

(** [least(86400, 30 * 2 ^ least(attempt - 1, 11))] *)
Definition retry_delay (attempt : Z) : Z := Z.min 86400 (30 * 2 ^ Z.min (attempt - 1) 11).

(** The row of a job whose attempt has ended. *)
Definition settled_job (next : JobState) (clock : Z) (errorClass : option jsstr) (r : JobRow) : JobRow :=
  MkJob (job r) next (jb_attempts r)
    (if bool_decide (next = JobState_retry) then clock + seconds (retry_delay (jb_attempts r)) else jb_availableAt r)
    None
    (if bool_decide (next = JobState_succeeded) then None else errorClass)
    (if bool_decide (next = JobState_retry) then None else Some clock).

(** [insert into job_attempt_results] *)
Definition insert_result (a : AttemptResult) : Tx JDB unit :=
  db ← get;
  db_check (in_range 1 100 (ar_attempt a) && (ar_startedAt a <=? ar_completedAt a)) "23514" ≫= fun _ =>
  db_check (forallb (fun p => negb (bool_decide (ar_job p = ar_job a)
              && ((ar_attempt p =? ar_attempt a) || bool_decide (ar_token p = ar_token a))))
              (job_attempt_results db)) "23505" ≫= fun _ =>
  put (with_results db (job_attempt_results db ++ [a])).

Definition result_of (r : JobRow) (lease : Lease) (class : ResultClass) (sha256 : jsstr) (errorClass : option jsstr)
    (next : JobState) (clock : Z) : AttemptResult :=
  MkResult (job_id r) (jb_attempts r) (lease_token lease) (lease_owner lease) class sha256 errorClass next
    (lease_started_at lease) clock.

(** [boardagent_complete_typed_job] *)
Definition boardagent_complete_typed_job (now : Instant) (id owner : jsstr) (attempt : Z) (token : jsstr)
    (class : ResultClass) (sha256 : jsstr) (errorClass : option jsstr) : Tx JDB (option (JobState * bool)) :=
  worker_scope ≫= fun _ =>
  db_check (lease_owner_text owner && in_range 1 100 attempt && negb (bool_decide (class = result_lease_expired))
            && is_hex64 sha256
            && (if bool_decide (class = result_succeeded) then is_null errorClass
                else match errorClass with Some c => error_class_text c | None => false end)) "22023" ≫= fun _ =>
  db ← get;
  match List.find (fun p => bool_decide (ar_job p = id) && (ar_attempt p =? attempt)) (job_attempt_results db) with
  | Some prior =>
      db_check (bool_decide (ar_owner prior = owner) && bool_decide (ar_token prior = token)
                && bool_decide (ar_class prior = class) && bool_decide (ar_sha256 prior = sha256)
                && bool_decide (ar_errorClass prior = errorClass)) "23505" ≫= fun _ =>
      mret (Some (ar_state prior, true))
  | None =>
      let clock := clock_timestamp now in
      match find_job db id with
      | None => mret None
      | Some r =>
          match jb_lease r with
          | None => mret None
          | Some lease =>
              if negb (holds_lease clock owner token attempt r) then mret None else
              let next := if bool_decide (class = result_succeeded) then JobState_succeeded
                          else if bool_decide (class = permanent_failure) || (10 <=? attempt) then JobState_dead
                          else JobState_retry in
              insert_result (result_of r lease class sha256 errorClass next clock) ≫= fun _ =>
              update_job id (settled_job next clock errorClass) ≫= fun _ =>
              mret (Some (next, false))
          end
      end
  end.

Definition expired_sha256 (r : JobRow) : jsstr :=
  sha256Hex (js "boardagent.job.lease_expired.v1:" ++ job_id r ++ js ":" ++ dec (jb_attempts r)).

Definition cmp_expiry (a b : JobRow) : Z :=
  let at_ r := match jb_lease r with Some l => lease_expires_at l | None => 0 end in
  cmp_then (at_ a - at_ b) (cmp_units (job_id a) (job_id b)).

Definition lease_expired (clock : Z) (r : JobRow) : bool :=
  bool_decide (jb_state r = JobState_leased)
  && match jb_lease r with Some l => lease_expires_at l <=? clock | None => false end.

(** The loop of the reaper: the numbers of retried and dead jobs. *)
Fixpoint reap_rows (clock : Z) (expired : list JobRow) (retried dead : Z) : Tx JDB (Z * Z) :=
  match expired with
  | [] => mret (retried, dead)
  | r :: rest =>
      match jb_lease r with
      | None => reap_rows clock rest retried dead
      | Some lease =>
          let next := if 10 <=? jb_attempts r then JobState_dead else JobState_retry in
          insert_result (result_of r lease result_lease_expired (expired_sha256 r) (Some (js "lease_expired")) next clock)
            ≫= fun _ =>
          update_job (job_id r) (settled_job next clock (Some (js "lease_expired"))) ≫= fun _ =>
          if bool_decide (next = JobState_retry) then reap_rows clock rest (retried + 1) dead
          else reap_rows clock rest retried (dead + 1)
      end
  end.

(** [boardagent_reap_expired_typed_jobs], after migration 0160. *)
Definition boardagent_reap_expired_typed_jobs (now : Instant) (limit : Z) : Tx JDB (Z * Z) :=
  worker_scope ≫= fun _ =>
  db_check (in_range 1 10000 limit) "22023" ≫= fun _ =>
  db ← get;
  let clock := clock_timestamp now in
  let expired := List.filter (fun r => lease_expired clock r && negb (locked now (job_id r))) (jobs db) in
  reap_rows clock (take (Z.to_nat limit) (toSorted cmp_expiry expired)) 0 0.
End sql.

(** ** The transactions *)

Section transactions.
Context `{Platform} `{!NodeText} `{!JobText} {W : Type} `{!JobSubjects W} `{!PgClock}.

Abbreviation JDB := (JobStore W).

Definition int_between (lo hi : Z) (n : jsnum) : option Z :=
  match n with NInt z => if in_range lo hi z then Some z else None | _ => None end.

Definition parsed {A} (schema : string) (o : option A) : Tx JDB A :=
  match o with Some a => mret a | None => fail (ZodError schema) end.

Definition exactIdempotencyKey (value : jsstr) : result jsstr :=
  if in_range 16 256 (js_length value) then Ok value
  else Throw (RangeError "job idempotency key must contain 16 through 256 characters" []).

Definition exactLeaseOwner (value : jsstr) : result jsstr :=
  if lease_owner_text value then Ok value
  else Throw (TypeError "lease owner must be an opaque bounded worker identifier" []).

Definition boundedSeconds (value : Z) (label : string) (minimum maximum : Z) : result Z :=
  if in_range minimum maximum value then Ok value
  else Throw (RangeError "must be an integer from minimum through maximum" [js label; dec minimum; dec maximum]).

(** A statement whose database errors are given another error. *)
Definition rescue {A} (m : Tx JDB A) (other : exn -> option exn) : Tx JDB A := fun session db =>
  match m session db with
  | Ok r => Ok r
  | Throw e => match other e with Some e' => Throw e' | None => Throw e end
  end.

Definition has_code (codes : list string) (e : exn) : bool :=
  match e with DatabaseError code => bool_decide (code ∈ codes) | _ => false end.

Record EnqueueRequestJobInput := MkEnqueue {
  en_jobId : jsstr;
  en_envelope : json;
  en_idempotencyKey : jsstr;
  en_availableAt : option jsstr
}.

(** The row an envelope stands for. *)
Definition binding_of (jobId : jsstr) (e : TypedJobEnvelope) (payload : list Z) (sha256 key : jsstr) : JobBinding :=
  MkJobBinding jobId (organizationId e) (boardId e) (js (job_type_text (jobType e)))
    (js (schema_version (jobType e))) (js (subject_type (jobType e))) (Some (subjectId e)) payload sha256 key.

Record EnqueueResult := MkEnqueued { eq_jobId : jsstr; replayed : bool; eq_payloadSha256 : jsstr }.

Definition enqueueRequestJobInTransaction (now : Instant) (input : EnqueueRequestJobInput) : Tx JDB EnqueueResult :=
  jobId ← lift (UuidV7Schema (en_jobId input));
  envelope ← parsed "TypedJobEnvelope" (TypedJobEnvelopeSchema (en_envelope input));
  fail_if (negb (in_range 16 256 (js_length (en_idempotencyKey input)))) (ZodError "EnqueueRequestJobInput") ≫= fun _ =>
  fail_if (negb (opt_all iso_datetime_offset (en_availableAt input))) (ZodError "EnqueueRequestJobInput") ≫= fun _ =>
  key ← lift (exactIdempotencyKey (en_idempotencyKey input));
  text ← lift (canonicalJson (envelope_json envelope));
  payloadSha256 ← lift (canonicalSha256 (envelope_json envelope));
  availableAt ← match en_availableAt input with
                | None => mret None
                | Some t => match timestamptz t with
                            | Some z => mret (Some z)
                            | None => fail (DatabaseError "22007")
                            end
                end;
  fail_if (existsb (Z.eqb 0) key) (DatabaseError "22021") ≫= fun _ =>
  row ← rescue (boardagent_enqueue_request_job now
                  (binding_of jobId envelope (utf8_encode text) payloadSha256 (pg_text key)) availableAt)
          (fun e => if has_code ["23514"; "42501"] e
                    then Some (JobTransactionError "job_invalid" "typed job target or payload is invalid") else None);
  let '(stored, again) := row in
  fail_if (negb (safeHashEqual (jb_payloadSha256 (job stored)) payloadSha256)
           || negb (bool_decide (jb_canonicalPayload (job stored) = utf8_encode text)))
    (JobTransactionError "job_conflict" "job idempotency key was used for different canonical bytes") ≫= fun _ =>
  mret (MkEnqueued (job_id stored) again payloadSha256).

Definition protectedCompletionHash (jobId : jsstr) (attempt : Z) (class : ResultClass) (errorClass : option jsstr)
    : result jsstr :=
  canonicalSha256 (JObj [str "schemaVersion" (js "boardagent.job-attempt-result.v1"); str "jobId" jobId;
                         int_member "attempt" attempt; str "result" (result_text class);
                         nullable "errorClass" errorClass]).

Record ClaimedJob := MkClaimed {
  cj_jobId : jsstr;
  cj_envelope : TypedJobEnvelope;
  cj_payloadSha256 : jsstr;
  cj_attempt : Z;
  cj_leaseOwner : jsstr;
  cj_leaseToken : jsstr;
  cj_leaseStartedAt : jsstr;
  cj_leaseExpiresAt : jsstr
}.

(** [rejected]: the job and why; the source keeps the message of the error. *)
Inductive ClaimJobResult :=
  | claimed (claimed_job : ClaimedJob)
  | nothing_claimed
  | rejected (jobId : jsstr) (reason : exn).

Definition assertEnvelopeMatchesRow (r : JobRow) (e : TypedJobEnvelope) : result unit :=
  throw_if (negb (bool_decide (organizationId e = jb_organization (job r)))
            || negb (bool_decide (boardId e = jb_board (job r)))
            || negb (bool_decide (js (job_type_text (jobType e)) = jb_type (job r)))
            || negb (bool_decide (js (subject_type (jobType e)) = jb_subjectType (job r)))
            || negb (bool_decide (Some (subjectId e) = jb_subjectId (job r)))
            || negb (bool_decide (js (schema_version (jobType e)) = jb_schemaVersion (job r))))
    (JobTransactionError "job_invalid" "typed job row and canonical envelope differ").

(** The envelope of a claimed row, or why it has none. *)
Definition claimed_envelope (r : JobRow) : result TypedJobEnvelope :=
  let payload := jb_canonicalPayload (job r) in
  match JSON_parse (buffer_toString payload) with
  | None => Throw (JsError "SyntaxError" [])
  | Some v =>
      match TypedJobEnvelopeSchema v with
      | None => Throw (ZodError "TypedJobEnvelope")
      | Some envelope =>
          text ← canonicalJson (envelope_json envelope);
          sha256 ← canonicalSha256 (envelope_json envelope);
          throw_if (negb (bool_decide (utf8_encode text = payload))
                    || negb (safeHashEqual (jb_payloadSha256 (job r)) sha256))
            (JobTransactionError "job_invalid" "typed job payload is not the exact canonical byte representation")
            ≫= fun _ =>
          assertEnvelopeMatchesRow r envelope ≫= fun _ =>
          Ok envelope
      end
  end.

(** [later] is the instant of the second statement. *)
Definition claimTypedJobInTransaction (now later : Instant) (rawOwner : jsstr) (rawSeconds : jsnum)
    : Tx JDB ClaimJobResult :=
  leaseSeconds ← parsed "ClaimInput" (if lease_owner_text rawOwner then int_between 5 300 rawSeconds else None);
  leaseOwner ← lift (exactLeaseOwner rawOwner);
  leaseSeconds ← lift (boundedSeconds leaseSeconds "lease duration" 5 300);
  row ← boardagent_claim_typed_job now leaseOwner leaseSeconds;
  match row with
  | None => mret nothing_claimed
  | Some (r, lease) =>
      match claimed_envelope r with
      | Ok envelope =>
          mret (claimed (MkClaimed (job_id r) envelope (jb_payloadSha256 (job r)) (jb_attempts r) leaseOwner
                           (lease_token lease) (to_char_utc (lease_started_at lease))
                           (to_char_utc (lease_expires_at lease))))
      | Throw error =>
          let errorClass := js "invalid_typed_payload" in
          sha256 ← lift (protectedCompletionHash (job_id r) (jb_attempts r) permanent_failure (Some errorClass));
          _ ← boardagent_complete_typed_job later (job_id r) leaseOwner (jb_attempts r) (lease_token lease)
                permanent_failure sha256 (Some errorClass);
          mret (rejected (job_id r) error)
      end
  end.

(** A text of [z.uuid()] as the value PostgreSQL reads. *)
Definition uuid_value (s : jsstr) : jsstr := map (fun c => if is_upper c then c + 32 else c) s.

Definition heartbeatJobLeaseInTransaction (now : Instant) (jobId leaseOwner : jsstr) (attempt : jsnum)
    (leaseToken : jsstr) (leaseSeconds : jsnum) : Tx JDB (option jsstr) :=
  jobId ← lift (UuidV7Schema jobId);
  attempt ← parsed "HeartbeatInput" (if lease_owner_text leaseOwner then int_between 1 100 attempt else None);
  leaseSeconds ← parsed "HeartbeatInput" (if zod_uuid leaseToken then int_between 5 300 leaseSeconds else None);
  until ← boardagent_heartbeat_typed_job now jobId leaseOwner attempt (uuid_value leaseToken) leaseSeconds;
  mret (to_char_utc <$> until).

Record CompleteJobInput := MkComplete {
  co_jobId : jsstr;
  co_leaseOwner : jsstr;
  co_attempt : jsnum;
  co_leaseToken : jsstr;
  co_result : ResultClass;
  co_resultSha256 : jsstr;
  co_errorClass : option jsstr
}.

Inductive CompleteJobResult :=
  | completed (jobId : jsstr) (state : JobState) (again : bool)
  | lease_unavailable (jobId : jsstr).

(** [z.enum] of the three results a worker may report. *)
Definition reportable (class : ResultClass) : bool := negb (bool_decide (class = result_lease_expired)).

Definition completeTypedJobInTransaction (now : Instant) (input : CompleteJobInput) : Tx JDB CompleteJobResult :=
  jobId ← lift (UuidV7Schema (co_jobId input));
  attempt ← parsed "CompleteInput"
    (if lease_owner_text (co_leaseOwner input) && zod_uuid (co_leaseToken input) && reportable (co_result input)
        && is_hex64 (co_resultSha256 input) && opt_all error_class_text (co_errorClass input)
     then int_between 1 100 (co_attempt input) else None);
  let errorClass :=
    if bool_decide (co_result input = result_succeeded) then None
    else Some (or_else (co_errorClass input)
                 (js (if bool_decide (co_result input = permanent_failure) then "permanent_failure"
                      else "retryable_failure"))) in
  fail_if (bool_decide (co_result input = result_succeeded) && is_some (co_errorClass input))
    (TypeError "successful job completion cannot carry an error class" []) ≫= fun _ =>
  row ← rescue (boardagent_complete_typed_job now jobId (co_leaseOwner input) attempt
                  (uuid_value (co_leaseToken input)) (co_result input) (co_resultSha256 input) errorClass)
          (fun e => if has_code ["23505"] e
                    then Some (JobTransactionError "job_conflict" "job attempt already has a different immutable result")
                    else None);
  match row with
  | None => mret (lease_unavailable jobId)
  | Some (state, again) => mret (completed jobId state again)
  end.

Definition reapExpiredJobLeasesInTransaction (now : Instant) (rawLimit : option jsnum) : Tx JDB (Z * Z) :=
  limit ← parsed "ReapInput" (match rawLimit with None => Some 100 | Some n => int_between 1 10000 n end);
  limit ← lift (boundedSeconds limit "lease reap limit" 1 10000);
  boardagent_reap_expired_typed_jobs now limit.
End transactions.
