(* ===== verification/JobLeases.v ===== *)
(** * What leases guarantee

    The envelope as a payload of canonical text, the invariant of the job
    tables, and what enqueueing, claiming, extending, completing and reaping do
    to them, alone and in any history. *)

From stdpp Require Import base numbers sorting strings list relations.
From Stdlib Require Import Lia.
From S2P Require Import Prelude JsString Encoding JsNumber Json JsonParse JsonCanon Schemas.
From S2P Require Import StateMachines SqlStates Decode Signing Codec VotingConsent KeyLifecycle AuditEvent Request Database Jobs.

Local Open Scope Z_scope.

(** ** The envelope is a format *)

Section format.
Context `{Platform} `{!JobText}.

Definition sorted_envelope_json (e : TypedJobEnvelope) : json :=
  JObj [nullable "boardId" (boardId e); str "jobType" (js (job_type_text (jobType e)));
        str "organizationId" (organizationId e);
        (js "parameters",
         JObj match parameter_key (jobType e), parameter e with
              | Some key, Some value => [str key value]
              | _, _ => []
              end);
        str "schemaVersion" (js (schema_version (jobType e)));
        str "subjectId" (subjectId e); str "subjectType" (js (subject_type (jobType e)))].

Lemma sort_envelope e : sort_json (envelope_json e) = sorted_envelope_json e.
Proof. destruct e as [t o [b|] s [p|]]; destruct t; vm_compute; reflexivity. Qed.

Lemma job_type_read t : dEnum TYPED_JOB_TYPES (JStr (js (job_type_text t))) = Some t.
Proof. destruct t; vm_compute; reflexivity. Qed.

Lemma parameters_read t v p : parameters_of_json t v = Some p <->
  v = JObj match parameter_key t, p with Some key, Some value => [str key value] | _, _ => [] end /\
  match parameter_key t, p with
  | None, None => True
  | Some _, Some value => parameter_ok t value = true
  | _, _ => False
  end.
Proof.
  unfold parameters_of_json, str. split.
  - intros E. apply bind_Some in E as (l & Hl & E). destruct v; try done. injection Hl as <-.
    repeat case_match; simplify_eq; try done. boolify. by subst.
  - intros [-> Hp]. cbn. destruct (parameter_key t), p; try done.
    by rewrite bool_decide_eq_true_2, Hp.
Qed.

Lemma parameters_plain t p :
  json_plain (JObj match parameter_key t, p with Some key, Some value => [str key value] | _, _ => [] end) = true.
Proof. destruct t, p; vm_compute; reflexivity. Qed.

#[export] Instance envelope_format : JsonFormat TypedJobEnvelope.
Proof.
  refine {| to_json := envelope_json; of_json := TypedJobEnvelopeSchema; valid := envelope_ok |}.
  - intros w e E. unfold TypedJobEnvelopeSchema in E. apply bind_Some in E as (e' & E & Eb).
    destruct (envelope_bound e') eqn:Hb; [|done]. injection Eb as ->. unfold typedJobUnion in E. inv_read.
    match goal with Hp : parameters_of_json _ _ = Some _ |- _ => apply parameters_read in Hp as [_ Hp] end.
    unfold envelope_ok. cbn [organizationId boardId subjectId jobType parameter]. rewrite Hb, !andb_true_iff.
    split_and!; try assumption; [|reflexivity].
    match goal with |- match parameter_key ?t with _ => _ end = true => destruct (parameter_key t) end;
      by match goal with |- match ?p with _ => _ end = true => destruct p end.
  - intros w e Hd E. destruct w as [|b|n|t|l|l]; try done. unfold TypedJobEnvelopeSchema in E.
    apply bind_Some in E as (e' & E & Eb). destruct (envelope_bound e') eqn:Hb; [|done]. injection Eb as ->.
    unfold typedJobUnion in E. cbn [members distinct_names] in *. inv_read.
    match goal with Hp : parameters_of_json _ _ = Some _ |- _ => apply parameters_read in Hp as [-> _] end.
    unfold envelope_json. cbn [jobType organizationId boardId subjectId parameter]. read_literal.
  - intros e He. unfold envelope_ok in He. boolify. rewrite sort_envelope.
    unfold TypedJobEnvelopeSchema, typedJobUnion, sorted_envelope_json. cbn [members mbind option_bind].
    replace (required _ "jobType" _) with (Some (jobType e)).
    2: { unfold nullable, str. rewrite required_next by (vm_compute; reflexivity).
         by rewrite required_here, job_type_read. }
    cbn [mbind option_bind].
    replace (strict _ _) with true by (destruct e as [t o [b|] s [p|]]; vm_compute; reflexivity).
    cbn [negb]. read_members. rewrite (proj2 (parameters_read (jobType e) _ (parameter e))).
    + cbn [mbind option_bind]. destruct e. cbn in *. by match goal with Hb : envelope_bound _ = true |- _ => rewrite Hb end.
    + split; [reflexivity|]. by destruct (parameter_key (jobType e)), (parameter e).
  - intros e He. unfold envelope_json. obj_plain. apply parameters_plain.
Defined.
End format.

(** ** The invariant *)

(** The attempts of a job that have ended. *)
Definition ended (r : JobRow) : Z :=
  if bool_decide (jb_state r = JobState_leased) then jb_attempts r - 1 else jb_attempts r.

Definition waiting (r : JobRow) : Prop := jb_state r = JobState_queued \/ jb_state r = JobState_retry.
Definition finished (r : JobRow) : Prop := jb_state r ∈ [JobState_succeeded; JobState_dead; JobState_cancelled].

Record job_wf (r : JobRow) : Prop := {
  jw_attempts : 0 <= jb_attempts r <= 10;
  jw_lease : is_Some (jb_lease r) <-> jb_state r = JobState_leased;
  jw_leased : jb_state r = JobState_leased -> 1 <= jb_attempts r;
  jw_queued : jb_state r = JobState_queued -> jb_attempts r = 0;
  jw_waiting : waiting r -> jb_attempts r < 10;
  jw_finished : is_Some (jb_completedAt r) <-> finished r
}.

(** What the result of attempt [k] of a job may say. *)
Definition coherent (r : JobRow) (k : Z) (state : JobState) : Prop :=
  state = JobState_retry \/ (k = jb_attempts r /\ state = jb_state r).

Section invariant.
Context `{Platform} {W : Type} `{!JobSubjects W}.
Implicit Types (db : JobStore W).

Definition job_key (r : JobRow) : jsstr * jsstr * jsstr :=
  (jb_organization (job r), jb_type (job r), jb_idempotencyKey (job r)).

(** The results of a job are those of its ended attempts, one each. *)
Record wf db : Prop := {
  wf_job_ids : NoDup (map job_id (jobs db));
  wf_keys : NoDup (map job_key (jobs db));
  wf_jobs : forall r, r ∈ jobs db -> job_wf r;
  wf_rows : forall r, r ∈ jobs db -> typed_job_row (job r) = true;
  wf_results : forall a, a ∈ job_attempt_results db -> exists r, r ∈ jobs db /\ job_id r = ar_job a /\
    1 <= ar_attempt a <= ended r /\ coherent r (ar_attempt a) (ar_state a);
  wf_all_results : forall r k, r ∈ jobs db -> 1 <= k <= ended r ->
    exists a, a ∈ job_attempt_results db /\ ar_job a = job_id r /\ ar_attempt a = k;
  wf_one_result : NoDup (map (fun a => (ar_job a, ar_attempt a)) (job_attempt_results db))
}.

Lemma unique_job (rows : list JobRow) r q :
  NoDup (map job_id rows) -> r ∈ rows -> q ∈ rows -> job_id r = job_id q -> r = q.
Proof.
  induction rows as [|x rows IH]; [by intros _ ?%elem_of_nil|]. cbn.
  intros [Hn Hd]%NoDup_cons Hr Hq E. apply elem_of_cons in Hr as [->|Hr], Hq as [->|Hq]; try done.
  - destruct Hn. rewrite E. by apply list_elem_of_fmap_2.
  - destruct Hn. rewrite <- E. by apply list_elem_of_fmap_2.
  - by apply IH.
Qed.

Definition changed (id : jsstr) (change : JobRow -> JobRow) (r : JobRow) : JobRow :=
  if bool_decide (job_id r = id) then change r else r.

Section change.
Variables (db : JobStore W) (r r' : JobRow).
Hypotheses (Hwf : wf db) (Hr : r ∈ jobs db) (Hsame : job r' = job r).

Lemma changed_is change q : change r = r' -> q ∈ map (changed (job_id r) change) (jobs db) <->
  q = r' \/ (q ∈ jobs db /\ job_id q <> job_id r).
Proof.
  intros Hc. unfold changed. rewrite list_elem_of_In, in_map_iff. split.
  - intros (p & <- & Hp%list_elem_of_In). case_bool_decide as Hd; [|by right].
    assert (p = r) as -> by (eapply unique_job; [by apply wf_job_ids|done..]). by left.
  - intros [->|[Hq Hn]]; [exists r|exists q]; (split; [|by apply list_elem_of_In]).
    + by rewrite bool_decide_eq_true_2.
    + by rewrite bool_decide_eq_false_2.
Qed.

Lemma changed_map {A} (f : JobRow -> A) change : change r = r' -> f r' = f r ->
  map f (map (changed (job_id r) change) (jobs db)) = map f (jobs db).
Proof.
  intros Hc Hf. rewrite map_map. apply map_ext_in. intros q Hq%list_elem_of_In. unfold changed.
  case_bool_decide as Hd; [|done]. assert (q = r) as -> by (eapply unique_job; [by apply wf_job_ids|done..]).
  by rewrite Hc.
Qed.

(** One job moves on; [added] is the result of the attempt it ends, if it does. *)
Lemma wf_change change added : change r = r' -> job_wf r' ->
  (forall k state, 1 <= k <= ended r -> coherent r k state -> coherent r' k state) ->
  match added with
  | None => ended r' = ended r
  | Some a => ar_job a = job_id r /\ ar_attempt a = ended r + 1 /\ ended r' = ended r + 1 /\
      coherent r' (ar_attempt a) (ar_state a)
  end ->
  wf (MkStore (map (changed (job_id r) change) (jobs db))
        (job_attempt_results db ++ match added with Some a => [a] | None => [] end) (job_world db)).
Proof.
  intros Hc Hw' Hcoh Hadd. pose proof (wf_jobs _ Hwf _ Hr) as Hw.
  assert (0 <= ended r /\ ended r <= ended r') as Hended.
  { split; [|destruct added; [destruct Hadd as (_ & _ & -> & _); lia|lia]].
    unfold ended. case_bool_decide as Hd; [apply (jw_leased _ Hw) in Hd; lia|apply (jw_attempts _ Hw)]. }
  split; cbn [jobs job_attempt_results].
  - rewrite (changed_map job_id) by (unfold job_id; by rewrite ?Hsame). apply Hwf.
  - rewrite (changed_map job_key) by (unfold job_key; by rewrite ?Hsame). apply Hwf.
  - intros q [->|[Hq _]]%changed_is; [done| |done]. by apply Hwf.
  - intros q [->|[Hq _]]%changed_is; [|by apply Hwf|done]. rewrite Hsame. by apply Hwf.
  - intros a [Ha|Ha]%elem_of_app.
    + destruct (wf_results _ Hwf a Ha) as (q & Hq & Hi & Hk & Hs). destruct (decide (job_id q = job_id r)) as [E|E].
      * assert (q = r) as -> by (eapply unique_job; [by apply wf_job_ids|done..]). exists r'.
        split_and!; [apply changed_is; [done|by left]|unfold job_id; by rewrite Hsame|lia|lia|]. apply Hcoh; [lia|done].
      * exists q. split_and!; [apply changed_is; [done|by right]|done|lia|lia|done].
    + destruct added as [b|]; [|by apply elem_of_nil in Ha]. apply list_elem_of_singleton in Ha as ->.
      destruct Hadd as (Hj & Hk & He & Hs). exists r'.
      split_and!; [apply changed_is; [done|by left]|unfold job_id; by rewrite Hsame|lia|lia|done].
  - intros q k Hq Hk. apply changed_is in Hq as [->|[Hq Hn]]; [| |done].
    + assert (job_id r' = job_id r) as -> by (unfold job_id; by rewrite Hsame).
      destruct (decide (k <= ended r)) as [Hle|Hgt].
      * destruct (wf_all_results _ Hwf r k Hr ltac:(lia)) as (a & Ha & ? & ?). exists a.
        split_and!; [apply elem_of_app; by left|done..].
      * destruct added as [b|]; [|lia]. destruct Hadd as (Hj & Hb & He & Hs). exists b.
        split_and!; [apply elem_of_app; right; by left|done|lia].
    + destruct (wf_all_results _ Hwf q k Hq Hk) as (a & Ha & ? & ?). exists a.
      split_and!; [apply elem_of_app; by left|done..].
  - rewrite map_app. apply NoDup_app. split_and!; [apply Hwf| |].
    + intros [j k] Hin. destruct added as [b|]; cbn; [|apply not_elem_of_nil]. intros E%list_elem_of_singleton.
      destruct Hadd as (Hj & Hb & _). apply list_elem_of_In, in_map_iff in Hin as (a & Ea & Ha%list_elem_of_In).
      rewrite E in Ea. injection Ea as Ej Ek. destruct (wf_results _ Hwf a Ha) as (q & Hq & Hi & Hk & _).
      assert (q = r) as -> by (eapply unique_job; [by apply wf_job_ids|done..|congruence]). lia.
    + destruct added; [apply NoDup_singleton|constructor].
Qed.

Lemma wf_move change : change r = r' -> job_wf r' ->
  (forall k state, 1 <= k <= ended r -> coherent r k state -> coherent r' k state) -> ended r' = ended r ->
  wf (with_jobs db (map (changed (job_id r) change) (jobs db))).
Proof. intros Hc Hw Hcoh He. pose proof (wf_change change None Hc Hw Hcoh He) as Hn. by rewrite app_nil_r in Hn. Qed.
End change.
End invariant.

(** ** What the SQL functions do *)

Lemma lex_total {A} (f : A -> Z) (cmp : A -> A -> Z) : (forall x y, 0 < cmp x y -> cmp y x <= 0) ->
  forall x y, 0 < cmp_then (f x - f y) (cmp x y) -> cmp_then (f y - f x) (cmp y x) <= 0.
Proof.
  intros Hc x y. unfold cmp_then. destruct (Z.eqb_spec (f x - f y) 0), (Z.eqb_spec (f y - f x) 0); try lia. apply Hc.
Qed.

Lemma lex_trans {A} (f : A -> Z) (cmp : A -> A -> Z) :
  (forall x y z, cmp x y <= 0 -> cmp y z <= 0 -> cmp x z <= 0) ->
  forall x y z, cmp_then (f x - f y) (cmp x y) <= 0 -> cmp_then (f y - f z) (cmp y z) <= 0 ->
  cmp_then (f x - f z) (cmp x z) <= 0.
Proof.
  intros Hc x y z. unfold cmp_then.
  destruct (Z.eqb_spec (f x - f y) 0), (Z.eqb_spec (f y - f z) 0), (Z.eqb_spec (f x - f z) 0); try lia. apply Hc.
Qed.

Lemma claim_order (rows : list JobRow) r rest : toSorted cmp_claim rows = r :: rest ->
  r ∈ rows /\ forall q, q ∈ rows -> cmp_claim r q <= 0.
Proof.
  intros E. assert (r ∈ rows) as Hr by (rewrite <- (toSorted_perm cmp_claim rows), E; by left). split; [done|].
  assert (StronglySorted (cmp_le cmp_claim) (r :: rest)) as Hs.
  { rewrite <- E. apply toSorted_sorted.
    - do 2 apply lex_total. intros x y. apply cmp_units_total.
    - do 2 apply lex_trans. intros x y z. apply cmp_units_trans. }
  apply StronglySorted_inv in Hs as [_ Hall]. rewrite Forall_forall in Hall. intros q Hq.
  rewrite <- (toSorted_perm cmp_claim rows), E in Hq. apply elem_of_cons in Hq as [->|Hq]; [|by apply Hall].
  unfold cmp_claim, cmp_then. by rewrite !Z.sub_diag, cmp_units_refl.
Qed.

Section functions.
Context `{Platform} {W : Type} `{!JobSubjects W}.
Implicit Types (db : JobStore W) (s : Session) (now : Instant).

Lemma update_job_ok id change s db (u : unit) db' : update_job id change s db = Ok (u, db') ->
  db' = with_jobs db (map (changed id change) (jobs db)) /\
  forall r, r ∈ jobs db -> job_id r = id ->
    boardagent_guard_state_transition "jobs" (state_name (jb_state r)) (state_name (jb_state (change r))) = true.
Proof.
  unfold update_job. intros E. inv_tx. split; [done|]. intros r Hr Hi.
  match goal with Hg : forallb _ _ = true |- _ => rewrite forallb_forall in Hg;
    specialize (Hg r ltac:(by apply list_elem_of_In)) end.
  by rewrite bool_decide_eq_true_2 in * by done.
Qed.

Lemma find_job_ok db id r : find_job db id = Some r -> r ∈ jobs db /\ job_id r = id.
Proof. intros [Hr Hi%bool_decide_eq_true]%List.find_some. split; [by apply list_elem_of_In|done]. Qed.

Lemma find_job_none db id r : find_job db id = None -> r ∈ jobs db -> job_id r <> id.
Proof.
  intros Hf Hr%list_elem_of_In E. by apply (List.find_none _ _ Hf), bool_decide_eq_false in Hr.
Qed.

Definition leased_to (owner : jsstr) (secs : Z) now : Lease :=
  MkLease owner (gen_random_uuid now) (clock_timestamp now) (clock_timestamp now + seconds secs).

Lemma claim_effect now owner secs s db o db' : boardagent_claim_typed_job now owner secs s db = Ok (o, db') ->
  lease_owner_text owner = true /\ 5 <= secs <= 300 /\
  match o with
  | None => db' = db /\ forall r, r ∈ jobs db -> claimable (clock_timestamp now) r = true -> locked now (job_id r) = true
  | Some (r', lease) => exists r, r ∈ jobs db /\ claimable (clock_timestamp now) r = true /\
      locked now (job_id r) = false /\
      (forall q, q ∈ jobs db -> claimable (clock_timestamp now) q = true -> locked now (job_id q) = false ->
         cmp_claim r q <= 0) /\
      lease = leased_to owner secs now /\ r' = leased_job lease r /\
      db' = with_jobs db (map (changed (job_id r) (leased_job lease)) (jobs db))
  end.
Proof.
  unfold boardagent_claim_typed_job, worker_scope. intros E. inv_tx. boolify.
  match goal with Hs : in_range 5 300 secs = true |- _ => apply in_range_spec in Hs end.
  split; [done|]. split; [lia|].
  set (c := List.filter _ _) in *.
  assert (forall q, q ∈ c <-> q ∈ jobs db /\ claimable (clock_timestamp now) q = true /\ locked now (job_id q) = false)
    as Hc by (intros q; unfold c; by rewrite list_elem_of_In, filter_In, andb_true_iff, negb_true_iff, <- list_elem_of_In).
  clearbody c. destruct (toSorted cmp_claim c) as [|r rest] eqn:Et; inv_tx.
  - split; [done|]. intros r Hr Hcl. destruct (locked now (job_id r)) eqn:El; [done|].
    assert (r ∈ c) as Hin by by apply Hc. rewrite <- (toSorted_perm cmp_claim c), Et in Hin. by apply elem_of_nil in Hin.
  - destruct (claim_order _ _ _ Et) as [Hr Hmin]. apply Hc in Hr as (Hr & Hcl & Hl).
    match goal with Hu : update_job _ _ _ _ = Ok (?u, _) |- _ => apply update_job_ok in Hu as [-> _] end.
    exists r. split_and!; try done. intros q Hq Hq1 Hq2. apply Hmin. by apply Hc.
Qed.

Lemma claimable_wf clock r : claimable clock r = true <-> waiting r /\ jb_availableAt r <= clock /\ jb_attempts r < 10.
Proof.
  unfold claimable, waiting. rewrite !andb_true_iff, bool_decide_eq_true, Z.leb_le, Z.ltb_lt, !elem_of_cons, elem_of_nil.
  naive_solver.
Qed.

Lemma waiting_coherent r k state : job_wf r -> waiting r -> 1 <= k -> coherent r k state -> state = JobState_retry.
Proof.
  intros Hw [Hq|Hq] Hk [->|[-> ->]]; try done. pose proof (jw_queued _ Hw Hq). lia.
Qed.

Lemma waiting_ended r : waiting r -> ended r = jb_attempts r.
Proof. intros [E|E]; unfold ended; by rewrite E. Qed.

Lemma finished_in r : finished r <->
  jb_state r = JobState_succeeded \/ jb_state r = JobState_dead \/ jb_state r = JobState_cancelled.
Proof. unfold finished. rewrite !elem_of_cons, elem_of_nil. naive_solver. Qed.

Lemma unfinished r : waiting r \/ jb_state r = JobState_leased -> job_wf r -> jb_completedAt r = None.
Proof.
  intros Hs Hw. destruct (jb_completedAt r) eqn:E; [|done].
  assert (finished r) as Hf%finished_in by (apply Hw; by rewrite E). unfold waiting in Hs.
  destruct Hs as [[]|], Hf as [|[]]; congruence.
Qed.

Lemma holds_lease_ok clock owner token k r : holds_lease clock owner token k r = true <->
  jb_state r = JobState_leased /\ jb_attempts r = k /\ exists lease, jb_lease r = Some lease /\
    lease_owner lease = owner /\ lease_token lease = token /\ clock < lease_expires_at lease.
Proof.
  unfold holds_lease. destruct (jb_lease r) as [l|]; rewrite !andb_true_iff, ?bool_decide_eq_true, Z.eqb_eq, ?Z.ltb_lt.
  - split; [intros [[? ?] [[? ?] ?]]; split_and!; try done; by exists l|].
    intros (? & ? & ? & [= <-] & ? & ? & ?). by split_and!.
  - split; [by intros [_ ?]|by intros (? & ? & ? & ? & ?)].
Qed.

Lemma heartbeat_effect now id owner k token secs s db o db' :
  boardagent_heartbeat_typed_job now id owner k token secs s db = Ok (o, db') ->
  match o with
  | None => db' = db /\
      forall r, find_job db id = Some r -> holds_lease (clock_timestamp now) owner token k r = false
  | Some until => exists r, find_job db id = Some r /\ holds_lease (clock_timestamp now) owner token k r = true /\
      (lease_expires_at <$> jb_lease (extend_lease (clock_timestamp now + seconds secs) r)) = Some until /\
      db' = with_jobs db (map (changed (job_id r)
              (fun _ => extend_lease (clock_timestamp now + seconds secs) r)) (jobs db))
  end.
Proof.
  unfold boardagent_heartbeat_typed_job, worker_scope. intros E. inv_tx.
  destruct (find_job _ id) as [r|] eqn:Ef; inv_tx; [|by split].
  destruct (holds_lease _ _ _ _ r) eqn:Eh; cbn [negb] in E; inv_tx.
  - match goal with Hu : update_job _ _ _ _ = Ok (?u, _) |- _ => apply update_job_ok in Hu as [-> _] end.
    apply holds_lease_ok in Eh as Hl. destruct Hl as (? & ? & l & El & ?).
    match goal with |- match ?o with _ => _ end => destruct o as [until|] eqn:Eo end; rewrite El in Eo; [|done].
    exists r. split_and!; [done..|cbn; by rewrite El|]. by rewrite (proj2 (find_job_ok _ _ _ Ef)).
  - split; [done|]. by intros ? [= <-].
Qed.

(** The state an ended attempt leaves. *)
Definition next_state (class : ResultClass) (k : Z) : JobState :=
  if bool_decide (class = result_succeeded) then JobState_succeeded
  else if bool_decide (class = permanent_failure) || (10 <=? k) then JobState_dead
  else JobState_retry.

(** One attempt ends: its result is recorded and its job settled. *)
Definition settle (r : JobRow) (lease : Lease) (class : ResultClass) (sha256 : jsstr) (errorClass : option jsstr)
    (next : JobState) (clock : Z) db : JobStore W :=
  MkStore (map (changed (job_id r) (settled_job next clock errorClass)) (jobs db))
    (job_attempt_results db ++ [result_of r lease class sha256 errorClass next clock]) (job_world db).

Lemma insert_result_ok a s db (u : unit) db' : insert_result a s db = Ok (u, db') ->
  db' = with_results db (job_attempt_results db ++ [a]).
Proof. unfold insert_result. intros E. by inv_tx. Qed.

Lemma settle_ok r lease class sha e next clock s db u db1 db2 (u' : unit) :
  insert_result (result_of r lease class sha e next clock) s db = Ok (u, db1) ->
  update_job (job_id r) (settled_job next clock e) s db1 = Ok (u', db2) ->
  db2 = settle r lease class sha e next clock db.
Proof. intros ->%insert_result_ok [-> _]%update_job_ok. done. Qed.

Lemma wf_settle r lease class sha e next clock db : wf db -> r ∈ jobs db -> jb_state r = JobState_leased ->
  next = JobState_succeeded \/ next = JobState_dead \/ (next = JobState_retry /\ jb_attempts r < 10) ->
  wf (settle r lease class sha e next clock db).
Proof.
  intros Hwf Hr Hs Hn. pose proof (wf_jobs _ Hwf _ Hr) as Hw. pose proof (jw_leased _ Hw Hs) as H1.
  pose proof (jw_attempts _ Hw) as H2.
  assert (ended r = jb_attempts r - 1) as He by (unfold ended; by rewrite Hs).
  assert (ended (settled_job next clock e r) = jb_attempts r) as He'
    by (unfold ended; cbn; by destruct Hn as [->|[->|[-> _]]]).
  eapply (wf_change db r (settled_job next clock e r) Hwf Hr eq_refl (settled_job next clock e)
    (Some (result_of r lease class sha e next clock))); [done| | |].
  - split; unfold waiting; try rewrite finished_in; cbn [settled_job jb_state jb_attempts jb_lease jb_completedAt].
    + lia.
    + split; [by intros [? ?]|]. destruct Hn as [->|[->|[-> _]]]; done.
    + by destruct Hn as [->|[->|[-> _]]].
    + by destruct Hn as [->|[->|[-> _]]].
    + destruct Hn as [->|[->|[-> ?]]]; [by intros []..|done].
    + destruct Hn as [->|[->|[-> _]]]; cbn; naive_solver.
  - intros k state Hk [->|[-> ->]]; [by left|]. lia.
  - rewrite He, He'. cbn. split_and!; [done|lia|lia|by right].
Qed.

Lemma complete_effect now id owner k token class sha e s db o db' : wf db ->
  boardagent_complete_typed_job now id owner k token class sha e s db = Ok (o, db') ->
  match o with
  | None => db' = db /\ (forall a, a ∈ job_attempt_results db -> ar_job a = id -> ar_attempt a <> k) /\
      forall r, find_job db id = Some r -> holds_lease (clock_timestamp now) owner token k r = false
  | Some (state, true) => db' = db /\ exists a, a ∈ job_attempt_results db /\ ar_job a = id /\ ar_attempt a = k /\
      ar_owner a = owner /\ ar_token a = token /\ ar_class a = class /\ ar_sha256 a = sha /\
      ar_errorClass a = e /\ ar_state a = state
  | Some (state, false) => exists r lease, find_job db id = Some r /\ jb_lease r = Some lease /\
      holds_lease (clock_timestamp now) owner token k r = true /\ state = next_state class k /\
      class <> result_lease_expired /\
      db' = settle r lease class sha e state (clock_timestamp now) db
  end.
Proof.
  intros Hwf. unfold boardagent_complete_typed_job, worker_scope. intros E. inv_tx.
  destruct (List.find _ (job_attempt_results _)) as [a|] eqn:Ef; inv_tx.
  { apply List.find_some in Ef as [Ha Hk]. boolify. split; [done|]. exists a.
    split_and!; try done. by apply list_elem_of_In. }
  assert (forall a, a ∈ job_attempt_results db -> ar_job a = id -> ar_attempt a <> k) as Hno.
  { intros a Ha Hj Hk. rewrite list_elem_of_In in Ha. pose proof (List.find_none _ _ Ef a Ha) as Hn. cbn in Hn.
    by rewrite bool_decide_eq_true_2, Hk, Z.eqb_refl in Hn. }
  clear Ef. destruct (find_job db id) as [r|] eqn:Er; inv_tx; [|by split_and!].
  destruct (jb_lease r) as [lease|] eqn:El; inv_tx.
  2: { split_and!; [done..|]. intros r' [= <-]. unfold holds_lease. by rewrite El, andb_false_r. }
  destruct (holds_lease _ _ _ _ r) eqn:Eh; cbn [negb] in E; inv_tx.
  2: { split_and!; [done..|]. by intros r' [= <-]. }
  boolify. exists r, lease. split_and!; try done.
  destruct (find_job_ok _ _ _ Er) as [_ <-]. eapply settle_ok; done.
Qed.

Definition reaped (clock : Z) (r : JobRow) : JobRow :=
  settled_job (if 10 <=? jb_attempts r then JobState_dead else JobState_retry) clock (Some (js "lease_expired")) r.

Definition reap_in (clock : Z) (ids : list jsstr) (r : JobRow) : JobRow :=
  if bool_decide (job_id r ∈ ids) then reaped clock r else r.

Lemma reap_rows_effect clock rows : forall x y s db o db', wf db -> NoDup (map job_id rows) ->
  (forall r, r ∈ rows -> r ∈ jobs db /\ jb_state r = JobState_leased) ->
  reap_rows clock rows x y s db = Ok (o, db') ->
  wf db' /\ job_world db' = job_world db /\ o.1 + o.2 = x + y + Z.of_nat (length rows) /\
  jobs db' = map (reap_in clock (map job_id rows)) (jobs db) /\
  exists new, job_attempt_results db' = job_attempt_results db ++ new /\ map ar_job new = map job_id rows /\
    Forall (fun a => ar_class a = result_lease_expired) new.
Proof.
  induction rows as [|r rows IH]; intros x y s db o db' Hwf Hd Hrows E; cbn [reap_rows] in E.
  { inv_tx. subst. split_and!; [done|done|cbn; lia| |exists []; by rewrite app_nil_r].
    cbn [map]. unfold reap_in. rewrite <- (map_id (jobs db)) at 1. apply map_ext_in. intros q _.
    rewrite bool_decide_eq_false_2; [done|apply not_elem_of_nil]. }
  cbn [map] in Hd. apply NoDup_cons in Hd as [Hn Hd].
  destruct (Hrows r ltac:(by left)) as [Hr Hs]. pose proof (wf_jobs _ Hwf _ Hr) as Hw.
  destruct (proj2 (jw_lease _ Hw) Hs) as [lease El]. rewrite El in E. inv_tx.
  set (next := if 10 <=? jb_attempts r then _ else _) in *.
  match goal with Hi : insert_result _ _ _ = Ok (?u, ?d), Hu : update_job _ _ _ ?d = Ok (?u', ?d') |- _ =>
    assert (d' = settle r lease result_lease_expired (expired_sha256 r) (Some (js "lease_expired")) next clock db)
      as Ed by (by eapply settle_ok); clear Hi Hu; rename d' into db1 end.
  assert (wf db1) as Hwf1.
  { subst db1. apply wf_settle; [done..|]. unfold next. pose proof (jw_attempts _ Hw).
    destruct (Z.leb_spec 10 (jb_attempts r)); [by right; left|by right; right]. }
  assert (forall q, q ∈ rows -> q ∈ jobs db1 /\ jb_state q = JobState_leased) as Hrows1.
  { intros q Hq. destruct (Hrows q ltac:(by right)) as [Hq1 Hq2]. split; [|done]. subst db1. cbn [settle jobs].
    eapply changed_is; [done..|]. right. split; [done|]. intros Ei. apply Hn. rewrite <- Ei. by apply list_elem_of_fmap_2. }
  assert (exists x' y', x' + y' = x + y + 1 /\ reap_rows clock rows x' y' s db1 = Ok (o, db')) as (x' & y' & Exy & E').
  { destruct (bool_decide _); eexists _, _; (split; [|exact E]); lia. }
  destruct (IH _ _ _ _ _ _ Hwf1 Hd Hrows1 E') as (Hwf' & Ew & Eo & Ej & new & En & Enj & Enc).
  assert (job_world db1 = job_world db) as <- by by subst db1.
  split_and!; [done|done|cbn; lia| |].
  - rewrite Ej. subst db1. cbn [settle jobs]. rewrite map_map. apply map_ext_in. intros q Hq%list_elem_of_In.
    unfold reap_in, changed. destruct (decide (job_id q = job_id r)) as [Eq|Eq].
    + rewrite (bool_decide_eq_true_2 (job_id q = job_id r)) by done.
      assert (q = r) as -> by (apply (unique_job (jobs db)); [by apply wf_job_ids|done..]).
      rewrite bool_decide_eq_false_2, bool_decide_eq_true_2; [done|by left|done].
    + rewrite (bool_decide_eq_false_2 (job_id q = job_id r)) by done. cbn [map].
      apply (f_equal (fun b : bool => if b then _ else _)), bool_decide_ext. rewrite elem_of_cons. naive_solver.
  - eexists (_ :: new). subst db1. cbn [settle job_attempt_results] in En. rewrite En, <- app_assoc. split; [done|].
    split; [cbn [map]; by rewrite Enj|by constructor].
Qed.

Lemma cmp_expiry_perm (rows : list JobRow) n r : r ∈ take n (toSorted cmp_expiry rows) -> r ∈ rows.
Proof.
  intros Hr. rewrite <- (toSorted_perm cmp_expiry rows), <- (take_drop n (toSorted cmp_expiry rows)).
  apply elem_of_app. by left.
Qed.

Lemma nodup_take {A} (l : list A) n : NoDup l -> NoDup (take n l).
Proof. rewrite <- (take_drop n l) at 1. by intros [? _]%NoDup_app. Qed.

Lemma reap_effect now limit s db o db' : wf db ->
  boardagent_reap_expired_typed_jobs now limit s db = Ok (o, db') ->
  exists rows, NoDup (map job_id rows) /\ Z.of_nat (length rows) <= limit /\ 1 <= limit <= 10000 /\
    (forall r, r ∈ rows -> r ∈ jobs db /\ lease_expired (clock_timestamp now) r = true /\ locked now (job_id r) = false) /\
    (forall r, r ∈ jobs db -> lease_expired (clock_timestamp now) r = true -> locked now (job_id r) = false ->
       r ∈ rows \/ Z.of_nat (length rows) = limit) /\
    wf db' /\ job_world db' = job_world db /\ o.1 + o.2 = Z.of_nat (length rows) /\
    jobs db' = map (reap_in (clock_timestamp now) (map job_id rows)) (jobs db) /\
    exists new, job_attempt_results db' = job_attempt_results db ++ new /\ map ar_job new = map job_id rows /\
      Forall (fun a => ar_class a = result_lease_expired) new.
Proof.
  intros Hwf. unfold boardagent_reap_expired_typed_jobs, worker_scope. intros E. inv_tx. boolify.
  match goal with Hl : in_range 1 10000 limit = true |- _ => apply in_range_spec in Hl end.
  set (c := List.filter _ _) in *.
  assert (forall q, q ∈ c <-> q ∈ jobs db /\ lease_expired (clock_timestamp now) q = true /\ locked now (job_id q) = false)
    as Hc by (intros q; unfold c; by rewrite list_elem_of_In, filter_In, andb_true_iff, negb_true_iff, <- list_elem_of_In).
  assert (NoDup (map job_id c)) as Hdc.
  { unfold c. pose proof (wf_job_ids _ Hwf) as Hd. clear -Hd. induction (jobs db) as [|q l IH]; [constructor|].
    cbn in *. apply NoDup_cons in Hd as [Hn Hd]. case_match; [|by apply IH]. cbn. constructor; [|by apply IH].
    intros Hin%list_elem_of_fmap. destruct Hin as (p & Ep & Hp). apply Hn. rewrite Ep. apply list_elem_of_fmap_2.
    apply list_elem_of_In, filter_In in Hp as [Hp _]. by apply list_elem_of_In. }
  clearbody c. set (rows := take _ _) in *. exists rows.
  assert (forall r, r ∈ rows -> r ∈ c) as Hrc by (intros r; apply cmp_expiry_perm).
  assert (NoDup (map job_id rows)) as Hdr.
  { unfold rows. rewrite <- firstn_map. apply nodup_take.
    assert (map job_id (toSorted cmp_expiry c) ≡ₚ map job_id c) as -> by by apply Permutation_map, toSorted_perm. done. }
  assert (length rows = Nat.min (Z.to_nat limit) (length c)) as Hlen.
  { unfold rows. by rewrite length_take, (Permutation_length (toSorted_perm cmp_expiry c)). }
  destruct (reap_rows_effect _ _ _ _ _ _ _ _ Hwf Hdr ltac:(intros r Hr%Hrc%Hc; destruct Hr as (Hr & Hx & _);
    split; [done|]; unfold lease_expired in Hx; by boolify) E) as (Hwf' & Ew & Eo & Ej & Hnew).
  split_and!; try done; [lia..|by intros r Hr%Hrc%Hc|].
  intros r Hr Hx Hl. destruct (decide (length c <= Z.to_nat limit)%nat) as [Hle|Hgt]; [|right; lia].
  left. unfold rows. rewrite firstn_all2 by (by rewrite (Permutation_length (toSorted_perm cmp_expiry c))).
  rewrite (toSorted_perm cmp_expiry c). by apply Hc.
Qed.
End functions.
