(* ===== verification/JobHistory.v ===== *)
(** * Histories of jobs

    What a job carries, what each transaction of lib/db/src/jobs.ts guarantees,
    and any sequence of them with the other writers of the job tables. *)

From stdpp Require Import base numbers sorting strings list relations.
From Stdlib Require Import Lia.
From S2P Require Import Prelude JsString Encoding JsNumber Json JsonParse JsonCanon Schemas.
From S2P Require Import StateMachines SqlStates Decode Signing Codec VotingConsent KeyLifecycle AuditEvent Request Database.
From S2P Require Import Jobs JobLeases.

Local Open Scope Z_scope.

Section carried.
Context `{Platform} `{!NodeText} `{!JobText} {W : Type} `{!JobSubjects W}.
Implicit Types (db : JobStore W) (s : Session).

(** ** The envelope of a row *)

(** The row stands for the envelope: its columns and its canonical bytes. *)
Definition carries (b : JobBinding) (e : TypedJobEnvelope) : Prop :=
  envelope_ok e = true /\ exists text, canonicalJson (envelope_json e) = Ok text /\
    canonicalSha256 (envelope_json e) = Ok (jb_payloadSha256 b) /\
    b = binding_of (jb_id b) e (utf8_encode text) (jb_payloadSha256 b) (jb_idempotencyKey b).

Lemma carries_row b e : carries b e -> jb_organization b = organizationId e /\ jb_board b = boardId e /\
  jb_type b = js (job_type_text (jobType e)) /\ jb_subjectType b = js (subject_type (jobType e)) /\
  jb_subjectId b = Some (subjectId e) /\ jb_schemaVersion b = js (schema_version (jobType e)).
Proof. intros (_ & text & _ & _ & E). by rewrite E. Qed.

Lemma claimed_envelope_ok r e : claimed_envelope r = Ok e <-> carries (job r) e.
Proof.
  unfold claimed_envelope. split.
  - destruct (JSON_parse _) as [v|]; [|done]. destruct (TypedJobEnvelopeSchema v) as [e'|] eqn:Ev; [|done].
    intros E. unfold assertEnvelopeMatchesRow in E. inv_ok. subst e'. boolify.
    match goal with Hs : safeHashEqual _ _ = true |- _ => apply safeHashEqual_true in Hs as [_ Hs] end.
    split; [by apply (@of_json_valid _ _ envelope_format v)|]. eexists. split; [done|].
    split; [congruence|]. destruct (job r). cbn in *. unfold binding_of. congruence.
  - intros (Hok & text & Et & Es & Eb).
    destruct (@payload_read_back _ _ envelope_format _ e text Hok Et) as (_ & _ & Eread & Ev).
    assert (jb_canonicalPayload (job r) = utf8_encode text) as Ep by (by rewrite Eb).
    rewrite Ep, Eread. apply bind_Some in Ev as (v & -> & Ev). cbn in Ev. rewrite Ev.
    rewrite Et. cbn [mbind result_bind]. rewrite Es. cbn [mbind result_bind].
    rewrite bool_decide_eq_true_2, safeHashEqual_refl by (done || by eapply canonicalSha256_hex64).
    cbn [negb orb throw_if mbind result_bind]. unfold assertEnvelopeMatchesRow.
    destruct (carries_row (job r) e ltac:(by split; [|exists text])) as (-> & -> & -> & -> & -> & ->).
    by rewrite !bool_decide_eq_true_2 by done.
Qed.

Lemma text_of_here name t l : text_of ((js name, JStr t) :: l) name = Some t.
Proof. unfold text_of. cbn [map_get]. by rewrite decide_True. Qed.

Lemma text_of_next name k v l : bool_decide (js name = k) = false -> text_of ((k, v) :: l) name = text_of l name.
Proof. intros Hn%bool_decide_eq_false. unfold text_of. cbn [map_get]. by rewrite decide_False. Qed.

(** A row the trigger admitted with the canonical bytes of an envelope. *)
Lemma admitted_carries b e text : typed_job_row b = true -> envelope_ok e = true ->
  canonicalJson (envelope_json e) = Ok text -> canonicalSha256 (envelope_json e) = Ok (jb_payloadSha256 b) ->
  jb_canonicalPayload b = utf8_encode text -> carries b e.
Proof.
  intros Hrow Hok Et Es Ep. split; [done|]. exists text. split_and!; [done..|].
  destruct (@payload_text_ok _ _ envelope_format e text Hok Et) as (-> & Hs & Ho & Hi).
  unfold typed_job_row in Hrow. rewrite Ep, utf8_decode_encode in Hrow by by apply stringify_well_formed.
  rewrite strictParse_stringify in Hrow by done. change (to_json e) with (envelope_json e) in Hrow.
  rewrite sort_envelope in Hrow. unfold sorted_envelope_json in Hrow. boolify.
  assert (boardId e = jb_board b) as Hb.
  { match goal with Hm : match map_get _ _ with _ => _ end = true |- _ => unfold nullable in Hm; cbn [map_get] in Hm;
      rewrite decide_True in Hm by done; destruct (boardId e), (jb_board b); cbn in Hm; by boolify; subst end. }
  unfold str, nullable in *.
  repeat match goal with Ht : text_of _ _ = _ |- _ => progress
    (rewrite ?text_of_next in Ht by (vm_compute; reflexivity); rewrite text_of_here in Ht) end.
  destruct b. cbn in *. unfold binding_of. congruence.
Qed.
End carried.

(** ** Inserting *)

Section histories.
Context `{Platform} `{!NodeText} `{!JobText} {W : Type} `{!JobSubjects W} `{!PgClock}.
Implicit Types (db : JobStore W) (s : Session) (now : Instant).

(** A new job, as [insert into jobs] leaves it. *)
Definition new_job (n : JobBinding) (available : Z) : JobRow := MkJob n JobState_queued 0 available None None None.

Lemma wf_insert db n available : wf db -> typed_job_row n = true ->
  (forall r, r ∈ jobs db -> job_id r <> jb_id n) -> (forall r, r ∈ jobs db -> same_job_key (job r) n = false) ->
  wf (with_jobs db (jobs db ++ [new_job n available])).
Proof.
  intros Hwf Hrow Hid Hkey.
  split; cbn [with_jobs jobs job_attempt_results]; rewrite ?map_app.
  - apply NoDup_app. split_and!; [apply Hwf| |apply NoDup_singleton].
    intros i (r & -> & Hr)%list_elem_of_fmap Hi%list_elem_of_singleton. by destruct (Hid r Hr).
  - apply NoDup_app. split_and!; [apply Hwf| |apply NoDup_singleton].
    intros k (r & -> & Hr)%list_elem_of_fmap Hk%list_elem_of_singleton. specialize (Hkey r Hr).
    unfold same_job_key in Hkey. unfold job_key in Hk. cbn in Hk. injection Hk as E1 E2 E3.
    by rewrite !bool_decide_eq_true_2 in Hkey by done.
  - intros r [Hr| ->%list_elem_of_singleton]%elem_of_app; [by apply Hwf|].
    split; unfold waiting; rewrite ?finished_in; cbn; [lia|by split; [intros []|]|done|done|lia|].
    split; [by intros []|by intros [|[]]].
  - intros r [Hr| ->%list_elem_of_singleton]%elem_of_app; [by apply Hwf|done].
  - intros a Ha. destruct (wf_results _ Hwf a Ha) as (r & Hr & ?). exists r. split; [apply elem_of_app; by left|done].
  - intros r k [Hr| ->%list_elem_of_singleton]%elem_of_app Hk; [by apply Hwf|]. change (ended (new_job n available)) with 0 in Hk. lia.
  - apply Hwf.
Qed.

Lemma enqueue_effect now n available s db r again db' :
  boardagent_enqueue_request_job now n available s db = Ok ((r, again), db') ->
  typed_job_row n = true /\ transaction_scope s = js "request" /\
  boardagent_context_uuid (set_organization_id s) = Some (jb_organization n) /\
  opt_all (fun b => bool_decide (b ∈ set_board_ids s)) (jb_board n) = true /\ reserved_key (jb_idempotencyKey n) = false /\
  if again then db' = db /\ r ∈ jobs db /\ same_job_key (job r) n = true
  else r = new_job n (or_else available (clock_timestamp now)) /\ db' = with_jobs db (jobs db ++ [r]) /\
    (forall q, q ∈ jobs db -> job_id q <> jb_id n) /\ forall q, q ∈ jobs db -> same_job_key (job q) n = false.
Proof.
  unfold boardagent_enqueue_request_job. intros E. inv_tx. boolify.
  match goal with Hg : boardagent_guard_typed_job_insert _ _ _ _ = true |- _ =>
    unfold boardagent_guard_typed_job_insert in Hg; apply andb_true_iff in Hg as [Hrow _] end.
  do 3 (split; [done|]). split.
  { match goal with Hb : is_null _ || _ = true |- _ => unfold is_null, boardagent_context_board_allowed in Hb;
      destruct (jb_board n); cbn in Hb |- *; [by apply andb_true_iff in Hb as [_ Hb]|done] end. }
  split; [done|]. destruct (List.find _ _) as [q|] eqn:Ef; inv_tx.
  - apply List.find_some in Ef as [Hq Hk]. split_and!; [done|by apply list_elem_of_In|done].
  - match goal with Hf : forallb _ _ = true |- _ => rewrite forallb_forall in Hf; rename Hf into Hfresh end.
    split_and!; try done.
    + intros q Hq%list_elem_of_In. specialize (Hfresh q Hq). by boolify.
    + intros q Hq%list_elem_of_In. by apply (List.find_none _ _ Ef).
Qed.

(** ** Enqueueing *)

Lemma rescue_ok {A} (m : Tx (JobStore W) A) other s db r : rescue m other s db = Ok r <-> m s db = Ok r.
Proof. unfold rescue. destruct (m s db) as [x|e]; [done|]. by destruct (other e). Qed.

Lemma parsed_ok {A} schema (o : option A) s db a db' : parsed schema o s db = Ok (a, db') -> o = Some a /\ db' = db.
Proof. unfold parsed. destruct o; [|done]. by intros [= -> ->]. Qed.

(** What enqueueing answers and leaves. *)
Record enqueued (now : Instant) (input : EnqueueRequestJobInput) s db db' (out : EnqueueResult)
    (e : TypedJobEnvelope) (r : JobRow) : Prop := {
  eq_read : TypedJobEnvelopeSchema (en_envelope input) = Some e;
  eq_stored : r ∈ jobs db' /\ job_id r = eq_jobId out;
  eq_carries : carries (job r) e /\ jb_payloadSha256 (job r) = eq_payloadSha256 out;
  eq_scope : boardagent_context_uuid (set_organization_id s) = Some (organizationId e) /\
    opt_all (fun b => bool_decide (b ∈ set_board_ids s)) (boardId e) = true;
  eq_key : jb_idempotencyKey (job r) = pg_text (en_idempotencyKey input);
  eq_change : if replayed out then db' = db
    else eq_jobId out = en_jobId input /\ db' = with_jobs db (jobs db ++ [r]) /\
      exists available, r = new_job (job r) available /\
        match en_availableAt input with
        | Some t => timestamptz t = Some available
        | None => available = clock_timestamp now
        end;
  eq_wf : wf db'
}.

Lemma enqueue_ok now input s db out db' : wf db ->
  enqueueRequestJobInTransaction now input s db = Ok (out, db') ->
  exists e r, enqueued now input s db db' out e r.
Proof.
  intros Hwf. unfold enqueueRequestJobInTransaction. intros E. inv_tx.
  match goal with Hp : UuidV7Schema _ = Ok _ |- _ => apply parse_ok in Hp as [-> Hid] end.
  unfold parsed in *. destruct (TypedJobEnvelopeSchema (en_envelope input)) as [e|] eqn:Ee; inv_tx.
  match goal with Hk : exactIdempotencyKey _ = Ok _ |- _ => unfold exactIdempotencyKey in Hk;
    destruct (in_range 16 256 _); [injection Hk as <-|done] end.
  match goal with Hr : rescue _ _ _ _ = Ok (?p, _) |- _ => apply rescue_ok in Hr; destruct p as [r again] end.
  inv_tx. boolify.
  match goal with Hr : boardagent_enqueue_request_job _ _ ?a _ ?d = Ok _ |- _ =>
    assert (d = db /\ match en_availableAt input with Some t => exists z, timestamptz t = Some z /\ a = Some z | None => a = None end)
      as [-> Hav] by (destruct (en_availableAt input) as [t|]; [destruct (timestamptz t)|]; inv_tx; by eauto);
    apply enqueue_effect in Hr as (Hrow & _ & Horg & Hboard & _ & Hch); rename a into av end.
  match goal with Hs : safeHashEqual _ _ = true |- _ => apply safeHashEqual_true in Hs as [_ Hs] end.
  match goal with Hc : canonicalJson _ = Ok ?t |- _ => rename t into text, Hc into Htext end.
  match goal with Hc : canonicalSha256 _ = Ok ?t |- _ => rename t into sha, Hc into Hsha end.
  assert (envelope_ok e = true) as Hok by by apply (@of_json_valid _ _ envelope_format (en_envelope input)).
  clear Hid. subst sha. exists e, r. destruct again.
  - destruct Hch as (-> & Hr & Hkey). unfold same_job_key in Hkey. boolify.
    split; cbn; [done| | |done|done|done|done]; [done|].
    split; [|done]. eapply admitted_carries; [by apply Hwf|done..].
  - destruct Hch as (-> & -> & Hfi & Hfk). split; cbn.
    + done.
    + split; [apply elem_of_app; right; by left|done].
    + split; [|done]. eapply admitted_carries; done.
    + done.
    + done.
    + split_and!; [done..|]. eexists. split; [done|]. by destruct (en_availableAt input); [destruct Hav as (z & -> & ->)|subst av].
    + by apply wf_insert.
Qed.

(** ** Claiming *)

(** The job a claim takes: of the claimable jobs nobody holds locked, the first. *)
Record selected now db (r : JobRow) : Prop := {
  sl_in : r ∈ jobs db;
  sl_claimable : claimable (clock_timestamp now) r = true;
  sl_free : locked now (job_id r) = false;
  sl_first : forall q, q ∈ jobs db -> claimable (clock_timestamp now) q = true -> locked now (job_id q) = false ->
    cmp_claim r q <= 0
}.

Definition take_lease (lease : Lease) (r : JobRow) db : JobStore W :=
  with_jobs db (map (changed (job_id r) (leased_job lease)) (jobs db)).

Lemma wf_take_lease lease r db clock : wf db -> r ∈ jobs db -> claimable clock r = true ->
  wf (take_lease lease r db).
Proof.
  intros Hwf Hr (Hw & _ & Ha)%claimable_wf. pose proof (wf_jobs _ Hwf _ Hr) as Hj.
  pose proof (jw_attempts _ Hj). unfold take_lease.
  apply (wf_move db r (leased_job lease r)); try done.
  - split; unfold waiting; rewrite ?finished_in; cbn; try lia; try done.
    + by intros [?|?].
    + rewrite (unfinished r) by eauto. split; [by intros []|by intros [|[]]].
  - intros k state Hk Hc. left. apply (waiting_coherent r k); [done..|lia|done].
  - rewrite (waiting_ended r) by done. change (ended (leased_job lease r)) with (jb_attempts r + 1 - 1). lia.
Qed.

Lemma taken_in lease r db q : wf db -> r ∈ jobs db ->
  q ∈ jobs (take_lease lease r db) <-> q = leased_job lease r \/ (q ∈ jobs db /\ job_id q <> job_id r).
Proof. intros Hwf Hr. cbn. by apply changed_is. Qed.

Lemma find_unique db q : NoDup (map job_id (jobs db)) -> q ∈ jobs db -> find_job db (job_id q) = Some q.
Proof.
  intros Hd Hq. destruct (find_job db (job_id q)) as [p|] eqn:E.
  - apply find_job_ok in E as [Hp Hi]. f_equal. by apply (unique_job (jobs db)).
  - by destruct (find_job_none _ _ _ E Hq).
Qed.

Lemma find_taken lease r db : wf (take_lease lease r db) -> wf db -> r ∈ jobs db ->
  find_job (take_lease lease r db) (job_id r) = Some (leased_job lease r).
Proof.
  intros Hwf' Hwf Hr. change (job_id r) with (job_id (leased_job lease r)). apply find_unique; [by apply Hwf'|].
  apply taken_in; [done..|by left].
Qed.

Inductive claim_outcome now later (owner : jsstr) (secs : Z) db db' : ClaimJobResult -> Prop :=
  | claim_nothing : db' = db ->
      (forall r, r ∈ jobs db -> claimable (clock_timestamp now) r = true -> locked now (job_id r) = true) ->
      claim_outcome now later owner secs db db' nothing_claimed
  | claim_taken r e : selected now db r -> carries (job r) e ->
      db' = take_lease (leased_to owner secs now) r db ->
      claim_outcome now later owner secs db db'
        (claimed (MkClaimed (job_id r) e (jb_payloadSha256 (job r)) (jb_attempts r + 1) owner (gen_random_uuid now)
                    (to_char_utc (clock_timestamp now)) (to_char_utc (clock_timestamp now + seconds secs))))
  | claim_rejected r error : selected now db r -> claimed_envelope r = Throw error ->
      (forall e, ~ carries (job r) e) ->
      (exists sha, db' =
         if clock_timestamp later <? clock_timestamp now + seconds secs
         then settle (leased_job (leased_to owner secs now) r) (leased_to owner secs now) permanent_failure sha
                (Some (js "invalid_typed_payload")) JobState_dead (clock_timestamp later)
                (take_lease (leased_to owner secs now) r db)
         else take_lease (leased_to owner secs now) r db) ->
      claim_outcome now later owner secs db db' (rejected (job_id r) error).

Lemma claim_ok now later owner rawSeconds s db res db' : wf db ->
  claimTypedJobInTransaction now later owner rawSeconds s db = Ok (res, db') ->
  exists secs, rawSeconds = NInt secs /\ 5 <= secs <= 300 /\ lease_owner_text owner = true /\
    claim_outcome now later owner secs db db' res.
Proof.
  intros Hwf. unfold claimTypedJobInTransaction. intros E. inv_tx.
  match goal with Hp : parsed _ ?o _ _ = Ok (?z, _) |- _ => destruct o as [secs|] eqn:Eo; unfold parsed in Hp;
    inv_tx end.
  destruct (lease_owner_text owner) eqn:Eown; [|done].
  assert (rawSeconds = NInt secs) as -> by (unfold int_between in Eo; by repeat case_match; simplify_eq).
  match goal with Hp : exactLeaseOwner _ = Ok _ |- _ => unfold exactLeaseOwner in Hp; rewrite Eown in Hp;
    injection Hp as <- end.
  match goal with Hp : boundedSeconds _ _ _ _ = Ok _ |- _ => unfold boundedSeconds in Hp;
    destruct (in_range 5 300 secs); [injection Hp as <-|done] end.
  match goal with Hq : boardagent_claim_typed_job _ _ _ _ _ = Ok (?o, _) |- _ =>
    apply claim_effect in Hq as (_ & Hsecs & Hc); destruct o as [[r' lease]|] end.
  2: { inv_tx. destruct Hc as [-> Hnone]. exists secs. split_and!; [done|lia|lia|done|]. by constructor. }
  destruct Hc as (r & Hr & Hcl & Hfree & Hmin & -> & -> & ->). exists secs. split_and!; [done|lia|lia|done|].
  assert (selected now db r) as Hsel by done.
  assert (claimed_envelope (leased_job (leased_to owner secs now) r) = claimed_envelope r) as Eenv by done.
  rewrite Eenv in E. destruct (claimed_envelope r) as [e|error] eqn:Eclaim; inv_tx.
  { apply (claim_taken _ _ _ _ _ _ r e); [done|by apply claimed_envelope_ok|done]. }
  apply (claim_rejected _ _ _ _ _ _ r error); [done|done|intros e He%claimed_envelope_ok; congruence|].
  set (lease := leased_to owner secs now) in *. set (l := leased_job lease r) in *.
  pose proof (wf_take_lease lease r db _ Hwf Hr Hcl) as Hwf'.
  match goal with Hd : boardagent_complete_typed_job _ _ _ _ _ _ _ _ _ _ = Ok (?o, ?d) |- _ =>
    apply (complete_effect _ _ _ _ _ _ _ _ _ _ o _ Hwf') in Hd; rename Hd into Hdone; rename o into answer, d into db' end.
  match goal with Hq : protectedCompletionHash _ _ _ _ = Ok ?h |- _ => exists h end.
  assert (find_job (take_lease lease r db) (job_id l) = Some l) as Hfind by exact (find_taken lease r db Hwf' Hwf Hr).
  assert (holds_lease (clock_timestamp later) owner (lease_token lease) (jb_attempts l) l
          = (clock_timestamp later <? clock_timestamp now + seconds secs)) as Hheld.
  { unfold holds_lease. cbn. by rewrite Z.eqb_refl, !bool_decide_eq_true_2. }
  destruct answer as [[state []]|].
  - destruct Hdone as (_ & a & Ha & Haj & Hak & _). exfalso. destruct (wf_results _ Hwf' a Ha) as (q & Hq & Hqi & Hqk & _).
    apply taken_in in Hq as [->|[_ Hn]]; [|by destruct Hn; rewrite Hqi|done|done].
    change (ended (leased_job lease r)) with (jb_attempts r + 1 - 1) in Hqk. cbn in Hak. lia.
  - destruct Hdone as (q & lease' & Hq & Hl' & Hh & -> & _ & ->). rewrite Hfind in Hq. injection Hq as <-.
    rewrite Hheld in Hh. rewrite Hh. by injection Hl' as <-.
  - destruct Hdone as (-> & _ & Hh). specialize (Hh _ Hfind). rewrite Hheld in Hh. by rewrite Hh.
Qed.

(** ** Completing and extending *)

(** The error class that goes with a result: none with a success. *)
Definition reported_class (input : CompleteJobInput) : option jsstr :=
  match co_result input with
  | result_succeeded => None
  | permanent_failure => Some (or_else (co_errorClass input) (js "permanent_failure"))
  | _ => Some (or_else (co_errorClass input) (js "retryable_failure"))
  end.

Lemma complete_ok now input s db out db' : wf db -> completeTypedJobInTransaction now input s db = Ok (out, db') ->
  exists k, co_attempt input = NInt k /\ 1 <= k <= 100 /\
    boardagent_complete_typed_job now (co_jobId input) (co_leaseOwner input) k (uuid_value (co_leaseToken input))
      (co_result input) (co_resultSha256 input) (reported_class input) s db
    = Ok (match out with completed _ state again => Some (state, again) | lease_unavailable _ => None end, db') /\
    match out with completed id _ _ => id = co_jobId input | lease_unavailable id => id = co_jobId input end.
Proof.
  intros Hwf. unfold completeTypedJobInTransaction. intros E. inv_tx.
  match goal with Hp : UuidV7Schema _ = Ok _ |- _ => apply parse_ok in Hp as [-> _] end.
  match goal with Hp : parsed _ ?o _ _ = Ok (?z, _) |- _ => destruct o as [k|] eqn:Eo; unfold parsed in Hp; inv_tx end.
  destruct (_ && _) in Eo; [|done].
  assert (co_attempt input = NInt k /\ in_range 1 100 k = true) as [Ek Hk%in_range_spec]
    by (unfold int_between in Eo; by repeat case_match; simplify_eq).
  match goal with Hr : rescue _ _ _ _ = Ok (?o, _) |- _ => apply rescue_ok in Hr; destruct o as [[state again]|] end;
    inv_tx; exists k; (split_and!; [done|lia|lia| |done]);
    unfold reported_class; destruct (co_result input); assumption.
Qed.

Lemma extend_wf r until : job_wf r -> job_wf (extend_lease until r).
Proof.
  intros Hw. split; unfold waiting, finished; cbn; try apply Hw. rewrite fmap_is_Some. apply Hw.
Qed.

Lemma wf_extend r until db : wf db -> r ∈ jobs db ->
  wf (with_jobs db (map (changed (job_id r) (fun _ => extend_lease until r)) (jobs db))).
Proof. intros Hwf Hr. apply (wf_move db r (extend_lease until r)); try done. by apply extend_wf, Hwf. Qed.

(** ** The other writers *)

(** The cancelling of waiting jobs (migrations 0067 and 0079). *)
Definition cancelled_job (clock : Z) (r : JobRow) : JobRow :=
  MkJob (job r) JobState_cancelled (jb_attempts r) (jb_availableAt r) None (jb_lastErrorClass r) (Some clock).

Definition is_waiting (r : JobRow) : bool := bool_decide (jb_state r ∈ [JobState_queued; JobState_retry]).
Definition is_finished (r : JobRow) : bool :=
  bool_decide (jb_state r ∈ [JobState_succeeded; JobState_dead; JobState_cancelled]).

Definition cancel_jobs (clock : Z) (subject : JobRow -> bool) db : JobStore W :=
  with_jobs db (map (fun r => if subject r && is_waiting r then cancelled_job clock r else r) (jobs db)).

(** The retention of finished jobs (migration 0080), with their results. *)
Definition retain_jobs (old : JobRow -> bool) db : JobStore W :=
  let gone r := old r && is_finished r in
  let kept := List.filter (fun r => negb (gone r)) (jobs db) in
  MkStore kept
    (List.filter (fun a => bool_decide (ar_job a ∈ map job_id kept)) (job_attempt_results db)) (job_world db).

Lemma wf_cancel clock subject db : wf db -> wf (cancel_jobs clock subject db).
Proof.
  intros Hwf. set (f := fun r => if subject r && is_waiting r then cancelled_job clock r else r).
  assert (forall r, job (f r) = job r) as Hjob by (intros r; unfold f; by case_match).
  assert (forall r, r ∈ jobs db -> job_wf (f r) /\ ended (f r) = ended r /\
    forall k state, 1 <= k -> coherent r k state -> coherent (f r) k state) as Hf.
  { intros r Hr. pose proof (wf_jobs _ Hwf r Hr) as Hw. unfold f. case_match eqn:Ew; [|done].
    apply andb_true_iff in Ew as [_ Ew]. unfold is_waiting in Ew. apply bool_decide_eq_true in Ew.
    assert (waiting r) as Hwait by (rewrite !elem_of_cons, elem_of_nil in Ew; unfold waiting; naive_solver).
    split_and!.
    - split; unfold waiting; rewrite ?finished_in; cbn; [apply Hw|by split; [intros []|]|done|done|by intros [?|?]|].
      split; [by eauto|by eauto].
    - rewrite (waiting_ended r) by done. done.
    - intros k state Hk Hc. left. by apply (waiting_coherent r k). }
  assert (forall r', r' ∈ map f (jobs db) <-> exists r, r' = f r /\ r ∈ jobs db) as Hin.
  { intros r'. rewrite list_elem_of_In, in_map_iff. split; intros (r & E & Hr); exists r; (split; [done|]); by apply list_elem_of_In. }
  split; cbn [cancel_jobs with_jobs jobs job_attempt_results]; fold f.
  - rewrite map_map, (map_ext _ job_id); [apply Hwf|]. intros r. unfold job_id. by rewrite Hjob.
  - rewrite map_map, (map_ext _ job_key); [apply Hwf|]. intros r. unfold job_key. by rewrite Hjob.
  - intros r' (r & -> & Hr)%Hin. by apply Hf.
  - intros r' (r & -> & Hr)%Hin. rewrite Hjob. by apply Hwf.
  - intros a Ha. destruct (wf_results _ Hwf a Ha) as (r & Hr & Hi & Hk & Hc). exists (f r).
    destruct (Hf r Hr) as (_ & He & Hcoh). split_and!; [apply Hin; by exists r|unfold job_id; by rewrite Hjob|lia|lia|].
    apply Hcoh; [lia|done].
  - intros r' k (r & -> & Hr)%Hin Hk. destruct (Hf r Hr) as (_ & He & _). unfold job_id. rewrite Hjob.
    apply (wf_all_results _ Hwf r k Hr). lia.
  - apply Hwf.
Qed.

Lemma nodup_filter {A B} (f : A -> B) (p : A -> bool) l : NoDup (map f l) -> NoDup (map f (List.filter p l)).
Proof.
  induction l as [|x l IH]; cbn; [done|]. intros [Hn Hd]%NoDup_cons. case_match; [|by apply IH].
  cbn. constructor; [|by apply IH]. intros (y & E & Hy)%list_elem_of_fmap. apply Hn. rewrite E.
  apply list_elem_of_fmap_2. apply list_elem_of_In, filter_In in Hy as [Hy _]. by apply list_elem_of_In.
Qed.

Lemma elem_of_filter_bool {A} (p : A -> bool) l x : x ∈ List.filter p l <-> x ∈ l /\ p x = true.
Proof. by rewrite !list_elem_of_In, filter_In. Qed.

Lemma wf_retain old db : wf db -> wf (retain_jobs old db).
Proof.
  intros Hwf. split; cbn [retain_jobs jobs job_attempt_results].
  - by apply nodup_filter, Hwf.
  - by apply nodup_filter, Hwf.
  - intros r [Hr _]%elem_of_filter_bool. by apply Hwf.
  - intros r [Hr _]%elem_of_filter_bool. by apply Hwf.
  - intros a [Ha Hj%bool_decide_eq_true]%elem_of_filter_bool.
    destruct (wf_results _ Hwf a Ha) as (r & Hr & Hi & Hk & Hc). exists r. split; [|done].
    apply list_elem_of_fmap in Hj as (q & Eq & Hq). pose proof (proj1 (elem_of_filter_bool _ _ _) Hq) as [Hq' _].
    assert (r = q) as -> by (apply (unique_job (jobs db)); [apply Hwf|done|done|congruence]). done.
  - intros r k Hr Hk. pose proof (proj1 (elem_of_filter_bool _ _ _) Hr) as [Hr' _].
    destruct (wf_all_results _ Hwf r k Hr' Hk) as (a & Ha & Hj & Ek). exists a. split_and!; [|done..].
    apply elem_of_filter_bool. split; [done|]. apply bool_decide_eq_true. rewrite Hj. by apply list_elem_of_fmap_2.
  - by apply nodup_filter, Hwf.
Qed.

(** ** Histories *)

(** One committed transaction on the job tables: one of lib/db/src/jobs.ts, or
    another writer's: a scheduler's insert, a cancelling, the retention, or
    work elsewhere in the database. *)
Inductive job_step db db' : Prop :=
  | step_enqueue now input s out : enqueueRequestJobInTransaction now input s db = Ok (out, db') -> job_step db db'
  | step_claim now later owner secs s out :
      claimTypedJobInTransaction now later owner secs s db = Ok (out, db') -> job_step db db'
  | step_heartbeat now id owner k token secs s out :
      heartbeatJobLeaseInTransaction now id owner k token secs s db = Ok (out, db') -> job_step db db'
  | step_complete now input s out : completeTypedJobInTransaction now input s db = Ok (out, db') -> job_step db db'
  | step_reap now limit s out : reapExpiredJobLeasesInTransaction now limit s db = Ok (out, db') -> job_step db db'
  | step_schedule n available : typed_job_row n = true ->
      (forall r, r ∈ jobs db -> job_id r <> jb_id n) -> (forall r, r ∈ jobs db -> same_job_key (job r) n = false) ->
      db' = with_jobs db (jobs db ++ [new_job n available]) -> job_step db db'
  | step_cancel clock subject : db' = cancel_jobs clock subject db -> job_step db db'
  | step_retain old : db' = retain_jobs old db -> job_step db db'
  | step_elsewhere w : db' = MkStore (jobs db) (job_attempt_results db) w -> job_step db db'.

(** What becomes of a job: its binding stays, its state moves along the
    lifecycle of the domain, its attempts are only counted up. *)
Definition advanced (r r' : JobRow) : Prop :=
  job r' = job r /\ rtc (step jobTransitions) (jb_state r) (jb_state r') /\ jb_attempts r <= jb_attempts r' <= 10.

Definition kept db db' : Prop := forall r, r ∈ jobs db -> exists r', r' ∈ jobs db' /\ advanced r r'.

Lemma advanced_refl r : job_wf r -> advanced r r.
Proof. intros Hw. split_and!; [done|constructor|lia|apply Hw]. Qed.

Lemma kept_refl db : wf db -> kept db db.
Proof. intros Hwf r Hr. exists r. split; [done|]. by apply advanced_refl, Hwf. Qed.

Lemma kept_trans db1 db2 db3 : kept db1 db2 -> kept db2 db3 -> kept db1 db3.
Proof.
  intros H12 H23 r Hr. destruct (H12 r Hr) as (r2 & Hr2 & J1 & T1 & A1).
  destruct (H23 r2 Hr2) as (r3 & Hr3 & J2 & T2 & A2). exists r3. split; [done|]. split_and!; [congruence|by etrans|lia|lia].
Qed.

(** One row changes and the rest stays. *)
Lemma kept_change db db' r change : wf db -> r ∈ jobs db -> advanced r (change r) ->
  jobs db' = map (changed (job_id r) change) (jobs db) -> kept db db'.
Proof.
  intros Hwf Hr Ha Hj q Hq. exists (changed (job_id r) change q). split.
  - rewrite Hj. by apply list_elem_of_fmap_2.
  - unfold changed. case_bool_decide as Hd; [|by apply advanced_refl, Hwf].
    by assert (q = r) as -> by (apply (unique_job (jobs db)); [apply Hwf|done..]).
Qed.

Lemma moves (s t : JobState) : t ∈ jobTransitions s -> rtc (step jobTransitions) s t.
Proof. intros Hs. by apply rtc_once. Qed.

Lemma kept_take lease r db clock : wf db -> r ∈ jobs db -> claimable clock r = true -> kept db (take_lease lease r db).
Proof.
  intros Hwf Hr (Hw & _ & Ha)%claimable_wf. eapply (kept_change _ _ r (leased_job lease)); try done.
  split_and!; [done|apply moves; destruct Hw as [-> | ->]; set_solver|cbn; lia|cbn; lia].
Qed.

Lemma kept_settle r lease class sha e next clock db : wf db -> r ∈ jobs db -> jb_state r = JobState_leased ->
  next = JobState_succeeded \/ next = JobState_dead \/ next = JobState_retry ->
  kept db (settle r lease class sha e next clock db).
Proof.
  intros Hwf Hr Hs Hn. eapply (kept_change _ _ r (settled_job next clock e)); try done.
  pose proof (jw_attempts _ (wf_jobs _ Hwf _ Hr)).
  split_and!; [done|apply moves; rewrite Hs; destruct Hn as [->|[-> | ->]]; set_solver|cbn; lia|cbn; lia].
Qed.

Lemma next_state_cases class k : next_state class k = JobState_succeeded \/ next_state class k = JobState_dead \/
  (next_state class k = JobState_retry /\ k < 10).
Proof. unfold next_state. case_bool_decide; [by left|]. case_bool_decide; cbn; [by right; left|]. destruct (Z.leb_spec 10 k); [by right; left|by right; right]. Qed.

Definition outcome db db' : Prop := wf db' /\
  forall r, r ∈ jobs db -> (exists r', r' ∈ jobs db' /\ advanced r r') \/
    (finished r /\ forall r', r' ∈ jobs db' -> job_id r' <> job_id r).

Lemma kept_outcome db db' : wf db' -> kept db db' -> outcome db db'.
Proof. intros Hwf Hk. split; [done|]. intros r Hr. left. by apply Hk. Qed.

Lemma claim_outcome_ok now later owner secs db db' res : wf db ->
  claim_outcome now later owner secs db db' res -> outcome db db'.
Proof.
  intros Hwf [-> _|r e [Hr Hc _ _] _ ->|r error [Hr Hc _ _] _ _ (sha & ->)]; apply kept_outcome.
  - done.
  - by apply kept_refl.
  - by eapply wf_take_lease.
  - by eapply kept_take.
  - pose proof (wf_take_lease (leased_to owner secs now) r db _ Hwf Hr Hc) as Hwf'.
    case_match; [|done]. apply wf_settle; [done|apply taken_in; [done..|by left]|done|by right; left].
  - pose proof (wf_take_lease (leased_to owner secs now) r db _ Hwf Hr Hc) as Hwf'.
    case_match; [|by eapply kept_take]. eapply kept_trans; [by eapply (kept_take (leased_to owner secs now) r)|].
    apply kept_settle; [done|apply taken_in; [done..|by left]|done|by right; left].
Qed.

Lemma settle_outcome r lease class sha e next clock db : wf db -> r ∈ jobs db -> jb_state r = JobState_leased ->
  next = JobState_succeeded \/ next = JobState_dead \/ (next = JobState_retry /\ jb_attempts r < 10) ->
  outcome db (settle r lease class sha e next clock db).
Proof.
  intros Hwf Hr Hs Hn. apply kept_outcome; [by apply wf_settle|]. apply kept_settle; [done..|]. naive_solver.
Qed.

Lemma reap_kept clock ids db db' : wf db -> (forall r, r ∈ jobs db -> job_id r ∈ ids -> jb_state r = JobState_leased) ->
  jobs db' = map (reap_in clock ids) (jobs db) -> kept db db'.
Proof.
  intros Hwf Hids Hj r Hr. exists (reap_in clock ids r). split; [rewrite Hj; by apply list_elem_of_fmap_2|].
  unfold reap_in. case_bool_decide as Hd; [|by apply advanced_refl, Hwf].
  pose proof (jw_attempts _ (wf_jobs _ Hwf _ Hr)). unfold advanced, reaped.
  split_and!; [done|apply moves; rewrite (Hids r Hr Hd); cbn; case_match; set_solver|cbn; lia|cbn; lia].
Qed.

Lemma step_outcome db db' : job_step db db' -> wf db -> outcome db db'.
Proof.
  intros [now input s out E|now later owner secs s out E|now id owner k token secs s out E|now input s out E
         |now limit s out E|n available Hrow Hid Hkey ->|clock subject ->|old ->|w ->] Hwf.
  - destruct (enqueue_ok _ _ _ _ _ _ Hwf E) as (e & r & [_ _ _ _ _ Hch Hwf']). apply kept_outcome; [done|].
    destruct (replayed out); [subst; by apply kept_refl|]. destruct Hch as (_ & -> & _). intros q Hq. exists q.
    split; [apply elem_of_app; by left|by apply advanced_refl, Hwf].
  - destruct (claim_ok _ _ _ _ _ _ _ _ Hwf E) as (z & _ & _ & _ & Ho). by eapply claim_outcome_ok.
  - unfold heartbeatJobLeaseInTransaction in E. inv_tx.
    repeat match goal with Hp : parsed _ _ _ _ = Ok _ |- _ => apply parsed_ok in Hp as [_ ->] end.
    match goal with Hq : boardagent_heartbeat_typed_job _ _ _ _ _ _ _ _ = Ok (?o, _) |- _ =>
      apply heartbeat_effect in Hq; destruct o as [until|] end.
    + match goal with Hq : exists r, _ |- _ => destruct Hq as (r & Hf & _ & _ & ->) end.
      apply find_job_ok in Hf as [Hr _]. apply kept_outcome; [by apply wf_extend|].
      match goal with |- kept _ (with_jobs _ (map (changed _ ?f) _)) => eapply (kept_change _ _ r f) end; [done|done| |done].
      split_and!; [done|by apply rtc_refl|cbn; lia|pose proof (jw_attempts _ (wf_jobs _ Hwf _ Hr)); cbn; lia].
    + match goal with Hq : _ /\ _ |- _ => destruct Hq as [-> _] end. apply kept_outcome; [done|by apply kept_refl].
  - destruct (complete_ok _ _ _ _ _ _ Hwf E) as (k & _ & _ & Hc & _). apply complete_effect in Hc; [|done].
    destruct out as [id state []|id].
    + destruct Hc as [-> _]. apply kept_outcome; [done|by apply kept_refl].
    + destruct Hc as (r & lease & Hf & Hl & Hh & -> & _ & ->). apply find_job_ok in Hf as [Hr _].
      apply holds_lease_ok in Hh as (Hs & <- & _). apply settle_outcome; [done..|apply next_state_cases].
    + destruct Hc as [-> _]. apply kept_outcome; [done|by apply kept_refl].
  - unfold reapExpiredJobLeasesInTransaction in E. inv_tx.
    match goal with Hp : parsed _ _ _ _ = Ok _ |- _ => apply parsed_ok in Hp as [_ ->] end.
    match goal with Hq : boardagent_reap_expired_typed_jobs _ _ _ _ = Ok _ |- _ =>
      destruct (reap_effect _ _ _ _ _ _ Hwf Hq) as (rows & Hd & _ & _ & Hrows & _ & Hwf' & _ & _ & Hj & _) end.
    apply kept_outcome; [done|]. eapply reap_kept; [done| |exact Hj].
    intros r Hr (q & Eq & Hq)%list_elem_of_fmap. destruct (Hrows q Hq) as (Hq' & Hx & _).
    assert (r = q) as -> by (apply (unique_job (jobs db)); [apply Hwf|done..]).
    unfold lease_expired in Hx. by boolify.
  - apply kept_outcome; [by apply wf_insert|]. intros q Hq. exists q.
    split; [apply elem_of_app; by left|by apply advanced_refl, Hwf].
  - apply kept_outcome; [by apply wf_cancel|]. intros q Hq. eexists. split; [by apply list_elem_of_fmap_2|].
    cbn. case_match eqn:Ew; [|by apply advanced_refl, Hwf]. apply andb_true_iff in Ew as [_ Ew].
    unfold is_waiting in Ew. apply bool_decide_eq_true in Ew. rewrite !elem_of_cons, elem_of_nil in Ew.
    pose proof (jw_attempts _ (wf_jobs _ Hwf _ Hq)).
    split_and!; [done|apply moves; destruct Ew as [->|[->|[]]]; set_solver|cbn; lia|cbn; lia].
  - split; [by apply wf_retain|]. intros r Hr. destruct (old r && is_finished r) eqn:Eg.
    + right. split; [unfold finished, is_finished in *; by boolify|]. intros r' [Hr' Hn]%elem_of_filter_bool Ei.
      assert (r' = r) as -> by (apply (unique_job (jobs db)); [apply Hwf|done..]). by rewrite Eg in Hn.
    + left. exists r. split; [|by apply advanced_refl, Hwf]. apply elem_of_filter_bool. by rewrite Eg.
  - apply kept_outcome; [by destruct Hwf; split|]. intros q Hq. exists q. split; [done|]. by apply advanced_refl, Hwf.
Qed.

Lemma jobs_stay_wf db db' : rtc job_step db db' -> wf db -> wf db'.
Proof. induction 1 as [|db1 db2 db3 S _ IH]; [done|]. intros Hwf. by apply IH, (step_outcome db1). Qed.
End histories.

(** ** Properties *)

Section properties.
Context `{Platform} `{!NodeText} `{!JobText} {W : Type} `{!JobSubjects W} `{!PgClock}.
Implicit Types (db : JobStore W) (s : Session) (now : Instant).

(** The recorded results of a job. *)
Definition results_of db (r : JobRow) : list AttemptResult :=
  List.filter (fun a => bool_decide (ar_job a = job_id r)) (job_attempt_results db).

Lemma results_count db r : wf db -> r ∈ jobs db -> Z.of_nat (length (results_of db r)) = ended r.
Proof.
  intros Hwf Hr. pose proof (wf_jobs _ Hwf _ Hr) as Hw. pose proof (jw_attempts _ Hw).
  assert (0 <= ended r) by (unfold ended; case_bool_decide as Hd; [apply (jw_leased _ Hw) in Hd|]; lia).
  assert (map ar_attempt (results_of db r) ≡ₚ seqZ 1 (ended r)) as Hp.
  { apply NoDup_Permutation; [|apply NoDup_seqZ|].
    - pose proof (wf_one_result _ Hwf) as Hd. apply (nodup_filter _ (fun a => bool_decide (ar_job a = job_id r))) in Hd.
      fold (results_of db r) in Hd.
      assert (Forall (fun a => ar_job a = job_id r) (results_of db r)) as Hall
        by (apply Forall_forall; intros a Ha; unfold results_of in Ha; apply elem_of_filter_bool in Ha as [_ Ha]; by boolify).
      revert Hd Hall. generalize (results_of db r) as l. induction l as [|a l IH]; cbn; [constructor|].
      intros [Hn Hd]%NoDup_cons [Ha Hl]%Forall_cons. constructor; [|by apply IH].
      intros (b & Eb & Hb)%list_elem_of_fmap. apply Hn. apply list_elem_of_fmap. exists b.
      rewrite Forall_forall in Hl. rewrite (Hl _ Hb), Ha, Eb. done.
    - intros k. rewrite elem_of_seqZ. split.
      + intros (a & -> & Ha)%list_elem_of_fmap. unfold results_of in Ha.
        apply elem_of_filter_bool in Ha as [Ha Hi%bool_decide_eq_true].
        destruct (wf_results _ Hwf a Ha) as (q & Hq & Hqi & Hk & _).
        assert (q = r) as -> by (apply (unique_job (jobs db)); [apply Hwf|done|done|congruence]). lia.
      + intros Hk. destruct (wf_all_results _ Hwf r k Hr ltac:(lia)) as (a & Ha & Hj & <-).
        apply list_elem_of_fmap_2, elem_of_filter_bool. split; [done|]. by apply bool_decide_eq_true. }
  apply Permutation_length in Hp. rewrite length_map, length_seqZ in Hp. lia.
Qed.

(** C20. Any history keeps the job tables sound: a job is leased exactly while it
    has a lease; it has been given at most ten leases; each lease that ended
    left exactly one result, so that the results of a job are as many as its
    ended attempts; and a job that waits has attempts left, so that once it is
    due nothing but a lock hides it from a claim. *)
Theorem job_history db db' : wf db -> rtc job_step db db' ->
  wf db' /\ forall r, r ∈ jobs db' ->
    Z.of_nat (length (results_of db' r)) = ended r /\ 0 <= ended r <= 10 /\
    (is_Some (jb_lease r) <-> jb_state r = JobState_leased) /\
    (is_Some (jb_completedAt r) <-> finished r) /\
    (waiting r -> forall clock, jb_availableAt r <= clock -> claimable clock r = true).
Proof.
  intros Hwf Hh. pose proof (jobs_stay_wf _ _ Hh Hwf) as Hwf'. split; [done|]. intros r Hr.
  pose proof (wf_jobs _ Hwf' _ Hr) as Hw. pose proof (jw_attempts _ Hw). pose proof (results_count _ _ Hwf' Hr) as Hc.
  assert (ended r <= jb_attempts r) by (unfold ended; case_bool_decide; lia).
  split_and!; [done|lia|lia|apply Hw..|]. intros Hwait clock Hav. apply claimable_wf. split_and!; [done..|by apply Hw].
Qed.

(** The tables implement the lifecycle of a job that the domain states: in
    every step a job keeps its binding (identifiers, payload and key), its
    state moves along the transitions of [jobTransitions], and its attempts are
    only counted up, never past ten; a job disappears only once it has
    finished. *)
Theorem job_lifecycle db db' : wf db -> job_step db db' -> forall r, r ∈ jobs db ->
  (exists r', r' ∈ jobs db' /\ advanced r r') \/
  (finished r /\ forall r', r' ∈ jobs db' -> job_id r' <> job_id r).
Proof. intros Hwf Hs. by apply (step_outcome _ _ Hs Hwf). Qed.

(** The lease under which attempt [k] of a job runs, still on at [clock]. *)
Record runs_under (clock : Z) (owner token : jsstr) (k : Z) (r : JobRow) (lease : Lease) : Prop := {
  ru_state : jb_state r = JobState_leased;
  ru_attempt : jb_attempts r = k;
  ru_lease : jb_lease r = Some lease;
  ru_owner : lease_owner lease = owner;
  ru_token : lease_token lease = token;
  ru_on : clock < lease_expires_at lease
}.

Lemma holds_lease_runs clock owner token k r : holds_lease clock owner token k r = true <->
  exists lease, runs_under clock owner token k r lease.
Proof.
  rewrite holds_lease_ok. split.
  - intros (? & ? & lease & ? & ? & ? & ?). by exists lease.
  - intros (lease & []). split_and!; [done..|]. by exists lease.
Qed.

(** What the end of attempt [k] makes of a job. *)
Inductive attempt_ends : ResultClass -> Z -> JobState -> Prop :=
  | ends_succeeded k : attempt_ends result_succeeded k JobState_succeeded
  | ends_permanent k : attempt_ends permanent_failure k JobState_dead
  | ends_exhausted k : 10 <= k -> attempt_ends retryable_failure k JobState_dead
  | ends_retried k : k < 10 -> attempt_ends retryable_failure k JobState_retry.

Lemma next_state_ends class k : class <> result_lease_expired -> attempt_ends class k (next_state class k).
Proof.
  unfold next_state. destruct class; intros Hn; cbn; [constructor| |constructor|done].
  destruct (Z.leb_spec 10 k); by constructor.
Qed.

(** The row of a job whose attempt [k] has ended: no lease, and either due again
    after the delay of the attempt, which doubles from half a minute up to a
    day, or completed now. *)
Record job_ended (clock k : Z) (errorClass : option jsstr) (state : JobState) (r r' : JobRow) : Prop := {
  je_binding : job r' = job r;
  je_state : jb_state r' = state;
  je_attempts : jb_attempts r' = k;
  je_lease : jb_lease r' = None;
  je_error : jb_lastErrorClass r' = match state with JobState_succeeded => None | _ => errorClass end;
  je_due : match state with
           | JobState_retry => jb_completedAt r' = None /\
               jb_availableAt r' = clock + 1000000 * Z.min 86400 (30 * 2 ^ Z.min (k - 1) 11)
           | _ => jb_completedAt r' = Some clock /\ jb_availableAt r' = jb_availableAt r
           end
}.

Lemma settled_ended clock k errorClass class r : jb_attempts r = k -> class <> result_lease_expired ->
  job_ended clock k errorClass (next_state class k) r (settled_job (next_state class k) clock errorClass r).
Proof.
  intros Hk Hn. pose proof (next_state_ends class k Hn) as He.
  destruct He; split; cbn [settled_job job jb_state jb_attempts jb_lease jb_lastErrorClass jb_completedAt
    jb_availableAt]; try done. unfold seconds, retry_delay. rewrite Hk. split; [done|].
  rewrite bool_decide_eq_true_2 by done. lia.
Qed.

(** The job of [r] gets the row [r'], the others keep theirs. *)
Definition one_job_replaced db db' (r r' : JobRow) : Prop :=
  jobs db' = map (fun q => if bool_decide (job_id q = job_id r) then r' else q) (jobs db) /\
  job_world db' = job_world db.

(** What completing the attempt [k] answers and leaves: a result recorded and
    the job settled, a result that was there, or nothing. *)
Inductive completion_outcome (now : Instant) (input : CompleteJobInput) (k : Z) db db' : CompleteJobResult -> Prop :=
  | completion_settles r r' lease state : r ∈ jobs db -> job_id r = co_jobId input ->
      runs_under (clock_timestamp now) (co_leaseOwner input) (uuid_value (co_leaseToken input)) k r lease ->
      attempt_ends (co_result input) k state ->
      job_ended (clock_timestamp now) k (reported_class input) state r r' -> one_job_replaced db db' r r' ->
      job_attempt_results db' = job_attempt_results db ++
        [MkResult (co_jobId input) k (uuid_value (co_leaseToken input)) (co_leaseOwner input) (co_result input)
           (co_resultSha256 input) (reported_class input) state (lease_started_at lease) (clock_timestamp now)] ->
      completion_outcome now input k db db' (completed (co_jobId input) state false)
  | completion_repeats a : a ∈ job_attempt_results db -> ar_job a = co_jobId input -> ar_attempt a = k ->
      ar_owner a = co_leaseOwner input -> ar_token a = uuid_value (co_leaseToken input) ->
      ar_class a = co_result input -> ar_sha256 a = co_resultSha256 input -> ar_errorClass a = reported_class input ->
      db' = db -> completion_outcome now input k db db' (completed (co_jobId input) (ar_state a) true)
  | completion_refused : db' = db ->
      (forall a, a ∈ job_attempt_results db -> ar_job a = co_jobId input -> ar_attempt a <> k) ->
      (forall r lease, r ∈ jobs db -> job_id r = co_jobId input ->
        ~ runs_under (clock_timestamp now) (co_leaseOwner input) (uuid_value (co_leaseToken input)) k r lease) ->
      completion_outcome now input k db db' (lease_unavailable (co_jobId input)).

Lemma settle_outcome_ok now input k db r lease : wf db -> r ∈ jobs db -> job_id r = co_jobId input ->
  co_result input <> result_lease_expired ->
  runs_under (clock_timestamp now) (co_leaseOwner input) (uuid_value (co_leaseToken input)) k r lease ->
  completion_outcome now input k db
    (settle r lease (co_result input) (co_resultSha256 input) (reported_class input)
       (next_state (co_result input) k) (clock_timestamp now) db)
    (completed (co_jobId input) (next_state (co_result input) k) false).
Proof.
  intros Hwf Hr Hi Hn Hu. destruct (Hu) as [_ Hk _ Ho Ht _].
  eapply completion_settles; [done..|by apply next_state_ends|by apply settled_ended| |].
  - split; [|done]. apply map_ext_in. intros q Hq. unfold changed. case_bool_decide as E; [|done].
    assert (q = r) as -> by (apply (unique_job (jobs db)); [apply Hwf|by apply list_elem_of_In|done|done]). done.
  - cbn [settle job_attempt_results]. unfold result_of. by rewrite Hi, Hk, Ho, Ht.
Qed.

(** C21. Completing is fenced by the lease. The completion of an attempt counts
    only while that attempt's own lease is on: the job is leased at this very
    attempt, to this owner, under this token, and the lease has not expired.
    Then exactly one result is recorded, with what was reported, and the job
    alone is settled: succeeded, dead after a permanent failure or the tenth
    attempt, due again after its delay otherwise. Reporting the same result
    again answers what was recorded and changes nothing; and a worker whose
    lease has ended, been taken over or never was changes nothing. *)
Theorem completion_fenced now input s db out db' : wf db ->
  completeTypedJobInTransaction now input s db = Ok (out, db') ->
  exists k, co_attempt input = NInt k /\ completion_outcome now input k db db' out /\
  ((forall r lease, r ∈ jobs db -> job_id r = co_jobId input ->
     ~ runs_under (clock_timestamp now) (co_leaseOwner input) (uuid_value (co_leaseToken input)) k r lease) ->
   db' = db).
Proof.
  intros Hwf E. destruct (complete_ok _ _ _ _ _ _ Hwf E) as (k & Ek & _ & Hc & Hid). exists k. split; [done|].
  apply complete_effect in Hc; [|done]. destruct out as [id state []|id]; subst id.
  - destruct Hc as (-> & a & ? & ? & ? & ? & ? & ? & ? & ? & <-). split; [by apply completion_repeats|done].
  - destruct Hc as (r & lease & Hf & Hl & Hh & -> & Hn & ->). apply find_job_ok in Hf as [Hr Hi].
    apply holds_lease_runs in Hh as (lease' & Hu). assert (lease' = lease) as -> by (destruct Hu; congruence).
    split; [by apply settle_outcome_ok|]. intros Hno. by destruct (Hno r lease Hr Hi).
  - destruct Hc as (-> & Hnone & Hn). split; [|done]. constructor; [done..|]. intros r lease Hr Hi Hu.
    enough (holds_lease (clock_timestamp now) (co_leaseOwner input) (uuid_value (co_leaseToken input)) k r = true)
      as Hh by (rewrite Hn in Hh; [done|]; rewrite <- Hi; apply find_unique; [apply Hwf|done]).
    apply holds_lease_runs. by exists lease.
Qed.

(** C22. Claiming takes the first due job and hands out exactly what its row says.
    Nothing is claimed only when every due job is locked by another
    transaction. A claimed job is the first of the due ones, protected
    checkpoint work before the rest; it is leased to the caller for the asked
    time; and the envelope handed out is the one whose canonical bytes, digest
    and columns the row carries. A row that carries no envelope is never handed
    out: its attempt ends in a permanent failure while its lease is on. *)
Theorem claim_exact now later owner rawSeconds s db res db' : wf db ->
  claimTypedJobInTransaction now later owner rawSeconds s db = Ok (res, db') ->
  exists secs, rawSeconds = NInt secs /\ 5 <= secs <= 300 /\ lease_owner_text owner = true /\
    claim_outcome now later owner secs db db' res.
Proof. apply claim_ok. Qed.

(** C33. Enqueueing is idempotent and what is enqueued is what a worker gets. The
    job that is answered carries the parsed envelope, for the organization and
    one of the boards of the request, and a claim of it reads that envelope back
    from its bytes. It is the only job of its organization, type and key; a
    repeated request answers the stored job and changes nothing; and a new job
    is queued, due at the asked time or now, as the only change. So under a key
    that is taken by another envelope no request is answered. *)
Theorem enqueue_exact now input s db out db' : wf db ->
  enqueueRequestJobInTransaction now input s db = Ok (out, db') ->
  exists e r, enqueued now input s db db' out e r /\ claimed_envelope r = Ok e /\
    forall q, q ∈ jobs db' -> jb_organization (job q) = organizationId e ->
      jb_type (job q) = js (job_type_text (jobType e)) -> jb_idempotencyKey (job q) = pg_text (en_idempotencyKey input) ->
      q = r.
Proof.
  intros Hwf E. destruct (enqueue_ok _ _ _ _ _ _ Hwf E) as (e & r & He). exists e, r. split; [done|].
  pose proof (proj1 (eq_carries _ _ _ _ _ _ _ _ He)) as Hc. split; [by apply claimed_envelope_ok|].
  intros q Hq Ho Ht Hk. apply carries_row in Hc as (Ro & _ & Rt & _).
  pose proof (eq_key _ _ _ _ _ _ _ _ He) as Rk. pose proof (eq_stored _ _ _ _ _ _ _ _ He) as [Hr _].
  pose proof (wf_keys _ (eq_wf _ _ _ _ _ _ _ _ He)) as Hd.
  apply list_elem_of_lookup in Hq as [i Hi], Hr as [j Hj].
  assert (i = j) as ->; [|congruence].
  apply (NoDup_lookup (map job_key (jobs db')) i j (job_key r) Hd).
  - rewrite list_lookup_fmap, Hi. cbn. unfold job_key. congruence.
  - by rewrite list_lookup_fmap, Hj.
Qed.
End properties.

(** ** A concrete queue *)

Definition sample_platform : Platform := plain_platform.
Definition sample_node : @NodeText sample_platform := strict_text.
Definition sample_schemas : JobText := {| iso_datetime_offset := is_rfc3339_utc; zod_uuid := match_units uuid_units |}.
Definition sample_subjects : JobSubjects unit :=
  {| job_exclusions _ := []; subject_eligible _ _ _ _ := true; job_references _ _ := true;
     timestamptz t := if is_rfc3339_utc t then Some (1000 * date_parse_ms t) else None |}.
Definition sample_clock : PgClock := {| to_char_utc t := dec t |}.
Definition uuid_n (n : string) : jsstr := js "01890000-0000-7000-8000-0000000000" ++ js n.

Definition empty_store : JobStore unit := MkStore [] [] tt.
Definition instant (t : Z) : Instant :=
  {| clock_timestamp := t; gen_random_uuid := uuid_n "aa"; locked _ := false |}.
Definition sample_request : Session :=
  installLocalContext 0 (MkContext (uuid_n "01") (uuid_n "02") (uuid_n "03") (uuid_n "04") [], replicate 64 97).
Definition sample_worker : Session := MkSession 0 [] [] [] [] [] [] (js "worker").

Definition sample_envelope : TypedJobEnvelope := MkEnvelope clock_health (uuid_n "01") None (uuid_n "01") None.
Definition sample_enqueue : EnqueueRequestJobInput :=
  MkEnqueue (uuid_n "05") (envelope_json sample_envelope) (js "clock-health:2026-01-02") None.
Definition store_of {A} (r : result (A * JobStore unit)) : JobStore unit :=
  match r with Ok (_, db) => db | Throw _ => empty_store end.

Definition sample_enqueued := @enqueueRequestJobInTransaction sample_platform sample_schemas unit sample_subjects
  (instant 0) sample_enqueue sample_request empty_store.
Definition queued_store : JobStore unit := store_of sample_enqueued.
Definition sample_claim := @claimTypedJobInTransaction sample_platform sample_node sample_schemas unit sample_clock
  (instant 1000) (instant 2000) (js "worker-1") (NInt 30) sample_worker queued_store.
Definition leased_store : JobStore unit := store_of sample_claim.
Definition sample_completion : CompleteJobInput :=
  MkComplete (uuid_n "05") (js "worker-1") (NInt 1) (uuid_n "aa") result_succeeded (replicate 64 97) None.
Definition sample_complete := @completeTypedJobInTransaction sample_schemas unit (instant 3000)
  sample_completion sample_worker leased_store.
Definition completed_store : JobStore unit := store_of sample_complete.

Lemma wf_empty `{Platform} `{!JobSubjects unit} : wf empty_store.
Proof. split; cbn; try (by constructor); by intros ? ?%elem_of_nil || (by intros ? ? ?%elem_of_nil). Qed.

Lemma store_of_ok {A} (r : result (A * JobStore unit)) :
  match r with Ok _ => true | Throw _ => false end = true -> exists a, r = Ok (a, store_of r).
Proof. destruct r as [[a db]|e]; [|done]. intros _. by exists a. Qed.

Lemma sample_enqueue_runs : exists out, sample_enqueued = Ok (out, queued_store).
Proof. apply store_of_ok. vm_compute. reflexivity. Qed.
Lemma sample_claim_runs : exists out, sample_claim = Ok (out, leased_store).
Proof. apply store_of_ok. vm_compute. reflexivity. Qed.
Lemma sample_complete_runs : exists out, sample_complete = Ok (out, completed_store).
Proof. apply store_of_ok. vm_compute. reflexivity. Qed.

Abbreviation sample_wf := (@wf sample_platform unit sample_subjects) (only parsing).
Abbreviation sample_step :=
  (@job_step sample_platform sample_node sample_schemas unit sample_subjects sample_clock) (only parsing).

Lemma sample_step_enqueue : sample_step empty_store queued_store.
Proof.
  destruct sample_enqueue_runs as [out E]. unfold sample_enqueued in E.
  exact (@step_enqueue sample_platform sample_node sample_schemas unit sample_subjects sample_clock
    empty_store queued_store (instant 0) sample_enqueue sample_request out E).
Qed.

Lemma sample_step_claim : sample_step queued_store leased_store.
Proof.
  destruct sample_claim_runs as [out E]. unfold sample_claim in E.
  exact (@step_claim sample_platform sample_node sample_schemas unit sample_subjects sample_clock
    queued_store leased_store (instant 1000) (instant 2000) (js "worker-1") (NInt 30) sample_worker out E).
Qed.

Lemma sample_step_complete : sample_step leased_store completed_store.
Proof.
  destruct sample_complete_runs as [out E]. unfold sample_complete in E.
  exact (@step_complete sample_platform sample_node sample_schemas unit sample_subjects sample_clock
    leased_store completed_store (instant 3000) sample_completion sample_worker out E).
Qed.

Lemma wf_start : sample_wf empty_store.
Proof. exact (@wf_empty sample_platform sample_subjects). Qed.

Lemma wf_queued : sample_wf queued_store.
Proof. exact (jobs_stay_wf _ _ (rtc_once _ _ sample_step_enqueue) wf_start). Qed.

Lemma wf_leased : sample_wf leased_store.
Proof. exact (jobs_stay_wf _ _ (rtc_once _ _ sample_step_claim) wf_queued). Qed.

Lemma job_history_witness : sample_wf completed_store /\
  map jb_state (jobs completed_store) = [JobState_succeeded].
Proof.
  split; [|vm_compute; reflexivity].
  exact (proj1 (job_history empty_store completed_store wf_start
    (rtc_l _ _ _ _ sample_step_enqueue (rtc_l _ _ _ _ sample_step_claim (rtc_once _ _ sample_step_complete))))).
Defined.

Lemma job_lifecycle_witness : map jb_state (jobs queued_store) = [JobState_queued] /\
  forall r, r ∈ jobs queued_store -> (exists r', r' ∈ jobs leased_store /\ advanced r r') \/
    (finished r /\ forall r', r' ∈ jobs leased_store -> job_id r' <> job_id r).
Proof.
  split; [vm_compute; reflexivity|]. exact (job_lifecycle queued_store leased_store wf_queued sample_step_claim).
Defined.

Lemma completion_fenced_witness : exists out, sample_complete = Ok (out, completed_store) /\
  exists k, co_attempt sample_completion = NInt k.
Proof.
  destruct sample_complete_runs as [out E]. exists out. split; [exact E|].
  unfold sample_complete in E.
  destruct (@completion_fenced sample_platform sample_schemas unit sample_subjects (instant 3000) sample_completion
    sample_worker leased_store out completed_store wf_leased E) as (k & Ek & _). by exists k.
Defined.

Lemma claim_exact_witness : exists out, sample_claim = Ok (out, leased_store) /\
  @claim_outcome sample_platform sample_node sample_schemas unit sample_clock (instant 1000) (instant 2000)
    (js "worker-1") 30 queued_store leased_store out.
Proof.
  destruct sample_claim_runs as [out E]. exists out. split; [exact E|].
  unfold sample_claim in E.
  destruct (@claim_exact sample_platform sample_node sample_schemas unit sample_subjects sample_clock (instant 1000)
    (instant 2000) (js "worker-1") (NInt 30) sample_worker queued_store out leased_store wf_queued E) as (secs & Es & _ & _ & Ho).
  injection Es as <-. exact Ho.
Defined.

Lemma enqueue_exact_witness : exists out e r, sample_enqueued = Ok (out, queued_store) /\
  @enqueued sample_platform sample_schemas unit sample_subjects (instant 0) sample_enqueue sample_request empty_store
    queued_store out e r.
Proof.
  destruct sample_enqueue_runs as [out E].
  unfold sample_enqueued in E.
  destruct (@enqueue_exact sample_platform sample_node sample_schemas unit sample_subjects (instant 0) sample_enqueue
    sample_request empty_store out queued_store wf_start E) as (e & r & He & _).
  exists out, e, r. split; [exact E|exact He].
Defined.
