(* ===== verification/Ballots.v ===== *)
(** * Ballots and proxies

    lib/db/src/transactions/ballots.ts: granting and revoking a proxy and casting
    a ballot, on the tables of migrations 0002, 0004, 0005, 0009, 0010, 0147 and
    0148 with their constraints, row security and triggers (0011, 0020, 0024,
    0069). The tables are the rest of the database of [Database]. *)

From stdpp Require Import base numbers sorting strings list.
From Stdlib Require Import Lia.
From S2P Require Import Prelude JsString Encoding JsNumber Json JsonParse JsonCanon Schemas.
From S2P Require Import StateMachines Decode VotingConsent Voting KeyLifecycle AuditEvent Request Database StagedAction.

Local Open Scope Z_scope.

(** ** Tables *)

(** [votes], the columns these transactions read. *)
Record VoteRow := MkVote {
  vt_id : jsstr;
  vt_organization : jsstr;
  vt_board : jsstr;
  vt_state : VoteState;
  vt_rowVersion : Z;
  vt_package : option jsstr;
  vt_approvalRule : jsstr;
  vt_deadlineAt : option Z;
  vt_title : jsstr;
  vt_resolution : option jsstr
}.

(** [decision_packages] *)
Record PackageRow := MkPackage {
  dp_id : jsstr;
  dp_organization : jsstr;
  dp_board : jsstr;
  dp_vote : jsstr;
  dp_packageSha256 : jsstr;
  dp_canonicalPayload : list Z
}.

(** [approval_rules] *)
Record RuleRow := MkRuleRow {
  ru_id : jsstr;
  ru_organization : jsstr;
  ru_board : jsstr;
  ru_proxyPolicy : jsstr
}.

(** [board_memberships] *)
Record MembershipRow := MkMembership {
  ms_organization : jsstr;
  ms_board : jsstr;
  ms_member : jsstr;
  ms_seatRole : jsstr;
  ms_votingWeight : Z;
  ms_state : jsstr;
  ms_activeFrom : Z;
  ms_activeUntil : option Z
}.

(** [vote_electorate] *)
Record ElectorRow := MkElector {
  el_organization : jsstr;
  el_board : jsstr;
  el_vote : jsstr;
  el_member : jsstr;
  el_votingWeight : Z;
  el_isChair : bool
}.

(** [vote_exclusions] *)
Record ExclusionRow := MkExclusion {
  ex_organization : jsstr;
  ex_board : jsstr;
  ex_vote : jsstr;
  ex_member : jsstr;
  ex_version : Z;
  ex_excluded : bool
}.

(** [proxy_grants] *)
Record GrantRow := MkGrant {
  pg_id : jsstr;
  pg_organization : jsstr;
  pg_board : jsstr;
  pg_vote : jsstr;
  pg_principal : jsstr;
  pg_holder : jsstr;
  pg_policy : jsstr;
  pg_consent : jsstr;
  pg_grantedAt : Z;
  pg_expiresAt : option Z
}.

(** [proxy_revocations] *)
Record RevocationRow := MkRevocation {
  pr_id : jsstr;
  pr_organization : jsstr;
  pr_grant : jsstr;
  pr_revoker : jsstr;
  pr_reason : jsstr;
  pr_effect : jsstr;
  pr_consent : option jsstr;
  pr_revokedAt : Z
}.

(** [ballots] *)
Record BallotRow := MkBallotRow {
  bl_id : jsstr;
  bl_organization : jsstr;
  bl_board : jsstr;
  bl_vote : jsstr;
  bl_package : jsstr;
  bl_principal : jsstr;
  bl_caster : jsstr;
  bl_choice : jsstr;
  bl_statement : option jsstr;
  bl_statementSha256 : option jsstr;
  bl_votingWeight : Z;
  bl_source : BallotSource;
  bl_proxyGrant : option jsstr;
  bl_consent : jsstr;
  bl_castAt : Z
}.

(** [ballot_dispositions.effect] *)
Inductive DispositionEffect := superseded | invalidated_by_recusal | invalidated_by_vote_replacement.

#[export] Instance DispositionEffect_eq : EqDecision DispositionEffect.
Proof. solve_decision. Defined.

(** [ballot_dispositions] *)
Record DispositionRow := MkDisposition {
  bd_id : jsstr;
  bd_prior : jsstr;
  bd_superseding : option jsstr;
  bd_replacementVote : option jsstr;
  bd_reason : jsstr;
  bd_effect : DispositionEffect;
  bd_auditEvent : option jsstr
}.

(** [idempotency_records.state] *)
Inductive IdempotencyState := in_progress | idem_succeeded | idem_failed | idem_expired.

#[export] Instance IdempotencyState_eq : EqDecision IdempotencyState.
Proof. solve_decision. Defined.

(** [idempotency_records] *)
Record IdempotencyRow := MkIdempotency {
  im_id : jsstr;
  im_organization : jsstr;
  im_actor : jsstr;
  im_client : jsstr;
  im_operation : jsstr;
  im_key : jsstr;
  im_requestSha256 : jsstr;
  im_state : IdempotencyState;
  im_response : option (jsstr * jsstr * jsstr);
  im_completedAt : option Z
}.

(** [pending_action_feed.state] *)
Inductive FeedState := feed_pending | feed_resolved | feed_superseded.

#[export] Instance FeedState_eq : EqDecision FeedState.
Proof. solve_decision. Defined.

(** [pending_action_feed] *)
Record FeedRow := MkFeedRow {
  fd_id : jsstr;
  fd_organization : jsstr;
  fd_board : jsstr;
  fd_member : jsstr;
  fd_actionType : jsstr;
  fd_objectType : jsstr;
  fd_objectId : jsstr;
  fd_state : FeedState;
  fd_resolvedAt : option Z
}.

(** [member_feed_sync_positions] *)
Record SyncRow := MkSync {
  sy_organization : jsstr;
  sy_board : jsstr;
  sy_member : jsstr;
  sy_kind : jsstr;
  sy_entry : jsstr;
  sy_changeSequence : Z
}.

(** The tables of votes, and the rest. *)
Record VoteTables (X : Type) := MkTables {
  votes : list VoteRow;
  decision_packages : list PackageRow;
  approval_rules : list RuleRow;
  (** organization, identifier and state *)
  member_states : list (jsstr * jsstr * jsstr);
  board_memberships : list MembershipRow;
  vote_electorate : list ElectorRow;
  vote_exclusions : list ExclusionRow;
  proxy_grants : list GrantRow;
  proxy_revocations : list RevocationRow;
  ballots : list BallotRow;
  ballot_dispositions : list DispositionRow;
  idempotency_records : list IdempotencyRow;
  pending_action_feed : list FeedRow;
  (** organization, member and last sequence *)
  member_feed_sync_counters : list (jsstr * jsstr * Z);
  member_feed_sync_positions : list SyncRow;
  tables_rest : X
}.
Arguments MkTables {X} _ _ _ _ _ _ _ _ _ _ _ _ _ _ _ _.
Arguments votes {X} _.
Arguments decision_packages {X} _.
Arguments approval_rules {X} _.
Arguments member_states {X} _.
Arguments board_memberships {X} _.
Arguments vote_electorate {X} _.
Arguments vote_exclusions {X} _.
Arguments proxy_grants {X} _.
Arguments proxy_revocations {X} _.
Arguments ballots {X} _.
Arguments ballot_dispositions {X} _.
Arguments idempotency_records {X} _.
Arguments pending_action_feed {X} _.
Arguments member_feed_sync_counters {X} _.
Arguments member_feed_sync_positions {X} _.
Arguments tables_rest {X} _.

(** What the statements ask of tables that are not modelled, and of PostgreSQL:
    the readiness of the actor (0020), the recusals from records (0150), and the
    reading of a timestamp. *)
Class VoteAuthority (X : Type) := {
  boardagent_vote_actor_ready_for_scope : Database (VoteTables X) -> Session -> jsstr -> string -> bool;
  boardagent_member_record_recused : Database (VoteTables X) -> Session -> jsstr -> jsstr -> bool;
  pg_timestamptz : jsstr -> option Z
}.

Section updates.
Context {X : Type}.
Abbreviation DB := (Database (VoteTables X)).
Implicit Types db : DB.

Definition with_rest db (t : VoteTables X) : DB :=
  MkDatabase (action_stages db) (input_required_attempts db) (consent_records db) (access_token_records db)
    (oauth_clients db) (system_instance db) (boards db) (members_table db) (wizard_drafts db)
    (board_exclusions db) (audit_chain_head db) (audit_events db) t.

Definition with_votes (t : VoteTables X) rows : VoteTables X :=
  MkTables rows (decision_packages t) (approval_rules t) (member_states t) (board_memberships t)
    (vote_electorate t) (vote_exclusions t) (proxy_grants t) (proxy_revocations t) (ballots t)
    (ballot_dispositions t) (idempotency_records t) (pending_action_feed t) (member_feed_sync_counters t)
    (member_feed_sync_positions t) (tables_rest t).
Definition with_grants (t : VoteTables X) rows : VoteTables X :=
  MkTables (votes t) (decision_packages t) (approval_rules t) (member_states t) (board_memberships t)
    (vote_electorate t) (vote_exclusions t) rows (proxy_revocations t) (ballots t)
    (ballot_dispositions t) (idempotency_records t) (pending_action_feed t) (member_feed_sync_counters t)
    (member_feed_sync_positions t) (tables_rest t).
Definition with_revocations (t : VoteTables X) rows : VoteTables X :=
  MkTables (votes t) (decision_packages t) (approval_rules t) (member_states t) (board_memberships t)
    (vote_electorate t) (vote_exclusions t) (proxy_grants t) rows (ballots t)
    (ballot_dispositions t) (idempotency_records t) (pending_action_feed t) (member_feed_sync_counters t)
    (member_feed_sync_positions t) (tables_rest t).
Definition with_ballots (t : VoteTables X) rows : VoteTables X :=
  MkTables (votes t) (decision_packages t) (approval_rules t) (member_states t) (board_memberships t)
    (vote_electorate t) (vote_exclusions t) (proxy_grants t) (proxy_revocations t) rows
    (ballot_dispositions t) (idempotency_records t) (pending_action_feed t) (member_feed_sync_counters t)
    (member_feed_sync_positions t) (tables_rest t).
Definition with_dispositions (t : VoteTables X) rows : VoteTables X :=
  MkTables (votes t) (decision_packages t) (approval_rules t) (member_states t) (board_memberships t)
    (vote_electorate t) (vote_exclusions t) (proxy_grants t) (proxy_revocations t) (ballots t)
    rows (idempotency_records t) (pending_action_feed t) (member_feed_sync_counters t)
    (member_feed_sync_positions t) (tables_rest t).
Definition with_idempotency (t : VoteTables X) rows : VoteTables X :=
  MkTables (votes t) (decision_packages t) (approval_rules t) (member_states t) (board_memberships t)
    (vote_electorate t) (vote_exclusions t) (proxy_grants t) (proxy_revocations t) (ballots t)
    (ballot_dispositions t) rows (pending_action_feed t) (member_feed_sync_counters t)
    (member_feed_sync_positions t) (tables_rest t).
Definition with_feed (t : VoteTables X) rows counters positions : VoteTables X :=
  MkTables (votes t) (decision_packages t) (approval_rules t) (member_states t) (board_memberships t)
    (vote_electorate t) (vote_exclusions t) (proxy_grants t) (proxy_revocations t) (ballots t)
    (ballot_dispositions t) (idempotency_records t) rows counters positions (tables_rest t).

(** A change of the tables of votes. *)
Definition modify (f : VoteTables X -> VoteTables X) : Tx DB unit :=
  db ← get; put (with_rest db (f (rest db))).
End updates.

(** ** Inputs and outcomes *)

Record GrantProxyInput := MkGrantInput {
  gp_organizationId : jsstr;
  gp_voteId : jsstr;
  gp_holderMemberId : jsstr;
  gp_decisionPackageSha256 : jsstr;
  gp_policy : jsstr;
  gp_expiresAt : option jsstr;
  gp_consentRecordId : jsstr;
  gp_proxyGrantId : jsstr;
  gp_idempotencyRecordId : jsstr;
  gp_idempotencyKey : jsstr;
  gp_auditEventId : jsstr
}.

Record RevokeProxyInput := MkRevokeInput {
  rp_organizationId : jsstr;
  rp_voteId : jsstr;
  rp_proxyGrantId : jsstr;
  rp_decisionPackageSha256 : jsstr;
  rp_reason : jsstr;
  rp_consentRecordId : jsstr;
  rp_proxyRevocationId : jsstr;
  rp_idempotencyRecordId : jsstr;
  rp_idempotencyKey : jsstr;
  rp_auditEventId : jsstr
}.

Record CastBallotInput := MkCastInput {
  cb_organizationId : jsstr;
  cb_voteId : jsstr;
  cb_principalMemberId : jsstr;
  cb_decisionPackageSha256 : jsstr;
  cb_choice : jsstr;
  cb_statement : option jsstr;
  cb_proxyGrantId : option jsstr;
  cb_consentRecordId : jsstr;
  cb_ballotId : jsstr;
  cb_supersessionDispositionId : jsstr;
  cb_supersessionAuditEventId : jsstr;
  cb_idempotencyRecordId : jsstr;
  cb_idempotencyKey : jsstr;
  cb_auditEventId : jsstr
}.

(** The first fields are what a replayed request is answered as well. *)
Record GrantProxyResult := MkGrantResult {
  gr_voteId : jsstr;
  gr_proxyGrantId : jsstr;
  gr_responseSha256 : jsstr;
  (** [None] when replayed, else principal, holder, policy and events *)
  gr_granted : option (jsstr * jsstr * jsstr * list AuditEvent)
}.

Record RevokeProxyResult := MkRevokeResult {
  rr_voteId : jsstr;
  rr_proxyGrantId : jsstr;
  rr_proxyRevocationId : jsstr;
  rr_responseSha256 : jsstr;
  rr_revoked : option (list AuditEvent)
}.

Record CastBallotResult := MkCastResult {
  cr_voteId : jsstr;
  cr_ballotId : jsstr;
  cr_principalMemberId : jsstr;
  cr_source : BallotSource;
  cr_responseSha256 : jsstr;
  (** [None] when replayed, else caster, superseded ballot and events *)
  cr_cast : option (jsstr * option jsstr * list AuditEvent)
}.

Record VoteRoot := MkRoot {
  vr_organization : jsstr;
  vr_board : jsstr;
  vr_state : VoteState;
  vr_rowVersion : Z;
  vr_package : jsstr;
  vr_packageSha256 : jsstr;
  vr_proxyPolicy : jsstr;
  vr_deadlineOpen : bool;
  vr_actorReady : bool
}.

Record Participant := MkParticipant {
  pt_member : jsstr;
  pt_votingWeight : Z;
  pt_ready : bool
}.

Inductive VoteOperation := cast_ballot | grant_proxy | revoke_proxy.

Definition operation_text (o : VoteOperation) : jsstr :=
  js match o with cast_ballot => "cast_ballot" | grant_proxy => "grant_proxy" | revoke_proxy => "revoke_proxy" end.

Definition source_text (s : BallotSource) : jsstr := js match s with own => "own" | proxy => "proxy" end.

Definition refuse (code msg : string) : exn := BallotProxyTransactionError code msg.

(** ** Reading *)

Definition validateIdempotencyKey (value : jsstr) : result jsstr :=
  if in_range 16 256 (js_length value) then Ok value
  else Throw (RangeError "idempotency key must contain 16 through 256 characters" []).

Definition uniqueGeneratedIds (values : list jsstr) (label : string) : result (list jsstr) :=
  parsed ← mapR UuidV7Schema values;
  throw_if (negb (Nat.eqb (length (set_of parsed)) (length parsed)))
    (TypeError "must be globally unique" [js label]) ≫= fun _ => Ok parsed.

Section transactions.
Context `{Platform} `{IsoTime} {X : Type} `{!PgClock} `{!SqlAuthority (VoteTables X)} `{!VoteAuthority X}.
Abbreviation DB := (Database (VoteTables X)).
Implicit Types (db : DB) (session : Session).

(** Both statements of the source read the same rows here: the second is a new
    snapshot after the lock, and transactions are one after the other. *)
Definition lockVoteRoot (voteId : jsstr) (requiredScope : string) : Tx DB (option VoteRoot) :=
  session ← ask;
  db ← get;
  let t := rest db in
  let visible organization board := scoped db session organization (Some board) in
  let rows :=
    flat_map (fun v =>
    flat_map (fun p =>
    map (fun r =>
      MkRoot (vt_organization v) (vt_board v) (vt_state v) (vt_rowVersion v) (dp_id p) (dp_packageSha256 p)
        (ru_proxyPolicy r)
        match vt_deadlineAt v with Some deadline => transaction_timestamp session <? deadline | None => false end
        (boardagent_vote_actor_ready_for_scope db session (vt_board v) requiredScope))
      (List.filter (fun r => bool_decide (ru_id r = vt_approvalRule v)
                      && visible (ru_organization r) (ru_board r)) (approval_rules t)))
      (List.filter (fun p => bool_decide (Some (dp_id p) = vt_package v) && bool_decide (dp_vote p = vt_id v)
                      && visible (dp_organization p) (dp_board p)) (decision_packages t)))
      (List.filter (fun v => bool_decide (vt_id v = voteId) && visible (vt_organization v) (vt_board v)) (votes t)) in
  mret match rows with [root] => Some root | _ => None end.

(** [boardagent_lock_board_members]: the memberships and whether they are active
    now. *)
Definition membership_active (db : DB) (clock : Z) (m : MembershipRow) (state : jsstr) : bool :=
  bool_decide (state = js "active") && bool_decide (ms_state m = js "active") && (ms_activeFrom m <=? clock)
  && match ms_activeUntil m with Some until => clock <? until | None => true end.

Definition boardagent_lock_board_members (organization board : jsstr) (ids : list jsstr)
    : Tx DB (list (MembershipRow * bool)) :=
  session ← ask;
  db ← get;
  db_check (bool_decide (transaction_scope session = js "request")
            && bool_decide (boardagent_context_uuid (set_organization_id session) = Some organization)
            && boardagent_context_board_allowed (board_exclusions db) session (Some board)) "25000" ≫= fun _ =>
  db_check (in_range 1 1000 (Z.of_nat (length ids)) && bool_decide (NoDup ids)) "22023" ≫= fun _ =>
  let rows :=
    flat_map (fun m =>
      map (fun p => (m, membership_active db (transaction_timestamp session) m p.2))
        (List.filter (fun p => bool_decide (p.1.1 = ms_organization m) && bool_decide (p.1.2 = ms_member m))
           (member_states (rest db))))
      (List.filter (fun m => bool_decide (ms_organization m = organization) && bool_decide (ms_board m = board)
                      && bool_decide (ms_member m ∈ ids)) (board_memberships (rest db))) in
  mret (toSorted (fun a b => cmp_units (ms_member a.1) (ms_member b.1)) rows).

Definition lockParticipants (organizationId boardId voteId : jsstr) (memberIds : list jsstr)
    : Tx DB (list Participant) :=
  let ids := toSorted cmp_units (set_of memberIds) in
  locked ← boardagent_lock_board_members organizationId boardId ids;
  session ← ask;
  db ← get;
  mret (flat_map (fun l =>
          map (fun e => MkParticipant (ms_member l.1) (el_votingWeight e)
                          (l.2 && bool_decide (ms_seatRole l.1 = js "voting_member") && (0 <? ms_votingWeight l.1)))
            (List.filter (fun e => bool_decide (el_organization e = organizationId)
                            && bool_decide (el_board e = boardId) && bool_decide (el_vote e = voteId)
                            && bool_decide (el_member e = ms_member l.1) && bool_decide (el_member e ∈ ids)
                            && scoped db session (el_organization e) (Some (el_board e)))
               (vote_electorate (rest db)))) locked).

(** The latest exclusion of a member from a vote is one. *)
Definition member_excluded (db : DB) (session : Session) (voteId member : jsstr) : bool :=
  match latest ex_version
          (List.filter (fun e => bool_decide (ex_vote e = voteId) && bool_decide (ex_member e = member)
                          && scoped db session (ex_organization e) (Some (ex_board e)))
             (vote_exclusions (rest db))) with
  | Some e => ex_excluded e
  | None => false
  end.

Definition excludedMembers (voteId : jsstr) (memberIds : list jsstr) : Tx DB (list jsstr) :=
  session ← ask;
  db ← get;
  mret (List.filter (member_excluded db session voteId) (set_of memberIds)).

Record ConsentQuery := MkConsentQuery {
  cq_consentRecordId : jsstr;
  cq_actionCode : jsstr;
  cq_targetType : jsstr;
  cq_targetId : jsstr;
  cq_payloadSha256 : jsstr;
  cq_packageSha256 : jsstr
}.

(** SQL equality of nullable columns. *)
Definition sql_eq (a b : option jsstr) : bool :=
  match a, b with Some x, Some y => bool_decide (x = y) | _, _ => false end.

Definition consent_matches (session : Session) (q : ConsentQuery) (c : ConsentRow) : bool :=
  bool_decide (cn_id c = cq_consentRecordId q)
  && bool_decide (boardagent_context_uuid (set_organization_id session) = Some (cn_organization c))
  && bool_decide (boardagent_context_uuid (set_member_id session) = Some (cn_actor c))
  && bool_decide (boardagent_context_uuid (set_client_id session) = Some (cn_client c))
  && bool_decide (boardagent_context_uuid (set_token_jti session) = Some (cn_tokenJti c))
  && bool_decide (cn_actionCode c = cq_actionCode q) && bool_decide (cn_targetType c = cq_targetType q)
  && bool_decide (cn_targetId c = Some (cq_targetId q)) && bool_decide (cn_payloadSha256 c = cq_payloadSha256 q)
  && bool_decide (cn_packageSha256 c = Some (cq_packageSha256 q)).

Definition stage_confirms (c : ConsentRow) (s : StageRow) : bool :=
  let b := binding s in
  bool_decide (st_id b = cn_stage c) && bool_decide (st_organization b = cn_organization c)
  && sql_eq (st_board b) (cn_board c) && bool_decide (st_actor b = cn_actor c)
  && bool_decide (st_client b = cn_client c) && bool_decide (st_tokenJti b = cn_tokenJti c)
  && bool_decide (st_actionCode b = cn_actionCode c) && bool_decide (st_targetType b = cn_targetType c)
  && sql_eq (st_targetId b) (cn_targetId c) && bool_decide (st_payloadSha256 b = cn_payloadSha256 c)
  && sql_eq (st_packageSha256 b) (cn_packageSha256 c)
  && bool_decide (st_state s = stage_confirmed) && is_some (st_confirmedAt s).

Definition attempt_confirms (q : ConsentQuery) (c : ConsentRow) (s : StageRow) (a : AttemptRow) : bool :=
  bool_decide (at_id a = cn_attempt c) && bool_decide (at_organization a = cn_organization c)
  && bool_decide (at_stage a = st_id (binding s)) && bool_decide (at_originalName a = cq_actionCode q)
  && bool_decide (at_responseAction a = Some (js "accept")) && bool_decide (at_state a = attempt_confirmed).

Definition consentValid (q : ConsentQuery) : Tx DB bool :=
  session ← ask;
  db ← get;
  mret (existsb (fun c =>
          scoped db session (cn_organization c) (cn_board c) && consent_matches session q c
          && existsb (fun s =>
               stage_visible db session (binding s) && stage_confirms c s
               && existsb (fun a => attempt_visible session a && attempt_confirms q c s a)
                    (input_required_attempts db)) (action_stages db)) (consent_records db)).

(** ** Idempotency *)

Definition readIdempotency (actorMemberId clientId : jsstr) (operation : VoteOperation) (key : jsstr)
    : Tx DB (option IdempotencyRow) :=
  fail_if (negb (pg_takes key)) (DatabaseError "22021") ≫= fun _ =>
  session ← ask;
  db ← get;
  mret (List.find (fun r => bool_decide (im_actor r = actorMemberId) && bool_decide (im_client r = clientId)
                     && bool_decide (im_operation r = operation_text operation)
                     && bool_decide (im_key r = pg_text key) && scoped db session (im_organization r) None)
          (idempotency_records (rest db))).

(** The response of a request that was answered: its identifier and digest. *)
Definition checkedReplay (row : option IdempotencyRow) (requestSha256 : jsstr) : result (option (jsstr * jsstr)) :=
  match row with
  | None => Ok None
  | Some r =>
      throw_if (negb (safeHashEqual (im_requestSha256 r) requestSha256))
        (refuse "idempotency_conflict" "idempotency key was already used for a different vote action") ≫= fun _ =>
      match im_state r, im_response r with
      | idem_succeeded, Some (_, id, responseSha256) => Ok (Some (id, responseSha256))
      | _, _ => Throw (refuse "idempotency_in_progress" "identical vote action is already in progress")
      end
  end.

Definition same_idempotency_key (a b : IdempotencyRow) : bool :=
  bool_decide (im_actor a = im_actor b) && bool_decide (im_client a = im_client b)
  && bool_decide (im_operation a = im_operation b) && bool_decide (im_key a = im_key b).

(** The [insert .. on conflict do nothing]: whether a row was inserted. *)
Definition insert_idempotency_record (r : IdempotencyRow) : Tx DB bool :=
  session ← ask;
  db ← get;
  let rows := idempotency_records (rest db) in
  db_check (scoped db session (im_organization r) None) "42501" ≫= fun _ =>
  db_check (in_range 16 256 (sql_length (im_key r))) "23514" ≫= fun _ =>
  if existsb (same_idempotency_key r) rows then mret false else
  db_check (bool_decide (im_id r ∉ map im_id rows)) "23505" ≫= fun _ =>
  db_check (bool_decide ((im_organization r, im_actor r) ∈ members_table db)
            && bool_decide (im_client r ∈ map fst (oauth_clients db))) "23503" ≫= fun _ =>
  modify (fun t => with_idempotency t (rows ++ [r])) ≫= fun _ =>
  mret true.

Definition insertIdempotency (id organizationId actorMemberId clientId : jsstr) (operation : VoteOperation)
    (key requestSha256 : jsstr) : Tx DB unit :=
  inserted ← insert_idempotency_record
               (MkIdempotency id organizationId actorMemberId clientId (operation_text operation) (pg_text key)
                  requestSha256 in_progress None None);
  row ← readIdempotency actorMemberId clientId operation key;
  match row with
  | None => fail (JsError "vote-action idempotency record disappeared" [])
  | Some r =>
      (if inserted : bool then mret tt
       else lift (checkedReplay row requestSha256) ≫= fun _ => mret tt) ≫= fun _ =>
      fail_if (negb (safeHashEqual (im_requestSha256 r) requestSha256))
        (refuse "idempotency_conflict" "vote-action idempotency record does not bind this request")
  end.

Definition finished_record (response : jsstr * jsstr * jsstr) (clock : Z) (r : IdempotencyRow) : IdempotencyRow :=
  MkIdempotency (im_id r) (im_organization r) (im_actor r) (im_client r) (im_operation r) (im_key r)
    (im_requestSha256 r) idem_succeeded (Some response) (Some clock).

Definition unfinished (db : DB) (session : Session) (id : jsstr) (r : IdempotencyRow) : bool :=
  bool_decide (im_id r = id) && bool_decide (im_state r = in_progress) && scoped db session (im_organization r) None.

Definition finishIdempotency (id safeResponseType safeResponseId responseSha256 : jsstr) : Tx DB unit :=
  session ← ask;
  db ← get;
  let hit := unfinished db session id in
  let rows := idempotency_records (rest db) in
  modify (fun t => with_idempotency t
    (map (fun r => if hit r then finished_record (safeResponseType, safeResponseId, responseSha256)
                                   (transaction_timestamp session) r else r) rows)) ≫= fun _ =>
  fail_if (negb (Nat.eqb (length (List.filter hit rows)) 1))
    (JsError "vote-action idempotency completion failed" []).

(** ** Writing *)

Definition next_version (v : VoteRow) : VoteRow :=
  MkVote (vt_id v) (vt_organization v) (vt_board v) (vt_state v) (vt_rowVersion v + 1) (vt_package v)
    (vt_approvalRule v) (vt_deadlineAt v) (vt_title v) (vt_resolution v).

(** The guards of [votes] on an update see that the state stays and that the
    version moves by one. *)
Definition vote_at (db : DB) (session : Session) (voteId : jsstr) (rowVersion : Z) (permittedStates : list VoteState)
    (v : VoteRow) : bool :=
  bool_decide (vt_id v = voteId) && (vt_rowVersion v =? rowVersion) && bool_decide (vt_state v ∈ permittedStates)
  && scoped db session (vt_organization v) (Some (vt_board v)).

Definition advanceVoteVersion (voteId : jsstr) (rowVersion : Z) (permittedStates : list VoteState) : Tx DB Z :=
  session ← ask;
  db ← get;
  let hit := vote_at db session voteId rowVersion permittedStates in
  let rows := votes (rest db) in
  db_check (negb (existsb hit rows) || (rowVersion <? MAX_BIGINT)) "22003" ≫= fun _ =>
  modify (fun t => with_votes t (map (fun v => if hit v then next_version v else v) rows)) ≫= fun _ =>
  match List.filter hit rows with
  | [v] => mret (vt_rowVersion v + 1)
  | _ => fail (refuse "ballot_unavailable" "vote changed during the confirmed action")
  end.

Definition elector_exists (t : VoteTables X) (vote member : jsstr) : bool :=
  existsb (fun e => bool_decide (el_vote e = vote) && bool_decide (el_member e = member)) (vote_electorate t).

Definition insert_proxy_grant (g : GrantRow) : Tx DB unit :=
  session ← ask;
  db ← get;
  let t := rest db in
  let rows := proxy_grants t in
  db_check (scoped db session (pg_organization g) (Some (pg_board g))) "42501" ≫= fun _ =>
  db_check (bool_decide (pg_policy g ∈ map js ["principal_supersedes_proxy"; "first_ballot_final"]%string)
            && negb (bool_decide (pg_principal g = pg_holder g))
            && opt_all (fun e => pg_grantedAt g <? e) (pg_expiresAt g)) "23514" ≫= fun _ =>
  db_check (forallb (fun r => negb (bool_decide (pg_id r = pg_id g))
              && negb (bool_decide (pg_consent r = pg_consent g))
              && negb (bool_decide (pg_vote r = pg_vote g) && bool_decide (pg_principal r = pg_principal g))) rows)
    "23505" ≫= fun _ =>
  db_check (elector_exists t (pg_vote g) (pg_principal g) && elector_exists t (pg_vote g) (pg_holder g)
            && bool_decide ((pg_organization g, pg_principal g) ∈ members_table db)
            && bool_decide ((pg_organization g, pg_holder g) ∈ members_table db)
            && bool_decide (pg_consent g ∈ map cn_id (consent_records db))) "23503" ≫= fun _ =>
  modify (fun t => with_grants t (rows ++ [g])).

Definition insert_proxy_revocation (r : RevocationRow) : Tx DB unit :=
  session ← ask;
  db ← get;
  let t := rest db in
  let rows := proxy_revocations t in
  db_check (scoped db session (pr_organization r) None) "42501" ≫= fun _ =>
  db_check (in_range 1 65536 (sql_length (pr_reason r))) "23514" ≫= fun _ =>
  db_check (forallb (fun q => negb (bool_decide (pr_id q = pr_id r)) && negb (bool_decide (pr_grant q = pr_grant r)))
              rows) "23505" ≫= fun _ =>
  db_check (bool_decide (pr_grant r ∈ map pg_id (proxy_grants t))
            && bool_decide ((pr_organization r, pr_revoker r) ∈ members_table db)
            && opt_all (fun c => bool_decide (c ∈ map cn_id (consent_records db))) (pr_consent r)) "23503" ≫= fun _ =>
  modify (fun t => with_revocations t (rows ++ [r])).

(** The ballot and the grant it cites ([ballots_proxy_relationship_fk]). *)
Definition grant_backs (b : BallotRow) (g : GrantRow) : bool :=
  bool_decide (Some (pg_id g) = bl_proxyGrant b) && bool_decide (pg_vote g = bl_vote b)
  && bool_decide (pg_principal g = bl_principal b) && bool_decide (pg_holder g = bl_caster b).

Definition ballot_check (b : BallotRow) : bool :=
  bool_decide (bl_choice b ∈ map js ["yes"; "no"; "abstain"]%string)
  && in_range 1 1000000000 (bl_votingWeight b)
  && opt_all (fun s => sql_length s <=? 500) (bl_statement b)
  && eqb (is_some (bl_statement b)) (is_some (bl_statementSha256 b))
  && match bl_source b with
     | own => bool_decide (bl_principal b = bl_caster b) && is_null (bl_proxyGrant b)
     | proxy => negb (bool_decide (bl_principal b = bl_caster b)) && is_some (bl_proxyGrant b)
     end.

Definition insert_ballot (b : BallotRow) : Tx DB unit :=
  session ← ask;
  db ← get;
  let t := rest db in
  let rows := ballots t in
  db_check (opt_all pg_takes (bl_statement b)) "22021" ≫= fun _ =>
  db_check (scoped db session (bl_organization b) (Some (bl_board b))) "42501" ≫= fun _ =>
  db_check (ballot_check b) "23514" ≫= fun _ =>
  db_check (forallb (fun r => negb (bool_decide (bl_id r = bl_id b)) && negb (bool_decide (bl_consent r = bl_consent b)))
              rows) "23505" ≫= fun _ =>
  db_check (existsb (fun p => bool_decide (dp_vote p = bl_vote b) && bool_decide (dp_id p = bl_package b))
              (decision_packages t)
            && elector_exists t (bl_vote b) (bl_principal b)
            && bool_decide ((bl_organization b, bl_caster b) ∈ members_table db)
            && (is_null (bl_proxyGrant b) || existsb (grant_backs b) (proxy_grants t))
            && bool_decide (bl_consent b ∈ map cn_id (consent_records db))) "23503" ≫= fun _ =>
  modify (fun t => with_ballots t (rows ++ [b])).

(** Row security of a disposition by which the own ballot of a principal
    supersedes a proxy ballot (0020); the reference to the audit event is
    checked when the transaction commits. *)
Definition principal_disposition_allowed (db : DB) (session : Session) (d : DispositionRow) : bool :=
  bool_decide (bd_effect d = superseded) && is_null (bd_replacementVote d)
  && existsb (fun p =>
       bool_decide (bl_id p = bd_prior d) && bool_decide (bl_source p = proxy)
       && scoped db session (bl_organization p) (Some (bl_board p))
       && existsb (fun n =>
            bool_decide (Some (bl_id n) = bd_superseding d) && bool_decide (bl_vote n = bl_vote p)
            && bool_decide (bl_principal n = bl_principal p) && bool_decide (bl_source n = own)
            && bool_decide (bl_caster n = bl_principal n)
            && scoped db session (bl_organization n) (Some (bl_board n))
            && boardagent_vote_actor_ready_for_scope db session (bl_board n) "vote:act") (ballots (rest db)))
       (ballots (rest db)).

Definition insert_disposition (d : DispositionRow) : Tx DB unit :=
  session ← ask;
  db ← get;
  let t := rest db in
  let rows := ballot_dispositions t in
  db_check (principal_disposition_allowed db session d) "42501" ≫= fun _ =>
  db_check (in_range 1 65536 (sql_length (bd_reason d)) && negb (bool_decide (bd_superseding d = Some (bd_prior d))))
    "23514" ≫= fun _ =>
  db_check (forallb (fun r => negb (bool_decide (bd_id r = bd_id d)) && negb (bool_decide (bd_prior r = bd_prior d))) rows)
    "23505" ≫= fun _ =>
  modify (fun t => with_dispositions t (rows ++ [d])).

(** [insert .. on conflict do update] of a keyed list. *)
Fixpoint upsert {A} (same : A -> bool) (change : A -> A) (new : A) (rows : list A) : list A :=
  match rows with
  | [] => [new]
  | r :: rows' => if same r then change r :: rows' else r :: upsert same change new rows'
  end.

(** [boardagent_track_feed_sync_position] for a changed row of the feed. *)
Definition track_feed_sync_position (f : FeedRow) (st : list (jsstr * jsstr * Z) * list SyncRow)
    : list (jsstr * jsstr * Z) * list SyncRow :=
  let '(counters, positions) := st in
  let mine c := bool_decide (c.1 = (fd_organization f, fd_member f)) in
  let counters := upsert mine (fun c => (c.1, c.2 + 1)) (fd_organization f, fd_member f, 1) counters in
  let sequence := match List.find mine counters with Some c => c.2 | None => 0 end in
  (counters,
   upsert (fun s => bool_decide (sy_kind s = js "feed") && bool_decide (sy_entry s = fd_id f))
     (fun s => MkSync (sy_organization s) (sy_board s) (sy_member s) (sy_kind s) (sy_entry s) sequence)
     (MkSync (fd_organization f) (fd_board f) (fd_member f) (js "feed") (fd_id f) sequence) positions).

Definition resolved_feed (clock : Z) (f : FeedRow) : FeedRow :=
  MkFeedRow (fd_id f) (fd_organization f) (fd_board f) (fd_member f) (fd_actionType f) (fd_objectType f)
    (fd_objectId f) feed_resolved (Some clock).

(** The pending actions of a principal that a ballot resolves. *)
Definition resolved_by (db : DB) (session : Session) (boardId memberId voteId : jsstr) (f : FeedRow) : bool :=
  bool_decide (fd_board f = boardId) && bool_decide (fd_member f = memberId)
  && bool_decide (fd_objectType f = js "vote") && bool_decide (fd_objectId f = voteId)
  && bool_decide (fd_state f = feed_pending)
  && bool_decide (fd_actionType f ∈ map js ["vote_opened"; "revote_required"; "recusal_changed"]%string)
  && scoped db session (fd_organization f) (Some (fd_board f))
  && negb (boardagent_member_record_recused db session (fd_objectType f) (fd_objectId f)).

Definition resolve_feed (boardId memberId voteId : jsstr) : Tx DB unit :=
  session ← ask;
  db ← get;
  let t := rest db in
  let hit := resolved_by db session boardId memberId voteId in
  let '(counters, positions) :=
    foldl (fun st f => track_feed_sync_position f st) (member_feed_sync_counters t, member_feed_sync_positions t)
      (List.filter hit (pending_action_feed t)) in
  modify (fun t => with_feed t (map (fun f => if hit f then resolved_feed (transaction_timestamp session) f else f)
                                  (pending_action_feed t)) counters positions).

(** ** The transactions *)

(** The proxy grants and whether each is active now. *)
Definition grant_active (t : VoteTables X) (session : Session) (g : GrantRow) : bool :=
  negb (existsb (fun r => bool_decide (pr_grant r = pg_id g)
                  && bool_decide (boardagent_context_uuid (set_organization_id session) = Some (pr_organization r)))
          (proxy_revocations t))
  && match pg_expiresAt g with Some e => transaction_timestamp session <? e | None => true end.

Definition visible_grants (db : DB) (session : Session) (voteId : jsstr) : list GrantRow :=
  List.filter (fun g => bool_decide (pg_vote g = voteId) && scoped db session (pg_organization g) (Some (pg_board g)))
    (proxy_grants (rest db)).

(** The root of the request: the vote locked in the organization of the caller. *)
Definition lock_vote (voteId organizationId : jsstr) (scope : string) (unavailable : exn) : Tx DB VoteRoot :=
  vote ← lockVoteRoot voteId scope;
  match vote with
  | Some root => if bool_decide (vr_organization root = organizationId) then mret root else fail unavailable
  | None => fail unavailable
  end.

Definition grant_event (input : GrantProxyInput) (context : ActiveRequestContext) (root : VoteRoot)
    (auditEventId : jsstr) (objectVersion : Z) : AuditAppendInput :=
  MkAppend (gp_organizationId input)
    (new_event auditEventId (js "proxy_granted") context (js "proxy_grant") (gp_proxyGrantId input)
       (Some (vr_board root))
       [str "voteId" (gp_voteId input); str "principalMemberId" (ac_memberId context);
        str "holderMemberId" (gp_holderMemberId input); str "policy" (gp_policy input);
        nullable "expiresAt" (gp_expiresAt input); str "decisionPackageId" (vr_package root);
        str "packageSha256" (gp_decisionPackageSha256 input)])
    None (Some (gp_consentRecordId input)) (Some objectVersion).

Definition grant_request (input : GrantProxyInput) (principalMemberId : jsstr) : result jsstr :=
  canonicalSha256 (JObj [str "schemaVersion" (js "boardagent.proxy-grant-request.v1");
    str "organizationId" (gp_organizationId input); str "voteId" (gp_voteId input);
    str "principalMemberId" principalMemberId; str "holderMemberId" (gp_holderMemberId input);
    str "policy" (gp_policy input); nullable "expiresAt" (gp_expiresAt input);
    str "decisionPackageSha256" (gp_decisionPackageSha256 input);
    str "consentRecordId" (gp_consentRecordId input)]).

Definition grant_response (input : GrantProxyInput) (principalMemberId : jsstr) (objectVersion : Z) : result jsstr :=
  canonicalSha256 (JObj [str "schemaVersion" (js "boardagent.proxy-grant-result.v1");
    str "voteId" (gp_voteId input); str "proxyGrantId" (gp_proxyGrantId input);
    str "principalMemberId" principalMemberId; str "holderMemberId" (gp_holderMemberId input);
    str "policy" (gp_policy input); str "objectVersion" (dec objectVersion)]).

(** [policy] is one of the two of its type, or [proxyGrantConsentHash] throws;
    a schema answers the text it was given. *)
Definition grantProxyInTransaction (input : GrantProxyInput) : Tx DB GrantProxyResult :=
  organizationId ← lift (UuidV7Schema (gp_organizationId input));
  voteId ← lift (UuidV7Schema (gp_voteId input));
  holderMemberId ← lift (UuidV7Schema (gp_holderMemberId input));
  decisionPackageSha256 ← lift (Sha256HexSchema (gp_decisionPackageSha256 input));
  expiresAt ← lift (parse_nullable Rfc3339UtcSchema (gp_expiresAt input));
  consentRecordId ← lift (UuidV7Schema (gp_consentRecordId input));
  lift (uniqueGeneratedIds [gp_proxyGrantId input; gp_idempotencyRecordId input; gp_auditEventId input]
          "proxy-grant generated IDs") ≫= fun _ =>
  idempotencyKey ← lift (validateIdempotencyKey (gp_idempotencyKey input));
  session ← ask;
  context ← lift (readRequestContext session);
  let unavailable := refuse "proxy_unavailable" "proxy grant is unavailable" in
  fail_if (negb (bool_decide (ac_organizationId context = organizationId))) unavailable ≫= fun _ =>
  let principalMemberId := ac_memberId context in
  consentPayloadSha256 ← lift (proxyGrantConsentHash
    (ProxyGrant.MkInput voteId principalMemberId holderMemberId (gp_policy input) expiresAt decisionPackageSha256));
  requestSha256 ← lift (grant_request input principalMemberId);
  vote ← lock_vote voteId organizationId "proxy:manage" unavailable;
  row ← readIdempotency (ac_memberId context) (ac_clientId context) grant_proxy idempotencyKey;
  replay ← lift (checkedReplay row requestSha256);
  match replay with
  | Some (id, responseSha256) => mret (MkGrantResult voteId id responseSha256 None)
  | None =>
      fail_if (negb (bool_decide (vr_state vote = VoteState_open)) || negb (vr_deadlineOpen vote)
               || negb (vr_actorReady vote) || negb (bool_decide (vr_proxyPolicy vote = gp_policy input))
               || negb (safeHashEqual (vr_packageSha256 vote) decisionPackageSha256)) unavailable ≫= fun _ =>
      participants ← lockParticipants organizationId (vr_board vote) voteId [principalMemberId; holderMemberId];
      fail_if (negb (Nat.eqb (length participants) 2) || existsb (fun p => negb (pt_ready p)) participants)
        unavailable ≫= fun _ =>
      exclusions ← excludedMembers voteId [principalMemberId; holderMemberId];
      fail_if (negb (Nat.eqb (length exclusions) 0)) unavailable ≫= fun _ =>
      valid ← consentValid (MkConsentQuery consentRecordId (js "grant_proxy") (js "vote") voteId
                              consentPayloadSha256 decisionPackageSha256);
      fail_if (negb valid) unavailable ≫= fun _ =>
      expiry ← match expiresAt with
               | None => mret None
               | Some text => match pg_timestamptz text with
                              | Some t => mret (Some t)
                              | None => fail (DatabaseError "22007")
                              end
               end;
      fail_if (negb (opt_all (fun t => transaction_timestamp session <? t) expiry))
        (refuse "proxy_invalid" "proxy expiry must remain in the future") ≫= fun _ =>
      db ← get;
      let relationships := visible_grants db session voteId in
      fail_if (existsb (fun g => bool_decide (pg_principal g = principalMemberId)) relationships)
        (refuse "proxy_invalid" "principal already has immutable proxy history for this vote") ≫= fun _ =>
      let active := List.filter (grant_active (rest db) session) relationships in
      fail_if (existsb (fun g => bool_decide (pg_principal g = holderMemberId)) active
               || existsb (fun g => bool_decide (pg_holder g = principalMemberId)) active)
        (refuse "proxy_invalid" "proxy chain or cycle is forbidden") ≫= fun _ =>
      insertIdempotency (gp_idempotencyRecordId input) organizationId (ac_memberId context) (ac_clientId context)
        grant_proxy idempotencyKey requestSha256 ≫= fun _ =>
      insert_proxy_grant (MkGrant (gp_proxyGrantId input) organizationId (vr_board vote) voteId principalMemberId
        holderMemberId (gp_policy input) consentRecordId (transaction_timestamp session) expiry) ≫= fun _ =>
      objectVersion ← advanceVoteVersion voteId (vr_rowVersion vote) [VoteState_open];
      auditEvents ← appendAuditEventsInTransaction
                      [grant_event input context vote (gp_auditEventId input) objectVersion];
      responseSha256 ← lift (grant_response input principalMemberId objectVersion);
      finishIdempotency (gp_idempotencyRecordId input) (js "proxy_grant") (gp_proxyGrantId input) responseSha256
        ≫= fun _ =>
      mret (MkGrantResult voteId (gp_proxyGrantId input) responseSha256
              (Some (principalMemberId, holderMemberId, gp_policy input, auditEvents)))
  end.

Definition revoke_event (input : RevokeProxyInput) (context : ActiveRequestContext) (root : VoteRoot)
    (reason : jsstr) (objectVersion : Z) : AuditAppendInput :=
  MkAppend (rp_organizationId input)
    (new_event (rp_auditEventId input) (js "proxy_revoked") context (js "proxy_grant") (rp_proxyGrantId input)
       (Some (vr_board root))
       [str "voteId" (rp_voteId input); str "proxyGrantId" (rp_proxyGrantId input);
        str "proxyRevocationId" (rp_proxyRevocationId input); str "principalMemberId" (ac_memberId context);
        str "effect" (js "revoked"); str "reasonSha256" (sha256Hex reason);
        str "packageSha256" (rp_decisionPackageSha256 input)])
    None (Some (rp_consentRecordId input)) (Some objectVersion).

Definition revoke_request (input : RevokeProxyInput) (principalMemberId reason : jsstr) : result jsstr :=
  canonicalSha256 (JObj [str "schemaVersion" (js "boardagent.proxy-revoke-request.v1");
    str "organizationId" (rp_organizationId input); str "voteId" (rp_voteId input);
    str "proxyGrantId" (rp_proxyGrantId input); str "principalMemberId" principalMemberId; str "reason" reason;
    str "decisionPackageSha256" (rp_decisionPackageSha256 input);
    str "consentRecordId" (rp_consentRecordId input)]).

Definition revoke_response (input : RevokeProxyInput) (objectVersion : Z) : result jsstr :=
  canonicalSha256 (JObj [str "schemaVersion" (js "boardagent.proxy-revoke-result.v1");
    str "voteId" (rp_voteId input); str "proxyGrantId" (rp_proxyGrantId input);
    str "proxyRevocationId" (rp_proxyRevocationId input); str "effect" (js "revoked");
    str "objectVersion" (dec objectVersion)]).

Definition revokeProxyInTransaction (input : RevokeProxyInput) : Tx DB RevokeProxyResult :=
  organizationId ← lift (UuidV7Schema (rp_organizationId input));
  voteId ← lift (UuidV7Schema (rp_voteId input));
  proxyGrantId ← lift (UuidV7Schema (rp_proxyGrantId input));
  decisionPackageSha256 ← lift (Sha256HexSchema (rp_decisionPackageSha256 input));
  reason ← lift (canonicalText (rp_reason input));
  fail_if (negb (in_range 1 65536 (js_length reason)))
    (RangeError "proxy revocation reason must contain 1 through 65536 characters" []) ≫= fun _ =>
  consentRecordId ← lift (UuidV7Schema (rp_consentRecordId input));
  lift (uniqueGeneratedIds [rp_proxyRevocationId input; rp_idempotencyRecordId input; rp_auditEventId input]
          "proxy-revoke generated IDs") ≫= fun _ =>
  idempotencyKey ← lift (validateIdempotencyKey (rp_idempotencyKey input));
  session ← ask;
  context ← lift (readRequestContext session);
  let unavailable := refuse "proxy_unavailable" "proxy revocation is unavailable" in
  fail_if (negb (bool_decide (ac_organizationId context = organizationId))) unavailable ≫= fun _ =>
  let principalMemberId := ac_memberId context in
  consentPayloadSha256 ← lift (proxyRevokeConsentHash
    (ProxyRevoke.MkInput voteId proxyGrantId principalMemberId reason decisionPackageSha256));
  requestSha256 ← lift (revoke_request input principalMemberId reason);
  vote ← lock_vote voteId organizationId "proxy:manage" unavailable;
  row ← readIdempotency (ac_memberId context) (ac_clientId context) revoke_proxy idempotencyKey;
  replay ← lift (checkedReplay row requestSha256);
  match replay with
  | Some (id, responseSha256) => mret (MkRevokeResult voteId proxyGrantId id responseSha256 None)
  | None =>
      fail_if (negb (bool_decide (vr_state vote ∈ [VoteState_open; VoteState_source_update_pending]))
               || negb (vr_actorReady vote) || negb (safeHashEqual (vr_packageSha256 vote) decisionPackageSha256))
        unavailable ≫= fun _ =>
      db ← get;
      let owned := List.filter (fun g => bool_decide (pg_id g = proxyGrantId)
                                  && bool_decide (pg_principal g = principalMemberId)) (visible_grants db session voteId) in
      fail_if (match owned with [g] => negb (grant_active (rest db) session g) | _ => true end)
        (refuse "proxy_invalid" "active owned proxy grant is unavailable") ≫= fun _ =>
      valid ← consentValid (MkConsentQuery consentRecordId (js "revoke_proxy") (js "proxy_grant") proxyGrantId
                              consentPayloadSha256 decisionPackageSha256);
      fail_if (negb valid) unavailable ≫= fun _ =>
      insertIdempotency (rp_idempotencyRecordId input) organizationId (ac_memberId context) (ac_clientId context)
        revoke_proxy idempotencyKey requestSha256 ≫= fun _ =>
      fail_if (negb (pg_takes reason)) (DatabaseError "22021") ≫= fun _ =>
      insert_proxy_revocation (MkRevocation (rp_proxyRevocationId input) organizationId proxyGrantId principalMemberId
        reason (js "revoked") (Some consentRecordId) (transaction_timestamp session)) ≫= fun _ =>
      objectVersion ← advanceVoteVersion voteId (vr_rowVersion vote) [VoteState_open; VoteState_source_update_pending];
      auditEvents ← appendAuditEventsInTransaction [revoke_event input context vote reason objectVersion];
      responseSha256 ← lift (revoke_response input objectVersion);
      finishIdempotency (rp_idempotencyRecordId input) (js "proxy_revocation") (rp_proxyRevocationId input)
        responseSha256 ≫= fun _ =>
      mret (MkRevokeResult voteId proxyGrantId (rp_proxyRevocationId input) responseSha256 (Some auditEvents))
  end.

Definition cast_request (input : CastBallotInput) (casterMemberId : jsstr) (statement : option jsstr) : result jsstr :=
  canonicalSha256 (JObj [str "schemaVersion" (js "boardagent.ballot-request.v1");
    str "organizationId" (cb_organizationId input); str "voteId" (cb_voteId input);
    str "principalMemberId" (cb_principalMemberId input); str "casterMemberId" casterMemberId;
    str "choice" (cb_choice input); nullable "statement" statement;
    nullable "proxyGrantId" (cb_proxyGrantId input);
    str "decisionPackageSha256" (cb_decisionPackageSha256 input);
    str "consentRecordId" (cb_consentRecordId input)]).

Definition cast_response (input : CastBallotInput) (casterMemberId : jsstr) (source : BallotSource)
    (statementSha256 supersededBallotId : option jsstr) (objectVersion : Z) : result jsstr :=
  canonicalSha256 (JObj [str "schemaVersion" (js "boardagent.ballot-result.v1");
    str "voteId" (cb_voteId input); str "ballotId" (cb_ballotId input);
    str "principalMemberId" (cb_principalMemberId input); str "casterMemberId" casterMemberId;
    str "choice" (cb_choice input); nullable "statementSha256" statementSha256;
    str "source" (source_text source); nullable "proxyGrantId" (cb_proxyGrantId input);
    nullable "supersededBallotId" supersededBallotId; str "objectVersion" (dec objectVersion)]).

Definition superseded_event (input : CastBallotInput) (context : ActiveRequestContext) (root : VoteRoot)
    (priorBallotId : jsstr) (objectVersion : Z) : AuditAppendInput :=
  MkAppend (cb_organizationId input)
    (new_event (cb_supersessionAuditEventId input) (js "ballot_superseded") context (js "ballot") priorBallotId
       (Some (vr_board root))
       [str "voteId" (cb_voteId input); str "priorBallotId" priorBallotId;
        str "supersedingBallotId" (cb_ballotId input);
        str "reasonClass" (js "principal_direct_precedence")])
    None (Some (cb_consentRecordId input)) (Some objectVersion).

Definition cast_event (input : CastBallotInput) (context : ActiveRequestContext) (root : VoteRoot)
    (source : BallotSource) (statementSha256 : option jsstr) (votingWeight objectVersion : Z) : AuditAppendInput :=
  MkAppend (cb_organizationId input)
    (new_event (cb_auditEventId input) (js "ballot_cast") context (js "ballot") (cb_ballotId input)
       (Some (vr_board root))
       [str "voteId" (cb_voteId input); str "decisionPackageId" (vr_package root);
        str "packageSha256" (cb_decisionPackageSha256 input);
        str "principalMemberId" (cb_principalMemberId input); str "casterMemberId" (ac_memberId context);
        str "choice" (cb_choice input); nullable "statementSha256" statementSha256;
        int_member "votingWeight" votingWeight; str "source" (source_text source);
        nullable "proxyGrantId" (cb_proxyGrantId input)])
    (if bool_decide (source = proxy) then Some (cb_principalMemberId input) else None)
    (Some (cb_consentRecordId input)) (Some objectVersion).

(** The grant that a proxy ballot cites. *)
Definition check_proxy (input : CastBallotInput) (source : BallotSource) (casterMemberId : jsstr) (root : VoteRoot)
    (unavailable : exn) : Tx DB unit :=
  session ← ask;
  db ← get;
  match source, cb_proxyGrantId input with
  | own, None => mret tt
  | own, Some _ => fail (refuse "ballot_invalid" "own ballot cannot cite a proxy grant")
  | proxy, None => fail (refuse "ballot_invalid" "proxy ballot requires a grant")
  | proxy, Some id =>
      let found := List.filter (fun g => bool_decide (pg_id g = id)
                                  && bool_decide (pg_principal g = cb_principalMemberId input)
                                  && bool_decide (pg_holder g = casterMemberId))
                     (visible_grants db session (cb_voteId input)) in
      fail_if (match found with
               | [g] => negb (grant_active (rest db) session g)
                        || negb (bool_decide (pg_policy g = vr_proxyPolicy root))
               | _ => true
               end) unavailable
  end.

(** A ballot without a disposition is effective. *)
Definition effective (t : VoteTables X) (b : BallotRow) : bool :=
  negb (existsb (fun d => bool_decide (bd_prior d = bl_id b)) (ballot_dispositions t)).

(** The effective ballot of the principal that this one supersedes, if any. *)
Definition supersedes (root : VoteRoot) (source : BallotSource) (active : BallotRow) : bool :=
  bool_decide (source = own) && bool_decide (bl_source active = proxy)
  && bool_decide (vr_proxyPolicy root = js "principal_supersedes_proxy").

Definition active_ballots (db : DB) (session : Session) (voteId principalMemberId : jsstr) : list BallotRow :=
  List.filter (fun b => bool_decide (bl_vote b = voteId) && bool_decide (bl_principal b = principalMemberId)
                 && effective (rest db) b && scoped db session (bl_organization b) (Some (bl_board b)))
    (ballots (rest db)).

Definition superseded_ballot (input : CastBallotInput) (root : VoteRoot) (source : BallotSource)
    : Tx DB (option BallotRow) :=
  session ← ask;
  db ← get;
  match active_ballots db session (cb_voteId input) (cb_principalMemberId input) with
  | [] => mret None
  | [active] =>
      if supersedes root source active then mret (Some active)
      else fail (refuse "ballot_invalid" "principal already has an effective ballot under the frozen precedence rule")
  | _ => fail (JsError "multiple effective ballots violate invariants" [])
  end.

(** What follows once the ballot was found admissible. *)
Definition write_ballot (input : CastBallotInput) (context : ActiveRequestContext) (root : VoteRoot)
    (source : BallotSource) (statement : option jsstr) (votingWeight : Z) (prior : option BallotRow)
    : Tx DB (Z * list AuditEvent) :=
  session ← ask;
  let statementSha256 := sha256Hex <$> statement in
  insert_ballot (MkBallotRow (cb_ballotId input) (cb_organizationId input) (vr_board root) (cb_voteId input)
    (vr_package root) (cb_principalMemberId input) (ac_memberId context) (cb_choice input) statement statementSha256
    votingWeight source (cb_proxyGrantId input) (cb_consentRecordId input) (transaction_timestamp session)) ≫= fun _ =>
  match prior with
  | None => mret tt
  | Some active =>
      insert_disposition (MkDisposition (cb_supersessionDispositionId input) (bl_id active) (Some (cb_ballotId input))
        None (js "principal direct ballot superseded the active proxy ballot") superseded
        (Some (cb_supersessionAuditEventId input)))
  end ≫= fun _ =>
  resolve_feed (vr_board root) (cb_principalMemberId input) (cb_voteId input) ≫= fun _ =>
  objectVersion ← advanceVoteVersion (cb_voteId input) (vr_rowVersion root) [VoteState_open];
  events ← appendAuditEventsInTransaction
    (match prior with
     | None => []
     | Some active => [superseded_event input context root (bl_id active) objectVersion]
     end ++ [cast_event input context root source statementSha256 votingWeight objectVersion]);
  mret (objectVersion, events).

Definition castBallotInTransaction (input : CastBallotInput) : Tx DB CastBallotResult :=
  organizationId ← lift (UuidV7Schema (cb_organizationId input));
  voteId ← lift (UuidV7Schema (cb_voteId input));
  principalMemberId ← lift (UuidV7Schema (cb_principalMemberId input));
  decisionPackageSha256 ← lift (Sha256HexSchema (cb_decisionPackageSha256 input));
  statement ← lift (parse_nullable canonicalText (cb_statement input));
  fail_if (negb (opt_all (fun s => js_length s <=? 500) statement))
    (RangeError "ballot statement must not exceed 500 characters" []) ≫= fun _ =>
  proxyGrantId ← lift (parse_nullable UuidV7Schema (cb_proxyGrantId input));
  consentRecordId ← lift (UuidV7Schema (cb_consentRecordId input));
  lift (uniqueGeneratedIds [cb_ballotId input; cb_supersessionDispositionId input; cb_supersessionAuditEventId input;
                            cb_idempotencyRecordId input; cb_auditEventId input] "ballot generated IDs") ≫= fun _ =>
  idempotencyKey ← lift (validateIdempotencyKey (cb_idempotencyKey input));
  session ← ask;
  context ← lift (readRequestContext session);
  let unavailable := refuse "ballot_unavailable" "ballot is unavailable" in
  fail_if (negb (bool_decide (ac_organizationId context = organizationId))) unavailable ≫= fun _ =>
  let casterMemberId := ac_memberId context in
  let source := if bool_decide (casterMemberId = principalMemberId) then own else proxy in
  consentPayloadSha256 ← lift (ballotConsentHash
    (Ballot.MkInput voteId principalMemberId casterMemberId (cb_choice input) statement proxyGrantId
       decisionPackageSha256));
  requestSha256 ← lift (cast_request input casterMemberId statement);
  vote ← lock_vote voteId organizationId "vote:act" unavailable;
  row ← readIdempotency (ac_memberId context) (ac_clientId context) cast_ballot idempotencyKey;
  replay ← lift (checkedReplay row requestSha256);
  match replay with
  | Some (id, responseSha256) => mret (MkCastResult voteId id principalMemberId source responseSha256 None)
  | None =>
      fail_if (negb (bool_decide (vr_state vote = VoteState_open)) || negb (vr_deadlineOpen vote)
               || negb (vr_actorReady vote) || negb (safeHashEqual (vr_packageSha256 vote) decisionPackageSha256))
        unavailable ≫= fun _ =>
      participants ← lockParticipants organizationId (vr_board vote) voteId [principalMemberId; casterMemberId];
      fail_if (negb (Nat.eqb (length participants) (length (set_of [principalMemberId; casterMemberId])))
               || existsb (fun p => negb (pt_ready p)) participants) unavailable ≫= fun _ =>
      exclusions ← excludedMembers voteId [principalMemberId; casterMemberId];
      fail_if (negb (Nat.eqb (length exclusions) 0)) unavailable ≫= fun _ =>
      check_proxy input source casterMemberId vote unavailable ≫= fun _ =>
      prior ← superseded_ballot input vote source;
      valid ← consentValid (MkConsentQuery consentRecordId (js "stage_ballot") (js "vote") voteId
                              consentPayloadSha256 decisionPackageSha256);
      fail_if (negb valid) unavailable ≫= fun _ =>
      insertIdempotency (cb_idempotencyRecordId input) organizationId (ac_memberId context) (ac_clientId context)
        cast_ballot idempotencyKey requestSha256 ≫= fun _ =>
      match List.find (fun p => bool_decide (pt_member p = principalMemberId)) participants with
      | None => fail (JsError "locked ballot principal disappeared" [])
      | Some principal =>
          written ← write_ballot input context vote source statement (pt_votingWeight principal) prior;
          let '(objectVersion, auditEvents) := written in
          let supersededBallotId := bl_id <$> prior in
          responseSha256 ← lift (cast_response input casterMemberId source (sha256Hex <$> statement)
                                   supersededBallotId objectVersion);
          finishIdempotency (cb_idempotencyRecordId input) (js "ballot") (cb_ballotId input) responseSha256 ≫= fun _ =>
          mret (MkCastResult voteId (cb_ballotId input) principalMemberId source responseSha256
                  (Some (casterMemberId, supersededBallotId, auditEvents)))
      end
  end.
End transactions.
