(* ===== verification/BallotEffects.v ===== *)
(** * What ballots and proxies do to the tables

    The effect of each statement and of each transaction of [Ballots] that
    returned: what it found and exactly what it left. *)

From stdpp Require Import base numbers sorting strings list.
From Stdlib Require Import Lia.
From S2P Require Import Prelude JsString Encoding JsNumber Json JsonParse JsonCanon Schemas.
From S2P Require Import StateMachines Decode VotingConsent Voting KeyLifecycle AuditEvent Request Database AuditAppend.
From S2P Require Import StagedAction StagedMoves Ballots.

Local Open Scope Z_scope.

Section effects.
Context `{Platform} `{IsoTime} {X : Type} `{!PgClock} `{!SqlAuthority (VoteTables X)} `{!VoteAuthority X}.
Abbreviation DB := (Database (VoteTables X)).
Implicit Types (db : DB) (s : Session) (t : VoteTables X).

(** ** Statements *)

Lemma modify_ok f s db u db' : modify f s db = Ok (u, db') -> db' = with_rest db (f (rest db)).
Proof. unfold modify. intros E. by inv_tx. Qed.

(** Nothing but the tables of votes differs. *)
Definition votes_only db db' : Prop := db' = with_rest db (rest db').

Lemma votes_only_refl db : votes_only db db.
Proof. by destruct db. Qed.
Lemma votes_only_with db t : votes_only db (with_rest db t).
Proof. done. Qed.
Lemma votes_only_trans db1 db2 db3 : votes_only db1 db2 -> votes_only db2 db3 -> votes_only db1 db3.
Proof. unfold votes_only. intros E1 E2. rewrite E2 at 1. rewrite E1. done. Qed.

Lemma scoped_votes_only db db' s o b : votes_only db db' -> scoped db' s o b = scoped db s o b.
Proof. by intros ->. Qed.

Lemma insert_idempotency_record_ok r s db fresh db' : insert_idempotency_record r s db = Ok (fresh, db') ->
  scoped db s (im_organization r) None = true /\
  if fresh : bool
  then db' = with_rest db (with_idempotency (rest db) (idempotency_records (rest db) ++ [r])) /\
       existsb (same_idempotency_key r) (idempotency_records (rest db)) = false /\
       im_id r ∉ map im_id (idempotency_records (rest db))
  else db' = db /\ existsb (same_idempotency_key r) (idempotency_records (rest db)) = true.
Proof.
  unfold insert_idempotency_record. intros E. inv_tx. split; [done|].
  destruct (existsb _ _) eqn:Ex; inv_tx; [done|].
  match goal with Hm : modify _ _ _ = Ok _ |- _ => apply modify_ok in Hm end. boolify. by subst.
Qed.

Lemma advance_ok voteId version permitted s db n db' : advanceVoteVersion voteId version permitted s db = Ok (n, db') ->
  db' = with_rest db (with_votes (rest db) (map (fun v => if vote_at db s voteId version permitted v
                                                          then next_version v else v) (votes (rest db)))) /\
  n = version + 1 /\ version < MAX_BIGINT.
Proof.
  unfold advanceVoteVersion. intros E. inv_tx. match goal with Hm : modify _ _ _ = Ok _ |- _ => apply modify_ok in Hm end.
  destruct (List.filter _ _) as [|v [|]] eqn:Ef; inv_tx; [].
  assert (List.In v [v]) as Hin by (by left). rewrite <- Ef in Hin. apply List.filter_In in Hin as [Hin Hv].
  assert (existsb (vote_at db s voteId version permitted) (votes (rest db)) = true) as Hx
    by (apply existsb_exists; by exists v).
  match goal with Hc : negb _ || _ = true |- _ => rewrite Hx in Hc; cbn in Hc end.
  unfold vote_at in Hv. boolify. split_and!; [by subst|lia|lia].
Qed.

Lemma finish_ok id type rid sha s db u db' : finishIdempotency id type rid sha s db = Ok (u, db') ->
  db' = with_rest db (with_idempotency (rest db) (map (fun r => if unfinished db s id r
    then finished_record (type, rid, sha) (transaction_timestamp s) r else r) (idempotency_records (rest db)))).
Proof. unfold finishIdempotency. intros E. inv_tx. by match goal with Hm : modify _ _ _ = Ok _ |- _ => apply modify_ok in Hm end. Qed.

Lemma read_idempotency_ok actor client op key s db row db' : readIdempotency actor client op key s db = Ok (row, db') ->
  db' = db /\ pg_takes key = true /\
  row = List.find (fun r => bool_decide (im_actor r = actor) && bool_decide (im_client r = client)
                     && bool_decide (im_operation r = operation_text op)
                     && bool_decide (im_key r = pg_text key) && scoped db s (im_organization r) None)
          (idempotency_records (rest db)).
Proof. unfold readIdempotency. intros E. inv_tx. by boolify. Qed.

(** What a new record leaves: nothing had its key, and it binds the request. *)
Lemma insert_idempotency_ok id org actor client op key sha s db u db' :
  (forall r, r ∈ idempotency_records (rest db) -> im_actor r = actor -> im_client r = client ->
     im_operation r = operation_text op -> im_key r = pg_text key -> scoped db s (im_organization r) None = false) ->
  insertIdempotency id org actor client op key sha s db = Ok (u, db') ->
  let r := MkIdempotency id org actor client (operation_text op) (pg_text key) sha in_progress None None in
  db' = with_rest db (with_idempotency (rest db) (idempotency_records (rest db) ++ [r])) /\
  existsb (same_idempotency_key r) (idempotency_records (rest db)) = false /\
  im_id r ∉ map im_id (idempotency_records (rest db)) /\ scoped db s org None = true.
Proof.
  intros Hno. unfold insertIdempotency. intros E. inv_tx.
  match goal with Hins : insert_idempotency_record _ _ _ = Ok (?f, _) |- _ =>
    apply insert_idempotency_record_ok in Hins as [Hs Hi]; destruct f end.
  - match goal with Hread : readIdempotency _ _ _ _ _ _ = Ok (?r, _) |- _ =>
      apply read_idempotency_ok in Hread as (-> & _ & _); destruct r; [|by inv_tx] end. inv_tx. tauto.
  - exfalso. destruct Hi as [-> Hx].
    match goal with Hread : readIdempotency _ _ _ _ _ _ = Ok (?r, _) |- _ =>
      apply read_idempotency_ok in Hread as (-> & _ & Hr); destruct r as [q|]; [|by inv_tx] end.
    symmetry in Hr. apply List.find_some in Hr as [Hq Hq'].
    apply list_elem_of_In in Hq. apply andb_true_iff in Hq' as [Hk Hv]. boolify. by rewrite (Hno q) in Hv.
Qed.

(** ** Inserts *)

Definition elector t (vote member : jsstr) : Prop :=
  exists e, e ∈ vote_electorate t /\ el_vote e = vote /\ el_member e = member.

Lemma elector_exists_ok t vote member : elector_exists t vote member = true <-> elector t vote member.
Proof.
  unfold elector_exists, elector. rewrite existsb_exists. split.
  - intros (e & He & Ht). exists e. rewrite list_elem_of_In. boolify. done.
  - intros (e & He & <- & <-). exists e. rewrite <- list_elem_of_In, !bool_decide_eq_true_2; done.
Qed.

Record grant_admitted t (g : GrantRow) : Prop := {
  ga_policy : pg_policy g ∈ map js ["principal_supersedes_proxy"; "first_ballot_final"]%string;
  ga_differs : pg_principal g <> pg_holder g;
  ga_expires : forall e, pg_expiresAt g = Some e -> pg_grantedAt g < e;
  ga_fresh : forall r, r ∈ proxy_grants t -> pg_id r <> pg_id g /\ pg_consent r <> pg_consent g /\
    ~ (pg_vote r = pg_vote g /\ pg_principal r = pg_principal g);
  ga_principal : elector t (pg_vote g) (pg_principal g);
  ga_holder : elector t (pg_vote g) (pg_holder g)
}.

Lemma insert_proxy_grant_ok g s db u db' : insert_proxy_grant g s db = Ok (u, db') ->
  db' = with_rest db (with_grants (rest db) (proxy_grants (rest db) ++ [g])) /\ grant_admitted (rest db) g /\
  pg_consent g ∈ map cn_id (consent_records db).
Proof.
  unfold insert_proxy_grant. intros E. inv_tx. apply modify_ok in E.
  match goal with Hf : forallb _ _ = true |- _ => rewrite forallb_forall in Hf; rename Hf into Hfresh end. boolify.
  split_and!; [done| |done]. split; try done; try (by apply elector_exists_ok).
  - intros e He. match goal with Ho : opt_all _ _ = true |- _ => rewrite He in Ho; cbn in Ho end. by boolify.
  - intros r Hr%list_elem_of_In. specialize (Hfresh r Hr). boolify. split_and!; [done..|].
    intros [Hv Hp]. match goal with Hn : bool_decide _ && bool_decide _ = false |- _ =>
      by rewrite !bool_decide_eq_true_2 in Hn end.
Qed.

Lemma insert_revocation_ok r s db u db' : insert_proxy_revocation r s db = Ok (u, db') ->
  db' = with_rest db (with_revocations (rest db) (proxy_revocations (rest db) ++ [r])) /\
  (forall q, q ∈ proxy_revocations (rest db) -> pr_id q <> pr_id r /\ pr_grant q <> pr_grant r) /\
  pr_grant r ∈ map pg_id (proxy_grants (rest db)) /\ scoped db s (pr_organization r) None = true.
Proof.
  unfold insert_proxy_revocation. intros E. inv_tx. apply modify_ok in E.
  match goal with Hf : forallb _ _ = true |- _ => rewrite forallb_forall in Hf; rename Hf into Hfresh end. boolify.
  split_and!; [done| |done|done]. intros q Hq%list_elem_of_In. specialize (Hfresh q Hq). by boolify.
Qed.

(** The grant that a proxy ballot cites. *)
Definition backed t (b : BallotRow) : Prop :=
  match bl_source b with
  | own => bl_caster b = bl_principal b /\ bl_proxyGrant b = None
  | proxy => bl_caster b <> bl_principal b /\ exists g, g ∈ proxy_grants t /\ bl_proxyGrant b = Some (pg_id g) /\
      pg_vote g = bl_vote b /\ pg_principal g = bl_principal b /\ pg_holder g = bl_caster b
  end.

Record ballot_admitted t (b : BallotRow) : Prop := {
  ba_choice : bl_choice b ∈ map js ["yes"; "no"; "abstain"]%string;
  ba_backed : backed t b;
  ba_fresh : forall r, r ∈ ballots t -> bl_id r <> bl_id b /\ bl_consent r <> bl_consent b;
  ba_principal : elector t (bl_vote b) (bl_principal b);
  ba_package : exists p, p ∈ decision_packages t /\ dp_vote p = bl_vote b /\ dp_id p = bl_package b
}.

Lemma insert_ballot_ok b s db u db' : insert_ballot b s db = Ok (u, db') ->
  db' = with_rest db (with_ballots (rest db) (ballots (rest db) ++ [b])) /\ ballot_admitted (rest db) b /\
  bl_consent b ∈ map cn_id (consent_records db) /\ scoped db s (bl_organization b) (Some (bl_board b)) = true.
Proof.
  unfold insert_ballot. intros E. inv_tx. apply modify_ok in E.
  match goal with Hf : forallb _ _ = true |- _ => rewrite forallb_forall in Hf; rename Hf into Hfresh end.
  match goal with Hc : ballot_check _ = true |- _ => unfold ballot_check in Hc end. boolify.
  split_and!; [done| |done|done]. split; try done; try (by apply elector_exists_ok).
  - unfold backed. destruct (bl_source b); boolify.
    + match goal with Hn : is_null _ = true |- _ => destruct (bl_proxyGrant b); done end.
    + split; [congruence|]. match goal with Ho : is_null _ || _ = true |- _ =>
        destruct (bl_proxyGrant b) as [id|] eqn:Eg; [|done]; cbn in Ho; apply existsb_exists in Ho as (g & Hg & Hb) end.
      unfold grant_backs in Hb. rewrite Eg in Hb. boolify. exists g. split; [by apply list_elem_of_In|]. split_and!; congruence.
  - intros r Hr%list_elem_of_In. specialize (Hfresh r Hr). by boolify.
  - match goal with Hx : existsb _ (decision_packages _) = true |- _ => apply existsb_exists in Hx as (p & Hp & Hx) end.
    exists p. rewrite list_elem_of_In. by boolify.
Qed.

Lemma insert_disposition_ok d s db u db' : insert_disposition d s db = Ok (u, db') ->
  db' = with_rest db (with_dispositions (rest db) (ballot_dispositions (rest db) ++ [d])) /\
  (forall r, r ∈ ballot_dispositions (rest db) -> bd_id r <> bd_id d /\ bd_prior r <> bd_prior d) /\
  bd_effect d = superseded /\
  exists p n, p ∈ ballots (rest db) /\ n ∈ ballots (rest db) /\ bl_id p = bd_prior d /\ bd_superseding d = Some (bl_id n) /\
    bl_vote n = bl_vote p /\ bl_principal n = bl_principal p /\ bl_source p = proxy /\ bl_source n = own.
Proof.
  unfold insert_disposition. intros E. inv_tx. apply modify_ok in E.
  match goal with Hf : forallb _ _ = true |- _ => rewrite forallb_forall in Hf; rename Hf into Hfresh end.
  match goal with Hp : principal_disposition_allowed _ _ _ = true |- _ =>
    unfold principal_disposition_allowed in Hp; apply andb_true_iff in Hp as [He Hx];
    apply existsb_exists in Hx as (p & Hp' & Hx); apply andb_true_iff in Hx as [Hx1 Hx];
    apply existsb_exists in Hx as (n & Hn & Hx2) end.
  boolify. split_and!; [done| |done|].
  - intros r Hr%list_elem_of_In. specialize (Hfresh r Hr). by boolify.
  - exists p, n. rewrite !list_elem_of_In. by split_and!.
Qed.

Lemma resolve_feed_ok board member vote s db u db' : resolve_feed board member vote s db = Ok (u, db') ->
  exists counters positions, db' = with_rest db (with_feed (rest db)
    (map (fun f => if resolved_by db s board member vote f then resolved_feed (transaction_timestamp s) f else f)
       (pending_action_feed (rest db))) counters positions).
Proof.
  unfold resolve_feed. intros E. inv_tx. destruct (foldl _ _ _) as [counters positions].
  apply modify_ok in E. by exists counters, positions.
Qed.

(** ** What is read *)

(** The vote that was locked. *)
Record rooted s db (voteId : jsstr) (scope : string) (root : VoteRoot) (v : VoteRow) (p : PackageRow) (r : RuleRow)
    : Prop := {
  rt_vote : v ∈ votes (rest db) /\ vt_id v = voteId;
  rt_package : p ∈ decision_packages (rest db) /\ vt_package v = Some (dp_id p) /\ dp_vote p = voteId;
  rt_rule : r ∈ approval_rules (rest db) /\ ru_id r = vt_approvalRule v;
  rt_visible : scoped db s (vt_organization v) (Some (vt_board v)) = true;
  rt_root : root = MkRoot (vt_organization v) (vt_board v) (vt_state v) (vt_rowVersion v) (dp_id p) (dp_packageSha256 p)
    (ru_proxyPolicy r)
    match vt_deadlineAt v with Some deadline => transaction_timestamp s <? deadline | None => false end
    (boardagent_vote_actor_ready_for_scope db s (vt_board v) scope)
}.

Lemma lock_vote_ok voteId org scope e s db root db' : lock_vote voteId org scope e s db = Ok (root, db') ->
  db' = db /\ vr_organization root = org /\ exists v p r, rooted s db voteId scope root v p r.
Proof.
  unfold lock_vote, lockVoteRoot. intros E. inv_tx.
  destruct (flat_map _ _) as [|q [|]] eqn:Ef; [by inv_tx| |by inv_tx].
  case_bool_decide as Ho; inv_tx. split; [done|]. split; [done|].
  match type of Ef with _ = [?x] => rename x into root end.
  assert (List.In root [root]) as Hin by (by left). rewrite <- Ef in Hin.
  apply in_flat_map in Hin as (v & [Hv Hvb]%List.filter_In & Hin).
  apply in_flat_map in Hin as (p & [Hp Hpb]%List.filter_In & Hin).
  apply in_map_iff in Hin as (r & Er & [Hr Hrb]%List.filter_In). boolify.
  exists v, p, r. split; rewrite ?list_elem_of_In; try done; split_and!; congruence.
Qed.

Lemma excluded_ok voteId ids s db l db' : excludedMembers voteId ids s db = Ok (l, db') -> Nat.eqb (length l) 0 = true ->
  db' = db /\ forall m, m ∈ ids -> member_excluded db s voteId m = false.
Proof.
  unfold excludedMembers. intros E Hl%Nat.eqb_eq. inv_tx. split; [done|]. intros m Hm.
  destruct (member_excluded db s voteId m) eqn:Em; [|done].
  assert (List.In m (List.filter (member_excluded db s voteId) (set_of ids))) as Hin.
  { apply List.filter_In. split; [|done]. apply list_elem_of_In. by apply set_of_spec. }
  by destruct (List.filter _ _).
Qed.

(** A ready seat: an elector of the vote whose membership votes now. *)
Record seated s db (org board vote member : jsstr) (weight : Z) : Prop := {
  se_elector : exists e, e ∈ vote_electorate (rest db) /\ el_organization e = org /\ el_board e = board /\
    el_vote e = vote /\ el_member e = member /\ el_votingWeight e = weight;
  se_member : exists m state, m ∈ board_memberships (rest db) /\ ms_organization m = org /\ ms_board m = board /\
    ms_member m = member /\ ms_seatRole m = js "voting_member" /\ 0 < ms_votingWeight m /\
    (org, member, state) ∈ member_states (rest db) /\
    membership_active db (transaction_timestamp s) m state = true
}.

Lemma lock_members_ok org board ids s db rows db' : boardagent_lock_board_members org board ids s db = Ok (rows, db') ->
  db' = db /\ transaction_scope s = js "request" /\
  forall l, l ∈ rows -> l.1 ∈ board_memberships (rest db) /\ ms_organization l.1 = org /\ ms_board l.1 = board /\
    exists state, (org, ms_member l.1, state) ∈ member_states (rest db) /\
      l.2 = membership_active db (transaction_timestamp s) l.1 state.
Proof.
  unfold boardagent_lock_board_members. intros E. inv_tx. boolify. split; [done|]. split; [done|].
  intros l Hl. rewrite toSorted_perm in Hl. apply list_elem_of_In, in_flat_map in Hl as (m & [Hm Hb]%List.filter_In & Hl).
  apply in_map_iff in Hl as (p & <- & [Hp Hpb]%List.filter_In). boolify. cbn [fst snd].
  destruct p as [[o i] state]. cbn in *. rewrite !list_elem_of_In. split_and!; [done..|]. exists state. rewrite list_elem_of_In.
  split; [congruence|done].
Qed.

Lemma lock_participants_ok org board vote ids s db l db' : lockParticipants org board vote ids s db = Ok (l, db') ->
  db' = db /\ forall p, p ∈ l -> pt_ready p = true -> seated s db org board vote (pt_member p) (pt_votingWeight p).
Proof.
  unfold lockParticipants. intros E. inv_tx.
  match goal with Hq : boardagent_lock_board_members _ _ _ _ _ = Ok _ |- _ => apply lock_members_ok in Hq as (-> & _ & Hrows) end.
  split; [done|]. intros p Hp Hready. apply list_elem_of_In, in_flat_map in Hp as (l & Hl & Hp).
  apply in_map_iff in Hp as (e & <- & [He Heb]%List.filter_In). cbn in Hready |- *.
  apply list_elem_of_In, Hrows in Hl as (Hm & Ho & Hb & state & Hstate & Hact). boolify. split.
  - exists e. by rewrite list_elem_of_In.
  - exists l.1, state. split_and!; try done; congruence.
Qed.

(** The grant that stands behind a proxy ballot: visible, of this principal to
    this caster, active and under the policy of the vote. *)
Lemma check_proxy_ok input src caster root e s db u db' : check_proxy input src caster root e s db = Ok (u, db') ->
  db' = db /\ match src with
  | own => cb_proxyGrantId input = None
  | proxy => exists g, g ∈ proxy_grants (rest db) /\ cb_proxyGrantId input = Some (pg_id g) /\
      pg_vote g = cb_voteId input /\ pg_principal g = cb_principalMemberId input /\ pg_holder g = caster /\
      grant_active (rest db) s g = true /\ pg_policy g = vr_proxyPolicy root
  end.
Proof.
  unfold check_proxy. intros E. inv_tx. destruct src, (cb_proxyGrantId input) as [id|]; inv_tx; try done.
  destruct (List.filter _ _) as [|g [|]] eqn:Ef; [done| |done].
  assert (List.In g [g]) as Hin by (by left). rewrite <- Ef in Hin. apply List.filter_In in Hin as [Hin Hb].
  unfold visible_grants in Hin. apply List.filter_In in Hin as [Hin Hv]. boolify. split; [done|].
  exists g. rewrite list_elem_of_In. by split_and!; congruence.
Qed.

Lemma in_active_ballots db s vote principal b : b ∈ active_ballots db s vote principal <->
  b ∈ ballots (rest db) /\ bl_vote b = vote /\ bl_principal b = principal /\ effective (rest db) b = true /\
  scoped db s (bl_organization b) (Some (bl_board b)) = true.
Proof.
  unfold active_ballots. rewrite list_elem_of_In, List.filter_In, <- list_elem_of_In, !andb_true_iff, !bool_decide_eq_true.
  tauto.
Qed.

(** What is superseded: nothing when no ballot is effective, else one proxy
    ballot, by an own one and under the policy for it. *)
Lemma superseded_ok input root src s db prior db' : superseded_ballot input root src s db = Ok (prior, db') ->
  db' = db /\ match prior with
  | None => forall b, b ∉ active_ballots db s (cb_voteId input) (cb_principalMemberId input)
  | Some b => active_ballots db s (cb_voteId input) (cb_principalMemberId input) = [b] /\ src = own /\
      bl_source b = proxy /\ vr_proxyPolicy root = js "principal_supersedes_proxy"
  end.
Proof.
  unfold superseded_ballot. intros E. inv_tx. destruct (active_ballots _ _ _ _) as [|b [|]] eqn:Ea.
  - inv_tx. split; [done|]. by intros b ?%elem_of_nil.
  - destruct (supersedes root src b) eqn:Es; inv_tx. unfold supersedes in Es. boolify. by split_and!.
  - by inv_tx.
Qed.

(** The consent that was recorded for exactly this act, by a confirmed stage
    and a confirmed answer to it. *)
Definition consented_act s db (q : ConsentQuery) : Prop :=
  exists c st a, c ∈ consent_records db /\ st ∈ action_stages db /\ a ∈ input_required_attempts db /\
    consent_matches s q c = true /\ stage_confirms c st = true /\ attempt_confirms q c st a = true.

Lemma consent_valid_ok q s db valid db' : consentValid q s db = Ok (valid, db') -> valid = true ->
  db' = db /\ consented_act s db q.
Proof.
  unfold consentValid. intros E Hv. inv_tx. split; [done|].
  match goal with Hx : existsb _ _ = true |- _ => apply existsb_exists in Hx as (c & Hc & Hx) end. boolify.
  match goal with Hx : existsb _ (action_stages _) = true |- _ => apply existsb_exists in Hx as (st & Hst & Hx) end. boolify.
  match goal with Hx : existsb _ (input_required_attempts _) = true |- _ => apply existsb_exists in Hx as (a & Ha & Hx) end.
  boolify. exists c, st, a. by rewrite !list_elem_of_In.
Qed.

(** ** Writing *)

Definition vote_kept (v v' : VoteRow) : Prop :=
  vt_id v' = vt_id v /\ vt_organization v' = vt_organization v /\ vt_board v' = vt_board v /\ vt_state v' = vt_state v /\
  vt_package v' = vt_package v /\ vt_approvalRule v' = vt_approvalRule v /\ vt_deadlineAt v' = vt_deadlineAt v /\
  vt_title v' = vt_title v /\ vt_resolution v' = vt_resolution v /\ vt_rowVersion v <= vt_rowVersion v'.

(** The tables that ballots and proxies only read; of a vote only the version
    moves. *)
Record tables_kept t t' : Prop := {
  tk_votes : Forall2 vote_kept (votes t) (votes t');
  tk_packages : decision_packages t' = decision_packages t;
  tk_rules : approval_rules t' = approval_rules t;
  tk_states : member_states t' = member_states t;
  tk_memberships : board_memberships t' = board_memberships t;
  tk_electorate : vote_electorate t' = vote_electorate t;
  tk_exclusions : vote_exclusions t' = vote_exclusions t;
  tk_rest : tables_rest t' = tables_rest t
}.

Lemma vote_kept_refl v : vote_kept v v.
Proof. by repeat split; try lia. Qed.
Lemma vote_kept_trans v1 v2 v3 : vote_kept v1 v2 -> vote_kept v2 v3 -> vote_kept v1 v3.
Proof.
  intros (A1 & A2 & A3 & A4 & A5 & A6 & A7 & A8 & A9 & A10) (B1 & B2 & B3 & B4 & B5 & B6 & B7 & B8 & B9 & B10).
  split_and!; try congruence; lia.
Qed.

Lemma votes_advanced (hit : VoteRow -> bool) (l : list VoteRow) : Forall2 vote_kept l (map (fun v => if hit v then next_version v else v) l).
Proof.
  induction l as [|v l IH]; constructor; [|done]. destruct (hit v); [|apply vote_kept_refl].
  unfold next_version. by repeat split; cbn; try lia.
Qed.

Lemma votes_kept_refl (l : list VoteRow) : Forall2 vote_kept l l.
Proof. induction l; constructor; [apply vote_kept_refl|done]. Qed.

(** The rows of a ballot and of the superseding of another. *)
Definition ballot_row s (input : CastBallotInput) (caster : jsstr) (root : VoteRoot) (src : BallotSource)
    (statement : option jsstr) (weight : Z) : BallotRow :=
  MkBallotRow (cb_ballotId input) (cb_organizationId input) (vr_board root) (cb_voteId input) (vr_package root)
    (cb_principalMemberId input) caster (cb_choice input) statement (sha256Hex <$> statement) weight src
    (cb_proxyGrantId input) (cb_consentRecordId input) (transaction_timestamp s).

Definition disposition_rows (input : CastBallotInput) (prior : option BallotRow) : list DispositionRow :=
  match prior with
  | None => []
  | Some active =>
      [MkDisposition (cb_supersessionDispositionId input) (bl_id active) (Some (cb_ballotId input)) None
         (js "principal direct ballot superseded the active proxy ballot") superseded
         (Some (cb_supersessionAuditEventId input))]
  end.

Definition cast_events (input : CastBallotInput) (context : ActiveRequestContext) (root : VoteRoot) (src : BallotSource)
    (statement : option jsstr) (weight : Z) (prior : option BallotRow) (version : Z) : list AuditAppendInput :=
  match prior with None => [] | Some active => [superseded_event input context root (bl_id active) version] end
  ++ [cast_event input context root src (sha256Hex <$> statement) weight version].

(** The tables before and after a ballot is written. *)
Record ballot_written t t' (b : BallotRow) (dispositions : list DispositionRow) : Prop := {
  bw_kept : tables_kept t t';
  bw_ballots : ballots t' = ballots t ++ [b];
  bw_dispositions : ballot_dispositions t' = ballot_dispositions t ++ dispositions;
  bw_grants : proxy_grants t' = proxy_grants t;
  bw_revocations : proxy_revocations t' = proxy_revocations t
}.

(** Of the rest of the database only the audit chain differs. *)
Definition act_frame db db' : Prop :=
  exists db1, votes_only db db1 /\ audit_only db1 db'.

Lemma act_frame_foreign db db' new db1 : votes_only db db1 -> audit_only db1 db' -> grows db1 db' new ->
  foreign db db' /\ grows db db' new.
Proof.
  intros Ev Ea G. assert (grows db db1 []) as G0 by (apply grows_same_audit; by rewrite Ev).
  pose proof (grows_trans _ _ _ _ _ G0 G) as G'. split; [|done].
  pose proof (audit_only_foreign _ _ _ Ea G) as F. destruct F as [F1 F2 F3 _].
  split; [by rewrite Ev in F1|by rewrite F2, Ev|by rewrite F3, Ev|by exists new].
Qed.

Lemma write_ballot_ok input context root src statement weight prior s db version events db' :
  write_ballot input context root src statement weight prior s db = Ok ((version, events), db') ->
  let b := ballot_row s input (ac_memberId context) root src statement weight in
  ballot_admitted (rest db) b /\ ballot_written (rest db) (rest db') b (disposition_rows input prior) /\
  idempotency_records (rest db') = idempotency_records (rest db) /\
  version = vr_rowVersion root + 1 /\ bl_consent b ∈ map cn_id (consent_records db) /\
  (forall d, d ∈ disposition_rows input prior -> forall r, r ∈ ballot_dispositions (rest db) ->
     bd_id r <> bd_id d /\ bd_prior r <> bd_prior d) /\
  exists db1, votes_only db db1 /\ appended s db1 db' (cast_events input context root src statement weight prior version) events.
Proof.
  unfold write_ballot. intros E. inv_tx.
  match goal with Hq : insert_ballot _ _ _ = Ok _ |- _ => apply insert_ballot_ok in Hq as (-> & Hadm & Hcons & _) end.
  match goal with Hq : resolve_feed _ _ _ _ _ = Ok _ |- _ => apply resolve_feed_ok in Hq as (counters & positions & ->) end.
  match goal with Hq : advanceVoteVersion _ _ _ _ _ = Ok _ |- _ => apply advance_ok in Hq as (-> & -> & _) end.
  match goal with Hq : appendAuditEventsInTransaction _ _ _ = Ok _ |- _ => apply append_ok in Hq end.
  cbn zeta. split; [done|].
  match goal with Hq : appended _ _ ?d _ _ |- _ => rename d into db', Hq into Happ end.
  pose proof (ad_only _ _ _ _ _ Happ) as Eonly. unfold audit_only in Eonly.
  rewrite Eonly. cbn [rest with_audit].
  destruct prior as [active|]; inv_tx.
  - match goal with Hq : insert_disposition _ _ _ = Ok _ |- _ => apply insert_disposition_ok in Hq as (-> & Hd & _ & _) end.
    rewrite <- Eonly. split_and!; [|done|done|done| |by eexists; split; [|exact Happ]].
    + split; cbn; try done. split; cbn; try done. apply votes_advanced.
    + intros d ->%list_elem_of_singleton. exact Hd.
  - rewrite <- Eonly. split_and!; [|done|done|done| |by eexists; split; [|exact Happ]].
    + split; cbn; try done; [|by rewrite app_nil_r]. split; cbn; try done. apply votes_advanced.
    + by intros d ?%elem_of_nil.
Qed.

(** The answer of a request: a record of its key, its digest and its response. *)
Record answered (op : VoteOperation) (id organization : jsstr) (context : ActiveRequestContext) (key sha : jsstr)
    (response : jsstr * jsstr * jsstr) s t t' : Prop := {
  an_records : idempotency_records t' = idempotency_records t ++
    [MkIdempotency id organization (ac_memberId context) (ac_clientId context) (operation_text op) (pg_text key) sha
       idem_succeeded (Some response) (Some (transaction_timestamp s))];
  an_id : id ∉ map im_id (idempotency_records t);
  an_key : forall r, r ∈ idempotency_records t -> im_actor r = ac_memberId context -> im_client r = ac_clientId context ->
    im_operation r = operation_text op -> im_key r <> pg_text key
}.

(** A request that was answered before is answered from its record. *)
Record recalled (op : VoteOperation) (context : ActiveRequestContext) (key sha id response : jsstr) s db : Prop := {
  re_key : pg_takes key = true;
  re_record : exists r type, r ∈ idempotency_records (rest db) /\ im_actor r = ac_memberId context /\
    im_client r = ac_clientId context /\ im_operation r = operation_text op /\ im_key r = pg_text key /\
    scoped db s (im_organization r) None = true /\ im_requestSha256 r = sha /\ im_state r = idem_succeeded /\
    im_response r = Some (type, id, response)
}.

Lemma recalled_ok op context key sha s db row db' id response :
  readIdempotency (ac_memberId context) (ac_clientId context) op key s db = Ok (row, db') ->
  checkedReplay row sha = Ok (Some (id, response)) -> db' = db /\ recalled op context key sha id response s db.
Proof.
  intros (-> & Hk & Hr)%read_idempotency_ok E. split; [done|]. destruct row as [r|]; [|done]. symmetry in Hr.
  apply List.find_some in Hr as [Hin Hr]. unfold checkedReplay in E. inv_ok.
  destruct (im_state r) eqn:Es; try done. destruct (im_response r) as [[[type i] d]|] eqn:Er; [|done]. injection E as <- <-.
  boolify. match goal with Hs : safeHashEqual _ _ = true |- _ => apply safeHashEqual_true in Hs as [_ Hs] end.
  split; [done|]. exists r, type. rewrite list_elem_of_In. split_and!; try done.
Qed.

Lemma not_recalled_ok op context key sha s db row db' :
  readIdempotency (ac_memberId context) (ac_clientId context) op key s db = Ok (row, db') ->
  checkedReplay row sha = Ok None -> db' = db /\
  forall r, r ∈ idempotency_records (rest db) -> im_actor r = ac_memberId context -> im_client r = ac_clientId context ->
     im_operation r = operation_text op -> im_key r = pg_text key -> scoped db s (im_organization r) None = false.
Proof.
  intros (-> & Hk & Hr)%read_idempotency_ok E. split; [done|]. destruct row as [q|].
  { unfold checkedReplay in E. inv_ok. destruct (im_state q); try done. by destruct (im_response q) as [[[? ?] ?]|]. }
  intros r Hin%list_elem_of_In Q1 Q2 Q3 Q4. symmetry in Hr. eapply List.find_none in Hr; [|exact Hin]. cbv beta in Hr.
  rewrite !bool_decide_eq_true_2 in Hr by done. done.
Qed.

Lemma records_finished db s id response clock rows r :
  id ∉ map im_id rows -> im_id r = id -> im_state r = in_progress -> scoped db s (im_organization r) None = true ->
  map (fun q => if unfinished db s id q then finished_record response clock q else q) (rows ++ [r])
  = rows ++ [finished_record response clock r].
Proof.
  intros Hn Hi Hp Hs. rewrite map_app. f_equal.
  - rewrite <- (map_id rows) at 2. apply map_ext_in. intros q Hq. unfold unfinished.
    rewrite bool_decide_eq_false_2; [done|]. intros E. apply Hn. rewrite <- E. by apply list_elem_of_fmap_2, list_elem_of_In.
  - cbn. unfold unfinished. by rewrite Hs, !bool_decide_eq_true_2.
Qed.

(** Every elector among [ids] with a seat on the board is a participant. *)
Lemma lock_participants_cover org board vote ids s db l db' e m state :
  lockParticipants org board vote ids s db = Ok (l, db') ->
  e ∈ vote_electorate (rest db) -> el_organization e = org -> el_board e = board -> el_vote e = vote ->
  scoped db s org (Some board) = true -> el_member e ∈ ids ->
  m ∈ board_memberships (rest db) -> ms_organization m = org -> ms_board m = board -> ms_member m = el_member e ->
  (org, el_member e, state) ∈ member_states (rest db) ->
  exists p, p ∈ l /\ pt_member p = el_member e.
Proof.
  unfold lockParticipants, boardagent_lock_board_members. intros E. inv_tx.
  intros He Eo Eb Ev Hs Hi Hm Mo Mb Mm Hst.
  assert (el_member e ∈ toSorted cmp_units (set_of ids)) as Hi' by (rewrite toSorted_perm; by apply set_of_spec).
  set (row := (m, membership_active db (transaction_timestamp s) m state)).
  set (p := MkParticipant (ms_member row.1) (el_votingWeight e)
              (row.2 && bool_decide (ms_seatRole row.1 = js "voting_member") && (0 <? ms_votingWeight row.1))).
  exists p. split; [|done]. apply list_elem_of_In, in_flat_map. exists row. split.
  - apply list_elem_of_In. rewrite toSorted_perm. apply list_elem_of_In, in_flat_map. exists m. split.
    + apply List.filter_In. rewrite <- list_elem_of_In, !bool_decide_eq_true_2; try done. by rewrite Mm.
    + apply in_map_iff. exists (org, el_member e, state). split; [done|]. apply List.filter_In.
      rewrite <- list_elem_of_In. cbn [fst snd]. by rewrite !bool_decide_eq_true_2.
  - apply in_map_iff. exists e. split; [done|]. apply List.filter_In. rewrite <- list_elem_of_In. cbn [fst snd row].
    rewrite Eo, Eb, Ev, Hs, !bool_decide_eq_true_2; done.
Qed.

(** Those of [members] who sit on the board and are in the electorate have
    ready seats. *)
Definition seats_ready s db (org board vote : jsstr) (members : list jsstr) : Prop :=
  forall e m state, e ∈ vote_electorate (rest db) -> el_organization e = org -> el_board e = board -> el_vote e = vote ->
    scoped db s org (Some board) = true -> el_member e ∈ members ->
    m ∈ board_memberships (rest db) -> ms_organization m = org -> ms_board m = board -> ms_member m = el_member e ->
    (org, el_member e, state) ∈ member_states (rest db) -> exists weight, seated s db org board vote (el_member e) weight.

Lemma participants_ready org board vote ids s db l db' : lockParticipants org board vote ids s db = Ok (l, db') ->
  existsb (fun p => negb (pt_ready p)) l = false ->
  db' = db /\ (forall p, p ∈ l -> seated s db org board vote (pt_member p) (pt_votingWeight p)) /\
  seats_ready s db org board vote ids.
Proof.
  intros E Hr. assert (forall p, p ∈ l -> pt_ready p = true) as Hready.
  { intros p Hp%list_elem_of_In. destruct (pt_ready p) eqn:Ep; [done|]. exfalso.
    assert (existsb (fun p => negb (pt_ready p)) l = true) by (apply existsb_exists; exists p; by rewrite Ep). congruence. }
  destruct (lock_participants_ok _ _ _ _ _ _ _ _ E) as [-> Hl]. split; [done|].
  assert (forall p, p ∈ l -> seated s db org board vote (pt_member p) (pt_votingWeight p)) as Hs by auto.
  split; [done|]. intros e m state He Eo Eb Ev Hsc Hi Hm Mo Mb Mm Hst.
  destruct (lock_participants_cover _ _ _ _ _ _ _ _ _ _ _ E He Eo Eb Ev Hsc Hi Hm Mo Mb Mm Hst) as (p & Hp & <-).
  exists (pt_votingWeight p). by apply Hs.
Qed.

(** ** Transactions *)

(** The part of a request that all three share: the caller, and the vote. *)
Record asked s db (organization vote : jsstr) (scope : string) (context : ActiveRequestContext) (root : VoteRoot)
    (v : VoteRow) (p : PackageRow) (r : RuleRow) : Prop := {
  as_context : readRequestContext s = Ok context;
  as_organization : ac_organizationId context = organization /\ vr_organization root = organization;
  as_root : rooted s db vote scope root v p r
}.

(** What must hold for a ballot to be cast. *)
Record cast_admitted (input : CastBallotInput) s db (context : ActiveRequestContext) (root : VoteRoot) (src : BallotSource)
    (weight : Z) (prior : option BallotRow) : Prop := {
  ca_source : src = if bool_decide (ac_memberId context = cb_principalMemberId input) then own else proxy;
  ca_open : vr_state root = VoteState_open /\ vr_deadlineOpen root = true /\ vr_actorReady root = true;
  ca_package : vr_packageSha256 root = cb_decisionPackageSha256 input;
  ca_principal : seated s db (cb_organizationId input) (vr_board root) (cb_voteId input) (cb_principalMemberId input) weight;
  ca_ready : seats_ready s db (cb_organizationId input) (vr_board root) (cb_voteId input)
    [cb_principalMemberId input; ac_memberId context];
  ca_included : forall m, m ∈ [cb_principalMemberId input; ac_memberId context] ->
    member_excluded db s (cb_voteId input) m = false;
  ca_proxy : match src with
    | own => cb_proxyGrantId input = None
    | proxy => exists g, g ∈ proxy_grants (rest db) /\ cb_proxyGrantId input = Some (pg_id g) /\
        pg_vote g = cb_voteId input /\ pg_principal g = cb_principalMemberId input /\ pg_holder g = ac_memberId context /\
        grant_active (rest db) s g = true /\ pg_policy g = vr_proxyPolicy root
    end;
  ca_prior : match prior with
    | None => forall b, b ∉ active_ballots db s (cb_voteId input) (cb_principalMemberId input)
    | Some b => active_ballots db s (cb_voteId input) (cb_principalMemberId input) = [b] /\ src = own /\
        bl_source b = proxy /\ vr_proxyPolicy root = js "principal_supersedes_proxy"
    end;
  ca_statement : forall text, cb_statement input = Some text -> canonicalText text = Ok text /\ js_length text <= 500;
  ca_consent : exists payload,
    ballotConsentHash (Ballot.MkInput (cb_voteId input) (cb_principalMemberId input) (ac_memberId context)
      (cb_choice input) (cb_statement input) (cb_proxyGrantId input) (cb_decisionPackageSha256 input)) = Ok payload /\
    consented_act s db (MkConsentQuery (cb_consentRecordId input) (js "stage_ballot") (js "vote") (cb_voteId input)
      payload (cb_decisionPackageSha256 input))
}.

Inductive cast_outcome (input : CastBallotInput) s db (context : ActiveRequestContext) (root : VoteRoot)
    (sha : jsstr) : CastBallotResult -> DB -> Prop :=
| cast_again id response :
    recalled cast_ballot context (cb_idempotencyKey input) sha id response s db ->
    cast_outcome input s db context root sha
      (MkCastResult (cb_voteId input) id (cb_principalMemberId input)
         (if bool_decide (ac_memberId context = cb_principalMemberId input) then own else proxy) response None) db
| cast_now src weight prior version response events db1 db' :
    cast_admitted input s db context root src weight prior ->
    ballot_admitted (rest db) (ballot_row s input (ac_memberId context) root src (cb_statement input) weight) ->
    ballot_written (rest db) (rest db') (ballot_row s input (ac_memberId context) root src (cb_statement input) weight)
      (disposition_rows input prior) ->
    (forall d, d ∈ disposition_rows input prior -> forall q, q ∈ ballot_dispositions (rest db) ->
       bd_id q <> bd_id d /\ bd_prior q <> bd_prior d) ->
    version = vr_rowVersion root + 1 ->
    cast_response input (ac_memberId context) src (sha256Hex <$> cb_statement input) (bl_id <$> prior) version
      = Ok response ->
    answered cast_ballot (cb_idempotencyRecordId input) (cb_organizationId input) context (cb_idempotencyKey input) sha
      (js "ballot", cb_ballotId input, response) s (rest db) (rest db') ->
    votes_only db db1 ->
    (exists db2, appended s db1 db2 (cast_events input context root src (cb_statement input) weight prior version) events /\
       votes_only db2 db') ->
    cast_outcome input s db context root sha
      (MkCastResult (cb_voteId input) (cb_ballotId input) (cb_principalMemberId input) src response
         (Some (ac_memberId context, bl_id <$> prior, events))) db'.

Ltac read_input := repeat match goal with
  | H : UuidV7Schema _ = Ok _ |- _ => apply parse_ok in H as [-> H]
  | H : Sha256HexSchema _ = Ok _ |- _ => apply parse_ok in H as [-> H]
  | H : validateIdempotencyKey _ = Ok _ |- _ =>
      unfold validateIdempotencyKey in H; destruct (in_range 16 256 _) in H; [injection H as <-|discriminate H]
  end.

Ltac read_more := repeat match goal with
  | H : parse_nullable canonicalText _ = Ok _ |- _ =>
      apply parse_nullable_ok in H as [-> H]; [|by intros ? ? [-> _]%canonicalText_ok]
  | H : parse_nullable UuidV7Schema _ = Ok _ |- _ =>
      apply parse_nullable_ok in H as [-> H]; [|by intros ? ? [-> _]%parse_ok]
  | H : negb (bool_decide (_ = _)) = false |- _ => apply negb_false_iff, bool_decide_eq_true in H
  end.

Lemma with_idempotency_admitted t rows b : ballot_admitted (with_idempotency t rows) b -> ballot_admitted t b.
Proof. intros [A1 A2 A3 A4 A5]. by split. Qed.

Lemma tables_kept_idempotency t t' rows rows' :
  tables_kept (with_idempotency t rows) t' -> tables_kept t (with_idempotency t' rows').
Proof. intros [A1 A2 A3 A4 A5 A6 A7 A8]. by split. Qed.

Lemma with_idempotency_written t t' b d rows rows' :
  ballot_written (with_idempotency t rows) t' b d -> ballot_written t (with_idempotency t' rows') b d.
Proof. intros [A B C D E]. split; try done. by eapply tables_kept_idempotency. Qed.

Lemma answered_ok op id org context key sha response s db db2 db' u :
  let r := MkIdempotency id org (ac_memberId context) (ac_clientId context) (operation_text op) (pg_text key) sha
             in_progress None None in
  existsb (same_idempotency_key r) (idempotency_records (rest db)) = false ->
  id ∉ map im_id (idempotency_records (rest db)) -> scoped db s org None = true ->
  idempotency_records (rest db2) = idempotency_records (rest db) ++ [r] ->
  finishIdempotency id response.1.1 response.1.2 response.2 s db2 = Ok (u, db') ->
  votes_only db2 db' /\ answered op id org context key sha response s (rest db) (rest db') /\
  exists rows, rest db' = with_idempotency (rest db2) rows.
Proof.
  intros r Hkey Hid Hs Er ->%finish_ok. split; [apply votes_only_with|]. split; [|by eexists].
  destruct response as [[type rid] response]. cbn [fst snd]. split; [|done|].
  - cbn [rest with_rest idempotency_records with_idempotency]. rewrite Er. by rewrite records_finished.
  - intros q Hq%list_elem_of_In Q1 Q2 Q3 Q4.
    assert (existsb (same_idempotency_key r) (idempotency_records (rest db)) = true); [|congruence].
    apply existsb_exists. exists q. split; [done|]. unfold same_idempotency_key, r. cbn.
    by rewrite !bool_decide_eq_true_2.
Qed.

Lemma cast_ok input s db res db' : castBallotInTransaction input s db = Ok (res, db') ->
  exists context root v p r sha, asked s db (cb_organizationId input) (cb_voteId input) "vote:act" context root v p r /\
    cast_request input (ac_memberId context) (cb_statement input) = Ok sha /\
    cast_outcome input s db context root sha res db'.
Proof.
  unfold castBallotInTransaction. intros E. inv_tx. read_input. read_more.
  match goal with Hc : readRequestContext s = Ok ?c, Hl : lock_vote _ _ _ _ s db = Ok (?q, ?d),
    Hq : cast_request _ _ _ = Ok ?k |- _ =>
    rename c into context, q into root, k into sha; apply lock_vote_ok in Hl as (-> & Horg & v & p & r & Hroot) end.
  exists context, root, v, p, r, sha. split; [by split|]. split; [done|].
  match goal with Hr : checkedReplay _ _ = Ok ?o |- _ => destruct o as [[id response]|] end.
  - inv_tx. match goal with Hr : readIdempotency _ _ _ _ _ _ = Ok _, Hk : checkedReplay _ _ = Ok _ |- _ =>
      destruct (recalled_ok _ _ _ _ _ _ _ _ _ _ Hr Hk) as [-> Hrec] end. by constructor.
  - inv_tx. match goal with Hr : readIdempotency _ _ _ _ _ _ = Ok _, Hk : checkedReplay _ _ = Ok _ |- _ =>
      destruct (not_recalled_ok _ _ _ _ _ _ _ _ Hr Hk) as [-> Hnone] end. boolify.
    match goal with Hp : lockParticipants _ _ _ _ _ _ = Ok _, Hr : existsb _ _ = false |- _ =>
      destruct (participants_ready _ _ _ _ _ _ _ _ Hp Hr) as (-> & Hseats & Hready); clear Hr end.
    match goal with Hq : excludedMembers _ _ _ _ = Ok _, Hl : Nat.eqb _ 0 = true |- _ =>
      destruct (excluded_ok _ _ _ _ _ _ Hq Hl) as [-> Hincl] end.
    match goal with Hq : check_proxy _ _ _ _ _ _ _ = Ok _ |- _ => apply check_proxy_ok in Hq as [-> Hproxy] end.
    match goal with Hq : superseded_ballot _ _ _ _ _ = Ok (?o, _) |- _ =>
      rename o into prior; apply superseded_ok in Hq as [-> Hprior] end.
    match goal with Hq : consentValid _ _ _ = Ok (?o, _), Ho : ?o = true |- _ =>
      apply consent_valid_ok in Hq as [-> Hconsent]; [|done] end.
    match goal with Hq : insertIdempotency _ _ _ _ _ _ _ _ _ = Ok _ |- _ =>
      apply insert_idempotency_ok in Hq as (-> & Hkey & Hid & Hscope); [|exact Hnone] end.
    destruct (List.find _ _) as [principal|] eqn:Ef; [|by inv_tx].
    apply List.find_some in Ef as [Hpin Hp]. apply bool_decide_eq_true in Hp. inv_tx.
    match goal with Hw : write_ballot _ _ _ _ _ _ _ _ _ = Ok (?x, _) |- _ => destruct x as [version events]; rename Hw into Hwrite end.
    inv_tx. apply write_ballot_ok in Hwrite as (Hadm & Hwritten & Hrec & -> & _ & Hd & db1 & Hv & Happ).
    match goal with Hf : finishIdempotency _ _ _ _ _ _ = Ok _ |- _ =>
      destruct (answered_ok cast_ballot _ _ context _ sha (js "ballot", cb_ballotId input, _) s db _ _ _ Hkey Hid Hscope
        Hrec Hf) as (Hv' & Hans & rows & Erows) end.
    eapply (cast_now _ _ _ _ _ _ _ (pt_votingWeight principal) prior _ _ _ db1); [|exact (with_idempotency_admitted _ _ _ Hadm)| |
      exact Hd|done|done|exact Hans|exact (votes_only_trans _ _ _ (votes_only_with _ _) Hv)|by eexists].
    + split; try done.
      * match goal with Hs : safeHashEqual _ _ = true |- _ => by apply safeHashEqual_true in Hs as [_ Hs] end.
      * rewrite <- Hp. by apply Hseats, list_elem_of_In.
      * intros text Et. match goal with Ho : opt_all _ _ = true |- _ => rewrite Et in Ho; cbn in Ho end. boolify. auto.
      * by eexists.
    + rewrite Erows. exact (with_idempotency_written _ _ _ _ _ _ Hwritten).
Qed.

(** The row of a grant. *)
Definition grant_row s (input : GrantProxyInput) (principal : jsstr) (root : VoteRoot) (expiry : option Z) : GrantRow :=
  MkGrant (gp_proxyGrantId input) (gp_organizationId input) (vr_board root) (gp_voteId input) principal
    (gp_holderMemberId input) (gp_policy input) (gp_consentRecordId input) (transaction_timestamp s) expiry.

(** What must hold for a proxy to be granted. *)
Record grant_permitted (input : GrantProxyInput) s db (context : ActiveRequestContext) (root : VoteRoot)
    (expiry : option Z) : Prop := {
  gm_open : vr_state root = VoteState_open /\ vr_deadlineOpen root = true /\ vr_actorReady root = true;
  gm_policy : vr_proxyPolicy root = gp_policy input;
  gm_package : vr_packageSha256 root = gp_decisionPackageSha256 input;
  gm_ready : seats_ready s db (gp_organizationId input) (vr_board root) (gp_voteId input)
    [ac_memberId context; gp_holderMemberId input];
  gm_included : forall m, m ∈ [ac_memberId context; gp_holderMemberId input] ->
    member_excluded db s (gp_voteId input) m = false;
  gm_expires : match gp_expiresAt input, expiry with
    | None, None => True
    | Some text, Some e => pg_timestamptz text = Some e /\ transaction_timestamp s < e
    | _, _ => False
    end;
  gm_first : forall g, g ∈ visible_grants db s (gp_voteId input) -> pg_principal g <> ac_memberId context;
  gm_chain : forall g, g ∈ visible_grants db s (gp_voteId input) -> grant_active (rest db) s g = true ->
    pg_principal g <> gp_holderMemberId input /\ pg_holder g <> ac_memberId context;
  gm_consent : exists payload,
    proxyGrantConsentHash (ProxyGrant.MkInput (gp_voteId input) (ac_memberId context) (gp_holderMemberId input)
      (gp_policy input) (gp_expiresAt input) (gp_decisionPackageSha256 input)) = Ok payload /\
    consented_act s db (MkConsentQuery (gp_consentRecordId input) (js "grant_proxy") (js "vote") (gp_voteId input)
      payload (gp_decisionPackageSha256 input))
}.

(** The tables before and after a grant. *)
Record grant_written t t' (g : GrantRow) : Prop := {
  gw_kept : tables_kept t t';
  gw_grants : proxy_grants t' = proxy_grants t ++ [g];
  gw_ballots : ballots t' = ballots t;
  gw_dispositions : ballot_dispositions t' = ballot_dispositions t;
  gw_revocations : proxy_revocations t' = proxy_revocations t
}.

Inductive grant_outcome (input : GrantProxyInput) s db (context : ActiveRequestContext) (root : VoteRoot)
    (sha : jsstr) : GrantProxyResult -> DB -> Prop :=
| grant_again id response :
    recalled grant_proxy context (gp_idempotencyKey input) sha id response s db ->
    grant_outcome input s db context root sha (MkGrantResult (gp_voteId input) id response None) db
| grant_now expiry version response events db1 db2 db' :
    grant_permitted input s db context root expiry ->
    grant_admitted (rest db) (grant_row s input (ac_memberId context) root expiry) ->
    grant_written (rest db) (rest db') (grant_row s input (ac_memberId context) root expiry) ->
    version = vr_rowVersion root + 1 ->
    grant_response input (ac_memberId context) version = Ok response ->
    answered grant_proxy (gp_idempotencyRecordId input) (gp_organizationId input) context (gp_idempotencyKey input) sha
      (js "proxy_grant", gp_proxyGrantId input, response) s (rest db) (rest db') ->
    votes_only db db1 -> appended s db1 db2 [grant_event input context root (gp_auditEventId input) version] events ->
    votes_only db2 db' ->
    grant_outcome input s db context root sha
      (MkGrantResult (gp_voteId input) (gp_proxyGrantId input) response
         (Some (ac_memberId context, gp_holderMemberId input, gp_policy input, events))) db'.

Lemma expiry_ok (text : option jsstr) s db expiry db' :
  (match text with
   | None => mret None
   | Some text => match pg_timestamptz text with
                  | Some e => mret (Some e)
                  | None => fail (DatabaseError "22007")
                  end
   end : Tx DB (option Z)) s db = Ok (expiry, db') ->
  opt_all (fun e => transaction_timestamp s <? e) expiry = true ->
  db' = db /\ match text, expiry with
  | None, None => True
  | Some text, Some e => pg_timestamptz text = Some e /\ transaction_timestamp s < e
  | _, _ => False
  end.
Proof.
  intros E He. destruct text as [text|]; [destruct (pg_timestamptz text)|]; inv_tx; [|done].
  cbn in He. by boolify.
Qed.

Lemma existsb_none {A} (f : A -> bool) l x : existsb f l = false -> x ∈ l -> f x = false.
Proof.
  intros E Hx%list_elem_of_In. destruct (f x) eqn:Ef; [|done].
  assert (existsb f l = true) by (apply existsb_exists; by exists x). congruence.
Qed.

(** What a grant writes, and what a revocation does. *)
Lemma grant_rows_ok g vote n permitted inputs s db u db1 m db2 events db3 :
  insert_proxy_grant g s db = Ok (u, db1) -> advanceVoteVersion vote n permitted s db1 = Ok (m, db2) ->
  appendAuditEventsInTransaction inputs s db2 = Ok (events, db3) ->
  grant_admitted (rest db) g /\ grant_written (rest db) (rest db3) g /\
  idempotency_records (rest db3) = idempotency_records (rest db) /\ m = n + 1 /\
  votes_only db db2 /\ appended s db2 db3 inputs events.
Proof.
  intros (-> & Hadm & _)%insert_proxy_grant_ok (-> & -> & _)%advance_ok Happ%append_ok. split; [done|].
  pose proof (f_equal rest (ad_only _ _ _ _ _ Happ)) as ->. cbn [rest with_rest with_audit]. split_and!; try done.
  split; cbn; try done. split; cbn; try done. apply votes_advanced.
Qed.

Lemma with_idempotency_granted t g rows : grant_admitted (with_idempotency t rows) g -> grant_admitted t g.
Proof. intros [A1 A2 A3 A4 A5 A6]. by split. Qed.

Lemma with_idempotency_grant_written t t' g rows rows' :
  grant_written (with_idempotency t rows) t' g -> grant_written t (with_idempotency t' rows') g.
Proof. intros [A B C D E]. split; try done. by eapply tables_kept_idempotency. Qed.

Lemma grant_ok input s db res db' : grantProxyInTransaction input s db = Ok (res, db') ->
  exists context root v p r sha, asked s db (gp_organizationId input) (gp_voteId input) "proxy:manage" context root v p r /\
    grant_request input (ac_memberId context) = Ok sha /\ grant_outcome input s db context root sha res db'.
Proof.
  unfold grantProxyInTransaction. intros E. inv_tx. read_input. read_more.
  match goal with H : parse_nullable Rfc3339UtcSchema _ = Ok _ |- _ =>
    apply parse_nullable_ok in H as [-> _]; [|by intros ? ? [-> _]%parse_ok] end.
  match goal with Hc : readRequestContext s = Ok ?c, Hl : lock_vote _ _ _ _ s db = Ok (?q, ?d),
    Hq : grant_request _ _ = Ok ?k |- _ =>
    rename c into context, q into root, k into sha; apply lock_vote_ok in Hl as (-> & Horg & v & p & r & Hroot) end.
  exists context, root, v, p, r, sha. split; [by split|]. split; [done|].
  match goal with Hr : checkedReplay _ _ = Ok ?o |- _ => destruct o as [[id response]|] end.
  - inv_tx. match goal with Hr : readIdempotency _ _ _ _ _ _ = Ok _, Hk : checkedReplay _ _ = Ok _ |- _ =>
      destruct (recalled_ok _ _ _ _ _ _ _ _ _ _ Hr Hk) as [-> Hrec] end. by constructor.
  - inv_tx. match goal with Hr : readIdempotency _ _ _ _ _ _ = Ok _, Hk : checkedReplay _ _ = Ok _ |- _ =>
      destruct (not_recalled_ok _ _ _ _ _ _ _ _ Hr Hk) as [-> Hnone] end. boolify.
    match goal with Hp : lockParticipants _ _ _ _ _ _ = Ok _, Hr : existsb _ _ = false |- _ =>
      destruct (participants_ready _ _ _ _ _ _ _ _ Hp Hr) as (-> & _ & Hready); clear Hr end.
    match goal with Hq : excludedMembers _ _ _ _ = Ok _, Hl : Nat.eqb _ 0 = true |- _ =>
      destruct (excluded_ok _ _ _ _ _ _ Hq Hl) as [-> Hincl] end.
    match goal with Hq : consentValid _ _ _ = Ok (?o, _), Ho : ?o = true |- _ =>
      apply consent_valid_ok in Hq as [-> Hconsent]; [|done] end.
    match goal with Hq : _ s db = Ok (?o, _), Ho : opt_all _ ?o = true |- _ =>
      rename o into expiry; destruct (expiry_ok _ _ _ _ _ Hq Ho) as [-> Hexpiry] end.
    match goal with Hq : insertIdempotency _ _ _ _ _ _ _ _ _ = Ok _ |- _ =>
      apply insert_idempotency_ok in Hq as (-> & Hkey & Hid & Hscope); [|exact Hnone] end.
    match goal with Hi : insert_proxy_grant _ _ _ = Ok _, Hv : advanceVoteVersion _ _ _ _ _ = Ok _,
      Hp : appendAuditEventsInTransaction _ _ _ = Ok _ |- _ =>
      destruct (grant_rows_ok _ _ _ _ _ _ _ _ _ _ _ _ _ Hi Hv Hp) as (Hadm & Hwritten & Hrec & -> & Hvotes & Happ) end.
    match goal with Hf : finishIdempotency _ _ _ _ _ _ = Ok _ |- _ =>
      destruct (answered_ok grant_proxy _ _ context _ sha (js "proxy_grant", gp_proxyGrantId input, _) s db _ _ _ Hkey Hid
        Hscope Hrec Hf) as (Hv' & Hans & rows & Erows) end.
    eapply (grant_now _ _ _ _ _ _ expiry (vr_rowVersion root + 1));
      [|exact (with_idempotency_granted _ _ _ Hadm)| |done|done|exact Hans
       |exact (votes_only_trans _ _ _ (votes_only_with _ _) Hvotes)|exact Happ|exact Hv'].
    + split; try done.
      * match goal with Hs : safeHashEqual _ _ = true |- _ => by apply safeHashEqual_true in Hs as [_ Hs] end.
      * intros g Hg. match goal with Hx : existsb _ (visible_grants _ _ _) = false |- _ =>
          pose proof (existsb_none _ _ g Hx Hg) as Hn end. by apply bool_decide_eq_false in Hn.
      * intros g Hg Ha. assert (g ∈ List.filter (grant_active (rest db) s) (visible_grants db s (gp_voteId input))) as Hin
          by (by apply list_elem_of_In, List.filter_In; rewrite <- list_elem_of_In).
        match goal with Hx : existsb _ (List.filter _ _) = false, Hy : existsb _ (List.filter _ _) = false |- _ =>
          pose proof (existsb_none _ _ g Hx Hin) as Hone; pose proof (existsb_none _ _ g Hy Hin) as Htwo end.
        by apply bool_decide_eq_false in Hone, Htwo.
      * by eexists.
    + rewrite Erows. exact (with_idempotency_grant_written _ _ _ _ _ Hwritten).
Qed.

(** The row of a revocation. *)
Definition revocation_row s (input : RevokeProxyInput) (principal reason : jsstr) : RevocationRow :=
  MkRevocation (rp_proxyRevocationId input) (rp_organizationId input) (rp_proxyGrantId input) principal reason
    (js "revoked") (Some (rp_consentRecordId input)) (transaction_timestamp s).

(** What must hold for a proxy to be revoked. *)
Record revocation_permitted (input : RevokeProxyInput) s db (context : ActiveRequestContext) (root : VoteRoot)
    (reason : jsstr) (g : GrantRow) : Prop := {
  rm_open : vr_state root ∈ [VoteState_open; VoteState_source_update_pending] /\ vr_actorReady root = true;
  rm_package : vr_packageSha256 root = rp_decisionPackageSha256 input;
  rm_reason : canonicalText (rp_reason input) = Ok reason /\ 1 <= js_length reason <= 65536;
  rm_owned : g ∈ visible_grants db s (rp_voteId input) /\ pg_id g = rp_proxyGrantId input /\
    pg_principal g = ac_memberId context /\ grant_active (rest db) s g = true;
  rm_consent : exists payload,
    proxyRevokeConsentHash (ProxyRevoke.MkInput (rp_voteId input) (rp_proxyGrantId input) (ac_memberId context) reason
      (rp_decisionPackageSha256 input)) = Ok payload /\
    consented_act s db (MkConsentQuery (rp_consentRecordId input) (js "revoke_proxy") (js "proxy_grant")
      (rp_proxyGrantId input) payload (rp_decisionPackageSha256 input))
}.

(** The tables before and after a revocation. *)
Record revocation_written t t' (r : RevocationRow) : Prop := {
  vw_kept : tables_kept t t';
  vw_revocations : proxy_revocations t' = proxy_revocations t ++ [r];
  vw_ballots : ballots t' = ballots t;
  vw_dispositions : ballot_dispositions t' = ballot_dispositions t;
  vw_grants : proxy_grants t' = proxy_grants t
}.

Definition revocation_fresh t (r : RevocationRow) : Prop :=
  (forall q, q ∈ proxy_revocations t -> pr_id q <> pr_id r /\ pr_grant q <> pr_grant r) /\
  pr_grant r ∈ map pg_id (proxy_grants t).

Inductive revoke_outcome (input : RevokeProxyInput) s db (context : ActiveRequestContext) (root : VoteRoot)
    (reason sha : jsstr) : RevokeProxyResult -> DB -> Prop :=
| revoke_again id response :
    recalled revoke_proxy context (rp_idempotencyKey input) sha id response s db ->
    revoke_outcome input s db context root reason sha
      (MkRevokeResult (rp_voteId input) (rp_proxyGrantId input) id response None) db
| revoke_now g version response events db1 db2 db' :
    revocation_permitted input s db context root reason g ->
    revocation_fresh (rest db) (revocation_row s input (ac_memberId context) reason) ->
    revocation_written (rest db) (rest db') (revocation_row s input (ac_memberId context) reason) ->
    version = vr_rowVersion root + 1 ->
    revoke_response input version = Ok response ->
    answered revoke_proxy (rp_idempotencyRecordId input) (rp_organizationId input) context (rp_idempotencyKey input) sha
      (js "proxy_revocation", rp_proxyRevocationId input, response) s (rest db) (rest db') ->
    votes_only db db1 -> appended s db1 db2 [revoke_event input context root reason version] events ->
    votes_only db2 db' ->
    revoke_outcome input s db context root reason sha
      (MkRevokeResult (rp_voteId input) (rp_proxyGrantId input) (rp_proxyRevocationId input) response (Some events)) db'.

Lemma revoke_rows_ok r vote n permitted inputs s db u db1 m db2 events db3 :
  insert_proxy_revocation r s db = Ok (u, db1) -> advanceVoteVersion vote n permitted s db1 = Ok (m, db2) ->
  appendAuditEventsInTransaction inputs s db2 = Ok (events, db3) ->
  revocation_fresh (rest db) r /\ revocation_written (rest db) (rest db3) r /\
  idempotency_records (rest db3) = idempotency_records (rest db) /\ m = n + 1 /\
  votes_only db db2 /\ appended s db2 db3 inputs events.
Proof.
  intros (-> & Hfresh & Hg & _)%insert_revocation_ok (-> & -> & _)%advance_ok Happ%append_ok. split; [done|].
  pose proof (f_equal rest (ad_only _ _ _ _ _ Happ)) as ->. cbn [rest with_rest with_audit]. split_and!; try done.
  split; cbn; try done. split; cbn; try done. apply votes_advanced.
Qed.

Lemma with_idempotency_revocation_written t t' r rows rows' :
  revocation_written (with_idempotency t rows) t' r -> revocation_written t (with_idempotency t' rows') r.
Proof. intros [A B C D E]. split; try done. by eapply tables_kept_idempotency. Qed.

Lemma revoke_ok input s db res db' : revokeProxyInTransaction input s db = Ok (res, db') ->
  exists context root v p r reason sha,
    asked s db (rp_organizationId input) (rp_voteId input) "proxy:manage" context root v p r /\
    revoke_request input (ac_memberId context) reason = Ok sha /\
    revoke_outcome input s db context root reason sha res db'.
Proof.
  unfold revokeProxyInTransaction. intros E. inv_tx. read_input. read_more.
  match goal with Hc : readRequestContext s = Ok ?c, Hl : lock_vote _ _ _ _ s db = Ok (?q, ?d),
    Hq : revoke_request _ _ ?t = Ok ?k |- _ =>
    rename c into context, q into root, k into sha, t into reason; apply lock_vote_ok in Hl as (-> & Horg & v & p & r & Hroot) end.
  exists context, root, v, p, r, reason, sha. split; [by split|]. split; [done|].
  match goal with Hr : checkedReplay _ _ = Ok ?o |- _ => destruct o as [[id response]|] end.
  - inv_tx. match goal with Hr : readIdempotency _ _ _ _ _ _ = Ok _, Hk : checkedReplay _ _ = Ok _ |- _ =>
      destruct (recalled_ok _ _ _ _ _ _ _ _ _ _ Hr Hk) as [-> Hrec] end. by constructor.
  - inv_tx. match goal with Hr : readIdempotency _ _ _ _ _ _ = Ok _, Hk : checkedReplay _ _ = Ok _ |- _ =>
      destruct (not_recalled_ok _ _ _ _ _ _ _ _ Hr Hk) as [-> Hnone] end.
    match goal with Hq : match List.filter ?f ?l with _ => _ end = false |- _ =>
      rename Hq into Hactive; destruct (List.filter f l) as [|g [|]] eqn:Ef; [done| |done] end.
    assert (List.In g [g]) as Hin by (by left). rewrite <- Ef in Hin. apply List.filter_In in Hin as [Hin Hg]. boolify.
    match goal with Hq : consentValid _ _ _ = Ok (?o, _), Ho : ?o = true |- _ =>
      apply consent_valid_ok in Hq as [-> Hconsent]; [|done] end.
    match goal with Hq : insertIdempotency _ _ _ _ _ _ _ _ _ = Ok _ |- _ =>
      apply insert_idempotency_ok in Hq as (-> & Hkey & Hid & Hscope); [|exact Hnone] end.
    match goal with Hi : insert_proxy_revocation _ _ _ = Ok _, Hv : advanceVoteVersion _ _ _ _ _ = Ok _,
      Hp : appendAuditEventsInTransaction _ _ _ = Ok _ |- _ =>
      destruct (revoke_rows_ok _ _ _ _ _ _ _ _ _ _ _ _ _ Hi Hv Hp) as (Hadm & Hwritten & Hrec & -> & Hvotes & Happ) end.
    match goal with Hf : finishIdempotency _ _ _ _ _ _ = Ok _ |- _ =>
      destruct (answered_ok revoke_proxy _ _ context _ sha (js "proxy_revocation", rp_proxyRevocationId input, _) s db
        _ _ _ Hkey Hid Hscope Hrec Hf) as (Hv' & Hans & rows & Erows) end.
    eapply (revoke_now _ _ _ _ _ _ _ g (vr_rowVersion root + 1));
      [|exact Hadm| |done|done|exact Hans
       |exact (votes_only_trans _ _ _ (votes_only_with _ _) Hvotes)|exact Happ|exact Hv'].
    + split; try done.
      * match goal with Hs : safeHashEqual _ _ = true |- _ => by apply safeHashEqual_true in Hs as [_ Hs] end.
      * match goal with Hi : in_range _ _ _ = true |- _ => apply in_range_spec in Hi end. done.
      * by rewrite list_elem_of_In.
      * by eexists.
    + rewrite Erows. exact (with_idempotency_revocation_written _ _ _ _ _ Hwritten).
Qed.
End effects.
