(* ===== verification/BallotHistory.v ===== *)
(** * Histories of ballots and proxies

    What holds of the tables of votes after any sequence of casts, grants,
    revocations and other transactions, and what one of them did: who may cast,
    which ballots count, and how a retry is answered. A ballot counts the way
    lib/db/src/transactions/vote-close.ts takes it into the tally. *)

From stdpp Require Import base numbers sorting strings list relations.
From Stdlib Require Import Lia.
From S2P Require Import Prelude JsString Encoding JsNumber Json JsonParse JsonCanon Schemas.
From S2P Require Import StateMachines ValueObjects Decode VotingConsent KeyLifecycle AuditEvent Request Database AuditAppend.
From S2P Require Import StagedAction StagedMoves Voting Ballots BallotEffects.

Local Open Scope Z_scope.

Section histories.
Context `{Platform} `{IsoTime} {X : Type} `{!PgClock} `{!SqlAuthority (VoteTables X)} `{!VoteAuthority X}.
Abbreviation DB := (Database (VoteTables X)).
Implicit Types (db : DB) (s : Session) (t : VoteTables X).

(** ** The invariant *)

(** A vote of this organization and board. *)
Definition hosted t (vote organization board : jsstr) : Prop :=
  exists v, v ∈ Ballots.votes t /\ vt_id v = vote /\ vt_organization v = organization /\ vt_board v = board.

(** Whether the latest exclusion of a member from a vote is one. *)
Definition excluded_from t (vote member : jsstr) : bool :=
  match latest ex_version (List.filter (fun e => bool_decide (ex_vote e = vote) && bool_decide (ex_member e = member))
                             (vote_exclusions t)) with
  | Some e => ex_excluded e
  | None => false
  end.

(** The tables that other transactions write: the constraints of the schema. *)
Record schema_ok t : Prop := {
  so_votes : NoDup (map vt_id (Ballots.votes t));
  so_rules : NoDup (map ru_id (approval_rules t));
  so_electorate : NoDup (map (fun e => (el_vote e, el_member e)) (vote_electorate t));
  so_weights : forall e, e ∈ vote_electorate t -> 1 <= el_votingWeight e <= MAX_VOTING_WEIGHT;
  so_chair : forall e e', e ∈ vote_electorate t -> e' ∈ vote_electorate t -> el_vote e = el_vote e' ->
    el_isChair e = true -> el_isChair e' = true -> e = e';
  so_hosted : forall e, e ∈ vote_electorate t -> hosted t (el_vote e) (el_organization e) (el_board e);
  so_seats : forall e, e ∈ vote_electorate t -> exists m state, m ∈ board_memberships t /\
    ms_organization m = el_organization e /\ ms_board m = el_board e /\ ms_member m = el_member e /\
    (el_organization e, el_member e, state) ∈ member_states t;
  so_versions : NoDup (map (fun x => (ex_vote x, ex_member x, ex_version x)) (vote_exclusions t));
  so_exclusions : forall x, x ∈ vote_exclusions t -> hosted t (ex_vote x) (ex_organization x) (ex_board x)
}.

(** A grant is live at a time when it was granted, neither expired nor revoked. *)
Definition live t (clock : Z) (g : GrantRow) : Prop :=
  g ∈ proxy_grants t /\ pg_grantedAt g <= clock /\ (forall e, pg_expiresAt g = Some e -> clock < e) /\
  forall r, r ∈ proxy_revocations t -> pr_grant r <> pg_id g.

Record grants_ok t : Prop := {
  go_ids : NoDup (map pg_id (proxy_grants t));
  go_once : NoDup (map (fun g => (pg_vote g, pg_principal g)) (proxy_grants t));
  go_sound : forall g, g ∈ proxy_grants t -> pg_principal g <> pg_holder g /\ elector t (pg_vote g) (pg_principal g) /\
    elector t (pg_vote g) (pg_holder g) /\ hosted t (pg_vote g) (pg_organization g) (pg_board g);
  go_chain : forall g g' clock, live t clock g -> live t clock g' -> pg_vote g = pg_vote g' ->
    pg_holder g <> pg_principal g';
  go_revocations : forall r, r ∈ proxy_revocations t -> exists g, g ∈ proxy_grants t /\ pg_id g = pr_grant r /\
    pr_organization r = pg_organization g
}.

(** A ballot is by an elector and for one, with the weight frozen for it, on the
    package of its vote, and under the proxy policy of the vote. *)
Record ballot_sound t (b : BallotRow) : Prop := {
  bs_choice : bl_choice b ∈ map js ["yes"; "no"; "abstain"]%string;
  bs_backed : backed t b;
  bs_weight : exists e, e ∈ vote_electorate t /\ el_vote e = bl_vote b /\ el_member e = bl_principal b /\
    el_votingWeight e = bl_votingWeight b;
  bs_caster : elector t (bl_vote b) (bl_caster b);
  bs_hosted : hosted t (bl_vote b) (bl_organization b) (bl_board b);
  bs_vote : exists v r, v ∈ Ballots.votes t /\ vt_id v = bl_vote b /\ vt_package v = Some (bl_package b) /\
    r ∈ approval_rules t /\ ru_id r = vt_approvalRule v /\
    forall g, g ∈ proxy_grants t -> bl_proxyGrant b = Some (pg_id g) -> pg_policy g = ru_proxyPolicy r;
  bs_statement : bl_statementSha256 b = sha256Hex <$> bl_statement b /\
    forall text, bl_statement b = Some text -> canonicalText text = Ok text
}.

Record ballots_ok t : Prop := {
  bo_ids : NoDup (map bl_id (ballots t));
  bo_consents : NoDup (map bl_consent (ballots t));
  bo_sound : forall b, b ∈ ballots t -> ballot_sound t b;
  bo_one : forall b b', b ∈ ballots t -> b' ∈ ballots t -> effective t b = true -> effective t b' = true ->
    bl_vote b = bl_vote b' -> bl_principal b = bl_principal b' -> b = b';
  bo_included : forall b, b ∈ ballots t -> effective t b = true ->
    excluded_from t (bl_vote b) (bl_principal b) = false /\ excluded_from t (bl_vote b) (bl_caster b) = false;
  bo_priors : NoDup (map bd_prior (ballot_dispositions t));
  bo_disposed : forall d, d ∈ ballot_dispositions t -> bd_prior d ∈ map bl_id (ballots t);
  bo_superseded : forall d, d ∈ ballot_dispositions t -> bd_effect d = superseded ->
    exists p n, p ∈ ballots t /\ n ∈ ballots t /\ bl_id p = bd_prior d /\ bd_superseding d = Some (bl_id n) /\
      bl_vote n = bl_vote p /\ bl_principal n = bl_principal p /\ bl_source p = proxy /\ bl_source n = own
}.

Definition request_key (r : IdempotencyRow) : jsstr * jsstr * jsstr * jsstr :=
  (im_actor r, im_client r, im_operation r, im_key r).

Record tables_ok t : Prop := {
  to_schema : schema_ok t;
  to_grants : grants_ok t;
  to_ballots : ballots_ok t;
  to_keys : NoDup (map request_key (idempotency_records t))
}.

(** ** What the three transactions keep *)

Lemma votes_kept_in (l l' : list VoteRow) v : Forall2 vote_kept l l' -> v ∈ l -> exists v', v' ∈ l' /\ vote_kept v v'.
Proof.
  intros F (i & Hi)%list_elem_of_lookup. destruct (Forall2_lookup_l _ _ _ _ _ F Hi) as (v' & Hv & Hk).
  exists v'. split; [|done]. by eapply list_elem_of_lookup_2.
Qed.

Lemma votes_kept_ids (l l' : list VoteRow) : Forall2 vote_kept l l' -> map vt_id l' = map vt_id l.
Proof. induction 1 as [|v v' l l' (E & _) _ IH]; cbn; [done|]. by rewrite E, IH. Qed.

Lemma hosted_kept t t' vote org board : tables_kept t t' -> hosted t vote org board -> hosted t' vote org board.
Proof.
  intros K (v & Hv & <- & <- & <-). destruct (votes_kept_in _ _ _ (tk_votes _ _ K) Hv) as (v' & Hv' & E1 & E2 & E3 & _).
  by exists v'.
Qed.

Lemma elector_kept t t' vote m : tables_kept t t' -> elector t vote m -> elector t' vote m.
Proof. intros K. unfold elector. by rewrite (tk_electorate _ _ K). Qed.

Lemma excluded_kept t t' vote m : tables_kept t t' -> excluded_from t' vote m = excluded_from t vote m.
Proof. intros K. unfold excluded_from. by rewrite (tk_exclusions _ _ K). Qed.

Lemma schema_kept t t' : tables_kept t t' -> schema_ok t -> schema_ok t'.
Proof.
  intros K [A B C D E F G I J]. pose proof (fun v o b => hosted_kept _ _ v o b K) as Hh.
  destruct K as [K1 K2 K3 K4 K5 K6 K7 K8]. split; rewrite ?K3, ?K4, ?K5, ?K6, ?K7; auto.
  by rewrite (votes_kept_ids _ _ K1).
Qed.

(** A ballot stays sound while grants are added. *)
Lemma sound_kept t t' new b : tables_kept t t' -> proxy_grants t' = proxy_grants t ++ new ->
  (forall g, g ∈ new -> bl_proxyGrant b <> Some (pg_id g)) -> ballot_sound t b -> ballot_sound t' b.
Proof.
  intros K Eg Hnew [A B C D E (v & r & Hv & E1 & E2 & Hr & E3 & Hp) G]. split; try done.
  - unfold backed in *. destruct (bl_source b); [done|]. destruct B as [B1 (g & Hg & B2)]. split; [done|].
    exists g. split; [|done]. rewrite Eg. apply elem_of_app. by left.
  - by rewrite (tk_electorate _ _ K).
  - by eapply elector_kept.
  - by eapply hosted_kept.
  - destruct (votes_kept_in _ _ _ (tk_votes _ _ K) Hv) as (v' & Hv' & K1 & K2 & K3 & K4 & K5 & K6 & _).
    exists v', r. rewrite (tk_rules _ _ K). split_and!; try done; try congruence.
    intros g. rewrite Eg. intros [Hg|Hg]%elem_of_app; [by apply Hp|]. intros Hb. by destruct (Hnew g Hg).
Qed.

(** A grant stays sound, and live grants stay unchained. *)
Lemma grants_kept t t' : tables_kept t t' -> proxy_grants t' = proxy_grants t ->
  proxy_revocations t' = proxy_revocations t -> grants_ok t -> grants_ok t'.
Proof.
  intros K Eg Er [A B C D E]. split; unfold live in *; rewrite ?Eg, ?Er; try done.
  intros g Hg. destruct (C g Hg) as (C1 & C2 & C3 & C4).
  split_and!; [done|by eapply elector_kept..|by eapply hosted_kept].
Qed.

Lemma keyed_once {A B} (key : A -> B) (l : list A) x y : NoDup (map key l) -> x ∈ l -> y ∈ l -> key x = key y -> x = y.
Proof.
  intros Hd (i & Hi)%list_elem_of_lookup (j & Hj)%list_elem_of_lookup E.
  assert (i = j) as ->; [|congruence]. eapply (NoDup_lookup (map key l)); [done|..];
    rewrite list_lookup_fmap, ?Hi, ?Hj; cbn; by rewrite ?E.
Qed.

Lemma keyed_snoc {A B} (key : A -> B) (l : list A) x : NoDup (map key l) -> (forall y, y ∈ l -> key y <> key x) ->
  NoDup (map key (l ++ [x])).
Proof.
  intros Hd Hx. rewrite map_app. apply NoDup_app. split_and!; [done| |apply NoDup_singleton].
  intros k (y & -> & Hy)%list_elem_of_fmap Hk%list_elem_of_singleton. by eapply Hx.
Qed.

(** *** Casting *)

Lemma effective_spec t b : effective t b = true <-> forall d, d ∈ ballot_dispositions t -> bd_prior d <> bl_id b.
Proof.
  unfold effective. rewrite negb_true_iff. split.
  - intros E d Hd. pose proof (existsb_none _ _ d E Hd) as Hn. by apply bool_decide_eq_false in Hn.
  - intros Hd. destruct (existsb _ _) eqn:E; [|done]. apply existsb_exists in E as (d & Hin%list_elem_of_In & Hb).
    apply bool_decide_eq_true in Hb. by destruct (Hd d Hin).
Qed.

(** In the organization and board of a locked vote everything of the vote is
    visible. *)
Lemma rooted_host s db vote scope root v p r o b : rooted s db vote scope root v p r -> schema_ok (rest db) ->
  hosted (rest db) vote o b -> vt_organization v = o /\ vt_board v = b /\ scoped db s o (Some b) = true.
Proof.
  intros R So (v' & Hv' & E1 & <- & <-). destruct (rt_vote _ _ _ _ _ _ _ _ R) as [Hv E2].
  assert (v' = v) as -> by (eapply (keyed_once vt_id); [apply (so_votes _ So)|done..|congruence]).
  split_and!; [done..|]. exact (rt_visible _ _ _ _ _ _ _ _ R).
Qed.

Lemma member_excluded_eq s db vote scope root v p r m : rooted s db vote scope root v p r -> schema_ok (rest db) ->
  member_excluded db s vote m = excluded_from (rest db) vote m.
Proof.
  intros R So. unfold member_excluded, excluded_from. erewrite filter_ext_in; [done|]. intros e He%list_elem_of_In. cbn.
  destruct (bool_decide (ex_vote e = vote)) eqn:Ev; [|done]. apply bool_decide_eq_true in Ev.
  pose proof (so_exclusions _ So e He) as Hh. rewrite Ev in Hh.
  destruct (rooted_host _ _ _ _ _ _ _ _ _ _ R So Hh) as (_ & _ & ->). by rewrite andb_true_r.
Qed.

(** The effective ballots of a principal are those the transaction saw. *)
Lemma active_spec s db vote scope root v p r principal b : rooted s db vote scope root v p r -> tables_ok (rest db) ->
  b ∈ active_ballots db s vote principal <->
  b ∈ ballots (rest db) /\ bl_vote b = vote /\ bl_principal b = principal /\ effective (rest db) b = true.
Proof.
  intros R Ok. rewrite in_active_ballots. split; [tauto|]. intros (Hb & Ev & Ep & He). split_and!; try done.
  pose proof (bs_hosted _ _ (bo_sound _ (to_ballots _ Ok) b Hb)) as Hh. rewrite Ev in Hh.
  by destruct (rooted_host _ _ _ _ _ _ _ _ _ _ R (to_schema _ Ok) Hh) as (_ & _ & ->).
Qed.

Section casting.
Context (input : CastBallotInput) (s : Session) (db : DB) (context : ActiveRequestContext) (root : VoteRoot).
Context (v : VoteRow) (p : PackageRow) (r : RuleRow) (src : BallotSource) (weight : Z) (prior : option BallotRow).
Hypothesis Ok0 : tables_ok (rest db).
Hypothesis Asked : asked s db (cb_organizationId input) (cb_voteId input) "vote:act" context root v p r.
Hypothesis Adm : cast_admitted input s db context root src weight prior.
Abbreviation b := (ballot_row s input (ac_memberId context) root src (cb_statement input) weight).

Lemma cast_row_sound : ballot_admitted (rest db) b -> ballot_sound (rest db) b.
Proof.
  intros [A1 A2 A3 A4 _]. destruct Asked as [_ [Ho1 Ho2] R].
  pose proof (rt_root _ _ _ _ _ _ _ _ R) as Er. destruct (rt_vote _ _ _ _ _ _ _ _ R) as [Hv Ev].
  split; [done|done|..|split; [done|]].
  - destruct (se_elector _ _ _ _ _ _ _ (ca_principal _ _ _ _ _ _ _ _ Adm)) as (e & He & _ & _ & E1 & E2 & E3). by exists e.
  - unfold backed in A2. destruct (bl_source b); cbn in A2 |- *.
    + destruct A2 as [-> _]. exact A4.
    + destruct A2 as [_ (g & Hg & _ & <- & _ & <-)].
      by destruct (go_sound _ (to_grants _ Ok0) g Hg) as (_ & _ & ? & _).
  - exists v. split_and!; try done; [|by rewrite Er]. rewrite Er in Ho2. exact Ho2.
  - exists v, r. destruct (rt_rule _ _ _ _ _ _ _ _ R) as [Hr Err].
    destruct (rt_package _ _ _ _ _ _ _ _ R) as (_ & Epk & _). split_and!; try done; [by rewrite Er|].
    intros g Hg Eg. cbn in Eg. pose proof (ca_proxy _ _ _ _ _ _ _ _ Adm) as Hp. destruct src; [congruence|].
    destruct Hp as (g' & Hg' & Eg' & _ & _ & _ & _ & Hpol).
    assert (g = g') as -> by (eapply (keyed_once pg_id); [apply (go_ids _ (to_grants _ Ok0))|done..|congruence]).
    by rewrite Hpol, Er.
  - intros text Et. by destruct (ca_statement _ _ _ _ _ _ _ _ Adm text Et).
Qed.

(** What is superseded. *)
Lemma prior_active : match prior with
  | None => forall q, q ∈ ballots (rest db) -> effective (rest db) q = true -> bl_vote q = cb_voteId input ->
      bl_principal q <> cb_principalMemberId input
  | Some a => a ∈ ballots (rest db) /\ effective (rest db) a = true /\ bl_vote a = cb_voteId input /\
      bl_principal a = cb_principalMemberId input /\ src = own /\ bl_source a = proxy /\
      vr_proxyPolicy root = js "principal_supersedes_proxy" /\
      forall q, q ∈ ballots (rest db) -> effective (rest db) q = true -> bl_vote q = cb_voteId input ->
        bl_principal q = cb_principalMemberId input -> q = a
  end.
Proof.
  pose proof (ca_prior _ _ _ _ _ _ _ _ Adm) as Hp.
  pose proof (fun q => active_spec _ _ _ _ _ _ _ _ (cb_principalMemberId input) q (as_root _ _ _ _ _ _ _ _ _ _ Asked) Ok0) as Ha.
  destruct prior as [a|].
  - destruct Hp as (El & -> & Es & Epol). destruct (proj1 (Ha a)) as (A1 & A2 & A3 & A4);
      [rewrite El; by apply list_elem_of_singleton|]. split_and!; try done.
    intros q Hq He Ev Ep. assert (q ∈ [a]) as Hin by (rewrite <- El; by apply Ha). by apply list_elem_of_singleton in Hin.
  - intros q Hq He Ev Ep. apply (Hp q). by apply Ha.
Qed.

Lemma cast_included m : m ∈ [cb_principalMemberId input; ac_memberId context] ->
  excluded_from (rest db) (cb_voteId input) m = false.
Proof.
  intros Hm. rewrite <- (member_excluded_eq _ _ _ _ _ _ _ _ m (as_root _ _ _ _ _ _ _ _ _ _ Asked) (to_schema _ Ok0)).
  by apply (ca_included _ _ _ _ _ _ _ _ Adm).
Qed.

Lemma no_rival q : q ∈ ballots (rest db) -> effective (rest db) q = true -> prior <> Some q ->
  bl_vote q = cb_voteId input -> bl_principal q <> cb_principalMemberId input.
Proof.
  intros Hq He Hn Ev Ep. pose proof prior_active as Hp. destruct prior as [a|].
  - destruct Hp as (_ & _ & _ & _ & _ & _ & _ & Hu). apply Hn. f_equal. symmetry. by apply Hu.
  - by apply (Hp q).
Qed.

(** *** The tables that a cast leaves *)

Context (t' : VoteTables X).
Hypothesis Badm : ballot_admitted (rest db) b.
Hypothesis Written : ballot_written (rest db) t' b (disposition_rows input prior).
Hypothesis Fresh : forall d, d ∈ disposition_rows input prior -> forall q, q ∈ ballot_dispositions (rest db) ->
  bd_id q <> bd_id d /\ bd_prior q <> bd_prior d.

Lemma row_is_new q : q ∈ ballots (rest db) -> bl_id q <> bl_id b.
Proof. intros Hq. by apply (ba_fresh _ _ Badm). Qed.

Lemma prior_in a : prior = Some a -> a ∈ ballots (rest db).
Proof. intros E. pose proof prior_active as Hp. rewrite E in Hp. tauto. Qed.

(** The ballots that count after a cast: the new one, and those that counted
    before but for the one it supersedes. *)
Lemma effective_after q : q ∈ ballots t' /\ effective t' q = true <->
  (q ∈ ballots (rest db) /\ effective (rest db) q = true /\ prior <> Some q) \/ q = b.
Proof.
  rewrite !effective_spec, (bw_ballots _ _ _ _ Written), (bw_dispositions _ _ _ _ Written).
  setoid_rewrite elem_of_app. rewrite list_elem_of_singleton. pose proof prior_in as Hprior.
  assert (forall d, d ∈ ballot_dispositions (rest db) -> bd_prior d <> bl_id b) as Hold.
  { intros d Hd E. pose proof (bo_disposed _ (to_ballots _ Ok0) d Hd) as Hin.
    apply list_elem_of_fmap in Hin as (q' & Eq & Hq'). apply (row_is_new q' Hq'). congruence. }
  split.
  - intros [[Hq| ->] Hd]; [left|by right]. split_and!; [done|by auto|]. intros E. rewrite E in Hd. cbn in Hd.
    eapply Hd; [right; by apply list_elem_of_singleton|done].
  - intros [(Hq & Hd & Hne)| ->].
    + split; [by left|]. intros d [Hd'|Hd']; [by auto|]. intros E.
      destruct prior as [a|]; cbn in Hd'; [apply list_elem_of_singleton in Hd'|by apply elem_of_nil in Hd'].
      subst d. cbn in E. apply Hne. f_equal.
      eapply (keyed_once bl_id); [apply (bo_ids _ (to_ballots _ Ok0))|by apply Hprior|done|done].
    + split; [by right|]. intros d [Hd'|Hd']; [by auto|]. intros E.
      destruct prior as [a|]; cbn in Hd'; [apply list_elem_of_singleton in Hd'|by apply elem_of_nil in Hd'].
      subst d. apply (row_is_new a); [by apply Hprior|done].
Qed.

Lemma disposition_new d : d ∈ disposition_rows input prior -> exists a, prior = Some a /\ bd_prior d = bl_id a /\
  bd_superseding d = Some (bl_id b).
Proof.
  destruct prior as [a|]; cbn; [|by intros ?%elem_of_nil]. intros ->%list_elem_of_singleton. by exists a.
Qed.

Lemma cast_ballots_ok : ballots_ok t'.
Proof.
  pose proof (cast_row_sound Badm) as Hsound. pose proof (to_ballots _ Ok0) as [B1 B2 B3 B4 B5 B6 B7 B8].
  pose proof (bw_kept _ _ _ _ Written) as K. pose proof (bw_grants _ _ _ _ Written) as Eg.
  assert (forall q, ballot_sound (rest db) q -> ballot_sound t' q) as Hk.
  { intros q. apply (sound_kept _ _ []); [done|by rewrite app_nil_r|]. by intros g ?%elem_of_nil. }
  split.
  - rewrite (bw_ballots _ _ _ _ Written). apply keyed_snoc; [done|]. apply row_is_new.
  - rewrite (bw_ballots _ _ _ _ Written). apply keyed_snoc; [done|]. intros q Hq. by apply (ba_fresh _ _ Badm).
  - intros q. rewrite (bw_ballots _ _ _ _ Written). intros [Hq|Hq]%elem_of_app; [by auto|].
    apply list_elem_of_singleton in Hq as ->. by apply Hk.
  - intros q q' Hq Hq' He He' Ev Ep.
    destruct (proj1 (effective_after q) (conj Hq He)) as [(Q1 & Q2 & Q3)| ->],
      (proj1 (effective_after q') (conj Hq' He')) as [(Q1' & Q2' & Q3')| ->]; try done; [by apply B4|exfalso..].
    + by apply (no_rival q Q1 Q2 Q3).
    + by apply (no_rival q' Q1' Q2' Q3').
  - intros q Hq He. rewrite !(excluded_kept _ _ _ _ K).
    destruct (proj1 (effective_after q) (conj Hq He)) as [(Q1 & Q2 & _)| ->]; [by apply B5|]. cbn [bl_vote bl_principal bl_caster ballot_row].
    split; apply cast_included; rewrite !elem_of_cons; tauto.
  - rewrite (bw_dispositions _ _ _ _ Written). destruct prior as [a|] eqn:E; [|by rewrite app_nil_r].
    apply keyed_snoc; [done|]. intros d Hd. apply (Fresh _ (proj2 (list_elem_of_singleton _ _) eq_refl) d Hd).
  - intros d. rewrite (bw_dispositions _ _ _ _ Written), (bw_ballots _ _ _ _ Written), map_app, !elem_of_app.
    intros [Hd|(a & Ea & -> & _)%disposition_new]; left; [by auto|]. apply list_elem_of_fmap_2. by apply prior_in.
  - intros d. rewrite (bw_dispositions _ _ _ _ Written), (bw_ballots _ _ _ _ Written). setoid_rewrite elem_of_app.
    intros [Hd|(a & Ea & E1 & E2)%disposition_new] He.
    + destruct (B8 d Hd He) as (q & n & Hq & Hn & Hrest). exists q, n. tauto.
    + pose proof prior_active as Hp. rewrite Ea in Hp. destruct Hp as (P1 & P2 & P3 & P4 & P5 & P6 & _).
      exists a, b. rewrite !list_elem_of_singleton. split_and!; try done; [by left|by right].
Qed.
End casting.

(** *** Granting and revoking *)

Lemma ballots_kept t t' new : tables_kept t t' -> ballots t' = ballots t -> ballot_dispositions t' = ballot_dispositions t ->
  proxy_grants t' = proxy_grants t ++ new ->
  (forall b g, b ∈ ballots t -> g ∈ new -> bl_proxyGrant b <> Some (pg_id g)) -> ballots_ok t -> ballots_ok t'.
Proof.
  intros K Eb Ed Eg Hn [B1 B2 B3 B4 B5 B6 B7 B8].
  split; unfold effective in *; rewrite ?Eb, ?Ed; try done.
  - intros b Hb. eapply sound_kept; [done|exact Eg|by intros; apply Hn|by apply B3].
  - intros b Hb He. rewrite !(excluded_kept _ _ _ _ K). by apply B5.
Qed.

Lemma live_active s db vote scope root v p r g clock : rooted s db vote scope root v p r -> tables_ok (rest db) ->
  boardagent_context_uuid (set_organization_id s) = Some (vt_organization v) ->
  live (rest db) clock g -> pg_vote g = vote -> transaction_timestamp s <= clock ->
  g ∈ visible_grants db s vote /\ grant_active (rest db) s g = true.
Proof.
  intros R Ok0 Hs (Hg & _ & He & Hr) Ev Hc. pose proof (go_sound _ (to_grants _ Ok0) g Hg) as (_ & _ & _ & Hh).
  rewrite Ev in Hh. destruct (rooted_host _ _ _ _ _ _ _ _ _ _ R (to_schema _ Ok0) Hh) as (_ & _ & Hsc). split.
  - unfold visible_grants. apply list_elem_of_In, List.filter_In. rewrite <- list_elem_of_In. split; [done|].
    by rewrite bool_decide_eq_true_2, Hsc.
  - unfold grant_active. apply andb_true_iff. split.
    + apply negb_true_iff. destruct (existsb _ _) eqn:E; [|done].
      apply existsb_exists in E as (q & Hq%list_elem_of_In & Hb). boolify. by destruct (Hr q Hq).
    + destruct (pg_expiresAt g) as [e|]; [|done]. specialize (He e eq_refl). apply Z.ltb_lt. lia.
Qed.

Lemma grant_grants_ok input s db context root v p r expiry t' : tables_ok (rest db) ->
  asked s db (gp_organizationId input) (gp_voteId input) "proxy:manage" context root v p r ->
  boardagent_context_uuid (set_organization_id s) = Some (vt_organization v) ->
  grant_permitted input s db context root expiry ->
  grant_admitted (rest db) (grant_row s input (ac_memberId context) root expiry) ->
  grant_written (rest db) t' (grant_row s input (ac_memberId context) root expiry) -> grants_ok t'.
Proof.
  intros Ok0 [_ [Ho1 Ho2] R] Hs Perm [A1 A2 A3 A4 A5 A6] [K Eg _ _ Er]. set (g := grant_row _ _ _ _ _) in *.
  pose proof (to_grants _ Ok0) as [G1 G2 G3 G4 G5].
  assert (forall q clock, q ∈ proxy_grants (rest db) -> live t' clock q -> live (rest db) clock q) as Hold.
  { intros q clock Hq (_ & L). by rewrite Er in L. }
  assert (forall q clock, q ∈ proxy_grants (rest db) -> live t' clock q -> live t' clock g -> pg_vote q = gp_voteId input ->
    pg_principal q <> gp_holderMemberId input /\ pg_holder q <> ac_memberId context) as Hapart.
  { intros q clock Hq Lq (_ & Lg & _) Ev. destruct (live_active _ _ _ _ _ _ _ _ q clock R Ok0 Hs (Hold _ _ Hq Lq) Ev Lg) as [V1 V2].
    by apply (gm_chain _ _ _ _ _ _ Perm). }
  assert (forall x, x ∈ proxy_grants t' <-> x ∈ proxy_grants (rest db) \/ x = g) as Hin
    by (intros x; by rewrite Eg, elem_of_app, list_elem_of_singleton).
  split; rewrite ?Er.
  - rewrite Eg. apply keyed_snoc; [done|]. intros q Hq. by apply A4.
  - rewrite Eg. apply keyed_snoc; [done|]. intros q Hq [= E1 E2]. by destruct (A4 q Hq) as (_ & _ & []).
  - intros q [Hq| ->]%Hin.
    + destruct (G3 q Hq) as (C1 & C2 & C3 & C4). split_and!; [done|by eapply elector_kept..|by eapply hosted_kept].
    + split_and!; [done|by eapply elector_kept..|]. eapply hosted_kept; [done|]. exists v.
      destruct (rt_vote _ _ _ _ _ _ _ _ R). unfold g. cbn [pg_vote pg_organization pg_board grant_row].
      by rewrite (rt_root _ _ _ _ _ _ _ _ R) in Ho2 |- *.
  - intros q q' clock L L' Ev.
    destruct (proj1 (Hin q) (proj1 L)) as [Hq| ->], (proj1 (Hin q') (proj1 L')) as [Hq'| ->].
    + apply (G4 q q' clock); auto.
    + by apply (Hapart q clock).
    + intros E. by destruct (Hapart q' clock Hq' L' L).
    + intros E. by apply A2.
  - intros q Hq. destruct (G5 q Hq) as (g' & Hg' & Hrest). exists g'. rewrite Hin. tauto.
Qed.

Lemma asked_organization s db org vote scope context root v p r : asked s db org vote scope context root v p r ->
  vt_organization v = org /\ boardagent_context_uuid (set_organization_id s) = Some org.
Proof.
  intros [Hc [Ho1 Ho2] R]. rewrite (rt_root _ _ _ _ _ _ _ _ R) in Ho2. split; [done|]. revert Hc. unfold readRequestContext.
  destruct (boardagent_context_uuid (set_organization_id s)); [|done].
  repeat (destruct (boardagent_context_uuid _); [|done]). intros [= <-]. by rewrite <- Ho1.
Qed.

Lemma revoke_grants_ok input s db context root v p r reason g t' : tables_ok (rest db) ->
  asked s db (rp_organizationId input) (rp_voteId input) "proxy:manage" context root v p r ->
  revocation_permitted input s db context root reason g ->
  revocation_written (rest db) t' (revocation_row s input (ac_memberId context) reason) -> grants_ok t'.
Proof.
  intros Ok0 As Perm [K Er _ _ Eg]. pose proof (to_grants _ Ok0) as [G1 G2 G3 G4 G5].
  destruct (asked_organization _ _ _ _ _ _ _ _ _ _ As) as [Eo _]. set (q := revocation_row _ _ _ _) in *.
  assert (forall x clock, live t' clock x -> live (rest db) clock x) as Hlive.
  { intros x clock (L1 & L2 & L3 & L4). rewrite Eg in L1. split_and!; try done. intros y Hy. apply L4.
    rewrite Er. apply elem_of_app. by left. }
  split; rewrite ?Eg; try done.
  - intros x Hx. destruct (G3 x Hx) as (C1 & C2 & C3 & C4). split_and!; [done|by eapply elector_kept..|by eapply hosted_kept].
  - intros x x' clock L L' Ev. eapply G4; eauto.
  - intros x. rewrite Er. intros [Hx|Hx]%elem_of_app; [by auto|]. apply list_elem_of_singleton in Hx as ->. exists g.
    destruct (rm_owned _ _ _ _ _ _ _ Perm) as (Hv & Eid & _). unfold visible_grants in Hv.
    apply list_elem_of_In, List.filter_In in Hv as [Hg%list_elem_of_In Hv]. boolify.
    split; [done|]. split; [done|]. destruct (G3 g Hg) as (_ & _ & _ & Hh).
    match goal with Hq : pg_vote g = _ |- _ => rewrite Hq in Hh end.
    destruct (rooted_host _ _ _ _ _ _ _ _ _ _ (as_root _ _ _ _ _ _ _ _ _ _ As) (to_schema _ Ok0) Hh) as (<- & _ & _).
    by rewrite Eo.
Qed.

(** *** Answers *)

Lemma answered_keys op id org context key sha response s t t' :
  answered op id org context key sha response s t t' -> NoDup (map request_key (idempotency_records t)) ->
  NoDup (map request_key (idempotency_records t')).
Proof.
  intros [-> _ Hn] Hd. apply keyed_snoc; [done|]. intros r Hr [= E1 E2 E3 E4]. by apply (Hn r).
Qed.

(** ** Histories *)

(** Other transactions on these tables: they open and close votes, exclude
    members, invalidate ballots and revoke grants, and neither cast nor grant.
    Who is excluded has no ballot left that counts, own or as a holder. *)
Record other_act t t' : Prop := {
  oa_schema : schema_ok t';
  oa_votes : forall v, v ∈ Ballots.votes t -> exists v', v' ∈ Ballots.votes t' /\ vt_id v' = vt_id v /\
    vt_organization v' = vt_organization v /\ vt_board v' = vt_board v /\ vt_approvalRule v' = vt_approvalRule v /\
    (vt_package v = None \/ vt_package v' = vt_package v);
  oa_rules : forall r, r ∈ approval_rules t -> r ∈ approval_rules t';
  oa_electorate : forall e, e ∈ vote_electorate t -> e ∈ vote_electorate t';
  oa_grants : proxy_grants t' = proxy_grants t;
  oa_revocations : exists new, proxy_revocations t' = proxy_revocations t ++ new /\ forall r, r ∈ new ->
    exists g, g ∈ proxy_grants t /\ pg_id g = pr_grant r /\ pr_organization r = pg_organization g;
  oa_ballots : ballots t' = ballots t;
  oa_dispositions : exists new, ballot_dispositions t' = ballot_dispositions t ++ new /\
    NoDup (map bd_prior (ballot_dispositions t')) /\ forall d, d ∈ new -> bd_effect d <> superseded /\
      bd_prior d ∈ map bl_id (ballots t);
  oa_included : forall b, b ∈ ballots t' -> effective t' b = true ->
    excluded_from t' (bl_vote b) (bl_principal b) = false /\ excluded_from t' (bl_vote b) (bl_caster b) = false;
  oa_keys : NoDup (map request_key (idempotency_records t'))
}.

Inductive vote_step db db' : Prop :=
| step_cast s input res : castBallotInTransaction input s db = Ok (res, db') -> vote_step db db'
| step_grant s input res : grantProxyInTransaction input s db = Ok (res, db') -> vote_step db db'
| step_revoke s input res : revokeProxyInTransaction input s db = Ok (res, db') -> vote_step db db'
| step_other : other_act (rest db) (rest db') -> vote_step db db'.

Lemma other_ok t t' : other_act t t' -> tables_ok t -> tables_ok t'.
Proof.
  intros [So Hv Hr He Eg (nr & Er & Hnr) Eb (nd & Ed & Hnd & Hd) Hi Hk] [_ [G1 G2 G3 G4 G5] [B1 B2 B3 B4 B5 B6 B7 B8] _].
  assert (forall vote o b, hosted t vote o b -> hosted t' vote o b) as Hh.
  { intros vote o b (v & Hin & <- & <- & <-). destruct (Hv v Hin) as (v' & ? & ? & ? & ? & _). by exists v'. }
  assert (forall vote m, elector t vote m -> elector t' vote m) as Hel.
  { intros vote m (e & Hin & Q). exists e. auto. }
  split; [done|split|split|done]; rewrite ?Eg, ?Eb; try done.
  - intros g Hg. destruct (G3 g Hg) as (C1 & C2 & C3 & C4). auto.
  - intros g g' clock (L1 & L2 & L3 & L4) (L1' & L2' & L3' & L4'). rewrite Eg in L1, L1'. rewrite Er in L4, L4'.
    apply (G4 g g' clock); split_and!; try done; intros q Hq; [apply L4|apply L4']; apply elem_of_app; by left.
  - intros r. rewrite Er. intros [Hr'|Hr']%elem_of_app; auto.
  - intros b Hb. destruct (B3 b Hb) as [C1 C2 (e & C3) C4 C5 (v & r & D1 & D2 & D3 & D4 & D5 & D6) C7]. split; auto.
    + unfold backed in *. by rewrite Eg.
    + exists e. naive_solver.
    + destruct (Hv v D1) as (v' & V1 & V2 & V3 & V4 & V5 & V6). exists v', r.
      split_and!; auto; [congruence| |congruence|by rewrite Eg]. destruct V6; congruence.
  - intros b b' Hb Hb' E E'. apply B4; try done; apply effective_spec; intros d Hin; [eapply (proj1 (effective_spec _ _) E)|
      eapply (proj1 (effective_spec _ _) E')]; rewrite Ed; apply elem_of_app; by left.
  - rewrite <- Eb. exact Hi.
  - intros d. rewrite Ed. intros [Hin|Hin]%elem_of_app; [by auto|]. by apply Hd.
  - intros d. rewrite Ed. intros [Hin|Hin]%elem_of_app He'; [by auto|]. by destruct (Hd d Hin).
Qed.

Lemma cast_tables_ok s input res db db' : castBallotInTransaction input s db = Ok (res, db') ->
  tables_ok (rest db) -> tables_ok (rest db').
Proof.
  intros (context & root & v & p & r & sha & As & _ & O)%cast_ok Ok0.
  destruct O as [|src weight prior version response events db1 db' Adm Badm W Fr _ _ An _ _]; [done|].
  split.
  - eapply schema_kept; [apply (bw_kept _ _ _ _ W)|apply (to_schema _ Ok0)].
  - eapply grants_kept; [apply (bw_kept _ _ _ _ W)|apply (bw_grants _ _ _ _ W)|apply (bw_revocations _ _ _ _ W)|apply (to_grants _ Ok0)].
  - by eapply cast_ballots_ok.
  - eapply answered_keys; [done|apply (to_keys _ Ok0)].
Qed.

Lemma grant_tables_ok s input res db db' : grantProxyInTransaction input s db = Ok (res, db') ->
  tables_ok (rest db) -> tables_ok (rest db').
Proof.
  intros (context & root & v & p & r & sha & As & _ & O)%grant_ok Ok0.
  destruct O as [|expiry version response events db1 db2 db' Perm Gadm W _ _ An _ _ _]; [done|].
  destruct (asked_organization _ _ _ _ _ _ _ _ _ _ As) as [Eo Hs]. split.
  - eapply schema_kept; [apply (gw_kept _ _ _ W)|apply (to_schema _ Ok0)].
  - eapply grant_grants_ok; try done. by rewrite Eo.
  - eapply ballots_kept; [apply (gw_kept _ _ _ W)|apply (gw_ballots _ _ _ W)|apply (gw_dispositions _ _ _ W)
      |apply (gw_grants _ _ _ W)| |apply (to_ballots _ Ok0)].
    intros b g Hb ->%list_elem_of_singleton Eg.
    pose proof (bs_backed _ _ (bo_sound _ (to_ballots _ Ok0) b Hb)) as Hk. unfold backed in Hk.
    destruct (bl_source b); [destruct Hk; congruence|]. destruct Hk as [_ (g' & Hg' & Eg' & _)].
    destruct (ga_fresh _ _ Gadm g' Hg') as (Hid & _). congruence.
  - eapply answered_keys; [done|apply (to_keys _ Ok0)].
Qed.

Lemma revoke_tables_ok s input res db db' : revokeProxyInTransaction input s db = Ok (res, db') ->
  tables_ok (rest db) -> tables_ok (rest db').
Proof.
  intros (context & root & v & p & r & reason & sha & As & _ & O)%revoke_ok Ok0.
  destruct O as [|g version response events db1 db2 db' Perm _ W _ _ An _ _ _]; [done|]. split.
  - eapply schema_kept; [apply (vw_kept _ _ _ W)|apply (to_schema _ Ok0)].
  - by eapply revoke_grants_ok.
  - eapply (ballots_kept _ _ []); [apply (vw_kept _ _ _ W)|apply (vw_ballots _ _ _ W)|apply (vw_dispositions _ _ _ W)
      |by rewrite app_nil_r, (vw_grants _ _ _ W)| |apply (to_ballots _ Ok0)]. by intros b q _ ?%elem_of_nil.
  - eapply answered_keys; [done|apply (to_keys _ Ok0)].
Qed.

Lemma vote_step_ok db db' : vote_step db db' -> tables_ok (rest db) -> tables_ok (rest db').
Proof.
  intros [s input res E|s input res E|s input res E|O];
    [by eapply cast_tables_ok|by eapply grant_tables_ok|by eapply revoke_tables_ok|by apply other_ok].
Qed.

Lemma vote_history_ok db db' : rtc vote_step db db' -> tables_ok (rest db) -> tables_ok (rest db').
Proof. induction 1 as [|db1 db2 db3 S _ IH]; [done|]. intros Ok0. by apply IH, (vote_step_ok db1). Qed.

(** Nothing that was cast, granted or disposed of is changed or lost. *)
Record grown t t' : Prop := {
  gn_ballots : exists new, ballots t' = ballots t ++ new;
  gn_dispositions : exists new, ballot_dispositions t' = ballot_dispositions t ++ new;
  gn_grants : exists new, proxy_grants t' = proxy_grants t ++ new;
  gn_revocations : exists new, proxy_revocations t' = proxy_revocations t ++ new
}.

Lemma grown_refl t : grown t t.
Proof. split; exists []; by rewrite app_nil_r. Qed.

Lemma grown_trans t1 t2 t3 : grown t1 t2 -> grown t2 t3 -> grown t1 t3.
Proof.
  intros [(a1 & A1) (b1 & B1) (c1 & C1) (d1 & D1)] [(a2 & A2) (b2 & B2) (c2 & C2) (d2 & D2)].
  split; [exists (a1 ++ a2)|exists (b1 ++ b2)|exists (c1 ++ c2)|exists (d1 ++ d2)]; by rewrite app_assoc, <- ?A1, <- ?B1, <- ?C1, <- ?D1.
Qed.

Lemma same_grown {A} (l l' : list A) : l' = l -> exists new, l' = l ++ new.
Proof. intros ->. exists []. by rewrite app_nil_r. Qed.

Lemma vote_step_grown db db' : vote_step db db' -> grown (rest db) (rest db').
Proof.
  intros [s input res E|s input res E|s input res E|O].
  - apply cast_ok in E as (context & root & v & p & r & sha & _ & _ & O). destruct O as [|? ? ? ? ? ? ? ? _ _ W];
      [apply grown_refl|]. destruct W as [_ Eb Ed Eg Er]. split; [by eexists..|by apply same_grown|by apply same_grown].
  - apply grant_ok in E as (context & root & v & p & r & sha & _ & _ & O). destruct O as [|? ? ? ? ? ? ? _ _ W];
      [apply grown_refl|]. destruct W as [_ Eb Ed Eg Er]. split; first [by apply same_grown|by eexists].
  - apply revoke_ok in E as (context & root & v & p & r & reason & sha & _ & _ & O).
    destruct O as [|? ? ? ? ? ? ? _ _ W]; [apply grown_refl|]. destruct W as [_ Er Eb Ed Eg].
    split; first [by apply same_grown|by eexists].
  - destruct O as [_ _ _ _ Eg (nr & Er & _) Eb (nd & Ed & _) _ _]. split; first [by apply same_grown|by eexists].
Qed.

(** ** The ballots that count *)

(** A ballot counts for a vote when it is effective. *)
Definition counts t (b : BallotRow) : Prop := b ∈ ballots t /\ effective t b = true.

Definition choice_of (text : jsstr) : option BallotChoice :=
  if bool_decide (text = js "yes") then Some yes
  else if bool_decide (text = js "no") then Some no
  else if bool_decide (text = js "abstain") then Some abstain else None.

(** The ballot as the tally takes it. *)
Definition effective_ballot (b : BallotRow) : option EffectiveBallot :=
  c ← choice_of (bl_choice b); Some (MkBallot (bl_principal b) (bl_caster b) c (bl_source b)).

Definition policy_of (text : jsstr) : option PrincipalSupersessionRule :=
  if bool_decide (text = js "principal_supersedes_proxy") then Some principal_supersedes_proxy
  else if bool_decide (text = js "first_ballot_final") then Some first_ballot_final else None.

Lemma choice_known text : text ∈ map js ["yes"; "no"; "abstain"]%string -> exists c, choice_of text = Some c.
Proof.
  cbn [map]. rewrite !elem_of_cons, elem_of_nil. unfold choice_of.
  intros [->|[->|[->|[]]]]; [by exists yes|by exists no|by exists abstain].
Qed.

(** ** Properties *)

(** C14. Through any history of casts, grants, revocations and other
    transactions the tables of votes stay sound: every ballot is by an elector
    and for one, with the weight frozen for it and on the package of its vote, a
    proxy ballot cites a grant of its principal to its caster; at most one ballot
    per principal of a vote counts and none that is by or for an excluded member;
    no one grants twice, and proxies never chain at any time. What was cast,
    granted, revoked or disposed of is never changed or lost. *)
Theorem ballot_history db db' : tables_ok (rest db) -> rtc vote_step db db' ->
  tables_ok (rest db') /\ grown (rest db) (rest db').
Proof.
  intros Ok0 R. split; [by eapply vote_history_ok|]. clear Ok0.
  induction R as [|db1 db2 db3 S _ IH]; [apply grown_refl|]. eapply grown_trans; [by apply vote_step_grown|done].
Qed.

(** A ballot that was cast by right. *)
Record rightly_cast s db (organization : jsstr) (v : VoteRow) (p : PackageRow) (b : BallotRow) : Prop := {
  rc_vote : v ∈ Ballots.votes (rest db) /\ vt_id v = bl_vote b /\ vt_organization v = organization /\
    vt_state v = VoteState_open;
  rc_deadline : exists deadline, vt_deadlineAt v = Some deadline /\ transaction_timestamp s < deadline;
  rc_package : p ∈ decision_packages (rest db) /\ vt_package v = Some (dp_id p) /\ bl_package b = dp_id p;
  rc_principal : seated s db organization (vt_board v) (bl_vote b) (bl_principal b) (bl_votingWeight b);
  rc_caster : exists weight, seated s db organization (vt_board v) (bl_vote b) (bl_caster b) weight;
  rc_included : excluded_from (rest db) (bl_vote b) (bl_principal b) = false /\
    excluded_from (rest db) (bl_vote b) (bl_caster b) = false;
  rc_proxy : bl_caster b <> bl_principal b -> exists g, g ∈ proxy_grants (rest db) /\ bl_proxyGrant b = Some (pg_id g) /\
    pg_vote g = bl_vote b /\ pg_principal g = bl_principal b /\ pg_holder g = bl_caster b /\
    (forall e, pg_expiresAt g = Some e -> transaction_timestamp s < e) /\
    forall r, r ∈ proxy_revocations (rest db) -> pr_grant r <> pg_id g;
  rc_consent : exists payload,
    ballotConsentHash (Ballot.MkInput (bl_vote b) (bl_principal b) (bl_caster b) (bl_choice b) (bl_statement b)
      (bl_proxyGrant b) (dp_packageSha256 p)) = Ok payload /\
    consented_act s db (MkConsentQuery (bl_consent b) (js "stage_ballot") (js "vote") (bl_vote b) payload
      (dp_packageSha256 p))
}.

(** A grant that is active for a session of its organization is not revoked. *)
Lemma active_unrevoked s t g : grants_ok t -> g ∈ proxy_grants t ->
  boardagent_context_uuid (set_organization_id s) = Some (pg_organization g) -> grant_active t s g = true ->
  (forall e, pg_expiresAt g = Some e -> transaction_timestamp s < e) /\
  forall r, r ∈ proxy_revocations t -> pr_grant r <> pg_id g.
Proof.
  intros G Hg Hs [Hr He]%andb_true_iff. split.
  - intros e Ee. rewrite Ee in He. by apply Z.ltb_lt in He.
  - intros r Hin E. apply negb_true_iff in Hr. pose proof (existsb_none _ _ r Hr Hin) as Hn.
    destruct (go_revocations _ G r Hin) as (g' & Hg' & Eid & Eo).
    assert (g' = g) as -> by (eapply (keyed_once pg_id); [apply (go_ids _ G)|done|done|congruence]).
    cbn in Hn. by rewrite E, Hs, Eo, !bool_decide_eq_true_2 in Hn.
Qed.

(** An elector of the vote who was found ready is seated. *)
Lemma ready_seated s db org vote scope context root v p r members m : tables_ok (rest db) ->
  asked s db org vote scope context root v p r -> seats_ready s db org (vr_board root) vote members ->
  elector (rest db) vote m -> m ∈ members -> exists weight, seated s db org (vr_board root) vote m weight.
Proof.
  intros Ok0 As Hr (e & He & Ev & <-) Hm. destruct (asked_organization _ _ _ _ _ _ _ _ _ _ As) as [Eo _].
  pose proof (as_root _ _ _ _ _ _ _ _ _ _ As) as R. pose proof (to_schema _ Ok0) as So.
  pose proof (so_hosted _ So e He) as Hh. rewrite Ev in Hh.
  destruct (rooted_host _ _ _ _ _ _ _ _ _ _ R So Hh) as (E1 & E2 & Hs).
  destruct (so_seats _ So e He) as (q & state & Q1 & Q2 & Q3 & Q4 & Q5).
  assert (vr_board root = vt_board v) as Eb by (by rewrite (rt_root _ _ _ _ _ _ _ _ R)).
  apply (Hr e q state); try done; try congruence.
Qed.

Lemma cast_rightly input s db context root v p r src weight prior : tables_ok (rest db) ->
  asked s db (cb_organizationId input) (cb_voteId input) "vote:act" context root v p r ->
  cast_admitted input s db context root src weight prior ->
  ballot_admitted (rest db) (ballot_row s input (ac_memberId context) root src (cb_statement input) weight) ->
  rightly_cast s db (ac_organizationId context) v p
    (ballot_row s input (ac_memberId context) root src (cb_statement input) weight).
Proof.
  intros Ok0 As Adm Badm. set (b := ballot_row _ _ _ _ _ _ _). destruct (asked_organization _ _ _ _ _ _ _ _ _ _ As) as [Eo Hs].
  pose proof (cast_row_sound _ _ _ _ _ _ _ _ _ _ _ Ok0 As Adm Badm) as Sound. fold b in Sound.
  pose proof As as [_ [Ho1 Ho2] R]. pose proof (rt_root _ _ _ _ _ _ _ _ R) as Er.
  destruct (rt_vote _ _ _ _ _ _ _ _ R) as [Hv Ev], (ca_open _ _ _ _ _ _ _ _ Adm) as (Op & Dl & _).
  destruct (rt_package _ _ _ _ _ _ _ _ R) as (Hp & Epk & _).
  assert (vr_board root = vt_board v) as Eb by (by rewrite Er).
  pose proof (cast_included _ _ _ _ _ _ _ _ _ _ _ Ok0 As Adm) as Hincl. rewrite Ho1. split.
  - split_and!; try done. by rewrite Er in Op.
  - rewrite Er in Dl. cbn in Dl. destruct (vt_deadlineAt v) as [d|]; [|done]. exists d. by apply Z.ltb_lt in Dl.
  - split_and!; try done. cbn. by rewrite Er.
  - rewrite <- Eb. apply (ca_principal _ _ _ _ _ _ _ _ Adm).
  - rewrite <- Eb. eapply ready_seated; [done|exact As|apply (ca_ready _ _ _ _ _ _ _ _ Adm)|apply (bs_caster _ _ Sound)|].
    cbn. rewrite !elem_of_cons. tauto.
  - split; apply Hincl; cbn; rewrite !elem_of_cons; tauto.
  - intros Hne. pose proof (ca_proxy _ _ _ _ _ _ _ _ Adm) as Hpr. rewrite (ca_source _ _ _ _ _ _ _ _ Adm) in Hpr.
    rewrite bool_decide_eq_false_2 in Hpr by exact Hne. destruct Hpr as (g & Hg & Eg & Egv & Egp & Egh & Ha & _).
    exists g. pose proof (go_sound _ (to_grants _ Ok0) g Hg) as (_ & _ & _ & Hh). rewrite Egv in Hh.
    destruct (rooted_host _ _ _ _ _ _ _ _ _ _ R (to_schema _ Ok0) Hh) as (Eg1 & _ & _).
    destruct (active_unrevoked s _ g (to_grants _ Ok0) Hg) as [A1 A2]; [by rewrite Hs, <- Eg1, Eo|done|]. by split_and!.
  - destruct (ca_consent _ _ _ _ _ _ _ _ Adm) as (payload & Hp1 & Hp2). exists payload.
    assert (dp_packageSha256 p = cb_decisionPackageSha256 input) as ->
      by (rewrite <- (ca_package _ _ _ _ _ _ _ _ Adm), Er; done). by split.
Qed.

(** C15. Who casts may cast. When a ballot is cast, and not answered again, it
    is the one asked for and it was cast by right: its vote is open before its
    deadline in the organization of the caller; the principal is seated with the
    weight the ballot gets, and the caller is seated; neither is excluded from
    the vote; who casts for another holds a grant of that principal for this
    vote that is neither revoked nor expired; and the caller consented to exactly
    this ballot on this package, through a confirmed stage and answer. *)
Theorem cast_authorized input s db res db' : tables_ok (rest db) ->
  castBallotInTransaction input s db = Ok (res, db') -> cr_cast res <> None ->
  exists context v p b, readRequestContext s = Ok context /\ rightly_cast s db (ac_organizationId context) v p b /\
    ballots (rest db') = ballots (rest db) ++ [b] /\ bl_id b = cr_ballotId res /\ bl_vote b = cb_voteId input /\
    bl_principal b = cb_principalMemberId input /\ bl_caster b = ac_memberId context /\
    bl_choice b = cb_choice input /\ bl_statement b = cb_statement input /\
    dp_packageSha256 p = cb_decisionPackageSha256 input.
Proof.
  intros Ok0 (context & root & v & p & r & sha & As & _ & O)%cast_ok Hn.
  destruct O as [|src weight prior version response events db1 db' Adm Badm W _ _ _ _ _ _]; [done|].
  exists context, v, p. eexists. split; [apply (as_context _ _ _ _ _ _ _ _ _ _ As)|].
  split; [by eapply cast_rightly|]. split; [apply (bw_ballots _ _ _ _ W)|]. split_and!; try done.
  rewrite <- (ca_package _ _ _ _ _ _ _ _ Adm). by rewrite (rt_root _ _ _ _ _ _ _ _ (as_root _ _ _ _ _ _ _ _ _ _ As)).
Qed.

(** The ballot that counts for a principal of a vote, if any. *)
Definition current_ballot t (vote principal : jsstr) (current : option EffectiveBallot) : Prop :=
  match current with
  | None => forall q, counts t q -> bl_vote q = vote -> bl_principal q <> principal
  | Some e => exists q, counts t q /\ bl_vote q = vote /\ bl_principal q = principal /\ effective_ballot q = Some e
  end.

(** The ballot that a cast supersedes. *)
Lemma rival_superseded input s db context root v p r src weight prior t' q : tables_ok (rest db) ->
  asked s db (cb_organizationId input) (cb_voteId input) "vote:act" context root v p r ->
  cast_admitted input s db context root src weight prior ->
  ballot_written (rest db) t' (ballot_row s input (ac_memberId context) root src (cb_statement input) weight)
    (disposition_rows input prior) ->
  counts (rest db) q -> bl_vote q = cb_voteId input -> bl_principal q = cb_principalMemberId input ->
  bl_source q = proxy /\ src = own /\ ru_proxyPolicy r = js "principal_supersedes_proxy" /\
  exists d, d ∈ ballot_dispositions t' /\ bd_prior d = bl_id q /\ bd_superseding d = Some (cb_ballotId input) /\
    bd_effect d = superseded.
Proof.
  intros Ok0 As Adm W [Hq He] Ev Ep. pose proof (prior_active _ _ _ _ _ _ _ _ _ _ _ Ok0 As Adm) as Hp.
  destruct prior as [a|]; [|by destruct (Hp q Hq He Ev)].
  destruct Hp as (_ & _ & _ & _ & P1 & P2 & P3 & Hu). rewrite (Hu q Hq He Ev Ep). split; [done|]. split; [done|].
  rewrite (rt_root _ _ _ _ _ _ _ _ (as_root _ _ _ _ _ _ _ _ _ _ As)) in P3. split; [done|].
  eexists. split; [rewrite (bw_dispositions _ _ _ _ W); apply elem_of_app; right; by apply list_elem_of_singleton|done].
Qed.

(** C16. Which ballots count after one is cast: the new one, and those of other
    principals and votes that counted before. The ballot of the same principal
    that counted before, if there was one, was cast by proxy, and now is
    superseded by the own ballot of the principal; this needs the policy of the
    vote, and it is what [chooseEffectiveBallot] of lib/domain decides. *)
Theorem cast_precedence input s db res db' : tables_ok (rest db) ->
  castBallotInTransaction input s db = Ok (res, db') -> cr_cast res <> None ->
  exists b new v r, bl_id b = cr_ballotId res /\ bl_vote b = cb_voteId input /\
    bl_principal b = cb_principalMemberId input /\ effective_ballot b = Some new /\
    v ∈ Ballots.votes (rest db) /\ vt_id v = cb_voteId input /\ r ∈ approval_rules (rest db) /\ ru_id r = vt_approvalRule v /\
    (forall q, counts (rest db') q <-> q = b \/
       (counts (rest db) q /\ ~ (bl_vote q = cb_voteId input /\ bl_principal q = cb_principalMemberId input))) /\
    (forall q, counts (rest db) q -> bl_vote q = cb_voteId input -> bl_principal q = cb_principalMemberId input ->
       bl_source q = proxy /\ bl_source b = own /\ ru_proxyPolicy r = js "principal_supersedes_proxy" /\
       exists d, d ∈ ballot_dispositions (rest db') /\ bd_prior d = bl_id q /\ bd_superseding d = Some (bl_id b) /\
         bd_effect d = superseded) /\
    forall current policy, current_ballot (rest db) (cb_voteId input) (cb_principalMemberId input) current ->
      policy_of (ru_proxyPolicy r) = Some policy -> chooseEffectiveBallot current new policy = Ok new.
Proof.
  intros Ok0 (context & root & v & p & r & sha & As & _ & O)%cast_ok Hn.
  destruct O as [|src weight prior version response events db1 db' Adm Badm W Fr _ _ _ _ _]; [done|].
  destruct (choice_known _ (ba_choice _ _ Badm)) as (c & Ec). cbn in Ec.
  pose proof (as_root _ _ _ _ _ _ _ _ _ _ As) as R. destruct (rt_vote _ _ _ _ _ _ _ _ R), (rt_rule _ _ _ _ _ _ _ _ R).
  exists (ballot_row s input (ac_memberId context) root src (cb_statement input) weight),
    (MkBallot (cb_principalMemberId input) (ac_memberId context) c src), v, r.
  split_and!; try done; [unfold effective_ballot; cbn; by rewrite Ec|..].
  - intros q. unfold counts. rewrite (effective_after _ _ _ _ _ _ _ _ _ _ _ Ok0 As Adm _ Badm W Fr).
    pose proof (no_rival _ _ _ _ _ _ _ _ _ _ _ Ok0 As Adm q) as Hrival.
    pose proof (prior_active _ _ _ _ _ _ _ _ _ _ _ Ok0 As Adm) as Hp. split; [|intros [->|[[Hq He] Hne]]].
    + intros [(Hq & He & Hne)| ->]; [right|by left]. split; [done|]. intros [Ev Ep]. by apply Hrival.
    + by right.
    + left. split_and!; [done..|]. intros ->. apply Hne. tauto.
  - intros q Hq Ev Ep. by eapply rival_superseded.
  - intros [e|] policy Hc Hpol; [|done]. destruct Hc as (q & Hq & Ev & Ep & Ee).
    destruct (rival_superseded _ _ _ _ _ _ _ _ _ _ _ _ q Ok0 As Adm W Hq Ev Ep) as (_ & Eown & Erule & _).
    cbn in Eown. subst src. rewrite Erule in Hpol. injection Hpol as <-. unfold effective_ballot in Ee.
    destruct (choice_of (bl_choice q)); [|done]. injection Ee as <-. unfold chooseEffectiveBallot.
    cbn [principalMemberId source]. rewrite !bool_decide_eq_false_2; [done|by intros []|done|by intros []].
Qed.

(** *** Retries *)

(** The record that answers a request. *)
Definition answers t (op : VoteOperation) (context : ActiveRequestContext) (key sha id response : jsstr)
    (r : IdempotencyRow) : Prop :=
  r ∈ idempotency_records t /\ im_actor r = ac_memberId context /\ im_client r = ac_clientId context /\
  im_operation r = operation_text op /\ im_key r = pg_text key /\ im_organization r = ac_organizationId context /\
  im_requestSha256 r = sha /\ im_state r = idem_succeeded /\ exists type, im_response r = Some (type, id, response).

Lemma context_scope s context : readRequestContext s = Ok context ->
  boardagent_context_uuid (set_organization_id s) = Some (ac_organizationId context).
Proof.
  unfold readRequestContext. destruct (boardagent_context_uuid (set_organization_id s)); [|done].
  repeat (destruct (boardagent_context_uuid _); [|done]). by intros [= <-].
Qed.

Lemma recalled_answers op context key sha id response s db : readRequestContext s = Ok context ->
  recalled op context key sha id response s db -> exists r, answers (rest db) op context key sha id response r.
Proof.
  intros Hc [_ (r & type & A1 & A2 & A3 & A4 & A5 & A6 & A7 & A8 & A9)]. exists r. split_and!; try done; [|by exists type].
  unfold scoped in A6. apply andb_true_iff in A6 as [A6 _]. apply bool_decide_eq_true in A6.
  rewrite (context_scope _ _ Hc) in A6. congruence.
Qed.

Lemma answered_answers op id context key sha type rid response s t t' :
  answered op id (ac_organizationId context) context key sha (type, rid, response) s t t' ->
  exists r, answers t' op context key sha rid response r.
Proof.
  intros [E _ _]. eexists. unfold answers. rewrite E. split; [apply elem_of_app; right; by apply list_elem_of_singleton|].
  split_and!; try done. by exists type.
Qed.

(** An answered request is found again. *)
Lemma replay_found op context key sha id response r s db : readRequestContext s = Ok context ->
  NoDup (map request_key (idempotency_records (rest db))) -> answers (rest db) op context key sha id response r ->
  pg_takes key = true -> is_hex64 sha = true ->
  readIdempotency (ac_memberId context) (ac_clientId context) op key s db = Ok (Some r, db) /\
  checkedReplay (Some r) sha = Ok (Some (id, response)).
Proof.
  intros Hc Hd (A1 & A2 & A3 & A4 & A5 & A6 & A7 & A8 & type & A9) Hk Hx. split.
  - unfold readIdempotency, fail_if, mbind, tx_bind, mret, tx_ret, ask, get. rewrite Hk. cbn [negb].
    match goal with |- context [List.find ?f ?l] => destruct (List.find f l) as [q|] eqn:Ef end.
    + apply List.find_some in Ef as [Hq%list_elem_of_In Hb]. boolify. repeat f_equal.
      eapply (keyed_once request_key); [done..|]. unfold request_key. congruence.
    + exfalso. eapply List.find_none in Ef; [|by apply list_elem_of_In]. cbv beta in Ef. revert Ef.
      unfold scoped. rewrite (context_scope _ _ Hc), A6. by rewrite !bool_decide_eq_true_2.
  - unfold checkedReplay. rewrite A7, A8, A9. by rewrite safeHashEqual_refl.
Qed.

(** Only the request that was answered gets the answer. *)
Lemma answered_once op context key sha sha' id id' response response' r s db : readRequestContext s = Ok context ->
  NoDup (map request_key (idempotency_records (rest db))) -> answers (rest db) op context key sha id response r ->
  recalled op context key sha' id' response' s db -> sha' = sha /\ id' = id /\ response' = response.
Proof.
  intros Hc Hd (A1 & A2 & A3 & A4 & A5 & _ & A7 & _ & type & A9) [_ (q & type' & B1 & B2 & B3 & B4 & B5 & _ & B7 & _ & B9)].
  assert (q = r) as -> by (eapply (keyed_once request_key); [done..|]; unfold request_key; congruence).
  split_and!; congruence.
Qed.

(** What an answer is when it is given again. *)
Definition again (res : CastBallotResult) : CastBallotResult :=
  MkCastResult (cr_voteId res) (cr_ballotId res) (cr_principalMemberId res) (cr_source res) (cr_responseSha256 res) None.

Lemma cast_answers s input res db db' : castBallotInTransaction input s db = Ok (res, db') ->
  exists context sha r, readRequestContext s = Ok context /\
    cast_request input (ac_memberId context) (cb_statement input) = Ok sha /\
    answers (rest db') cast_ballot context (cb_idempotencyKey input) sha (cr_ballotId res) (cr_responseSha256 res) r /\
    again res = MkCastResult (cb_voteId input) (cr_ballotId res) (cb_principalMemberId input)
      (if bool_decide (ac_memberId context = cb_principalMemberId input) then own else proxy) (cr_responseSha256 res) None.
Proof.
  intros (context & root & v & p & r & sha & As & Hsha & O)%cast_ok. exists context, sha.
  pose proof (as_context _ _ _ _ _ _ _ _ _ _ As) as Hc. destruct (as_organization _ _ _ _ _ _ _ _ _ _ As) as [Ho _].
  destruct O as [id response Hr|src weight prior version response events db1 db' Adm _ _ _ _ _ An _ _].
  - destruct (recalled_answers _ _ _ _ _ _ _ _ Hc Hr) as (q & Hq). by exists q.
  - rewrite <- Ho in An. destruct (answered_answers _ _ _ _ _ _ _ _ _ _ _ An) as (q & Hq).
    exists q. split_and!; try done. unfold again. cbn. by rewrite (ca_source _ _ _ _ _ _ _ _ Adm).
Qed.

Lemma lift_bind {A B} (m : result A) (f : A -> Tx DB B) s db a : m = Ok a -> (lift m ≫= f) s db = f a s db.
Proof. by intros ->. Qed.
Lemma fail_if_bind {B} (c : bool) e (f : unit -> Tx DB B) s db : c = false -> (fail_if c e ≫= f) s db = f tt s db.
Proof. by intros ->. Qed.
Lemma ask_bind {B} (f : Session -> Tx DB B) s db : (ask ≫= f) s db = f s s db.
Proof. done. Qed.
Lemma step_bind {A B} (m : Tx DB A) (f : A -> Tx DB B) s db a db' : m s db = Ok (a, db') -> (m ≫= f) s db = f a s db'.
Proof. unfold mbind, tx_bind. by intros ->. Qed.

(** What was parsed is what was given. *)
Ltac keep_input := repeat match goal with
  | H : UuidV7Schema _ = Ok ?x |- _ => is_var x; let Q := fresh in pose proof H as Q; apply parse_ok in Q as [-> _]
  | H : Sha256HexSchema _ = Ok ?x |- _ => is_var x; let Q := fresh in pose proof H as Q; apply parse_ok in Q as [-> _]
  | H : parse_nullable canonicalText _ = Ok ?x |- _ => is_var x; let Q := fresh in pose proof H as Q;
      apply parse_nullable_ok in Q as [-> _]; [|by intros ? ? [-> _]%canonicalText_ok]
  | H : parse_nullable UuidV7Schema _ = Ok ?x |- _ => is_var x; let Q := fresh in pose proof H as Q;
      apply parse_nullable_ok in Q as [-> _]; [|by intros ? ? [-> _]%parse_ok]
  | H : validateIdempotencyKey ?k = Ok ?x |- _ => is_var x; assert (x = k) as -> by
      (revert H; unfold validateIdempotencyKey; destruct (in_range 16 256 _); congruence)
  end.

(** Replays the statements whose outcome is among the hypotheses. *)
Ltac run_tx := repeat match goal with
  | H : ?m = Ok _ |- context [(lift ?m ≫= _) _ _] => rewrite (lift_bind m _ _ _ _ H)
  | H : ?c = false |- context [(fail_if ?c _ ≫= _) _ _] => rewrite (fail_if_bind c _ _ _ _ H)
  | |- context [(ask ≫= _) _ _] => rewrite ask_bind
  | H : ?m ?s ?db = Ok (_, _) |- context [(?m ≫= _) ?s ?db] => rewrite (step_bind m _ _ _ _ _ H)
  end.

Lemma lock_vote_run vote org scope e root s db : lockVoteRoot vote scope s db = Ok (Some root, db) ->
  vr_organization root = org -> lock_vote vote org scope e s db = Ok (root, db).
Proof. intros E Eo. unfold lock_vote. rewrite (step_bind _ _ _ _ _ _ E). by rewrite bool_decide_eq_true_2. Qed.

Lemma cast_replay input s s' root db res db' db'' context sha r :
  castBallotInTransaction input s db = Ok (res, db') -> readRequestContext s' = readRequestContext s ->
  readRequestContext s' = Ok context -> cast_request input (ac_memberId context) (cb_statement input) = Ok sha ->
  lockVoteRoot (cb_voteId input) "vote:act" s' db'' = Ok (Some root, db'') ->
  vr_organization root = cb_organizationId input -> NoDup (map request_key (idempotency_records (rest db''))) ->
  answers (rest db'') cast_ballot context (cb_idempotencyKey input) sha (cr_ballotId res) (cr_responseSha256 res) r ->
  castBallotInTransaction input s' db'' = Ok (MkCastResult (cb_voteId input) (cr_ballotId res) (cb_principalMemberId input)
    (if bool_decide (ac_memberId context = cb_principalMemberId input) then own else proxy) (cr_responseSha256 res) None, db'').
Proof.
  intros E Hctx Hc Hsha Hroot Horg Hd Ha. unfold castBallotInTransaction in E. inv_tx. keep_input.
  match goal with Hq : readRequestContext s = Ok ?c |- _ => assert (c = context) as -> by congruence end.
  pose proof (fun e => lock_vote_run _ _ _ e _ _ _ Hroot Horg) as Hlock.
  match goal with Hq : readIdempotency _ _ _ _ _ _ = Ok _ |- _ => apply read_idempotency_ok in Hq as (_ & Hk & _) end.
  destruct (replay_found _ _ _ _ _ _ _ _ _ Hc Hd Ha Hk) as [Hread Hreplay]; [by eapply canonicalSha256_hex64|].
  unfold castBallotInTransaction. run_tx.
  rewrite (step_bind _ _ _ _ _ _ (Hlock _)), (step_bind _ _ _ _ _ _ Hread), (lift_bind _ _ _ _ _ Hreplay). done.
Qed.

(** C18. A retry is answered, not repeated. Once a ballot was cast, and as long as
    its answer is on record and the vote is visible, the same request by the same
    caller, at any time and whatever became of the vote, gets the same answer and
    leaves the database as it is; and no other request gets an answer under its
    idempotency key. *)
Theorem cast_retried input s s' root db res db' db'' : castBallotInTransaction input s db = Ok (res, db') ->
  tables_ok (rest db'') -> (forall r, r ∈ idempotency_records (rest db') -> r ∈ idempotency_records (rest db'')) ->
  readRequestContext s' = readRequestContext s ->
  lockVoteRoot (cb_voteId input) "vote:act" s' db'' = Ok (Some root, db'') ->
  vr_organization root = cb_organizationId input ->
  castBallotInTransaction input s' db'' = Ok (again res, db'') /\
  forall input2 res2 db2, castBallotInTransaction input2 s' db'' = Ok (res2, db2) ->
    cb_idempotencyKey input2 = cb_idempotencyKey input -> again res2 = res2 /\ db2 = db'' /\
    cr_ballotId res2 = cr_ballotId res /\ cr_responseSha256 res2 = cr_responseSha256 res /\
    exists member sha, cast_request input2 member (cb_statement input2) = Ok sha /\
      cast_request input member (cb_statement input) = Ok sha.
Proof.
  intros E Ok2 Hkept Hctx Hroot Horg. destruct (cast_answers _ _ _ _ _ E) as (context & sha & r & Hc & Hsha & Ha & ->).
  assert (answers (rest db'') cast_ballot context (cb_idempotencyKey input) sha (cr_ballotId res) (cr_responseSha256 res) r)
    as Ha2 by (destruct Ha; split; auto).
  rewrite <- Hctx in Hc. split.
  - by eapply cast_replay; [exact E|..|apply (to_keys _ Ok2)|].
  - intros input2 res2 db2 (c2 & root2 & v2 & p2 & r2 & sha2 & As2 & Hsha2 & O2)%cast_ok Ek.
    pose proof (as_context _ _ _ _ _ _ _ _ _ _ As2) as Hc2. rewrite Hc in Hc2. injection Hc2 as <-.
    destruct O2 as [id response Hr|? ? ? ? ? ? ? ? _ _ _ _ _ _ An _ _].
    + rewrite Ek in Hr. destruct (answered_once _ _ _ _ _ _ _ _ _ _ _ _ Hc (to_keys _ Ok2) Ha2 Hr) as (-> & -> & ->).
      split_and!; try done. by exists (ac_memberId context), sha.
    + exfalso. destruct Ha2 as (A1 & A2 & A3 & A4 & A5 & _). rewrite <- Ek in A5. by apply (an_key _ _ _ _ _ _ _ _ _ _ An r).
Qed.
End histories.

(** ** A concrete vote *)

Definition sample_platform : Platform := plain_platform.
Definition sample_time : IsoTime := plain_time.
Definition vote_clock : PgClock := {| to_char_utc t := js "2026-01-02T03:04:05.000000Z" |}.
Definition vote_sql : SqlAuthority (VoteTables unit) :=
  {| boardagent_owned_administrative_stage _ _ _ := false;
     boardagent_owned_administrative_audit _ _ _ := false;
     administrative_snapshot_current _ _ _ _ := false |}.
Definition vote_authority : VoteAuthority unit :=
  {| boardagent_vote_actor_ready_for_scope _ _ _ _ := true;
     boardagent_member_record_recused _ _ _ _ := false;
     pg_timestamptz _ := None |}.

Definition id_of (n : string) : jsstr := js "01890000-0000-7000-8000-0000000000" ++ js n.
Definition org := id_of "01".
Definition alice := id_of "02".
Definition bob := id_of "07".
Definition board := id_of "09".
Definition the_vote := id_of "30".
Definition package_sha : jsstr := replicate 64 97.

Definition session_of (member : jsstr) : Session :=
  installLocalContext 1000000 (MkContext org member (id_of "03") (id_of "04") [board], replicate 64 97).

(** Alice grants Bob her proxy, Bob casts for her, and then she casts herself. *)
Definition grant_input : GrantProxyInput :=
  MkGrantInput org the_vote bob package_sha (js "principal_supersedes_proxy") None (id_of "41") (id_of "70")
    (id_of "71") (js "grant-request-0001") (id_of "72").
Definition proxy_input : CastBallotInput :=
  MkCastInput org the_vote alice package_sha (js "no") None (Some (id_of "70")) (id_of "42") (id_of "73") (id_of "74")
    (id_of "75") (id_of "76") (js "ballot-request-001") (id_of "77").
Definition own_input : CastBallotInput :=
  MkCastInput org the_vote alice package_sha (js "yes") (Some (js "for it")) None (id_of "43") (id_of "78") (id_of "79")
    (id_of "7a") (id_of "7b") (js "ballot-request-002") (id_of "7c").

Definition hash_of (r : result jsstr) : jsstr := match r with Ok h => h | Throw _ => [] end.

(** A consent, its stage and the answer that confirmed it. *)
Definition consent_of (n : string) (actor action payload : jsstr) : ConsentRow * StageRow * AttemptRow :=
  (MkConsent (id_of ("4" ++ n)) org (Some board) (id_of ("5" ++ n)) (id_of ("6" ++ n)) actor None action (js "vote")
     (Some the_vote) payload (Some package_sha) [] (id_of "05") (id_of "04") (id_of "03") [] 0 0 [],
   MkStage (MkBinding (id_of ("5" ++ n)) org (Some board) actor None action (js "vote") (Some the_vote) [] [] payload
     (Some package_sha) [] [] (id_of "03") (id_of "05") (id_of "04") [] [] None 0 0) stage_confirmed (Some 0) None None,
   MkAttemptRow (id_of ("6" ++ n)) org (id_of ("5" ++ n)) None action [] [] [] [] [] [] [] None None (Some (js "accept"))
     attempt_confirmed None).

#[local] Existing Instances sample_platform sample_time vote_clock vote_sql vote_authority.

Definition sample_consents : list (ConsentRow * StageRow * AttemptRow) :=
  [consent_of "1" alice (js "grant_proxy") (hash_of (proxyGrantConsentHash
     (ProxyGrant.MkInput the_vote alice bob (js "principal_supersedes_proxy") None package_sha)));
   consent_of "2" bob (js "stage_ballot") (hash_of (ballotConsentHash
     (Ballot.MkInput the_vote alice bob (js "no") None (Some (id_of "70")) package_sha)));
   consent_of "3" alice (js "stage_ballot") (hash_of (ballotConsentHash
     (Ballot.MkInput the_vote alice alice (js "yes") (Some (js "for it")) None package_sha)))].

Definition opened_with {X} (x : X) : VoteTables X :=
  MkTables [MkVote the_vote org board VoteState_open 1 (Some (id_of "31")) (id_of "32") (Some 9000000) (js "Budget")
     (Some (id_of "33"))]
    [MkPackage (id_of "31") org board the_vote package_sha (js "{}")]
    [MkRuleRow (id_of "32") org board (js "principal_supersedes_proxy")]
    [(org, alice, js "active"); (org, bob, js "active")]
    [MkMembership org board alice (js "voting_member") 1 (js "active") 0 None;
     MkMembership org board bob (js "voting_member") 2 (js "active") 0 None]
    [MkElector org board the_vote alice 1 true; MkElector org board the_vote bob 2 false]
    [] [] [] [] [] [] [] [] [] x.

Definition opened_at {X} (x : X) : Database (VoteTables X) :=
  MkDatabase (map (fun c => c.1.2) sample_consents) (map snd sample_consents) (map (fun c => c.1.1) sample_consents)
    [] [(id_of "03", true)] [] [(org, board)] [(org, alice); (org, bob)] [] [] (0, GENESIS_HASH) [] (opened_with x).

Definition opened : Database (VoteTables unit) := opened_at tt.

Definition left_by {A} (r : result (A * Database (VoteTables unit))) : Database (VoteTables unit) :=
  match r with Ok (_, db) => db | Throw _ => opened end.

Definition sample_grant := grantProxyInTransaction grant_input (session_of alice) opened.
Definition granted_db := left_by sample_grant.
Definition sample_proxy_cast := castBallotInTransaction proxy_input (session_of bob) granted_db.
Definition proxied_db := left_by sample_proxy_cast.
Definition sample_own_cast := castBallotInTransaction own_input (session_of alice) proxied_db.
Definition cast_db := left_by sample_own_cast.

Lemma left_by_ok {A} (r : result (A * Database (VoteTables unit))) : is_ok r = true -> exists a, r = Ok (a, left_by r).
Proof. destruct r as [[a db]|e]; [|done]. intros _. by exists a. Qed.

Lemma grant_runs : exists res, sample_grant = Ok (res, granted_db).
Proof. unfold granted_db. destruct (left_by_ok sample_grant) as (res & E); [vm_compute; reflexivity|]. exists res. exact E. Qed.
Lemma proxy_cast_runs : exists res, sample_proxy_cast = Ok (res, proxied_db) /\ cr_cast res <> None.
Proof.
  unfold proxied_db. destruct (left_by_ok sample_proxy_cast) as (res & E); [vm_compute; reflexivity|]. exists res. split; [exact E|].
  assert (match sample_proxy_cast with Ok (res, _) => is_some (cr_cast res) | Throw _ => false end = true) as Hs
    by (vm_compute; reflexivity). rewrite E in Hs. by destruct (cr_cast res).
Qed.
Lemma own_cast_runs : exists res, sample_own_cast = Ok (res, cast_db) /\ cr_cast res <> None.
Proof.
  unfold cast_db. destruct (left_by_ok sample_own_cast) as (res & E); [vm_compute; reflexivity|]. exists res. split; [exact E|].
  assert (match sample_own_cast with Ok (res, _) => is_some (cr_cast res) | Throw _ => false end = true) as Hs
    by (vm_compute; reflexivity). rewrite E in Hs. by destruct (cr_cast res).
Qed.

Lemma opened_schema {X} (x : X) : schema_ok (opened_with x).
Proof.
  assert (forall e, e ∈ vote_electorate (opened_with x) -> e = MkElector org board the_vote alice 1 true \/
    e = MkElector org board the_vote bob 2 false) as He.
  { intros e. cbn [vote_electorate opened_with]. rewrite !elem_of_cons, elem_of_nil. tauto. }
  assert (hosted (opened_with x) the_vote org board) as Hh by (eexists; split; [by left|done]).
  split.
  - apply NoDup_singleton.
  - apply NoDup_singleton.
  - apply NoDup_cons. split; [|apply NoDup_singleton]. intros E%list_elem_of_singleton.
    apply (f_equal snd) in E. cbn [snd el_member] in E. vm_compute in E. discriminate E.
  - intros e [->| ->]%He; cbn; unfold MAX_VOTING_WEIGHT; lia.
  - intros e e' [->| ->]%He [->| ->]%He; done.
  - intros e [->| ->]%He; exact Hh.
  - intros e [->| ->]%He;
      [exists (MkMembership org board alice (js "voting_member") 1 (js "active") 0 None)
      |exists (MkMembership org board bob (js "voting_member") 2 (js "active") 0 None)]; exists (js "active");
      cbn [board_memberships member_states opened_with el_organization el_member]; rewrite !elem_of_cons; tauto.
  - constructor.
  - by intros y ?%elem_of_nil.
Qed.

Lemma opened_with_ok {X} (x : X) : tables_ok (opened_with x).
Proof.
  split; [apply opened_schema|split|split|constructor]; cbn; try (by constructor); try (by intros ? ?%elem_of_nil);
    try (by intros ? ? ?%elem_of_nil).
  by intros g g' clock (?%elem_of_nil & _).
Qed.

Lemma opened_ok : tables_ok (rest opened).
Proof. apply opened_with_ok. Qed.

Lemma granted_ok : tables_ok (rest granted_db).
Proof.
  destruct grant_runs as (res & E). unfold sample_grant in E. exact (grant_tables_ok _ _ _ _ _ E opened_ok).
Qed.
Lemma proxied_ok : tables_ok (rest proxied_db).
Proof.
  destruct proxy_cast_runs as (res & E & _). unfold sample_proxy_cast in E. exact (cast_tables_ok _ _ _ _ _ E granted_ok).
Qed.
Lemma cast_ok_tables : tables_ok (rest cast_db).
Proof.
  destruct own_cast_runs as (res & E & _). unfold sample_own_cast in E. exact (cast_tables_ok _ _ _ _ _ E proxied_ok).
Qed.

Lemma sample_history_steps : rtc vote_step opened cast_db.
Proof.
  destruct grant_runs as (r1 & E1), proxy_cast_runs as (r2 & E2 & _), own_cast_runs as (r3 & E3 & _).
  unfold sample_grant, sample_proxy_cast, sample_own_cast in *.
  apply (rtc_l _ _ granted_db); [exact (step_grant _ _ _ _ _ E1)|].
  apply (rtc_l _ _ proxied_db); [exact (step_cast _ _ _ _ _ E2)|].
  apply rtc_once. exact (step_cast _ _ _ _ _ E3).
Qed.

Lemma ballot_history_witness : length (ballots (rest cast_db)) = 2%nat /\ tables_ok (rest cast_db) /\
  grown (rest opened) (rest cast_db).
Proof. split; [vm_compute; reflexivity|]. exact (ballot_history opened cast_db opened_ok sample_history_steps). Defined.

Lemma cast_authorized_witness : exists context v p b, readRequestContext (session_of bob) = Ok context /\
  rightly_cast (session_of bob) granted_db (ac_organizationId context) v p b /\ bl_principal b = alice /\
  bl_caster b = ac_memberId context.
Proof.
  destruct proxy_cast_runs as (res & E & Hc). unfold sample_proxy_cast in E.
  destruct (cast_authorized proxy_input (session_of bob) granted_db res proxied_db granted_ok E Hc)
    as (context & v & p & b & H1 & H2 & _ & _ & _ & H3 & H4 & _).
  exists context, v, p, b. split; [exact H1|]. split; [exact H2|]. split; [exact H3|exact H4].
Defined.

Lemma cast_precedence_witness : map (fun b => (bl_source b, effective (rest cast_db) b)) (ballots (rest cast_db))
    = [(proxy, false); (own, true)] /\
  exists b, bl_principal b = alice /\ forall q, counts (rest cast_db) q <-> q = b \/
    (counts (rest proxied_db) q /\ ~ (bl_vote q = the_vote /\ bl_principal q = alice)).
Proof.
  split; [vm_compute; reflexivity|]. destruct own_cast_runs as (res & E & Hc). unfold sample_own_cast in E.
  destruct (cast_precedence own_input (session_of alice) proxied_db res cast_db proxied_ok E Hc)
    as (b & new & v & r & _ & _ & H1 & _ & _ & _ & _ & _ & H2 & _).
  exists b. split; [exact H1|exact H2].
Defined.

Lemma sample_root : exists root, lockVoteRoot the_vote "vote:act" (session_of alice) cast_db = Ok (Some root, cast_db) /\
  vr_organization root = org.
Proof.
  assert (match lockVoteRoot the_vote "vote:act" (session_of alice) cast_db with
          | Ok (Some root, _) => bool_decide (vr_organization root = org) | _ => false end = true) as Hs
    by (vm_compute; reflexivity).
  unfold lockVoteRoot, mbind, tx_bind, ask, get, mret, tx_ret in *.
  match type of Hs with context [match ?o with Some _ => _ | None => _ end] => destruct o as [root|] eqn:Er end; [|discriminate Hs].
  exists root. split; [reflexivity|]. by apply bool_decide_eq_true in Hs.
Qed.

Lemma cast_retried_witness : exists res, sample_own_cast = Ok (res, cast_db) /\
  castBallotInTransaction own_input (session_of alice) cast_db = Ok (again res, cast_db).
Proof.
  destruct own_cast_runs as (res & E & _), sample_root as (root & Hr & Ho). exists res. split; [exact E|].
  unfold sample_own_cast in E.
  exact (proj1 (cast_retried own_input (session_of alice) (session_of alice) root proxied_db res cast_db cast_db E
    cast_ok_tables (fun r Hin => Hin) eq_refl Hr Ho)).
Defined.
