(* ===== verification/CloseTally.v ===== *)
(** * The tally of a vote that is closed

    The evidence that lib/db/src/transactions/vote-close.ts reads of a vote
    (boardagent_vote_close_evidence of migration 0023, the columns of the tally)
    and the part of its [buildClosePayload] that checks the ballots against it
    and tallies them; and that the ballots of any history can be tallied. *)

From stdpp Require Import base numbers sorting strings list relations.
From Stdlib Require Import Lia.
From S2P Require Import Prelude JsString Encoding JsNumber Json JsonParse JsonCanon Schemas.
From S2P Require Import StateMachines ValueObjects Decode VotingConsent KeyLifecycle AuditEvent Request Database AuditAppend.
From S2P Require Import StagedAction StagedMoves Voting.
From S2P Require Import Ballots BallotEffects BallotHistory.

Local Open Scope Z_scope.

(** ** The evidence *)

Record CloseEvidence := MkEvidence {
  ce_electorate : list ElectorRow;
  ce_exclusions : list ExclusionRow;
  ce_proxies : list GrantRow;
  (** each with whether it was disposed of *)
  ce_ballots : list (BallotRow * bool)
}.

Definition integrity_failure (msg : string) : exn := VoteCloseTransactionError "vote_close_integrity_failure" msg.

(** [order by member_id, version] *)
Definition cmp_exclusion (a b : ExclusionRow) : Z :=
  let c := cmp_units (ex_member a) (ex_member b) in if c =? 0 then ex_version a - ex_version b else c.

(** [order by principal_member_id, cast_at, id] *)
Definition cmp_ballot (a b : BallotRow * bool) : Z :=
  let c := cmp_units (bl_principal a.1) (bl_principal b.1) in
  if c =? 0
  then if bl_castAt a.1 - bl_castAt b.1 =? 0 then cmp_units (bl_id a.1) (bl_id b.1) else bl_castAt a.1 - bl_castAt b.1
  else c.

Section evidence.
Context `{Platform} {X : Type}.
Implicit Types t : VoteTables X.

Definition boardagent_vote_close_evidence t (vote : jsstr) : CloseEvidence :=
  MkEvidence
    (toSorted (fun a b => cmp_units (el_member a) (el_member b))
       (List.filter (fun e => bool_decide (el_vote e = vote)) (vote_electorate t)))
    (toSorted cmp_exclusion (List.filter (fun e => bool_decide (ex_vote e = vote)) (vote_exclusions t)))
    (toSorted (fun a b => cmp_units (pg_id a) (pg_id b))
       (List.filter (fun g => bool_decide (pg_vote g = vote)) (proxy_grants t)))
    (toSorted cmp_ballot
       (map (fun b => (b, negb (effective t b))) (List.filter (fun b => bool_decide (bl_vote b = vote)) (ballots t)))).

(** ** [buildClosePayload] *)

Definition latest_exclusion (evidence : CloseEvidence) : list (jsstr * ExclusionRow) :=
  map_of (map (fun e => (ex_member e, e)) (ce_exclusions evidence)).

Definition close_seats (evidence : CloseEvidence) : list ElectorSeat :=
  map (fun e => MkSeat (el_member e) voting_member (el_votingWeight e) true
                  match map_get (latest_exclusion evidence) (el_member e) with Some x => ex_excluded x | None => false end
                  (el_isChair e)) (ce_electorate evidence).

(** The statement and its digest. *)
Definition check_statement (b : BallotRow) : result unit :=
  throw_if (negb (eqb (is_null (bl_statement b)) (is_null (bl_statementSha256 b))))
    (integrity_failure "ballot statement evidence is incomplete") ≫= fun _ =>
  match bl_statement b, bl_statementSha256 b with
  | Some text, Some digest =>
      canonical ← canonicalText text;
      throw_if (negb (safeHashEqual (sha256Hex canonical) digest))
        (integrity_failure "ballot statement does not match its persisted hash")
  | _, _ => Ok tt
  end.

(** Who cast it, and by which grant. *)
Definition check_attribution (proxies : list (jsstr * GrantRow)) (proxyPolicy : jsstr) (b : BallotRow) : result unit :=
  match bl_source b with
  | own =>
      throw_if (negb (bool_decide (bl_caster b = bl_principal b)) || is_some (bl_proxyGrant b))
        (integrity_failure "own ballot attribution is invalid")
  | proxy =>
      throw_if (match (id ← bl_proxyGrant b; map_get proxies id) with
                | Some g => negb (bool_decide (pg_principal g = bl_principal b))
                            || negb (bool_decide (pg_holder g = bl_caster b))
                            || negb (bool_decide (pg_policy g = proxyPolicy))
                | None => true
                end) (integrity_failure "proxy ballot does not bind its exact frozen grant")
  end.

Definition close_ballot (package proxyPolicy : jsstr) (electorate : list (jsstr * ElectorRow))
    (proxies : list (jsstr * GrantRow)) (effectiveBallots : list EffectiveBallot) (row : BallotRow * bool)
    : result (list EffectiveBallot) :=
  let '(b, disposed) := row in
  throw_if (negb (bool_decide (bl_package b = package))
            || match map_get electorate (bl_principal b) with
               | Some seat => negb (bl_votingWeight b =? el_votingWeight seat)
               | None => true
               end) (integrity_failure "ballot does not bind the exact package and frozen principal weight") ≫= fun _ =>
  check_statement b ≫= fun _ =>
  check_attribution proxies proxyPolicy b ≫= fun _ =>
  match effective_ballot b with
  | Some e => Ok (if disposed : bool then effectiveBallots else effectiveBallots ++ [e])
  | None => Throw (ZodError "VoteEvidence")
  end.

(** The message of a refused tally quotes its cause, too. *)
Definition close_tally (evidence : CloseEvidence) (package proxyPolicy : jsstr) (rule : ApprovalRule) : result json :=
  let electorate := map_of (map (fun e => (el_member e, e)) (ce_electorate evidence)) in
  let proxies := map_of (map (fun g => (pg_id g, g)) (ce_proxies evidence)) in
  effectiveBallots ← forM (close_ballot package proxyPolicy electorate proxies) [] (ce_ballots evidence);
  match tallyVote (close_seats evidence) effectiveBallots rule with
  | Ok tally => Ok (canonicalVoteTally tally)
  | Throw _ => Throw (integrity_failure "persisted vote evidence cannot be tallied")
  end.
End evidence.

(** ** Reading the evidence *)

Lemma map_of_last {V} (l : list (jsstr * V)) k :
  map_get (map_of l) k = snd <$> last (List.filter (fun kv => bool_decide (kv.1 = k)) l).
Proof.
  unfold map_of. induction l as [|[i v] l IH] using rev_ind; [done|].
  rewrite foldl_app, List.filter_app. cbn [foldl List.filter fst snd]. rewrite map_get_set.
  destruct (decide (k = i)) as [->|Hn].
  - rewrite bool_decide_eq_true_2 by done. by rewrite last_snoc.
  - rewrite bool_decide_eq_false_2, app_nil_r by congruence. exact IH.
Qed.

Lemma latest_spec {A} (version : A -> Z) (rows : list A) e : latest version rows = Some e ->
  e ∈ rows /\ forall q, q ∈ rows -> version q <= version e.
Proof.
  revert e. induction rows as [|r rows IH]; intros e; cbn; [done|]. destruct (latest version rows) as [q|] eqn:El.
  - destruct (IH q eq_refl) as [Hq Hmax]. destruct (version r <? version q) eqn:Ev; intros [= <-].
    + apply Z.ltb_lt in Ev. split; [by right|]. intros x [->|Hx]%elem_of_cons; [lia|by apply Hmax].
    + apply Z.ltb_ge in Ev. split; [by left|]. intros x [->|Hx]%elem_of_cons; [lia|]. specialize (Hmax x Hx). lia.
  - intros [= <-]. split; [by left|]. destruct rows as [|x rows]; [by intros q ->%list_elem_of_singleton|].
    cbn in El. by destruct (latest version rows); [destruct (_ <? _)|].
Qed.

Lemma latest_none {A} (version : A -> Z) (rows : list A) : latest version rows = None -> rows = [].
Proof. destruct rows as [|r rows]; [done|]. cbn. by destruct (latest version rows); [destruct (_ <? _)|]. Qed.

Lemma sorted_last {A} (le : A -> A -> Prop) (l : list A) e : StronglySorted le l -> last l = Some e ->
  e ∈ l /\ forall q, q ∈ l -> q = e \/ le q e.
Proof.
  induction 1 as [|x l Hs IH Hx]; [done|]. destruct l as [|y l].
  - intros [= <-]. split; [by left|]. intros q ->%list_elem_of_singleton. by left.
  - cbn [last]. intros E. destruct (IH E) as [He Hq]. split; [by right|]. intros q [->|Hin]%elem_of_cons; [|by auto].
    right. rewrite Forall_forall in Hx. by apply Hx.
Qed.

Lemma cmp_exclusion_total a b : 0 < cmp_exclusion a b -> cmp_exclusion b a <= 0.
Proof.
  unfold cmp_exclusion. rewrite (cmp_units_swap (ex_member a) (ex_member b)).
  destruct (Z.eqb_spec (cmp_units (ex_member a) (ex_member b)) 0) as [E|E];
    destruct (Z.eqb_spec (- cmp_units (ex_member a) (ex_member b)) 0); lia.
Qed.

Lemma cmp_exclusion_trans a b c : cmp_exclusion a b <= 0 -> cmp_exclusion b c <= 0 -> cmp_exclusion a c <= 0.
Proof.
  unfold cmp_exclusion.
  destruct (Z.eqb_spec (cmp_units (ex_member a) (ex_member b)) 0) as [E1|E1];
    destruct (Z.eqb_spec (cmp_units (ex_member b) (ex_member c)) 0) as [E2|E2].
  - apply cmp_units_eq in E1, E2. rewrite E1, E2, cmp_units_refl. cbn. lia.
  - apply cmp_units_eq in E1. rewrite E1. destruct (Z.eqb_spec (cmp_units (ex_member b) (ex_member c)) 0); lia.
  - apply cmp_units_eq in E2. rewrite <- E2. destruct (Z.eqb_spec (cmp_units (ex_member a) (ex_member b)) 0); lia.
  - intros L1 L2. pose proof (cmp_units_trans _ _ _ L1 L2) as L3.
    destruct (Z.eqb_spec (cmp_units (ex_member a) (ex_member c)) 0) as [E3|]; [|lia]. apply cmp_units_eq in E3.
    rewrite E3 in L1, E1. pose proof (cmp_units_swap (ex_member c) (ex_member b)). lia.
Qed.

Lemma sorted_sublist {A} (le : A -> A -> Prop) (f : A -> bool) (l : list A) :
  StronglySorted le l -> StronglySorted le (List.filter f l).
Proof.
  induction 1 as [|x l Hs IH Hx]; cbn; [constructor|]. destruct (f x); [|done]. constructor; [done|].
  rewrite Forall_forall in Hx |- *. intros y Hy%list_elem_of_In. apply List.filter_In in Hy as [Hy _]. by apply Hx, list_elem_of_In.
Qed.

Lemma filter_keyed {V} (key : V -> jsstr) k (l : list V) :
  List.filter (fun kv => bool_decide (kv.1 = k)) (map (fun e => (key e, e)) l)
  = map (fun e => (key e, e)) (List.filter (fun e => bool_decide (key e = k)) l).
Proof. induction l as [|x l IH]; [done|]. cbn. rewrite IH. by destruct (bool_decide _). Qed.

Lemma map_of_keyed {V} (key : V -> jsstr) (l : list V) k e : NoDup (map key l) ->
  map_get (map_of (map (fun e => (key e, e)) l)) k = Some e <-> e ∈ l /\ key e = k.
Proof.
  intros Hd. rewrite map_of_get.
  - rewrite list_elem_of_fmap. split; [by intros (x & [= -> ->] & Hx)|]. intros [He <-]. by exists e.
  - by rewrite <- list_fmap_compose.
Qed.

Section close.
Context `{Platform} {X : Type}.
Implicit Types t : VoteTables X.

Lemma in_filter {A} (f : A -> bool) (l : list A) x : x ∈ List.filter f l <-> x ∈ l /\ f x = true.
Proof. by rewrite list_elem_of_In, List.filter_In, <- list_elem_of_In. Qed.

Lemma in_filtered {A} (f : A -> bool) (cmp : A -> A -> Z) (l : list A) x :
  x ∈ toSorted cmp (List.filter f l) <-> x ∈ l /\ f x = true.
Proof. by rewrite toSorted_perm, in_filter. Qed.

(** The latest exclusion in the evidence is the one the schema orders last. *)
Lemma latest_exclusion_eq t vote m : schema_ok t ->
  match map_get (latest_exclusion (boardagent_vote_close_evidence t vote)) m with
  | Some x => ex_excluded x
  | None => false
  end = excluded_from t vote m.
Proof.
  intros So. unfold latest_exclusion, excluded_from. rewrite map_of_last, filter_keyed.
  cbn [ce_exclusions boardagent_vote_close_evidence].
  set (F := List.filter (fun e => bool_decide (ex_vote e = vote) && bool_decide (ex_member e = m)) (vote_exclusions t)).
  set (S := List.filter (fun e => bool_decide (ex_member e = m)) (toSorted _ _)).
  assert (forall x, x ∈ S <-> x ∈ F) as Hin.
  { intros x. unfold F, S. rewrite !in_filter, in_filtered, andb_true_iff. tauto. }
  assert (forall x, x ∈ F -> x ∈ vote_exclusions t /\ ex_vote x = vote /\ ex_member x = m) as HF.
  { intros x [Hx Hb]%in_filter. by boolify. }
  change (snd <$> last (map (fun e => (ex_member e, e)) S)) with (snd <$> last ((fun e => (ex_member e, e)) <$> S)).
  rewrite fmap_last, <- option_fmap_compose. destruct (last S) as [x|] eqn:El.
  - assert (StronglySorted (cmp_le cmp_exclusion) S) as Hs
      by (apply sorted_sublist, toSorted_sorted; [apply cmp_exclusion_total|apply cmp_exclusion_trans]).
    destruct (sorted_last _ _ _ Hs El) as [Hx Hmax]. apply Hin in Hx as HxF.
    destruct (latest ex_version F) as [e|] eqn:Ee; [|apply latest_none in Ee; rewrite Ee in HxF; by apply elem_of_nil in HxF].
    apply latest_spec in Ee as [He Hle]. cbn. destruct (HF x HxF) as (X1 & X2 & X3), (HF e He) as (E1 & E2 & E3).
    assert (ex_version e <= ex_version x) as Hge.
    { destruct (Hmax e (proj2 (Hin e) He)) as [->|Hc]; [lia|]. unfold cmp_le, cmp_exclusion in Hc.
      rewrite E3, X3, cmp_units_refl in Hc. cbn in Hc. lia. }
    specialize (Hle x HxF). assert (x = e) as ->; [|done].
    eapply (keyed_once (fun x => (ex_vote x, ex_member x, ex_version x))); [apply (so_versions _ So)|done..|].
    cbn. f_equal; [congruence|lia].
  - apply last_None in El. destruct (latest ex_version F) as [e|] eqn:Ee; [|done].
    apply latest_spec in Ee as [He _]. apply Hin in He. rewrite El in He. by apply elem_of_nil in He.
Qed.

(** The electorate as the tally sees it is one it accepts. *)
Lemma in_electorate t vote e : e ∈ ce_electorate (boardagent_vote_close_evidence t vote) <->
  e ∈ vote_electorate t /\ el_vote e = vote.
Proof. cbn. by rewrite in_filtered, bool_decide_eq_true. Qed.

Lemma electorate_nodup t vote : schema_ok t -> NoDup (map el_member (ce_electorate (boardagent_vote_close_evidence t vote))).
Proof.
  intros So. cbn. rewrite toSorted_perm. pose proof (so_electorate _ So) as Hd.
  induction (vote_electorate t) as [|e l IH]; cbn; [constructor|]. cbn in Hd. apply NoDup_cons in Hd as [He Hd].
  case_bool_decide as Ev; [|by apply IH]. cbn. constructor; [|by apply IH].
  intros (q & Eq & [Hq Hb]%in_filter)%list_elem_of_fmap. boolify. apply He. rewrite Eq. apply list_elem_of_fmap.
  exists q. split; [congruence|done].
Qed.

Lemma sum_by_cons {A} (f : A -> Z) x l : sum_by f (x :: l) = f x + sum_by f l.
Proof. done. Qed.

Lemma sum_at_most_one {A} (f : A -> bool) (l : list A) : NoDup l ->
  (forall x y, x ∈ l -> y ∈ l -> f x = true -> f y = true -> x = y) -> sum_by (fun x => if f x then 1 else 0) l <= 1.
Proof.
  induction 1 as [|x l Hx Hd IH]; intros Hu; [done|]. rewrite sum_by_cons. destruct (f x) eqn:Ex.
  - assert (sum_by (fun x => if f x then 1 else 0) l = 0) as ->; [|done].
    assert (forall y, y ∈ l -> f y = false) as Hf.
    { intros y Hy. destruct (f y) eqn:Ey; [|done]. exfalso. apply Hx.
      rewrite (Hu x y); [done|by left|by right|done|done]. }
    clear -Hf. induction l as [|y l IH]; [done|]. rewrite sum_by_cons, (Hf y) by (by left). rewrite IH; [done|].
    intros z Hz. apply Hf. by right.
  - cbn. apply IH. intros y z Hy Hz. apply Hu; by right.
Qed.

Lemma seats_valid t vote : schema_ok t -> valid_electorate (close_seats (boardagent_vote_close_evidence t vote)) = true.
Proof.
  intros So. pose proof (electorate_nodup t vote So) as Hd. unfold valid_electorate. rewrite !andb_true_iff. split_and!.
  - apply bool_decide_eq_true. unfold close_seats. rewrite map_map. exact Hd.
  - apply forallb_forall. intros seat Hs%list_elem_of_In. apply list_elem_of_fmap in Hs as (e & -> & He).
    apply in_electorate in He as [He _]. cbn. apply in_range_spec. by apply (so_weights _ So).
  - apply Z.leb_le, sum_at_most_one.
    + apply (NoDup_fmap_1 Voting.memberId). unfold close_seats. rewrite <- list_fmap_compose. exact Hd.
    + intros x y (e & -> & He)%list_elem_of_fmap (e' & -> & He')%list_elem_of_fmap Hc Hc'. cbn in Hc, Hc'.
      apply in_electorate in He as [He Ev], He' as [He' Ev']. by rewrite (so_chair _ So e e'); try congruence.
Qed.

(** *** The ballots *)

Section vote.
Context (t : VoteTables X) (v : VoteRow) (r : RuleRow) (package : jsstr).
Hypothesis Ok0 : tables_ok t.
Hypothesis Hv : v ∈ Ballots.votes t.
Hypothesis Hpackage : vt_package v = Some package.
Hypothesis Hr : r ∈ approval_rules t.
Hypothesis Hrule : ru_id r = vt_approvalRule v.
Abbreviation evidence := (boardagent_vote_close_evidence t (vt_id v)).
Abbreviation electorate := (map_of (map (fun e => (el_member e, e)) (ce_electorate evidence))).
Abbreviation proxies := (map_of (map (fun g => (pg_id g, g)) (ce_proxies evidence))).

Lemma proxies_nodup : NoDup (map pg_id (ce_proxies evidence)).
Proof.
  cbn. rewrite toSorted_perm. pose proof (go_ids _ (to_grants _ Ok0)) as Hd.
  induction (proxy_grants t) as [|g l IH]; cbn; [constructor|]. cbn in Hd. apply NoDup_cons in Hd as [Hg Hd].
  case_bool_decide; [|by apply IH]. cbn. constructor; [|by apply IH].
  intros (q & Eq & [Hq _]%in_filter)%list_elem_of_fmap. apply Hg. rewrite Eq. by apply list_elem_of_fmap_2.
Qed.

Lemma sound_passes b acc disposed : b ∈ ballots t -> bl_vote b = vt_id v -> exists e,
  effective_ballot b = Some e /\
  close_ballot package (ru_proxyPolicy r) electorate proxies acc (b, disposed) = Ok (if disposed then acc else acc ++ [e]).
Proof.
  intros Hb Ev. destruct (bo_sound _ (to_ballots _ Ok0) b Hb) as [S1 S2 (e & He & E1 & E2 & E3) _ _ S5 S6].
  destruct S5 as (v' & r' & V1 & V2 & V3 & V4 & V5 & V6).
  assert (v' = v) as -> by (eapply (keyed_once vt_id); [apply (so_votes _ (to_schema _ Ok0))|done..|congruence]).
  assert (r' = r) as -> by (eapply (keyed_once ru_id); [apply (so_rules _ (to_schema _ Ok0))|done..|congruence]).
  destruct (choice_known _ S1) as (c & Ec). unfold effective_ballot at 1. rewrite Ec. eexists. split; [done|].
  assert (map_get electorate (bl_principal b) = Some e) as Ee.
  { apply (map_of_keyed el_member); [by apply electorate_nodup, to_schema|]. split; [|done]. apply in_electorate. split; congruence. }
  unfold close_ballot. rewrite Ee, E3, Z.eqb_refl, bool_decide_eq_true_2 by congruence. cbn [negb orb throw_if].
  assert (check_statement b = Ok tt) as ->.
  { unfold check_statement. destruct S6 as [-> Hc]. destruct (bl_statement b) as [text|]; cbn; [|done].
    rewrite (Hc text eq_refl). cbn [mbind result_bind]. by rewrite safeHashEqual_refl by apply sha256Hex_hex64. }
  assert (check_attribution proxies (ru_proxyPolicy r) b = Ok tt) as ->.
  { unfold check_attribution, backed in *. destruct (bl_source b).
    - destruct S2 as [-> ->]. by rewrite bool_decide_eq_true_2.
    - destruct S2 as (_ & g & Hg & Eg & G1 & G2 & G3). rewrite Eg.
      change (id ← Some (pg_id g); map_get proxies id) with (map_get proxies (pg_id g)).
      assert (map_get proxies (pg_id g) = Some g) as ->.
      { apply (map_of_keyed pg_id); [apply proxies_nodup|]. split; [|done]. cbn. rewrite in_filtered. split; [done|].
        apply bool_decide_eq_true. congruence. }
      rewrite !bool_decide_eq_true_2; [done|by apply V6|done|done]. }
  cbn. unfold effective_ballot. by rewrite Ec.
Qed.

(** The ballots the tally is given. *)
Definition counted (rows : list (BallotRow * bool)) : list EffectiveBallot :=
  omap (fun row => if row.2 : bool then None else effective_ballot row.1) rows.

Lemma rows_pass rows acc : (forall row, row ∈ rows -> row.1 ∈ ballots t /\ bl_vote row.1 = vt_id v) ->
  forM (close_ballot package (ru_proxyPolicy r) electorate proxies) acc rows = Ok (acc ++ counted rows).
Proof.
  revert acc. induction rows as [|[b d] rows IH]; intros acc Hrows; [by rewrite app_nil_r|].
  destruct (Hrows (b, d)) as [Hb Ev]; [by left|]. destruct (sound_passes b acc d Hb Ev) as (e & Ee & Eb).
  cbn [forM]. rewrite Eb. cbn [mbind result_bind]. rewrite IH by (intros row Hrow; apply Hrows; by right).
  unfold counted. cbn. rewrite Ee. destruct d; cbn; [done|]. by rewrite <- app_assoc.
Qed.

Lemma in_rows row : row ∈ ce_ballots evidence <->
  row.1 ∈ ballots t /\ bl_vote row.1 = vt_id v /\ row.2 = negb (effective t row.1).
Proof.
  cbn. rewrite toSorted_perm. rewrite list_elem_of_fmap. setoid_rewrite in_filter. setoid_rewrite bool_decide_eq_true. split.
  - by intros (b & -> & Hb & Ev).
  - intros (Hb & Ev & E). exists row.1. split; [|done]. destruct row as [b d]. cbn in E |- *. by rewrite E.
Qed.

Lemma in_counted e : e ∈ counted (ce_ballots evidence) <->
  exists b, counts t b /\ bl_vote b = vt_id v /\ effective_ballot b = Some e.
Proof.
  unfold counted. rewrite list_elem_of_omap. setoid_rewrite in_rows. split.
  - intros ([b d] & (Hb & Ev & Ed) & E). cbn in *. subst d. destruct (effective t b) eqn:Eb; [|done]. exists b. by split.
  - intros (b & [Hb He] & Ev & E). exists (b, negb (effective t b)). cbn. by rewrite He.
Qed.

Lemma effective_fields b e : effective_ballot b = Some e ->
  principalMemberId e = bl_principal b /\ casterMemberId e = bl_caster b /\ Voting.source e = bl_source b.
Proof. unfold effective_ballot. destruct (choice_of _); [|done]. by intros [= <-]. Qed.

Lemma eligible_elector m : elector t (vt_id v) m -> excluded_from t (vt_id v) m = false ->
  eligible_member (close_seats evidence) m = true.
Proof.
  intros (e & He & Ev & <-) Hx. unfold eligible_member. apply existsb_exists.
  eexists. split; [apply in_map, list_elem_of_In, in_electorate; split; [exact He|done]|].
  cbn [memberId eligibleSeat role eligible recused]. rewrite bool_decide_eq_true_2 by done.
  rewrite (latest_exclusion_eq _ _ _ (to_schema _ Ok0)). by rewrite Hx.
Qed.

Lemma row_ids : NoDup (map (fun row => bl_id row.1) (ce_ballots evidence)).
Proof.
  cbn. rewrite toSorted_perm, map_map. cbn. pose proof (bo_ids _ (to_ballots _ Ok0)) as Hd.
  induction (ballots t) as [|b l IH]; cbn; [constructor|]. cbn in Hd. apply NoDup_cons in Hd as [Hb Hd].
  case_bool_decide; [|by apply IH]. cbn. constructor; [|by apply IH].
  intros (q & Eq & [Hq _]%in_filter)%list_elem_of_fmap. apply Hb. rewrite Eq. by apply list_elem_of_fmap_2.
Qed.

Lemma counted_once rows : NoDup (map (fun row => bl_id row.1) rows) ->
  (forall row, row ∈ rows -> row.1 ∈ ballots t /\ bl_vote row.1 = vt_id v /\ row.2 = negb (effective t row.1)) ->
  NoDup (map principalMemberId (counted rows)).
Proof.
  induction rows as [|[b d] rows IH]; intros Hd Hrows; [constructor|]. cbn in Hd. apply NoDup_cons in Hd as [Hid Hd].
  assert (NoDup (map principalMemberId (counted rows))) as Hn by (apply IH; [done|]; intros row Hrow; apply Hrows; by right).
  unfold counted in *. cbn. destruct (Hrows (b, d)) as (Hb & Ev & Ed); [by left|]. cbn in Hb, Ev, Ed. subst d.
  destruct (effective t b) eqn:He; cbn; [|done]. destruct (effective_ballot b) as [e|] eqn:Ee; [|done].
  cbn. constructor; [|done]. intros (e' & Ep & He')%list_elem_of_fmap. apply list_elem_of_omap in He' as ([b' d'] & Hrow & Ee').
  destruct (Hrows (b', d')) as (Hb' & Ev' & Ed'); [by right|]. cbn in Hb', Ev', Ed', Ee'. subst d'.
  destruct (effective t b') eqn:He'; [|done]. cbn in Ee'.
  destruct (effective_fields _ _ Ee) as (F1 & _), (effective_fields _ _ Ee') as (F1' & _).
  assert (b = b') as <- by (apply (bo_one _ (to_ballots _ Ok0)); try done; congruence).
  apply Hid. apply list_elem_of_fmap. by exists (b, negb true).
Qed.

Lemma counted_valid : valid_ballots (close_seats evidence) (counted (ce_ballots evidence)) = true.
Proof.
  unfold valid_ballots. apply andb_true_iff. split.
  - apply forallb_forall. intros e He%list_elem_of_In. apply in_counted in He as (b & [Hb He] & Ev & Ee).
    destruct (effective_fields _ _ Ee) as (F1 & F2 & F3). unfold Voting.ballot_ok. rewrite F1, F2, F3.
    pose proof (bo_sound _ (to_ballots _ Ok0) b Hb) as S. pose proof (bo_included _ (to_ballots _ Ok0) b Hb He) as [I1 I2].
    rewrite Ev in I1, I2. destruct (bs_weight _ _ S) as (el & E1 & E2 & E3 & _).
    pose proof (bs_caster _ _ S) as Hc. rewrite Ev in Hc, E2. rewrite eligible_elector; [|by exists el|done].
    pose proof (bs_backed _ _ S) as B. unfold backed in B. destruct (bl_source b).
    + destruct B as [-> _]. by apply bool_decide_eq_true.
    + destruct B as [Hne _]. rewrite bool_decide_eq_true_2 by done. by apply eligible_elector.
  - apply bool_decide_eq_true, counted_once; [apply row_ids|]. intros row. apply in_rows.
Qed.
End vote.
End close.

(** ** Property *)

Section tally.
Context `{Platform} `{IsoTime} {X : Type} `{!PgClock} `{!SqlAuthority (VoteTables X)} `{!VoteAuthority X}.

(** C17. What was cast can be tallied. After any history of casts, grants,
    revocations and other transactions the close of a vote finds no fault in its
    evidence: it tallies the ballots that count, one per principal, over the
    electorate of the vote without those excluded from it, and the tally is the
    one the specification of [tallyVote] defines. *)
Theorem close_tallies db0 db v r package rule : tables_ok (rest db0) -> rtc vote_step db0 db ->
  v ∈ Ballots.votes (rest db) -> vt_package v = Some package ->
  r ∈ approval_rules (rest db) -> ru_id r = vt_approvalRule v ->
  let evidence := boardagent_vote_close_evidence (rest db) (vt_id v) in
  exists bs, NoDup (map principalMemberId bs) /\
    (forall e, e ∈ bs <-> exists b, counts (rest db) b /\ bl_vote b = vt_id v /\ effective_ballot b = Some e) /\
    close_tally evidence package (ru_proxyPolicy r) rule
    = Ok (canonicalVoteTally (spec_tally (close_seats evidence) bs rule)).
Proof.
  intros Ok0 Hh Hv Hp Hr Hrule evidence. apply (vote_history_ok _ _ Hh) in Ok0.
  pose proof (counted_valid (rest db) v Ok0) as Hval. exists (counted (ce_ballots evidence)). split_and!.
  - apply andb_true_iff in Hval as [_ Hd]. by apply bool_decide_eq_true in Hd.
  - intros e. by apply in_counted.
  - unfold close_tally. rewrite (rows_pass _ _ _ _ Ok0 Hv Hp Hr Hrule);
      [|intros row Hrow; apply (in_rows (rest db) v) in Hrow; tauto]. cbn [mbind result_bind app].
    assert (tallyVote (close_seats evidence) (counted (ce_ballots evidence)) rule
            = Ok (spec_tally (close_seats evidence) (counted (ce_ballots evidence)) rule)) as ->; [|done].
    apply tallyVote_ok. split_and!; [by apply seats_valid, to_schema|done|done].
Qed.
End tally.

(** The vote of [BallotHistory]: Alice's own ballot is tallied. *)
#[local] Existing Instances sample_platform sample_time vote_clock vote_sql vote_authority.

Lemma close_tallies_witness : exists v r bs, v ∈ Ballots.votes (rest cast_db) /\ vt_id v = the_vote /\
  (forall e, e ∈ bs <-> exists b, counts (rest cast_db) b /\ bl_vote b = the_vote /\ effective_ballot b = Some e) /\
  close_tally (boardagent_vote_close_evidence (rest cast_db) the_vote) (id_of "31") (ru_proxyPolicy r) (sample_rule reject)
  = Ok (canonicalVoteTally (spec_tally (close_seats (boardagent_vote_close_evidence (rest cast_db) the_vote)) bs
          (sample_rule reject))).
Proof.
  set (v := MkVote the_vote org board VoteState_open 4 (Some (id_of "31")) (id_of "32") (Some 9000000) (js "Budget")
    (Some (id_of "33"))).
  set (r := MkRuleRow (id_of "32") org board (js "principal_supersedes_proxy")).
  assert (Ballots.votes (rest cast_db) = [v]) as Ev by (vm_compute; reflexivity).
  assert (approval_rules (rest cast_db) = [r]) as Er by (vm_compute; reflexivity).
  assert (v ∈ Ballots.votes (rest cast_db)) as Hv by (rewrite Ev; by left).
  assert (r ∈ approval_rules (rest cast_db)) as Hr by (rewrite Er; by left).
  destruct (close_tallies opened cast_db v r (id_of "31") (sample_rule reject) opened_ok sample_history_steps Hv eq_refl Hr
    eq_refl) as (bs & _ & Hbs & E).
  exists v, r, bs. split; [exact Hv|]. split; [reflexivity|]. split; [exact Hbs|exact E].
Defined.
