(* ===== verification/BallotLifecycle.v ===== *)
(** * Ballots and proxies, staged and confirmed

    lib/db/src/transactions/ballot-lifecycle.ts: the transactions a member goes
    through to grant or revoke a proxy or to cast a ballot. An action is prepared
    against the locked vote, staged by [StagedAction], and when its confirmation
    comes it is prepared again and performed by [Ballots]. *)

From stdpp Require Import base numbers sorting strings list.
From Stdlib Require Import Lia.
From S2P Require Import Prelude JsString Encoding JsNumber Json JsonParse JsonCanon Schemas.
From S2P Require Import StateMachines Decode VotingConsent Voting KeyLifecycle AuditEvent Request Database StagedAction.
From S2P Require Import Ballots.

Local Open Scope Z_scope.

(** ** Actions *)

Inductive BallotLifecycleAction :=
  | action_grant_proxy (voteId holderMemberId idempotencyKey : jsstr)
  | action_revoke_proxy (proxyGrantId reason idempotencyKey : jsstr)
  | action_ballot (voteId : jsstr) (principalMemberId : option jsstr) (choice : jsstr) (statement : option jsstr)
      (idempotencyKey : jsstr).

Record PreparedBallotLifecycleAction := MkPrepared {
  pa_actionCode : jsstr;
  pa_boardId : jsstr;
  pa_targetType : jsstr;
  pa_targetId : jsstr;
  pa_actingForMemberId : option jsstr;
  pa_canonicalSchema : jsstr;
  pa_canonicalPayload : json;
  pa_payloadSha256 : jsstr;
  pa_packageSha256 : jsstr;
  pa_voteId : jsstr;
  pa_voteTitle : jsstr;
  pa_resolutionText : jsstr;
  pa_resolutionSha256 : jsstr;
  pa_decisionPackage : json;
  pa_principalMemberId : jsstr;
  pa_principalDisplayName : jsstr;
  pa_actorMemberId : jsstr;
  pa_actorDisplayName : jsstr;
  pa_holderMemberId : option jsstr;
  pa_holderDisplayName : option jsstr;
  pa_proxyGrantId : option jsstr
}.

(** A grant that is prepared never expires. *)
Inductive PreparedDetails :=
  | details_grant (policy : jsstr)
  | details_revoke (grant : GrantRow) (reason : jsstr)
  | details_ballot (choice : jsstr) (statement proxyGrantId : option jsstr).

Record PreparedInternal := MkInternal {
  pi_view : PreparedBallotLifecycleAction;
  pi_action : BallotLifecycleAction;
  pi_context : ActiveRequestContext;
  pi_organizationId : jsstr;
  pi_details : PreparedDetails
}.

(** Of [bs_stage] the parts that the prepared action gives are not used. *)
Record BallotLifecycleStageInput := MkLifecycleStage {
  bs_action : BallotLifecycleAction;
  bs_stage : StageActionInput
}.

Record BallotLifecycleGeneratedIds := MkIds {
  gi_recordId : jsstr;
  gi_supersessionDispositionId : jsstr;
  gi_supersessionAuditEventId : jsstr;
  gi_idempotencyRecordId : jsstr;
  gi_auditEventId : jsstr
}.

Record BallotLifecycleConfirmationInput := MkLifecycleConfirm {
  bc_action : BallotLifecycleAction;
  bc_generatedIds : BallotLifecycleGeneratedIds;
  bc_confirmation : ConfirmStagedActionInput
}.

Record StagedBallotLifecycleAction := MkStagedLifecycle {
  sl_staged : StagedAction;
  sl_actionCode : jsstr;
  sl_boardId : jsstr;
  sl_targetType : jsstr;
  sl_targetId : jsstr;
  sl_actingForMemberId : option jsstr
}.

Inductive BallotLifecycleResult :=
  | result_grant_proxy (result : GrantProxyResult)
  | result_revoke_proxy (result : RevokeProxyResult)
  | result_ballot (result : CastBallotResult).

(** ** Tables *)

(** [resolution_versions] *)
Record ResolutionRow := MkResolution {
  rv_id : jsstr;
  rv_organization : jsstr;
  rv_board : jsstr;
  rv_canonicalText : jsstr;
  rv_canonicalSha256 : jsstr
}.

(** What the lifecycle reads besides the tables of votes, and the variable that
    the two callbacks of a confirmation share. *)
Record LifecycleTables (Y : Type) := MkLifecycle {
  resolution_versions : list ResolutionRow;
  (** organization, identifier and [display_name] *)
  member_names : list (jsstr * jsstr * jsstr);
  prepared_cell : option PreparedInternal;
  lifecycle_rest : Y
}.
Arguments MkLifecycle {Y} _ _ _ _.
Arguments resolution_versions {Y} _.
Arguments member_names {Y} _.
Arguments prepared_cell {Y} _.
Arguments lifecycle_rest {Y} _.

Definition with_cell {Y} (t : VoteTables (LifecycleTables Y)) (p : option PreparedInternal)
    : VoteTables (LifecycleTables Y) :=
  let x := tables_rest t in
  MkTables (votes t) (decision_packages t) (approval_rules t) (member_states t) (board_memberships t)
    (vote_electorate t) (vote_exclusions t) (proxy_grants t) (proxy_revocations t) (ballots t)
    (ballot_dispositions t) (idempotency_records t) (pending_action_feed t) (member_feed_sync_counters t)
    (member_feed_sync_positions t)
    (MkLifecycle (resolution_versions x) (member_names x) p (lifecycle_rest x)).

(** What PostgreSQL and its driver make of [convert_from(..,'UTF8')::jsonb]. *)
Class JsonbReading := { pg_jsonb : list Z -> result json }.

(** ** Preparing *)

Record LifecycleRoot := MkLifecycleRoot {
  lr_organization : jsstr;
  lr_board : jsstr;
  lr_vote : jsstr;
  lr_title : jsstr;
  lr_state : VoteState;
  lr_package : jsstr;
  lr_packageSha256 : jsstr;
  lr_decisionPackage : json;
  lr_proxyPolicy : jsstr;
  lr_deadlineOpen : bool;
  lr_actorReady : bool;
  lr_resolutionText : jsstr;
  lr_resolutionSha256 : jsstr
}.

Definition lifecycle_error (code msg : string) : exn := BallotLifecycleTransactionError code msg.
Definition unavailable : exn := lifecycle_error "ballot_action_unavailable" "ballot or proxy action is unavailable".

Definition idempotencyKey (value : jsstr) : result jsstr := validateIdempotencyKey value.

(** [names.get(id) ?? "unavailable"] *)
Definition name_of (names : list (jsstr * jsstr)) (id : jsstr) : jsstr :=
  or_else (map_get names id) (js "unavailable").

Section lifecycle.
Context `{Platform} `{IsoTime} {Y : Type}.
Abbreviation X := (LifecycleTables Y).
Context `{!NodeText} `{!PgClock} `{!SqlAuthority (VoteTables X)} `{!VoteAuthority X} `{!UrlParser} `{!JsonbReading}.
Abbreviation DB := (Database (VoteTables X)).
Implicit Types (db : DB) (session : Session).

Definition root_row (db : DB) (session : Session) (scope : string) (v : VoteRow) (p : PackageRow) (r : RuleRow)
    (n : ResolutionRow) : result LifecycleRoot :=
  decisionPackage ← pg_jsonb (dp_canonicalPayload p);
  Ok (MkLifecycleRoot (vt_organization v) (vt_board v) (vt_id v) (vt_title v) (vt_state v) (dp_id p)
        (dp_packageSha256 p) decisionPackage (ru_proxyPolicy r)
        match vt_deadlineAt v with Some deadline => transaction_timestamp session <? deadline | None => false end
        (boardagent_vote_actor_ready_for_scope db session (vt_board v) scope)
        (rv_canonicalText n) (rv_canonicalSha256 n)).

(** The vote with its package, its rule and its resolution. *)
Definition root_rows (db : DB) (session : Session) (voteId : jsstr)
    : list (VoteRow * PackageRow * RuleRow * ResolutionRow) :=
  let t := rest db in
  let visible organization board := scoped db session organization (Some board) in
  flat_map (fun v =>
  flat_map (fun p =>
  flat_map (fun r =>
  map (fun n => (v, p, r, n))
    (List.filter (fun n => bool_decide (Some (rv_id n) = vt_resolution v) && visible (rv_organization n) (rv_board n))
       (resolution_versions (tables_rest t))))
    (List.filter (fun r => bool_decide (ru_id r = vt_approvalRule v) && visible (ru_organization r) (ru_board r))
       (approval_rules t)))
    (List.filter (fun p => bool_decide (Some (dp_id p) = vt_package v) && bool_decide (dp_vote p = vt_id v)
                    && visible (dp_organization p) (dp_board p)) (decision_packages t)))
    (List.filter (fun v => bool_decide (vt_id v = voteId) && visible (vt_organization v) (vt_board v)) (votes t)).

Definition lockVoteRoot (voteId : jsstr) (scope : string) : Tx DB LifecycleRoot :=
  session ← ask;
  db ← get;
  rows ← lift (mapR (fun '(v, p, r, n) => root_row db session scope v p r n) (root_rows db session voteId));
  match rows with
  | [root] =>
      fail_if (negb (lr_actorReady root)) unavailable ≫= fun _ =>
      lift (canonicalJson (lr_decisionPackage root)) ≫= fun _ => mret root
  | _ => fail unavailable
  end.

(** The same statement as [lockParticipants]. *)
Definition participants (root : LifecycleRoot) (memberIds : list jsstr) : Tx DB (list Participant) :=
  lockParticipants (lr_organization root) (lr_board root) (lr_vote root) memberIds.

(** The same statement as [excludedMembers]. *)
Definition excluded (voteId : jsstr) (memberIds : list jsstr) : Tx DB (list jsstr) :=
  excludedMembers voteId memberIds.

Definition displayNames (organizationId : jsstr) (memberIds : list jsstr) : Tx DB (list (jsstr * jsstr)) :=
  let ids := set_of memberIds in
  session ← ask;
  db ← get;
  let rows := List.filter (fun m => bool_decide (m.1.1 = organizationId) && bool_decide (m.1.2 ∈ ids)
                             && scoped db session m.1.1 None) (member_names (tables_rest (rest db))) in
  fail_if (negb (Nat.eqb (length rows) (length ids))) unavailable ≫= fun _ =>
  mret (map_of (map (fun m => (m.1.2, m.2)) rows)).

(** The grants of the vote; each is active or not, see [grant_active]. *)
Definition activeRelationships (voteId : jsstr) : Tx DB (list GrantRow) :=
  session ← ask;
  db ← get;
  mret (visible_grants db session voteId).

Record CommonInput := MkCommon {
  co_actionCode : jsstr;
  co_targetType : jsstr;
  co_targetId : jsstr;
  co_actingForMemberId : option jsstr;
  co_canonicalSchema : jsstr;
  co_canonicalPayload : json;
  co_principalMemberId : jsstr;
  co_holderMemberId : option jsstr;
  co_proxyGrantId : option jsstr
}.

Definition commonPrepared (root : LifecycleRoot) (context : ActiveRequestContext) (names : list (jsstr * jsstr))
    (input : CommonInput) : result PreparedBallotLifecycleAction :=
  packageSha256 ← Sha256HexSchema (lr_packageSha256 root);
  payloadSha256 ← canonicalSha256 (co_canonicalPayload input);
  Ok (MkPrepared (co_actionCode input) (lr_board root) (co_targetType input) (co_targetId input)
        (co_actingForMemberId input) (co_canonicalSchema input) (co_canonicalPayload input) payloadSha256
        packageSha256 (lr_vote root) (lr_title root) (lr_resolutionText root) (lr_resolutionSha256 root)
        (lr_decisionPackage root) (co_principalMemberId input) (name_of names (co_principalMemberId input))
        (ac_memberId context) (name_of names (ac_memberId context)) (co_holderMemberId input)
        (name_of names <$> co_holderMemberId input) (co_proxyGrantId input)).

(** [eligible.length !== n || eligible.some(({ ready }) => !ready)] *)
Definition not_eligible (eligible : list Participant) (n : nat) : bool :=
  negb (Nat.eqb (length eligible) n) || existsb (fun p => negb (pt_ready p)) eligible.

Definition grant_payload (voteId principalMemberId holderMemberId policy packageSha256 : jsstr) : json :=
  JObj [schemaVersion "boardagent.proxy-grant-consent.v1"; str "voteId" voteId;
        str "principalMemberId" principalMemberId; str "holderMemberId" holderMemberId; str "policy" policy;
        nullable "expiresAt" None; str "packageSha256" packageSha256].

Definition prepareGrant (action : BallotLifecycleAction) (voteId holderMemberId key : jsstr)
    (context : ActiveRequestContext) : Tx DB PreparedInternal :=
  voteId ← lift (UuidV7Schema voteId);
  holderMemberId ← lift (UuidV7Schema holderMemberId);
  lift (idempotencyKey key) ≫= fun _ =>
  let member := ac_memberId context in
  fail_if (bool_decide (holderMemberId = member))
    (lifecycle_error "ballot_action_invalid" "proxy holder must differ from principal") ≫= fun _ =>
  root ← lockVoteRoot voteId "proxy:manage";
  fail_if (negb (bool_decide (lr_state root = VoteState_open)) || negb (lr_deadlineOpen root)) unavailable ≫= fun _ =>
  let involved := [member; holderMemberId] in
  eligible ← participants root involved;
  fail_if (not_eligible eligible 2) unavailable ≫= fun _ =>
  exclusions ← excluded voteId involved;
  fail_if (negb (Nat.eqb (length exclusions) 0)) unavailable ≫= fun _ =>
  relationships ← activeRelationships voteId;
  fail_if (existsb (fun g => bool_decide (pg_principal g = member)) relationships)
    (lifecycle_error "ballot_action_unavailable" "principal already has immutable proxy history for this vote")
    ≫= fun _ =>
  session ← ask;
  db ← get;
  let active := List.filter (grant_active (rest db) session) relationships in
  fail_if (existsb (fun g => bool_decide (pg_principal g = holderMemberId)) active
           || existsb (fun g => bool_decide (pg_holder g = member)) active)
    (lifecycle_error "ballot_action_unavailable" "proxy chain or cycle is forbidden") ≫= fun _ =>
  names ← displayNames (lr_organization root) involved;
  let packageSha256 := lr_packageSha256 root in
  let payload := grant_payload voteId member holderMemberId (lr_proxyPolicy root) packageSha256 in
  consentSha256 ← lift (proxyGrantConsentHash
    (ProxyGrant.MkInput voteId member holderMemberId (lr_proxyPolicy root) None packageSha256));
  payloadSha256 ← lift (canonicalSha256 payload);
  fail_if (negb (is_hex64 consentSha256) || negb (bool_decide (payloadSha256 = consentSha256)))
    (JsError "proxy grant consent payload construction drifted" []) ≫= fun _ =>
  view ← lift (commonPrepared root context names
    (MkCommon (js "grant_proxy") (js "vote") voteId None (js "boardagent.proxy-grant-consent.v1") payload member
       (Some holderMemberId) None));
  mret (MkInternal view action context (lr_organization root) (details_grant (lr_proxyPolicy root))).

Definition revoke_payload (voteId proxyGrantId principalMemberId reason packageSha256 : jsstr) : json :=
  JObj [schemaVersion "boardagent.proxy-revoke-consent.v1"; str "voteId" voteId; str "proxyGrantId" proxyGrantId;
        str "principalMemberId" principalMemberId; str "reason" reason; str "packageSha256" packageSha256].

Definition prepareRevoke (action : BallotLifecycleAction) (proxyGrantId reason key : jsstr)
    (context : ActiveRequestContext) : Tx DB PreparedInternal :=
  proxyGrantId ← lift (UuidV7Schema proxyGrantId);
  reason ← lift (canonicalText reason);
  lift (idempotencyKey key) ≫= fun _ =>
  fail_if (negb (in_range 1 65536 (js_length reason)))
    (RangeError "proxy revocation reason must contain 1 through 65536 characters" []) ≫= fun _ =>
  session ← ask;
  db ← get;
  let reference := List.filter (fun g => bool_decide (pg_id g = proxyGrantId)
                     && bool_decide (boardagent_context_uuid (set_member_id session) = Some (pg_principal g))
                     && scoped db session (pg_organization g) (Some (pg_board g))) (proxy_grants (rest db)) in
  voteId ← match reference with [g] => mret (pg_vote g) | _ => fail unavailable end;
  root ← lockVoteRoot voteId "proxy:manage";
  fail_if (negb (bool_decide (lr_state root ∈ [VoteState_open; VoteState_source_update_pending]))) unavailable
    ≫= fun _ =>
  let member := ac_memberId context in
  let owned := List.filter (fun g => bool_decide (pg_id g = proxyGrantId) && bool_decide (pg_principal g = member))
                 (visible_grants db session voteId) in
  grant ← match owned with
          | [g] => if grant_active (rest db) session g then mret g else fail unavailable
          | _ => fail unavailable
          end;
  names ← displayNames (lr_organization root) [member; pg_holder grant];
  let packageSha256 := lr_packageSha256 root in
  let payload := revoke_payload voteId proxyGrantId member reason packageSha256 in
  payloadSha256 ← lift (canonicalSha256 payload);
  consentSha256 ← lift (proxyRevokeConsentHash
    (ProxyRevoke.MkInput voteId proxyGrantId member reason packageSha256));
  fail_if (negb (bool_decide (payloadSha256 = consentSha256)))
    (JsError "proxy revocation consent payload construction drifted" []) ≫= fun _ =>
  view ← lift (commonPrepared root context names
    (MkCommon (js "revoke_proxy") (js "proxy_grant") proxyGrantId None (js "boardagent.proxy-revoke-consent.v1")
       payload member (Some (pg_holder grant)) (Some proxyGrantId)));
  mret (MkInternal view action context (lr_organization root) (details_revoke grant reason)).

Definition ballot_consent_payload (voteId principalMemberId casterMemberId choice : jsstr)
    (statement proxyGrantId : option jsstr) (packageSha256 : jsstr) : json :=
  JObj [schemaVersion "boardagent.ballot-consent.v1"; str "voteId" voteId;
        str "principalMemberId" principalMemberId; str "casterMemberId" casterMemberId; str "choice" choice;
        nullable "statement" statement; nullable "proxyGrantId" proxyGrantId; str "packageSha256" packageSha256].

(** The one active grant behind a ballot for another member. *)
Definition ballot_grant (root : LifecycleRoot) (voteId principalMemberId member : jsstr) : Tx DB (option jsstr) :=
  session ← ask;
  db ← get;
  if bool_decide (principalMemberId = member) then mret None else
  relationships ← activeRelationships voteId;
  match List.filter (fun g => bool_decide (pg_principal g = principalMemberId) && bool_decide (pg_holder g = member)
                       && grant_active (rest db) session g) relationships with
  | [g] => if bool_decide (pg_policy g = lr_proxyPolicy root) then mret (Some (pg_id g)) else fail unavailable
  | _ => fail unavailable
  end.

(** Whether the ballot that is effective stands in the way of a new one. *)
Definition check_precedence (root : LifecycleRoot) (voteId principalMemberId member : jsstr) : Tx DB unit :=
  session ← ask;
  db ← get;
  match active_ballots db session voteId principalMemberId with
  | [] => mret tt
  | [active] =>
      fail_if (negb (bool_decide (principalMemberId = member) && bool_decide (bl_source active = proxy)
                     && bool_decide (lr_proxyPolicy root = js "principal_supersedes_proxy")))
        (lifecycle_error "ballot_action_invalid"
           "principal already has an effective ballot under the frozen precedence rule")
  | _ => fail (JsError "multiple effective ballots violate invariants" [])
  end.

Definition principal_of (principalMemberId : option jsstr) (context : ActiveRequestContext) : result jsstr :=
  match principalMemberId with None => Ok (ac_memberId context) | Some id => UuidV7Schema id end.

Definition statement_too_long : exn := RangeError "ballot statement must not exceed 500 characters" [].

Definition prepareBallot (action : BallotLifecycleAction) (voteId : jsstr) (principalMemberId : option jsstr)
    (choice : jsstr) (statement : option jsstr) (key : jsstr) (context : ActiveRequestContext)
    : Tx DB PreparedInternal :=
  voteId ← lift (UuidV7Schema voteId);
  principalMemberId ← lift (principal_of principalMemberId context);
  statement ← lift (parse_nullable canonicalText statement);
  lift (idempotencyKey key) ≫= fun _ =>
  fail_if (negb (opt_all (fun s => js_length s <=? 500) statement)) statement_too_long ≫= fun _ =>
  root ← lockVoteRoot voteId "vote:act";
  fail_if (negb (bool_decide (lr_state root = VoteState_open)) || negb (lr_deadlineOpen root)) unavailable ≫= fun _ =>
  let member := ac_memberId context in
  let involved := set_of [principalMemberId; member] in
  eligible ← participants root involved;
  fail_if (not_eligible eligible (length involved)) unavailable ≫= fun _ =>
  exclusions ← excluded voteId involved;
  fail_if (negb (Nat.eqb (length exclusions) 0)) unavailable ≫= fun _ =>
  proxyGrantId ← ballot_grant root voteId principalMemberId member;
  check_precedence root voteId principalMemberId member ≫= fun _ =>
  names ← displayNames (lr_organization root) involved;
  let packageSha256 := lr_packageSha256 root in
  let payload := ballot_consent_payload voteId principalMemberId member choice statement proxyGrantId packageSha256 in
  payloadSha256 ← lift (canonicalSha256 payload);
  consentSha256 ← lift (ballotConsentHash
    (Ballot.MkInput voteId principalMemberId member choice statement proxyGrantId packageSha256));
  fail_if (negb (bool_decide (payloadSha256 = consentSha256)))
    (JsError "ballot consent payload construction drifted" []) ≫= fun _ =>
  view ← lift (commonPrepared root context names
    (MkCommon (js "stage_ballot") (js "vote") voteId
       (if bool_decide (principalMemberId = member) then None else Some principalMemberId)
       (js "boardagent.ballot-consent.v1") payload principalMemberId
       (if bool_decide (principalMemberId = member) then None else Some member) proxyGrantId));
  mret (MkInternal view action context (lr_organization root) (details_ballot choice statement proxyGrantId)).

Definition prepareInternal (action : BallotLifecycleAction) : Tx DB PreparedInternal :=
  session ← ask;
  context ← lift (readRequestContext session);
  match action with
  | action_grant_proxy voteId holderMemberId key => prepareGrant action voteId holderMemberId key context
  | action_revoke_proxy proxyGrantId reason key => prepareRevoke action proxyGrantId reason key context
  | action_ballot voteId principalMemberId choice statement key =>
      prepareBallot action voteId principalMemberId choice statement key context
  end.

Definition prepareBallotLifecycleActionInTransaction (action : BallotLifecycleAction)
    : Tx DB PreparedBallotLifecycleAction :=
  prepared ← prepareInternal action;
  mret (pi_view prepared).

(** ** Staging *)

Definition stage_input (input : StageActionInput) (prepared : PreparedBallotLifecycleAction) : StageActionInput :=
  MkStageInput (si_stageId input) (si_inputRequiredAttemptId input) (si_wizardDraftId input)
    (Some (pa_boardId prepared)) (pa_actingForMemberId prepared) (pa_actionCode prepared) (pa_targetType prepared)
    (Some (pa_targetId prepared)) (pa_canonicalSchema prepared) (pa_canonicalPayload prepared)
    (Some (pa_packageSha256 prepared)) (si_nonce input) (si_confirmationCode input) (si_accessTokenRecordId input)
    (si_exactOrigin input) (pa_actionCode prepared) (si_originalArguments input) (si_clientCapabilities input)
    (si_embeddedForm input) (si_embeddedResult input) (si_requestStateBytes input) (si_preparedRequestId input)
    (si_stageReplacedEvent input) (si_stageCreatedEvent input) (si_elicitationSentEvent input).

Definition stageBallotLifecycleActionInTransaction (input : BallotLifecycleStageInput)
    : Tx DB StagedBallotLifecycleAction :=
  prepared ← prepareInternal (bs_action input);
  let view := pi_view prepared in
  staged ← stageActionInTransaction (stage_input (bs_stage input) view) (mret tt);
  mret (MkStagedLifecycle staged (pa_actionCode view) (pa_boardId view) (pa_targetType view) (pa_targetId view)
          (pa_actingForMemberId view)).

(** ** Performing *)

Definition auditSequences (result : BallotLifecycleResult) : list Z :=
  let events :=
    match result with
    | result_grant_proxy r => match gr_granted r with Some (_, _, _, events) => events | None => [] end
    | result_revoke_proxy r => match rr_revoked r with Some events => events | None => [] end
    | result_ballot r => match cr_cast r with Some (_, _, events) => events | None => [] end
    end in
  map sequence events.

Definition grant_input_of (prepared : PreparedInternal) (holderMemberId key policy consentRecordId : jsstr)
    (ids : BallotLifecycleGeneratedIds) : GrantProxyInput :=
  let view := pi_view prepared in
  MkGrantInput (pi_organizationId prepared) (pa_voteId view) holderMemberId (pa_packageSha256 view) policy None
    consentRecordId (gi_recordId ids) (gi_idempotencyRecordId ids) key (gi_auditEventId ids).

Definition revoke_input_of (prepared : PreparedInternal) (key reason consentRecordId : jsstr)
    (ids : BallotLifecycleGeneratedIds) : RevokeProxyInput :=
  let view := pi_view prepared in
  MkRevokeInput (pi_organizationId prepared) (pa_voteId view) (pa_targetId view) (pa_packageSha256 view) reason
    consentRecordId (gi_recordId ids) (gi_idempotencyRecordId ids) key (gi_auditEventId ids).

Definition cast_input_of (prepared : PreparedInternal) (key choice : jsstr) (statement proxyGrantId : option jsstr)
    (consentRecordId : jsstr) (ids : BallotLifecycleGeneratedIds) : CastBallotInput :=
  let view := pi_view prepared in
  MkCastInput (pi_organizationId prepared) (pa_voteId view) (pa_principalMemberId view) (pa_packageSha256 view) choice
    statement proxyGrantId consentRecordId (gi_recordId ids) (gi_supersessionDispositionId ids)
    (gi_supersessionAuditEventId ids) (gi_idempotencyRecordId ids) key (gi_auditEventId ids).

Definition performAction (prepared : PreparedInternal) (consentRecordId : jsstr) (ids : BallotLifecycleGeneratedIds)
    : Tx DB BallotLifecycleResult :=
  match pi_details prepared, pi_action prepared with
  | details_grant policy, action_grant_proxy _ holderMemberId key =>
      result ← grantProxyInTransaction (grant_input_of prepared holderMemberId key policy consentRecordId ids);
      mret (result_grant_proxy result)
  | details_grant _, _ => fail (JsError "proxy grant preparation mismatch" [])
  | details_revoke _ reason, action_revoke_proxy _ _ key =>
      result ← revokeProxyInTransaction (revoke_input_of prepared key reason consentRecordId ids);
      mret (result_revoke_proxy result)
  | details_revoke _ _, _ => fail (JsError "proxy revocation preparation mismatch" [])
  | details_ballot choice statement proxyGrantId, action_ballot _ _ _ _ key =>
      result ← castBallotInTransaction
                 (cast_input_of prepared key choice statement proxyGrantId consentRecordId ids);
      mret (result_ballot result)
  | details_ballot _ _ _, _ => fail (JsError "ballot preparation mismatch" [])
  end.

(** ** Confirming *)

Definition set_cell (p : option PreparedInternal) : Tx DB unit := modify (fun t => with_cell t p).

Definition lock_prepared (action : BallotLifecycleAction) : Tx DB CurrentActionBindings :=
  prepared ← prepareInternal action;
  set_cell (Some prepared) ≫= fun _ =>
  mret (MkBindings (pa_payloadSha256 (pi_view prepared)) (Some (pa_packageSha256 (pi_view prepared)))).

Definition act_prepared (ids : BallotLifecycleGeneratedIds) (consentRecordId : jsstr)
    : Tx DB (ConfirmedAct (W := VoteTables X) BallotLifecycleResult) :=
  db ← get;
  match prepared_cell (tables_rest (rest db)) with
  | None => fail (JsError "ballot lifecycle preparation is unavailable" [])
  | Some internal =>
      value ← performAction internal consentRecordId ids;
      mret (MkAct value [] (auditSequences value) None)
  end.

Definition confirmBallotLifecycleActionInTransaction (input : BallotLifecycleConfirmationInput)
    : Tx DB (StagedActionResolution BallotLifecycleResult) :=
  set_cell None ≫= fun _ =>
  confirmStagedActionInTransaction (bc_confirmation input) (lock_prepared (bc_action input))
    (act_prepared (bc_generatedIds input)) (MkConfirmOptions true true).

(** ** Repeating a completed ballot *)

(** The request that a ballot was cast by. *)
Definition ballot_request (organizationId voteId principalMemberId casterMemberId choice : jsstr)
    (statement proxyGrantId : option jsstr) (decisionPackageSha256 consentRecordId : jsstr) : result jsstr :=
  canonicalSha256 (JObj [str "schemaVersion" (js "boardagent.ballot-request.v1");
    str "organizationId" organizationId; str "voteId" voteId; str "principalMemberId" principalMemberId;
    str "casterMemberId" casterMemberId; str "choice" choice; nullable "statement" statement;
    nullable "proxyGrantId" proxyGrantId; str "decisionPackageSha256" decisionPackageSha256;
    str "consentRecordId" consentRecordId]).

Definition conflict (msg : string) : exn := lifecycle_error "ballot_action_invalid" msg.

(** The ballot of the answer on record, on the package of the vote. *)
Definition completed_ballot (root : LifecycleRoot) (voteId principalMemberId memberId id : jsstr)
    : Tx DB BallotRow :=
  session ← ask;
  db ← get;
  match List.find (fun b => bool_decide (bl_id b = id) && bool_decide (bl_organization b = lr_organization root)
                     && bool_decide (bl_board b = lr_board root) && bool_decide (bl_vote b = voteId)
                     && bool_decide (bl_principal b = principalMemberId) && bool_decide (bl_caster b = memberId)
                     && bool_decide (bl_package b = lr_package root)
                     && scoped db session (bl_organization b) (Some (bl_board b))) (ballots (rest db)) with
  | Some b => mret b
  | None => fail (conflict "ballot idempotency conflict")
  end.

(** The seats of the ballot, its exclusions and its grant are still good. *)
Definition still_entitled (root : LifecycleRoot) (voteId principalMemberId memberId : jsstr) (b : BallotRow)
    : Tx DB unit :=
  let involved := set_of [principalMemberId; memberId] in
  eligible ← participants root involved;
  exclusions ← excluded voteId involved;
  fail_if (not_eligible eligible (length involved) || negb (Nat.eqb (length exclusions) 0)) unavailable ≫= fun _ =>
  session ← ask;
  db ← get;
  if bool_decide (bl_source b = proxy) then
    relationships ← activeRelationships voteId;
    let grants := List.filter (fun g => bool_decide (Some (pg_id g) = bl_proxyGrant b)
                    && bool_decide (pg_principal g = principalMemberId) && bool_decide (pg_holder g = memberId)
                    && grant_active (rest db) session g && bool_decide (pg_policy g = lr_proxyPolicy root))
                    relationships in
    fail_if (negb (Nat.eqb (length grants) 1)) unavailable
  else mret tt.

Definition replayCompletedBallotInTransaction (voteId : jsstr) (principalMemberId : option jsstr) (choice : jsstr)
    (statement : option jsstr) (idempotency_key : jsstr) : Tx DB (option CastBallotResult) :=
  session ← ask;
  context ← lift (readRequestContext session);
  voteId ← lift (UuidV7Schema voteId);
  principalMemberId ← lift (principal_of principalMemberId context);
  key ← lift (idempotencyKey idempotency_key);
  statement ← lift (parse_nullable canonicalText statement);
  fail_if (negb (opt_all (fun s => js_length s <=? 500) statement)) statement_too_long ≫= fun _ =>
  root ← lockVoteRoot voteId "vote:act";
  fail_if (negb (pg_takes key)) (DatabaseError "22021") ≫= fun _ =>
  db ← get;
  match List.find (fun r => bool_decide (im_organization r = ac_organizationId context)
                     && bool_decide (im_actor r = ac_memberId context) && bool_decide (im_client r = ac_clientId context)
                     && bool_decide (im_operation r = operation_text cast_ballot) && bool_decide (im_key r = pg_text key)
                     && scoped db session (im_organization r) None) (idempotency_records (rest db)) with
  | None => mret None
  | Some record =>
      response ← match im_state record, im_response record with
                 | idem_succeeded, Some (type, id, sha) =>
                     if bool_decide (type = js "ballot") then mret (id, sha)
                     else fail (conflict "ballot idempotency result is unavailable")
                 | _, _ => fail (conflict "ballot idempotency result is unavailable")
                 end;
      let '(id, sha) := response in
      ballot ← completed_ballot root voteId principalMemberId (ac_memberId context) id;
      expected ← lift (ballot_request (ac_organizationId context) voteId principalMemberId (ac_memberId context) choice
                         statement (bl_proxyGrant ballot) (lr_packageSha256 root) (bl_consent ballot));
      fail_if (negb (safeHashEqual expected (im_requestSha256 record))) (conflict "ballot idempotency conflict")
        ≫= fun _ =>
      still_entitled root voteId principalMemberId (ac_memberId context) ballot ≫= fun _ =>
      responseSha256 ← lift (Sha256HexSchema sha);
      mret (Some (MkCastResult voteId (bl_id ballot) principalMemberId (bl_source ballot) responseSha256 None))
  end.
End lifecycle.
