(* ===== verification/LifecycleEffects.v ===== *)
(** * What preparing and confirming do

    The effect of the transactions of [BallotLifecycle] that returned: an action
    is prepared by reading alone and as the domain hashes it, and a confirmation
    surrounds the performed action by what does not concern the tables of votes. *)

From stdpp Require Import base numbers sorting strings list relations.
From Stdlib Require Import Lia.
From S2P Require Import Prelude JsString Encoding JsNumber Json JsonParse JsonCanon Schemas.
From S2P Require Import StateMachines Decode VotingConsent Voting KeyLifecycle AuditEvent Request Database AuditAppend.
From S2P Require Import StagedAction StagedMoves StagedEffects StagedHistory.
From S2P Require Import Ballots BallotEffects BallotHistory BallotLifecycle.

Local Open Scope Z_scope.

(** ** What surrounds an action *)

Section around.
Context `{Platform} `{IsoTime} {W : Type} `{!NodeText} `{!PgClock} `{!SqlAuthority W} `{!UrlParser}.
Implicit Types (db : Database W) (s : Session).

Lemma append_rest inputs s db events db' :
  appendAuditEventsInTransaction inputs s db = Ok (events, db') -> rest db' = rest db.
Proof. intros A%append_ok. pose proof (ad_only _ _ _ _ _ A) as E. unfold audit_only in E. by rewrite E. Qed.

Lemma update_stage_rest id state s db n db' : update_stage id state s db = Ok (n, db') -> rest db' = rest db.
Proof. by intros [_ ->]%update_stage_ok. Qed.
Lemma update_attempt_rest id retry response action state s db n db' :
  update_attempt id retry response action state s db = Ok (n, db') -> rest db' = rest db.
Proof. by intros [_ ->]%update_attempt_ok. Qed.

Lemma projection_rest r a retry sha s db u db' : confirmProjection r a retry sha s db = Ok (u, db') -> rest db' = rest db.
Proof.
  unfold confirmProjection. intros E. inv_tx.
  repeat match goal with
  | Hq : update_stage _ _ _ _ = Ok _ |- _ => apply update_stage_rest in Hq
  | Hq : update_attempt _ _ _ _ _ _ _ = Ok _ |- _ => apply update_attempt_rest in Hq
  end. congruence.
Qed.

Lemma reject_rest r a input reason sha s db u db' : rejectConfirmation r a input reason sha s db = Ok (u, db') ->
  rest db' = rest db.
Proof.
  unfold rejectConfirmation. intros E. inv_tx.
  match goal with Hq : appendAuditEventsInTransaction _ _ _ = Ok _ |- _ => apply append_rest in Hq end.
  destruct reason; inv_tx;
    repeat match goal with
    | Hq : update_stage _ _ _ _ = Ok _ |- _ => apply update_stage_rest in Hq
    | Hq : update_attempt _ _ _ _ _ _ _ = Ok _ |- _ => apply update_attempt_rest in Hq
    end; congruence.
Qed.

Lemma record_rest stage consent retry arguments capabilities state response record s db u db' :
  boardagent_record_confirmed_consent stage consent retry arguments capabilities state response record s db
  = Ok (u, db') -> rest db' = rest db.
Proof.
  unfold boardagent_record_confirmed_consent. intros E. inv_tx.
  repeat match goal with
  | Hq : (match ?x with Ok _ => _ | Throw _ => _ end) _ _ = Ok _ |- _ => destruct x; inv_tx
  | Hq : (match ?x with Some _ => _ | None => _ end) _ _ = Ok _ |- _ => destruct x; inv_tx
  | Hq : (match ?x with [] => _ | _ :: _ => _ end) _ _ = Ok _ |- _ => destruct x as [|? [|]]; inv_tx
  end; done.
Qed.

(** A confirmed action runs on the tables as the lock left them, and is the last
    to write when it leaves no events and no work for later. *)
Lemma perform_around {T} input consentId sha r a (act : jsstr -> Tx (Database W) (ConfirmedAct T)) s db res db' :
  performConfirmation input consentId sha r a act (MkConfirmOptions true true) s db = Ok (res, db') ->
  exists before x after recordSha sequences, rest before = rest db /\ act consentId s before = Ok (x, after) /\
    res = Confirmed (act_value x) consentId recordSha sequences /\
    (act_auditEvents x = [] -> act_finalizeAfterAudit x = None -> db' = after).
Proof.
  unfold performConfirmation. cbn [appendConsentBeforeAct exposeConfirmedProjectionToAct negb andb tx_when]. intros E. inv_tx.
  repeat match goal with
  | Hq : boardagent_record_confirmed_consent _ _ _ _ _ _ _ _ _ _ = Ok _ |- _ => apply record_rest in Hq
  | Hq : confirmProjection _ _ _ _ _ _ = Ok _ |- _ => apply projection_rest in Hq
  | Hq : appendAuditEventsInTransaction [_] _ _ = Ok _ |- _ => apply append_rest in Hq
  end.
  match goal with Hq : act consentId s ?b = Ok (?y, ?d) |- _ => exists b, y, d end.
  eexists _, _. split; [congruence|]. split; [done|]. split; [done|]. intros Ea Ef. rewrite Ea in *. rewrite Ef in *.
  cbn [app appendAuditEventsInTransaction] in *. inv_tx. done.
Qed.

Lemma confirm_around {T} input lock (act : jsstr -> Tx (Database W) (ConfirmedAct T)) s db res db' :
  confirmStagedActionInTransaction input lock act (MkConfirmOptions true true) s db = Ok (res, db') ->
  exists current locked, lock s db = Ok (current, locked) /\
  match res with
  | NotConfirmed _ => rest db' = rest locked
  | Confirmed value consentId _ _ => exists before x after, rest before = rest locked /\
      act consentId s before = Ok (x, after) /\ value = act_value x /\
      (act_auditEvents x = [] -> act_finalizeAfterAudit x = None -> db' = after)
  end.
Proof.
  unfold confirmStagedActionInTransaction. intros E. inv_tx.
  match goal with Hp : present _ = Ok ?p |- _ => destruct p as [[stageId consentId] presented] end. inv_tx.
  match goal with Hl : lock _ _ = Ok (?c, ?d) |- _ => exists c, d; split; [done|]; rename d into locked end.
  match goal with Hr : readConfirmationRow _ _ _ = Ok (?o, _) |- _ =>
    apply readConfirmationRow_ok in Hr as [-> _]; destruct o as [[r a]|] end; [|by inv_tx].
  unfold decideConfirmation in E. inv_tx. destruct (negb (context_matches _ _ _)); inv_tx; [done|].
  destruct (negb (safeHashEqual _ _)); inv_tx; [done|]. destruct (negb (bool_decide _) || _); inv_tx; [done|].
  unfold assertCurrentToken in *. inv_tx. destruct (judge _ _ _ _ _ _) as [reason|]; inv_tx.
  - by match goal with Hj : rejectConfirmation _ _ _ _ _ _ _ = Ok _ |- _ => apply reject_rest in Hj end.
  - destruct (perform_around _ _ _ _ _ _ _ _ _ _ E) as (before & done_act & after & sha & seqs & Hb & Hx & -> & Hd).
    by exists before, done_act, after.
Qed.

Lemma stage_rest input s db r db' : stageActionInTransaction input (mret tt) s db = Ok (r, db') -> rest db' = rest db.
Proof.
  unfold stageActionInTransaction, assertCurrentToken. intros E. inv_tx.
  match goal with Hq : insert_stage _ _ _ = Ok _ |- _ => apply insert_stage_ok in Hq as [Hq _]; inv_tx end.
  match goal with Hq : insert_attempt _ _ _ = Ok _ |- _ => apply insert_attempt_ok in Hq as [Hq _]; inv_tx end.
  match goal with Hq : appendAuditEventsInTransaction _ _ _ = Ok _ |- _ => apply append_rest in Hq as -> end.
  cbn [rest with_attempts with_stages].
  match goal with Hq : replace_active ?o _ _ = Ok _ |- _ => destruct o; cbn [replace_active] in Hq; inv_tx end;
    repeat match goal with Hq : update_stage _ _ _ _ = Ok _ |- _ => apply update_stage_rest in Hq end; congruence.
Qed.
End around.

Section effects.
Context `{Platform} `{IsoTime} {Y : Type}.
Abbreviation X := (LifecycleTables Y).
Context `{!NodeText} `{!PgClock} `{!SqlAuthority (VoteTables X)} `{!VoteAuthority X} `{!UrlParser} `{!JsonbReading}.
Abbreviation DB := (Database (VoteTables X)).
Implicit Types (db : DB) (s : Session).

(** ** Reading *)

(** The vote that was locked, and what is shown of it. *)
Record root_of s db (voteId : jsstr) (scope : string) (root : LifecycleRoot) (v : VoteRow) (p : PackageRow)
    (r : RuleRow) (n : ResolutionRow) : Prop := {
  ro_vote : v ∈ votes (rest db) /\ vt_id v = voteId;
  ro_package : p ∈ decision_packages (rest db) /\ vt_package v = Some (dp_id p) /\ dp_vote p = voteId;
  ro_rule : r ∈ approval_rules (rest db) /\ ru_id r = vt_approvalRule v;
  ro_resolution : n ∈ resolution_versions (tables_rest (rest db)) /\ vt_resolution v = Some (rv_id n);
  ro_visible : scoped db s (vt_organization v) (Some (vt_board v)) = true;
  ro_ready : boardagent_vote_actor_ready_for_scope db s (vt_board v) scope = true;
  ro_root : root_row db s scope v p r n = Ok root
}.

Lemma root_row_ok scope v p r n s db root : root_row db s scope v p r n = Ok root ->
  lr_organization root = vt_organization v /\ lr_board root = vt_board v /\ lr_vote root = vt_id v /\
  lr_title root = vt_title v /\ lr_state root = vt_state v /\ lr_package root = dp_id p /\
  lr_packageSha256 root = dp_packageSha256 p /\ lr_proxyPolicy root = ru_proxyPolicy r /\
  lr_actorReady root = boardagent_vote_actor_ready_for_scope db s (vt_board v) scope /\
  lr_resolutionText root = rv_canonicalText n /\ lr_resolutionSha256 root = rv_canonicalSha256 n /\
  (lr_deadlineOpen root = true -> exists deadline, vt_deadlineAt v = Some deadline /\ transaction_timestamp s < deadline).
Proof.
  unfold root_row. intros E. inv_ok. destruct root as [o b i t st pk sha d pol dl ar rt rs]. injection E as <- <- <- <- <- <- <- <- <- <- <- <- <-. cbn. split_and!; try done. destruct (vt_deadlineAt v) as [d|]; [|done].
  intros Hd%Z.ltb_lt. by exists d.
Qed.

Lemma mapR_single {A B} (f : A -> result B) l y : mapR f l = Ok [y] -> exists x, l = [x] /\ f x = Ok y.
Proof.
  intros Hm%mapR_ok. inversion Hm as [|x ? l' ? Hx Hl]; subst. inversion Hl; subst. by exists x.
Qed.

Lemma lock_root_ok voteId scope s db root db' : BallotLifecycle.lockVoteRoot voteId scope s db = Ok (root, db') ->
  db' = db /\ exists v p r n, root_of s db voteId scope root v p r n.
Proof.
  unfold BallotLifecycle.lockVoteRoot. intros E. inv_tx.
  match goal with Hm : mapR _ (root_rows _ _ _) = Ok ?l |- _ => rename l into rows, Hm into Em end.
  destruct rows as [|q [|]]; [by inv_tx| |by inv_tx]. inv_tx. split; [done|]. boolify.
  apply mapR_single in Em as ([[[v p] r] n] & Er & Em).
  assert (List.In (v, p, r, n) (root_rows db s voteId)) as Hin by (rewrite Er; by left). unfold root_rows in Hin.
  apply in_flat_map in Hin as (v' & [Hv Hvb]%List.filter_In & Hin).
  apply in_flat_map in Hin as (p' & [Hp Hpb]%List.filter_In & Hin).
  apply in_flat_map in Hin as (r' & [Hr Hrb]%List.filter_In & Hin).
  apply in_map_iff in Hin as (n' & En & [Hn Hnb]%List.filter_In). injection En as -> -> -> ->. boolify.
  pose proof (root_row_ok _ _ _ _ _ _ _ _ Em) as (_ & _ & _ & _ & _ & _ & _ & _ & Hready & _).
  exists v, p, r, n. split; rewrite ?list_elem_of_In; try done; try congruence; split_and!; congruence.
Qed.

Lemma participants_reads root ids s db l db' : participants root ids s db = Ok (l, db') -> db' = db.
Proof. by intros [-> _]%lock_participants_ok. Qed.
Lemma excluded_reads vote ids s db l db' : excluded vote ids s db = Ok (l, db') -> db' = db.
Proof. unfold excluded, excludedMembers. intros E. by inv_tx. Qed.
Lemma names_reads organization ids s db l db' : displayNames organization ids s db = Ok (l, db') -> db' = db.
Proof. unfold displayNames. intros E. by inv_tx. Qed.
Lemma relationships_ok vote s db l db' : activeRelationships vote s db = Ok (l, db') -> db' = db /\ l = visible_grants db s vote.
Proof. unfold activeRelationships. intros E. by inv_tx. Qed.

Lemma precedence_reads root vote principal member s db u db' :
  check_precedence root vote principal member s db = Ok (u, db') -> db' = db.
Proof. unfold check_precedence. intros E. inv_tx. by destruct (active_ballots _ _ _ _) as [|b [|]]; inv_tx. Qed.

Lemma ballot_grant_ok root vote principal member s db o db' : ballot_grant root vote principal member s db = Ok (o, db') ->
  db' = db /\ match o with
  | None => principal = member
  | Some id => principal <> member /\ exists g, g ∈ visible_grants db s vote /\ pg_id g = id /\ pg_principal g = principal /\
      pg_holder g = member /\ grant_active (rest db) s g = true /\ pg_policy g = lr_proxyPolicy root
  end.
Proof.
  unfold ballot_grant. intros E. inv_tx. case_bool_decide as Hp; inv_tx; [done|].
  match goal with Hq : activeRelationships _ _ _ = Ok _ |- _ => apply relationships_ok in Hq as [-> ->] end.
  destruct (List.filter _ _) as [|g [|]] eqn:Ef; [by inv_tx| |by inv_tx].
  assert (List.In g [g]) as Hin by (by left). rewrite <- Ef in Hin. apply List.filter_In in Hin as [Hin Hb].
  boolify. case_bool_decide as Hpol; inv_tx. split; [done|]. split; [done|]. exists g. rewrite list_elem_of_In.
  by split_and!.
Qed.

(** ** What is prepared *)

(** The action as it is shown: of the vote as it is locked, under the digest of
    its canonical payload. *)
Record shows s db (scope : string) (p : PreparedInternal) (root : LifecycleRoot) (v : VoteRow) (pk : PackageRow)
    (r : RuleRow) (n : ResolutionRow) : Prop := {
  sh_root : root_of s db (pa_voteId (pi_view p)) scope root v pk r n;
  sh_context : readRequestContext s = Ok (pi_context p);
  sh_organization : pi_organizationId p = vt_organization v;
  sh_board : pa_boardId (pi_view p) = vt_board v;
  sh_title : pa_voteTitle (pi_view p) = vt_title v;
  sh_resolution : pa_resolutionText (pi_view p) = rv_canonicalText n /\
    pa_resolutionSha256 (pi_view p) = rv_canonicalSha256 n;
  sh_package : pa_packageSha256 (pi_view p) = dp_packageSha256 pk;
  sh_document : pg_jsonb (dp_canonicalPayload pk) = Ok (pa_decisionPackage (pi_view p));
  sh_payload : canonicalSha256 (pa_canonicalPayload (pi_view p)) = Ok (pa_payloadSha256 (pi_view p));
  sh_actor : pa_actorMemberId (pi_view p) = ac_memberId (pi_context p)
}.

Lemma shown_view s db vote scope root v pk r n context names input view action details :
  root_of s db vote scope root v pk r n -> readRequestContext s = Ok context ->
  commonPrepared root context names input = Ok view ->
  pa_voteId view = vote /\ pa_actionCode view = co_actionCode input /\ pa_targetType view = co_targetType input /\
  pa_targetId view = co_targetId input /\ pa_principalMemberId view = co_principalMemberId input /\
  pa_actingForMemberId view = co_actingForMemberId input /\ pa_proxyGrantId view = co_proxyGrantId input /\
  pa_holderMemberId view = co_holderMemberId input /\ pa_canonicalPayload view = co_canonicalPayload input /\
  pa_packageSha256 view = lr_packageSha256 root /\
  shows s db scope (MkInternal view action context (lr_organization root) details) root v pk r n.
Proof.
  intros R Hc. unfold commonPrepared. intros E. inv_ok.
  match goal with Hq : Sha256HexSchema _ = Ok _ |- _ => apply parse_ok in Hq as [-> _] end.
  pose proof (ro_root _ _ _ _ _ _ _ _ _ R) as Er.
  destruct (root_row_ok _ _ _ _ _ _ _ _ Er) as (E1 & E2 & E3 & E4 & E5 & E6 & E7 & E8 & E9 & E10 & E11 & _).
  destruct (ro_vote _ _ _ _ _ _ _ _ _ R) as [Hv Evote]. subst view.
  assert (lr_vote root = vote) as Elr by congruence. split_and!; try done.
  split; cbn; try done; [by rewrite Elr|]. unfold root_row in Er. inv_ok. by rewrite <- Er.
Qed.

(** An action is prepared as it was asked for, and under the digest by which the
    domain binds a consent to it. *)
Definition prepared_as s db (action : BallotLifecycleAction) (p : PreparedInternal) : Prop :=
  let view := pi_view p in
  let member := ac_memberId (pi_context p) in
  match action with
  | action_grant_proxy voteId holder _ => exists policy, pi_details p = details_grant policy /\
      pa_actionCode view = js "grant_proxy" /\ pa_targetType view = js "vote" /\ pa_targetId view = voteId /\
      pa_voteId view = voteId /\ holder <> member /\
      proxyGrantConsentHash (ProxyGrant.MkInput voteId member holder policy None (pa_packageSha256 view))
      = Ok (pa_payloadSha256 view)
  | action_revoke_proxy grantId reason _ => exists g, pi_details p = details_revoke g reason /\
      pa_actionCode view = js "revoke_proxy" /\ pa_targetType view = js "proxy_grant" /\ pa_targetId view = grantId /\
      g ∈ visible_grants db s (pa_voteId view) /\ pg_id g = grantId /\ pg_principal g = member /\
      grant_active (rest db) s g = true /\
      proxyRevokeConsentHash (ProxyRevoke.MkInput (pa_voteId view) grantId member reason (pa_packageSha256 view))
      = Ok (pa_payloadSha256 view)
  | action_ballot voteId principal choice statement _ => exists grantId, pi_details p = details_ballot choice statement grantId /\
      pa_actionCode view = js "stage_ballot" /\ pa_targetType view = js "vote" /\ pa_targetId view = voteId /\
      pa_voteId view = voteId /\ pa_principalMemberId view = or_else principal member /\
      ballotConsentHash (Ballot.MkInput voteId (or_else principal member) member choice statement grantId
        (pa_packageSha256 view)) = Ok (pa_payloadSha256 view)
  end.

Definition scope_of (action : BallotLifecycleAction) : string :=
  match action with action_ballot _ _ _ _ _ => "vote:act" | _ => "proxy:manage" end.

Ltac parse_input := repeat match goal with
  | H : UuidV7Schema _ = Ok _ |- _ => apply parse_ok in H as [-> H]
  | H : canonicalText _ = Ok _ |- _ => apply canonicalText_ok in H as [-> H]
  | H : parse_nullable canonicalText _ = Ok _ |- _ =>
      apply parse_nullable_ok in H as [-> H]; [|by intros ? ? [-> _]%canonicalText_ok]
  end.

Ltac read_only := repeat match goal with
  | H : BallotLifecycle.lockVoteRoot _ _ _ _ = Ok _ |- _ =>
      apply lock_root_ok in H as (-> & lv & lp & lr & ln & Hroot)
  | H : participants _ _ _ _ = Ok _ |- _ => apply participants_reads in H as ->
  | H : excluded _ _ _ _ = Ok _ |- _ => apply excluded_reads in H as ->
  | H : activeRelationships _ _ _ = Ok _ |- _ => apply relationships_ok in H as [-> ->]
  | H : displayNames _ _ _ _ = Ok _ |- _ => apply names_reads in H as ->
  | H : check_precedence _ _ _ _ _ _ = Ok _ |- _ => apply precedence_reads in H as ->
  | H : ballot_grant _ _ _ _ _ _ = Ok _ |- _ => apply ballot_grant_ok in H as [-> Hgrant]
  end.

Lemma prepare_grant_ok action vote holder key context s db p db' : readRequestContext s = Ok context ->
  action = action_grant_proxy vote holder key ->
  prepareGrant action vote holder key context s db = Ok (p, db') ->
  db' = db /\ pi_action p = action /\ prepared_as s db action p /\
  exists root v pk r n, shows s db "proxy:manage" p root v pk r n.
Proof.
  intros Hc Ea. unfold prepareGrant. intros E. inv_tx. parse_input. read_only.
  match goal with Hq : commonPrepared ?q _ _ _ = Ok _ |- _ => rename Hq into Hcommon, q into root end.
  destruct (shown_view _ _ _ _ _ _ _ _ _ _ _ _ _ (action_grant_proxy vote holder key) (details_grant (lr_proxyPolicy root))
    Hroot Hc Hcommon) as (V1 & V2 & V3 & V4 & V5 & V6 & V7 & V8 & V9 & V10 & S).
  split; [done|]. split; [done|]. split; [|by eexists _, _, _, _, _]. boolify. exists (lr_proxyPolicy root).
  pose proof (sh_payload _ _ _ _ _ _ _ _ _ S) as Hp. cbn [pi_view] in Hp. rewrite V9 in Hp.
  cbn [co_actionCode co_targetType co_targetId co_canonicalPayload] in V2, V3, V4, Hp.
  cbn [pi_view pi_details pi_context]. rewrite V10. split_and!; try done; congruence.
Qed.

Lemma prepare_revoke_ok action grantId reason key context s db p db' : readRequestContext s = Ok context ->
  action = action_revoke_proxy grantId reason key ->
  prepareRevoke action grantId reason key context s db = Ok (p, db') ->
  db' = db /\ pi_action p = action /\ prepared_as s db action p /\
  exists root v pk r n, shows s db "proxy:manage" p root v pk r n.
Proof.
  intros Hc Ea. unfold prepareRevoke. intros E. inv_tx. parse_input.
  destruct (List.filter _ (proxy_grants _)) as [|g0 [|]]; [by inv_tx| |by inv_tx]. inv_tx. read_only.
  match goal with Hq : commonPrepared ?q _ _ _ = Ok _ |- _ => rename Hq into Hcommon, q into root end.
  destruct (List.filter _ (visible_grants _ _ _)) as [|g [|]] eqn:Ef; [by inv_tx| |by inv_tx].
  assert (List.In g [g]) as Hin by (by left). rewrite <- Ef in Hin. apply List.filter_In in Hin as [Hin Hg].
  destruct (grant_active _ _ g) eqn:Ha; inv_tx.
  destruct (shown_view _ _ _ _ _ _ _ _ _ _ _ _ _ (action_revoke_proxy grantId reason key) (details_revoke g reason)
    Hroot Hc Hcommon) as (V1 & V2 & V3 & V4 & V5 & V6 & V7 & V8 & V9 & V10 & S).
  split; [done|]. split; [done|]. split; [|by eexists _, _, _, _, _]. boolify. exists g.
  pose proof (sh_payload _ _ _ _ _ _ _ _ _ S) as Hp. cbn [pi_view] in Hp. rewrite V9 in Hp.
  cbn [co_actionCode co_targetType co_targetId co_canonicalPayload] in V2, V3, V4, Hp.
  cbn [pi_view pi_details pi_context]. rewrite V10, V1. split_and!; try done; try congruence. by apply list_elem_of_In.
Qed.

Lemma principal_ok principal context who : principal_of principal context = Ok who ->
  who = or_else principal (ac_memberId context).
Proof. destruct principal as [id|]; cbn; [by intros [-> _]%parse_ok|by intros [= <-]]. Qed.

Lemma prepare_ballot_ok action vote principal choice statement key context s db p db' :
  readRequestContext s = Ok context -> action = action_ballot vote principal choice statement key ->
  prepareBallot action vote principal choice statement key context s db = Ok (p, db') ->
  db' = db /\ pi_action p = action /\ prepared_as s db action p /\
  exists root v pk r n, shows s db "vote:act" p root v pk r n.
Proof.
  intros Hc Ea. unfold prepareBallot. intros E. inv_tx. parse_input. read_only.
  match goal with Hq : principal_of _ _ = Ok ?w |- _ => apply principal_ok in Hq; subst w end.
  match goal with Hq : commonPrepared ?q _ _ {| co_proxyGrantId := ?o |} = Ok _ |- _ =>
    rename Hq into Hcommon, q into root, o into grantId end.
  destruct (shown_view _ _ _ _ _ _ _ _ _ _ _ _ _ (action_ballot vote principal choice statement key)
    (details_ballot choice statement grantId) Hroot Hc Hcommon) as (V1 & V2 & V3 & V4 & V5 & V6 & V7 & V8 & V9 & V10 & S).
  split; [done|]. split; [done|]. split; [|by eexists _, _, _, _, _]. boolify. exists grantId.
  pose proof (sh_payload _ _ _ _ _ _ _ _ _ S) as Hp. cbn [pi_view] in Hp. rewrite V9 in Hp.
  cbn [co_actionCode co_targetType co_targetId co_canonicalPayload co_principalMemberId] in V2, V3, V4, V5, Hp.
  cbn [pi_view pi_details pi_context]. rewrite V10. split_and!; try done; congruence.
Qed.

(** Preparing only reads. *)
Lemma prepare_internal_ok action s db p db' : prepareInternal action s db = Ok (p, db') ->
  db' = db /\ pi_action p = action /\ prepared_as s db action p /\
  exists root v pk r n, shows s db (scope_of action) p root v pk r n.
Proof.
  unfold prepareInternal. intros E. inv_tx.
  destruct action; [by eapply prepare_grant_ok|by eapply prepare_revoke_ok|by eapply prepare_ballot_ok].
Qed.
End effects.
