(* ===== verification/LifecycleHistory.v ===== *)
(** * Ballots that were confirmed

    Any sequence of staging, confirming and other transactions over the tables of
    stages and of votes together: every ballot and every proxy was confirmed by
    who acts, for exactly what it says and once; what a confirmation casts; and
    that a completed ballot is answered like the retry of its request. *)

From stdpp Require Import base numbers sorting strings list relations.
From Stdlib Require Import Lia.
From S2P Require Import Prelude JsString Encoding JsNumber Json JsonParse JsonCanon Schemas.
From S2P Require Import StateMachines Decode VotingConsent Voting KeyLifecycle AuditEvent Request Database AuditAppend.
From S2P Require Import StagedAction StagedMoves StagedEffects StagedHistory.
From S2P Require Import Ballots BallotEffects BallotHistory BallotLifecycle LifecycleEffects.

Local Open Scope Z_scope.

Section histories.
Context `{Platform} `{IsoTime} {Y : Type}.
Abbreviation X := (LifecycleTables Y).
Context `{!NodeText} `{!PgClock} `{!SqlAuthority (VoteTables X)} `{!VoteAuthority X} `{!UrlParser} `{!JsonbReading}.
Abbreviation DB := (Database (VoteTables X)).
Implicit Types (db : DB) (s : Session) (t : VoteTables X).

(** ** The callbacks of a confirmation *)

Lemma votes_only_foreign db db' : votes_only db db' -> foreign db db'.
Proof.
  unfold votes_only. intros E. split; [by rewrite E; apply rows_moved_refl|by rewrite E..|].
  exists []. apply grows_same_audit; by rewrite E.
Qed.

(** What surrounds an append is foreign to the stages. *)
Lemma appended_foreign s db db1 db2 db' inputs events : votes_only db db1 -> appended s db1 db2 inputs events ->
  votes_only db2 db' -> foreign db db'.
Proof.
  intros V1 A V2. eapply foreign_trans; [by apply votes_only_foreign|].
  eapply foreign_trans; [|by apply votes_only_foreign]. eapply audit_only_foreign; [apply A|apply (ad_grows _ _ _ _ _ A)].
Qed.

Lemma cast_foreign input s db res db' : castBallotInTransaction input s db = Ok (res, db') -> foreign db db'.
Proof.
  intros (context & root & v & p & r & sha & _ & _ & O)%cast_ok.
  destruct O as [|? ? ? ? ? ? ? ? _ _ _ _ _ _ _ V1 (db2 & A & V2)]; [apply foreign_refl|by eapply appended_foreign].
Qed.
Lemma grant_foreign input s db res db' : grantProxyInTransaction input s db = Ok (res, db') -> foreign db db'.
Proof.
  intros (context & root & v & p & r & sha & _ & _ & O)%grant_ok.
  destruct O as [|? ? ? ? ? ? ? _ _ _ _ _ _ V1 A V2]; [apply foreign_refl|by eapply appended_foreign].
Qed.
Lemma revoke_foreign input s db res db' : revokeProxyInTransaction input s db = Ok (res, db') -> foreign db db'.
Proof.
  intros (context & root & v & p & r & reason & sha & _ & _ & O)%revoke_ok.
  destruct O as [|? ? ? ? ? ? ? _ _ _ _ _ _ V1 A V2]; [apply foreign_refl|by eapply appended_foreign].
Qed.

(** What is performed is one of the three transactions. *)
Lemma perform_cases p cid ids s db value db' : performAction p cid ids s db = Ok (value, db') ->
  (exists policy vote holder key res, pi_details p = details_grant policy /\
     pi_action p = action_grant_proxy vote holder key /\ value = result_grant_proxy res /\
     grantProxyInTransaction (grant_input_of p holder key policy cid ids) s db = Ok (res, db')) \/
  (exists g reason id reason' key res, pi_details p = details_revoke g reason /\
     pi_action p = action_revoke_proxy id reason' key /\ value = result_revoke_proxy res /\
     revokeProxyInTransaction (revoke_input_of p key reason cid ids) s db = Ok (res, db')) \/
  (exists choice statement o vote principal choice' statement' key res,
     pi_details p = details_ballot choice statement o /\
     pi_action p = action_ballot vote principal choice' statement' key /\ value = result_ballot res /\
     castBallotInTransaction (cast_input_of p key choice statement o cid ids) s db = Ok (res, db')).
Proof.
  unfold performAction. intros E. destruct (pi_details p), (pi_action p); inv_tx.
  - left. by eexists _, _, _, _, _.
  - right. left. by eexists _, _, _, _, _, _.
  - right. right. by eexists _, _, _, _, _, _, _, _, _.
Qed.

Lemma perform_foreign p cid ids s db value db' : performAction p cid ids s db = Ok (value, db') -> foreign db db'.
Proof.
  intros [(? & ? & ? & ? & ? & _ & _ & _ & E)|[(? & ? & ? & ? & ? & ? & _ & _ & _ & E)|
    (? & ? & ? & ? & ? & ? & ? & ? & ? & _ & _ & _ & E)]]%perform_cases;
    [by eapply grant_foreign|by eapply revoke_foreign|by eapply cast_foreign].
Qed.

Lemma perform_tables_ok p cid ids s db value db' : performAction p cid ids s db = Ok (value, db') ->
  tables_ok (rest db) -> tables_ok (rest db').
Proof.
  intros [(? & ? & ? & ? & ? & _ & _ & _ & E)|[(? & ? & ? & ? & ? & ? & _ & _ & _ & E)|
    (? & ? & ? & ? & ? & ? & ? & ? & ? & _ & _ & _ & E)]]%perform_cases;
    [by eapply grant_tables_ok|by eapply revoke_tables_ok|by eapply cast_tables_ok].
Qed.

Lemma set_cell_ok p s db u db' : set_cell p s db = Ok (u, db') -> db' = with_rest db (with_cell (rest db) p).
Proof. unfold set_cell. by intros ->%modify_ok. Qed.

Lemma lock_prepared_ok action s db current db' : lock_prepared action s db = Ok (current, db') ->
  exists p, prepareInternal action s db = Ok (p, db) /\ db' = with_rest db (with_cell (rest db) (Some p)) /\
    current = MkBindings (pa_payloadSha256 (pi_view p)) (Some (pa_packageSha256 (pi_view p))).
Proof.
  unfold lock_prepared. intros E. inv_tx. match goal with Hs : set_cell _ _ _ = Ok _ |- _ => apply set_cell_ok in Hs as -> end.
  match goal with Hp : prepareInternal _ _ _ = Ok (?q, _) |- _ => destruct (prepare_internal_ok _ _ _ _ _ Hp) as [-> _]; exists q end. done.
Qed.

Lemma lock_honest action : honest (lock_prepared (Y := Y) action).
Proof. intros s db current db' (p & _ & -> & _)%lock_prepared_ok. by apply votes_only_foreign. Qed.

Lemma act_prepared_ok ids cid s db x db' : act_prepared ids cid s db = Ok (x, db') ->
  exists p value, prepared_cell (tables_rest (rest db)) = Some p /\ performAction p cid ids s db = Ok (value, db') /\
    x = MkAct value [] (auditSequences value) None.
Proof.
  unfold act_prepared. intros E. inv_tx. destruct (prepared_cell _) as [p|]; inv_tx. by eexists _, _.
Qed.

Lemma act_honest ids : acts_honestly (act_prepared (Y := Y) ids).
Proof.
  split.
  - intros cid s db x db' (p & value & _ & E & _)%act_prepared_ok. by eapply perform_foreign.
  - intros cid s db x db' f (p & value & _ & _ & ->)%act_prepared_ok. done.
Qed.

(** ** A confirmation *)

(** The database when a confirmation begins: its variable is not set. *)
Definition begun db : DB := with_rest db (with_cell (rest db) None).

Lemma cell_other t p : tables_ok t -> other_act t (with_cell t p).
Proof.
  intros [So [G1 G2 G3 G4 G5] [B1 B2 B3 B4 B5 B6 B7 B8] K]. split; try done.
  - destruct So as [S1 S2 S3 S4 S5 S6 S7 S8 S9]. by split.
  - intros v Hv. exists v. split_and!; try done. by right.
  - exists []. split; [by rewrite app_nil_r|by intros r ?%elem_of_nil].
  - exists []. split; [by rewrite app_nil_r|]. split; [done|by intros d ?%elem_of_nil].
Qed.
Lemma cell_tables_ok t p : tables_ok t -> tables_ok (with_cell t p).
Proof. intros Ok0. by apply (other_ok _ _ (cell_other t p Ok0)). Qed.

Lemma begun_foreign db : foreign db (begun db).
Proof. by apply votes_only_foreign. Qed.

(** What the tables are after a confirmation that returned. *)
Lemma confirm_tables input s db res db' : confirmBallotLifecycleActionInTransaction input s db = Ok (res, db') ->
  confirmStagedActionInTransaction (bc_confirmation input) (lock_prepared (bc_action input))
    (act_prepared (bc_generatedIds input)) (MkConfirmOptions true true) s (begun db) = Ok (res, db') /\
  exists p, prepareInternal (bc_action input) s (begun db) = Ok (p, begun db) /\
  match res with
  | NotConfirmed _ => rest db' = with_cell (rest db) (Some p)
  | Confirmed value cid _ _ => exists before, rest before = with_cell (rest db) (Some p) /\
      performAction p cid (bc_generatedIds input) s before = Ok (value, db')
  end.
Proof.
  unfold confirmBallotLifecycleActionInTransaction. intros E. inv_tx.
  match goal with Hs : set_cell _ _ _ = Ok _ |- _ => apply set_cell_ok in Hs as -> end. split; [done|].
  destruct (confirm_around _ _ _ _ _ _ _ E) as (current & locked & Hl & Hres).
  apply lock_prepared_ok in Hl as (p & Hp & -> & _). exists p. split; [done|]. destruct res as [value cid sha seqs|reason].
  - destruct Hres as (before & done_act & after & Hb & Hx & -> & Hd).
    destruct (act_prepared_ok _ _ _ _ _ _ Hx) as (q & v & Hq & Hv & ->). rewrite (Hd eq_refl eq_refl). exists before.
    rewrite Hb in Hq. cbn in Hq. injection Hq as <-. split; [exact Hb|exact Hv].
  - exact Hres.
Qed.

Lemma confirm_step input s db res db' : confirmBallotLifecycleActionInTransaction input s db = Ok (res, db') ->
  step (begun db) db'.
Proof. intros [E _]%confirm_tables. eapply step_confirm; [apply lock_honest|apply act_honest|exact E]. Qed.

Lemma confirm_wf input s db res db' : confirmBallotLifecycleActionInTransaction input s db = Ok (res, db') ->
  wf db -> wf db' /\ keeps_settled db db' /\ keeps_consents db db'.
Proof.
  intros S%confirm_step Hw. pose proof (wf_foreign _ _ (begun_foreign db) Hw) as Hb.
  split; [by eapply step_wf|]. split; [exact (step_keeps _ _ S Hb)|exact (step_consents _ _ S Hb)].
Qed.

Lemma confirm_tables_ok input s db res db' : confirmBallotLifecycleActionInTransaction input s db = Ok (res, db') ->
  tables_ok (rest db) -> tables_ok (rest db').
Proof.
  intros (_ & p & _ & Hres)%confirm_tables Ok0. destruct res as [value cid sha seqs|reason].
  - destruct Hres as (before & Hb & Hv). eapply perform_tables_ok; [exact Hv|]. rewrite Hb. by apply cell_tables_ok.
  - rewrite Hres. by apply cell_tables_ok.
Qed.

(** Staging writes none of the tables of votes. *)
Lemma lifecycle_stage_ok input s db res db' : stageBallotLifecycleActionInTransaction input s db = Ok (res, db') ->
  rest db' = rest db /\ step db db' /\ exists p, prepareInternal (bs_action input) s db = Ok (p, db) /\
    stageActionInTransaction (stage_input (bs_stage input) (pi_view p)) (mret tt) s db = Ok (sl_staged res, db').
Proof.
  unfold stageBallotLifecycleActionInTransaction. intros E. inv_tx.
  match goal with Hp : prepareInternal _ _ _ = Ok (?q, _) |- _ => destruct (prepare_internal_ok _ _ _ _ _ Hp) as [-> _]; rename q into p end.
  match goal with Hs : stageActionInTransaction _ _ _ _ = Ok _ |- _ => rename Hs into Hstage end.
  split; [by eapply stage_rest|]. split; [|by exists p]. eapply step_stage; [|exact Hstage].
  intros s0 d u d' Hr. inv_tx. apply foreign_refl.
Qed.

(** ** What was confirmed *)

(** There is a consent with this identifier, recorded by the one confirmed stage
    of this actor, action and target, for this payload on this package. *)
Definition confirmed_stage db (consentId actor : jsstr) (code type : string) (target payload package : jsstr)
    (r : StageRow) : Prop :=
  r ∈ action_stages db /\ st_state r = stage_confirmed /\ st_actor (binding r) = actor /\
  st_actionCode (binding r) = js code /\ st_targetType (binding r) = js type /\
  st_targetId (binding r) = Some target /\ st_payloadSha256 (binding r) = payload /\
  st_packageSha256 (binding r) = Some package /\
  exists c, c ∈ consent_records db /\ cn_id c = consentId /\ cn_stage c = stage_id r.

Lemma confirmed_keeps db db' consentId actor code type target payload package r :
  keeps_settled db db' -> keeps_consents db db' ->
  confirmed_stage db consentId actor code type target payload package r ->
  confirmed_stage db' consentId actor code type target payload package r.
Proof.
  intros Ks Kc (A1 & A2 & A3 & A4 & A5 & A6 & A7 & A8 & c & A9 & A10 & A11). split_and!; try done.
  - apply Ks; [done|congruence].
  - exists c. auto.
Qed.

Lemma sql_eq_some a b x : sql_eq a b = true -> b = Some x -> a = Some x.
Proof. destruct a, b; cbn; try done. intros E%bool_decide_eq_true. congruence. Qed.

Lemma consented_confirmed s db id code type target payload package context :
  readRequestContext s = Ok context ->
  consented_act s db (MkConsentQuery id (js code) (js type) target payload package) ->
  exists r, confirmed_stage db id (ac_memberId context) code type target payload package r.
Proof.
  intros Hc (c & st & a & Hcr & Hst & Ha & M & S & _). exists st. unfold consent_matches in M. cbn in M.
  unfold stage_confirms in S. boolify.
  assert (boardagent_context_uuid (set_member_id s) = Some (ac_memberId context)) as Em.
  { revert Hc. unfold readRequestContext. repeat (destruct (boardagent_context_uuid _); [|done]). by intros [= <-]. }
  unfold confirmed_stage, stage_id. split_and!; try done; try congruence.
  - eapply sql_eq_some; [done|congruence].
  - eapply sql_eq_some; [done|congruence].
  - exists c. by split_and!.
Qed.

(** A ballot that its caster confirmed, and a proxy that its principal did. *)
Definition ballot_confirmed db (b : BallotRow) (r : StageRow) : Prop :=
  exists p payload, p ∈ decision_packages (rest db) /\ dp_id p = bl_package b /\
    ballotConsentHash (Ballot.MkInput (bl_vote b) (bl_principal b) (bl_caster b) (bl_choice b) (bl_statement b)
      (bl_proxyGrant b) (dp_packageSha256 p)) = Ok payload /\
    confirmed_stage db (bl_consent b) (bl_caster b) "stage_ballot" "vote" (bl_vote b) payload (dp_packageSha256 p) r.

Definition grant_confirmed db (g : GrantRow) (r : StageRow) : Prop :=
  exists p payload, p ∈ decision_packages (rest db) /\ dp_vote p = pg_vote g /\ pg_expiresAt g = None /\
    proxyGrantConsentHash (ProxyGrant.MkInput (pg_vote g) (pg_principal g) (pg_holder g) (pg_policy g) None
      (dp_packageSha256 p)) = Ok payload /\
    confirmed_stage db (pg_consent g) (pg_principal g) "grant_proxy" "vote" (pg_vote g) payload (dp_packageSha256 p) r.

Record accounted db : Prop := {
  ac_ballots : forall b, b ∈ ballots (rest db) -> exists r, ballot_confirmed db b r;
  ac_grants : forall g, g ∈ proxy_grants (rest db) -> exists r, grant_confirmed db g r
}.

(** What keeps what was confirmed. *)
Record keeps db db' : Prop := {
  ke_settled : keeps_settled db db';
  ke_consents : keeps_consents db db';
  ke_packages : forall p, p ∈ decision_packages (rest db) -> p ∈ decision_packages (rest db')
}.

Lemma ballot_confirmed_keeps db db' b r : keeps db db' -> ballot_confirmed db b r -> ballot_confirmed db' b r.
Proof.
  intros [Ks Kc Kp] (p & payload & A1 & A2 & A3 & A4). exists p, payload. split_and!; auto.
  by eapply confirmed_keeps.
Qed.
Lemma grant_confirmed_keeps db db' g r : keeps db db' -> grant_confirmed db g r -> grant_confirmed db' g r.
Proof.
  intros [Ks Kc Kp] (p & payload & A1 & A2 & A3 & A4 & A5). exists p, payload. split_and!; auto.
  by eapply confirmed_keeps.
Qed.

Lemma accounted_keeps db db' : keeps db db' -> accounted db ->
  (forall b, b ∈ ballots (rest db') -> b ∈ ballots (rest db) \/ exists r, ballot_confirmed db' b r) ->
  (forall g, g ∈ proxy_grants (rest db') -> g ∈ proxy_grants (rest db) \/ exists r, grant_confirmed db' g r) ->
  accounted db'.
Proof.
  intros K [Hb Hg] Nb Ng. split.
  - intros b [Hin|Hr]%Nb; [|done]. destruct (Hb b Hin) as (r & Hr). exists r. by eapply ballot_confirmed_keeps.
  - intros g [Hin|Hr]%Ng; [|done]. destruct (Hg g Hin) as (r & Hr). exists r. by eapply grant_confirmed_keeps.
Qed.

Lemma foreign_keeps db db' : foreign db db' -> keeps_settled db db' /\ keeps_consents db db'.
Proof. intros F. split; [eapply moved_keeps, F|]. intros c. by rewrite (fr_consents _ _ F). Qed.

(** ** What the transactions add *)

Record adds db db' : Prop := {
  ad_packages : decision_packages (rest db') = decision_packages (rest db);
  ad_ballots : forall b, b ∈ ballots (rest db') -> b ∈ ballots (rest db) \/ exists r, ballot_confirmed db b r;
  ad_grants : forall g, g ∈ proxy_grants (rest db') -> g ∈ proxy_grants (rest db) \/ exists r, grant_confirmed db g r
}.

Lemma adds_none db db' : decision_packages (rest db') = decision_packages (rest db) ->
  ballots (rest db') = ballots (rest db) -> proxy_grants (rest db') = proxy_grants (rest db) -> adds db db'.
Proof. intros Ep Eb Eg. split; [done|rewrite Eb; auto|rewrite Eg; auto]. Qed.

Lemma rooted_sha s db vote scope root v p r : rooted s db vote scope root v p r ->
  p ∈ decision_packages (rest db) /\ dp_vote p = vote /\ dp_id p = vr_package root /\
  dp_packageSha256 p = vr_packageSha256 root.
Proof. intros R. destruct (rt_package _ _ _ _ _ _ _ _ R) as (Hp & _ & Hv). by rewrite (rt_root _ _ _ _ _ _ _ _ R). Qed.

Lemma cast_adds input s db res db' : castBallotInTransaction input s db = Ok (res, db') -> adds db db'.
Proof.
  intros (context & root & v & p & r & sha & As & _ & O)%cast_ok.
  destruct O as [|src weight prior version response events db1 db' Adm _ W _ _ _ _ _ _]; [by apply adds_none|].
  destruct W as [K Eb _ Eg _]. split; [apply (tk_packages _ _ K)| |rewrite Eg; auto].
  intros b. rewrite Eb. intros [Hin|Hb]%elem_of_app; [by left|right]. apply list_elem_of_singleton in Hb as ->.
  destruct (rooted_sha _ _ _ _ _ _ _ _ (as_root _ _ _ _ _ _ _ _ _ _ As)) as (Hp & Hpv & Hid & Hsha).
  destruct (ca_consent _ _ _ _ _ _ _ _ Adm) as (payload & Hh & Hc). pose proof (ca_package _ _ _ _ _ _ _ _ Adm) as Epk.
  destruct (consented_confirmed _ _ _ _ _ _ _ _ _ (as_context _ _ _ _ _ _ _ _ _ _ As) Hc) as (st & Hst).
  exists st, p, payload. cbn. assert (dp_packageSha256 p = cb_decisionPackageSha256 input) as -> by congruence. by split_and!.
Qed.

Lemma grant_adds input s db res db' : gp_expiresAt input = None ->
  grantProxyInTransaction input s db = Ok (res, db') -> adds db db'.
Proof.
  intros Hx (context & root & v & p & r & sha & As & _ & O)%grant_ok.
  destruct O as [|expiry version response events db1 db2 db' Adm _ W _ _ _ _ _ _]; [by apply adds_none|].
  destruct W as [K Eg Eb _ _]. split; [apply (tk_packages _ _ K)|rewrite Eb; auto|].
  intros g. rewrite Eg. intros [Hin|Hb]%elem_of_app; [by left|right]. apply list_elem_of_singleton in Hb as ->.
  destruct (rooted_sha _ _ _ _ _ _ _ _ (as_root _ _ _ _ _ _ _ _ _ _ As)) as (Hp & Hpv & Hid & Hsha).
  destruct (gm_consent _ _ _ _ _ _ Adm) as (payload & Hh & Hc). pose proof (gm_package _ _ _ _ _ _ Adm) as Epk.
  pose proof (gm_expires _ _ _ _ _ _ Adm) as He. rewrite Hx in He, Hh. destruct expiry; [done|].
  destruct (consented_confirmed _ _ _ _ _ _ _ _ _ (as_context _ _ _ _ _ _ _ _ _ _ As) Hc) as (st & Hst).
  exists st, p, payload. cbn. assert (dp_packageSha256 p = gp_decisionPackageSha256 input) as -> by congruence. by split_and!.
Qed.

Lemma revoke_adds input s db res db' : revokeProxyInTransaction input s db = Ok (res, db') -> adds db db'.
Proof.
  intros (context & root & v & p & r & reason & sha & As & _ & O)%revoke_ok.
  destruct O as [|? ? ? ? ? ? db' _ _ W _ _ _ _ _ _]; [by apply adds_none|]. destruct W as [K _ Eb _ Eg].
  apply adds_none; [apply (tk_packages _ _ K)|done..].
Qed.

Lemma perform_adds p cid ids s db value db' : performAction p cid ids s db = Ok (value, db') -> adds db db'.
Proof.
  intros [(? & ? & ? & ? & ? & _ & _ & _ & E)|[(? & ? & ? & ? & ? & ? & _ & _ & _ & E)|
    (? & ? & ? & ? & ? & ? & ? & ? & ? & _ & _ & _ & E)]]%perform_cases;
    [by eapply grant_adds; [|exact E]|by eapply revoke_adds|by eapply cast_adds].
Qed.

Lemma confirm_accounted input s db res db' : confirmBallotLifecycleActionInTransaction input s db = Ok (res, db') ->
  wf db -> accounted db -> accounted db'.
Proof.
  intros E Hw Ac. destruct (confirm_wf _ _ _ _ _ E Hw) as (_ & Ks & Kc).
  apply confirm_tables in E as (_ & p & _ & Hres). destruct res as [value cid sha seqs|reason].
  - destruct Hres as (before & Hb & Hv). destruct (perform_adds _ _ _ _ _ _ _ Hv) as [Ep Nb Ng].
    destruct (foreign_keeps _ _ (perform_foreign _ _ _ _ _ _ _ Hv)) as [Ks2 Kc2].
    assert (keeps before db') as K2 by (split; [done..|]; by rewrite Ep). rewrite Hb in Ep, Nb, Ng. cbn in Ep, Nb, Ng.
    eapply accounted_keeps; [|done|..].
    + split; [done..|]. by rewrite Ep.
    + intros b [Hin|(r & Hr)]%Nb; [by left|right; exists r]. by eapply ballot_confirmed_keeps.
    + intros g [Hin|(r & Hr)]%Ng; [by left|right; exists r]. by eapply grant_confirmed_keeps.
  - eapply accounted_keeps; [split; [done..|]; by rewrite Hres|done|..]; rewrite Hres; auto.
Qed.

(** ** Histories *)

Inductive lifecycle_step db db' : Prop :=
| step_staging s input res : stageBallotLifecycleActionInTransaction input s db = Ok (res, db') -> lifecycle_step db db'
| step_confirmation s input res : confirmBallotLifecycleActionInTransaction input s db = Ok (res, db') ->
    lifecycle_step db db'
| step_elsewhere : foreign db db' -> other_act (rest db) (rest db') ->
    (forall p, p ∈ decision_packages (rest db) -> p ∈ decision_packages (rest db')) -> lifecycle_step db db'.

(** The invariant of both protocols together. *)
Record sound db : Prop := {
  sn_wf : wf db;
  sn_tables : tables_ok (rest db);
  sn_accounted : accounted db
}.

Lemma lifecycle_step_sound db db' : lifecycle_step db db' -> sound db -> sound db'.
Proof.
  intros S [Hw Ok0 Ac]. destruct S as [s input res E|s input res E|F O Hp].
  - destruct (lifecycle_stage_ok _ _ _ _ _ E) as (Er & S & _). split; [by eapply step_wf|by rewrite Er|].
    eapply accounted_keeps; [split; [exact (step_keeps _ _ S Hw)|exact (step_consents _ _ S Hw)|by rewrite Er]|done|..];
      rewrite Er; auto.
  - split; [by apply (confirm_wf _ _ _ _ _ E)|by eapply confirm_tables_ok|by eapply confirm_accounted].
  - split; [by eapply wf_foreign|by eapply other_ok|]. destruct (foreign_keeps _ _ F) as [Ks Kc].
    eapply accounted_keeps; [by split|done|..].
    + rewrite (oa_ballots _ _ O). auto.
    + rewrite (oa_grants _ _ O). auto.
Qed.

Lemma lifecycle_history_sound db db' : rtc lifecycle_step db db' -> sound db -> sound db'.
Proof. induction 1 as [|db1 db2 db3 S _ IH]; [done|]. intros Hs. by apply IH, (lifecycle_step_sound db1). Qed.

(** ** Properties *)

Lemma confirmed_once db b b' r r' : sound db -> b ∈ ballots (rest db) -> b' ∈ ballots (rest db) ->
  ballot_confirmed db b r -> ballot_confirmed db b' r' -> stage_id r = stage_id r' -> b = b'.
Proof.
  intros [Hw Ok0 _] Hb Hb' (p & h & _ & _ & _ & _ & _ & _ & _ & _ & _ & _ & _ & c & Hc & Hid & Hs)
    (p' & h' & _ & _ & _ & _ & _ & _ & _ & _ & _ & _ & _ & c' & Hc' & Hid' & Hs') E.
  assert (c = c') as -> by (eapply (keyed_once cn_stage); [apply (wf_consent_once _ Hw)|done|done|congruence]).
  eapply (keyed_once bl_consent); [apply (bo_consents _ (to_ballots _ Ok0))|done|done|congruence].
Qed.

(** C12. Every ballot was confirmed by who cast it. Through any history of staged
    and confirmed ballots and proxies and of other transactions, behind every
    ballot there is a stage that its caster confirmed, which binds the digest of
    exactly this ballot (vote, principal, caster, choice, statement, proxy) on
    the package it was cast on, and no two ballots share a stage; and behind
    every proxy is a stage that its principal confirmed. *)
Theorem every_ballot_confirmed db db' : sound db -> rtc lifecycle_step db db' ->
  sound db' /\
  (forall b, b ∈ ballots (rest db') -> exists r, ballot_confirmed db' b r /\
     forall b' r', b' ∈ ballots (rest db') -> ballot_confirmed db' b' r' -> stage_id r' = stage_id r -> b' = b) /\
  (forall g, g ∈ proxy_grants (rest db') -> exists r, grant_confirmed db' g r).
Proof.
  intros Hs R. pose proof (lifecycle_history_sound _ _ R Hs) as Hs'. split; [done|].
  destruct (sn_accounted _ Hs') as [Hb Hg]. split; [|done]. intros b Hin. destruct (Hb b Hin) as (r & Hr).
  exists r. split; [done|]. intros b' r' Hin' Hr' E. by eapply confirmed_once.
Qed.

Lemma confirmed_row db db' r a : settled db db' r a stage_confirmed attempt_confirmed -> r ∈ action_stages db ->
  exists r', r' ∈ action_stages db' /\ binding r' = binding r /\ st_state r' = stage_confirmed.
Proof.
  intros S Hr. destruct (settled_row_from _ _ _ _ _ (se_stages _ _ _ _ _ _ S) Hr) as (r' & Hr' & Hset).
  exists r'. split; [done|]. destruct Hset as (_ & B & Hd). by rewrite decide_True in Hd.
Qed.

(** The stage of a confirmation that performed: the payload and the package it
    binds are those of the action prepared then. *)
Lemma confirmation_stage input s db value cid sha seqs db' : wf db ->
  confirmBallotLifecycleActionInTransaction input s db = Ok (Confirmed value cid sha seqs, db') ->
  cid = ci_consentRecordId (bc_confirmation input) /\
  exists p r before, prepareInternal (bc_action input) s (begun db) = Ok (p, begun db) /\
    r ∈ action_stages db' /\ stage_id r = ci_stageId (bc_confirmation input) /\ st_state r = stage_confirmed /\
    st_payloadSha256 (binding r) = pa_payloadSha256 (pi_view p) /\
    st_packageSha256 (binding r) = Some (pa_packageSha256 (pi_view p)) /\
    rest before = with_cell (rest db) (Some p) /\
    performAction p cid (bc_generatedIds input) s before = Ok (value, db').
Proof.
  intros Hw E. apply confirm_tables in E as (E & p & Hp & before & Hb & Hv).
  pose proof (wf_foreign _ _ (begun_foreign db) Hw) as Hwb.
  destruct (confirm_cases _ _ _ _ _ _ _ _ Hwb (lock_honest _) (act_honest _) E)
    as (presented & current & locked & Hpr & Hl & F & _ & O).
  apply lock_prepared_ok in Hl as (p' & Hp' & _ & ->). assert (p' = p) as -> by congruence.
  inversion O as [| |r a v sh sq J Hj P]; subst. split; [done|].
  destruct (pf_consent _ _ _ _ _ _ _ _ _ P) as (recorded & code & args & caps & response & record & C & Ea & Ec & _).
  destruct (confirmed_binds _ _ _ _ _ _ _ _ _ _ _ _ _ Hpr J Hj C Ea Ec) as (answer & B).
  destruct (bd_payload _ _ _ _ _ _ B) as (B1 & _ & B2).
  destruct (confirmed_row _ _ _ _ (pf_settled _ _ _ _ _ _ _ _ _ P) (rd_stage _ _ _ (jd_read _ _ _ _ _ _ _ J))) as (r' & Hr' & Eb & Es).
  pose proof (jd_id _ _ _ _ _ _ _ J) as Hid.
  exists p, r', before. unfold stage_id in *. rewrite Eb. by split_and!.
Qed.

(** The ballot that a member asks for, under the consent to it. *)
Definition ballot_asked (member vote : jsstr) (principal : option jsstr) (choice : jsstr)
    (statement grantId : option jsstr) (consentId : jsstr) (b : BallotRow) : Prop :=
  bl_vote b = vote /\ bl_principal b = or_else principal member /\ bl_caster b = member /\ bl_choice b = choice /\
  bl_statement b = statement /\ bl_proxyGrant b = grantId /\ bl_consent b = consentId.

(** What casting a prepared ballot writes. *)
Lemma cast_rows input s db res db' : castBallotInTransaction input s db = Ok (res, db') ->
  proxy_grants (rest db') = proxy_grants (rest db) /\
  exists context, readRequestContext s = Ok context /\
  match cr_cast res with
  | None => db' = db
  | Some _ => exists b, ballots (rest db') = ballots (rest db) ++ [b] /\ bl_id b = cr_ballotId res /\
      bl_vote b = cb_voteId input /\ bl_principal b = cb_principalMemberId input /\ bl_caster b = ac_memberId context /\
      bl_choice b = cb_choice input /\ bl_statement b = cb_statement input /\ bl_proxyGrant b = cb_proxyGrantId input /\
      bl_consent b = cb_consentRecordId input
  end.
Proof.
  intros (context & root & v & p & r & sha & As & _ & O)%cast_ok.
  pose proof (as_context _ _ _ _ _ _ _ _ _ _ As) as Hc.
  destruct O as [|src weight prior version response events db1 db' _ _ W _ _ _ _ _ _]; [by split; [|exists context]|].
  destruct W as [_ Eb _ Eg _]. split; [done|]. exists context. split; [done|]. cbn. eexists. by split_and!.
Qed.

(** C13. A confirmation casts what was confirmed, and nothing else does. When the
    confirmation of a ballot performs, its stage is confirmed and binds the
    digest of the ballot that was asked for (its vote, principal, choice and
    statement, by the caller), and exactly that ballot is added under the consent
    of this stage, unless the request had been answered before and adds none.
    When the confirmation does not perform, no ballot and no proxy is added. *)
Theorem confirmed_ballot input vote principal choice statement key s db res db' : wf db ->
  bc_action input = action_ballot vote principal choice statement key ->
  confirmBallotLifecycleActionInTransaction input s db = Ok (res, db') ->
  proxy_grants (rest db') = proxy_grants (rest db) /\
  match res with
  | NotConfirmed _ => ballots (rest db') = ballots (rest db) /\
      idempotency_records (rest db') = idempotency_records (rest db)
  | Confirmed value consentId _ _ => exists context cast r grantId package payload,
      readRequestContext s = Ok context /\ value = result_ballot cast /\
      r ∈ action_stages db' /\ stage_id r = ci_stageId (bc_confirmation input) /\ st_state r = stage_confirmed /\
      st_payloadSha256 (binding r) = payload /\ st_packageSha256 (binding r) = Some package /\
      ballotConsentHash (Ballot.MkInput vote (or_else principal (ac_memberId context)) (ac_memberId context) choice
        statement grantId package) = Ok payload /\
      match cr_cast cast with
      | None => ballots (rest db') = ballots (rest db)
      | Some _ => exists b, ballots (rest db') = ballots (rest db) ++ [b] /\ bl_id b = cr_ballotId cast /\
          ballot_asked (ac_memberId context) vote principal choice statement grantId consentId b
      end
  end.
Proof.
  intros Hw Ea E. destruct res as [value cid sha seqs|reason].
  - destruct (confirmation_stage _ _ _ _ _ _ _ _ Hw E) as (_ & p & r & before & Hp & Hr & Hid & Hs & Hpay & Hpk & Hb & Hv).
    destruct (prepare_internal_ok _ _ _ _ _ Hp) as (_ & Hact & Has & root & v & pk & rl & n & Hsh).
    rewrite Ea in Has, Hact. destruct Has as (grantId & Hd & _ & _ & _ & Evote & Ewho & Hh).
    apply perform_cases in Hv as [(? & ? & ? & ? & ? & _ & Hx & _)|[(? & ? & ? & ? & ? & ? & _ & Hx & _)|
      (choice' & statement' & o & vote' & principal' & choice2 & statement2 & key' & cast & Hd' & Hx & -> & Hcast)]];
      [congruence..|]. rewrite Hd in Hd'. injection Hd' as <- <- <-.
    destruct (cast_rows _ _ _ _ _ Hcast) as (Eg & context & Hc & Hrows).
    assert (pi_context p = context) as Ectx by (pose proof (sh_context _ _ _ _ _ _ _ _ _ Hsh); congruence).
    rewrite Ectx in *. split; [by rewrite Eg, Hb|].
    exists context, cast, r, grantId, (pa_packageSha256 (pi_view p)), (pa_payloadSha256 (pi_view p)). split_and!; try done.
    rewrite Hb in Hrows. cbn in Hrows. rewrite Evote, Ewho in Hrows. destruct (cr_cast cast); [done|]. by rewrite Hrows, Hb.
  - apply confirm_tables in E as (_ & p & _ & ->). done.
Qed.

(** *** Completed ballots *)

Lemma completed_ballot_ok root vote principal member id s db b db' :
  completed_ballot root vote principal member id s db = Ok (b, db') ->
  db' = db /\ b ∈ ballots (rest db) /\ bl_id b = id /\ bl_vote b = vote /\ bl_principal b = principal /\ bl_caster b = member.
Proof.
  unfold completed_ballot. intros E. inv_tx. destruct (List.find _ _) as [q|] eqn:Ef; inv_tx.
  apply List.find_some in Ef as [Hq Hb]. boolify. by rewrite list_elem_of_In.
Qed.

Lemma entitled_reads root vote principal member b s db u db' :
  still_entitled root vote principal member b s db = Ok (u, db') -> db' = db.
Proof.
  unfold still_entitled. intros E. inv_tx.
  match goal with Hq : participants _ _ _ _ = Ok _ |- _ => apply participants_reads in Hq as -> end.
  match goal with Hq : excluded _ _ _ _ = Ok _ |- _ => apply excluded_reads in Hq as -> end.
  case_bool_decide; inv_tx; [|done].
  by match goal with Hq : activeRelationships _ _ _ = Ok _ |- _ => apply relationships_ok in Hq as [-> _] end.
Qed.

(** The record under a key answers whoever asks with that key. *)
Lemma replay_ok vote principal choice statement key s db r db' :
  replayCompletedBallotInTransaction vote principal choice statement key s db = Ok (r, db') ->
  db' = db /\ exists context, readRequestContext s = Ok context /\
  match r with
  | None => forall q, q ∈ idempotency_records (rest db) -> im_organization q = ac_organizationId context ->
      request_key q <> (ac_memberId context, ac_clientId context, operation_text cast_ballot, pg_text key)
  | Some res => exists q b sha, q ∈ idempotency_records (rest db) /\
      request_key q = (ac_memberId context, ac_clientId context, operation_text cast_ballot, pg_text key) /\
      b ∈ ballots (rest db) /\ im_response q = Some (js "ballot", bl_id b, cr_responseSha256 res) /\
      bl_vote b = vote /\ bl_principal b = or_else principal (ac_memberId context) /\ bl_caster b = ac_memberId context /\
      ballot_request (ac_organizationId context) vote (or_else principal (ac_memberId context)) (ac_memberId context)
        choice statement (bl_proxyGrant b) sha (bl_consent b) = Ok (im_requestSha256 q) /\
      res = MkCastResult vote (bl_id b) (or_else principal (ac_memberId context)) (bl_source b)
        (cr_responseSha256 res) None
  end.
Proof.
  unfold replayCompletedBallotInTransaction. intros E. inv_tx.
  match goal with Hq : parse_nullable canonicalText _ = Ok _ |- _ =>
      apply parse_nullable_ok in Hq as [-> Hq]; [|by intros ? ? [-> _]%canonicalText_ok] end.
  match goal with Hq : UuidV7Schema _ = Ok _ |- _ => apply parse_ok in Hq as [-> Hq] end.
  match goal with Hq : principal_of _ _ = Ok ?w |- _ => apply principal_ok in Hq; subst w end.
  match goal with Hq : idempotencyKey _ = Ok ?w |- _ => assert (w = key) as -> by
    (revert Hq; unfold idempotencyKey, validateIdempotencyKey; destruct (in_range 16 256 _); congruence) end.
  match goal with Hq : BallotLifecycle.lockVoteRoot _ _ _ _ = Ok _ |- _ => apply lock_root_ok in Hq as (-> & _) end.
  match goal with Hq : readRequestContext s = Ok ?c |- _ => rename c into context, Hq into Hcontext end.
  destruct (List.find _ _) as [q|] eqn:Ef.
  - apply List.find_some in Ef as [Hq Hb]. boolify. inv_tx.
    destruct (im_state q); inv_tx. destruct (im_response q) as [[[type id] response]|] eqn:Er; inv_tx.
    case_bool_decide as Ht; inv_tx.
    match goal with Hc : completed_ballot _ _ _ _ _ _ _ = Ok _ |- _ =>
      apply completed_ballot_ok in Hc as (-> & Hin & <- & Hbv & Hbp & Hbc) end.
    match goal with Hc : still_entitled _ _ _ _ _ _ _ = Ok _ |- _ => apply entitled_reads in Hc as -> end.
    match goal with Hc : Sha256HexSchema _ = Ok _ |- _ => apply parse_ok in Hc as [-> _] end.
    match goal with Hc : negb (safeHashEqual _ _) = false |- _ =>
      apply negb_false_iff, safeHashEqual_true in Hc as [_ Hc] end.
    split; [done|]. exists context. split; [done|]. eexists q, _, _. rewrite !list_elem_of_In in *. split_and!; try done;
      [unfold request_key; congruence|]. match goal with Hc : _ = im_requestSha256 q |- _ => by rewrite <- Hc end.
  - inv_tx. split; [done|]. exists context. split; [done|]. intros q Hq%list_elem_of_In Eo Ek. injection Ek as Ek1 Ek2 Ek3 Ek4.
    eapply List.find_none in Ef; [|exact Hq]. cbv beta in Ef. revert Ef. unfold scoped.
    rewrite Eo, (context_scope _ _ Hcontext). by rewrite !bool_decide_eq_true_2.
Qed.

(** Who asks for a completed ballot asks for the one that was cast: the vote and
    the principal are the same and so is the digest of the request. *)
Definition asks_again (input : CastBallotInput) (context : ActiveRequestContext) (vote : jsstr)
    (principal : option jsstr) (choice : jsstr) (statement : option jsstr) : Prop :=
  vote = cb_voteId input /\ or_else principal (ac_memberId context) = cb_principalMemberId input /\
  exists package sha, cast_request input (ac_memberId context) (cb_statement input) = Ok sha /\
    ballot_request (ac_organizationId context) vote (or_else principal (ac_memberId context)) (ac_memberId context)
      choice statement (cb_proxyGrantId input) package (cb_consentRecordId input) = Ok sha.

(** The same member through the same client, whatever the access token. *)
Definition same_caller (s s' : Session) : Prop :=
  forall c c', readRequestContext s = Ok c -> readRequestContext s' = Ok c' ->
    ac_organizationId c' = ac_organizationId c /\ ac_memberId c' = ac_memberId c /\ ac_clientId c' = ac_clientId c.

(** C19. A completed ballot is answered like a retry. After a ballot was cast, and
    as long as the record of its answer stays, the member who cast it, asking
    through the same client with the same idempotency key whether the ballot is
    complete, be it with another access token, gets, if anything at all, the
    answer of the cast again: the same ballot of the same vote and principal,
    from the same source and under the same digest of the response; the request
    has the digest of the one that was cast, and the database stays as it is. *)
Theorem completed_replay input s s' db res db' db'' vote principal choice statement r db3 :
  castBallotInTransaction input s db = Ok (res, db') -> cr_cast res <> None ->
  tables_ok (rest db'') -> (exists new, ballots (rest db'') = ballots (rest db') ++ new) ->
  (forall q, q ∈ idempotency_records (rest db') -> q ∈ idempotency_records (rest db'')) ->
  same_caller s s' ->
  replayCompletedBallotInTransaction vote principal choice statement (cb_idempotencyKey input) s' db'' = Ok (r, db3) ->
  db3 = db'' /\ r = Some (again res) /\ exists context, readRequestContext s = Ok context /\
    asks_again input context vote principal choice statement.
Proof.
  intros E Hn Ok2 (new & Enew) Hkept Hctx Hreplay. destruct (cast_ok _ _ _ _ _ E) as (context & root & v & p & rl & sha & As & Hsha & O).
  pose proof (as_context _ _ _ _ _ _ _ _ _ _ As) as Hc.
  destruct O as [|src weight prior version response events db1 db' Adm _ W _ _ _ An _ _]; [done|].
  set (b := ballot_row _ _ _ _ _ _ _) in W.
  destruct (replay_ok _ _ _ _ _ _ _ _ _ Hreplay) as (-> & context' & Hc' & Hr).
  destruct (Hctx _ _ Hc Hc') as (Eo & Em & El). rewrite Eo, Em, El in Hr. clear Hc' Eo Em El context'. split; [done|].
  destruct An as [Erec _ _]. destruct (as_organization _ _ _ _ _ _ _ _ _ _ As) as [Ho _].
  set (record := MkIdempotency _ _ _ _ _ _ _ _ _ _) in Erec.
  assert (record ∈ idempotency_records (rest db'')) as Hrec
    by (apply Hkept; rewrite Erec; apply elem_of_app; right; by apply list_elem_of_singleton).
  assert (b ∈ ballots (rest db'')) as Hb by (rewrite Enew, (bw_ballots _ _ _ _ W), !elem_of_app; left; right; by apply list_elem_of_singleton).
  destruct r as [res'|]; [|by destruct (Hr record Hrec)].
  destruct Hr as (q & b' & package & Hq & Hkey & Hb' & Hres & Hv & Hp & Hcaster & Hreq & ->).
  assert (q = record) as -> by (eapply (keyed_once request_key); [apply (to_keys _ Ok2)|done..]).
  unfold record in Hres, Hreq. cbn [im_response im_requestSha256] in Hres, Hreq. injection Hres as Hid Hresp.
  assert (b' = b) as -> by (eapply (keyed_once bl_id); [apply (bo_ids _ (to_ballots _ Ok2))|done|done|by rewrite <- Hid]).
  assert (vote = cb_voteId input) as -> by (by rewrite <- Hv).
  assert (or_else principal (ac_memberId context) = cb_principalMemberId input) as Ep by (by rewrite <- Hp).
  split; [unfold again; cbn [cr_voteId cr_ballotId cr_principalMemberId cr_source cr_responseSha256]; by rewrite Ep, Hresp|].
  exists context. split; [done|]. split; [done|]. split; [done|]. by exists package, sha.
Qed.
End histories.

(** ** A concrete confirmation *)

Definition lifecycle_clock : PgClock := vote_clock.
Definition lifecycle_sql : SqlAuthority (VoteTables (LifecycleTables unit)) :=
  {| boardagent_owned_administrative_stage _ _ _ := false;
     boardagent_owned_administrative_audit _ _ _ := false;
     administrative_snapshot_current _ _ _ _ := false |}.
Definition lifecycle_authority : VoteAuthority (LifecycleTables unit) :=
  {| boardagent_vote_actor_ready_for_scope _ _ _ _ := true;
     boardagent_member_record_recused _ _ _ _ := false;
     pg_timestamptz _ := None |}.
Definition lifecycle_jsonb : JsonbReading :=
  {| pg_jsonb bytes := match utf8_decode bytes with
                       | Some text => @strictParse plain_platform text
                       | None => Throw (DatabaseError "22021")
                       end |}.

#[local] Existing Instances sample_platform sample_time lifecycle_clock lifecycle_sql lifecycle_authority sample_urls
  lifecycle_jsonb.
#[local] Instance lifecycle_text : NodeText := @strict_text plain_platform.

Definition lifecycle_tables : LifecycleTables unit :=
  MkLifecycle [MkResolution (id_of "33") org board (js "Approve the budget.") (replicate 64 98)]
    [(org, alice, js "Alice"); (org, bob, js "Bob")] None tt.

Definition lifecycle_start : Database (VoteTables (LifecycleTables unit)) :=
  MkDatabase [] [] []
    [MkToken (id_of "05") org alice (id_of "03") (id_of "04") (js "https://board.example") None 9000000]
    [(id_of "03", true)] [(org, js "https://board.example")] [(org, board)] [(org, alice); (org, bob)] [] []
    (0, GENESIS_HASH) [] (opened_with lifecycle_tables).

(** Alice casts her own ballot. *)
Definition sample_action : BallotLifecycleAction :=
  action_ballot the_vote None (js "yes") (Some (js "for it")) (js "ballot-request-002").

Definition lifecycle_stage : BallotLifecycleStageInput :=
  MkLifecycleStage sample_action
    (MkStageInput (id_of "50") (id_of "51") None None None [] [] None [] JNull None (replicate 16 7) (js "ABCDEFGH")
       (id_of "05") (js "https://board.example") [] (JObj []) sample_capabilities (JObj []) (JObj []) (replicate 32 1) [1]
       (id_of "52") (id_of "53") (id_of "54")).

Definition lifecycle_confirmation : BallotLifecycleConfirmationInput :=
  MkLifecycleConfirm sample_action (MkIds (id_of "78") (id_of "79") (id_of "7a") (id_of "7b") (id_of "7c"))
    (MkConfirmInput (id_of "50") (id_of "43") [2] (JObj []) sample_capabilities (js "https://board.example")
       (replicate 32 1) accept (sample_answer "ABCDEFGH") (id_of "55") (id_of "56")).

Definition db_left {A} (r : result (A * Database (VoteTables (LifecycleTables unit))))
    : Database (VoteTables (LifecycleTables unit)) :=
  match r with Ok (_, db) => db | Throw _ => lifecycle_start end.

Definition lifecycle_staged_run := stageBallotLifecycleActionInTransaction lifecycle_stage (session_of alice) lifecycle_start.
Definition lifecycle_staged := db_left lifecycle_staged_run.
Definition lifecycle_confirmed_run :=
  confirmBallotLifecycleActionInTransaction lifecycle_confirmation (session_of alice) lifecycle_staged.
Definition lifecycle_confirmed := db_left lifecycle_confirmed_run.

Example lifecycle_runs :
  is_ok lifecycle_staged_run = true /\
  match lifecycle_confirmed_run with Ok (Confirmed (result_ballot r) _ _ _, _) => is_some (cr_cast r) | _ => false end = true /\
  map (fun b => (bl_choice b, bl_source b)) (ballots (rest lifecycle_confirmed)) = [(js "yes", own)].
Proof. vm_compute. split_and!; reflexivity. Qed.

Lemma db_left_ok {A} (r : result (A * Database (VoteTables (LifecycleTables unit)))) : is_ok r = true ->
  exists a, r = Ok (a, db_left r).
Proof. destruct r as [[a db]|e]; [|done]. intros _. by exists a. Qed.

Lemma lifecycle_start_sound : sound lifecycle_start.
Proof.
  split.
  - split; cbn; [constructor..|by intros r r' ?%elem_of_nil|constructor|intros id|].
    + split; [by intros ?%elem_of_nil|by intros (r & ?%elem_of_nil & _)].
    + exists []. split_and!; [constructor|done|done].
  - apply opened_with_ok.
  - split; cbn; by intros x ?%elem_of_nil.
Qed.

Lemma lifecycle_steps : rtc lifecycle_step lifecycle_start lifecycle_staged /\
  lifecycle_step lifecycle_staged lifecycle_confirmed.
Proof.
  destruct (db_left_ok lifecycle_staged_run) as (r1 & E1); [vm_compute; reflexivity|].
  destruct (db_left_ok lifecycle_confirmed_run) as (r2 & E2); [vm_compute; reflexivity|].
  unfold lifecycle_staged_run, lifecycle_confirmed_run in E1, E2. split.
  - apply rtc_once. exact (step_staging _ _ _ _ _ E1).
  - exact (step_confirmation _ _ _ _ _ E2).
Qed.

Lemma every_ballot_confirmed_witness : length (ballots (rest lifecycle_confirmed)) = 1%nat /\
  forall b, b ∈ ballots (rest lifecycle_confirmed) -> exists r, ballot_confirmed lifecycle_confirmed b r.
Proof.
  split; [vm_compute; reflexivity|]. destruct lifecycle_steps as [S1 S2].
  destruct (every_ballot_confirmed lifecycle_start lifecycle_confirmed lifecycle_start_sound (rtc_r _ _ _ S1 S2))
    as (_ & Hb & _). intros b Hin. destruct (Hb b Hin) as (r & Hr & _). exists r. exact Hr.
Defined.

Lemma confirmed_ballot_witness : exists value consentId sha sequences, lifecycle_confirmed_run
    = Ok (Confirmed value consentId sha sequences, lifecycle_confirmed) /\
  exists context r grantId package payload, readRequestContext (session_of alice) = Ok context /\
    r ∈ action_stages lifecycle_confirmed /\ st_payloadSha256 (binding r) = payload /\
    ballotConsentHash (Ballot.MkInput the_vote (ac_memberId context) (ac_memberId context) (js "yes") (Some (js "for it"))
      grantId package) = Ok payload.
Proof.
  pose proof (proj1 (proj2 lifecycle_runs)) as Hrun.
  destruct (db_left_ok lifecycle_confirmed_run) as (res & E); [vm_compute; reflexivity|]. rewrite E in Hrun.
  destruct res as [value cid sha seqs|reason]; [|discriminate Hrun]. exists value, cid, sha, seqs. split; [exact E|].
  assert (wf lifecycle_staged) as Hw by exact (sn_wf _ (lifecycle_history_sound _ _ (proj1 lifecycle_steps) lifecycle_start_sound)).
  destruct (confirmed_ballot lifecycle_confirmation the_vote None (js "yes") (Some (js "for it")) (js "ballot-request-002")
    (session_of alice) lifecycle_staged (Confirmed value cid sha seqs) lifecycle_confirmed Hw eq_refl E)
    as (_ & context & cast & r & g & package & payload & Hc & _ & Hr & _ & _ & Hp & Hpk & Hh & _).
  exists context, r, g, package, payload. exact (conj Hc (conj Hr (conj Hp Hh))).
Defined.

(** A ballot cast on a consent at hand, and asked for again. *)
Definition direct_cast := castBallotInTransaction own_input (session_of alice) (opened_at lifecycle_tables).
Definition direct_db := db_left direct_cast.
Definition direct_replay :=
  replayCompletedBallotInTransaction the_vote (Some alice) (js "yes") (Some (js "for it")) (js "ballot-request-002")
    (session_of alice) direct_db.

Lemma direct_runs : exists res, direct_cast = Ok (res, direct_db) /\ cr_cast res <> None.
Proof.
  destruct (db_left_ok direct_cast) as (res & E); [vm_compute; reflexivity|]. exists res. split; [exact E|].
  assert (match direct_cast with Ok (res, _) => is_some (cr_cast res) | Throw _ => false end = true) as Hs
    by (vm_compute; reflexivity). rewrite E in Hs. by destruct (cr_cast res).
Qed.

Lemma same_caller_refl s : same_caller s s.
Proof. intros c c' E E'. assert (c' = c) as -> by congruence. done. Qed.

Lemma completed_replay_witness : exists res, direct_cast = Ok (res, direct_db) /\ direct_replay = Ok (Some (again res), direct_db).
Proof.
  destruct direct_runs as (res & E & Hn). exists res. split; [exact E|].
  assert (is_ok direct_replay = true) as Hok by (vm_compute; reflexivity).
  destruct direct_replay as [[r db3]|e] eqn:Er; [|discriminate Hok]. unfold direct_cast in E. unfold direct_replay in Er.
  destruct (completed_replay own_input (session_of alice) (session_of alice) (opened_at lifecycle_tables) res direct_db direct_db
    the_vote (Some alice) (js "yes") (Some (js "for it")) r db3 E Hn (cast_tables_ok _ _ _ _ _ E (opened_with_ok _))
    (ex_intro _ [] (eq_sym (app_nil_r _))) (fun q Hq => Hq) (same_caller_refl _) Er) as (-> & -> & _).
  reflexivity.
Defined.
